(* ===== verification/_CoqProject ===== *)
-Q . S2P
Prelude.v
Mmu.v
Str.v
Kalloc.v
Vm.v
VmFacts.v
VmUser.v
VmThread.v
VmKernel.v
VmCopy.v
Ulock.v
Umalloc.v
Ulib.v
Mp.v
Dev.v
Apic.v
Clock.v
Boot.v
Spinlock.v
Seg.v
X86.v
Entry.v
Kernel.v
Rely.v
Sched.v
Pipe.v
Thread.v
Calls.v
Machine.v
Life.v
Fifo.v
Races.v
Fsys.v
Uprog.v
Progs.v
Grep.v
Shell.v
ShellFacts.v
Kthread.v
Field.v
Bio.v
Ide.v
Log.v
Console.v
Kbd.v
Fs.v
Args.v
Exec.v
Start.v
Mkfs.v
Plain.v
Sysfile.v
Syscall.v
System.v
Solo.v
BioFacts.v
Memide.v
LogFacts.v
Crash.v
Txn.v
FsFacts.v
FileFacts.v
IoFacts.v
Storage.v
ArgsFacts.v
PathFacts.v
ConsoleFacts.v
Forkret.v
DirFacts.v
MkfsFacts.v
KbdFacts.v
