(* ===== verification/Prelude.v ===== *)
(** * A verification of the xv6 kernel with kernel threads

    The sources under src/ are xv6 (a small Unix for x86) with threads added
    to its processes: clone makes a thread that shares the memory of its
    process, with a stack of its own near the top of user memory; join, tkill,
    tgkill, tsuspend and tresume act on threads; ulock.c and kthread.c are the
    user-level library on top.  This development models the kernel as Rocq
    functions, file by file, and proves what makes its parts correct.

    ** How code is modelled

    - Code that runs without being switched out (string.c, kalloc.c, vm.c, the
      start-up code) is a function in the monad [M] of this file: it returns,
      panics, faults on an address, or runs out of fuel.
    - Kernel code of a process is a computation of type [K] (Kernel.v): it is
      done, it halts the machine (panic), or it stops at a switch point,
      where it waits for a spin lock or has called sched.  At a switch point
      the shared state may be anything the other processes make of it.
    - Memory is byte-addressed, with little-endian words; page tables and the
      free list are in that memory, as in the source.  Machine integers are
      integers with [u32] and [s32] written where the code wraps around.
    - The disk is a map from block numbers to blocks; a block is a list of 512
      bytes, and the structures in it are read and written at their offsets.
    - Devices are reached through ports and registers (Dev.v): the model keeps
      a log of the accesses, and the hardware is a function from the log to the
      value that is read.  What a device promises is a class of laws about that
      function, with an instance that satisfies it.
    - Assembly is a sequence of instructions over the registers and the memory
      of a processor (X86.v, and Entry.v before the kernel runs).
    - A user program is a tree of system calls of type [U] (Uprog.v), run
      against a system that answers the calls.
    - A loop that is not structural has a fuel argument.  [turns] bounds the
      waits of a process for others; two turns are enough for a wait for the
      disk, and the theorems about files use any number from two on.  The waits
      for devices need no more turns than the device takes to be ready, and six
      turns are enough for the clock.  The theorems prove that the result is
      reached, so the fuel is enough.

    ** The files and what they model

    - Prelude: the monad, its reasoning rules, 32-bit arithmetic.
      Mmu: mmu.h, memlayout.h, param.h; memory.
    - Str: string.c.  Kalloc: kalloc.c, over the free list in memory.
      Vm: vm.c; VmFacts, VmUser, VmThread, VmKernel, VmCopy: its theorems.
    - Dev: the port and string instructions of x86.h.  Apic: lapic.c, ioapic.c,
      picirq.c, and the parts of uart.c, console.c and ide.c that set up their
      devices.  Clock: the theorem about the clock of lapic.c.  Mp: mp.c.
      Ide: the ports of ide.c.  Memide: memide.c.
    - Boot: bootmain.c.  Entry: bootasm.S, entry.S, entryother.S.  Seg: the
      descriptors of mmu.h, seginit and switchuvm of vm.c, tvinit and idtinit
      of trap.c.  X86: swtch.S, trapasm.S, vectors.pl, usys.S, initcode.S, and
      the kernel stack that allocproc lays out.  Start: main.c.
    - Ulock: ulock.c, as threads that interleave statement by statement.
      Spinlock: spinlock.c, as CPUs that interleave.
    - Kernel: struct proc, struct cpu and the shared state of the kernel; spin
      locks and switch points.  Sched, Thread: proc.c.  Pipe: pipe.c, file.c.
    - Fsys: the state of the file system, buf.h, fs.h, file.h.  Bio:
      sleeplock.c, ide.c, bio.c.  Log: log.c.  Console: console.c, uart.c.
      Kbd: kbd.c.  Fs: fs.c, and forkret of proc.c.  Exec: exec.c, and the file system as the
      instance of the interface [Inodes] that Pipe and Thread are written
      against.  Args: the arguments of syscall.c.  Sysfile: sysfile.c.
      Syscall: sysproc.c, the table of calls, trap.c.
    - Umalloc: umalloc.c; Ulib: ulib.c, printf.c, in the memory of a program.
      Uprog: the calls of user.h.  Kthread: kthread.c.  Progs: init.c, cat.c,
      echo.c, wc.c, kill.c, ln.c, ls.c, mkdir.c, rm.c, zombie.c.  Grep: grep.c.
      Shell, ShellFacts: sh.c.  Mkfs, MkfsFacts: mkfs.c.
    - Rely: a rely-guarantee logic for the process table.  Calls: the calls of
      proc.c, file.c and pipe.c in it.  Plain: the functions of the file system,
      which leave the process table alone.  Machine: processes that enter a
      kernel interleaved on any number of CPUs.  System: that machine with the
      whole kernel, entered through trap.  Life, Fifo, Races: theorems about single calls, and
      about runs of the machine.
    - Solo: one process and the disk, with every content of the disk on the
      way.  BioFacts, LogFacts, Crash, Txn, FsFacts, FileFacts, IoFacts,
      Storage, DirFacts: the file system, from the buffer cache up to files
      and directories.  Forkret: the start of the file system.  ArgsFacts,
      PathFacts, ConsoleFacts, KbdFacts: the other theorems about the code of
      their names.  Field: the words of a block.

    ** What the theorems show

    - Files and crashes: a write of a chunk by filewrite is atomic and durable
      across crashes, also crashes during recovery (Storage.write_atomic), by
      way of the commit of the log (Crash.end_op_atomic); what is written is
      what is read (Storage.write_read), and no other file changes
      (Storage.write_isolated).  Directories are maps from names to inodes
      (DirFacts), and paths are what is between their slashes (PathFacts).
      These theorems are about one process and the disk: the transaction of
      one process, with every order of its reads, writes and interrupts.
      The first process of the next start recovers such a disk
      (Forkret.forkret_recovers).  An image of mkfs holds the files that it was
      given (MkfsFacts).
    - Start: the boot block enters main with its segments and pages
      (Entry.kernel_entered), and main routes the interrupts and starts every
      processor of the tables (Start.main_starts_processors).
    - Traps: the gates that user code can reach, and the way through a gate to
      trap and back (X86.user_int_gates, X86.stub_returns); a switch to another
      stack and back, and the first run of a process (X86.swtch_resumes,
      X86.new_process_starts).
    - Devices: ide.c gives the controller the commands of the disk model (Ide),
      the disk in memory is the same to a process (Memide), and the clock is
      read without tearing (Clock).
    - Processes and threads: in every interleaving, ids are unique, states are
      consistent and a process under construction is private (System, for
      every trap but the call tresume, which breaks it (Races), and an exec by
      a thread that is not the leader of its group).  What exit, wait, join,
      tgkill, kill, sleep and wakeup do, whatever the others do at their
      switch points (Life).  Pipes are queues of bytes (Fifo).
    - Memory: the page allocator implements a set of pages (Kalloc); growing,
      shrinking and thread stacks change exactly the entries that they should
      (VmUser, VmThread); fork copies every page and shares none (VmCopy), and
      the kernel is mapped as kmap says (VmKernel).  Copies to and from user memory, and the addresses
      that system calls accept (ArgsFacts).
    - Locks: mutual exclusion of the kernel's and of the user's spin locks,
      safety of the semaphore, and the runs in which it deadlocks or loses a
      wakeup (Spinlock, Ulock).
    - Programs: the shell parses its grammar and connects pipes and
      redirections (ShellFacts), grep matches the patterns that it means to
      (Grep), and malloc hands out blocks that do not overlap (Umalloc).
    - The console edits lines without leaving the screen (ConsoleFacts), and
      the keyboard yields bytes (KbdFacts).

    ** Bounds

    Constants are those of the sources: 64 processes and 16 files each
    (parameters of the machine where the proofs do not need them), 30 buffers
    and 30 blocks of log, 1000 blocks of disk, files of 140 blocks.  The
    theorems about a write assume that the log and the cache have place for
    6 blocks per block written and one for the inode, which the chunk of
    1536 bytes of filewrite keeps below 26.

    ** What is not modelled

    The test programs (usertests.c, threadtests.c, overlaptests.c, forktest.c,
    stressfs.c), which check a running kernel and are no part of it; the
    scripts that build and print the sources (Makefile, sign.pl, pr.pl, runoff)
    and the Promela model sleep1.p.  The end of panic, which prints and stops
    every processor, is the error result of the monads.  The addresses that the
    linker fixes are parameters (the class [Link]) with the laws of kernel.ld.
    Caches and the reordering of memory accesses are not modelled; the
    processors that main starts run one after the other up to scheduler.  Two
    processes in the file system at once are modelled (the computations have
    their switch points) but the theorems about files are for one process and
    the disk. *)

From stdpp Require Export base list gmap strings.
From Stdlib Require Export ZArith Lia.
Open Scope Z_scope.

(** [lia] is used throughout with division and remainder by constants. *)
Ltac Zify.zify_post_hook ::= Z.to_euclidean_division_equations.

(** * Outcomes and the sequential state-and-error monad *)

(** What a piece of kernel code can do when it runs without being
    switched out: return a value, call [panic], fault on an address that
    the hardware does not let it access, or (a model artefact, excluded by
    the termination theorems) run out of fuel. *)
Inductive res (S A : Type) : Type :=
| OK (a : A) (s : S)
| PANIC (msg : string) (s : S)
| FAULT (addr : Z) (s : S)
| NOFUEL (s : S).
Arguments OK {S A} a s.
Arguments PANIC {S A} msg s.
Arguments FAULT {S A} addr s.
Arguments NOFUEL {S A} s.

Definition M (S A : Type) : Type := S -> res S A.

#[global] Instance M_ret S : MRet (M S) := fun A a s => OK a s.
#[global] Instance M_bind S : MBind (M S) := fun A B f m s =>
  match m s with
  | OK a s' => f a s'
  | PANIC msg s' => PANIC msg s'
  | FAULT addr s' => FAULT addr s'
  | NOFUEL s' => NOFUEL s'
  end.

Definition getS {S} : M S S := fun s => OK s s.
Definition gets {S A} (f : S -> A) : M S A := fun s => OK (f s) s.
Definition modify {S} (f : S -> S) : M S unit := fun s => OK tt (f s).
Definition panic {S A} (msg : string) : M S A := fun s => PANIC msg s.
Definition fault {S A} (addr : Z) : M S A := fun s => FAULT addr s.
Definition nofuel {S A} : M S A := fun s => NOFUEL s.

(** A component's operation run on the part of a larger state that the
    component owns. *)
Record lens (T S : Type) := Lens {
  lget : T -> S;
  lput : S -> T -> T;
}.
Arguments Lens {T S}.
Arguments lget {T S}.
Arguments lput {T S}.

Definition zoom {T S A} (l : lens T S) (m : M S A) : M T A := fun t =>
  match m (lget l t) with
  | OK a s => OK a (lput l s t)
  | PANIC msg s => PANIC msg (lput l s t)
  | FAULT addr s => FAULT addr (lput l s t)
  | NOFUEL s => NOFUEL (lput l s t)
  end.

(** Total correctness of a sequential operation from one state: it returns
    (no panic, no fault, no lack of fuel) and the result satisfies [Q]. *)
Definition wp {S A} (m : M S A) (s : S) (Q : A -> S -> Prop) : Prop :=
  match m s with
  | OK a s' => Q a s'
  | _ => False
  end.

Section wp_rules.
Context {S : Type}.

Lemma wp_intro {A} (m : M S A) s a s' (Q : A -> S -> Prop) :
  m s = OK a s' -> Q a s' -> wp m s Q.
Proof. unfold wp. by intros ->. Qed.

Lemma wp_elim {A} (m : M S A) s (Q : A -> S -> Prop) :
  wp m s Q -> exists a s', m s = OK a s' /\ Q a s'.
Proof. unfold wp. destruct (m s); naive_solver. Qed.

Lemma wp_ret {A} (a : A) s (Q : A -> S -> Prop) : Q a s -> wp (mret a) s Q.
Proof. done. Qed.

Lemma wp_bind {A B} (m : M S A) (f : A -> M S B) s Q :
  wp m s (fun a s' => wp (f a) s' Q) -> wp (m ≫= f) s Q.
Proof. unfold wp, mbind, M_bind. by destruct (m s). Qed.

Lemma wp_mono {A} (m : M S A) s (P Q : A -> S -> Prop) :
  wp m s P -> (forall a s', P a s' -> Q a s') -> wp m s Q.
Proof. unfold wp. destruct (m s); naive_solver. Qed.

Lemma wp_gets {A} (f : S -> A) s (Q : A -> S -> Prop) :
  Q (f s) s -> wp (gets f) s Q.
Proof. done. Qed.

Lemma wp_modify (f : S -> S) s (Q : unit -> S -> Prop) :
  Q tt (f s) -> wp (modify f) s Q.
Proof. done. Qed.

Lemma bind_OK {A B} (m : M S A) (f : A -> M S B) s a s' :
  m s = OK a s' -> (m ≫= f) s = f a s'.
Proof. unfold mbind, M_bind. by intros ->. Qed.

Lemma bind_gets {A B} (f : S -> A) (k : A -> M S B) s : (gets f ≫= k) s = k (f s) s.
Proof. done. Qed.

Lemma bind_modify {B} (f : S -> S) (k : unit -> M S B) s :
  (modify f ≫= k) s = k tt (f s).
Proof. done. Qed.

Lemma bind_ret {A B} (a : A) (k : A -> M S B) s : (mret a ≫= k) s = k a s.
Proof. done. Qed.

Lemma bind_OK_inv {A B} (m : M S A) (f : A -> M S B) s b s'' :
  (m ≫= f) s = OK b s'' ->
  exists a s', m s = OK a s' /\ f a s' = OK b s''.
Proof. unfold mbind, M_bind. destruct (m s); naive_solver. Qed.

Lemma bind_assoc {A B C} (m : M S A) (f : A -> M S B) (g : B -> M S C) s :
  ((m ≫= f) ≫= g) s = (m ≫= (fun a => f a ≫= g)) s.
Proof. unfold mbind, M_bind. by destruct (m s). Qed.

(** [m'] has the result of [m] where [m] has one: what more fuel gives. *)
Definition extends {A} (m m' : M S A) : Prop := forall s a s', m s = OK a s' -> m' s = OK a s'.

Lemma extends_refl {A} (m : M S A) : extends m m.
Proof. by intros s a s'. Qed.

Lemma extends_bind {A B} (m m' : M S A) (f f' : A -> M S B) :
  extends m m' -> (forall a, extends (f a) (f' a)) -> extends (m ≫= f) (m' ≫= f').
Proof.
  intros Hm Hf s b s'' (a & s' & E1 & E2)%bind_OK_inv. rewrite (bind_OK _ _ _ _ _ (Hm _ _ _ E1)). by apply Hf.
Qed.

Lemma extends_nofuel {A} (m : M S A) : extends nofuel m.
Proof. by intros s a s'. Qed.

End wp_rules.

Create HintDb extends.
#[export] Hint Resolve extends_refl extends_bind extends_nofuel : extends.

Lemma zoom_OK {T S A} (l : lens T S) (m : M S A) t a s :
  m (lget l t) = OK a s -> zoom l m t = OK a (lput l s t).
Proof. unfold zoom. by intros ->. Qed.

Lemma wp_zoom {T S A} (l : lens T S) (m : M S A) t (Q : A -> T -> Prop) :
  wp m (lget l t) (fun a s => Q a (lput l s t)) -> wp (zoom l m) t Q.
Proof. unfold wp, zoom. by destruct (m (lget l t)). Qed.

(** Runs the monad's own operations. *)
Ltac mrun :=
  cbv beta iota delta [mbind M_bind mret M_ret gets getS modify panic fault nofuel].

Create HintDb xv6.
#[export] Hint Resolve wp_ret wp_gets wp_modify : xv6.

(** * Machine integers *)

(** [uint] and [int] of the source are 32-bit. *)
Definition u32 (z : Z) : Z := z mod 2 ^ 32.
Definition s32 (z : Z) : Z := (z + 2 ^ 31) mod 2 ^ 32 - 2 ^ 31.
Definition u8 (z : Z) : Z := z mod 256.

Lemma u32_range z : 0 <= u32 z < 2 ^ 32.
Proof. unfold u32. lia. Qed.
Lemma u32_id z : 0 <= z < 2 ^ 32 -> u32 z = z.
Proof. unfold u32. intros. apply Z.mod_small. lia. Qed.
Lemma u32_idem z : u32 (u32 z) = u32 z.
Proof. apply u32_id, u32_range. Qed.
Lemma s32_range z : - 2 ^ 31 <= s32 z < 2 ^ 31.
Proof. unfold s32. lia. Qed.
Lemma s32_id z : - 2 ^ 31 <= z < 2 ^ 31 -> s32 z = z.
Proof. unfold s32. intros. rewrite Z.mod_small; lia. Qed.

(** * Bit masks as arithmetic *)

Lemma land_ones_mod (a n : Z) : 0 <= n -> Z.land a (2 ^ n - 1) = a mod 2 ^ n.
Proof.
  intros. replace (2 ^ n - 1) with (Z.ones n).
  - by apply Z.land_ones.
  - rewrite Z.ones_equiv. lia.
Qed.

Lemma land_lnot_ones (a n : Z) :
  0 <= n -> Z.land a (Z.lnot (2 ^ n - 1)) = a - a mod 2 ^ n.
Proof.
  intros Hn. replace (2 ^ n - 1) with (Z.ones n) by (rewrite Z.ones_equiv; lia).
  rewrite <- Z.ldiff_land, Z.ldiff_ones_r, Z.shiftl_mul_pow2, Z.shiftr_div_pow2 by lia.
  pose proof (Z.div_mod a (2 ^ n)). nia.
Qed.

(** Running a closed computation: its final state, and its result. *)
Definition final {S A} (r : res S A) : S :=
  match r with OK _ s | PANIC _ s | FAULT _ s | NOFUEL s => s end.
Definition returns {S} (r : res S Z) (v : Z) : bool :=
  match r with OK a _ => a =? v | _ => false end.

Lemma returns_final {S} (r : res S Z) v : returns r v = true -> r = OK v (final r).
Proof. destruct r; simpl; try done. by intros ->%Z.eqb_eq. Qed.

Definition succeeds {S} (r : res S unit) : bool :=
  match r with OK _ _ => true | _ => false end.

Lemma succeeds_final {S} (r : res S unit) : succeeds r = true -> r = OK tt (final r).
Proof. by destruct r as [[]|?|?|?]. Qed.

Lemma OK_inj {S A} (a a' : A) (s s' : S) : OK a s = OK a' s' -> a = a' /\ s = s'.
Proof. by intros [= -> ->]. Qed.

Lemma final_OK {S A} (r : res S A) a s : r = OK a s -> final r = s.
Proof. by intros ->. Qed.
