(* ===== verification/Mmu.v ===== *)
(** Constants of param.h, mmu.h, memlayout.h and traps.h, the address macros, and
    byte-addressed memory with little-endian word access. *)

From S2P Require Import Prelude.

(** * Constants *)

Definition NPROC : nat := 64.
Definition MAXOPBLOCKS : Z := 10.
Definition NOFILE : nat := 16.
Definition NFILE : nat := 100.
Definition KSTACKSIZE : Z := 4096.

Definition PGSIZE : Z := 4096.
Definition NPDENTRIES : Z := 1024.
Definition NPTENTRIES : Z := 1024.
Definition PTXSHIFT : Z := 12.
Definition PDXSHIFT : Z := 22.

Definition PTE_P : Z := 1.
Definition PTE_W : Z := 2.
Definition PTE_U : Z := 4.
Definition PTE_PS : Z := 0x80.

Definition EXTMEM : Z := 0x100000.
Definition PHYSTOP : Z := 0xE000000.
Definition DEVSPACE : Z := 0xFE000000.
Definition KERNBASE : Z := 0xC800000.
Definition KERNLINK : Z := KERNBASE + EXTMEM.

(** The privilege level of user code. *)
Definition DPL_USER : Z := 3.

(** Numbers of traps and of interrupt lines. *)
Definition T_SYSCALL : Z := 64.
Definition T_IRQ0 : Z := 32.
Definition IRQ_TIMER : Z := 0.
Definition IRQ_KBD : Z := 1.
Definition IRQ_COM1 : Z := 4.
Definition IRQ_IDE : Z := 14.
Definition IRQ_ERROR : Z := 19.
Definition IRQ_SPURIOUS : Z := 31.

(** * Address macros *)

Definition V2P (a : Z) : Z := u32 (u32 a - KERNBASE).
Definition P2V (a : Z) : Z := u32 (a + KERNBASE).
Definition PDX (va : Z) : Z := Z.land (Z.shiftr (u32 va) PDXSHIFT) 0x3FF.
Definition PTX (va : Z) : Z := Z.land (Z.shiftr (u32 va) PTXSHIFT) 0x3FF.
Definition PGADDR (d t o : Z) : Z :=
  u32 (Z.lor (Z.lor (Z.shiftl d PDXSHIFT) (Z.shiftl t PTXSHIFT)) o).
Definition PGROUNDUP (sz : Z) : Z :=
  Z.land (u32 (sz + PGSIZE - 1)) (Z.lnot (PGSIZE - 1)).
Definition PGROUNDDOWN (a : Z) : Z := Z.land (u32 a) (Z.lnot (PGSIZE - 1)).
Definition PTE_ADDR (pte : Z) : Z := Z.land (u32 pte) (Z.lnot 0xFFF).
Definition PTE_FLAGS (pte : Z) : Z := Z.land (u32 pte) 0xFFF.

(** [x & flag] used as a condition. *)
Definition testf (x flag : Z) : bool := negb (Z.land x flag =? 0).

(** * Memory *)

(** A memory cell is a byte; [load8] reads it modulo 256, so any integer
    stands for the byte it is congruent to. *)
Definition memory : Type := Z -> Z.
Definition load8 (m : memory) (a : Z) : Z := m a mod 256.
Definition store8 (m : memory) (a v : Z) : memory :=
  fun x => if x =? a then v mod 256 else m x.
Definition load32 (m : memory) (a : Z) : Z :=
  load8 m a + 256 * load8 m (a + 1) + 65536 * load8 m (a + 2)
  + 16777216 * load8 m (a + 3).
Definition store32 (m : memory) (a v : Z) : memory := fun x =>
  if (a <=? x) && (x <? a + 4) then (v / 256 ^ (x - a)) mod 256 else m x.

(** Filling and copying [n] bytes at once: what memset and memmove of
    string.c compute (file Str proves it of their loops). *)
Definition fill (m : memory) (dst c n : Z) : memory := fun x =>
  if (dst <=? x) && (x <? dst + n) then c mod 256 else m x.
Definition copy (m : memory) (dst src n : Z) : memory := fun x =>
  if (dst <=? x) && (x <? dst + n) then m (src + (x - dst)) else m x.

(** * Arithmetic of the macros *)

Ltac unf := unfold PGSIZE, PTXSHIFT, PDXSHIFT, KERNBASE, PHYSTOP, EXTMEM,
  DEVSPACE, KERNLINK, NPDENTRIES, NPTENTRIES, KSTACKSIZE in *.
Ltac ulia := unf; lia.

Lemma land_u32_range e x : 0 <= e < 2 ^ 32 -> 0 <= Z.land e x < 2 ^ 32.
Proof.
  intros He. rewrite <- (u32_id e He). unfold u32.
  rewrite <- land_ones_mod, <- Z.land_assoc, (Z.land_comm _ x), Z.land_assoc, land_ones_mod by lia.
  lia.
Qed.

Lemma PDX_eq va : PDX va = u32 va / 2 ^ 22.
Proof.
  unfold PDX. unf. change 0x3FF with (2 ^ 10 - 1).
  rewrite land_ones_mod, Z.shiftr_div_pow2 by lia. unfold u32. lia.
Qed.

Lemma PTX_eq va : PTX va = (u32 va / 2 ^ 12) mod 1024.
Proof.
  unfold PTX. unf. change 0x3FF with (2 ^ 10 - 1).
  rewrite land_ones_mod, Z.shiftr_div_pow2 by lia. reflexivity.
Qed.

Lemma PGROUNDDOWN_eq a : PGROUNDDOWN a = u32 a - u32 a mod 4096.
Proof. unfold PGROUNDDOWN. exact (land_lnot_ones _ 12 ltac:(lia)). Qed.

Lemma PGROUNDUP_eq a :
  0 <= a <= 2 ^ 32 - 4096 -> PGROUNDUP a = (a + 4095) / 4096 * 4096.
Proof.
  intros. unfold PGROUNDUP. unf. rewrite u32_id by lia.
  change (4096 - 1) with (2 ^ 12 - 1). rewrite land_lnot_ones by lia. lia.
Qed.

Lemma PTE_ADDR_eq p : PTE_ADDR p = u32 p - u32 p mod 4096.
Proof. unfold PTE_ADDR. exact (land_lnot_ones _ 12 ltac:(lia)). Qed.

Lemma PTE_FLAGS_eq p : PTE_FLAGS p = u32 p mod 4096.
Proof. unfold PTE_FLAGS. exact (land_ones_mod _ 12 ltac:(lia)). Qed.

Lemma PDX_range va : 0 <= PDX va < 1024.
Proof. rewrite PDX_eq. pose proof (u32_range va). lia. Qed.
Lemma PTX_range va : 0 <= PTX va < 1024.
Proof. rewrite PTX_eq. lia. Qed.

(** Two addresses are on the same page exactly when both indices agree. *)
Lemma same_page va va' :
  PDX va = PDX va' /\ PTX va = PTX va' <-> u32 va / 4096 = u32 va' / 4096.
Proof.
  rewrite !PDX_eq, !PTX_eq.
  pose proof (u32_range va). pose proof (u32_range va'). lia.
Qed.

(** * Loads after stores *)

Lemma load8_range m a : 0 <= load8 m a < 256.
Proof. unfold load8. lia. Qed.

Lemma load32_range m a : 0 <= load32 m a < 2 ^ 32.
Proof.
  unfold load32. pose proof (load8_range m a).
  pose proof (load8_range m (a + 1)). pose proof (load8_range m (a + 2)).
  pose proof (load8_range m (a + 3)). lia.
Qed.

Lemma load8_store32_ne m a v x : x < a \/ a + 4 <= x -> load8 (store32 m a v) x = load8 m x.
Proof.
  intros. unfold load8, store32.
  destruct ((a <=? x) && (x <? a + 4)) eqn:E; [|done].
  apply andb_true_iff in E as [?%Z.leb_le ?%Z.ltb_lt]. lia.
Qed.

Lemma load32_store32_eq m a v : load32 (store32 m a v) a = u32 v.
Proof.
  unfold load32, load8, store32.
  rewrite !(proj2 (Z.leb_le _ _)), !(proj2 (Z.ltb_lt _ _)) by lia. simpl.
  replace (a - a) with 0 by lia. replace (a + 1 - a) with 1 by lia.
  replace (a + 2 - a) with 2 by lia. replace (a + 3 - a) with 3 by lia.
  change (256 ^ 0) with 1. change (256 ^ 1) with 256.
  change (256 ^ 2) with 65536. change (256 ^ 3) with 16777216.
  unfold u32. lia.
Qed.

Lemma load32_ext m m' a :
  (forall x, a <= x < a + 4 -> load8 m x = load8 m' x) -> load32 m a = load32 m' a.
Proof. intros H. unfold load32. by rewrite !H by lia. Qed.

Lemma load32_store32_ne m a v b :
  b + 4 <= a \/ a + 4 <= b -> load32 (store32 m a v) b = load32 m b.
Proof. intros. apply load32_ext. intros. apply load8_store32_ne. lia. Qed.

Lemma load8_fill_ne m d c n x : x < d \/ d + n <= x -> load8 (fill m d c n) x = load8 m x.
Proof.
  intros. unfold load8, fill.
  destruct ((d <=? x) && (x <? d + n)) eqn:E; [|done].
  apply andb_true_iff in E as [?%Z.leb_le ?%Z.ltb_lt]. lia.
Qed.

Lemma load8_fill_eq m d c n x : d <= x < d + n -> load8 (fill m d c n) x = c mod 256.
Proof.
  intros. unfold load8, fill.
  rewrite (proj2 (Z.leb_le _ _)), (proj2 (Z.ltb_lt _ _)) by lia. simpl. lia.
Qed.

Lemma load32_fill_ne m d c n b :
  b + 4 <= d \/ d + n <= b -> load32 (fill m d c n) b = load32 m b.
Proof. intros. apply load32_ext. intros. apply load8_fill_ne. lia. Qed.

Lemma load32_fill_0 m d n b : d <= b -> b + 4 <= d + n -> load32 (fill m d 0 n) b = 0.
Proof. intros. unfold load32. by rewrite !load8_fill_eq by lia. Qed.

Lemma load8_copy_ne m d s n x : x < d \/ d + n <= x -> load8 (copy m d s n) x = load8 m x.
Proof.
  intros. unfold load8, copy.
  destruct ((d <=? x) && (x <? d + n)) eqn:E; [|done].
  apply andb_true_iff in E as [?%Z.leb_le ?%Z.ltb_lt]. lia.
Qed.

Lemma load8_copy_eq m d s n x :
  d <= x < d + n -> load8 (copy m d s n) x = load8 m (s + (x - d)).
Proof.
  intros. unfold load8, copy.
  by rewrite (proj2 (Z.leb_le _ _)), (proj2 (Z.ltb_lt _ _)) by lia.
Qed.

Lemma load32_copy_ne m d s n b :
  b + 4 <= d \/ d + n <= b -> load32 (copy m d s n) b = load32 m b.
Proof. intros. apply load32_ext. intros. apply load8_copy_ne. lia. Qed.

Create HintDb mem.
#[export] Hint Rewrite load32_store32_eq : mem.
#[export] Hint Rewrite load32_store32_ne load32_fill_ne load32_copy_ne using lia : mem.

(** A flag of a word that was put together. *)
Lemma testf_lor x y f : testf (Z.lor x y) f = testf x f || testf y f.
Proof.
  unfold testf. rewrite Z.land_lor_distr_l. destruct (Z.eqb_spec (Z.land x f) 0) as [->|Hx]; [done|].
  destruct (Z.eqb_spec (Z.lor (Z.land x f) (Z.land y f)) 0) as [E|?]; [|done]. by apply Z.lor_eq_0_iff in E as [? _].
Qed.
