(* ===== verification/Str.v ===== *)
(** string.c: the kernel's memory and string routines, as loops over
    byte-addressed memory, and the proof that they compute the block
    operations ([fill], [copy]) and the list functions the other
    components rely on. *)

From S2P Require Import Prelude Mmu.

(** * Definitions *)

(** [rep stosb] and [rep stosl] of x86.h. *)
Fixpoint stosb (m : memory) (addr data : Z) (cnt : nat) : memory :=
  match cnt with
  | O => m
  | S cnt => stosb (store8 m addr data) (addr + 1) data cnt
  end.

Fixpoint stosl (m : memory) (addr data : Z) (cnt : nat) : memory :=
  match cnt with
  | O => m
  | S cnt => stosl (store32 m addr data) (addr + 4) data cnt
  end.

Definition memset (m : memory) (dst c n : Z) : memory :=
  if (Z.rem (s32 dst) 4 =? 0) && (n mod 4 =? 0) then
    let c := Z.land c 0xFF in
    stosl m dst
      (Z.lor (Z.lor (Z.lor (Z.shiftl c 24) (Z.shiftl c 16)) (Z.shiftl c 8)) c)
      (Z.to_nat (n / 4))
  else stosb m dst c (Z.to_nat n).

Fixpoint memcmp (m : memory) (s1 s2 : Z) (n : nat) : Z :=
  match n with
  | O => 0
  | S n =>
    if load8 m s1 =? load8 m s2 then memcmp m (s1 + 1) (s2 + 1) n
    else load8 m s1 - load8 m s2
  end.

(** The two copying loops of memmove, downwards and upwards. *)
Fixpoint move_down (m : memory) (d s : Z) (n : nat) : memory :=
  match n with
  | O => m
  | S n => move_down (store8 m (d - 1) (load8 m (s - 1))) (d - 1) (s - 1) n
  end.

Fixpoint move_up (m : memory) (d s : Z) (n : nat) : memory :=
  match n with
  | O => m
  | S n => move_up (store8 m d (load8 m s)) (d + 1) (s + 1) n
  end.

Definition memmove (m : memory) (dst src n : Z) : memory :=
  if (src <? dst) && (dst <? src + n)
  then move_down m (dst + n) (src + n) (Z.to_nat n)
  else move_up m dst src (Z.to_nat n).

Definition memcpy (m : memory) (dst src n : Z) : memory := memmove m dst src n.

Fixpoint strncmp (m : memory) (p q : Z) (n : nat) : Z :=
  match n with
  | O => 0
  | S n' =>
    if negb (load8 m p =? 0) && (load8 m p =? load8 m q)
    then strncmp m (p + 1) (q + 1) n'
    else load8 m p - load8 m q
  end.

(** The second loop of strncpy, which pads the destination with zeros. *)
Fixpoint zero_pad (m : memory) (s : Z) (n : nat) : memory :=
  match n with
  | O => m
  | S n => zero_pad (store8 m s 0) (s + 1) n
  end.

Fixpoint strncpy (m : memory) (s t : Z) (n : nat) : memory :=
  match n with
  | O => m
  | S n =>
    let c := load8 m t in
    let m := store8 m s c in
    if c =? 0 then zero_pad m (s + 1) n else strncpy m (s + 1) (t + 1) n
  end.

(** The copying loop of safestrcpy and the final [*s = 0]; the argument
    is the number of characters the loop may still copy.  The terminator
    is stored behind the last byte written. *)
Fixpoint safestrcpy_loop (m : memory) (s t : Z) (n : nat) : memory :=
  match n with
  | O => store8 m s 0
  | S n =>
    let c := load8 m t in
    let m := store8 m s c in
    if c =? 0 then store8 m (s + 1) 0 else safestrcpy_loop m (s + 1) (t + 1) n
  end.

Definition safestrcpy (m : memory) (s t : Z) (n : Z) : memory :=
  if n <=? 0 then m else safestrcpy_loop m s t (Z.to_nat (n - 1)).

(** [for(n = 0; s[n]; n++)]; the fuel bounds the scan. *)
Fixpoint strlen_from (m : memory) (s n : Z) (fuel : nat) : option Z :=
  match fuel with
  | O => None
  | S fuel => if load8 m (s + n) =? 0 then Some n else strlen_from m s (n + 1) fuel
  end.

Definition strlen (fuel : nat) (m : memory) (s : Z) : option Z := strlen_from m s 0 fuel.

(** * Views of memory as lists *)

(** The [n] bytes at [a]. *)
Definition bytes_at (m : memory) (a : Z) (n : nat) : list Z :=
  (fun i => load8 m (a + Z.of_nat i)) <$> seq 0 n.

(** A NUL-terminated string at [a] with the given characters. *)
Fixpoint cstr (m : memory) (a : Z) (l : list Z) : Prop :=
  match l with
  | [] => load8 m a = 0
  | c :: l => c <> 0 /\ load8 m a = c /\ cstr m (a + 1) l
  end.

(** * Block operations *)

(** Memories that agree on every byte. *)
Definition meq (m m' : memory) : Prop := forall x, load8 m x = load8 m' x.

#[export] Instance meq_equiv : Equivalence meq.
Proof. split; unfold meq; [done | intros ?? H x; by rewrite H | intros ??? H H' x; by rewrite H, H']. Qed.

#[export] Instance load8_proper : Proper (meq ==> eq ==> eq) load8.
Proof. intros m m' H x ? <-. apply H. Qed.

#[export] Instance load32_proper : Proper (meq ==> eq ==> eq) load32.
Proof. intros m m' H a ? <-. apply load32_ext. auto. Qed.

Lemma load8_store8 m a v x :
  load8 (store8 m a v) x = if x =? a then v mod 256 else load8 m x.
Proof. unfold load8, store8. destruct (x =? a); [lia | done]. Qed.

Lemma load8_store8_eq m a v : load8 (store8 m a v) a = v mod 256.
Proof. rewrite load8_store8. by rewrite Z.eqb_refl. Qed.

Lemma load8_store8_ne m a v x : x <> a -> load8 (store8 m a v) x = load8 m x.
Proof. intros. rewrite load8_store8. by rewrite (proj2 (Z.eqb_neq _ _)). Qed.

Lemma load8_store32 m a v x :
  load8 (store32 m a v) x =
  if (a <=? x) && (x <? a + 4) then (v / 256 ^ (x - a)) mod 256 else load8 m x.
Proof. unfold load8, store32. destruct (_ && _); [lia | done]. Qed.

Lemma load8_fill m d c n x :
  load8 (fill m d c n) x = if (d <=? x) && (x <? d + n) then c mod 256 else load8 m x.
Proof. unfold load8, fill. destruct (_ && _); [lia | done]. Qed.

Lemma load8_copy m d s n x :
  load8 (copy m d s n) x =
  if (d <=? x) && (x <? d + n) then load8 m (s + (x - d)) else load8 m x.
Proof. unfold load8, copy. by destruct (_ && _). Qed.

Ltac bool_lia := repeat
  match goal with
  | |- context [?a <=? ?b] => destruct (Z.leb_spec a b)
  | |- context [?a <? ?b] => destruct (Z.ltb_spec a b)
  | |- context [?a =? ?b] => destruct (Z.eqb_spec a b)
  end; simpl; try lia; try done.

Lemma stosb_fill m addr c n : meq (stosb m addr c n) (fill m addr c (Z.of_nat n)).
Proof.
  revert m addr. induction n as [|n IH]; intros m addr x.
  - rewrite load8_fill. simpl. bool_lia.
  - simpl stosb. rewrite (IH _ _ x), !load8_fill, load8_store8. bool_lia.
Qed.

(** A byte repeated in the four positions of a word. *)
Definition byte4 (c : Z) : Z :=
  Z.lor (Z.lor (Z.lor (Z.shiftl c 24) (Z.shiftl c 16)) (Z.shiftl c 8)) c.

Lemma byte4_byte c k : 0 <= c < 256 -> 0 <= k < 4 -> byte4 c / 256 ^ k mod 256 = c.
Proof.
  intros Hc Hk.
  assert (forallb (fun c => forallb (fun k => byte4 c / 256 ^ k mod 256 =? c)
            (seqZ 0 4)) (seqZ 0 256) = true) as H by (vm_compute; reflexivity).
  rewrite forallb_forall in H. specialize (H c).
  rewrite forallb_forall in H. apply Z.eqb_eq, H; apply list_elem_of_In, elem_of_seqZ; lia.
Qed.

Lemma stosl_fill m addr c n :
  0 <= c < 256 -> meq (stosl m addr (byte4 c) n) (fill m addr c (4 * Z.of_nat n)).
Proof.
  intros Hc. revert m addr. induction n as [|n IH]; intros m addr x.
  - rewrite load8_fill. simpl. bool_lia.
  - simpl stosl. rewrite (IH _ _ x), !load8_fill, load8_store32.
    bool_lia. rewrite byte4_byte; lia.
Qed.

(** memset, by words or by bytes, sets exactly the bytes of the buffer. *)
Theorem memset_fill m dst c n : 0 <= n -> meq (memset m dst c n) (fill m dst c n).
Proof.
  intros Hn. unfold memset. case_match.
  - apply andb_true_iff in H as [_ H%Z.eqb_eq]. fold (byte4 (Z.land c 0xFF)).
    change 0xFF with (2 ^ 8 - 1). rewrite land_ones_mod by lia.
    assert (0 <= c mod 2 ^ 8 < 256) as Hc by lia.
    intros x. rewrite (stosl_fill _ _ _ _ Hc x), !load8_fill. bool_lia.
  - intros x. by rewrite (stosb_fill _ _ _ _ x), Z2Nat.id by lia.
Qed.

Lemma move_up_copy m d s n :
  d <= s \/ s + Z.of_nat n <= d -> meq (move_up m d s n) (copy m d s (Z.of_nat n)).
Proof.
  revert m d s. induction n as [|n IH]; intros m d s Hd x.
  - rewrite load8_copy. simpl. bool_lia.
  - simpl move_up. rewrite (IH _ (d + 1) (s + 1) ltac:(lia) x), !load8_copy, !load8_store8.
    pose proof (load8_range m s). bool_lia; try (f_equal; lia).
    all: replace (s + (x - d)) with s by lia; lia.
Qed.

Lemma move_down_copy m d s n :
  s <= d -> meq (move_down m (d + Z.of_nat n) (s + Z.of_nat n) n) (copy m d s (Z.of_nat n)).
Proof.
  revert m. induction n as [|n IH]; intros m Hd x.
  - rewrite load8_copy. simpl. bool_lia.
  - simpl move_down.
    replace (d + Z.of_nat (S n) - 1) with (d + Z.of_nat n) by lia.
    replace (s + Z.of_nat (S n) - 1) with (s + Z.of_nat n) by lia.
    rewrite (IH _ ltac:(lia) x), !load8_copy, !load8_store8.
    pose proof (load8_range m (s + Z.of_nat n)).
    bool_lia; try (f_equal; lia).
    all: replace (s + (x - d)) with (s + Z.of_nat n) by lia; lia.
Qed.

(** memmove copies the source as it was before the call, also when the
    buffers overlap, and changes no other byte. *)
Theorem memmove_copy m dst src n :
  0 <= n -> meq (memmove m dst src n) (copy m dst src n).
Proof.
  intros Hn. unfold memmove.
  destruct (Z.ltb_spec src dst), (Z.ltb_spec dst (src + n)); simpl;
    rewrite <- (Z2Nat.id n) at 1 2 by lia.
  all: try (rewrite move_down_copy by lia; by rewrite Z2Nat.id by lia).
  all: rewrite move_up_copy by lia; by rewrite Z2Nat.id by lia.
Qed.

(** * Strings *)

Lemma bytes_at_cons m a n : bytes_at m a (S n) = load8 m a :: bytes_at m (a + 1) n.
Proof.
  unfold bytes_at. simpl. rewrite Z.add_0_r. f_equal.
  rewrite <- fmap_S_seq, <- list_fmap_compose. apply list_fmap_ext.
  intros i y _. simpl. f_equal. lia.
Qed.

Lemma bytes_at_ext m m' a n :
  (forall x, a <= x < a + Z.of_nat n -> load8 m x = load8 m' x) ->
  bytes_at m a n = bytes_at m' a n.
Proof.
  intros H. apply list_fmap_ext. intros i y Hi.
  apply lookup_seq in Hi as [-> Hi]. apply H. lia.
Qed.

Lemma cstr_ext m m' a l :
  (forall x, a <= x <= a + Z.of_nat (length l) -> load8 m x = load8 m' x) ->
  cstr m a l -> cstr m' a l.
Proof.
  revert a. induction l as [|c l IH]; intros a H; simpl in *.
  - by rewrite H by lia.
  - intros (? & <- & Hc). split; [done|]. split; [by rewrite H by lia|].
    apply IH; [|done]. intros x Hx. apply H. lia.
Qed.

Lemma strlen_from_spec m s n l fuel :
  cstr m (s + n) l -> (length l < fuel)%nat ->
  strlen_from m s n fuel = Some (n + Z.of_nat (length l)).
Proof.
  revert n fuel. induction l as [|c l IH]; intros n [|fuel] Hc Hf; simpl in *; try lia.
  - rewrite Hc. simpl. f_equal. lia.
  - destruct Hc as (Hc & -> & Ht). rewrite (proj2 (Z.eqb_neq _ _) Hc).
    rewrite IH; [f_equal; lia | by rewrite Z.add_assoc | lia].
Qed.

(** strlen on a terminated string. *)
Theorem strlen_spec m s l fuel :
  cstr m s l -> (length l < fuel)%nat -> strlen fuel m s = Some (Z.of_nat (length l)).
Proof. intros. unfold strlen. rewrite (strlen_from_spec _ _ _ l); [done | by rewrite Z.add_0_r | lia]. Qed.

(** strncmp returns 0 exactly when the two strings agree on their first
    [n] characters. *)
Theorem strncmp_zero m p q l1 l2 n :
  cstr m p l1 -> cstr m q l2 ->
  strncmp m p q n = 0 <-> take n l1 = take n l2.
Proof.
  revert p q l1 l2. induction n as [|n IH]; intros p q l1 l2 H1 H2; [done|].
  simpl strncmp.
  destruct l1 as [|c1 l1], l2 as [|c2 l2]; simpl in *.
  - by rewrite H1, H2.
  - destruct H2 as (? & H2 & _). rewrite H1, H2. simpl. split; [lia | done].
  - destruct H1 as (? & H1 & _). rewrite H1, H2.
    rewrite (proj2 (Z.eqb_neq c1 0)) by done. simpl. split; [lia | done].
  - destruct H1 as (Hc1 & -> & H1), H2 as (Hc2 & -> & H2).
    rewrite (proj2 (Z.eqb_neq c1 0)) by done. simpl.
    destruct (Z.eqb_spec c1 c2) as [->|Hne].
    + rewrite (IH _ _ _ _ H1 H2). split; [by intros -> | by intros [=]].
    + split; [lia | by intros [=]].
Qed.

Lemma zero_pad_fill m s n : meq (zero_pad m s n) (fill m s 0 (Z.of_nat n)).
Proof.
  rewrite <- stosb_fill. revert m s.
  induction n as [|n IH]; intros m s; [done | apply IH].
Qed.

Lemma bytes_at_zero_pad m s n : bytes_at (zero_pad m s n) s n = replicate n 0.
Proof.
  apply list_eq_same_length with n; [by rewrite length_replicate | |].
  { unfold bytes_at. by rewrite length_fmap, length_seq. }
  intros i x y Hi. unfold bytes_at. rewrite list_lookup_fmap, lookup_seq_lt by done.
  simpl. rewrite lookup_replicate. intros [= <-] [-> _].
  rewrite (zero_pad_fill _ _ _ _), load8_fill. bool_lia.
Qed.

Lemma strncpy_outside m s t n x :
  x < s \/ s + Z.of_nat n <= x -> load8 (strncpy m s t n) x = load8 m x.
Proof.
  revert m s t. induction n as [|n IH]; intros m s t Hx; [done|]. simpl.
  case_match.
  - rewrite (zero_pad_fill _ _ _ _), load8_fill, load8_store8. bool_lia.
  - rewrite IH, load8_store8 by lia. bool_lia.
Qed.

Lemma cstr_byte m a l : cstr m a l -> Forall (fun c => 0 <= c < 256) l.
Proof.
  revert a. induction l as [|c l IH]; intros a; [constructor|].
  intros (_ & <- & H). constructor; [apply load8_range | by eapply IH].
Qed.

(** strncpy into a buffer that does not overlap the source writes the
    string, padded with zeros to [n] bytes, and nothing else. *)
Theorem strncpy_spec m s t l n :
  cstr m t l ->
  s + Z.of_nat n <= t \/ t + Z.of_nat (length l) < s ->
  bytes_at (strncpy m s t n) s n = take n (l ++ replicate n 0)
  /\ forall x, x < s \/ s + Z.of_nat n <= x -> load8 (strncpy m s t n) x = load8 m x.
Proof.
  intros Hl Hd. split; [|intros; by apply strncpy_outside].
  revert m s t l Hl Hd. induction n as [|n IH]; intros m s t l Hl Hd; [done|].
  rewrite bytes_at_cons. destruct l as [|c l].
  - simpl in *. rewrite Hl. simpl. rewrite bytes_at_zero_pad.
    rewrite (zero_pad_fill _ _ _ _), load8_fill, load8_store8_eq.
    rewrite take_ge by (rewrite length_replicate; lia). bool_lia.
  - pose proof (Forall_inv (cstr_byte _ _ _ Hl)) as Hb. simpl in Hb.
    destruct Hl as (Hc & Hlc & Ht). cbn [strncpy length] in *.
    rewrite Hlc, (proj2 (Z.eqb_neq c 0)) by done.
    rewrite strncpy_outside, load8_store8_eq by lia.
    rewrite (IH _ _ _ l); [| |lia].
    + simpl. rewrite Z.mod_small by done. f_equal.
      rewrite !take_app. f_equal. change (0 :: replicate n 0) with (replicate (S n) 0).
      rewrite !take_replicate. f_equal. lia.
    + eapply cstr_ext; [|done]. intros x Hx. rewrite load8_store8_ne by lia. done.
Qed.

Lemma safestrcpy_loop_outside m s t n x :
  x < s \/ s + Z.of_nat n < x -> load8 (safestrcpy_loop m s t n) x = load8 m x.
Proof.
  revert m s t. induction n as [|n IH]; intros m s t Hx; simpl.
  - apply load8_store8_ne. lia.
  - case_match.
    + rewrite !load8_store8_ne by lia. done.
    + rewrite IH, load8_store8_ne by lia. done.
Qed.

Lemma safestrcpy_loop_cstr m s t l n :
  cstr m t l -> s + Z.of_nat n < t \/ t + Z.of_nat (length l) < s ->
  cstr (safestrcpy_loop m s t n) s (take n l).
Proof.
  revert m s t l. induction n as [|n IH]; intros m s t l Hl Hd.
  - simpl. apply load8_store8_eq.
  - destruct l as [|c l].
    + simpl in *. rewrite Hl. simpl. by rewrite load8_store8_ne, load8_store8_eq by lia.
    + pose proof (Forall_inv (cstr_byte _ _ _ Hl)) as Hb. simpl in Hb.
      destruct Hl as (Hc & Hlc & Ht). cbn [safestrcpy_loop length take cstr] in *.
      rewrite Hlc, (proj2 (Z.eqb_neq c 0)) by done.
      split; [done|]. split.
      * rewrite safestrcpy_loop_outside, load8_store8_eq by lia. lia.
      * apply IH; [|lia]. eapply cstr_ext; [|done].
        intros x Hx. by rewrite load8_store8_ne by lia.
Qed.

(** safestrcpy leaves a terminated string of fewer than [n] characters,
    the longest prefix of the source that fits, and writes nothing else. *)
Theorem safestrcpy_spec m s t l n :
  0 < n -> cstr m t l -> s + n <= t \/ t + Z.of_nat (length l) < s ->
  cstr (safestrcpy m s t n) s (take (Z.to_nat (n - 1)) l)
  /\ forall x, x < s \/ s + n <= x -> load8 (safestrcpy m s t n) x = load8 m x.
Proof.
  intros Hn Hl Hd. unfold safestrcpy. rewrite (proj2 (Z.leb_gt _ _)) by done. split.
  - apply safestrcpy_loop_cstr; [done|lia].
  - intros x Hx. apply safestrcpy_loop_outside. lia.
Qed.

(** * Sample strings *)

Definition text (a : Z) (l : list Z) : memory :=
  fun x => if (a <=? x) && (x <? a + Z.of_nat (length l)) then nth (Z.to_nat (x - a)) l 0 else 0.

Lemma memset_fill_witness : meq (memset (fun _ => 7) 4 1 8) (fill (fun _ => 7) 4 1 8).
Proof. apply memset_fill. lia. Defined.

Lemma memmove_copy_witness :
  meq (memmove (text 0 [1; 2; 3; 4]) 1 0 3) (copy (text 0 [1; 2; 3; 4]) 1 0 3).
Proof. apply memmove_copy. lia. Defined.

Lemma strncmp_zero_witness :
  strncmp (text 0 [104; 105; 0; 104; 111]) 0 3 1 = 0 <-> take 1 [104; 105] = take 1 [104; 111].
Proof. apply strncmp_zero; vm_compute; repeat split; congruence. Defined.

Lemma strncpy_spec_witness :
  let m := text 0 [104; 105] in
  bytes_at (strncpy m 8 0 4) 8 4 = [104; 105; 0; 0]
  /\ forall x, x < 8 \/ 8 + Z.of_nat 4 <= x -> load8 (strncpy m 8 0 4) x = load8 m x.
Proof. intros m. apply (strncpy_spec m 8 0 [104; 105] 4); [vm_compute; repeat split; congruence|simpl; lia]. Defined.

Lemma safestrcpy_spec_witness :
  let m := text 0 [104; 105; 33] in
  cstr (safestrcpy m 8 0 3) 8 [104; 105]
  /\ forall x, x < 8 \/ 8 + 3 <= x -> load8 (safestrcpy m 8 0 3) x = load8 m x.
Proof.
  intros m. apply (safestrcpy_spec m 8 0 [104; 105; 33] 3);
    [lia|vm_compute; repeat split; congruence|simpl; lia].
Defined.
