(* ===== verification/Kalloc.v ===== *)
(** kalloc.c: the physical page allocator.  The free list is threaded
    through the free pages themselves, as in the source; its
    representation predicate [free_list] relates it to a list of pages. *)

From S2P Require Import Prelude Mmu Str.

(** * Definitions *)

(** Addresses fixed by the linker script kernel.ld: [data] and [end]. *)
Class Link := {
  kdata : Z;
  kend : Z;
  kdata_aligned : kdata mod 4096 = 0;
  link_order : KERNLINK < kdata /\ kdata <= kend;
  kend_low : kend + PGSIZE <= KERNBASE + 4 * 1024 * 1024;
}.

(** [kmem]: the spinlock (held or not), whether it is used yet, and the
    head of the list. *)
Record kmem_t := Kmem { klock : bool; use_lock : bool; freelist : Z }.

(** Physical memory, as the kernel sees it through its own mapping, and
    the allocator's state. *)
Record pmem := Pmem { ram : memory; kmem : kmem_t }.

Definition set_ram (f : memory -> memory) (s : pmem) : pmem :=
  Pmem (f (ram s)) (kmem s).
Definition set_freelist (p : Z) (s : pmem) : pmem :=
  Pmem (ram s) (Kmem (klock (kmem s)) (use_lock (kmem s)) p).
Definition set_klock (b : bool) (s : pmem) : pmem :=
  Pmem (ram s) (Kmem b (use_lock (kmem s)) (freelist (kmem s))).
Definition set_use_lock (b : bool) (s : pmem) : pmem :=
  Pmem (ram s) (Kmem (klock (kmem s)) b (freelist (kmem s))).

Section kalloc.
Context `{L : Link}.

(** [if(kmem.use_lock) acquire(&kmem.lock)] on the running CPU: acquiring
    a lock that this CPU holds panics. *)
Definition acquire_kmem : M pmem unit :=
  k ← gets kmem;
  if use_lock k then
    if klock k then panic "acquire" else modify (set_klock true)
  else mret tt.

Definition release_kmem : M pmem unit :=
  k ← gets kmem;
  if use_lock k then
    if klock k then modify (set_klock false) else panic "release"
  else mret tt.

Definition kfree (v : Z) : M pmem unit :=
  if negb (u32 v mod PGSIZE =? 0) || (v <? kend) || (PHYSTOP <=? V2P v)
  then panic "kfree"
  else
    modify (set_ram (fun m => fill m v 1 PGSIZE));;
    acquire_kmem;;
    head ← gets (fun s => freelist (kmem s));
    modify (set_ram (fun m => store32 m v head));;
    modify (set_freelist v);;
    release_kmem.

Definition kalloc : M pmem Z :=
  acquire_kmem;;
  r ← gets (fun s => freelist (kmem s));
  (if r =? 0 then mret tt
   else s ← getS; modify (set_freelist (load32 (ram s) r)));;
  release_kmem;;
  mret r.

(** The loop of freerange, one page per unit of fuel. *)
Fixpoint freerange_loop (p vend : Z) (fuel : nat) : M pmem unit :=
  if p + PGSIZE <=? vend then
    match fuel with
    | O => nofuel
    | S fuel => kfree p;; freerange_loop (p + PGSIZE) vend fuel
    end
  else mret tt.

Definition freerange (vstart vend : Z) : M pmem unit :=
  let p := PGROUNDUP vstart in
  freerange_loop p vend (Z.to_nat ((vend - p) / PGSIZE)).

Definition kinit1 (vstart vend : Z) : M pmem unit :=
  modify (set_klock false);;
  modify (set_use_lock false);;
  freerange vstart vend.

Definition kinit2 (vstart vend : Z) : M pmem unit :=
  freerange vstart vend;;
  modify (set_use_lock true).

(** * The free list *)

(** A page the allocator may hand out. *)
Definition valid_page (v : Z) : Prop :=
  v mod PGSIZE = 0 /\ kend <= v /\ v + PGSIZE <= KERNBASE + PHYSTOP.

Fixpoint chain (m : memory) (p : Z) (l : list Z) : Prop :=
  match l with
  | [] => p = 0
  | x :: l => p = x /\ valid_page x /\ chain m (load32 m x) l
  end.

(** The allocator's invariant: the list from [freelist] is exactly [l],
    without repetition, and its lock is free. *)
Definition free_list (s : pmem) (l : list Z) : Prop :=
  chain (ram s) (freelist (kmem s)) l /\ NoDup l /\ klock (kmem s) = false.

(** Two memories agree outside the page [v]. *)
Definition same_outside (v : Z) (m m' : memory) : Prop :=
  forall x, x < v \/ v + PGSIZE <= x -> load8 m' x = load8 m x.

(** * Properties *)

Lemma valid_page_pos v : valid_page v -> KERNBASE + EXTMEM <= v < 2 ^ 32 - PGSIZE.
Proof. pose proof link_order as Hlo. unfold valid_page, KERNLINK in *. ulia. Qed.

Lemma valid_page_nonzero v : valid_page v -> v <> 0.
Proof. intros H%valid_page_pos. ulia. Qed.

(** Distinct pages do not overlap. *)
Lemma valid_page_disjoint v w :
  valid_page v -> valid_page w -> v <> w -> v + PGSIZE <= w \/ w + PGSIZE <= v.
Proof. unfold valid_page. ulia. Qed.

(** The check at the head of kfree accepts exactly the valid pages. *)
Lemma kfree_check v :
  0 <= v < 2 ^ 32 ->
  negb (u32 v mod PGSIZE =? 0) || (v <? kend) || (PHYSTOP <=? V2P v) = false
  <-> valid_page v.
Proof.
  intros Hv. rewrite !orb_false_iff, negb_false_iff, Z.eqb_eq, Z.ltb_ge, Z.leb_gt.
  unfold valid_page, V2P. rewrite !(u32_id v) by done.
  pose proof link_order as Hlo. unfold KERNLINK in *. unf. split.
  - intros [[Ha Hb] Hc]. rewrite u32_id in Hc by lia. lia.
  - intros (? & ? & ?). rewrite u32_id by lia. lia.
Qed.

Lemma chain_ext m m' p l :
  (forall x, In x l -> load32 m' x = load32 m x) -> chain m p l -> chain m' p l.
Proof.
  revert p. induction l as [|x l IH]; intros p H; [done|].
  intros (? & ? & Hc). split; [done|]. split; [done|].
  rewrite H by (by left). apply IH; [|done]. intros y Hy. apply H. by right.
Qed.

Lemma chain_valid m p l : chain m p l -> Forall valid_page l.
Proof.
  revert p. induction l as [|x l IH]; intros p; [constructor|].
  intros (_ & ? & ?). constructor; [done | by eapply IH].
Qed.

Lemma chain_functional m p l l' : chain m p l -> chain m p l' -> l = l'.
Proof.
  revert p l'. induction l as [|x l IH]; intros p [|y l']; simpl; [done| | |].
  - intros -> (<- & Hv & _). by apply valid_page_nonzero in Hv.
  - intros (-> & Hv & _) ->. by apply valid_page_nonzero in Hv.
  - intros (-> & _ & H) (-> & _ & H'). f_equal. by eapply IH.
Qed.

Lemma free_list_valid s l : free_list s l -> Forall valid_page l.
Proof. intros (H & _). by eapply chain_valid. Qed.

Lemma same_outside_load32 v m m' a :
  same_outside v m m' -> a + 4 <= v \/ v + PGSIZE <= a -> load32 m' a = load32 m a.
Proof. intros H Ha. apply load32_ext. intros x Hx. apply H. lia. Qed.

(** Changes inside a page that is not on the list keep the list. *)
Lemma free_list_frame s v m l :
  free_list s l -> valid_page v -> ~ In v l -> same_outside v (ram s) m ->
  free_list (set_ram (fun _ => m) s) l.
Proof.
  intros (Hc & Hn & Hl) Hv Hin Hm. split; [|done].
  eapply chain_ext; [|exact Hc]. intros x Hx. simpl.
  eapply same_outside_load32; [done|].
  apply chain_valid in Hc. rewrite Forall_forall in Hc.
  pose proof (Hc x ltac:(by apply list_elem_of_In)) as Hx'.
  assert (x <> v) by (intros ->; done).
  pose proof (valid_page_disjoint x v Hx' Hv). ulia.
Qed.

(** kalloc on the abstract list: it pops the first page, and returns 0
    exactly when the list is empty; memory is not touched. *)
Lemma kalloc_run s l :
  free_list s l ->
  kalloc s = OK (hd 0 l) (set_freelist (match l with [] => 0 | x :: _ => load32 (ram s) x end) s)
  /\ free_list (set_freelist (match l with [] => 0 | x :: _ => load32 (ram s) x end) s) (tl l).
Proof.
  destruct s as [m [lk ul fl]]. intros (Hc & Hn & Hl). simpl in *. subst lk.
  destruct l as [|x l]; simpl in Hc.
  - subst fl. destruct ul; by repeat split.
  - destruct Hc as (-> & Hx & Hc). inversion Hn; subst.
    pose proof (proj2 (Z.eqb_neq x 0) (valid_page_nonzero _ Hx)) as Hx0.
    split; [|by repeat split].
    unfold kalloc, acquire_kmem, release_kmem.
    destruct ul; mrun; simpl; rewrite Hx0; reflexivity.
Qed.

(** kfree on the abstract list: it pushes the page. *)
Lemma kfree_run s l v :
  free_list s l -> valid_page v -> ~ In v l ->
  exists s', kfree v s = OK tt s' /\ free_list s' (v :: l)
    /\ same_outside v (ram s) (ram s') /\ use_lock (kmem s') = use_lock (kmem s).
Proof.
  destruct s as [m [lk ul fl]]. intros (Hc & Hn & Hl) Hv Hin. simpl in *. subst lk.
  pose proof (valid_page_pos _ Hv) as Hpos.
  unfold kfree. rewrite (proj2 (kfree_check v ltac:(ulia))) by done.
  unfold acquire_kmem, release_kmem. mrun. simpl. mrun.
  set (m' := store32 (fill m v 1 PGSIZE) v fl).
  assert (same_outside v m m') as Hso.
  { intros x Hx. unfold m'. rewrite load8_store32_ne, load8_fill_ne by ulia. done. }
  assert (free_list (Pmem m' (Kmem false ul v)) (v :: l)) as Hfl.
  { pose proof (free_list_frame (Pmem m (Kmem false ul fl)) v m' l) as Hf.
    destruct Hf as (Hc' & _ & _); [done|done|done|done|].
    split; [|split; [constructor; [by rewrite list_elem_of_In|done] | done]].
    simpl in *. split; [done|]. split; [done|].
    unfold m'. rewrite load32_store32_eq, u32_id; [done|].
    destruct l as [|y l]; simpl in Hc; [subst fl; lia|].
    destruct Hc as (-> & Hy & _). apply valid_page_pos in Hy. ulia. }
  destruct ul; simpl; eexists; (split; [reflexivity|]); done.
Qed.

(** The pages of a range, in the order freerange visits them. *)
Definition pages_from (p : Z) (n : nat) : list Z :=
  (fun i => p + PGSIZE * Z.of_nat i) <$> seq 0 n.

Lemma pages_from_cons p n : pages_from p (S n) = p :: pages_from (p + PGSIZE) n.
Proof.
  unfold pages_from. simpl. f_equal; [ulia|].
  rewrite <- fmap_S_seq, <- list_fmap_compose. apply list_fmap_ext.
  intros i y _. simpl. ulia.
Qed.

Lemma in_pages_from p n v :
  In v (pages_from p n) <-> exists i, 0 <= i < Z.of_nat n /\ v = p + PGSIZE * i.
Proof.
  rewrite <- list_elem_of_In. unfold pages_from. rewrite list_elem_of_fmap. split.
  - intros (i & -> & Hi%elem_of_seq). exists (Z.of_nat i). lia.
  - intros (i & Hi & ->). exists (Z.to_nat i). rewrite elem_of_seq, Z2Nat.id by lia. lia.
Qed.

Lemma freerange_loop_run n p vend s l :
  (vend - p) / PGSIZE = Z.of_nat n -> p <= vend ->
  valid_page p \/ n = O ->
  vend <= KERNBASE + PHYSTOP ->
  free_list s l -> (forall v, In v l -> In v (pages_from p n) -> False) ->
  exists s', freerange_loop p vend n s = OK tt s'
    /\ free_list s' (reverse (pages_from p n) ++ l) /\ use_lock (kmem s') = use_lock (kmem s).
Proof.
  revert p s l. induction n as [|n IH]; intros p s l Hn Hpv Hp Hv Hs Hd.
  - simpl. rewrite (proj2 (Z.leb_gt _ _)) by ulia. by exists s.
  - simpl freerange_loop. rewrite (proj2 (Z.leb_le _ _)) by ulia.
    destruct Hp as [Hp|]; [|done].
    rewrite pages_from_cons in Hd.
    destruct (kfree_run s l p Hs Hp) as (s1 & Hk & Hs1 & _ & Hu).
    { intros Hin. apply (Hd p Hin). by left. }
    rewrite (bind_OK _ _ _ _ _ Hk).
    destruct (IH (p + PGSIZE) s1 (p :: l)) as (s2 & Hr & Hs2 & Hu2); [ulia|ulia| |done|done| |].
    + destruct n; [by right|left]. unfold valid_page in *. ulia.
    + intros v [<-|Hin] Hv'.
      * apply in_pages_from in Hv' as (i & ? & ?). ulia.
      * apply (Hd v Hin). by right.
    + exists s2. split; [done|]. split; [|congruence].
      rewrite pages_from_cons, reverse_cons, <- app_assoc. done.
Qed.

(** freerange on the abstract list: every whole page of the range is
    pushed, in order. *)
Lemma freerange_run vstart vend s l :
  kend <= vstart -> vstart + PGSIZE <= vend -> vend <= KERNBASE + PHYSTOP ->
  free_list s l ->
  (forall v, In v l -> v + PGSIZE <= vstart \/ vend <= v) ->
  let p := PGROUNDUP vstart in
  exists s', freerange vstart vend s = OK tt s'
    /\ free_list s' (reverse (pages_from p (Z.to_nat ((vend - p) / PGSIZE))) ++ l)
    /\ use_lock (kmem s') = use_lock (kmem s).
Proof.
  intros Hk Hv Hp Hs Hd p. pose proof link_order as Hlo. unfold KERNLINK in Hlo.
  assert (p = (vstart + 4095) / 4096 * 4096) as Hpe by (apply PGROUNDUP_eq; ulia).
  assert (0 <= (vend - p) / PGSIZE) by ulia.
  unfold freerange. fold p. apply freerange_loop_run; [ulia|ulia| |done|done|].
  - destruct (decide ((vend - p) / PGSIZE = 0)) as [->|]; [by right|left].
    unfold valid_page. ulia.
  - intros v Hin (i & Hi & ->)%in_pages_from. specialize (Hd _ Hin). ulia.
Qed.

(** * The allocator as a specification *)

(** A client's calls, and what they mean on the abstract set of free
    pages (kept in the order of the list).  [AFree] is meaningful only for
    a valid page that is not free. *)
Inductive aop := AAlloc | AFree (v : Z).

Fixpoint arun (ops : list aop) (l : list Z) : option (list Z * list Z) :=
  match ops with
  | [] => Some ([], l)
  | AAlloc :: ops =>
    '(rs, l') ← arun ops (tl l); Some (hd 0 l :: rs, l')
  | AFree v :: ops =>
    if (v mod PGSIZE =? 0) && (kend <=? v) && (v + PGSIZE <=? KERNBASE + PHYSTOP)
       && bool_decide (v ∉ l)
    then '(rs, l') ← arun ops (v :: l); Some (0 :: rs, l')
    else None
  end.

Fixpoint crun (ops : list aop) : M pmem (list Z) :=
  match ops with
  | [] => mret []
  | AAlloc :: ops => r ← kalloc; rs ← crun ops; mret (r :: rs)
  | AFree v :: ops => kfree v;; rs ← crun ops; mret (0 :: rs)
  end.

(** kalloc and kfree, on the list threaded through the free pages,
    implement the abstract allocator: every sequence of calls that frees
    only valid pages that are not free already returns what the abstract
    list says (0 exactly when no page is left), never panics, and leaves
    the memory representing the abstract result. *)
Theorem allocator_refines ops s l rs l' :
  free_list s l -> arun ops l = Some (rs, l') ->
  exists s', crun ops s = OK rs s' /\ free_list s' l'.
Proof.
  revert s l rs. induction ops as [|[|v] ops IH]; intros s l rs Hs Ha; simpl in Ha.
  - injection Ha as <- <-. by exists s.
  - destruct (arun ops (tl l)) as [[rs1 l1]|] eqn:E; [|done]. injection Ha as <- <-.
    destruct (kalloc_run s l Hs) as [Hk Hs'].
    destruct (IH _ _ _ Hs' E) as (s2 & Hc & Hs2). exists s2. split; [|done].
    simpl. rewrite (bind_OK _ _ _ _ _ Hk). by rewrite (bind_OK _ _ _ _ _ Hc).
  - case_match eqn:Hg; [|done].
    destruct (arun ops (v :: l)) as [[rs1 l1]|] eqn:E; [|done]. injection Ha as <- <-.
    rewrite !andb_true_iff, Z.eqb_eq, !Z.leb_le, bool_decide_eq_true in Hg.
    destruct Hg as [[[? ?] ?] Hin].
    destruct (kfree_run s l v Hs) as (s1 & Hk & Hs1 & _); [done|by rewrite <- list_elem_of_In|].
    destruct (IH _ _ _ Hs1 E) as (s2 & Hc & Hs2). exists s2. split; [|done].
    simpl. rewrite (bind_OK _ _ _ _ _ Hk). by rewrite (bind_OK _ _ _ _ _ Hc).
Qed.

(** after kinit1 and kinit2, as main calls them, the free list holds
    exactly the pages between the end of the kernel and PHYSTOP, each once,
    and the lock is in use. *)
Theorem kinit_free_list s :
  freelist (kmem s) = 0 ->
  exists s1 s2 l,
    kinit1 kend (P2V (4 * 1024 * 1024)) s = OK tt s1
    /\ kinit2 (P2V (4 * 1024 * 1024)) (P2V PHYSTOP) s1 = OK tt s2
    /\ free_list s2 l /\ use_lock (kmem s2) = true
    /\ forall v, In v l <-> valid_page v.
Proof.
  intros Hf. pose proof link_order as Hlo. pose proof kend_low as Hkl. unfold KERNLINK in Hlo.
  assert (P2V (4 * 1024 * 1024) = KERNBASE + 4 * 1024 * 1024) as -> by done.
  assert (P2V PHYSTOP = KERNBASE + PHYSTOP) as -> by done.
  destruct (freerange_run kend (KERNBASE + 4 * 1024 * 1024)
              (set_use_lock false (set_klock false s)) [])
    as (s1 & H1 & Hs1 & Hu1); [done | ulia | ulia | | done |].
  { split; [done|]. split; [constructor|done]. }
  rewrite app_nil_r in Hs1.
  set (p1 := PGROUNDUP kend) in *. set (n1 := Z.to_nat _) in Hs1.
  assert (p1 = (kend + 4095) / 4096 * 4096) as Hp1 by (apply PGROUNDUP_eq; ulia).
  destruct (freerange_run (KERNBASE + 4 * 1024 * 1024) (KERNBASE + PHYSTOP) s1
              (reverse (pages_from p1 n1)))
    as (s2 & H2 & Hs2 & Hu2); [ulia | ulia | done | done | |].
  { intros v Hv. rewrite <- list_elem_of_In, elem_of_reverse, list_elem_of_In in Hv.
    apply in_pages_from in Hv as (i & Hi & ->). unfold n1 in Hi. left. ulia. }
  eexists s1, _, _. split; [exact H1|]. split.
  { unfold kinit2. rewrite (bind_OK _ _ _ _ _ H2). reflexivity. }
  split; [exact Hs2|]. split; [done|].
  intros v. rewrite in_app_iff, <- !list_elem_of_In, !elem_of_reverse, !list_elem_of_In, !in_pages_from.
  change (PGROUNDUP (KERNBASE + 4 * 1024 * 1024)) with (KERNBASE + 4 * 1024 * 1024).
  unfold n1, valid_page. split.
  - intros [(i & Hi & ->)|(i & Hi & ->)]; ulia.
  - intros (Hm & Hlo1 & Hhi).
    destruct (decide (v < KERNBASE + 4 * 1024 * 1024)).
    + right. exists ((v - p1) / 4096). ulia.
    + left. exists ((v - (KERNBASE + 4 * 1024 * 1024)) / 4096). ulia.
Qed.

(** kfree panics exactly on an address that is not a page of the
    allocator: misaligned, below the end of the kernel, or beyond PHYSTOP. *)
Theorem kfree_panics s l v :
  free_list s l -> 0 <= v < 2 ^ 32 -> ~ In v l ->
  kfree v s = PANIC "kfree" s <-> ~ valid_page v.
Proof.
  intros Hs Hv Hin. split.
  - intros Hk Hp. destruct (kfree_run s l v Hs Hp Hin) as (s' & Hk' & _). congruence.
  - intros Hn. unfold kfree. pose proof (kfree_check v Hv) as Hc.
    destruct (_ || _); [done|]. exfalso. by apply Hn, Hc.
Qed.

(** Freeing a page twice is not detected: the list becomes cyclic, and
    the same page is then handed out on every later call. *)
Theorem double_free s l v :
  free_list s l -> valid_page v -> ~ In v l ->
  exists s1 s2 s3 s4, kfree v s = OK tt s1 /\ kfree v s1 = OK tt s2
    /\ kalloc s2 = OK v s3 /\ kalloc s3 = OK v s4 /\ freelist (kmem s4) = v.
Proof.
  intros Hs Hv Hin. destruct (kfree_run s l v Hs Hv Hin) as (s1 & H1 & Hs1 & _).
  exists s1. destruct s1 as [m [lk ul fl]], Hs1 as ((Hfl & _) & _ & Hlk).
  simpl in Hfl, Hlk. subst lk fl.
  pose proof (valid_page_pos _ Hv) as Hpos.
  pose proof (proj2 (Z.eqb_neq v 0) (valid_page_nonzero _ Hv)) as Hv0.
  assert (kfree v (Pmem m (Kmem false ul v))
          = OK tt (Pmem (store32 (fill m v 1 PGSIZE) v v) (Kmem false ul v))) as H2.
  { unfold kfree. rewrite (proj2 (kfree_check v ltac:(ulia))) by done.
    unfold acquire_kmem, release_kmem. mrun. simpl. mrun. by destruct ul. }
  eexists _, _, _. split; [done|]. split; [exact H2|].
  assert (kalloc (Pmem (store32 (fill m v 1 PGSIZE) v v) (Kmem false ul v))
          = OK v (Pmem (store32 (fill m v 1 PGSIZE) v v) (Kmem false ul v))) as H3.
  { unfold kalloc, acquire_kmem, release_kmem.
    destruct ul; mrun; simpl; rewrite Hv0; mrun; simpl;
      rewrite load32_store32_eq, u32_id by ulia; done. }
  split; [exact H3|]. split; [exact H3|done].
Qed.

End kalloc.

(** * A small machine *)

Definition sample_link : Link.
Proof. by refine {| kdata := KERNLINK + 0x8000; kend := KERNLINK + 0x15000 |}. Defined.

(** The [i]-th of some pages above the kernel. *)
Definition pg (i : Z) : Z := KERNBASE + 0x200000 + PGSIZE * i.

(** Zeroed memory, with the pages [l] on the free list. *)
Fixpoint threaded (l : list Z) : memory :=
  match l with
  | [] => fun _ => 0
  | x :: l => store32 (threaded l) x (hd 0 l)
  end.
Definition sample_pmem (l : list Z) : pmem := Pmem (threaded l) (Kmem false true (hd 0 l)).

Definition sample_free : list Z := [pg 1; pg 2; pg 3; pg 4; pg 5; pg 6].

Lemma sample_free_list : free_list (L := sample_link) (sample_pmem sample_free) sample_free.
Proof.
  split; [|split; [apply (bool_decide_unpack _); vm_compute; done|done]].
  repeat split; try (vm_compute; congruence).
Qed.

Lemma allocator_refines_witness :
  exists s', crun (L := sample_link) [AAlloc; AAlloc; AFree (pg 1); AAlloc; AAlloc]
               (sample_pmem sample_free)
             = OK [pg 1; pg 2; 0; pg 1; pg 3] s' /\ free_list (L := sample_link) s' [pg 4; pg 5; pg 6].
Proof. apply (allocator_refines (L := sample_link) _ _ sample_free); [apply sample_free_list|by vm_compute]. Defined.

Lemma kinit_free_list_witness :
  exists s1 s2 l,
    kinit1 (L := sample_link) (@kend sample_link) (P2V (4 * 1024 * 1024)) (sample_pmem []) = OK tt s1
    /\ kinit2 (L := sample_link) (P2V (4 * 1024 * 1024)) (P2V PHYSTOP) s1 = OK tt s2
    /\ free_list (L := sample_link) s2 l /\ use_lock (kmem s2) = true
    /\ forall v, In v l <-> valid_page (L := sample_link) v.
Proof. apply (kinit_free_list (L := sample_link)). reflexivity. Defined.

Lemma kfree_panics_witness :
  kfree (L := sample_link) (pg 7 + 4) (sample_pmem sample_free)
  = PANIC "kfree" (sample_pmem sample_free).
Proof.
  apply (kfree_panics (L := sample_link) _ _ _ sample_free_list); [split; vm_compute; congruence| |].
  - intros H; repeat (destruct H as [H|H]; [discriminate|]); done.
  - intros [? _]. discriminate.
Defined.

Lemma double_free_witness :
  exists s1 s2 s3 s4, kfree (L := sample_link) (pg 7) (sample_pmem sample_free) = OK tt s1
    /\ kfree (L := sample_link) (pg 7) s1 = OK tt s2
    /\ kalloc s2 = OK (pg 7) s3 /\ kalloc s3 = OK (pg 7) s4 /\ freelist (kmem s4) = pg 7.
Proof.
  apply (double_free (L := sample_link) _ _ _ sample_free_list);
    [repeat split; vm_compute; congruence|]. intros H; repeat (destruct H as [H|H]; [discriminate|]); done.
Defined.
