(* ===== verification/Vm.v ===== *)
(** vm.c: two-level page tables in physical memory, and the operations
    that build, copy, extend and free address spaces, with the thread
    stacks (cloneuvm, freecloneuvm, copy_thread_stack). *)

From S2P Require Import Prelude Mmu Str Kalloc.

(** * Definitions *)

(** Kernel pointers dereferenced as words. *)
Definition ld (a : Z) : M pmem Z := gets (fun s => load32 (ram s) a).
Definition st (a v : Z) : M pmem unit := modify (set_ram (fun m => store32 m a v)).
Definition memset_ (a c n : Z) : M pmem unit := modify (set_ram (fun m => fill m a c n)).
Definition memmove_ (d s n : Z) : M pmem unit := modify (set_ram (fun m => copy m d s n)).

(** memmove from a kernel buffer given by its bytes. *)
Fixpoint store_bytes (m : memory) (a : Z) (l : list Z) : memory :=
  match l with
  | [] => m
  | c :: l => store_bytes (store8 m a c) (a + 1) l
  end.
Definition put_bytes (a : Z) (l : list Z) : M pmem unit :=
  modify (set_ram (fun m => store_bytes m a l)).

Section vm.
Context `{L : Link}.

(** Returns the kernel address of the PTE, or 0. *)
Definition walkpgdir (pgdir va : Z) (alloc : bool) : M pmem Z :=
  let pde := pgdir + 4 * PDX va in
  e ← ld pde;
  if testf e PTE_P then mret (P2V (PTE_ADDR e) + 4 * PTX va)
  else if negb alloc then mret 0
  else
    pgtab ← kalloc;
    if pgtab =? 0 then mret 0
    else
      memset_ pgtab 0 PGSIZE;;
      st pde (Z.lor (Z.lor (Z.lor (V2P pgtab) PTE_P) PTE_W) PTE_U);;
      mret (pgtab + 4 * PTX va).

Fixpoint mappages_loop (pgdir a last pa perm : Z) (fuel : nat) : M pmem Z :=
  match fuel with
  | O => nofuel
  | S fuel =>
    pte ← walkpgdir pgdir a true;
    if pte =? 0 then mret (-1)
    else
      e ← ld pte;
      if testf e PTE_P then panic "remap"
      else
        st pte (Z.lor (Z.lor pa perm) PTE_P);;
        if a =? last then mret 0
        else mappages_loop pgdir (u32 (a + PGSIZE)) last (u32 (pa + PGSIZE)) perm fuel
  end.

Definition mappages (pgdir va size pa perm : Z) : M pmem Z :=
  let a := PGROUNDDOWN va in
  let last := PGROUNDDOWN (va + size - 1) in
  mappages_loop pgdir a last pa perm (S (Z.to_nat (u32 (last - a) / PGSIZE))).

(** One iteration of deallocuvm's loop gives the next value of [a], before
    the loop's own increment. *)
Definition dealloc_step (pgdir a : Z) : M pmem Z :=
  pte ← walkpgdir pgdir a false;
  if pte =? 0 then mret (u32 (PGADDR (PDX a + 1) 0 0 - PGSIZE))
  else
    e ← ld pte;
    if testf e PTE_P then
      let pa := PTE_ADDR e in
      if pa =? 0 then panic "kfree"
      else kfree (P2V pa);; st pte 0;; mret a
    else mret a.

Fixpoint deallocuvm_loop (pgdir a oldsz : Z) (fuel : nat) : M pmem unit :=
  if a <? oldsz then
    match fuel with
    | O => nofuel
    | S fuel =>
      a ← dealloc_step pgdir a;
      deallocuvm_loop pgdir (u32 (a + PGSIZE)) oldsz fuel
    end
  else mret tt.

Definition deallocuvm (pgdir oldsz newsz : Z) : M pmem Z :=
  if oldsz <=? newsz then mret oldsz
  else
    let a := PGROUNDUP newsz in
    deallocuvm_loop pgdir a oldsz (S (Z.to_nat ((oldsz - a) / PGSIZE)));;
    mret newsz.

(** The loop over the page directory in freevm, from entry [i] on. *)
Fixpoint free_tables (pgdir : Z) (i : Z) (n : nat) : M pmem unit :=
  match n with
  | O => mret tt
  | S n =>
    e ← ld (pgdir + 4 * i);
    (if testf e PTE_P then kfree (P2V (PTE_ADDR e)) else mret tt);;
    free_tables pgdir (i + 1) n
  end.

Definition freevm (pgdir : Z) : M pmem unit :=
  if pgdir =? 0 then panic "freevm: no pgdir"
  else
    deallocuvm pgdir KERNBASE 0;;
    free_tables pgdir 0 (Z.to_nat NPDENTRIES);;
    kfree pgdir.

Record kmap_entry := Kmap { virt : Z; phys_start : Z; phys_end : Z; kperm : Z }.
Definition kmap : list kmap_entry :=
  [ Kmap KERNBASE 0 EXTMEM PTE_W;
    Kmap KERNLINK (V2P KERNLINK) (V2P kdata) 0;
    Kmap kdata (V2P kdata) PHYSTOP PTE_W;
    Kmap DEVSPACE DEVSPACE 0 PTE_W ].

Fixpoint setupkvm_loop (pgdir : Z) (ks : list kmap_entry) : M pmem Z :=
  match ks with
  | [] => mret pgdir
  | k :: ks =>
    r ← mappages pgdir (virt k) (u32 (phys_end k - phys_start k)) (phys_start k) (kperm k);
    if r <? 0 then freevm pgdir;; mret 0 else setupkvm_loop pgdir ks
  end.

Definition setupkvm : M pmem Z :=
  pgdir ← kalloc;
  if pgdir =? 0 then mret 0
  else
    memset_ pgdir 0 PGSIZE;;
    if DEVSPACE <? P2V PHYSTOP then panic "PHYSTOP too high"
    else setupkvm_loop pgdir kmap.

(** [init] is the program text that the build links into the kernel.  The
    result of kalloc is not tested: memset then writes to address 0. *)
Definition inituvm (pgdir : Z) (init : list Z) : M pmem unit :=
  if PGSIZE <=? Z.of_nat (length init) then panic "inituvm: more than a page"
  else
    mem ← kalloc;
    if mem =? 0 then fault 0
    else
      memset_ mem 0 PGSIZE;;
      mappages pgdir 0 PGSIZE (V2P mem) (Z.lor PTE_W PTE_U);;
      put_bytes mem init.

Fixpoint allocuvm_loop (pgdir a oldsz newsz : Z) (fuel : nat) : M pmem Z :=
  if a <? newsz then
    match fuel with
    | O => nofuel
    | S fuel =>
      mem ← kalloc;
      if mem =? 0 then deallocuvm pgdir newsz oldsz;; mret 0
      else
        memset_ mem 0 PGSIZE;;
        r ← mappages pgdir a PGSIZE (V2P mem) (Z.lor PTE_W PTE_U);
        if r <? 0 then deallocuvm pgdir newsz oldsz;; kfree mem;; mret 0
        else allocuvm_loop pgdir (u32 (a + PGSIZE)) oldsz newsz fuel
    end
  else mret newsz.

Definition allocuvm (pgdir oldsz newsz : Z) : M pmem Z :=
  if KERNBASE <=? newsz then mret 0
  else if newsz <? oldsz then mret oldsz
  else
    let a := PGROUNDUP oldsz in
    allocuvm_loop pgdir a oldsz newsz (S (Z.to_nat ((newsz - a) / PGSIZE))).

Definition clearpteu (pgdir uva : Z) : M pmem unit :=
  pte ← walkpgdir pgdir uva false;
  if pte =? 0 then panic "clearpteu"
  else e ← ld pte; st pte (Z.land e (Z.lnot PTE_U)).

Fixpoint copyuvm_loop (pgdir d i sz : Z) (fuel : nat) : M pmem Z :=
  if i <? sz then
    match fuel with
    | O => nofuel
    | S fuel =>
      pte ← walkpgdir pgdir i false;
      if pte =? 0 then panic "copyuvm: pte should exist"
      else
        e ← ld pte;
        if negb (testf e PTE_P) then panic "copyuvm: page not present"
        else
          let pa := PTE_ADDR e in
          let flags := PTE_FLAGS e in
          mem ← kalloc;
          if mem =? 0 then freevm d;; mret 0
          else
            memmove_ mem (P2V pa) PGSIZE;;
            r ← mappages d i PGSIZE (V2P mem) flags;
            if r <? 0 then kfree mem;; freevm d;; mret 0
            else copyuvm_loop pgdir d (u32 (i + PGSIZE)) sz fuel
    end
  else mret d.

Definition copyuvm (pgdir sz : Z) : M pmem Z :=
  d ← setupkvm;
  if d =? 0 then mret 0
  else copyuvm_loop pgdir d 0 sz (S (Z.to_nat (sz / PGSIZE))).

(** The search of cloneuvm for a free slot below the kernel. *)
Fixpoint find_slot (pgdir va size : Z) (fuel : nat) : M pmem Z :=
  match fuel with
  | O => nofuel
  | S fuel =>
    pte ← walkpgdir pgdir va false;
    if pte =? 0 then mret va
    else
      e ← ld pte;
      if negb (testf e PTE_P) then mret va
      else if va <? size then mret va
      else find_slot pgdir (u32 (va - PGSIZE)) size fuel
  end.

Definition slot_fuel : nat := Z.to_nat (KERNBASE / PGSIZE).

Definition cloneuvm (pgdir size guard_page : Z) : M pmem Z :=
  va ← find_slot pgdir (KERNBASE - PGSIZE) size slot_fuel;
  if va <? size then mret 0
  else
    let tstack := u32 (va + PGSIZE) in
    stack_pte ← walkpgdir pgdir va true;
    if stack_pte =? 0 then mret 0
    else
      stack_page ← kalloc;
      if stack_page =? 0 then mret 0
      else
        memset_ stack_page 0 PGSIZE;;
        st stack_pte (Z.lor (Z.lor (Z.lor (V2P stack_page) PTE_U) PTE_W) PTE_P);;
        let va := u32 (va - PGSIZE) in
        if va <? size then st stack_pte 0;; kfree stack_page;; mret 0
        else
          pte ← walkpgdir pgdir va true;
          if pte =? 0 then kfree stack_page;; mret 0
          else
            guard_pte ← walkpgdir pgdir guard_page false;
            if guard_pte =? 0 then panic "guard page not found"
            else
              g ← ld guard_pte;
              st pte g;;
              mret tstack.

Definition freecloneuvm (pgdir tstack : Z) : M pmem unit :=
  let stack_page := u32 (tstack - PGSIZE) in
  pte ← walkpgdir pgdir stack_page false;
  if pte =? 0 then panic "clone process has no stack !!"
  else
    e ← ld pte;
    kfree (P2V (PTE_ADDR e));;
    st pte 0;;
    let guard_page := u32 (tstack - 2 * PGSIZE) in
    pte ← walkpgdir pgdir guard_page false;
    if pte =? 0 then panic "clone process has no guard page !!"
    else st pte 0.

Definition copy_thread_stack (dest dest_stack src src_stack : Z) : M pmem Z :=
  src_pte ← walkpgdir src src_stack false;
  if src_pte =? 0 then mret (-1)
  else
    se ← ld src_pte;
    if negb (testf se PTE_P) then mret (-1)
    else
      dest_pte ← walkpgdir dest dest_stack false;
      if dest_pte =? 0 then mret (-1)
      else
        de ← ld dest_pte;
        if negb (testf de PTE_P) then mret (-1)
        else
          memmove_ (P2V (PTE_ADDR de)) (P2V (PTE_ADDR se)) PGSIZE;;
          mret 0.

(** A kernel load of the word at virtual address [va] below KERNBASE, in
    the address space [cur] of the running process. *)
Definition ld_user (cur va : Z) : M pmem Z :=
  pte ← walkpgdir cur va false;
  if pte =? 0 then fault va
  else
    e ← ld pte;
    if testf e PTE_P then ld (P2V (PTE_ADDR e) + va mod PGSIZE) else fault va.

(** uva2ka does not test the result of walkpgdir: with no page table it
    reads the PTE at address 0, in the address space in use. *)
Definition uva2ka (cur pgdir uva : Z) : M pmem Z :=
  pte ← walkpgdir pgdir uva false;
  e ← (if pte =? 0 then ld_user cur 0 else ld pte);
  if negb (testf e PTE_P) then mret 0
  else if negb (testf e PTE_U) then mret 0
  else mret (P2V (PTE_ADDR e)).

Fixpoint copyout_loop (cur pgdir va : Z) (buf : list Z) (fuel : nat) : M pmem Z :=
  match buf with
  | [] => mret 0
  | _ :: _ =>
    match fuel with
    | O => nofuel
    | S fuel =>
      let va0 := PGROUNDDOWN va in
      pa0 ← uva2ka cur pgdir va0;
      if pa0 =? 0 then mret (-1)
      else
        let n := PGSIZE - (va - va0) in
        let n := if Z.of_nat (length buf) <? n then Z.of_nat (length buf) else n in
        put_bytes (pa0 + (va - va0)) (take (Z.to_nat n) buf);;
        copyout_loop cur pgdir (u32 (va0 + PGSIZE)) (drop (Z.to_nat n) buf) fuel
    end
  end.

(** [buf] is the kernel buffer [p], [len] its length. *)
Definition copyout (cur pgdir va : Z) (buf : list Z) : M pmem Z :=
  copyout_loop cur pgdir va buf (length buf).

End vm.
