(* ===== verification/VmFacts.v ===== *)
(** Facts about vm.c: the logical view of a page table ([pte_of]), its
    well-formedness, and how the operations change them. *)

From S2P Require Import Prelude Mmu Str Kalloc Vm.

(** * Page table entries as numbers *)

Lemma land_page_flags a f : a mod 4096 = 0 -> 0 <= f < 4096 -> Z.land a f = 0.
Proof.
  intros Ha Hf. apply Z.bits_inj'. intros n Hn.
  rewrite Z.land_spec, Z.bits_0. destruct (decide (n < 12)).
  - rewrite <- (Z.mod_pow2_bits_low a 12) by lia.
    change (2 ^ 12) with 4096. by rewrite Ha, Z.bits_0.
  - rewrite <- (Z.mod_small f (2 ^ 12)) by lia.
    rewrite Z.mod_pow2_bits_high by lia. by rewrite andb_false_r.
Qed.

Lemma lor_page_flags a f : a mod 4096 = 0 -> 0 <= f < 4096 -> Z.lor a f = a + f.
Proof.
  intros. pose proof (Z.add_lor_land a f) as H'. rewrite land_page_flags in H'; lia.
Qed.

Lemma testf_P e : testf e PTE_P = Z.odd e.
Proof.
  unfold testf, PTE_P. rewrite <- Z.bit0_odd.
  change 1 with (Z.ones 1) at 1. rewrite Z.land_ones by lia. rewrite Z.bit0_odd.
  change (2 ^ 1) with 2. rewrite Zmod_odd. by destruct (Z.odd e).
Qed.

Lemma lor_flags_range a b : 0 <= a < 4096 -> 0 <= b < 4096 -> 0 <= Z.lor a b < 4096.
Proof.
  intros. split; [apply Z.lor_nonneg; lia|].
  destruct (decide (Z.lor a b = 0)); [lia|].
  change 4096 with (2 ^ 12). apply Z.log2_lt_pow2; [|rewrite Z.log2_lor by lia].
  { assert (0 <= Z.lor a b) by (apply Z.lor_nonneg; lia). lia. }
  assert (Z.log2 a < 12).
  { destruct (decide (a = 0)) as [->|]; [done|]. apply Z.log2_lt_pow2; lia. }
  assert (Z.log2 b < 12).
  { destruct (decide (b = 0)) as [->|]; [done|]. apply Z.log2_lt_pow2; lia. }
  lia.
Qed.

(** An entry built from a page address and flags. *)
Definition mkpte (pa perm : Z) : Z := Z.lor (Z.lor pa perm) PTE_P.

Lemma mkpte_eq pa perm :
  pa mod 4096 = 0 -> 0 <= perm < 4096 -> mkpte pa perm = pa + Z.lor perm 1.
Proof.
  intros. unfold mkpte, PTE_P. rewrite <- Z.lor_assoc.
  apply lor_page_flags; [done | apply lor_flags_range; lia].
Qed.

Lemma mkpte_P pa perm : testf (mkpte pa perm) PTE_P = true.
Proof.
  rewrite testf_P. unfold mkpte. rewrite <- Z.bit0_odd, Z.lor_spec. simpl.
  by rewrite orb_true_r.
Qed.

Lemma mkpte_range pa perm :
  pa mod 4096 = 0 -> 0 <= pa < 2 ^ 32 -> 0 <= perm < 4096 -> 0 <= mkpte pa perm < 2 ^ 32.
Proof.
  intros. rewrite mkpte_eq by done. pose proof (lor_flags_range perm 1). lia.
Qed.

Lemma mkpte_testf pa perm f :
  pa mod 4096 = 0 -> 0 <= f < 4096 -> testf (mkpte pa perm) f = testf perm f || testf 1 f.
Proof.
  intros Hpa Hf. unfold mkpte. rewrite !testf_lor. unfold testf at 1.
  by rewrite land_page_flags.
Qed.

Lemma mkpte_addr pa perm :
  pa mod 4096 = 0 -> 0 <= pa < 2 ^ 32 -> 0 <= perm < 4096 ->
  PTE_ADDR (mkpte pa perm) = pa.
Proof.
  intros. rewrite PTE_ADDR_eq, u32_id by (by apply mkpte_range).
  rewrite mkpte_eq by done. pose proof (lor_flags_range perm 1). lia.
Qed.

Lemma mkpte_flags pa perm :
  pa mod 4096 = 0 -> 0 <= pa < 2 ^ 32 -> 0 <= perm < 4096 ->
  PTE_FLAGS (mkpte pa perm) = Z.lor perm 1.
Proof.
  intros. rewrite PTE_FLAGS_eq, u32_id by (by apply mkpte_range).
  rewrite mkpte_eq by done. pose proof (lor_flags_range perm 1). lia.
Qed.

Lemma PTE_ADDR_aligned e : PTE_ADDR e mod 4096 = 0.
Proof. rewrite PTE_ADDR_eq. pose proof (u32_range e). lia. Qed.

Lemma PTE_ADDR_range e : 0 <= PTE_ADDR e < 2 ^ 32.
Proof. rewrite PTE_ADDR_eq. pose proof (u32_range e). lia. Qed.

Section facts.
Context `{L : Link}.

Lemma V2P_page v : valid_page v -> V2P v = v - KERNBASE.
Proof.
  intros H%valid_page_pos. unfold V2P. rewrite (u32_id v) by ulia.
  rewrite u32_id; ulia.
Qed.

Lemma V2P_page_pte v : valid_page v -> V2P v mod 4096 = 0 /\ 0 < V2P v < PHYSTOP.
Proof.
  intros H. rewrite V2P_page by done. pose proof (valid_page_pos _ H).
  unfold valid_page in H. ulia.
Qed.

Lemma P2V_V2P v : valid_page v -> P2V (V2P v) = v.
Proof.
  intros H. rewrite V2P_page by done. apply valid_page_pos in H.
  unfold P2V. rewrite u32_id; ulia.
Qed.

(** * The logical view *)

Definition pde_at (m : memory) (pgdir i : Z) : Z := load32 m (pgdir + 4 * i).
Definition tab (m : memory) (pgdir i : Z) : Z := P2V (PTE_ADDR (pde_at m pgdir i)).
Definition pde_present (m : memory) (pgdir i : Z) : Prop :=
  0 <= i < NPDENTRIES /\ testf (pde_at m pgdir i) PTE_P = true.

(** Where the entry of [va] is in memory (0: there is no page table), and
    the entry (0: none). *)
Definition pte_slot (m : memory) (pgdir va : Z) : Z :=
  if testf (pde_at m pgdir (PDX va)) PTE_P
  then tab m pgdir (PDX va) + 4 * PTX va else 0.
Definition pte_of (m : memory) (pgdir va : Z) : Z :=
  let a := pte_slot m pgdir va in if a =? 0 then 0 else load32 m a.
Definition mapped (m : memory) (pgdir va : Z) : bool := testf (pte_of m pgdir va) PTE_P.
Definition frame (m : memory) (pgdir va : Z) : Z := P2V (PTE_ADDR (pte_of m pgdir va)).

(** The pages a page table occupies. *)
Definition owns (m : memory) (pgdir v : Z) : Prop :=
  v = pgdir \/ exists i, pde_present m pgdir i /\ v = tab m pgdir i.

Record pt_wf (m : memory) (pgdir : Z) : Prop := {
  wf_pgdir : valid_page pgdir;
  wf_tab : forall i, pde_present m pgdir i ->
    valid_page (tab m pgdir i) /\ tab m pgdir i <> pgdir;
  wf_inj : forall i j, pde_present m pgdir i -> pde_present m pgdir j ->
    tab m pgdir i = tab m pgdir j -> i = j;
}.

Definition page_eq (v : Z) (m m' : memory) : Prop :=
  forall x, v <= x < v + PGSIZE -> load8 m' x = load8 m x.

(** [m'] differs from [m] in no page of the page table. *)
Definition pt_frame (m m' : memory) (pgdir : Z) : Prop :=
  forall v, owns m pgdir v -> page_eq v m m'.

(** The invariant of an address space together with the allocator. *)
Record aspace (s : pmem) (pgdir : Z) (l : list Z) : Prop := {
  as_free : free_list s l;
  as_wf : pt_wf (ram s) pgdir;
  as_disj : forall v, owns (ram s) pgdir v -> ~ In v l;
}.

(** * Framing *)

Lemma page_eq_load32 v m m' a :
  page_eq v m m' -> v <= a -> a + 4 <= v + PGSIZE -> load32 m' a = load32 m a.
Proof. intros H ? ?. apply load32_ext. intros. apply H. lia. Qed.

Lemma same_outside_page_eq v w m m' :
  same_outside v m m' -> valid_page v -> valid_page w -> w <> v -> page_eq w m m'.
Proof.
  intros H Hv Hw Hne x Hx. apply H. pose proof (valid_page_disjoint v w). lia.
Qed.

(** The free list only depends on the pages it holds. *)
Lemma free_list_ext s m l :
  free_list s l -> (forall y, In y l -> valid_page y -> page_eq y (ram s) m) ->
  free_list (Pmem m (kmem s)) l.
Proof.
  intros Hf Hy. pose proof (free_list_valid _ _ Hf) as Hv. destruct Hf as (Hc & Hn).
  split; [|done]. eapply chain_ext; [|exact Hc]. intros x Hx.
  rewrite Forall_forall in Hv. specialize (Hv x ltac:(by apply list_elem_of_In)).
  apply (page_eq_load32 x); [by apply Hy | lia | ulia].
Qed.

Lemma page_eq_refl v m : page_eq v m m.
Proof. done. Qed.

Lemma page_eq_trans v m1 m2 m3 : page_eq v m1 m2 -> page_eq v m2 m3 -> page_eq v m1 m3.
Proof. intros H1 H2 x Hx. rewrite H2, H1; done. Qed.

Lemma owns_pgdir m pgdir : owns m pgdir pgdir.
Proof. by left. Qed.

Lemma pde_present_PDX m pgdir va :
  testf (pde_at m pgdir (PDX va)) PTE_P = true <-> pde_present m pgdir (PDX va).
Proof. unfold pde_present. pose proof (PDX_range va). split; [|tauto]. split; [ulia|done]. Qed.

Lemma owns_valid m pgdir v : pt_wf m pgdir -> owns m pgdir v -> valid_page v.
Proof.
  intros H [->|(i & Hi & ->)]; [by eapply wf_pgdir | by eapply wf_tab].
Qed.

Lemma pde_frame m m' pgdir i :
  pt_frame m m' pgdir -> 0 <= i < NPDENTRIES -> pde_at m' pgdir i = pde_at m pgdir i.
Proof.
  intros H Hi. eapply page_eq_load32; [apply H, owns_pgdir | ulia | ulia].
Qed.

Lemma present_frame m m' pgdir i :
  pt_frame m m' pgdir -> pde_present m' pgdir i <-> pde_present m pgdir i.
Proof.
  intros H. unfold pde_present. split; intros [Hi Hp]; (split; [done|]);
    [rewrite <- (pde_frame m m') | rewrite (pde_frame m m')]; done.
Qed.

Lemma tab_frame m m' pgdir i :
  pt_frame m m' pgdir -> 0 <= i < NPDENTRIES -> tab m' pgdir i = tab m pgdir i.
Proof. intros. unfold tab. by rewrite (pde_frame m m'). Qed.

Lemma slot_frame m m' pgdir va :
  pt_frame m m' pgdir -> pte_slot m' pgdir va = pte_slot m pgdir va.
Proof.
  intros H. pose proof (PDX_range va). unfold pte_slot.
  by rewrite (tab_frame m m'), (pde_frame m m') by (done || ulia).
Qed.

Lemma pte_frame m m' pgdir va :
  pt_frame m m' pgdir -> pte_of m' pgdir va = pte_of m pgdir va.
Proof.
  intros H. unfold pte_of. rewrite (slot_frame m m') by done.
  case_match; [done|]. unfold pte_slot in *.
  destruct (testf (pde_at m pgdir (PDX va)) PTE_P) eqn:E; [|done].
  pose proof (PTX_range va). eapply page_eq_load32;
    [apply H; right; exists (PDX va); split; [by apply pde_present_PDX | done] | lia | ulia].
Qed.

Lemma owns_frame m m' pgdir v :
  pt_frame m m' pgdir -> owns m' pgdir v <-> owns m pgdir v.
Proof.
  intros H. unfold owns. apply or_iff_compat_l.
  split; intros (i & Hi & ->); exists i.
  - rewrite <- (present_frame m m') by done. split; [done|].
    apply tab_frame; [done | apply Hi].
  - rewrite (present_frame m m') by done. split; [done|].
    symmetry. apply tab_frame; [done | apply Hi].
Qed.

Lemma wf_frame m m' pgdir : pt_frame m m' pgdir -> pt_wf m pgdir -> pt_wf m' pgdir.
Proof.
  intros H [Hp Ht Hi]. split; [done| |].
  - intros i Hpr. rewrite (tab_frame m m') by (done || apply Hpr).
    apply Ht. by rewrite <- (present_frame m m').
  - intros i j Hpi Hpj. rewrite !(tab_frame m m') by (done || apply Hpi || apply Hpj).
    apply Hi; by rewrite <- (present_frame m m').
Qed.

(** * walkpgdir *)

Lemma walk_noalloc pgdir va s :
  walkpgdir pgdir va false s = OK (pte_slot (ram s) pgdir va) s.
Proof. unfold walkpgdir, pte_slot, tab, pde_at, ld. mrun. by case_match. Qed.

Lemma slot_present m pgdir va :
  pt_wf m pgdir -> pte_slot m pgdir va <> 0 <-> pde_present m pgdir (PDX va).
Proof.
  intros Hwf. rewrite <- pde_present_PDX. unfold pte_slot.
  destruct (testf _ _) eqn:E; [|done]. split; [done|]. intros _.
  apply pde_present_PDX in E. apply (wf_tab _ _ Hwf) in E as [Hv%valid_page_pos _].
  pose proof (PTX_range va). ulia.
Qed.

Lemma slot_nz_eq m pgdir va :
  pte_slot m pgdir va <> 0 ->
  pte_slot m pgdir va = tab m pgdir (PDX va) + 4 * PTX va /\ pde_present m pgdir (PDX va).
Proof.
  unfold pte_slot. destruct (testf _ _) eqn:E; [|done].
  intros _. split; [done|]. by apply pde_present_PDX.
Qed.

Lemma pte_unmapped_none m pgdir va : pte_slot m pgdir va = 0 -> pte_of m pgdir va = 0.
Proof. unfold pte_of. by intros ->. Qed.

(** * Writing an entry *)

Section store_pte.
Context (m : memory) (pgdir va v : Z).
Context (Hwf : pt_wf m pgdir) (Hp : pde_present m pgdir (PDX va)).

Let t : Z := tab m pgdir (PDX va).
Let m' : memory := store32 m (t + 4 * PTX va) v.

Lemma store_same_outside : same_outside t m m'.
Proof.
  intros x Hx. pose proof (PTX_range va). apply load8_store32_ne. ulia.
Qed.

Lemma store_page_eq w : valid_page w -> w <> t -> page_eq w m m'.
Proof.
  intros Hw Hne. eapply same_outside_page_eq; [apply store_same_outside|..|done|done].
  by apply (wf_tab _ _ Hwf).
Qed.

Lemma store_pde i : 0 <= i < NPDENTRIES -> pde_at m' pgdir i = pde_at m pgdir i.
Proof.
  intros Hi. apply (page_eq_load32 pgdir); [apply store_page_eq | ulia | ulia].
  - by apply (wf_pgdir _ _ Hwf).
  - apply not_eq_sym. by apply (wf_tab _ _ Hwf).
Qed.

Lemma store_present i : pde_present m' pgdir i <-> pde_present m pgdir i.
Proof.
  unfold pde_present. split; intros [? ?]; (split; [done|]);
    [rewrite <- store_pde | rewrite store_pde]; done.
Qed.

Lemma store_tab i : 0 <= i < NPDENTRIES -> tab m' pgdir i = tab m pgdir i.
Proof. intros. unfold tab. by rewrite store_pde. Qed.

Lemma store_owns w : owns m' pgdir w <-> owns m pgdir w.
Proof.
  unfold owns. apply or_iff_compat_l. split; intros (i & Hi & ->); exists i.
  - rewrite <- store_present. split; [done|]. apply store_tab, Hi.
  - rewrite store_present. split; [done|]. symmetry. apply store_tab, Hi.
Qed.

Lemma store_wf : pt_wf m' pgdir.
Proof.
  destruct Hwf as [H1 H2 H3]. split; [done| |].
  - intros i Hi%store_present. rewrite store_tab by apply Hi. by apply H2.
  - intros i j Hi%store_present Hj%store_present.
    rewrite !store_tab by (apply Hi || apply Hj). by apply H3.
Qed.

Lemma store_slot va' : pte_slot m' pgdir va' = pte_slot m pgdir va'.
Proof.
  pose proof (PDX_range va'). unfold pte_slot.
  by rewrite store_tab, store_pde by ulia.
Qed.

Lemma store_pte_eq va' :
  u32 va' / 4096 = u32 va / 4096 -> pte_of m' pgdir va' = u32 v.
Proof.
  intros [Hd Ht]%same_page. unfold pte_of. rewrite store_slot.
  pose proof (proj2 (slot_present m pgdir va' Hwf)) as Hs. rewrite Hd in Hs.
  specialize (Hs Hp). rewrite (proj2 (Z.eqb_neq _ _) Hs).
  destruct (slot_nz_eq m pgdir va' Hs) as [-> _]. rewrite Hd, Ht.
  apply load32_store32_eq.
Qed.

Lemma store_pte_ne va' :
  u32 va' / 4096 <> u32 va / 4096 -> pte_of m' pgdir va' = pte_of m pgdir va'.
Proof.
  intros Hne. unfold pte_of. rewrite store_slot.
  destruct (Z.eqb_spec (pte_slot m pgdir va') 0); [done|].
  destruct (slot_nz_eq m pgdir va' n) as [-> Hp'].
  pose proof (PTX_range va). pose proof (PTX_range va').
  destruct (decide (PDX va' = PDX va)) as [Hd|Hd].
  - assert (PTX va' <> PTX va) by (intros ?; apply Hne, same_page; done).
    rewrite Hd. apply load32_store32_ne. fold t. lia.
  - assert (tab m pgdir (PDX va') <> t) as Ht.
    { intros Heq. apply Hd. by eapply wf_inj. }
    pose proof (valid_page_disjoint (tab m pgdir (PDX va')) t) as Hdj.
    apply load32_store32_ne. specialize (Hdj ltac:(by apply (wf_tab _ _ Hwf))
      ltac:(by apply (wf_tab _ _ Hwf)) Ht). ulia.
Qed.

End store_pte.

(** * Allocation of a page table *)

(** What the operations that add page tables do: the pages [used] left
    the list and became tables; nothing
    outside the page table and the list changed. *)
Record grows (s s' : pmem) (pgdir : Z) (l used l' : list Z) : Prop := {
  gr_list : l = used ++ l';
  gr_as : aspace s' pgdir l';
  gr_owns : forall w, owns (ram s) pgdir w -> owns (ram s') pgdir w;
  gr_new : forall w, owns (ram s') pgdir w -> owns (ram s) pgdir w \/ In w used;
  gr_used : forall w, In w used -> owns (ram s') pgdir w;
  gr_out : forall w, valid_page w -> ~ owns (ram s) pgdir w -> ~ In w l ->
    page_eq w (ram s) (ram s');
}.

Lemma grows_refl s pgdir l : aspace s pgdir l -> grows s s pgdir l [] l.
Proof. intros H. split; try done; auto. Qed.

Lemma grows_trans s1 s2 s3 pgdir l1 u1 l2 u2 l3 :
  grows s1 s2 pgdir l1 u1 l2 -> grows s2 s3 pgdir l2 u2 l3 ->
  grows s1 s3 pgdir l1 (u1 ++ u2) l3.
Proof.
  intros [A1 B1 C1 D1 F1 E1] [A2 B2 C2 D2 F2 E2]. split.
  - by rewrite A1, A2, app_assoc.
  - done.
  - auto.
  - intros w Hw. rewrite in_app_iff. destruct (D2 w Hw) as [Hw'|]; [|tauto].
    destruct (D1 w Hw'); tauto.
  - intros w [?|?]%in_app_iff; auto.
  - intros w Hv Ho Hl. eapply page_eq_trans; [by apply E1|].
    apply E2; [done| |].
    + intros [?|?]%D1; [done|]. apply Hl. rewrite A1, in_app_iff. by left.
    + intros ?. apply Hl. rewrite A1, in_app_iff. by right.
Qed.

Definition empty_free (s : pmem) : pmem := set_freelist 0 s.

(** A page from the allocator, not in use. *)
Lemma kalloc_fresh s pgdir l :
  aspace s pgdir l ->
  (l = [] /\ exists s', kalloc s = OK 0 s' /\ ram s' = ram s /\ aspace s' pgdir [])
  \/ (exists x l1 s', l = x :: l1 /\ kalloc s = OK x s' /\ ram s' = ram s
       /\ valid_page x /\ ~ owns (ram s) pgdir x /\ ~ In x l1
       /\ aspace s' pgdir l1).
Proof.
  intros [Hf Hw Hd]. destruct (kalloc_run s l Hf) as [Hk Hs].
  pose proof (free_list_valid _ _ Hf) as Hv.
  destruct l as [|x l]; [left|right]; simpl in *.
  - split; [done|]. eexists. split; [exact Hk|]. split; [done|]. by split.
  - eexists x, l, _. split; [done|]. split; [exact Hk|]. split; [done|].
    inversion Hv; subst. split; [done|]. split; [|split].
    + intros Ho. apply (Hd _ Ho). by left.
    + destruct Hf as (_ & Hn & _). inversion Hn; subst. by rewrite <- list_elem_of_In.
    + split; simpl; try done. intros v Ho Hin. apply (Hd v Ho). by right.
Qed.

(** Installing a zeroed page [x] as the page table of directory entry [d]. *)
Section install.
Context (m : memory) (pgdir d x : Z).
Context (Hwf : pt_wf m pgdir) (Hd : 0 <= d < NPDENTRIES).
Context (Habs : testf (pde_at m pgdir d) PTE_P = false).
Context (Hx : valid_page x) (Hno : ~ owns m pgdir x).

Let e : Z := Z.lor (Z.lor (Z.lor (V2P x) PTE_P) PTE_W) PTE_U.
Let m2 : memory := store32 (fill m x 0 PGSIZE) (pgdir + 4 * d) e.

Lemma install_e : e = mkpte (V2P x) 6.
Proof.
  unfold e, mkpte, PTE_P, PTE_W, PTE_U. rewrite <- !Z.lor_assoc. f_equal.
Qed.

Lemma install_outside w :
  valid_page w -> w <> x -> w <> pgdir -> page_eq w m m2.
Proof.
  intros Hw Hne1 Hne2 y Hy. pose proof (wf_pgdir _ _ Hwf) as Hpg.
  pose proof (valid_page_disjoint w x Hw Hx Hne1).
  pose proof (valid_page_disjoint w pgdir Hw Hpg Hne2).
  unfold m2. rewrite load8_store32_ne, load8_fill_ne by ulia. done.
Qed.

Lemma install_x_pgdir : x <> pgdir.
Proof. intros ->. apply Hno, owns_pgdir. Qed.

Lemma install_pde i :
  0 <= i < NPDENTRIES -> pde_at m2 pgdir i = if decide (i = d) then e else pde_at m pgdir i.
Proof.
  intros Hi. unfold pde_at, m2. case_decide as Hid.
  - subst i. rewrite load32_store32_eq, u32_id; [done|]. rewrite install_e.
    destruct (V2P_page_pte x Hx). apply mkpte_range; ulia.
  - rewrite load32_store32_ne by lia.
    pose proof (valid_page_disjoint pgdir x (wf_pgdir _ _ Hwf) Hx).
    rewrite load32_fill_ne; [done|]. pose proof install_x_pgdir. ulia.
Qed.

Lemma install_tab i :
  0 <= i < NPDENTRIES -> tab m2 pgdir i = if decide (i = d) then x else tab m pgdir i.
Proof.
  intros Hi. unfold tab. rewrite install_pde by done. case_decide; [|done].
  rewrite install_e, mkpte_addr; [by apply P2V_V2P|..|lia];
    destruct (V2P_page_pte x Hx); ulia.
Qed.

Lemma install_present i :
  pde_present m2 pgdir i <-> i = d \/ pde_present m pgdir i.
Proof.
  unfold pde_present. split.
  - intros [Hi Hp]. rewrite install_pde in Hp by done. case_decide; [by left | by right].
  - intros [->|[Hi Hp]]; (split; [done|]); rewrite install_pde by done.
    + rewrite decide_True by done. rewrite install_e. apply mkpte_P.
    + case_decide; [|done]. rewrite install_e. apply mkpte_P.
Qed.

Lemma install_owns w : owns m2 pgdir w <-> owns m pgdir w \/ w = x.
Proof.
  unfold owns. split.
  - intros [->|(i & Hi & ->)]; [tauto|]. rewrite install_tab by apply Hi.
    case_decide; [tauto|]. apply install_present in Hi as [->|Hi]; [done|].
    left. right. by exists i.
  - intros [[->|(i & Hi & ->)]| ->]; [tauto| |].
    + right. exists i. rewrite install_present, install_tab by apply Hi.
      split; [tauto|]. rewrite decide_False; [done|].
      intros ->. destruct Hi as [_ Hi]. by rewrite Habs in Hi.
    + right. exists d. rewrite install_present, install_tab by done.
      rewrite decide_True by done. split; [by left | done].
Qed.

Lemma install_wf : pt_wf m2 pgdir.
Proof.
  destruct Hwf as [H1 H2 H3]. split; [done| |].
  - intros i Hi. rewrite install_tab by apply Hi. case_decide.
    + split; [done | apply install_x_pgdir].
    + apply install_present in Hi as [->|Hi]; [done | by apply H2].
  - intros i j Hi Hj. rewrite !install_tab by (apply Hi || apply Hj).
    apply install_present in Hi, Hj.
    repeat case_decide; subst; try done.
    + intros ->. destruct Hj as [->|Hj]; [done|]. destruct Hno. right. by exists j.
    + intros <-. destruct Hi as [->|Hi]; [done|]. destruct Hno. right. by exists i.
    + destruct Hi as [->|Hi]; [done|]. destruct Hj as [->|Hj]; [done|]. by apply H3.
Qed.

Lemma install_slot va :
  PDX va = d -> pte_slot m2 pgdir va = x + 4 * PTX va.
Proof.
  intros Hv. unfold pte_slot. rewrite (proj2 (pde_present_PDX _ _ _)).
  - rewrite Hv, install_tab by done. by rewrite decide_True.
  - apply install_present. by left.
Qed.

Lemma install_pte va : pte_of m2 pgdir va = pte_of m pgdir va.
Proof.
  pose proof (PDX_range va) as Hr. pose proof (PTX_range va) as Ht.
  pose proof (valid_page_pos _ Hx).
  destruct (decide (PDX va = d)) as [Hv|Hv].
  - unfold pte_of. rewrite install_slot by done.
    rewrite (proj2 (Z.eqb_neq _ _)) by ulia.
    unfold pte_slot. rewrite Hv, Habs. simpl.
    unfold m2. rewrite load32_store32_ne.
    + apply load32_fill_0; ulia.
    + pose proof (valid_page_disjoint x pgdir Hx (wf_pgdir _ _ Hwf) install_x_pgdir). ulia.
  - unfold pte_of, pte_slot. rewrite install_tab, install_pde by ulia.
    rewrite !decide_False by done.
    destruct (testf (pde_at m pgdir (PDX va)) PTE_P) eqn:E; [|done].
    case_match; [done|]. apply pde_present_PDX in E.
    destruct (wf_tab _ _ Hwf _ E) as [Hv' Hne].
    apply (page_eq_load32 (tab m pgdir (PDX va))); [|lia|ulia].
    apply install_outside; [done| |done]. intros <-. apply Hno. right. by exists (PDX va).
Qed.

End install.

(** walkpgdir with [alloc]: every entry keeps its value; it returns 0 only
    when the allocator is empty, and otherwise the slot of [va]. *)
Lemma walk_alloc s pgdir va l :
  aspace s pgdir l ->
  exists a s' used l', walkpgdir pgdir va true s = OK a s'
    /\ grows s s' pgdir l used l'
    /\ (forall va', pte_of (ram s') pgdir va' = pte_of (ram s) pgdir va')
    /\ (a = 0 /\ l = [] /\ ram s' = ram s \/ a <> 0 /\ a = pte_slot (ram s') pgdir va).
Proof.
  intros Has. pose proof Has as [Hf Hw Hd].
  unfold walkpgdir, ld. rewrite bind_gets.
  destruct (testf _ _) eqn:E.
  - exists (pte_slot (ram s) pgdir va), s, [], l.
    pose proof (proj1 (pde_present_PDX _ _ _) E) as Hp.
    split; [unfold pte_slot, tab, pde_at; by rewrite E|].
    split; [by apply grows_refl|]. split; [done|]. right.
    split; [by apply slot_present | done].
  - destruct (kalloc_fresh s pgdir l Has) as
      [(-> & s' & Hk & Hr & Has')|(x & l1 & s' & -> & Hk & Hr & Hx & Ho & Hin & Hg)].
    + exists 0, s', [], []. simpl. rewrite (bind_OK _ _ _ _ _ Hk). split; [done|].
      split; [|split; [by rewrite Hr|left; done]].
      split; rewrite ?Hr; auto; done.
    + simpl. rewrite (bind_OK _ _ _ _ _ Hk).
      rewrite (proj2 (Z.eqb_neq x 0)) by by apply valid_page_nonzero.
      unfold memset_, st. mrun. unfold set_ram. simpl. rewrite Hr.
      set (m2 := store32 (fill (ram s) x 0 PGSIZE) (pgdir + 4 * PDX va)
                   (Z.lor (Z.lor (Z.lor (V2P x) PTE_P) PTE_W) PTE_U)).
      pose proof (PDX_range va) as Hr'. assert (0 <= PDX va < NPDENTRIES) as Hpd by ulia.
      exists (x + 4 * PTX va), (Pmem m2 (kmem s')), [x], l1.
      split; [reflexivity|]. simpl.
      assert (forall w, valid_page w -> ~ owns (ram s) pgdir w -> w <> x -> page_eq w (ram s) m2) as Hout.
      { intros w Hw1 Hw2 Hw3. apply install_outside; try done. intros ->. apply Hw2, owns_pgdir. }
      split; [split; simpl|].
      * done.
      * split; simpl.
        -- eapply free_list_ext; [apply Hg|]. intros y Hy Hv. rewrite Hr.
           apply Hout; [done| |by intros ->]. intros Ho'. apply (Hd y Ho'). by right.
        -- by apply install_wf.
        -- intros v Ho'. apply install_owns in Ho' as [Ho'| ->]; try done.
           intros Hin'. apply (Hd v Ho'). by right.
      * intros w Ho'. apply install_owns; try done. by left.
      * intros w Ho'. apply install_owns in Ho' as [?| ->]; try done; [by left|right; by left].
      * intros w [<-|[]]. apply install_owns; try done. by right.
      * intros w Hw1 Hw2 Hw3. apply Hout; try done. intros ->. apply Hw3. by left.
      * split; [intros va'; by apply install_pte|]. right.
        rewrite (install_slot (ram s) pgdir (PDX va) x) by done.
        split; [|done]. pose proof (valid_page_pos _ Hx). pose proof (PTX_range va). ulia.
Qed.

(** * Writing an entry of an address space *)

Lemma as_store s pgdir va v l :
  aspace s pgdir l -> pte_slot (ram s) pgdir va <> 0 ->
  let s' := set_ram (fun m => store32 m (pte_slot (ram s) pgdir va) v) s in
  grows s s' pgdir l [] l
  /\ (forall va', u32 va' / 4096 = u32 va / 4096 -> pte_of (ram s') pgdir va' = u32 v)
  /\ (forall va', u32 va' / 4096 <> u32 va / 4096 ->
        pte_of (ram s') pgdir va' = pte_of (ram s) pgdir va').
Proof.
  intros [Hf Hw Hd] Ha s'. destruct (slot_nz_eq _ _ _ Ha) as [Hs Hp].
  unfold s'. rewrite Hs. simpl. split; [|split].
  - assert (forall w, valid_page w -> ~ owns (ram s) pgdir w ->
      page_eq w (ram s) (store32 (ram s) (tab (ram s) pgdir (PDX va) + 4 * PTX va) v)) as Hout.
    { intros w Hv Ho. apply store_page_eq; try done. intros ->. apply Ho. right. by exists (PDX va). }
    split; simpl; try done.
    + split; simpl.
      * apply free_list_ext; [done|]. intros y Hy Hv. apply Hout; [done|].
        intros Ho. by apply (Hd y Ho).
      * by apply store_wf.
      * intros w. rewrite store_owns by done. apply Hd.
    + intros w. by rewrite store_owns.
    + intros w. rewrite store_owns by done. auto.
    + intros w Hv Ho _. by apply Hout.
  - intros va'. by apply store_pte_eq.
  - intros va'. by apply store_pte_ne.
Qed.

Lemma pte_of_slot m pgdir va :
  pte_slot m pgdir va <> 0 -> load32 m (pte_slot m pgdir va) = pte_of m pgdir va.
Proof. intros H. unfold pte_of. by rewrite (proj2 (Z.eqb_neq _ _) H). Qed.

(** * mappages *)

(** The first [k] pages from [a] are mapped to the pages from [pa], and
    every other entry is as before. *)
Definition maps_range (m m' : memory) (pgdir a pa perm : Z) (k : nat) : Prop :=
  (forall j, 0 <= j < Z.of_nat k ->
     pte_of m' pgdir (a + PGSIZE * j) = mkpte (pa + PGSIZE * j) perm)
  /\ (forall va, (forall j, 0 <= j < Z.of_nat k -> u32 va / 4096 <> (a + PGSIZE * j) / 4096) ->
     pte_of m' pgdir va = pte_of m pgdir va).

(** One iteration of the loop of mappages. *)
Definition map1 (pgdir a pa perm : Z) : M pmem Z :=
  pte ← walkpgdir pgdir a true;
  if pte =? 0 then mret (-1)
  else
    e ← ld pte;
    if testf e PTE_P then panic "remap"
    else st pte (Z.lor (Z.lor pa perm) PTE_P);; mret 0.

Lemma mappages_loop_step pgdir a last pa perm fuel s :
  mappages_loop pgdir a last pa perm (S fuel) s =
  (r ← map1 pgdir a pa perm;
   if r =? -1 then mret (-1)
   else if a =? last then mret 0
   else mappages_loop pgdir (u32 (a + PGSIZE)) last (u32 (pa + PGSIZE)) perm fuel) s.
Proof.
  cbn [mappages_loop]. unfold map1, ld, st, mbind, M_bind, mret, M_ret.
  destruct (walkpgdir pgdir a true s); [|done..].
  destruct (a0 =? 0); [done|]. unfold gets. by destruct (testf _ _).
Qed.

Lemma map1_run s pgdir a pa perm l :
  aspace s pgdir l -> 0 <= pa < 2 ^ 32 -> pa mod 4096 = 0 -> 0 <= perm < 4096 ->
  mapped (ram s) pgdir a = false ->
  exists r s' used l', map1 pgdir a pa perm s = OK r s'
    /\ grows s s' pgdir l used l'
    /\ (r = -1 /\ l = [] /\ (forall va, pte_of (ram s') pgdir va = pte_of (ram s) pgdir va)
        \/ r = 0
          /\ (forall va, u32 va / 4096 = u32 a / 4096 -> pte_of (ram s') pgdir va = mkpte pa perm)
          /\ (forall va, u32 va / 4096 <> u32 a / 4096 ->
                pte_of (ram s') pgdir va = pte_of (ram s) pgdir va)).
Proof.
  intros Has Hpa Hpam Hperm Hun. unfold map1.
  destruct (walk_alloc s pgdir a l Has) as (x & s1 & u1 & l1 & Hw & Hg1 & Hp1 & Hx).
  rewrite (bind_OK _ _ _ _ _ Hw). destruct Hx as [(-> & -> & Hram)|(Hx0 & Hx)].
  - exists (-1), s1, u1, l1. split; [done|]. split; [done|]. by left.
  - rewrite (proj2 (Z.eqb_neq _ _) Hx0). unfold ld, st.
    rewrite bind_gets, Hx, pte_of_slot, Hp1 by congruence.
    unfold mapped in Hun. rewrite Hun, bind_modify. fold (mkpte pa perm).
    destruct (as_store s1 pgdir a (mkpte pa perm) l1 (gr_as _ _ _ _ _ _ Hg1)
                ltac:(congruence)) as (Hg2 & He & Hne).
    rewrite (u32_id (mkpte pa perm)) in He by (apply mkpte_range; ulia).
    eexists 0, _, (u1 ++ []), l1. split; [reflexivity|]. split; [by eapply grows_trans|].
    right. split; [done|]. split; [done|]. intros va Hva. by rewrite Hne, Hp1.
Qed.

Lemma maps_range_0 m m' pgdir a pa perm :
  (forall va, pte_of m' pgdir va = pte_of m pgdir va) -> maps_range m m' pgdir a pa perm 0.
Proof. intros H. split; [lia | auto]. Qed.

Lemma maps_range_S m m1 m' pgdir a pa perm k :
  0 <= a -> a mod 4096 = 0 -> a + PGSIZE * Z.of_nat (S k) <= 2 ^ 32 ->
  (forall va, u32 va / 4096 = a / 4096 -> pte_of m1 pgdir va = mkpte pa perm) ->
  (forall va, u32 va / 4096 <> a / 4096 -> pte_of m1 pgdir va = pte_of m pgdir va) ->
  maps_range m1 m' pgdir (a + PGSIZE) (pa + PGSIZE) perm k ->
  maps_range m m' pgdir a pa perm (S k).
Proof.
  intros Ha Ham Hk He Hne [Hm1 Hm2]. split.
  - intros j Hj. destruct (decide (j = 0)) as [->|].
    + rewrite Z.mul_0_r, !Z.add_0_r, Hm2; [apply He; by rewrite u32_id by ulia|].
      intros j Hj'. rewrite u32_id by ulia. ulia.
    + specialize (Hm1 (j - 1) ltac:(lia)).
      replace (a + PGSIZE * j) with (a + PGSIZE + PGSIZE * (j - 1)) by lia.
      by replace (pa + PGSIZE * j) with (pa + PGSIZE + PGSIZE * (j - 1)) by lia.
  - intros va Hva. rewrite Hm2, Hne; [done| |].
    + specialize (Hva 0 ltac:(lia)). by rewrite Z.mul_0_r, Z.add_0_r in Hva.
    + intros j Hj. specialize (Hva (j + 1) ltac:(lia)).
      by replace (a + PGSIZE + PGSIZE * j) with (a + PGSIZE * (j + 1)) by lia.
Qed.

Lemma mappages_loop_run n s pgdir a pa perm l :
  aspace s pgdir l ->
  0 <= a -> a mod 4096 = 0 -> a + PGSIZE * Z.of_nat (S n) <= 2 ^ 32 ->
  0 <= pa -> pa mod 4096 = 0 -> pa + PGSIZE * Z.of_nat (S n) <= 2 ^ 32 ->
  0 <= perm < 4096 ->
  (forall k, 0 <= k <= Z.of_nat n -> mapped (ram s) pgdir (a + PGSIZE * k) = false) ->
  exists r s' used l' k,
    mappages_loop pgdir a (a + PGSIZE * Z.of_nat n) pa perm (S n) s = OK r s'
    /\ grows s s' pgdir l used l'
    /\ maps_range (ram s) (ram s') pgdir a pa perm k
    /\ (r = 0 /\ k = S n \/ r = -1 /\ (k <= n)%nat /\ l' = []).
Proof.
  revert s a pa l. induction n as [|n IH];
    intros s a pa l Has Ha Ham Han Hpa Hpam Hpan Hperm Hun;
    rewrite mappages_loop_step;
    pose proof (Hun 0 ltac:(lia)) as Hun0; rewrite Z.mul_0_r, Z.add_0_r in Hun0;
    destruct (map1_run s pgdir a pa perm l) as (r1 & s1 & u1 & l1 & Hr1 & Hg1 & Hcase);
    try done; try ulia;
    rewrite (bind_OK _ _ _ _ _ Hr1); rewrite (u32_id a) in Hcase by ulia;
    (destruct Hcase as [(-> & -> & Hp)|(-> & He & Hne)];
     [exists (-1), s1, u1, l1, O; split; [done|]; split; [done|];
      split; [by apply maps_range_0|]; right; split; [done|]; split; [lia|];
      by destruct u1, l1; destruct Hg1 |]); change (0 =? -1) with false; cbv iota.
  - rewrite (proj2 (Z.eqb_eq _ _)) by lia.
    exists 0, s1, u1, l1, 1%nat. split; [done|]. split; [done|]. split; [|by left].
    eapply maps_range_S; [done|done|done|exact He|exact Hne|]. by apply maps_range_0.
  - rewrite (proj2 (Z.eqb_neq _ _)) by ulia.
    rewrite (u32_id (a + PGSIZE)), (u32_id (pa + PGSIZE)) by ulia.
    destruct (IH s1 (a + PGSIZE) (pa + PGSIZE) l1) as
      (r & s3 & u3 & l3 & k & Hr & Hg3 & Hm & Hk); try ulia.
    { apply Hg1. }
    { intros k Hk. unfold mapped. rewrite Hne by (rewrite u32_id by ulia; ulia).
      specialize (Hun (k + 1) ltac:(lia)).
      by replace (a + PGSIZE + PGSIZE * k) with (a + PGSIZE * (k + 1)) by lia. }
    exists r, s3, (u1 ++ u3), l3, (S k).
    replace (a + PGSIZE * Z.of_nat (S n)) with (a + PGSIZE + PGSIZE * Z.of_nat n) by lia.
    split; [exact Hr|]. split; [by eapply grows_trans|].
    split; [|destruct Hk as [(-> & ->)|(-> & ? & ?)]; [by left | right; split; [done|]; split; [lia|done]]].
    eapply maps_range_S; [done|done|destruct Hk; ulia|exact He|exact Hne|done].
Qed.

(** * User pages *)

Lemma pte_of_page m pgdir va va' :
  u32 va / 4096 = u32 va' / 4096 -> pte_of m pgdir va = pte_of m pgdir va'.
Proof. intros [H1 H2]%same_page. unfold pte_of, pte_slot. by rewrite H1, H2. Qed.

Lemma pte_of_range m pgdir va : 0 <= pte_of m pgdir va < 2 ^ 32.
Proof. unfold pte_of. case_match; [lia|apply load32_range]. Qed.

Definition uva (va : Z) : Prop := 0 <= va < KERNBASE.

(** The user page of [va] shares its frame with no other user page. *)
Definition unshared (m : memory) (pgdir va : Z) : Prop :=
  forall va', uva va' -> mapped m pgdir va' = true -> va' / 4096 <> va / 4096 ->
    frame m pgdir va' <> frame m pgdir va.

(** An address space whose user pages are allocated pages, apart from the
    page table and the free list.  Two user pages may share a frame only
    when neither is accessible to the user: the guard pages below the
    stacks of the threads of one group. *)
Record uspace (s : pmem) (pgdir : Z) (l : list Z) : Prop := {
  us_as : aspace s pgdir l;
  us_frame : forall va, uva va -> mapped (ram s) pgdir va = true ->
    valid_page (frame (ram s) pgdir va)
    /\ ~ owns (ram s) pgdir (frame (ram s) pgdir va)
    /\ ~ In (frame (ram s) pgdir va) l;
  us_share : forall va, uva va -> mapped (ram s) pgdir va = true ->
    testf (pte_of (ram s) pgdir va) PTE_U = true -> unshared (ram s) pgdir va;
}.

(** Entries are kept outside [lo, hi), and the mapped ones inside are 0. *)
Definition cleared (m m' : memory) (pgdir lo hi : Z) : Prop :=
  (forall va, 0 <= va < 2 ^ 32 -> lo <= va < hi ->
     pte_of m' pgdir va = if mapped m pgdir va then 0 else pte_of m pgdir va)
  /\ (forall va, 0 <= va < 2 ^ 32 -> ~ (lo <= va < hi) -> pte_of m' pgdir va = pte_of m pgdir va).

(** The frames of the user pages mapped in [lo, hi). *)
Definition frames_in (m : memory) (pgdir lo hi w : Z) : Prop :=
  exists va, uva va /\ lo <= va < hi /\ mapped m pgdir va = true /\ w = frame m pgdir va.

Record shrinks (s s' : pmem) (pgdir : Z) (l l' : list Z) (lo hi : Z) : Prop := {
  sh_us : uspace s' pgdir l';
  sh_pte : cleared (ram s) (ram s') pgdir lo hi;
  sh_list : forall w, In w l' <-> In w l \/ frames_in (ram s) pgdir lo hi w;
  sh_owns : forall w, owns (ram s') pgdir w <-> owns (ram s) pgdir w;
  sh_out : forall w, valid_page w -> ~ owns (ram s) pgdir w -> ~ In w l' ->
    page_eq w (ram s) (ram s');
}.

Lemma cleared_unmapped m m' pgdir lo hi va :
  cleared m m' pgdir lo hi -> 0 <= va < 2 ^ 32 -> lo <= va < hi -> mapped m' pgdir va = false.
Proof.
  intros [H _] Hva Hr. unfold mapped in *. rewrite H by done.
  by destruct (testf (pte_of m pgdir va) PTE_P) eqn:E.
Qed.

Lemma frames_in_cleared m m' pgdir lo hi hi' w :
  cleared m m' pgdir lo hi -> lo <= hi -> hi <= hi' -> hi' <= KERNBASE ->
  frames_in m' pgdir hi hi' w <-> exists va, uva va /\ hi <= va < hi'
    /\ mapped m pgdir va = true /\ w = frame m pgdir va.
Proof.
  intros [_ H] ???. unfold frames_in, uva.
  split; intros (va & Hu & Hr & Hm & ->); exists va; unfold mapped, frame in *;
    rewrite H in * by ulia; done.
Qed.

Lemma shrinks_trans s1 s2 s3 pgdir l1 l2 l3 lo mid hi :
  0 <= lo -> lo <= mid -> mid <= hi -> hi <= KERNBASE ->
  shrinks s1 s2 pgdir l1 l2 lo mid -> shrinks s2 s3 pgdir l2 l3 mid hi ->
  shrinks s1 s3 pgdir l1 l3 lo hi.
Proof.
  intros H0 H1 H2 H3 [A1 B1 C1 D1 E1] [A2 B2 C2 D2 E2]. split; [done| | | |].
  - destruct B1 as [P1 Q1], B2 as [P2 Q2]. split.
    + intros va Hva Hr. destruct (decide (va < mid)).
      * rewrite Q2 by lia. apply P1; lia.
      * rewrite P2 by lia. unfold mapped. by rewrite Q1 by lia.
    + intros va Hva Hr. rewrite Q2, Q1; [done|lia..].
  - intros w. rewrite C2, C1, (frames_in_cleared _ _ _ _ _ _ _ B1) by done.
    unfold frames_in. split.
    + intros [[?|(va & ?)]|(va & ?)]; [by left|right; exists va; intuition lia..].
    + intros [?|(va & Hu & Hr & Hm)]; [by left; left|].
      destruct (decide (va < mid)); [left; right | right]; exists va; intuition lia.
  - intros w. by rewrite D2.
  - intros w Hv Ho Hl. apply page_eq_trans with (ram s2).
    + apply E1; [done|done|]. intros Hin. apply Hl, C2. by left.
    + apply E2; [done| by rewrite D1 |done].
Qed.

Lemma shrinks_refl s pgdir l lo hi :
  uspace s pgdir l -> (forall va, 0 <= va < 2 ^ 32 -> lo <= va < hi -> mapped (ram s) pgdir va = false) ->
  hi <= KERNBASE -> shrinks s s pgdir l l lo hi.
Proof.
  intros Hu Hun Hhi. split; [done|split; [intros; by rewrite Hun|done]| |done|done].
  intros w. split; [by left|]. intros [?|(va & Hva & Hr & Hm & ->)]; [done|].
  unfold uva in Hva. rewrite Hun in Hm by ulia. done.
Qed.

(** * deallocuvm *)

Lemma slot_page_0 m pgdir va va' :
  PDX va' = PDX va -> pt_wf m pgdir -> pte_slot m pgdir va = 0 -> mapped m pgdir va' = false.
Proof.
  intros Hd Hwf H0. unfold mapped. rewrite pte_unmapped_none; [done|].
  destruct (decide (pte_slot m pgdir va' = 0)) as [|Hn]; [done|].
  apply slot_present in Hn; [|done]. rewrite Hd in Hn. by apply slot_present in Hn.
Qed.

(** Where the loop continues when a page table is missing. *)
Lemma PGADDR_next a :
  uva a -> u32 (PGADDR (PDX a + 1) 0 0 - PGSIZE) = (PDX a + 1) * 2 ^ 22 - PGSIZE.
Proof.
  unfold uva. intros Ha. unfold PGADDR. rewrite !Z.lor_0_r.
  rewrite PDX_eq, (u32_id a), Z.shiftl_mul_pow2 by ulia. unf.
  rewrite (u32_id ((a / 2 ^ 22 + 1) * 2 ^ 22)) by lia. apply u32_id. lia.
Qed.

(** Returning a page that the address space does not use as a table. *)
Lemma as_kfree s pgdir l f :
  aspace s pgdir l -> valid_page f -> ~ owns (ram s) pgdir f -> ~ In f l ->
  exists s', kfree f s = OK tt s' /\ aspace s' pgdir (f :: l)
    /\ pt_frame (ram s) (ram s') pgdir /\ same_outside f (ram s) (ram s').
Proof.
  intros [Hf Hw Hd] Hv Ho Hl.
  destruct (kfree_run s l f Hf Hv Hl) as (s' & Hk & Hf' & Hso & _).
  assert (pt_frame (ram s) (ram s') pgdir) as Hpf.
  { intros v Hv'. eapply same_outside_page_eq; [done|done|by eapply owns_valid|].
    intros ->. done. }
  exists s'. split; [done|]. split; [|done].
  split; [done|by eapply wf_frame|]. intros v. rewrite (owns_frame _ _ _ _ Hpf).
  intros Hv' [<-|Hin]; [done|]. by apply (Hd v).
Qed.

(** What is mapped after clearing a range. *)
Lemma cleared_mapped m m' pgdir lo hi va :
  cleared m m' pgdir lo hi -> uva va -> mapped m' pgdir va = true ->
  ~ (lo <= va < hi) /\ pte_of m' pgdir va = pte_of m pgdir va.
Proof.
  unfold uva. intros Hc Hu Hm. pose proof Hc as [H1 H2].
  destruct (decide (lo <= va < hi)) as [Hr|Hr].
  - by rewrite (cleared_unmapped m m' pgdir lo hi) in Hm by (done || ulia).
  - split; [done|]. apply H2; [ulia|done].
Qed.

(** The invariant of user pages survives clearing a range of unshared
    pages whose frames go to the free list. *)
Lemma uspace_cleared s s' pgdir l l' lo hi :
  uspace s pgdir l -> aspace s' pgdir l' -> hi <= KERNBASE ->
  lo mod 4096 = 0 -> hi mod 4096 = 0 ->
  cleared (ram s) (ram s') pgdir lo hi ->
  (forall w, owns (ram s') pgdir w <-> owns (ram s) pgdir w) ->
  (forall w, In w l' <-> In w l \/ frames_in (ram s) pgdir lo hi w) ->
  (forall va, uva va -> lo <= va < hi -> mapped (ram s) pgdir va = true ->
     unshared (ram s) pgdir va) ->
  uspace s' pgdir l'.
Proof.
  intros [Has Hfr Hsh] Has' Hhi Hlo Hhi' Hc Ho Hl Hun. split; [done| |].
  - intros va Hu Hm. destruct (cleared_mapped _ _ _ _ _ _ Hc Hu Hm) as [Hr Hp].
    unfold mapped, frame in *. rewrite Hp in Hm |- *. destruct (Hfr va Hu Hm) as (? & ? & ?).
    rewrite Ho, Hl. split; [done|]. split; [done|].
    intros [?|(va' & Hu' & Hr' & Hm' & Heq)]; [done|].
    apply (Hun va' Hu' Hr' Hm' va Hu Hm); [lia|exact Heq].
  - intros va Hu Hm HU va' Hu' Hm' Hne.
    destruct (cleared_mapped _ _ _ _ _ _ Hc Hu Hm) as [Hr Hp].
    destruct (cleared_mapped _ _ _ _ _ _ Hc Hu' Hm') as [Hr' Hp'].
    unfold mapped, frame in *. rewrite Hp in Hm, HU |- *. rewrite Hp' in Hm' |- *.
    by apply (Hsh va).
Qed.

(** Freeing the frame of a mapped user page and clearing its entry. *)
Lemma free_user_page s pgdir a l :
  uspace s pgdir l -> uva a -> a mod 4096 = 0 -> mapped (ram s) pgdir a = true ->
  unshared (ram s) pgdir a ->
  exists s1, kfree (frame (ram s) pgdir a) s = OK tt s1
    /\ shrinks s (set_ram (fun m => store32 m (pte_slot (ram s) pgdir a) 0) s1)
         pgdir l (frame (ram s) pgdir a :: l) a (a + PGSIZE).
Proof.
  intros Hus Ha Ham Hm Hun. set (f := frame (ram s) pgdir a).
  destruct (us_frame _ _ _ Hus a Ha Hm) as (Hfv & Hfo & Hfl).
  destruct (as_kfree s pgdir l f (us_as _ _ _ Hus) Hfv Hfo Hfl) as (s1 & Hk & Has1 & Hpf & Hso).
  exists s1. split; [done|]. rewrite <- (slot_frame _ _ _ a Hpf).
  destruct (as_store s1 pgdir a 0 (f :: l) Has1) as (Hg & He & Hne).
  { rewrite (slot_frame _ _ _ _ Hpf). intros H0. unfold mapped in Hm.
    by rewrite pte_unmapped_none in Hm. }
  set (s2 := set_ram _ s1) in *. unfold uva in Ha.
  assert (cleared (ram s) (ram s2) pgdir a (a + PGSIZE)) as Hc.
  { split; intros va Hva Hr.
    - rewrite He by (rewrite !u32_id by ulia; ulia). unfold mapped in *.
      rewrite (pte_of_page _ _ va a) by (rewrite !u32_id by ulia; ulia). by rewrite Hm.
    - rewrite Hne, (pte_frame _ _ _ _ Hpf); [done|]. rewrite !u32_id by ulia. ulia. }
  assert (forall w, owns (ram s2) pgdir w <-> owns (ram s) pgdir w) as Ho.
  { intros w. rewrite <- (owns_frame _ _ _ _ Hpf). split; [|apply Hg].
    by intros [?|[]]%(gr_new _ _ _ _ _ _ Hg). }
  assert (forall va, a <= va < a + PGSIZE -> pte_of (ram s) pgdir va = pte_of (ram s) pgdir a) as Hsame.
  { intros va Hva. apply pte_of_page. rewrite !u32_id by ulia. ulia. }
  assert (forall w, In w (f :: l) <-> In w l \/ frames_in (ram s) pgdir a (a + PGSIZE) w) as Hl.
  { intros w. split.
    - intros [<-|?]; [right; exists a|by left]. unfold uva. split; [ulia|]. split; [ulia|done].
    - intros [?|(va & _ & Hr & _ & ->)]; [by right|left].
      unfold f, frame. by rewrite (Hsame va Hr). }
  split; [|done|done|done|].
  - apply (uspace_cleared s s2 pgdir l (f :: l) a (a + PGSIZE)); try done; [apply Hg|ulia|ulia|].
    intros va Hu Hr Hmv va' Hu' Hm' Hne'. unfold frame. rewrite (Hsame va Hr).
    apply Hun; [done|done|ulia].
  - intros w Hv How Hlw. apply page_eq_trans with (ram s1).
    + eapply same_outside_page_eq; [done|done|done|]. intros ->. apply Hlw. by left.
    + apply (gr_out _ _ _ _ _ _ Hg); [done| |done]. by rewrite (owns_frame _ _ _ _ Hpf).
Qed.

(** One iteration: either the frame of the page at [a] was freed, or
    nothing changes and there is nothing mapped up to the next [a]. *)
Lemma dealloc_step_run s pgdir a l :
  uspace s pgdir l -> uva a -> a mod 4096 = 0 ->
  (mapped (ram s) pgdir a = true -> unshared (ram s) pgdir a) ->
  exists a' s' l', dealloc_step pgdir a s = OK a' s'
    /\ a <= a' /\ a' + PGSIZE <= KERNBASE /\ a' mod 4096 = 0
    /\ (s' = s /\ l' = l /\ (forall va, a <= va < a' + PGSIZE -> mapped (ram s) pgdir va = false)
        \/ a' = a /\ shrinks s s' pgdir l l' a (a + PGSIZE)).
Proof.
  intros Hus Ha Ham Hun. pose proof (as_wf _ _ _ (us_as _ _ _ Hus)) as Hwf.
  unfold uva in Ha. unfold dealloc_step.
  rewrite (bind_OK _ _ _ _ _ (walk_noalloc pgdir a s)).
  destruct (Z.eqb_spec (pte_slot (ram s) pgdir a) 0) as [H0|H0].
  - eexists _, s, l. split; [reflexivity|]. rewrite PGADDR_next by done.
    rewrite PDX_eq, u32_id by ulia. split; [ulia|]. split; [ulia|]. split; [ulia|].
    left. split; [done|]. split; [done|]. intros va Hva. apply (slot_page_0 _ _ a); try done.
    rewrite !PDX_eq, !u32_id by ulia. ulia.
  - unfold ld, st. rewrite bind_gets, pte_of_slot by done.
    destruct (testf (pte_of (ram s) pgdir a) PTE_P) eqn:E.
    + destruct (us_frame _ _ _ Hus a Ha E) as (Hfv & _).
      destruct (free_user_page s pgdir a l Hus Ha Ham E (Hun E)) as (s1 & Hk & Hsh).
      rewrite (proj2 (Z.eqb_neq (PTE_ADDR _) 0)).
      2:{ intros H. unfold frame in Hfv. rewrite H in Hfv. apply valid_page_pos in Hfv.
          unfold P2V in Hfv. rewrite u32_id in Hfv; ulia. }
      fold (frame (ram s) pgdir a). rewrite (bind_OK _ _ _ _ _ Hk), bind_modify.
      eexists a, _, _. split; [reflexivity|]. split; [lia|]. split; [ulia|]. split; [done|].
      right. split; [done|exact Hsh].
    + eexists a, s, l. split; [reflexivity|]. split; [lia|]. split; [ulia|]. split; [done|].
      left. split; [done|]. split; [done|]. intros va Hva. unfold mapped.
      rewrite (pte_of_page _ _ va a); [done|]. rewrite !u32_id by ulia. ulia.
Qed.

End facts.

(** * A sample address space: an empty page directory and three free pages *)

Lemma threaded_zero l x : (forall y, In y l -> x < y \/ y + 4 <= x) -> load8 (threaded l) x = 0.
Proof.
  induction l as [|y l IH]; intros H; [done|]. simpl.
  rewrite load8_store32_ne; [apply IH; intros; apply H; by right|].
  specialize (H y ltac:(by left)). lia.
Qed.

Lemma sample_pde i : 0 <= i < NPDENTRIES -> pde_at (threaded sample_free) (pg 0) i = 0.
Proof.
  intros Hi. unfold pde_at. rewrite (load32_ext _ (fun _ => 0)); [done|].
  intros x Hx. rewrite threaded_zero; [done|].
  intros y Hy. repeat (destruct Hy as [<-|Hy]; [unfold pg, NPDENTRIES in *; ulia|]). done.
Qed.

Lemma sample_empty va : pte_of (threaded sample_free) (pg 0) va = 0.
Proof. unfold pte_of, pte_slot. by rewrite sample_pde by (pose proof (PDX_range va); ulia). Qed.

Lemma sample_uspace :
  uspace (L := sample_link) (sample_pmem sample_free) (pg 0) sample_free.
Proof.
  assert (forall i, ~ pde_present (threaded sample_free) (pg 0) i) as Hno.
  { intros i [Hi Hp]. by rewrite sample_pde in Hp. }
  split; [split; [apply sample_free_list| |]| |].
  - split; [repeat split; vm_compute; congruence|by intros i Hi%Hno|by intros i j Hi%Hno].
  - intros v [->|(i & Hi%Hno & _)]; [|done]. intros H. repeat (destruct H as [H|H]; [discriminate|]). done.
  - intros va _. unfold mapped. simpl. by rewrite sample_empty.
  - intros va _. unfold mapped. simpl. by rewrite sample_empty.
Qed.
