(* ===== verification/VmUser.v ===== *)
(** Growing, shrinking and freeing the user part of an address space:
    allocuvm, deallocuvm, freevm. *)

From S2P Require Import Prelude Mmu Str Kalloc Vm VmFacts.

Section user.
Context `{L : Link}.

(** Unshared user pages of a range. *)
Definition unshared_in (m : memory) (pgdir lo hi : Z) : Prop :=
  forall va, uva va -> lo <= va < hi -> mapped m pgdir va = true -> unshared m pgdir va.

Lemma unshared_in_cleared m m' pgdir lo mid hi :
  cleared m m' pgdir lo mid -> lo <= mid -> unshared_in m pgdir lo hi -> unshared_in m' pgdir mid hi.
Proof.
  intros Hc Hlm Hun va Hu Hr Hm va' Hu' Hm' Hne.
  destruct (cleared_mapped _ _ _ _ _ _ Hc Hu Hm) as [_ Hp].
  destruct (cleared_mapped _ _ _ _ _ _ Hc Hu' Hm') as [_ Hp'].
  unfold mapped, frame in *. rewrite Hp in Hm |- *. rewrite Hp' in Hm' |- *.
  apply (Hun va); [done|lia|done..].
Qed.

Lemma deallocuvm_loop_run fuel s pgdir a oldsz hi l :
  uspace s pgdir l -> 0 <= a -> a mod 4096 = 0 -> a <= hi ->
  hi mod 4096 = 0 -> hi <= KERNBASE -> oldsz <= hi < oldsz + PGSIZE ->
  unshared_in (ram s) pgdir a hi ->
  hi - a <= PGSIZE * Z.of_nat fuel ->
  exists s' l', deallocuvm_loop pgdir a oldsz fuel s = OK tt s'
    /\ shrinks s s' pgdir l l' a hi.
Proof.
  revert s a l. induction fuel as [|fuel IH]; intros s a l Hus Ha Ham Hah Hhi HK Ho Hun Hf.
  - simpl. rewrite (proj2 (Z.ltb_ge _ _)) by ulia. exists s, l. split; [done|].
    apply shrinks_refl; [done| |done]. intros va ? ?. ulia.
  - simpl. destruct (Z.ltb_spec a oldsz) as [Hlt|Hge].
    2:{ exists s, l. split; [done|]. apply shrinks_refl; [done| |done]. intros va ? ?. ulia. }
    destruct (dealloc_step_run s pgdir a l) as (a' & s1 & l1 & Hr & Haa & HaK & Ham' & Hc);
      [done|unfold uva; ulia|done|apply Hun; [unfold uva; ulia|ulia]|].
    rewrite (bind_OK _ _ _ _ _ Hr), u32_id by ulia.
    destruct Hc as [(-> & -> & Hnone)|(-> & Hsh)].
    + destruct (decide (a' + PGSIZE <= hi)) as [Hle|Hgt].
      * destruct (IH s (a' + PGSIZE) l) as (s' & l' & Hr' & Hsh'); try done; try ulia.
        { intros va Hu Hrg. apply Hun; [done|ulia]. }
        exists s', l'. split; [done|].
        eapply shrinks_trans with (mid := a' + PGSIZE) (s2 := s); try done; try ulia.
        apply shrinks_refl; [done| |ulia]. intros va _ Hva. apply Hnone. lia.
      * exists s, l. split.
        { destruct fuel; simpl; by rewrite (proj2 (Z.ltb_ge _ _)) by ulia. }
        apply shrinks_refl; [done| |done]. intros va _ Hva. apply Hnone. lia.
    + destruct (IH s1 (a + PGSIZE) l1) as (s' & l' & Hr' & Hsh'); try done; try ulia.
      { apply Hsh. }
      { eapply unshared_in_cleared; [apply Hsh|ulia|done]. }
      exists s', l'. split; [done|].
      eapply shrinks_trans with (mid := a + PGSIZE); try done; try ulia.
Qed.

(** deallocuvm below the kernel, on unshared pages: exactly the pages from
    PGROUNDUP(newsz) up to oldsz are unmapped, exactly their frames go to
    the free list, and it returns the new size. *)
Lemma deallocuvm_run s pgdir oldsz newsz l :
  uspace s pgdir l -> 0 <= newsz < oldsz -> oldsz <= KERNBASE ->
  unshared_in (ram s) pgdir (PGROUNDUP newsz) (PGROUNDUP oldsz) ->
  exists s' l', deallocuvm pgdir oldsz newsz s = OK newsz s'
    /\ shrinks s s' pgdir l l' (PGROUNDUP newsz) (PGROUNDUP oldsz).
Proof.
  intros Hus Hn Ho Hun. unfold deallocuvm.
  rewrite (proj2 (Z.leb_gt _ _)) by lia.
  rewrite !PGROUNDUP_eq in * by ulia.
  destruct (deallocuvm_loop_run
    (S (Z.to_nat ((oldsz - (newsz + 4095) / 4096 * 4096) / PGSIZE)))
    s pgdir ((newsz + 4095) / 4096 * 4096) oldsz ((oldsz + 4095) / 4096 * 4096) l)
    as (s' & l' & Hr & Hsh); try done; try ulia.
  exists s', l'. by rewrite (bind_OK _ _ _ _ _ Hr).
Qed.

(** * Mapping fresh pages *)

(** A page that nobody uses: neither free, nor a table, nor a user page. *)
Record fresh (s : pmem) (pgdir : Z) (l : list Z) (x : Z) : Prop := {
  fr_valid : valid_page x;
  fr_table : ~ owns (ram s) pgdir x;
  fr_free : ~ In x l;
  fr_user : forall va, uva va -> mapped (ram s) pgdir va = true -> frame (ram s) pgdir va <> x;
}.

Lemma mappages_page pgdir a pa perm s :
  0 <= a < 2 ^ 32 -> a mod 4096 = 0 ->
  mappages pgdir a PGSIZE pa perm s =
  (r ← map1 pgdir a pa perm; if r =? -1 then mret (-1) else mret 0) s.
Proof.
  intros Ha Ham. unfold mappages. rewrite !PGROUNDDOWN_eq.
  assert (u32 a - u32 a mod 4096 = a) as -> by (rewrite u32_id by lia; lia).
  assert (u32 (a + PGSIZE - 1) - u32 (a + PGSIZE - 1) mod 4096 = a) as ->
    by (rewrite u32_id by ulia; ulia).
  replace (a - a) with 0 by lia. change (Z.to_nat (u32 0 / PGSIZE)) with O.
  rewrite mappages_loop_step. unfold mbind, M_bind. destruct (map1 _ _ _ _ _); [|done..].
  destruct (_ =? -1); [done|]. by rewrite Z.eqb_refl.
Qed.

Lemma uspace_same s s' pgdir l used l' :
  uspace s pgdir l -> grows s s' pgdir l used l' ->
  (forall va, pte_of (ram s') pgdir va = pte_of (ram s) pgdir va) ->
  uspace s' pgdir l'.
Proof.
  intros [Has Hfr Hsh] Hg Hp. destruct Hg as [Hl Has' Ho Hn _ _]. split; [done| |].
  - unfold mapped, frame. intros va Hu Hm. rewrite Hp in Hm |- *.
    destruct (Hfr va Hu Hm) as (? & ? & Hin). split; [done|]. split.
    + intros [?|?]%Hn; [done|]. apply Hin. rewrite Hl. apply in_app_iff. by left.
    + intros ?. apply Hin. rewrite Hl. apply in_app_iff. by right.
  - unfold unshared, mapped, frame. intros va Hu Hm HU va' Hu'. rewrite !Hp in *.
    by apply (Hsh va Hu Hm HU va' Hu').
Qed.

Lemma fresh_grows s s' pgdir l used l' x :
  fresh s pgdir l x -> grows s s' pgdir l used l' ->
  (forall va, pte_of (ram s') pgdir va = pte_of (ram s) pgdir va) ->
  fresh s' pgdir l' x.
Proof.
  intros [H1 H2 H3 H4] [Hl Has' Ho Hn _ _] Hp. split; [done| | |].
  - intros [?|?]%Hn; [done|]. apply H3. rewrite Hl. apply in_app_iff. by left.
  - intros ?. apply H3. rewrite Hl. apply in_app_iff. by right.
  - intros va Hu. unfold mapped, frame. rewrite Hp. by apply H4.
Qed.

(** Mapping a fresh page at an unmapped user address. *)
Lemma uspace_map s s' pgdir l used l' a x perm :
  uspace s pgdir l -> fresh s pgdir l x -> 0 <= perm < 4096 ->
  uva a -> mapped (ram s) pgdir a = false ->
  grows s s' pgdir l used l' ->
  (forall va, u32 va / 4096 = a / 4096 -> pte_of (ram s') pgdir va = mkpte (V2P x) perm) ->
  (forall va, u32 va / 4096 <> a / 4096 -> pte_of (ram s') pgdir va = pte_of (ram s) pgdir va) ->
  uspace s' pgdir l' /\ (forall va, uva va -> va / 4096 = a / 4096 -> frame (ram s') pgdir va = x).
Proof.
  intros Hus [Hx Hxo Hxl Hxu] Hperm Ha Hun Hg He Hne.
  assert (forall va, uva va -> va / 4096 = a / 4096 -> frame (ram s') pgdir va = x) as Hfx.
  { unfold uva. intros va Hu Hva. unfold frame. rewrite He by (by rewrite u32_id by ulia).
    destruct (V2P_page_pte x Hx). rewrite mkpte_addr by ulia. by apply P2V_V2P. }
  assert (forall va, uva va -> mapped (ram s') pgdir va = true -> va / 4096 <> a / 4096 ->
    mapped (ram s) pgdir va = true /\ frame (ram s') pgdir va = frame (ram s) pgdir va
    /\ pte_of (ram s') pgdir va = pte_of (ram s) pgdir va) as Hold.
  { unfold uva, mapped, frame. intros va Hu Hm Hva.
    rewrite Hne in Hm |- * by (by rewrite u32_id by ulia). done. }
  destruct Hus as [Has Hfr Hsh]. destruct Hg as [Hl Has' Ho Hn _ _].
  split; [|done]. split; [done| |].
  - intros va Hu Hm. destruct (decide (va / 4096 = a / 4096)) as [Hva|Hva].
    + rewrite (Hfx va Hu Hva). split; [done|]. subst l. rewrite in_app_iff in Hxl. split.
      * intros [?|?]%Hn; tauto.
      * tauto.
    + destruct (Hold va Hu Hm Hva) as (Hm' & -> & _). destruct (Hfr va Hu Hm') as (? & ? & Hin).
      split; [done|]. subst l. rewrite in_app_iff in Hin. split; [intros [?|?]%Hn; tauto|tauto].
  - intros va Hu Hm HU va' Hu' Hm' Hne'.
    destruct (decide (va / 4096 = a / 4096)) as [Hva|Hva],
             (decide (va' / 4096 = a / 4096)) as [Hva'|Hva']; [congruence|..].
    + rewrite (Hfx va Hu Hva). destruct (Hold va' Hu' Hm' Hva') as (Hm2 & -> & _).
      by apply Hxu.
    + rewrite (Hfx va' Hu' Hva'). destruct (Hold va Hu Hm Hva) as (Hm2 & -> & _).
      apply not_eq_sym. by apply Hxu.
    + destruct (Hold va Hu Hm Hva) as (Hm1 & -> & Hp1).
      destruct (Hold va' Hu' Hm' Hva') as (Hm2 & -> & _).
      rewrite Hp1 in HU. by apply (Hsh va Hu Hm1 HU).
Qed.

(** Writing inside a page that is not of the page table and not free. *)
Lemma uspace_poke s pgdir l x m :
  uspace s pgdir l -> valid_page x -> ~ owns (ram s) pgdir x -> ~ In x l -> same_outside x (ram s) m ->
  uspace (set_ram (fun _ => m) s) pgdir l /\ pt_frame (ram s) m pgdir.
Proof.
  intros [Has Hfr Hsh] Hx Hxo Hxl Hso.
  assert (pt_frame (ram s) m pgdir) as Hpf.
  { intros v Hv. eapply same_outside_page_eq; [done|done| |].
    - eapply owns_valid; [apply Has|done].
    - intros ->. done. }
  destruct Has as [Hf Hw Hd]. split; [|done]. split; simpl.
  - split; simpl; [by eapply free_list_frame|by eapply wf_frame|].
    intros v. rewrite (owns_frame _ _ _ _ Hpf). apply Hd.
  - intros va Hu. unfold mapped, frame. rewrite (pte_frame _ _ _ _ Hpf), (owns_frame _ _ _ _ Hpf).
    by apply Hfr.
  - intros va Hu. unfold unshared, mapped, frame. rewrite !(pte_frame _ _ _ va Hpf).
    intros Hm HU va'. rewrite !(pte_frame _ _ _ va' Hpf). by apply (Hsh va).
Qed.

(** Writing inside a fresh page. *)
Lemma uspace_write s pgdir l x m :
  uspace s pgdir l -> fresh s pgdir l x -> same_outside x (ram s) m ->
  let s' := set_ram (fun _ => m) s in
  uspace s' pgdir l /\ fresh s' pgdir l x /\ pt_frame (ram s) m pgdir.
Proof.
  intros Hus [Hx Hxo Hxl Hxu] Hso s'. destruct (uspace_poke s pgdir l x m Hus Hx Hxo Hxl Hso) as [Hus' Hpf].
  split_and!; [done| |done]. split; simpl; [done| |done|].
  - by rewrite (owns_frame _ _ _ _ Hpf).
  - intros va Hu. unfold mapped, frame. rewrite (pte_frame _ _ _ _ Hpf). by apply Hxu.
Qed.

(** A page taken from the allocator is fresh. *)
Lemma kalloc_user s pgdir l :
  uspace s pgdir l ->
  (l = [] /\ exists s', kalloc s = OK 0 s' /\ ram s' = ram s /\ uspace s' pgdir [])
  \/ (exists x l1 s', l = x :: l1 /\ kalloc s = OK x s' /\ ram s' = ram s
       /\ uspace s' pgdir l1 /\ fresh s' pgdir l1 x).
Proof.
  intros Hus. destruct (kalloc_fresh s pgdir l (us_as _ _ _ Hus)) as
    [(-> & s' & Hk & Hr & Has)|(x & l1 & s' & -> & Hk & Hr & Hx & Ho & Hin & Hg)]; [left|right].
  - split; [done|]. exists s'. split; [done|]. split; [done|].
    destruct Hus as [_ Hfr Hsh]. split; rewrite ?Hr; done.
  - exists x, l1, s'. split; [done|]. split; [done|]. split; [done|].
    split.
    { destruct Hus as [_ Hfr Hsh]. split; rewrite ?Hr; [done| |done].
      intros va Hu Hm. destruct (Hfr va Hu Hm) as (? & ? & Hin'). split; [done|].
      split; [done|]. intros ?. apply Hin'. by right. }
    split; rewrite ?Hr; try done. intros va Hu Hm Heq.
    destruct (us_frame _ _ _ Hus va Hu Hm) as (_ & _ & Hf). apply Hf. rewrite Heq. by left.
Qed.

(** Returning a fresh page. *)
Lemma uspace_kfree s pgdir l x :
  uspace s pgdir l -> fresh s pgdir l x ->
  exists s', kfree x s = OK tt s' /\ uspace s' pgdir (x :: l)
    /\ pt_frame (ram s) (ram s') pgdir /\ same_outside x (ram s) (ram s').
Proof.
  intros [A Hfr Hsh] [X1 X2 X3 X4].
  destruct (as_kfree s pgdir l x A X1 X2 X3) as (s' & Hk & Has & Hpf & Hso).
  exists s'. split; [done|]. split; [|done]. split; [done| |].
  - intros va Hu. unfold mapped, frame. rewrite (pte_frame _ _ _ _ Hpf), (owns_frame _ _ _ _ Hpf).
    intros Hm. destruct (Hfr va Hu Hm) as (? & ? & ?). split; [done|]. split; [done|].
    intros [Heq|?]; [|done]. by apply (X4 va Hu Hm).
  - intros va Hu. unfold unshared, mapped, frame. rewrite !(pte_frame _ _ _ va Hpf).
    intros Hm HU va'. rewrite !(pte_frame _ _ _ va' Hpf). by apply (Hsh va).
Qed.

(** * allocuvm *)

Definition page_zero (m : memory) (v : Z) : Prop :=
  forall x, v <= x < v + PGSIZE -> load8 m x = 0.

(** State reached from [s0] after mapping the pages of [lo, a): each is a
    zeroed page that was free, readable and writable by the user; other
    entries and pages are as before; no page is lost, except those the
    caller has in hand ([held]). *)
Record allocs (s0 s : pmem) (pgdir : Z) (l0 l : list Z) (lo a : Z) (held : list Z) : Prop := {
  al_us : uspace s pgdir l;
  al_in : forall va, lo <= va < a ->
    let f := frame (ram s) pgdir va in
    pte_of (ram s) pgdir va = mkpte (V2P f) (Z.lor PTE_W PTE_U)
    /\ In f l0 /\ page_zero (ram s) f;
  al_out : forall va, 0 <= va < 2 ^ 32 -> ~ (lo <= va < a) ->
    pte_of (ram s) pgdir va = pte_of (ram s0) pgdir va;
  al_new : forall w, owns (ram s) pgdir w -> owns (ram s0) pgdir w \/ In w l0;
  al_sub : forall w, In w l -> In w l0;
  al_mem : forall w, valid_page w -> ~ owns (ram s0) pgdir w -> ~ In w l0 ->
    page_eq w (ram s0) (ram s);
  al_keep : forall w, In w l0 \/ owns (ram s0) pgdir w ->
    In w l \/ owns (ram s) pgdir w \/ frames_in (ram s) pgdir lo a w \/ In w held;
}.

Lemma allocs_init s pgdir l lo : uspace s pgdir l -> allocs s s pgdir l l lo lo [].
Proof. intros H. split; try done; try lia; auto. tauto. Qed.

(** Taking a page and clearing it. *)
Lemma allocs_take s0 s pgdir l0 l lo a x l1 s1 :
  allocs s0 s pgdir l0 l lo a [] -> 0 <= lo -> a <= KERNBASE -> l = x :: l1 -> ram s1 = ram s ->
  uspace s1 pgdir l1 -> fresh s1 pgdir l1 x ->
  let s2 := set_ram (fun m => fill m x 0 PGSIZE) s1 in
  allocs s0 s2 pgdir l0 l1 lo a [x] /\ fresh s2 pgdir l1 x /\ page_zero (ram s2) x.
Proof.
  intros Hal Hlo Ha -> Hr Hu1 Hf1 s2.
  assert (same_outside x (ram s1) (fill (ram s1) x 0 PGSIZE)) as Hso.
  { intros y Hy. apply load8_fill_ne. lia. }
  destruct (uspace_write _ _ _ _ _ Hu1 Hf1 Hso) as (Hu2 & Hf2 & Hpf).
  change (set_ram (fun _ => fill (ram s1) x 0 PGSIZE) s1) with s2 in Hu2, Hf2.
  split; [|split; [done|intros y Hy; unfold s2; simpl; by rewrite load8_fill_eq by lia]].
  destruct Hal as [A B C D E F G]. rewrite Hr in Hpf.
  assert (forall v, valid_page v -> v <> x -> page_eq v (ram s) (ram s2)) as Hpe.
  { intros v Hv Hne. rewrite <- Hr. eapply same_outside_page_eq; [exact Hso|apply Hf1|done|done]. }
  split; [done| | | | | |].
  - intros va Hva. unfold frame, s2. simpl. rewrite Hr, (pte_frame _ _ _ _ Hpf).
    destruct (B va Hva) as (B1 & B2 & B3). split; [done|]. split; [done|].
    assert (mapped (ram s) pgdir va = true) as Hm by (unfold mapped; rewrite B1; apply mkpte_P).
    destruct (us_frame _ _ _ A va ltac:(unfold uva; lia) Hm) as (Hfv & _ & Hfl).
    intros y Hy. rewrite <- Hr. change (load8 (ram s2) y = 0).
    rewrite (Hpe (frame (ram s) pgdir va)); [by apply B3|done| |done].
    intros Heq. apply Hfl. rewrite Heq. by left.
  - intros va Hva Hva'. unfold s2. simpl. rewrite Hr, (pte_frame _ _ _ _ Hpf). by apply C.
  - intros w. unfold s2. simpl. rewrite Hr, (owns_frame _ _ _ _ Hpf). apply D.
  - intros w Hw. apply E. by right.
  - intros w Hv Ho Hl. eapply page_eq_trans; [by apply F|]. apply Hpe; [done|].
    intros ->. apply Hl, E. by left.
  - intros w Hw. unfold s2. simpl. rewrite Hr, (owns_frame _ _ _ _ Hpf).
    unfold frames_in, mapped, frame.
    destruct (G w Hw) as [[<-|?]|[?|[(va & Hv)|[]]]]; [tauto|tauto|tauto|].
    do 2 right. left. exists va. by rewrite !(pte_frame _ _ _ _ Hpf).
Qed.

(** Adding page tables, and mapping the pages of [a, a'). *)
Lemma allocs_extend s0 s s' pgdir l0 l used l' lo a a' held held' :
  allocs s0 s pgdir l0 l lo a held -> 0 <= lo -> lo <= a -> a <= a' -> a' <= KERNBASE ->
  grows s s' pgdir l used l' -> uspace s' pgdir l' ->
  (forall va, 0 <= va < 2 ^ 32 -> ~ (a <= va < a') ->
     pte_of (ram s') pgdir va = pte_of (ram s) pgdir va) ->
  (forall va, a <= va < a' ->
     let f := frame (ram s') pgdir va in
     pte_of (ram s') pgdir va = mkpte (V2P f) (Z.lor PTE_W PTE_U)
     /\ In f l0 /\ page_zero (ram s') f) ->
  (forall w, In w held -> In w held' \/ frames_in (ram s') pgdir a a' w) ->
  allocs s0 s' pgdir l0 l' lo a' held'.
Proof.
  intros [A B C D E F G] Hlo Hla Haa HaK [H1 H2 H3 H4 H5 H6] Hu Hp Hin Hheld.
  assert (forall w, In w used -> In w l) as Hul by (intros; rewrite H1, in_app_iff; by left).
  assert (forall w, In w l' -> In w l) as Hll by (intros; rewrite H1, in_app_iff; by right).
  assert (forall lo1 hi1 w, lo <= lo1 -> hi1 <= a' -> frames_in (ram s') pgdir lo1 hi1 w ->
            frames_in (ram s') pgdir lo a' w) as Hfw.
  { intros lo1 hi1 w ? ? (va & ? & ? & ?). exists va. split; [done|]. split; [lia|done]. }
  split; [done| | | | | |].
  - intros va Hva. destruct (decide (a <= va)) as [Hle|Hlt]; [apply Hin; lia|].
    unfold frame. rewrite Hp by ulia. destruct (B va ltac:(lia)) as (B1 & B2 & B3).
    split; [done|]. split; [done|].
    assert (mapped (ram s) pgdir va = true) as Hm by (unfold mapped; rewrite B1; apply mkpte_P).
    destruct (us_frame _ _ _ A va ltac:(unfold uva; lia) Hm) as (? & ? & ?).
    intros y Hy. rewrite (H6 (frame (ram s) pgdir va)); [by apply B3|done..].
  - intros va Hva Hr. rewrite Hp by lia. apply C; [done|lia].
  - intros w [?|?]%H4; [by apply D|right; auto].
  - auto.
  - intros w Hv Ho Hl. eapply page_eq_trans; [by apply F|].
    apply H6; [done| |]; [intros [?|?]%D; done | intros ?%E; done].
  - intros w Hw. destruct (G w Hw) as [Hin'|[?|[(va & Hv & Hr & Hm & ->)|Hh]]].
    + rewrite H1 in Hin'. apply in_app_iff in Hin' as [?|?]; [right; left; auto|by left].
    + right. left. auto.
    + do 2 right. left. apply (Hfw lo a); [lia|lia|]. exists va. unfold mapped, frame.
      rewrite Hp by (unfold uva in Hv; ulia). done.
    + do 2 right. destruct (Hheld w Hh); [by right|left]. apply (Hfw a a'); [lia|lia|done].
Qed.

(** Mapping the page in hand at [a]. *)
Lemma allocs_map s0 s pgdir l0 l lo a x :
  allocs s0 s pgdir l0 l lo a [x] -> fresh s pgdir l x -> page_zero (ram s) x -> In x l0 ->
  0 <= lo -> lo <= a -> a mod 4096 = 0 -> a + PGSIZE <= KERNBASE ->
  mapped (ram s) pgdir a = false ->
  exists r s' l', mappages pgdir a PGSIZE (V2P x) (Z.lor PTE_W PTE_U) s = OK r s'
    /\ (r = 0 /\ allocs s0 s' pgdir l0 l' lo (a + PGSIZE) []
        \/ r = -1 /\ allocs s0 s' pgdir l0 l' lo a [x] /\ fresh s' pgdir l' x).
Proof.
  intros Hal Hf Hz Hx0 Hlo Hla Ham HaK Hun. pose proof (al_us _ _ _ _ _ _ _ _ Hal) as Hus.
  destruct (V2P_page_pte x (fr_valid _ _ _ _ Hf)) as [Hp1 Hp2].
  rewrite mappages_page by ulia.
  destruct (map1_run s pgdir a (V2P x) (Z.lor PTE_W PTE_U) l) as
    (r & s' & used & l' & Hr & Hg & Hc); [apply Hus|ulia|done|done|done|].
  rewrite (bind_OK _ _ _ _ _ Hr). rewrite (u32_id a) in Hc by ulia.
  destruct Hc as [(-> & -> & Hp)|(-> & He & Hne)].
  - exists (-1), s', l'. split; [done|]. right. split; [done|]. split; [|by eapply fresh_grows].
    eapply (allocs_extend s0 s s' pgdir l0 [] used l' lo a a [x] [x]); try done; try ulia.
    + by eapply uspace_same.
    + auto.
  - destruct (uspace_map s s' pgdir l used l' a x (Z.lor PTE_W PTE_U)) as [Hu' Hfx]; try done.
    { unfold uva. ulia. }
    exists 0, s', l'. split; [done|]. left. split; [done|].
    assert (forall va, a <= va < a + PGSIZE -> uva va /\ va / 4096 = a / 4096) as Hpg.
    { unfold uva. intros. ulia. }
    eapply (allocs_extend s0 s s' pgdir l0 l used l' lo a (a + PGSIZE) [x] []); try done; try ulia.
    + intros va Hva Hr'. apply Hne. rewrite u32_id by done. ulia.
    + intros va Hva. destruct (Hpg va Hva) as [Hu Hq]. cbv zeta. rewrite (Hfx va Hu Hq).
      split; [|split; [done|]].
      * apply He. by rewrite u32_id by ulia.
      * intros y Hy. rewrite (gr_out _ _ _ _ _ _ Hg x); [by apply Hz|apply Hf..|done].
    + intros w [<-|[]]. right. exists a. destruct (Hpg a ltac:(ulia)) as [Hu Hq].
      split; [done|]. split; [ulia|]. split; [|by rewrite (Hfx a Hu)].
      unfold mapped. rewrite He by (by rewrite u32_id by ulia). apply mkpte_P.
Qed.

Section growing.
Context (pgdir oldsz newsz : Z).
Context (Hsz : 0 <= oldsz <= newsz) (HK : newsz < KERNBASE).
Context (s0 : pmem) (l0 : list Z).

Let lo : Z := PGROUNDUP oldsz.
Let hi : Z := PGROUNDUP newsz.

Context (Hempty : forall va, lo <= va < hi -> pte_of (ram s0) pgdir va = 0).

Lemma range_eq :
  lo = (oldsz + 4095) / 4096 * 4096 /\ hi = (newsz + 4095) / 4096 * 4096.
Proof. unfold lo, hi. rewrite !PGROUNDUP_eq by ulia. done. Qed.

Lemma allocs_unmapped s l a held va :
  allocs s0 s pgdir l0 l lo a held -> lo <= a -> a <= va < hi -> mapped (ram s) pgdir va = false.
Proof.
  intros Hal Hlo Hva. destruct range_eq as [Hl Hh]. unfold mapped.
  rewrite (al_out _ _ _ _ _ _ _ _ Hal) by ulia. by rewrite Hempty by lia.
Qed.

(** The failure path: deallocuvm takes back every page mapped so far. *)
Lemma allocs_undo s l a held :
  allocs s0 s pgdir l0 l lo a held -> lo <= a -> a <= hi -> lo < hi ->
  exists s' l', deallocuvm pgdir newsz oldsz s = OK oldsz s'
    /\ allocs s0 s' pgdir l0 l' lo lo held
    /\ (forall x, fresh s pgdir l x -> fresh s' pgdir l' x).
Proof.
  intros Hal Hla Hah Hlh. destruct range_eq as [Hl Hh].
  pose proof Hal as [A B C D E F G].
  assert (forall va, uva va -> lo <= va < hi -> mapped (ram s) pgdir va = true -> lo <= va < a) as Hin.
  { intros va Hu Hr Hm. destruct (decide (va < a)); [lia|].
    by rewrite (allocs_unmapped s l a held) in Hm by (done || lia). }
  destruct (deallocuvm_run s pgdir newsz oldsz l) as (s' & l' & Hr & [H1 H2 H3 H4 H5]);
    [done|ulia|ulia| |].
  { intros va Hu Hrg Hm. apply (us_share _ _ _ A); [done|done|].
    destruct (B va (Hin va Hu Hrg Hm)) as (-> & _).
    destruct (us_frame _ _ _ A va Hu Hm) as (Hfv & _).
    rewrite mkpte_testf; [done|by apply V2P_page_pte|done]. }
  fold lo hi in H2, H3. exists s', l'. split; [done|]. split.
  - split; [done|intros; lia| | | | |].
    + intros va Hva _. destruct H2 as [P Q]. destruct (decide (lo <= va < hi)) as [Hrg|Hrg].
      * rewrite P by done. rewrite (Hempty va) by done. case_match eqn:Em; [done|].
        assert (~ (lo <= va < a)).
        { intros Hx. destruct (B va Hx) as (Hb & _). unfold mapped in Em.
          by rewrite Hb, mkpte_P in Em. }
        rewrite C by done. by apply Hempty.
      * rewrite Q, C by lia. done.
    + intros w. rewrite H4. apply D.
    + intros w Hw. apply H3 in Hw as [?|(va & Hu & Hrg & Hm & ->)]; [by apply E|].
      by destruct (B va (Hin va Hu Hrg Hm)) as (_ & ? & _).
    + intros w Hv Ho Hn. eapply page_eq_trans; [by apply F|]. apply H5; [done| |].
      * intros [?|?]%D; done.
      * intros Hw. apply H3 in Hw as [?%E|(va & Hu & Hrg & Hm & ->)]; [done|].
        by destruct (B va (Hin va Hu Hrg Hm)) as (_ & ? & _).
    + intros w Hw. rewrite H4, H3.
      destruct (G w Hw) as [?|[?|[(va & Hu & Hrg & ?)|?]]]; [tauto|tauto| |tauto].
      left. right. exists va. split; [done|]. split; [lia|done].
  - intros x [X1 X2 X3 X4]. split; [done|by rewrite H4| |].
    + intros Hw. apply H3 in Hw as [?|(va & Hu & Hrg & Hm & Heq)]; [done|].
      by apply (X4 va Hu Hm).
    + intros va Hu Hm. destruct (cleared_mapped _ _ _ _ _ _ H2 Hu Hm) as [_ Hp].
      unfold mapped, frame in *. rewrite Hp in Hm |- *. by apply X4.
Qed.

(** A failed call, after the page in hand was returned too. *)
Lemma allocs_return s l x :
  allocs s0 s pgdir l0 l lo lo [x] -> fresh s pgdir l x -> In x l0 ->
  exists s', kfree x s = OK tt s' /\ allocs s0 s' pgdir l0 (x :: l) lo lo [].
Proof.
  intros [A B C D E F G] Hf Hx.
  destruct (uspace_kfree s pgdir l x A Hf) as (s' & Hk & Hu & Hpf & Hso).
  exists s'. split; [done|].
  split; [done|intros; lia| | | | |].
  - intros va Hva Hr. rewrite (pte_frame _ _ _ _ Hpf). by apply C.
  - intros w. rewrite (owns_frame _ _ _ _ Hpf). apply D.
  - intros w [<-|?]; auto.
  - intros w Hv Ho Hn. eapply page_eq_trans; [by apply F|].
    eapply same_outside_page_eq; [done|apply Hf|done|]. intros ->. done.
  - intros w Hw. rewrite (owns_frame _ _ _ _ Hpf). simpl.
    destruct (G w Hw) as [?|[?|[(va & _ & ? & _)|[<-|[]]]]]; [tauto|tauto|lia|tauto].
Qed.

Lemma allocuvm_loop_run fuel s l a :
  allocs s0 s pgdir l0 l lo a [] -> lo <= a -> a <= hi -> a mod 4096 = 0 ->
  hi - a <= PGSIZE * Z.of_nat fuel ->
  exists r s' l', allocuvm_loop pgdir a oldsz newsz fuel s = OK r s'
    /\ (r = newsz /\ allocs s0 s' pgdir l0 l' lo hi []
        \/ r = 0 /\ allocs s0 s' pgdir l0 l' lo lo []).
Proof.
  revert s l a. destruct range_eq as [Hl Hh].
  induction fuel as [|fuel IH]; intros s l a Hal Hla Hah Ham Hf; simpl;
    (destruct (Z.ltb_spec a newsz) as [Hlt|Hge];
     [|assert (a = hi) as -> by ulia; exists newsz, s, l; split; [done|by left]]); [ulia|].
  destruct (kalloc_user s pgdir l (al_us _ _ _ _ _ _ _ _ Hal)) as
    [(-> & s1 & Hk & Hr & Hu1)|(x & l1 & s1 & -> & Hk & Hr & Hu1 & Hf1)];
    rewrite (bind_OK _ _ _ _ _ Hk).
  - assert (allocs s0 s1 pgdir l0 [] lo a []) as Hal1
      by (destruct Hal; split; rewrite ?Hr; done).
    destruct (allocs_undo _ _ _ _ Hal1 Hla Hah ltac:(ulia)) as (s2 & l2 & Hd & Hal2 & _).
    simpl. rewrite (bind_OK _ _ _ _ _ Hd). exists 0, s2, l2. split; [done|by right].
  - rewrite (proj2 (Z.eqb_neq x 0)) by (apply valid_page_nonzero, Hf1).
    unfold memset_. rewrite bind_modify.
    destruct (allocs_take _ _ _ _ _ _ _ _ _ s1 Hal ltac:(ulia) ltac:(ulia) eq_refl Hr Hu1 Hf1)
      as (Hal2 & Hf2 & Hz2).
    assert (In x l0) as Hx0 by (apply (al_sub _ _ _ _ _ _ _ _ Hal); by left).
    destruct (allocs_map _ _ _ _ _ _ _ _ Hal2 Hf2 Hz2 Hx0) as (r & s3 & l3 & Hm & Hc);
      [ulia|done|done|ulia|eapply allocs_unmapped; [done|done|ulia]|].
    rewrite (bind_OK _ _ _ _ _ Hm). destruct Hc as [(-> & Hal3)|(-> & Hal3 & Hf3)]; simpl.
    + rewrite u32_id by ulia. apply (IH s3 l3); [done|ulia..].
    + destruct (allocs_undo _ _ _ _ Hal3 Hla Hah ltac:(ulia)) as (s4 & l4 & Hd & Hal4 & Hf4).
      rewrite (bind_OK _ _ _ _ _ Hd).
      destruct (allocs_return s4 l4 x Hal4 (Hf4 x Hf3) Hx0) as (s5 & Hk5 & Hal5).
      rewrite (bind_OK _ _ _ _ _ Hk5). exists 0, s5, (x :: l4). split; [done|by right].
Qed.

End growing.

Lemma allocuvm_run s pgdir oldsz newsz l :
  uspace s pgdir l -> 0 <= oldsz <= newsz -> newsz < KERNBASE ->
  (forall va, PGROUNDUP oldsz <= va < PGROUNDUP newsz -> pte_of (ram s) pgdir va = 0) ->
  exists r s' l', allocuvm pgdir oldsz newsz s = OK r s'
    /\ (r = newsz /\ allocs s s' pgdir l l' (PGROUNDUP oldsz) (PGROUNDUP newsz) []
        \/ r = 0 /\ allocs s s' pgdir l l' (PGROUNDUP oldsz) (PGROUNDUP oldsz) []).
Proof.
  intros Hus Hsz HK Hempty. unfold allocuvm.
  rewrite (proj2 (Z.leb_gt _ _)), (proj2 (Z.ltb_ge _ _)) by lia.
  destruct (range_eq oldsz newsz Hsz HK) as [Hl Hh].
  eapply allocuvm_loop_run; try done; try ulia. by apply allocs_init.
Qed.

(** C30: allocuvm returns, on success, the new size with every page of the
    grown range mapped to a zeroed page that was free, user-readable and
    writable; on failure it returns 0 and every entry is as before.  In both
    cases no other entry and no other page changes, no two mappings share a
    frame, and no page is lost. *)
Theorem allocuvm_spec s pgdir oldsz newsz l :
  uspace s pgdir l -> 0 <= oldsz <= newsz -> newsz < KERNBASE ->
  (forall va, PGROUNDUP oldsz <= va < PGROUNDUP newsz -> pte_of (ram s) pgdir va = 0) ->
  exists r s' l', allocuvm pgdir oldsz newsz s = OK r s'
    /\ (r = newsz /\ allocs s s' pgdir l l' (PGROUNDUP oldsz) (PGROUNDUP newsz) []
        \/ r = 0 /\ allocs s s' pgdir l l' (PGROUNDUP oldsz) (PGROUNDUP oldsz) []).
Proof. apply allocuvm_run. Qed.

(** shrinking back after growing (sbrk(n), then sbrk(-n)) restores every
    entry; each page that was free is free again, or is now a page table of
    the address space. *)
Theorem allocuvm_deallocuvm s pgdir oldsz newsz l s1 :
  uspace s pgdir l -> 0 <= oldsz < newsz -> newsz < KERNBASE ->
  (forall va, PGROUNDUP oldsz <= va < PGROUNDUP newsz -> pte_of (ram s) pgdir va = 0) ->
  allocuvm pgdir oldsz newsz s = OK newsz s1 ->
  exists s2 l2, deallocuvm pgdir newsz oldsz s1 = OK oldsz s2
    /\ uspace s2 pgdir l2
    /\ (forall va, 0 <= va < 2 ^ 32 -> pte_of (ram s2) pgdir va = pte_of (ram s) pgdir va)
    /\ (forall w, In w l2 -> In w l)
    /\ (forall w, In w l -> In w l2 \/ owns (ram s2) pgdir w).
Proof.
  intros Hus Hsz HK Hempty Ha.
  destruct (allocuvm_run s pgdir oldsz newsz l Hus ltac:(lia) HK Hempty)
    as (r & s' & l1 & Hr & Hc). rewrite Ha in Hr. injection Hr as <- <-.
  destruct Hc as [[_ Hal]|[? _]]; [|lia].
  destruct (range_eq oldsz newsz ltac:(lia) HK) as [Hl Hh].
  destruct (decide (PGROUNDUP oldsz < PGROUNDUP newsz)) as [Hlt|Hge].
  - destruct (allocs_undo pgdir oldsz newsz ltac:(lia) HK s l Hempty _ _ _ _ Hal)
      as (s2 & l2 & Hd & [A B C D E F G] & _); [ulia..|].
    exists s2, l2. split; [done|]. split; [done|]. split; [intros; apply C; [done|lia]|].
    split; [done|]. intros w Hw. destruct (G w) as [?|[?|[(va & _ & ? & _)|[]]]]; auto. lia.
  - destruct (deallocuvm_run s1 pgdir newsz oldsz l1) as (s2 & l2 & Hd & Hsh);
      [apply Hal|lia|lia|intros va ? ?; lia|].
    exists s2, l2. split; [done|]. destruct Hsh as [H1 H2 H3 H4 H5], Hal as [A B C D E F G].
    split; [done|]. split; [|split].
    + intros va Hva. rewrite (proj2 H2) by lia. apply C; [done|lia].
    + intros w [?|(va & _ & ? & _)]%H3; [auto|lia].
    + intros w Hw. rewrite H3, H4. destruct (G w) as [?|[?|[(va & _ & ? & _)|[]]]]; auto. lia.
Qed.

End user.

(** * A sample address space *)

Definition sample_grown : pmem :=
  final (allocuvm (L := sample_link) (pg 0) 0 PGSIZE (sample_pmem sample_free)).

Lemma allocuvm_spec_witness :
  exists r s' l', allocuvm (L := sample_link) (pg 0) 0 PGSIZE (sample_pmem sample_free) = OK r s'
    /\ (r = PGSIZE /\ allocs (L := sample_link) (sample_pmem sample_free) s' (pg 0)
                        sample_free l' (PGROUNDUP 0) (PGROUNDUP PGSIZE) []
        \/ r = 0 /\ allocs (L := sample_link) (sample_pmem sample_free) s' (pg 0)
                        sample_free l' (PGROUNDUP 0) (PGROUNDUP 0) []).
Proof.
  apply (allocuvm_spec (L := sample_link)); [apply sample_uspace|ulia|ulia|].
  intros. apply sample_empty.
Defined.

Lemma allocuvm_deallocuvm_witness :
  exists s2 l2, deallocuvm (L := sample_link) (pg 0) PGSIZE 0 sample_grown = OK 0 s2
    /\ uspace (L := sample_link) s2 (pg 0) l2.
Proof.
  destruct (allocuvm_deallocuvm (L := sample_link) (sample_pmem sample_free) (pg 0) 0 PGSIZE
    sample_free sample_grown) as (s2 & l2 & Hd & Hu & _).
  - apply sample_uspace.
  - ulia.
  - ulia.
  - intros. apply sample_empty.
  - apply (returns_final (allocuvm (L := sample_link) (pg 0) 0 PGSIZE (sample_pmem sample_free))).
    vm_compute. reflexivity.
  - exists s2, l2. exact (conj Hd Hu).
Defined.
