(* ===== verification/VmThread.v ===== *)
(** Thread stacks: cloneuvm takes the highest free pair of pages below the
    kernel, a stack page and a guard entry shared with the process;
    freecloneuvm gives the pair back. *)

From S2P Require Import Prelude Mmu Str Kalloc Vm VmFacts VmUser.

(** The user pages counted from the top: page 0 is the one below KERNBASE. *)
Definition slot (k : Z) : Z := KERNBASE - PGSIZE * (k + 1).

Section thread.
Context `{L : Link}.

(** Pages below the kernel come in pairs: a stack (even) and its guard. *)
Definition paired (m : memory) (pgdir size : Z) : Prop :=
  forall k, 0 <= k -> size <= slot (2 * k + 1) ->
    mapped m pgdir (slot (2 * k)) = mapped m pgdir (slot (2 * k + 1)).

(** An address space with thread stacks above [size]. *)
Record tspace (s : pmem) (pgdir size : Z) (l : list Z) : Prop := {
  ts_us : uspace s pgdir l;
  ts_pair : paired (ram s) pgdir size;
  ts_zero : forall va, uva va -> size <= va -> mapped (ram s) pgdir va = false ->
    pte_of (ram s) pgdir va = 0;
  ts_user : forall k, 0 <= k -> size <= slot (2 * k) -> mapped (ram s) pgdir (slot (2 * k)) = true ->
    testf (pte_of (ram s) pgdir (slot (2 * k))) PTE_U = true;
}.

(** * Lookup *)

Lemma unmapped_slot m pgdir va :
  pte_slot m pgdir va = 0 -> mapped m pgdir va = false.
Proof. intros H. unfold mapped. by rewrite pte_unmapped_none. Qed.

Lemma unmapped_zero m pgdir va : pte_of m pgdir va = 0 -> mapped m pgdir va = false.
Proof. unfold mapped. by intros ->. Qed.

Lemma mapped_slot m pgdir va : mapped m pgdir va = true -> pte_slot m pgdir va <> 0.
Proof. intros H H0. by rewrite unmapped_slot in H. Qed.

Lemma walk_present pgdir va alloc s :
  pte_slot (ram s) pgdir va <> 0 ->
  walkpgdir pgdir va alloc s = OK (pte_slot (ram s) pgdir va) s.
Proof.
  unfold pte_slot. intros H. unfold walkpgdir, ld. rewrite bind_gets.
  fold (pde_at (ram s) pgdir (PDX va)). by destruct (testf _ _).
Qed.

(** The page table of an address also serves the others of its 4 MB. *)
Lemma slot_near m pgdir va va' :
  pt_wf m pgdir -> PDX va = PDX va' -> pte_slot m pgdir va <> 0 -> pte_slot m pgdir va' <> 0.
Proof. intros Hw Hd H%slot_present; [|done]. apply slot_present; [done|]. by rewrite <- Hd. Qed.

Lemma find_slot_run fuel pgdir va size s :
  0 < size -> 0 <= va -> va mod 4096 = 0 -> va < KERNBASE -> va / PGSIZE < Z.of_nat fuel ->
  exists va', find_slot pgdir va size fuel s = OK va' s
    /\ 0 <= va' <= va /\ va' mod 4096 = 0
    /\ (va' < size \/ mapped (ram s) pgdir va' = false)
    /\ (forall w, va' < w <= va -> w mod 4096 = 0 -> size <= w /\ mapped (ram s) pgdir w = true).
Proof.
  intros Hs. revert va. induction fuel as [|fuel IH]; intros va Ha Ham HK Hf; [ulia|].
  simpl. rewrite (bind_OK _ _ _ _ _ (walk_noalloc pgdir va s)).
  destruct (Z.eqb_spec (pte_slot (ram s) pgdir va) 0) as [H0|H0].
  { exists va. split; [done|]. split; [lia|]. split; [done|].
    split; [right; by apply unmapped_slot|lia]. }
  unfold ld. rewrite bind_gets, pte_of_slot by done. fold (mapped (ram s) pgdir va).
  destruct (mapped (ram s) pgdir va) eqn:Em; simpl.
  2:{ exists va. split; [done|]. split; [lia|]. split; [done|]. split; [by right|lia]. }
  destruct (Z.ltb_spec va size) as [Hlt|Hge].
  { exists va. split; [done|]. split; [lia|]. split; [done|]. split; [by left|lia]. }
  destruct (decide (va = 0)) as [->|]; [lia|].
  rewrite u32_id by ulia.
  destruct (IH (va - PGSIZE)) as (va' & Hr & H1 & H2 & H3 & H4); [ulia..|].
  exists va'. split; [done|]. split; [ulia|]. split; [done|]. split; [done|].
  intros w Hw Hwm. destruct (decide (w = va)) as [->|]; [done|]. apply H4; [ulia|done].
Qed.

(** The search of cloneuvm: nothing above [size] is free, or it finds the
    stack page of the highest free pair. *)
Lemma find_pair s pgdir size l :
  tspace s pgdir size l -> 0 < size ->
  exists va, find_slot pgdir (KERNBASE - PGSIZE) size slot_fuel s = OK va s
    /\ (va < size
        \/ size <= va /\ exists k, 0 <= k /\ va = slot (2 * k) /\ 0 <= va
           /\ mapped (ram s) pgdir va = false
           /\ (forall j, 0 <= j < 2 * k -> mapped (ram s) pgdir (slot j) = true)).
Proof.
  intros [Hus Hp Hz _] Hs.
  destruct (find_slot_run slot_fuel pgdir (KERNBASE - PGSIZE) size s) as (va & Hr & H1 & H2 & H3 & H4);
    [done|ulia..|unfold slot_fuel; ulia|].
  exists va. split; [done|]. destruct H3 as [?|Hm]; [by left|].
  destruct (decide (va < size)) as [|Hge]; [by left|]. right. split; [lia|].
  set (j := (KERNBASE - va) / PGSIZE - 1).
  assert (va = slot j) as Hj by (unfold slot, j; ulia).
  assert (0 <= j) as Hj0 by (unfold j; ulia).
  assert (forall i, 0 <= i < j -> mapped (ram s) pgdir (slot i) = true) as Hup.
  { intros i Hi. apply H4; unfold slot in *; ulia. }
  destruct (decide (j mod 2 = 0)) as [He|Ho].
  - exists (j / 2). replace (2 * (j / 2)) with j by lia. split; [lia|]. split; [done|]. split; [lia|]. by split.
  - exfalso. specialize (Hp (j / 2) ltac:(lia)). replace (2 * (j / 2) + 1) with j in Hp by lia.
    rewrite <- Hj, Hm in Hp. specialize (Hp ltac:(lia)). by rewrite Hup in Hp by lia.
Qed.

(** A pair never straddles two page tables. *)
Lemma slot_PDX k : 0 <= k -> 0 <= slot (2 * k + 1) -> PDX (slot (2 * k)) = PDX (slot (2 * k + 1)).
Proof. intros Hk H0. rewrite !PDX_eq. unfold slot in *. rewrite !u32_id by ulia. ulia. Qed.

(** * Entries that are added or removed *)

(** Sharing the frame of a page that the user cannot access. *)
Lemma uspace_alias s s' pgdir l a g :
  uspace s pgdir l -> grows s s' pgdir l [] l ->
  uva a -> uva g -> mapped (ram s) pgdir g = true -> mapped (ram s) pgdir a = false ->
  testf (pte_of (ram s) pgdir g) PTE_U = false ->
  (forall va, u32 va / 4096 = a / 4096 -> pte_of (ram s') pgdir va = pte_of (ram s) pgdir g) ->
  (forall va, u32 va / 4096 <> a / 4096 -> pte_of (ram s') pgdir va = pte_of (ram s) pgdir va) ->
  uspace s' pgdir l.
Proof.
  intros [Has Hfr Hsh] Hg Ha Hgu Hgm Ham HgU He Hne.
  destruct Hg as [_ Has' Ho Hn _ _].
  assert (forall va, uva va -> exists va0, uva va0 /\ pte_of (ram s') pgdir va = pte_of (ram s) pgdir va0
            /\ (va0 = g /\ va / 4096 = a / 4096 \/ va0 = va /\ va / 4096 <> a / 4096)) as Hold.
  { intros va Hu. unfold uva in *. destruct (decide (va / 4096 = a / 4096)) as [Hv|Hv].
    - exists g. split; [done|]. rewrite He by (by rewrite u32_id by ulia). split; [done|by left].
    - exists va. split; [done|]. rewrite Hne by (by rewrite u32_id by ulia). split; [done|by right]. }
  assert (forall w, owns (ram s') pgdir w <-> owns (ram s) pgdir w) as How.
  { intros w. split; [intros [?|[]]%Hn; done|apply Ho]. }
  split; [done| |].
  - intros va Hu. unfold mapped, frame. destruct (Hold va Hu) as (va0 & Hu0 & -> & _).
    rewrite How. by apply Hfr.
  - intros va Hu. unfold unshared, mapped, frame. destruct (Hold va Hu) as (va0 & Hu0 & -> & Hc).
    intros Hm HU va' Hu'. destruct (Hold va' Hu') as (va1 & Hu1 & -> & Hc'). intros Hm' Hd.
    destruct Hc as [[-> _]|[-> Hva]]; [congruence|].
    apply (Hsh va Hu Hm HU va1 Hu1 Hm').
    destruct Hc' as [[-> _]|[-> _]]; [|done]. intros Heq.
    rewrite (pte_of_page _ _ va g) in HU; [congruence|]. unfold uva in *. by rewrite !u32_id by ulia.
Qed.

(** Removing entries. *)
Lemma uspace_fewer s s' pgdir l :
  uspace s pgdir l -> grows s s' pgdir l [] l ->
  (forall va, uva va -> mapped (ram s') pgdir va = true ->
     pte_of (ram s') pgdir va = pte_of (ram s) pgdir va) ->
  uspace s' pgdir l.
Proof.
  intros [Has Hfr Hsh] Hg Hp. destruct Hg as [_ Has' Ho Hn _ _].
  assert (forall va, uva va -> mapped (ram s') pgdir va = true -> mapped (ram s) pgdir va = true) as Hm.
  { intros va Hu Hm. pose proof (Hp va Hu Hm). unfold mapped in *. congruence. }
  split; [done| |].
  - intros va Hu Hm'. unfold frame. rewrite Hp by done.
    destruct (Hfr va Hu (Hm va Hu Hm')) as (? & ? & ?).
    split; [done|]. split; [intros [?|[]]%Hn; done|done].
  - intros va Hu Hm' HU va' Hu' Hmv Hne. unfold frame. rewrite !Hp by done.
    rewrite Hp in HU by done. apply (Hsh va Hu); auto.
Qed.

(** Restricting an entry: the same frame, and no new access for the user. *)
Lemma uspace_restrict s s' pgdir l :
  uspace s pgdir l -> grows s s' pgdir l [] l ->
  (forall va, uva va -> mapped (ram s') pgdir va = mapped (ram s) pgdir va
     /\ frame (ram s') pgdir va = frame (ram s) pgdir va
     /\ (testf (pte_of (ram s') pgdir va) PTE_U = true -> testf (pte_of (ram s) pgdir va) PTE_U = true)) ->
  uspace s' pgdir l.
Proof.
  intros [Has Hfr Hsh] [_ Has' Ho Hn _ _] Hp. split; [done| |].
  - intros va Hu. destruct (Hp va Hu) as (-> & -> & _). intros Hm.
    destruct (Hfr va Hu Hm) as (? & ? & ?). split; [done|]. split; [intros [?|[]]%Hn; done|done].
  - intros va Hu. destruct (Hp va Hu) as (-> & Hf & HU'). intros Hm HU va' Hu' Hm' Hne.
    destruct (Hp va' Hu') as (Hm1 & -> & _). rewrite Hf. apply (Hsh va); auto. by rewrite <- Hm1.
Qed.

Lemma clearpteu_run s pgdir l va :
  uspace s pgdir l -> uva va -> mapped (ram s) pgdir va = true ->
  exists s', clearpteu pgdir va s = OK tt s' /\ uspace s' pgdir l
    /\ (forall va', u32 va' / 4096 = va / 4096 ->
          pte_of (ram s') pgdir va' = Z.land (pte_of (ram s) pgdir va) (Z.lnot PTE_U))
    /\ (forall va', u32 va' / 4096 <> va / 4096 -> pte_of (ram s') pgdir va' = pte_of (ram s) pgdir va').
Proof.
  intros Hus Hva Hm. pose proof (mapped_slot _ _ _ Hm) as Hs. pose proof Hva as Hva'. unfold uva in Hva'.
  unfold clearpteu. rewrite (bind_OK _ _ _ _ _ (walk_noalloc pgdir va s)), (proj2 (Z.eqb_neq _ _) Hs).
  unfold ld, st. rewrite bind_gets, pte_of_slot by done.
  set (e := pte_of (ram s) pgdir va). assert (0 <= e < 2 ^ 32) as Hr by apply pte_of_range.
  assert (0 <= Z.land e (Z.lnot PTE_U) < 2 ^ 32) as He by by apply land_u32_range.
  destruct (as_store s pgdir va (Z.land e (Z.lnot PTE_U)) l (us_as _ _ _ Hus) Hs) as (Hg & Heq & Hne).
  rewrite (u32_id va) in Heq, Hne by ulia. rewrite (u32_id (Z.land _ _)) in Heq by done.
  eexists. split; [reflexivity|]. split; [|done].
  eapply uspace_restrict; [exact Hus|exact Hg|]. intros va' Hu. unfold uva in Hu.
  destruct (decide (va' / 4096 = va / 4096)) as [Hp|Hp].
  - unfold mapped, frame. rewrite Heq by (by rewrite u32_id by ulia).
    rewrite (pte_of_page (ram s) pgdir va' va) by (rewrite !u32_id by ulia; done). fold e.
    unfold testf, PTE_ADDR. rewrite !u32_id, <- !Z.land_assoc by done.
    change (Z.land (Z.lnot PTE_U) PTE_U) with 0. rewrite Z.land_0_r. by repeat split.
  - unfold mapped, frame. by rewrite Hne by (by rewrite u32_id by ulia).
Qed.

(** * cloneuvm *)

Definition stack_entry (x : Z) : Z := Z.lor (Z.lor (Z.lor (V2P x) PTE_U) PTE_W) PTE_P.

Lemma stack_entry_eq x : stack_entry x = mkpte (V2P x) (Z.lor PTE_W PTE_U).
Proof. unfold stack_entry, mkpte. f_equal. by rewrite <- Z.lor_assoc. Qed.

Lemma slot_store m pgdir va v va' :
  pt_wf m pgdir -> pte_slot m pgdir va <> 0 ->
  pte_slot (store32 m (pte_slot m pgdir va) v) pgdir va' = pte_slot m pgdir va'.
Proof. intros Hw Hs. destruct (slot_nz_eq _ _ _ Hs) as [-> Hp]. by apply store_slot. Qed.

(** Clearing a fresh page and mapping it as a stack. *)
Lemma stack_stored s pgdir l x va :
  uspace s pgdir l -> fresh s pgdir l x -> uva va ->
  pte_slot (ram s) pgdir va <> 0 -> mapped (ram s) pgdir va = false ->
  let s' := set_ram (fun m => store32 m (pte_slot (ram s) pgdir va) (stack_entry x))
              (set_ram (fun m => fill m x 0 PGSIZE) s) in
  uspace s' pgdir l
  /\ (forall va', pte_slot (ram s') pgdir va' = pte_slot (ram s) pgdir va')
  /\ (forall va', u32 va' / 4096 = va / 4096 -> pte_of (ram s') pgdir va' = mkpte (V2P x) 6)
  /\ (forall va', u32 va' / 4096 <> va / 4096 -> pte_of (ram s') pgdir va' = pte_of (ram s) pgdir va')
  /\ (forall w, owns (ram s') pgdir w <-> owns (ram s) pgdir w)
  /\ page_zero (ram s') x
  /\ (forall w, valid_page w -> ~ owns (ram s) pgdir w -> ~ In w l -> w <> x ->
        page_eq w (ram s) (ram s')).
Proof.
  intros Hus Hf Hva Hs Hm s'. pose proof Hva as Hva'. unfold uva in Hva'.
  assert (same_outside x (ram s) (fill (ram s) x 0 PGSIZE)) as Hso.
  { intros y Hy. apply load8_fill_ne. lia. }
  destruct (uspace_write s pgdir l x (fill (ram s) x 0 PGSIZE) Hus Hf Hso) as (Hu1 & Hf1 & Hpf).
  set (s1 := set_ram (fun _ => fill (ram s) x 0 PGSIZE) s) in *.
  assert (s' = set_ram (fun m => store32 m (pte_slot (ram s1) pgdir va) (stack_entry x)) s1) as Hs'.
  { unfold s', s1, set_ram. simpl. by rewrite (slot_frame _ _ _ va Hpf). }
  pose proof (fr_valid _ _ _ _ Hf) as Hxv. destruct (V2P_page_pte x Hxv) as [Hx1 Hx2].
  destruct (as_store s1 pgdir va (stack_entry x) l (us_as _ _ _ Hu1)) as (Hg & He & Hne).
  { simpl. by rewrite (slot_frame _ _ _ va Hpf). }
  rewrite <- Hs' in Hg, He, Hne. rewrite (u32_id va) in He, Hne by ulia.
  rewrite stack_entry_eq in He. change (Z.lor PTE_W PTE_U) with 6 in He.
  rewrite (u32_id (mkpte _ _)) in He by (apply mkpte_range; ulia).
  destruct (uspace_map s1 s' pgdir l [] l va x 6) as [Hu2 _]; try done.
  { unfold mapped. simpl. by rewrite (pte_frame _ _ _ va Hpf). }
  split; [done|]. split; [|split; [done|split; [|split; [|split]]]].
  - intros va'. rewrite Hs'. simpl. rewrite slot_store; [|apply Hu1|];
      by rewrite (slot_frame _ _ _ _ Hpf).
  - intros va' Hv. rewrite Hne by done. simpl. by rewrite (pte_frame _ _ _ _ Hpf).
  - intros w. rewrite <- (owns_frame _ _ _ _ Hpf). split; [intros [?|[]]%(gr_new _ _ _ _ _ _ Hg); done|apply Hg].
  - intros y Hy. rewrite (gr_out _ _ _ _ _ _ Hg x); [|apply Hf1..|done]. simpl.
    by rewrite load8_fill_eq by lia.
  - intros w Hv Ho Hl Hwx. apply page_eq_trans with (ram s1).
    + by eapply same_outside_page_eq.
    + apply (gr_out _ _ _ _ _ _ Hg); [done| |done]. simpl. by rewrite (owns_frame _ _ _ _ Hpf).
Qed.

(** Unmapping an unshared page, then freeing its frame. *)
Lemma unmap_free s pgdir l va :
  uspace s pgdir l -> uva va -> mapped (ram s) pgdir va = true -> unshared (ram s) pgdir va ->
  let x := frame (ram s) pgdir va in
  exists s', (st (pte_slot (ram s) pgdir va) 0;; kfree x;; mret 0) s = OK 0 s'
  /\ uspace s' pgdir (x :: l)
  /\ (forall va', u32 va' / 4096 = va / 4096 -> pte_of (ram s') pgdir va' = 0)
  /\ (forall va', u32 va' / 4096 <> va / 4096 -> pte_of (ram s') pgdir va' = pte_of (ram s) pgdir va')
  /\ (forall w, owns (ram s') pgdir w <-> owns (ram s) pgdir w)
  /\ (forall w, valid_page w -> ~ owns (ram s) pgdir w -> ~ In w l -> w <> x ->
        page_eq w (ram s) (ram s')).
Proof.
  intros Hus Hva Hm Hun x. pose proof Hva as Hva'. unfold uva in Hva'.
  destruct (us_frame _ _ _ Hus va Hva Hm) as (Hxv & Hxo & Hxl). fold x in Hxv, Hxo, Hxl.
  destruct (as_store s pgdir va 0 l (us_as _ _ _ Hus) (mapped_slot _ _ _ Hm)) as (Hg & He & Hne).
  set (s1 := set_ram _ s) in *. rewrite (u32_id va) in He, Hne by ulia.
  assert (forall w, owns (ram s1) pgdir w <-> owns (ram s) pgdir w) as Ho1.
  { intros w. split; [intros [?|[]]%(gr_new _ _ _ _ _ _ Hg); done|apply Hg]. }
  assert (forall va', uva va' -> mapped (ram s1) pgdir va' = true ->
            va' / 4096 <> va / 4096 /\ pte_of (ram s1) pgdir va' = pte_of (ram s) pgdir va') as Hold.
  { intros va' Hu Hm'. assert (va' / 4096 <> va / 4096) as Hd.
    { intros Hd. unfold mapped in Hm'. unfold uva in Hu. by rewrite He in Hm' by (by rewrite u32_id by ulia). }
    split; [done|]. apply Hne. unfold uva in Hu. by rewrite u32_id by ulia. }
  assert (uspace s1 pgdir l) as Hu1.
  { apply (uspace_fewer s); [done|done|]. intros va' Hu Hm'. by apply Hold. }
  assert (fresh s1 pgdir l x) as Hf1.
  { split; [done|by rewrite Ho1|done|]. intros va' Hu Hm'. destruct (Hold va' Hu Hm') as [Hd Hp].
    unfold mapped, frame in *. rewrite Hp in Hm' |- *. by apply Hun. }
  destruct (uspace_kfree s1 pgdir l x Hu1 Hf1) as (s2 & Hk & Hu2 & Hpf & Hso).
  exists s2. unfold st. rewrite bind_modify. fold s1. rewrite (bind_OK _ _ _ _ _ Hk).
  split; [done|]. split; [done|]. split; [|split; [|split]].
  - intros va' Hv. rewrite (pte_frame _ _ _ _ Hpf). by apply He.
  - intros va' Hv. rewrite (pte_frame _ _ _ _ Hpf). by apply Hne.
  - intros w. by rewrite (owns_frame _ _ _ _ Hpf).
  - intros w Hv Ho Hl Hwx. apply page_eq_trans with (ram s1).
    + by apply (gr_out _ _ _ _ _ _ Hg).
    + by eapply same_outside_page_eq.
Qed.

(** A new stack: the pair [2k], [2k+1] is the highest free one; its upper
    page is a zeroed page that was free, its lower one shares the guard. *)
Record clones (s s' : pmem) (pgdir size guard k x : Z) (l l' : list Z) : Prop := {
  cl_free : mapped (ram s) pgdir (slot (2 * k)) = false;
  cl_top : forall j, 0 <= j < 2 * k -> mapped (ram s) pgdir (slot j) = true;
  cl_room : size <= slot (2 * k + 1);
  cl_stack : pte_of (ram s') pgdir (slot (2 * k)) = mkpte (V2P x) (Z.lor PTE_W PTE_U);
  cl_page : In x l /\ valid_page x /\ page_zero (ram s') x;
  cl_guard : pte_of (ram s') pgdir (slot (2 * k + 1)) = pte_of (ram s) pgdir guard;
  cl_out : forall va, 0 <= va < 2 ^ 32 -> ~ (slot (2 * k + 1) <= va < slot (2 * k) + PGSIZE) ->
    pte_of (ram s') pgdir va = pte_of (ram s) pgdir va;
  cl_keep : forall w, In w l -> In w l' \/ owns (ram s') pgdir w \/ w = x;
  cl_mem : forall w, valid_page w -> ~ owns (ram s) pgdir w -> ~ In w l ->
    page_eq w (ram s) (ram s');
}.

(** The end of cloneuvm, once the stack page is mapped at [va]. *)
Definition clone_rest (pgdir size guard_page va stack_pte stack_page : Z) : M pmem Z :=
  let va' := u32 (va - PGSIZE) in
  if va' <? size then st stack_pte 0;; kfree stack_page;; mret 0
  else
    pte ← walkpgdir pgdir va' true;
    if pte =? 0 then kfree stack_page;; mret 0
    else
      guard_pte ← walkpgdir pgdir guard_page false;
      if guard_pte =? 0 then panic "guard page not found"
      else g ← ld guard_pte; st pte g;; mret (u32 (va + PGSIZE)).

(** With room for the guard, the entry of the guard page is shared. *)
Lemma clone_guard s pgdir size guard l k p :
  uspace s pgdir l -> 0 <= k -> size <= slot (2 * k + 1) -> 0 <= slot (2 * k + 1) ->
  pte_slot (ram s) pgdir (slot (2 * k)) <> 0 ->
  mapped (ram s) pgdir (slot (2 * k + 1)) = false ->
  uva guard -> mapped (ram s) pgdir guard = true -> testf (pte_of (ram s) pgdir guard) PTE_U = false ->
  exists s', clone_rest pgdir size guard (slot (2 * k)) p
               (frame (ram s) pgdir (slot (2 * k))) s = OK (slot (2 * k) + PGSIZE) s'
    /\ uspace s' pgdir l /\ grows s s' pgdir l [] l
    /\ (forall va, u32 va / 4096 = slot (2 * k + 1) / 4096 ->
          pte_of (ram s') pgdir va = pte_of (ram s) pgdir guard)
    /\ (forall va, u32 va / 4096 <> slot (2 * k + 1) / 4096 ->
          pte_of (ram s') pgdir va = pte_of (ram s) pgdir va).
Proof.
  intros Hus Hk Hsz H0 Hs Hm Hgu Hgm HgU. unfold clone_rest.
  assert (u32 (slot (2 * k) - PGSIZE) = slot (2 * k + 1)) as ->.
  { unfold slot in *. rewrite u32_id by ulia. lia. }
  rewrite (proj2 (Z.ltb_ge _ _)) by lia.
  pose proof (slot_near _ _ _ _ (as_wf _ _ _ (us_as _ _ _ Hus)) (slot_PDX k Hk H0) Hs) as Hs'.
  rewrite (bind_OK _ _ _ _ _ (walk_present _ _ true _ Hs')), (proj2 (Z.eqb_neq _ _) Hs').
  pose proof (mapped_slot _ _ _ Hgm) as Hgs.
  rewrite (bind_OK _ _ _ _ _ (walk_noalloc pgdir guard s)), (proj2 (Z.eqb_neq _ _) Hgs).
  unfold ld, st. rewrite bind_gets, pte_of_slot, bind_modify by done.
  destruct (as_store s pgdir (slot (2 * k + 1)) (pte_of (ram s) pgdir guard) l (us_as _ _ _ Hus) Hs')
    as (Hg & He & Hne).
  assert (uva (slot (2 * k + 1))) as Hu by (unfold uva, slot in *; ulia).
  rewrite (u32_id (slot _)) in He, Hne by (unfold uva in Hu; ulia).
  rewrite (u32_id (pte_of _ _ _)) in He by apply pte_of_range.
  assert (u32 (slot (2 * k) + PGSIZE) = slot (2 * k) + PGSIZE) as ->.
  { unfold slot in *. rewrite u32_id by ulia. lia. }
  eexists. split; [reflexivity|]. split; [|done].
  eapply (uspace_alias s _ pgdir l (slot (2 * k + 1)) guard); done.
Qed.

(** Without room for it, the stack page is unmapped and freed. *)
Lemma clone_no_room s pgdir size guard l k :
  uspace s pgdir l -> 0 <= k -> slot (2 * k + 1) < size -> 0 <= slot (2 * k + 1) ->
  mapped (ram s) pgdir (slot (2 * k)) = true -> unshared (ram s) pgdir (slot (2 * k)) ->
  let x := frame (ram s) pgdir (slot (2 * k)) in
  exists s', clone_rest pgdir size guard (slot (2 * k)) (pte_slot (ram s) pgdir (slot (2 * k))) x s = OK 0 s'
  /\ uspace s' pgdir (x :: l)
  /\ (forall va', u32 va' / 4096 = slot (2 * k) / 4096 -> pte_of (ram s') pgdir va' = 0)
  /\ (forall va', u32 va' / 4096 <> slot (2 * k) / 4096 -> pte_of (ram s') pgdir va' = pte_of (ram s) pgdir va')
  /\ (forall w, owns (ram s') pgdir w <-> owns (ram s) pgdir w)
  /\ (forall w, valid_page w -> ~ owns (ram s) pgdir w -> ~ In w l -> w <> x ->
        page_eq w (ram s) (ram s')).
Proof.
  intros Hus Hk Hsz H0 Hm Hun x. unfold clone_rest.
  assert (u32 (slot (2 * k) - PGSIZE) = slot (2 * k + 1)) as ->.
  { unfold slot in *. rewrite u32_id by ulia. lia. }
  rewrite (proj2 (Z.ltb_lt _ _)) by lia.
  apply unmap_free; try done. unfold uva, slot in *. ulia.
Qed.

Lemma tspace_same s s' pgdir size l l' :
  tspace s pgdir size l -> 0 <= size -> uspace s' pgdir l' ->
  (forall va, 0 <= va < 2 ^ 32 -> pte_of (ram s') pgdir va = pte_of (ram s) pgdir va) ->
  tspace s' pgdir size l'.
Proof.
  intros [Hus Hp Hz Hu] Hsz Hus' He.
  assert (forall va, uva va -> pte_of (ram s') pgdir va = pte_of (ram s) pgdir va) as He'.
  { intros va Hva. apply He. unfold uva in Hva. ulia. }
  assert (forall k, 0 <= k -> size <= slot k -> uva (slot k)) as Hsl.
  { intros k. unfold uva, slot. ulia. }
  split; [done| | |].
  - intros k Hk Hs. unfold mapped. rewrite !He' by (apply Hsl; unfold slot in *; ulia). by apply Hp.
  - intros va Hva. unfold mapped. rewrite He' by done. by apply Hz.
  - intros k Hk Hs. unfold mapped. rewrite He' by (apply Hsl; lia). by apply Hu.
Qed.

(** What a pair that changes does to the rest of the invariant. *)
Lemma tspace_pair s s' pgdir size l l' k :
  tspace s pgdir size l -> 0 <= size -> 0 <= k -> size <= slot (2 * k + 1) -> uspace s' pgdir l' ->
  (forall va, 0 <= va < 2 ^ 32 -> ~ (slot (2 * k + 1) <= va < slot (2 * k) + PGSIZE) ->
     pte_of (ram s') pgdir va = pte_of (ram s) pgdir va) ->
  mapped (ram s') pgdir (slot (2 * k)) = mapped (ram s') pgdir (slot (2 * k + 1)) ->
  (mapped (ram s') pgdir (slot (2 * k)) = false ->
     pte_of (ram s') pgdir (slot (2 * k)) = 0 /\ pte_of (ram s') pgdir (slot (2 * k + 1)) = 0) ->
  (mapped (ram s') pgdir (slot (2 * k)) = true ->
     testf (pte_of (ram s') pgdir (slot (2 * k))) PTE_U = true) ->
  tspace s' pgdir size l'.
Proof.
  intros [Hus Hp Hz Hu] Hsz Hk Hsk Hus' He Hm H0 HU.
  assert (forall va, slot (2 * k + 1) <= va < slot (2 * k) + PGSIZE ->
    pte_of (ram s') pgdir va = pte_of (ram s') pgdir (slot (2 * k))
    \/ pte_of (ram s') pgdir va = pte_of (ram s') pgdir (slot (2 * k + 1))) as Hin.
  { intros va Hva. destruct (decide (slot (2 * k) <= va)); [left|right]; apply pte_of_page;
      unfold slot in *; rewrite !u32_id by ulia; ulia. }
  split; [done| | |].
  - intros j Hj Hsj. destruct (decide (j = k)) as [->|]; [done|].
    unfold mapped. rewrite !He by (unfold slot in *; ulia). by apply Hp.
  - intros va Hva Hs. destruct (decide (slot (2 * k + 1) <= va < slot (2 * k) + PGSIZE)) as [Hr|Hr].
    + unfold mapped in *. destruct (Hin va Hr) as [->| ->]; rewrite <- ?Hm; intros Hf; by apply H0.
    + unfold mapped. rewrite He by (unfold uva in Hva; ulia). by apply Hz.
  - intros j Hj Hsj. destruct (decide (j = k)) as [->|]; [done|].
    unfold mapped. rewrite He by (unfold slot in *; ulia). by apply Hu.
Qed.

Lemma tspace_clones s s' pgdir size guard k x l l' :
  tspace s pgdir size l -> 0 <= size -> 0 <= k -> uspace s' pgdir l' ->
  mapped (ram s) pgdir guard = true ->
  clones s s' pgdir size guard k x l l' -> tspace s' pgdir size l'.
Proof.
  intros Hts Hsz Hk Hus' Hgm [C1 C2 C3 C4 C5 C6 C7 C8 C9].
  apply (tspace_pair s s' pgdir size l l' k); try done;
    unfold mapped in *; rewrite C4, ?C6, ?mkpte_P; [by rewrite Hgm|done|intros _].
  rewrite mkpte_testf; [done| |done]. by apply V2P_page_pte, C5.
Qed.

(** The state once the page [x] is mapped as a stack at [va]. *)
Record stacked (s s1 : pmem) (pgdir va x : Z) (l l1 : list Z) : Prop := {
  sk_us : uspace s1 pgdir l1;
  sk_in : In x l;
  sk_valid : valid_page x;
  sk_zero : page_zero (ram s1) x;
  sk_notin : ~ In x l1;
  sk_table : ~ owns (ram s1) pgdir x;
  sk_eq : forall va', u32 va' / 4096 = va / 4096 -> pte_of (ram s1) pgdir va' = mkpte (V2P x) 6;
  sk_ne : forall va', u32 va' / 4096 <> va / 4096 -> pte_of (ram s1) pgdir va' = pte_of (ram s) pgdir va';
  sk_keep : forall w, In w l -> In w l1 \/ owns (ram s1) pgdir w \/ w = x;
  sk_back : forall w, In w l1 \/ owns (ram s1) pgdir w -> In w l \/ owns (ram s) pgdir w;
  sk_out : forall w, valid_page w -> ~ owns (ram s) pgdir w -> ~ In w l -> page_eq w (ram s) (ram s1);
}.

(** The stack page is mapped, or the memory is exhausted and the call
    returns 0 with no entry changed. *)
Lemma clone_stack s pgdir size guard l k :
  uspace s pgdir l -> 0 <= k -> size <= slot (2 * k) -> 0 <= slot (2 * k) ->
  mapped (ram s) pgdir (slot (2 * k)) = false ->
  let va := slot (2 * k) in
  let call := (stack_pte ← walkpgdir pgdir va true;
    if stack_pte =? 0 then mret 0
    else
      stack_page ← kalloc;
      if stack_page =? 0 then mret 0
      else
        memset_ stack_page 0 PGSIZE;;
        st stack_pte (stack_entry stack_page);;
        clone_rest pgdir size guard va stack_pte stack_page) s in
  (exists s' l', call = OK 0 s' /\ uspace s' pgdir l'
     /\ (forall va, pte_of (ram s') pgdir va = pte_of (ram s) pgdir va)
     /\ (forall w, In w l -> In w l' \/ owns (ram s') pgdir w))
  \/ (exists s1 x l1,
       call = clone_rest pgdir size guard va (pte_slot (ram s1) pgdir va) x s1
     /\ stacked s s1 pgdir va x l l1).
Proof.
  intros Hus Hk Hsz H0 Hm va call. subst call. fold va in Hm.
  assert (uva va) as Hva by (unfold uva, va, slot in *; ulia).
  destruct (walk_alloc s pgdir va l (us_as _ _ _ Hus)) as (a & s1 & u1 & l1 & Hw & Hg1 & Hp1 & Ha).
  rewrite (bind_OK _ _ _ _ _ Hw).
  pose proof (uspace_same _ _ _ _ _ _ Hus Hg1 Hp1) as Hu1.
  destruct Hg1 as [Hl1 _ Ho1 Hn1 Hus1 Hout1].
  destruct Ha as [(-> & -> & Hr)|(Ha0 & ->)].
  { left. exists s1, l1. split; [done|]. split; [done|]. split; [done|]. intros w []. }
  rewrite (proj2 (Z.eqb_neq _ _) Ha0).
  destruct (kalloc_user s1 pgdir l1 Hu1) as [(-> & s2 & Hk2 & Hr2 & Hu2)|(x & l2 & s2 & -> & Hk2 & Hr2 & Hu2 & Hf2)];
    rewrite (bind_OK _ _ _ _ _ Hk2).
  { left. exists s2, []. split; [done|]. split; [done|]. rewrite Hr2. split; [done|].
    intros w Hw'. right. apply Hus1. by rewrite Hl1, app_nil_r in Hw'. }
  rewrite (proj2 (Z.eqb_neq x 0)) by (apply valid_page_nonzero, Hf2). right.
  rewrite <- Hr2 in Ha0, Hp1, Ho1, Hn1, Hus1, Hout1 |- *.
  assert (mapped (ram s2) pgdir va = false) as Hm2 by (unfold mapped; by rewrite Hp1).
  destruct (stack_stored s2 pgdir l2 x va Hu2 Hf2 Hva Ha0 Hm2) as (H1 & H2 & H3 & H4 & H5 & H6 & H7).
  unfold memset_, st. rewrite !bind_modify.
  set (s3 := set_ram _ (set_ram _ s2)) in *.
  exists s3, x, l2. rewrite H2. split; [done|].
  assert (In x l) as Hxl by (rewrite Hl1, in_app_iff; right; by left).
  split; [done|done|apply Hf2|done|apply Hf2|rewrite H5; apply Hf2|done| | | |].
  - intros va' Hv'. by rewrite H4, Hp1.
  - intros w Hw'. rewrite H5. rewrite Hl1, in_app_iff in Hw'. simpl in Hw'.
    destruct Hw' as [?|[->|?]]; auto.
  - intros w. rewrite H5. intros [?|[?|?]%Hn1]; [left; rewrite Hl1, in_app_iff; right; by right|by right|].
    left. rewrite Hl1, in_app_iff. by left.
  - intros w Hv Ho Hl. apply page_eq_trans with (ram s2); [by apply Hout1|].
    rewrite Hl1, in_app_iff in Hl. simpl in Hl. apply H7; [done| |tauto|intros ->; tauto].
    intros [?|?]%Hn1; tauto.
Qed.

Lemma slot_even_pos k : 0 <= slot (2 * k) -> 0 <= slot (2 * k + 1).
Proof. unfold slot. ulia. Qed.

Lemma u32_slot k : 0 <= k -> 0 <= slot k -> u32 (slot k) = slot k.
Proof. intros. unfold slot in *. apply u32_id. ulia. Qed.

Section stacked.
Context (s s1 : pmem) (pgdir size guard k x : Z) (l l1 : list Z).
Context (Hts : tspace s pgdir size l) (Hsz : 0 < size) (Hk : 0 <= k) (Hva : size <= slot (2 * k)).
Context (Hm : mapped (ram s) pgdir (slot (2 * k)) = false).
Context (Hst : stacked s s1 pgdir (slot (2 * k)) x l l1).

Let H0 : 0 <= slot (2 * k + 1) := slot_even_pos k (Z.le_trans _ _ _ (Z.lt_le_incl _ _ Hsz) Hva).

Lemma stacked_pte : pte_of (ram s1) pgdir (slot (2 * k)) = mkpte (V2P x) 6.
Proof. apply (sk_eq _ _ _ _ _ _ _ Hst). by rewrite u32_slot by lia. Qed.

Lemma stacked_frame : frame (ram s1) pgdir (slot (2 * k)) = x.
Proof.
  pose proof (sk_valid _ _ _ _ _ _ _ Hst) as Hv. destruct (V2P_page_pte x Hv).
  unfold frame. rewrite stacked_pte, mkpte_addr by ulia. by apply P2V_V2P.
Qed.

Lemma stacked_mapped : mapped (ram s1) pgdir (slot (2 * k)) = true.
Proof. unfold mapped. rewrite stacked_pte. apply mkpte_P. Qed.

Lemma stacked_no_room :
  slot (2 * k + 1) < size ->
  exists s' l', clone_rest pgdir size guard (slot (2 * k)) (pte_slot (ram s1) pgdir (slot (2 * k))) x s1 = OK 0 s'
    /\ tspace s' pgdir size l'
    /\ (forall va, 0 <= va < 2 ^ 32 -> pte_of (ram s') pgdir va = pte_of (ram s) pgdir va)
    /\ (forall w, In w l -> In w l' \/ owns (ram s') pgdir w).
Proof.
  intros Hno. pose proof Hst as [Hu1 Hxl Hxv _ _ _ _ Hne1 Hkeep _ _].
  destruct (clone_no_room s1 pgdir size guard l1 k) as (s' & Hr' & Hu' & He' & Hne' & Ho' & _); try done.
  { apply stacked_mapped. }
  { apply (us_share _ _ _ Hu1); [unfold uva, slot in *; ulia|apply stacked_mapped|].
    rewrite stacked_pte, mkpte_testf; [done|by apply V2P_page_pte|done]. }
  rewrite stacked_frame in Hr', Hu'. exists s', (x :: l1). split; [done|].
  assert (forall va, 0 <= va < 2 ^ 32 -> pte_of (ram s') pgdir va = pte_of (ram s) pgdir va) as Hsame.
  { intros va Hv. destruct (decide (u32 va / 4096 = slot (2 * k) / 4096)) as [Hp|Hp].
    - rewrite He' by done. symmetry. rewrite (pte_of_page _ _ va (slot (2 * k))).
      + apply (ts_zero _ _ _ _ Hts); [unfold uva, slot in *; ulia|done|done].
      + by rewrite u32_slot by lia.
    - by rewrite Hne', Hne1. }
  split; [by apply (tspace_same s s' pgdir size l); auto; lia|]. split; [done|].
  intros w Hw. rewrite Ho'. simpl. destruct (Hkeep w Hw) as [?|[?| ->]]; auto.
Qed.

Lemma stacked_room :
  size <= slot (2 * k + 1) ->
  uva guard -> mapped (ram s) pgdir guard = true -> testf (pte_of (ram s) pgdir guard) PTE_U = false ->
  (forall j, 0 <= j < 2 * k -> mapped (ram s) pgdir (slot j) = true) ->
  exists s', clone_rest pgdir size guard (slot (2 * k)) (pte_slot (ram s1) pgdir (slot (2 * k))) x s1
             = OK (slot (2 * k) + PGSIZE) s'
    /\ tspace s' pgdir size l1 /\ clones s s' pgdir size guard k x l l1.
Proof.
  intros Hroom Hgu Hgm HgU Htop.
  pose proof Hst as [Hu1 Hxl Hxv Hxz Hxl1 Hxo He1 Hne1 Hkeep Hback Hout].
  assert (slot (2 * k + 1) / 4096 <> slot (2 * k) / 4096) as Hdiff by (unfold slot; ulia).
  assert (u32 guard / 4096 <> slot (2 * k) / 4096) as Hgd.
  { intros Hg. unfold mapped in *. rewrite (pte_of_page _ _ guard (slot (2 * k))) in Hgm; [congruence|].
    by rewrite Hg, u32_slot by lia. }
  destruct (clone_guard s1 pgdir size guard l1 k (pte_slot (ram s1) pgdir (slot (2 * k))))
    as (s' & Hr' & Hu' & Hg' & He' & Hne'); try done.
  { apply mapped_slot, stacked_mapped. }
  { unfold mapped. rewrite Hne1 by (by rewrite u32_slot by lia). fold (mapped (ram s) pgdir (slot (2 * k + 1))).
    by rewrite <- (ts_pair _ _ _ _ Hts k). }
  { unfold mapped. by rewrite Hne1. }
  { by rewrite Hne1. }
  rewrite stacked_frame in Hr'. exists s'. split; [done|].
  assert (clones s s' pgdir size guard k x l l1) as Hcl.
  { split; [done|done|done| | | | | |].
    - rewrite Hne', stacked_pte by (rewrite u32_slot by lia; lia). done.
    - split; [done|]. split; [done|]. intros y Hy.
      rewrite (gr_out _ _ _ _ _ _ Hg' x); [by apply Hxz|done..].
    - rewrite He', Hne1 by (done || by rewrite u32_slot by lia). done.
    - intros va Hv Hr. rewrite Hne', Hne1 by (rewrite u32_id by done; unfold slot in *; ulia). done.
    - intros w Hw. destruct (Hkeep w Hw) as [?|[?|?]]; auto. right. left. by apply Hg'.
    - intros w Hv Ho Hl. apply page_eq_trans with (ram s1); [by apply Hout|].
      apply (gr_out _ _ _ _ _ _ Hg'); [done| |]; intros ?;
        (destruct (Hback w) as [?|?]; [auto|done|done]). }
  split; [|done]. by apply (tspace_clones s s' pgdir size guard k x l l1); (done || lia).
Qed.

End stacked.

(** What a call of cloneuvm may do. *)
Definition clone_post (s s' : pmem) (pgdir size guard r : Z) (l l' : list Z) : Prop :=
  r = 0 /\ (forall va, 0 <= va < 2 ^ 32 -> pte_of (ram s') pgdir va = pte_of (ram s) pgdir va)
    /\ (forall w, In w l -> In w l' \/ owns (ram s') pgdir w)
  \/ exists k x, 0 <= k /\ r = slot (2 * k) + PGSIZE /\ clones s s' pgdir size guard k x l l'.

Lemma cloneuvm_run s pgdir size guard l :
  tspace s pgdir size l -> 0 < size ->
  uva guard -> mapped (ram s) pgdir guard = true -> testf (pte_of (ram s) pgdir guard) PTE_U = false ->
  exists r s' l', cloneuvm pgdir size guard s = OK r s' /\ tspace s' pgdir size l'
    /\ clone_post s s' pgdir size guard r l l'.
Proof.
  intros Hts Hsz Hgu Hgm HgU. pose proof (ts_us _ _ _ _ Hts) as Hus. unfold cloneuvm.
  destruct (find_pair s pgdir size l Hts Hsz) as (va & Hf & Hc). rewrite (bind_OK _ _ _ _ _ Hf).
  destruct (Z.ltb_spec va size) as [Hlt|Hge].
  { exists 0, s, l. split; [done|]. split; [done|]. left. auto. }
  destruct Hc as [?|(_ & k & Hk & -> & H0 & Hm & Htop)]; [lia|].
  pose proof (clone_stack s pgdir size guard l k Hus Hk Hge H0 Hm) as Hcs. cbv zeta in Hcs |- *.
  destruct Hcs as [(s' & l' & Hr & Hu' & Hp & Hkeep)|(s1 & x & l1 & Hr & Hst)].
  { exists 0, s', l'. split; [exact Hr|]. split; [by apply (tspace_same s s' pgdir size l); auto; lia|].
    left. auto. }
  destruct (decide (slot (2 * k + 1) < size)) as [Hno|Hroom].
  - destruct (stacked_no_room s s1 pgdir size guard k x l l1) as (s' & l' & Hr' & Ht & Hp); try done.
    exists 0, s', l'. split; [etrans; [exact Hr|exact Hr']|]. split; [done|]. by left.
  - destruct (stacked_room s s1 pgdir size guard k x l l1) as (s' & Hr' & Ht & Hcl); try done; [lia|].
    eexists _, s', l1. split; [etrans; [exact Hr|exact Hr']|]. split; [done|]. right. by exists k, x.
Qed.


(** * freecloneuvm *)

Lemma freecloneuvm_run s pgdir size l k :
  tspace s pgdir size l -> 0 <= size -> 0 <= k -> size <= slot (2 * k + 1) ->
  mapped (ram s) pgdir (slot (2 * k)) = true ->
  let x := frame (ram s) pgdir (slot (2 * k)) in
  exists s', freecloneuvm pgdir (slot (2 * k) + PGSIZE) s = OK tt s'
    /\ tspace s' pgdir size (x :: l)
    /\ pte_of (ram s') pgdir (slot (2 * k)) = 0 /\ pte_of (ram s') pgdir (slot (2 * k + 1)) = 0
    /\ (forall va, 0 <= va < 2 ^ 32 -> ~ (slot (2 * k + 1) <= va < slot (2 * k) + PGSIZE) ->
          pte_of (ram s') pgdir va = pte_of (ram s) pgdir va)
    /\ (forall w, owns (ram s') pgdir w <-> owns (ram s) pgdir w).
Proof.
  intros Hts Hsz Hk Hroom Hm x. pose proof (ts_us _ _ _ _ Hts) as Hus.
  assert (0 <= slot (2 * k + 1) < KERNBASE /\ 0 <= slot (2 * k) < KERNBASE
          /\ slot (2 * k) = slot (2 * k + 1) + PGSIZE /\ slot (2 * k) mod 4096 = 0) as (HA & HB & HC & HD)
    by (unfold slot in *; ulia).
  unfold freecloneuvm.
  replace (u32 (slot (2 * k) + PGSIZE - PGSIZE)) with (slot (2 * k)) by (rewrite u32_id; ulia).
  replace (u32 (slot (2 * k) + PGSIZE - 2 * PGSIZE)) with (slot (2 * k + 1)) by (rewrite u32_id; ulia).
  pose proof (mapped_slot _ _ _ Hm) as Hs. cbv zeta.
  rewrite (bind_OK _ _ _ _ _ (walk_noalloc pgdir _ s)), (proj2 (Z.eqb_neq _ _) Hs).
  unfold ld. rewrite bind_gets, pte_of_slot by done. fold (frame (ram s) pgdir (slot (2 * k))). fold x.
  destruct (free_user_page s pgdir (slot (2 * k)) l Hus) as (s1 & Hk1 & [Hu1 Hc1 _ Ho1 _]); try done.
  { apply (us_share _ _ _ Hus); [done|done|]. apply (ts_user _ _ _ _ Hts); [done|ulia|done]. }
  fold x in Hk1, Hu1. rewrite (bind_OK _ _ _ _ _ Hk1). unfold st. rewrite bind_modify.
  set (s2 := set_ram _ s1) in *. destruct Hc1 as [Hin Hout].
  assert (mapped (ram s2) pgdir (slot (2 * k + 1)) = true) as Hm2.
  { unfold mapped. rewrite Hout by ulia. fold (mapped (ram s) pgdir (slot (2 * k + 1))).
    by rewrite <- (ts_pair _ _ _ _ Hts k). }
  pose proof (mapped_slot _ _ _ Hm2) as Hs2.
  rewrite (bind_OK _ _ _ _ _ (walk_noalloc pgdir _ s2)), (proj2 (Z.eqb_neq _ _) Hs2).
  destruct (as_store s2 pgdir (slot (2 * k + 1)) 0 (x :: l) (us_as _ _ _ Hu1) Hs2) as (Hg & He & Hne).
  set (s3 := set_ram _ s2) in *. rewrite (u32_id (slot _)) in He, Hne by ulia.
  assert (pte_of (ram s3) pgdir (slot (2 * k)) = 0) as Hp1.
  { rewrite Hne, Hin by (try rewrite u32_id; ulia). by rewrite Hm. }
  assert (pte_of (ram s3) pgdir (slot (2 * k + 1)) = 0) as Hp2 by (rewrite He by (rewrite u32_id; ulia); done).
  assert (forall va, 0 <= va < 2 ^ 32 -> ~ (slot (2 * k + 1) <= va < slot (2 * k) + PGSIZE) ->
          pte_of (ram s3) pgdir va = pte_of (ram s) pgdir va) as Hp3.
  { intros va Hva Hr. rewrite Hne, Hout; [done|done|ulia|]. rewrite u32_id by done. ulia. }
  exists s3. split; [done|]. split; [|split; [done|split; [done|split; [done|]]]].
  - apply (tspace_pair s s3 pgdir size l (x :: l) k); try done.
    + eapply uspace_fewer; [exact Hu1|done|]. intros va Hu Hmv. apply Hne. intros Heq.
      by rewrite (unmapped_zero _ _ _ (He va Heq)) in Hmv.
    + by rewrite !unmapped_zero.
    + by rewrite (unmapped_zero _ _ _ Hp1).
  - intros w. rewrite <- Ho1. split; [intros [?|[]]%(gr_new _ _ _ _ _ _ Hg); done|apply Hg].
Qed.

(** freecloneuvm undoes cloneuvm: every page table entry is as before
    the thread was created, and each page that was free is free again or is
    a page table of the address space. *)
Theorem clone_free_roundtrip s pgdir size guard l r s1 :
  tspace s pgdir size l -> 0 < size ->
  uva guard -> mapped (ram s) pgdir guard = true -> testf (pte_of (ram s) pgdir guard) PTE_U = false ->
  cloneuvm pgdir size guard s = OK r s1 -> r <> 0 ->
  exists s2 l2, freecloneuvm pgdir r s1 = OK tt s2 /\ tspace s2 pgdir size l2
    /\ (forall va, 0 <= va < 2 ^ 32 -> pte_of (ram s2) pgdir va = pte_of (ram s) pgdir va)
    /\ (forall w, In w l -> In w l2 \/ owns (ram s2) pgdir w).
Proof.
  intros Hts Hsz Hgu Hgm HgU Hr Hr0.
  destruct (cloneuvm_run s pgdir size guard l Hts Hsz Hgu Hgm HgU) as (r' & s' & l1 & Hr' & Ht1 & Hp).
  rewrite Hr in Hr'. injection Hr' as <- <-.
  destruct Hp as [[? _]|(k & x & Hk & -> & [C1 C2 C3 C4 C5 C6 C7 C8 C9])]; [done|].
  assert (mapped (ram s1) pgdir (slot (2 * k)) = true) as Hm.
  { unfold mapped. rewrite C4. apply mkpte_P. }
  assert (frame (ram s1) pgdir (slot (2 * k)) = x) as Hfx.
  { destruct C5 as (_ & Hv & _). destruct (V2P_page_pte x Hv). unfold frame.
    rewrite C4, mkpte_addr by (done || ulia). by apply P2V_V2P. }
  destruct (freecloneuvm_run s1 pgdir size l1 k) as (s2 & Hf & Ht2 & P1 & P2 & P3 & Ho); try done; [lia|].
  rewrite Hfx in Ht2. exists s2, (x :: l1). split; [done|]. split; [done|]. split.
  - assert (forall j, size <= slot j -> 0 <= j -> mapped (ram s) pgdir (slot j) = false ->
      pte_of (ram s) pgdir (slot j) = 0) as Hz.
    { intros j Hj Hj0. apply (ts_zero _ _ _ _ Hts); [unfold uva, slot in *; ulia|done]. }
    intros va Hva. destruct (decide (slot (2 * k + 1) <= va < slot (2 * k) + PGSIZE)) as [Hin|Hin].
    + destruct (decide (slot (2 * k) <= va)) as [Hc|Hc].
      * rewrite !(pte_of_page _ _ va (slot (2 * k))) by (unfold slot in *; rewrite !u32_id; ulia).
        rewrite P1. symmetry. apply Hz; [unfold slot in *; ulia|lia|done].
      * rewrite !(pte_of_page _ _ va (slot (2 * k + 1))) by (unfold slot in *; rewrite !u32_id; ulia).
        rewrite P2. symmetry. apply Hz; [done|lia|]. by rewrite <- (ts_pair _ _ _ _ Hts k).
    + by rewrite P3, C7.
  - intros w Hw. simpl. rewrite Ho. destruct (C8 w Hw) as [?|[?| ->]]; auto.
Qed.

End thread.

(** * A sample process: a guard page at 0, and nothing else *)

Definition sample_guarded : pmem := final (clearpteu (pg 0) 0 sample_grown).

Lemma sample_tspace :
  exists l, tspace (L := sample_link) sample_guarded (pg 0) PGSIZE l
    /\ mapped (ram sample_guarded) (pg 0) 0 = true
    /\ testf (pte_of (ram sample_guarded) (pg 0) 0) PTE_U = false.
Proof.
  destruct (allocuvm_run (L := sample_link) (sample_pmem sample_free) (pg 0) 0 PGSIZE sample_free)
    as (r & s1 & l1 & Hr & Hc); [apply sample_uspace|ulia|ulia|intros; apply sample_empty|].
  pose proof (returns_final (allocuvm (L := sample_link) (pg 0) 0 PGSIZE (sample_pmem sample_free)) PGSIZE
                ltac:(vm_compute; reflexivity)) as Hr1.
  fold sample_grown in Hr1. rewrite Hr1 in Hr. destruct (OK_inj _ _ _ _ Hr) as [<- Hs1].
  clear Hr Hr1. destruct Hc as [[_ [A B C _ _ _ _]]|[Hz _]]; [|discriminate Hz]. rewrite <- Hs1 in A, B, C.
  change (PGROUNDUP 0) with 0 in *. change (PGROUNDUP PGSIZE) with PGSIZE in *.
  assert (mapped (ram sample_grown) (pg 0) 0 = true) as Hm by (vm_compute; reflexivity).
  destruct (clearpteu_run (L := sample_link) sample_grown (pg 0) l1 0 A ltac:(unfold uva; ulia) Hm)
    as (s2 & Hc2 & Hu2 & He2 & Hne2).
  pose proof (final_OK _ _ _ Hc2) as Hs2. fold sample_guarded in Hs2. rewrite <- Hs2 in Hu2, He2, Hne2. clear Hs2 Hc2.
  exists l1. split; [|split; vm_compute; reflexivity].
  assert (forall va, uva va -> PGSIZE <= va -> pte_of (ram sample_guarded) (pg 0) va = 0) as Hz.
  { unfold uva. intros va Hu Hv. rewrite Hne2, C by (try rewrite u32_id; ulia). apply sample_empty. }
  split; [done| | |].
  - intros k Hk Hs. rewrite !unmapped_zero; [done|apply Hz..]; unfold uva, slot in *; ulia.
  - intros va Hu Hv _. by apply Hz.
  - intros k Hk Hs Hmk. rewrite (unmapped_zero _ _ _ (Hz (slot (2 * k)) ltac:(unfold uva, slot in *; ulia) Hs)) in Hmk.
    done.
Qed.


Definition sample_threaded : pmem := final (cloneuvm (L := sample_link) (pg 0) PGSIZE 0 sample_guarded).

Lemma clone_free_roundtrip_witness :
  exists s2 l2, freecloneuvm (L := sample_link) (pg 0) KERNBASE sample_threaded = OK tt s2
    /\ tspace (L := sample_link) s2 (pg 0) PGSIZE l2.
Proof.
  destruct sample_tspace as (l & Ht & Hm & HU).
  destruct (clone_free_roundtrip (L := sample_link) sample_guarded (pg 0) PGSIZE 0 l KERNBASE sample_threaded Ht)
    as (s2 & l2 & H1 & H2 & _); [ulia|unfold uva; ulia|exact Hm|exact HU| |discriminate|].
  - apply (returns_final (cloneuvm (L := sample_link) (pg 0) PGSIZE 0 sample_guarded)). vm_compute. reflexivity.
  - exists s2, l2. exact (conj H1 H2).
Defined.
