(* ===== verification/VmKernel.v ===== *)
(** The kernel part of an address space: setupkvm, which every process and the
    scheduler get their page table from, kvmalloc, and freevm, which gives all
    of an address space back. *)

From S2P Require Import Prelude Mmu Str Kalloc Vm VmFacts VmUser.

Section kernel.
Context `{L : Link}.

(** * freevm *)

(** A page table in [j] >= [i] of the directory. *)
Definition tables_from (m : memory) (pgdir i w : Z) : Prop :=
  exists j, i <= j /\ pde_present m pgdir j /\ w = tab m pgdir j.

Lemma tables_from_step m pgdir i w :
  0 <= i < NPDENTRIES ->
  tables_from m pgdir i w <->
    (testf (pde_at m pgdir i) PTE_P = true /\ w = tab m pgdir i) \/ tables_from m pgdir (i + 1) w.
Proof.
  intros Hi. split.
  - intros (j & Hj & Hp & ->). destruct (decide (j = i)) as [->|]; [left; split; [apply Hp|done]|].
    right. exists j. split; [lia|done].
  - intros [[Hp ->]|(j & Hj & Hp)]; [exists i; split; [lia|]; split; [by split|done]|].
    exists j. split; [lia|done].
Qed.

Lemma free_tables_run m0 pgdir n i s l :
  pt_wf m0 pgdir -> free_list s l -> page_eq pgdir m0 (ram s) -> ~ In pgdir l ->
  0 <= i -> i + Z.of_nat n = NPDENTRIES -> (forall w, tables_from m0 pgdir i w -> ~ In w l) ->
  exists s' l', free_tables pgdir i n s = OK tt s' /\ free_list s' l' /\ page_eq pgdir m0 (ram s')
    /\ (forall w, In w l' <-> In w l \/ tables_from m0 pgdir i w)
    /\ (forall w, valid_page w -> ~ In w l' -> page_eq w (ram s) (ram s')).
Proof.
  intros Hwf. revert i s l. induction n as [|n IH]; intros i s l Hf Hpg Hnin Hi Hn Hout.
  { exists s, l. split; [done|]. split; [done|]. split; [done|]. split; [|intros; apply page_eq_refl].
    intros w. split; [by left|]. intros [?|(j & Hj & [Hp _] & _)]; [done|]. lia. }
  simpl. unfold ld. rewrite bind_gets.
  pose proof (valid_page_pos _ (wf_pgdir _ _ Hwf)) as Hpos.
  assert (load32 (ram s) (pgdir + 4 * i) = pde_at m0 pgdir i) as ->.
  { apply (page_eq_load32 pgdir); [done|lia|ulia]. }
  pose proof (tables_from_step m0 pgdir i) as Hstep.
  assert (0 <= i < NPDENTRIES) as Hir by lia.
  destruct (testf (pde_at m0 pgdir i) PTE_P) eqn:Hp.
  - set (t := tab m0 pgdir i). assert (pde_present m0 pgdir i) as Hpres by by split.
    destruct (wf_tab _ _ Hwf i Hpres) as [Hv Hne].
    assert (~ In t l) as Htl by (apply Hout, Hstep; [done|]; by left).
    destruct (kfree_run s l t Hf Hv Htl) as (s1 & Hk & Hf1 & Hso & _).
    rewrite (bind_OK _ _ _ _ _ Hk).
    destruct (IH (i + 1) s1 (t :: l)) as (s' & l' & Hr & Hf' & Hpg' & Hl' & Hq); [done| | |lia|lia| |].
    { eapply page_eq_trans; [done|]. apply (same_outside_page_eq t); [done|done|exact (wf_pgdir _ _ Hwf)|by intros E; apply Hne]. }
    { intros [E|?]; [by apply Hne|done]. }
    { intros w Hw [<-|Hin].
      - destruct Hw as (j & Hj & Hpj & E). assert (i = j) by (by apply (wf_inj _ _ Hwf)). lia.
      - apply (Hout w); [|done]. apply Hstep; [done|]. by right. }
    exists s', l'. split; [done|]. split; [done|]. split; [done|]. split.
    + intros w. rewrite Hl', Hstep by done. simpl. fold t. intuition congruence.
    + intros w Hw Hn'. eapply page_eq_trans; [|by apply Hq].
      apply (same_outside_page_eq t); try done. intros ->. apply Hn', Hl'. by left; left.
  - rewrite bind_ret.
    destruct (IH (i + 1) s l) as (s' & l' & Hr & Hf' & Hpg' & Hl' & Hq); try done; [lia|lia| |].
    { intros w Hw. apply Hout, Hstep; [done|]. by right. }
    exists s', l'. split; [done|]. split; [done|]. split; [done|]. split; [|done].
    intros w. rewrite Hl', Hstep by done. intuition congruence.
Qed.

(** freevm of an address space whose user pages are its own: exactly its page
    tables, its directory and its user pages go to the free list. *)
Lemma freevm_run s pgdir l :
  uspace s pgdir l -> unshared_in (ram s) pgdir 0 KERNBASE ->
  exists s' l', freevm pgdir s = OK tt s' /\ free_list s' l'
    /\ (forall w, In w l' <-> In w l \/ owns (ram s) pgdir w \/ frames_in (ram s) pgdir 0 KERNBASE w)
    /\ (forall w, valid_page w -> ~ In w l' -> page_eq w (ram s) (ram s')).
Proof.
  intros Hus Hun. pose proof (us_as _ _ _ Hus) as [Hf Hwf Hd].
  unfold freevm. rewrite (proj2 (Z.eqb_neq _ _)) by (apply valid_page_nonzero, Hwf).
  assert (PGROUNDUP 0 = 0) as E0 by done. assert (PGROUNDUP KERNBASE = KERNBASE) as EK by done.
  destruct (deallocuvm_run s pgdir KERNBASE 0 l Hus) as (s1 & l1 & Hr1 & Hsh); [ulia|done|by rewrite E0, EK|].
  rewrite E0, EK in Hsh. rewrite (bind_OK _ _ _ _ _ Hr1).
  pose proof (us_as _ _ _ (sh_us _ _ _ _ _ _ _ Hsh)) as [Hf1 Hwf1 Hd1].
  destruct (free_tables_run (ram s1) pgdir (Z.to_nat NPDENTRIES) 0 s1 l1) as (s2 & l2 & Hr2 & Hf2 & Hpg2 & Hl2 & Hq2);
    [done|done|apply page_eq_refl|apply Hd1, owns_pgdir|done|done| |].
  { intros w (j & _ & Hp & ->). apply Hd1. right. by exists j. }
  rewrite (bind_OK _ _ _ _ _ Hr2).
  assert (~ In pgdir l2) as Hnin.
  { rewrite Hl2. intros [Hin|(j & _ & Hp & E)]; [by apply (Hd1 pgdir); [apply owns_pgdir|]|].
    by destruct (wf_tab _ _ Hwf1 j Hp) as [_ []]. }
  destruct (kfree_run s2 l2 pgdir Hf2 (wf_pgdir _ _ Hwf) Hnin) as (s3 & Hr3 & Hf3 & Hso & _).
  exists s3, (pgdir :: l2). split; [done|]. split; [done|].
  assert (forall w, In w (pgdir :: l2) <-> In w l \/ owns (ram s) pgdir w \/ frames_in (ram s) pgdir 0 KERNBASE w) as Hall.
  { intros w. rewrite <- (sh_owns _ _ _ _ _ _ _ Hsh w). simpl. rewrite Hl2, (sh_list _ _ _ _ _ _ _ Hsh w).
    unfold owns, tables_from. split.
    - intros [<-|[[?|?]|(j & _ & ?)]]; [right; left; by left|by left|by right; right|right; left; right; by exists j].
    - intros [?|[[->|(j & [Hj1 Hj2] & ?)]|?]]; [right; by left; left|by left|right; right; exists j; by split; [lia|]|right; left; by right]. }
  split; [done|]. intros w Hw Hn. rewrite Hall in Hn.
  eapply page_eq_trans; [|eapply page_eq_trans].
  - apply (sh_out _ _ _ _ _ _ _ Hsh); [done|tauto|]. rewrite (sh_list _ _ _ _ _ _ _ Hsh). tauto.
  - apply Hq2; [done|]. intros Hin. apply Hn, Hall. by right.
  - apply (same_outside_page_eq pgdir); [done|exact (wf_pgdir _ _ Hwf)|done|]. intros ->. apply Hn. right. left. apply owns_pgdir.
Qed.

(** * Mapping a range *)

Definition ksize (k : kmap_entry) : Z := u32 (phys_end k - phys_start k).
Definition in_range (k : kmap_entry) (va : Z) : bool := (virt k <=? va) && (va <? virt k + ksize k).

(** Whole pages in the kernel part of the address space. *)
Record range_ok (k : kmap_entry) : Prop := {
  ro_virt : virt k mod 4096 = 0;
  ro_phys : phys_start k mod 4096 = 0;
  ro_size : ksize k mod 4096 = 0;
  ro_kernel : KERNBASE <= virt k;
  ro_start : 0 <= phys_start k;
  ro_pos : 0 < ksize k;
  ro_vend : virt k + ksize k <= 2 ^ 32;
  ro_pend : phys_start k + ksize k <= 2 ^ 32;
  ro_perm : 0 <= kperm k < 4096;
}.

(** The entry that the range gives to an address in it. *)
Definition range_pte (k : kmap_entry) (va : Z) : Z :=
  mkpte (phys_start k + (va - va mod 4096 - virt k)) (kperm k).

Lemma in_range_iff k va : in_range k va = true <-> virt k <= va < virt k + ksize k.
Proof. unfold in_range. by rewrite andb_true_iff, Z.leb_le, Z.ltb_lt. Qed.

Lemma mappages_range k s pgdir l :
  range_ok k -> aspace s pgdir l ->
  (forall va, in_range k va = true -> mapped (ram s) pgdir va = false) ->
  exists r s' used l', mappages pgdir (virt k) (ksize k) (phys_start k) (kperm k) s = OK r s'
    /\ grows s s' pgdir l used l'
    /\ (forall va, 0 <= va < 2 ^ 32 -> in_range k va = false -> pte_of (ram s') pgdir va = pte_of (ram s) pgdir va)
    /\ (r = 0 /\ (forall va, in_range k va = true -> pte_of (ram s') pgdir va = range_pte k va)
        \/ r = -1 /\ l' = []).
Proof.
  intros [V P Z1 K S0 P0 VE PE R] Has Hun. set (n := Z.to_nat (ksize k / 4096 - 1)).
  assert (ksize k = PGSIZE * Z.of_nat (S n)) as En by (unfold n; ulia).
  destruct (mappages_loop_run n s pgdir (virt k) (phys_start k) (kperm k) l) as (r & s' & used & l' & j & Hr & Hg & Hm & Hj);
    try done; try ulia.
  { intros i Hi. apply Hun, in_range_iff. ulia. }
  exists r, s', used, l'.
  assert (mappages pgdir (virt k) (ksize k) (phys_start k) (kperm k) s =
    mappages_loop pgdir (virt k) (virt k + PGSIZE * Z.of_nat n) (phys_start k) (kperm k) (S n) s) as ->.
  { unfold mappages. rewrite !PGROUNDDOWN_eq, !u32_id by ulia.
    replace (virt k - virt k mod 4096) with (virt k) by lia.
    replace (virt k + ksize k - 1 - (virt k + ksize k - 1) mod 4096) with (virt k + PGSIZE * Z.of_nat n) by ulia.
    replace (virt k + PGSIZE * Z.of_nat n - virt k) with (PGSIZE * Z.of_nat n) by lia.
    replace (Z.to_nat (PGSIZE * Z.of_nat n / PGSIZE)) with n by ulia. done. }
  split; [done|]. split; [done|]. destruct Hm as [Hm1 Hm2]. split.
  - intros va Hva Hr'. apply Hm2. intros i Hi. rewrite u32_id by done. intros E.
    apply not_true_iff_false in Hr'. apply Hr', in_range_iff. destruct Hj as [[_ ->]|(_ & ? & _)]; ulia.
  - destruct Hj as [[-> ->]|(-> & _ & ->)]; [left|by right]. split; [done|]. intros va Hva%in_range_iff.
    rewrite (pte_of_page _ _ va (virt k + PGSIZE * ((va - virt k) / 4096))) by (rewrite !u32_id by ulia; ulia).
    rewrite Hm1 by ulia. unfold range_pte. f_equal. ulia.
Qed.

(** * setupkvm *)

(** The kernel entries: the entry of the first range of the table that holds
    the address. *)
Fixpoint kernel_pte (ks : list kmap_entry) (va : Z) : option Z :=
  match ks with
  | [] => None
  | k :: ks => if in_range k va then Some (range_pte k va) else kernel_pte ks va
  end.

Definition disjoint_ranges (k k' : kmap_entry) : Prop :=
  virt k + ksize k <= virt k' \/ virt k' + ksize k' <= virt k.

Fixpoint ranges_ok (ks : list kmap_entry) : Prop :=
  match ks with [] => True | k :: ks => range_ok k /\ Forall (disjoint_ranges k) ks /\ ranges_ok ks end.

(** The sizes of the ranges of kmap. *)
Lemma kmap_sizes :
  V2P kdata = kdata - KERNBASE /\ u32 (V2P kdata - EXTMEM) = kdata - KERNLINK /\
  u32 (PHYSTOP - V2P kdata) = PHYSTOP + KERNBASE - kdata.
Proof.
  pose proof link_order as Hlo. pose proof kend_low as Hkl. unfold KERNLINK in *.
  assert (V2P kdata = kdata - KERNBASE) as -> by (unfold V2P; rewrite (u32_id kdata) by ulia; apply u32_id; ulia).
  split; [done|]. by rewrite !u32_id by ulia; split; lia.
Qed.

Lemma kmap_ok : ranges_ok kmap.
Proof.
  pose proof link_order as Hlo. pose proof kdata_aligned as Hal. pose proof kend_low as Hkl.
  destruct kmap_sizes as (E2 & E4 & E5). assert (V2P KERNLINK = EXTMEM) as E1 by done.
  assert (u32 (0 - DEVSPACE) = 0x2000000) as E3 by done. assert (u32 (EXTMEM - 0) = EXTMEM) as E6 by done.
  unfold kmap. simpl ranges_ok. rewrite E1.
  repeat match goal with |- _ /\ _ => split | |- Forall _ _ => constructor | |- range_ok _ => split | |- True => exact I end;
    unfold disjoint_ranges, ksize; cbn [virt phys_start phys_end kperm]; rewrite ?E4, ?E5, ?E6, ?E3, ?E2;
    unfold KERNLINK, PTE_W in *; try ulia.
Qed.

Lemma kernel_pte_user ks va : ranges_ok ks -> uva va -> kernel_pte ks va = None.
Proof.
  intros H Hu. induction ks as [|k ks IH]; [done|]. destruct H as ([? ? ? K ? ? ? ? ?] & _ & H). simpl.
  destruct (in_range k va) eqn:E; [|by apply IH]. apply in_range_iff in E. unfold uva in Hu. lia.
Qed.

Definition no_user (m : memory) (pgdir : Z) : Prop := forall va, uva va -> mapped m pgdir va = false.

Lemma no_user_uspace s pgdir l :
  aspace s pgdir l -> no_user (ram s) pgdir -> uspace s pgdir l /\ unshared_in (ram s) pgdir 0 KERNBASE.
Proof.
  intros Has Hno. split; [split; [done| |]|].
  - intros va Hu Hm. by rewrite Hno in Hm.
  - intros va Hu Hm. by rewrite Hno in Hm.
  - intros va Hu _ Hm. by rewrite Hno in Hm.
Qed.

(** An empty directory in a page from the allocator. *)
Lemma new_pgdir s x l :
  free_list s (x :: l) ->
  let s1 := set_ram (fun m => fill m x 0 PGSIZE) (set_freelist (load32 (ram s) x) s) in
  aspace s1 x l /\ (forall va, pte_of (ram s1) x va = 0) /\ (forall w, owns (ram s1) x w -> w = x)
  /\ (forall w, valid_page w -> w <> x -> page_eq w (ram s) (ram s1)).
Proof.
  intros Hf s1. destruct (kalloc_run s (x :: l) Hf) as [_ Hf1]. simpl in Hf1.
  pose proof (free_list_valid _ _ Hf) as [Hx _]%Forall_cons. pose proof Hf as (_ & Hnd & _).
  apply NoDup_cons in Hnd as [Hnin _]. rewrite list_elem_of_In in Hnin.
  assert (same_outside x (ram s) (ram s1)) as Hso.
  { intros y Hy. simpl. by rewrite load8_fill_ne by lia. }
  assert (forall i, 0 <= i < NPDENTRIES -> pde_at (ram s1) x i = 0) as Hpde.
  { intros i Hi. unfold pde_at. simpl. apply load32_fill_0; ulia. }
  assert (forall i, ~ pde_present (ram s1) x i) as Hnp.
  { intros i [Hi Hp]. by rewrite Hpde in Hp. }
  split; [split|split; [|split]].
  - pose proof (free_list_frame _ x (ram s1) l Hf1 Hx Hnin Hso) as (? & _ & _). split; [done|]. apply Hf1.
  - split; [done| |]; intros i; [|intros j]; intros Hp; by destruct (Hnp i).
  - intros v [->|(i & Hp & _)]; [done|]. by destruct (Hnp i).
  - intros va. unfold pte_of, pte_slot. pose proof (PDX_range va). rewrite Hpde by ulia. done.
  - intros w [->|(i & Hp & _)]; [done|]. by destruct (Hnp i).
  - intros w Hw Hne. by apply (same_outside_page_eq x).
Qed.

(** What is left when a table could not be completed: everything is free. *)
Definition gave_back (s s' : pmem) (l : list Z) (P : Z -> Prop) : Prop :=
  exists l', free_list s' l' /\ (forall w, In w l' <-> In w l \/ P w) /\
    (forall w, valid_page w -> ~ In w l' -> page_eq w (ram s) (ram s')).

Lemma setupkvm_loop_run ks s pgdir l :
  ranges_ok ks -> aspace s pgdir l -> no_user (ram s) pgdir ->
  (forall k va, In k ks -> in_range k va = true -> mapped (ram s) pgdir va = false) ->
  exists r s', setupkvm_loop pgdir ks s = OK r s' /\
    ((r = pgdir /\ exists used l', grows s s' pgdir l used l' /\
        forall va, 0 <= va < 2 ^ 32 -> pte_of (ram s') pgdir va = default (pte_of (ram s) pgdir va) (kernel_pte ks va))
     \/ (r = 0 /\ gave_back s s' l (owns (ram s) pgdir))).
Proof.
  revert s l. induction ks as [|k ks IH]; intros s l Hks Has Hno Hun.
  { exists pgdir, s. split; [done|]. left. split; [done|]. exists [], l. split; [by apply grows_refl|done]. }
  destruct Hks as (Hk & Hdis & Hks). simpl. fold (ksize k).
  destruct (mappages_range k s pgdir l Hk Has) as (r & s1 & used & l1 & Hr & Hg & Hout & Hc);
    [intros va; apply (Hun k); by left|].
  rewrite (bind_OK _ _ _ _ _ Hr).
  assert (forall va, 0 <= va < KERNBASE -> in_range k va = false) as Huser.
  { intros va Hva. apply not_true_iff_false. rewrite in_range_iff. pose proof (ro_kernel _ Hk). lia. }
  assert (no_user (ram s1) pgdir) as Hno1.
  { intros va Hu. unfold mapped. rewrite Hout; [by apply Hno|unfold uva in Hu; ulia|by apply Huser]. }
  destruct Hc as [[-> Hin]|[-> ->]]; simpl.
  - destruct (IH s1 l1 Hks (gr_as _ _ _ _ _ _ Hg) Hno1) as (r & s2 & Hr2 & Hc2).
    { intros k' va Hk' Hva. unfold mapped. pose proof Hva as Hva'%in_range_iff.
      apply list_elem_of_In in Hk' as Hk''. pose proof (proj1 (Forall_forall _ _) Hdis k' Hk'') as Hd. unfold disjoint_ranges in Hd.
      rewrite Hout; [apply (Hun k'); [by right|done]| |].
      - assert (range_ok k') as [? ? ? ? ? ? ? ? ?]; [|ulia]. clear - Hks Hk'. induction ks as [|a ks IH]; [done|].
        destruct Hks as (? & _ & ?), Hk' as [<-|?]; auto.
      - apply not_true_iff_false. rewrite in_range_iff. lia. }
    exists r, s2. split; [done|]. destruct Hc2 as [(-> & used2 & l2 & Hg2 & Hp2)|(-> & l' & Hf' & Hl' & Hq)].
    + left. split; [done|]. exists (used ++ used2), l2. split; [by eapply grows_trans|].
      intros va Hva. rewrite Hp2 by done. destruct (in_range k va) eqn:E; [|by rewrite Hout].
      assert (kernel_pte ks va = None) as ->; [|simpl; by rewrite Hin].
      clear - Hdis E. induction ks as [|k' ks IH]; [done|]. apply Forall_cons in Hdis as [Hd Hdis]. simpl.
      destruct (in_range k' va) eqn:E'; [|by apply IH]. apply in_range_iff in E, E'. unfold disjoint_ranges in Hd. lia.
    + right. split; [done|]. exists l'. split; [done|]. destruct Hg as [-> Hg2 Ho Hn Hu Hq1].
      assert (forall w, In w l' <-> In w (used ++ l1) \/ owns (ram s) pgdir w) as Hall.
      { intros w. rewrite Hl', in_app_iff. specialize (Ho w). specialize (Hn w). specialize (Hu w). tauto. }
      split; [done|]. intros w Hw Hn'. rewrite Hall in Hn'. eapply page_eq_trans; [apply Hq1; tauto|]. apply Hq; [done|]. by rewrite Hall.
  - destruct (no_user_uspace _ _ _ (gr_as _ _ _ _ _ _ Hg) Hno1) as [Hus Hus'].
    destruct (freevm_run s1 pgdir [] Hus Hus') as (s2 & l2 & Hr2 & Hf2 & Hl2 & Hq2).
    rewrite (bind_OK _ _ _ _ _ Hr2). exists 0, s2. split; [done|]. right. split; [done|]. exists l2. split; [done|].
    destruct Hg as [-> Hg2 Ho Hn Hu Hq1]. rewrite app_nil_r in *.
    assert (forall w, In w l2 <-> In w used \/ owns (ram s) pgdir w) as Hall.
    { intros w. rewrite Hl2. specialize (Ho w). specialize (Hn w). specialize (Hu w). simpl.
      assert (~ frames_in (ram s1) pgdir 0 KERNBASE w) by (intros (va & Hva & _ & Hm & _); by rewrite Hno1 in Hm). tauto. }
    split; [done|]. intros w Hw Hn'. rewrite Hall in Hn'. eapply page_eq_trans; [apply Hq1; tauto|]. apply Hq2; [done|]. by rewrite Hall.
Qed.

(** What kmap says of an address. *)
Ltac kmap_lookup :=
  pose proof link_order as Hlo; destruct kmap_sizes as (E2 & E4 & E5);
  assert (V2P KERNLINK = EXTMEM) as E1 by done; assert (u32 (0 - DEVSPACE) = 0x2000000) as E3 by done;
  assert (u32 (EXTMEM - 0) = EXTMEM) as E6 by done; pose proof kend_low as Hkl;
  cbn [kernel_pte kmap]; rewrite E1;
  unfold in_range, range_pte, ksize; cbn [virt phys_start phys_end kperm]; rewrite ?E4, ?E5, ?E6, ?E3, ?E2;
  unfold KERNLINK in *;
  repeat match goal with
  | |- context [(?a <=? ?b) && (?c <? ?d)] =>
    destruct (Z.leb_spec a b), (Z.ltb_spec c d); cbn [andb]; try (exfalso; ulia)
  end.

Lemma kernel_pte_linear pa :
  0 <= pa < PHYSTOP ->
  kernel_pte kmap (KERNBASE + pa) =
    Some (mkpte (pa - pa mod 4096) (if (EXTMEM <=? pa) && (KERNBASE + pa <? kdata) then 0 else PTE_W)).
Proof. intros Hpa. kmap_lookup; do 2 f_equal; ulia. Qed.

Lemma kernel_pte_dev va : DEVSPACE <= va < 2 ^ 32 -> kernel_pte kmap va = Some (mkpte (va - va mod 4096) PTE_W).
Proof. intros Hva. kmap_lookup; do 2 f_equal; ulia. Qed.

Lemma kernel_pte_none va :
  0 <= va < KERNBASE \/ KERNBASE + PHYSTOP <= va < DEVSPACE -> kernel_pte kmap va = None.
Proof. intros Hva. by kmap_lookup. Qed.

(** A page table for the kernel alone: its pages came from the free list, the
    kernel addresses have the entries of kmap, and no other page changed. *)
Record kernel_space (s s' : pmem) (pgdir : Z) (l used l' : list Z) : Prop := {
  ks_list : l = pgdir :: used ++ l';
  ks_as : aspace s' pgdir l';
  ks_owns : forall w, owns (ram s') pgdir w <-> w = pgdir \/ In w used;
  ks_pte : forall va, 0 <= va < 2 ^ 32 -> pte_of (ram s') pgdir va = default 0 (kernel_pte kmap va);
  ks_out : forall w, valid_page w -> ~ In w l -> page_eq w (ram s) (ram s');
}.

Lemma ks_no_user s s' pgdir l used l' : kernel_space s s' pgdir l used l' -> no_user (ram s') pgdir.
Proof.
  intros [_ _ _ Hp _] va Hu. unfold mapped. rewrite Hp by (unfold uva in Hu; ulia).
  by rewrite (kernel_pte_user _ _ kmap_ok Hu).
Qed.

Lemma setupkvm_run s l :
  free_list s l ->
  exists r s', setupkvm s = OK r s' /\
    ((r <> 0 /\ exists used l', kernel_space s s' r l used l') \/
     (r = 0 /\ gave_back s s' l (fun _ => False))).
Proof.
  intros Hf. destruct (kalloc_run s l Hf) as [Hk Hf1]. unfold setupkvm. rewrite (bind_OK _ _ _ _ _ Hk).
  destruct l as [|x l]; simpl hd in *; simpl tl in *.
  { simpl. exists 0, (set_freelist 0 s). split; [done|]. right. split; [done|]. exists []. split; [done|].
    split; [intros w; tauto|]. intros. apply page_eq_refl. }
  pose proof (free_list_valid _ _ Hf) as [Hx _]%Forall_cons.
  rewrite (proj2 (Z.eqb_neq _ _)) by by apply valid_page_nonzero.
  unfold memset_. rewrite bind_modify. change (DEVSPACE <? P2V PHYSTOP) with false. cbv iota.
  destruct (new_pgdir s x l Hf) as (Has & Hp0 & Ho & Hq). set (s1 := set_ram _ _) in *.
  destruct (setupkvm_loop_run kmap s1 x l kmap_ok Has) as (r & s2 & Hr & Hc).
  { intros va _. unfold mapped. by rewrite Hp0. }
  { intros k va _ _. unfold mapped. by rewrite Hp0. }
  exists r, s2. split; [done|]. destruct Hc as [(-> & used & l' & Hg & Hp)|(-> & l' & Hf' & Hl' & Hq')].
  - left. split; [by apply valid_page_nonzero|]. exists used, l'. destruct Hg as [-> Has2 Ho1 Hn1 Hu1 Hq1]. split; [done|done| | |].
    + intros w. split; [intros [?%Ho|?]%Hn1; tauto|]. intros [->|?]; [apply owns_pgdir|auto].
    + intros va Hva. by rewrite Hp, Hp0.
    + intros w Hw Hn. simpl in Hn. eapply page_eq_trans; [apply Hq; [done|]; intros ->; tauto|].
      apply Hq1; [done| |tauto]. intros E%Ho. subst w. tauto.
  - right. split; [done|]. exists l'.
    assert (forall w, In w l' <-> In w (x :: l) \/ False) as Hall.
    { intros w. rewrite Hl'. simpl. split; [intros [?|E%Ho]; [tauto|subst w; tauto]|]. intros [[->|?]|[]]; [right; apply owns_pgdir|by left]. }
    split; [done|]. split; [done|]. intros w Hw Hn. pose proof Hn as Hn2. rewrite Hall in Hn2. simpl in Hn2.
    eapply page_eq_trans; [apply Hq; [done|]; intros ->; tauto|]. by apply Hq'.
Qed.


End kernel.

