(* ===== verification/VmCopy.v ===== *)
(** copyuvm, which gives the child of fork a copy of the user memory of its
    parent. *)

From S2P Require Import Prelude Mmu Str Kalloc Vm VmFacts VmUser VmKernel.

Section copy.
Context `{L : Link}.
(** The parent, in the state in which copyuvm is called. *)
Context (s0 : pmem) (pgdir : Z) (l0 : list Z).
Context (Hpar : uspace s0 pgdir l0).

(** The page of [va] in [d] is a copy of the parent's, with the same flags. *)
Definition page_copied (s : pmem) (d va : Z) : Prop :=
  let f := frame (ram s) d va in
  pte_of (ram s) d va = mkpte (V2P f) (PTE_FLAGS (pte_of (ram s0) pgdir va)) /\
  forall o, 0 <= o < PGSIZE -> load8 (ram s) (f + o) = load8 (ram s0) (frame (ram s0) pgdir va + o).

(** What holds when the pages below [i] are copied: [l] is free, [held] is in
    the hands of the caller, and every page that was free is accounted for. *)
Record copies (s : pmem) (d : Z) (l : list Z) (i : Z) (held : list Z) : Prop := {
  cp_us : uspace s d l;
  cp_inj : unshared_in (ram s) d 0 KERNBASE;
  cp_acc : forall w, In w l0 <->
    In w l \/ owns (ram s) d w \/ frames_in (ram s) d 0 KERNBASE w \/ In w held;
  cp_out : forall w, valid_page w -> ~ In w l0 -> page_eq w (ram s0) (ram s);
  cp_kernel : forall va, KERNBASE <= va < 2 ^ 32 -> pte_of (ram s) d va = default 0 (kernel_pte kmap va);
  cp_done : forall va, 0 <= va < i -> page_copied s d va;
  cp_rest : forall va, i <= va < KERNBASE -> mapped (ram s) d va = false;
}.

(** The parent is not touched. *)
Lemma parent_kept s : (forall w, valid_page w -> ~ In w l0 -> page_eq w (ram s0) (ram s)) ->
  pt_frame (ram s0) (ram s) pgdir.
Proof.
  intros Hout w Hw. apply Hout; [by eapply owns_valid; [apply Hpar|]|]. by apply (as_disj _ _ _ (us_as _ _ _ Hpar)).
Qed.

Lemma copies_init s d used l :
  kernel_space s0 s d l0 used l -> copies s d l 0 [].
Proof.
  intros Hk. pose proof (ks_no_user _ _ _ _ _ _ Hk) as Hno. destruct Hk as [E Has Ho Hp Hq].
  destruct (no_user_uspace _ _ _ Has Hno) as [Hus Hun]. split; try done.
  - intros w. rewrite E, Ho. simpl. rewrite in_app_iff.
    assert (~ frames_in (ram s) d 0 KERNBASE w) by (intros (va & Hu & _ & Hm & _); by rewrite Hno in Hm).
    intuition congruence.
  - intros va Hva. apply Hp. ulia.
  - lia.
Qed.

(** Taking a page and copying the parent's into it. *)
Lemma copies_take s d l i x l1 s1 :
  copies s d l i [] -> 0 <= i -> i < KERNBASE -> mapped (ram s0) pgdir i = true -> l = x :: l1 -> ram s1 = ram s ->
  uspace s1 d l1 -> fresh s1 d l1 x ->
  let s2 := set_ram (fun m => copy m x (frame (ram s0) pgdir i) PGSIZE) s1 in
  copies s2 d l1 i [x] /\ fresh s2 d l1 x /\
  forall o, 0 <= o < PGSIZE -> load8 (ram s2) (x + o) = load8 (ram s0) (frame (ram s0) pgdir i + o).
Proof.
  intros [A B C D E F G] Hi HiK Hm -> Hr Hu1 Hf1 s2. pose proof (fr_valid _ _ _ _ Hf1) as Hx.
  destruct (us_frame _ _ _ Hpar i ltac:(unfold uva; lia) Hm) as (Hfv & _ & Hfl).
  set (src := frame (ram s0) pgdir i) in *.
  assert (same_outside x (ram s1) (copy (ram s1) x src PGSIZE)) as Hso.
  { intros y Hy. apply load8_copy_ne. lia. }
  destruct (uspace_write _ _ _ _ _ Hu1 Hf1 Hso) as (Hu2 & Hf2 & Hpf).
  change (set_ram (fun _ => copy (ram s1) x src PGSIZE) s1) with s2 in Hu2, Hf2. rewrite Hr in Hpf.
  assert (forall v, valid_page v -> v <> x -> page_eq v (ram s) (ram s2)) as Hpe.
  { intros v Hv Hne. rewrite <- Hr. eapply same_outside_page_eq; [exact Hso|done|done|done]. }
  assert (forall va, pte_of (ram s2) d va = pte_of (ram s) d va) as Hp.
  { intros va. unfold s2. simpl. rewrite Hr. apply (pte_frame _ _ _ _ Hpf). }
  assert (forall w, frames_in (ram s2) d 0 KERNBASE w <-> frames_in (ram s) d 0 KERNBASE w) as Hfi.
  { intros w. unfold frames_in, mapped, frame. by setoid_rewrite Hp. }
  split; [|split; [done|]].
  - split; [done| | | | | |].
    + intros va Hu Hrg Hmv va' Hu'. unfold mapped, frame in *. rewrite !Hp in *. by apply (B va).
    + intros w. rewrite C, Hfi. assert (owns (ram s2) d w <-> owns (ram s) d w) as ->.
      { unfold s2. simpl. rewrite Hr. apply (owns_frame _ _ _ _ Hpf). }
      simpl. tauto.
    + intros w Hw Hn. eapply page_eq_trans; [by apply D|]. apply Hpe; [done|].
      intros ->. apply Hn, C. left. by left.
    + intros va Hva. rewrite Hp. by apply E.
    + intros va Hva. destruct (F va Hva) as [F1 F2]. unfold page_copied, frame in *. rewrite Hp. split; [done|].
      intros o Ho. rewrite <- F2 by done.
      assert (mapped (ram s) d va = true) as Hmv by (unfold mapped; rewrite F1; apply mkpte_P).
      destruct (us_frame _ _ _ A va ltac:(unfold uva; lia) Hmv) as (Hv & _ & Hl).
      apply (Hpe (frame (ram s) d va)); [done| |unfold frame; lia]. intros Heq. apply Hl. rewrite Heq. by left.
    + intros va Hva. unfold mapped. rewrite Hp. by apply G.
  - intros o Ho. unfold s2. simpl. rewrite load8_copy_eq by lia. replace (src + (x + o - x)) with (src + o) by lia.
    rewrite Hr. apply (D src); [done|done|lia].
Qed.

Lemma PTE_FLAGS_range e : 0 <= PTE_FLAGS e < 4096.
Proof. rewrite PTE_FLAGS_eq. lia. Qed.

(** New page tables keep what is copied. *)
Lemma copies_grows s d l i held s' used l' :
  copies s d l i held -> i <= KERNBASE -> grows s s' d l used l' ->
  (forall va, pte_of (ram s') d va = pte_of (ram s) d va) -> copies s' d l' i held.
Proof.
  intros [A B C D E F G] HiK Hg Hp. pose proof (uspace_same _ _ _ _ _ _ A Hg Hp) as Hus.
  destruct Hg as [-> H2 H3 H4 H5 H6]. split; [done| | | | | |].
  - intros va Hu Hrg Hmv va' Hu'. unfold mapped, frame in *. rewrite !Hp in *. by apply (B va).
  - intros w. rewrite C, in_app_iff. unfold frames_in, mapped, frame. setoid_rewrite Hp.
    specialize (H3 w). specialize (H4 w). specialize (H5 w). tauto.
  - intros w Hw Hn. eapply page_eq_trans; [by apply D|]. rewrite C, in_app_iff in Hn. apply H6; [done|tauto|rewrite in_app_iff; tauto].
  - intros va Hva. rewrite Hp. by apply E.
  - intros va Hva. destruct (F va Hva) as [F1 F2]. unfold page_copied, frame in *. rewrite Hp. split; [done|].
    intros o Ho. rewrite <- F2 by done.
    assert (mapped (ram s) d va = true) as Hmv by (unfold mapped; rewrite F1; apply mkpte_P).
    destruct (us_frame _ _ _ A va ltac:(unfold uva; lia) Hmv) as (Hv & Ho' & Hl).
    apply (H6 (frame (ram s) d va)); [done|done|done|unfold frame; lia].
  - intros va Hva. unfold mapped. rewrite Hp. by apply G.
Qed.

(** The page in hand becomes the page of [i]. *)
Lemma copies_mapped s d l i x s' used l' :
  let fl := PTE_FLAGS (pte_of (ram s0) pgdir i) in
  copies s d l i [x] -> fresh s d l x -> 0 <= i -> i mod 4096 = 0 -> i + PGSIZE <= KERNBASE ->
  (forall o, 0 <= o < PGSIZE -> load8 (ram s) (x + o) = load8 (ram s0) (frame (ram s0) pgdir i + o)) ->
  grows s s' d l used l' ->
  (forall va, u32 va / 4096 = i / 4096 -> pte_of (ram s') d va = mkpte (V2P x) fl) ->
  (forall va, u32 va / 4096 <> i / 4096 -> pte_of (ram s') d va = pte_of (ram s) d va) ->
  copies s' d l' (i + PGSIZE) [].
Proof.
  intros fl [A B C D E F G] Hf Hi Him HiK Hc Hg He Hne.
  assert (mapped (ram s) d i = false) as Hun by (apply G; ulia).
  destruct (uspace_map s s' d l used l' i x fl) as [Hus Hfx]; try done.
  { apply PTE_FLAGS_range. }
  { unfold uva. ulia. }
  destruct Hf as [X1 X2 X3 X4]. destruct Hg as [-> H2 H3 H4 H5 H6].
  assert (forall va, uva va -> va / 4096 <> i / 4096 -> pte_of (ram s') d va = pte_of (ram s) d va) as Hold.
  { unfold uva. intros va Hu Hq. apply Hne. by rewrite u32_id by ulia. }
  assert (forall va, uva va -> va / 4096 = i / 4096 -> mapped (ram s') d va = true) as Hnew.
  { unfold uva, mapped. intros va Hu Hq. rewrite He by (by rewrite u32_id by ulia). apply mkpte_P. }
  assert (forall w, frames_in (ram s') d 0 KERNBASE w <-> frames_in (ram s) d 0 KERNBASE w \/ w = x) as Hfi.
  { intros w. split.
    - intros (va & Hu & Hrg & Hm & ->). destruct (decide (va / 4096 = i / 4096)) as [Hq|Hq]; [right; by apply Hfx|].
      left. exists va. unfold mapped, frame in *. rewrite Hold in * by done. done.
    - intros [(va & Hu & Hrg & Hm & ->)| ->].
      + exists va. assert (va / 4096 <> i / 4096) as Hq.
        { intros Hq. unfold mapped in *. rewrite (pte_of_page _ _ va i) in Hm by (unfold uva in Hu; rewrite !u32_id by ulia; done). congruence. }
        unfold mapped, frame in *. rewrite Hold by done. done.
      + exists i. assert (uva i) by (unfold uva; ulia). split; [done|]. split; [ulia|]. split; [by apply Hnew|by rewrite Hfx]. }
  split; [done| | | | | |].
  - intros va Hu Hrg Hmv va' Hu' Hmv' Hq'.
    assert (forall v, uva v -> mapped (ram s') d v = true -> v / 4096 <> i / 4096 ->
      mapped (ram s) d v = true /\ frame (ram s') d v = frame (ram s) d v) as Hold'.
    { intros v Hv Hm Hq. unfold mapped, frame in *. rewrite Hold in * by done. done. }
    destruct (decide (va / 4096 = i / 4096)) as [Ha|Ha], (decide (va' / 4096 = i / 4096)) as [Ha'|Ha']; [congruence|..].
    + rewrite (Hfx va Hu Ha). destruct (Hold' va' Hu' Hmv' Ha') as [? ->]. by apply X4.
    + rewrite (Hfx va' Hu' Ha'). destruct (Hold' va Hu Hmv Ha) as [? ->]. apply not_eq_sym. by apply X4.
    + destruct (Hold' va Hu Hmv Ha) as [? ->], (Hold' va' Hu' Hmv' Ha') as [? ->]. by apply (B va).
  - intros w. rewrite C, Hfi, in_app_iff. specialize (H3 w). specialize (H4 w). specialize (H5 w). simpl. intuition congruence.
  - intros w Hw Hn. eapply page_eq_trans; [by apply D|]. rewrite C, in_app_iff in Hn. apply H6; [done|tauto|rewrite in_app_iff; tauto].
  - intros va Hva. rewrite Hne by (rewrite u32_id by ulia; ulia). by apply E.
  - intros va Hva. assert (uva va) as Hu by (unfold uva; ulia). unfold page_copied.
    destruct (decide (va / 4096 = i / 4096)) as [Hq|Hq].
    + rewrite (Hfx va Hu Hq). rewrite He by (by rewrite u32_id by (unfold uva in Hu; ulia)).
      assert (pte_of (ram s0) pgdir va = pte_of (ram s0) pgdir i) as Ep.
      { apply pte_of_page. unfold uva in Hu. by rewrite !u32_id by ulia. }
      unfold frame. rewrite Ep. split; [done|]. intros o Ho. fold (frame (ram s0) pgdir i). rewrite <- Hc by done.
      apply (H6 x); [done|done|done|lia].
    + destruct (F va ltac:(ulia)) as [F1 F2]. unfold frame in *. rewrite Hold by done. split; [done|].
      intros o Ho. rewrite <- F2 by done.
      assert (mapped (ram s) d va = true) as Hmv by (unfold mapped; rewrite F1; apply mkpte_P).
      destruct (us_frame _ _ _ A va Hu Hmv) as (Hv & Ho' & Hl).
      apply (H6 (frame (ram s) d va)); [done|done|done|unfold frame; lia].
  - intros va Hva. unfold mapped. rewrite Hold by (unfold uva; ulia). apply G. ulia.
Qed.

(** Everything that was free is free again. *)
Definition restored (s : pmem) : Prop :=
  exists l, free_list s l /\ (forall w, In w l <-> In w l0) /\
    (forall w, valid_page w -> ~ In w l0 -> page_eq w (ram s0) (ram s)).

Lemma copies_undo s d l i :
  copies s d l i [] -> exists s', freevm d s = OK tt s' /\ restored s'.
Proof.
  intros [A B C D E F G]. destruct (freevm_run s d l A B) as (s' & l' & Hr & Hf & Hl & Hq).
  exists s'. split; [done|]. exists l'. split; [done|].
  assert (forall w, In w l' <-> In w l0) as Hall by (intros w; rewrite Hl, C; simpl; tauto).
  split; [done|]. intros w Hw Hn. eapply page_eq_trans; [by apply D|]. apply Hq; [done|]. by rewrite Hall.
Qed.

Lemma copies_return s d l i x :
  copies s d l i [x] -> fresh s d l x -> i <= KERNBASE ->
  exists s', kfree x s = OK tt s' /\ copies s' d (x :: l) i [].
Proof.
  intros [A B C D E F G] Hf HiK. destruct (uspace_kfree s d l x A Hf) as (s' & Hr & Hus & Hpf & Hso).
  exists s'. split; [done|].
  assert (forall va, pte_of (ram s') d va = pte_of (ram s) d va) as Hp by (intros va; apply (pte_frame _ _ _ _ Hpf)).
  pose proof (fr_valid _ _ _ _ Hf) as Hx.
  assert (forall v, valid_page v -> v <> x -> page_eq v (ram s) (ram s')) as Hpe.
  { intros v Hv Hne. by apply (same_outside_page_eq x). }
  split; [done| | | | | |].
  - intros va Hu Hrg Hmv va' Hu'. unfold mapped, frame in *. rewrite !Hp in *. by apply (B va).
  - intros w. rewrite C, (owns_frame _ _ _ _ Hpf). unfold frames_in, mapped, frame. setoid_rewrite Hp. simpl. tauto.
  - intros w Hw Hn. eapply page_eq_trans; [by apply D|]. apply Hpe; [done|]. intros ->. apply Hn, C. simpl. tauto.
  - intros va Hva. rewrite Hp. by apply E.
  - intros va Hva. destruct (F va Hva) as [F1 F2]. unfold page_copied, frame in *. rewrite Hp. split; [done|].
    intros o Ho. rewrite <- F2 by done.
    assert (mapped (ram s) d va = true) as Hmv by (unfold mapped; rewrite F1; apply mkpte_P).
    destruct (us_frame _ _ _ A va ltac:(unfold uva; lia) Hmv) as (Hv & Ho' & Hl).
    apply (Hpe (frame (ram s) d va)); [done| |unfold frame; lia].
    intros Heq. by apply (fr_user _ _ _ _ Hf va ltac:(unfold uva; lia) Hmv).
  - intros va Hva. unfold mapped. rewrite Hp. by apply G.
Qed.

(** One page. *)
Lemma copies_map s d l i x :
  let fl := PTE_FLAGS (pte_of (ram s0) pgdir i) in
  copies s d l i [x] -> fresh s d l x -> 0 <= i -> i mod 4096 = 0 -> i + PGSIZE <= KERNBASE ->
  (forall o, 0 <= o < PGSIZE -> load8 (ram s) (x + o) = load8 (ram s0) (frame (ram s0) pgdir i + o)) ->
  exists r s' l', mappages d i PGSIZE (V2P x) fl s = OK r s' /\
    (r = 0 /\ copies s' d l' (i + PGSIZE) [] \/ r = -1 /\ copies s' d l' i [x] /\ fresh s' d l' x).
Proof.
  intros fl Hcp Hf Hi Him HiK Hc. rewrite mappages_page by ulia.
  destruct (V2P_page_pte x (fr_valid _ _ _ _ Hf)) as [Hp1 Hp2].
  destruct (map1_run s d i (V2P x) fl l) as (r & s' & used & l' & Hr & Hg & Hcase);
    [apply Hcp|ulia|done|apply PTE_FLAGS_range|apply Hcp; ulia|].
  rewrite (bind_OK _ _ _ _ _ Hr). rewrite (u32_id i) in Hcase by ulia.
  destruct Hcase as [(-> & -> & Hp)|(-> & He & Hne)].
  - exists (-1), s', l'. split; [done|]. right. split; [done|]. split; [eapply copies_grows; try done; ulia | by eapply fresh_grows].
  - exists 0, s', l'. split; [done|]. left. split; [done|]. by eapply copies_mapped.
Qed.

Lemma copyuvm_loop_run fuel s d l i sz :
  copies s d l i [] -> 0 <= i -> i mod 4096 = 0 -> sz <= KERNBASE -> i <= PGROUNDUP sz -> 0 <= sz ->
  (forall va, 0 <= va < sz -> mapped (ram s0) pgdir va = true) -> sz - i <= PGSIZE * Z.of_nat fuel ->
  exists r s', copyuvm_loop pgdir d i sz fuel s = OK r s' /\
    ((r = d /\ exists l', copies s' d l' (PGROUNDUP sz) []) \/ (r = 0 /\ restored s')).
Proof.
  revert s l i. induction fuel as [|fuel IH]; intros s l i Hcp Hi Him HsK Hih Hs0 Hall Hfu; simpl.
  all: rewrite (PGROUNDUP_eq sz) in * by ulia.
  { rewrite (proj2 (Z.ltb_ge _ _)) by lia. exists d, s. split; [done|]. left. split; [done|]. exists l.
    by replace ((sz + 4095) / 4096 * 4096) with i by ulia. }
  destruct (Z.ltb_spec i sz) as [Hlt|Hge].
  2: { exists d, s. split; [done|]. left. split; [done|]. exists l. by replace ((sz + 4095) / 4096 * 4096) with i by ulia. }
  pose proof (parent_kept s (cp_out _ _ _ _ _ Hcp)) as Hpk.
  assert (mapped (ram s0) pgdir i = true) as Hm by (apply Hall; lia).
  assert (pte_slot (ram s) pgdir i <> 0) as Hsl.
  { rewrite (slot_frame _ _ _ _ Hpk). intros Hz. unfold mapped in Hm. by rewrite (pte_unmapped_none _ _ _ Hz) in Hm. }
  rewrite (bind_OK _ _ _ _ _ (walk_noalloc pgdir i s)), (proj2 (Z.eqb_neq _ _) Hsl). unfold ld. rewrite bind_gets.
  rewrite (pte_of_slot _ _ _ Hsl), (pte_frame _ _ _ _ Hpk). unfold mapped in Hm. rewrite Hm. change (negb true) with false. cbv iota zeta.
  destruct (kalloc_user s d l (cp_us _ _ _ _ _ Hcp)) as [(-> & s1 & Hk & Hr & Hu)|(x & l1 & s1 & -> & Hk & Hr & Hu & Hf)];
    rewrite (bind_OK _ _ _ _ _ Hk).
  - rewrite Z.eqb_refl. destruct (copies_undo s1 d [] i) as (s2 & Hr2 & Hre).
    { destruct Hcp. split; rewrite ?Hr; try done. intros va Hva. unfold page_copied. rewrite Hr. by apply cp_done0. }
    rewrite (bind_OK _ _ _ _ _ Hr2). exists 0, s2. split; [done|]. by right.
  - rewrite (proj2 (Z.eqb_neq _ _)) by (apply valid_page_nonzero, Hf). unfold memmove_. rewrite bind_modify.
    destruct (copies_take s d (x :: l1) i x l1 s1 Hcp) as (Hcp2 & Hf2 & Hc2); try done; [ulia|].
    fold (frame (ram s0) pgdir i). set (s2 := set_ram _ s1) in *.
    destruct (copies_map s2 d l1 i x Hcp2 Hf2) as (r & s3 & l3 & Hr3 & Hcase); try done; [ulia|].
    rewrite (bind_OK _ _ _ _ _ Hr3). destruct Hcase as [[-> Hcp3]|(-> & Hcp3 & Hf3)]; simpl.
    + rewrite u32_id by ulia. destruct (IH s3 l3 (i + PGSIZE) Hcp3) as (r & s4 & Hr4 & Hres); try ulia; [done|].
      by exists r, s4.
    + destruct (copies_return s3 d l3 i x Hcp3 Hf3) as (s4 & Hr4 & Hcp4); [ulia|]. rewrite (bind_OK _ _ _ _ _ Hr4).
      destruct (copies_undo s4 d _ i Hcp4) as (s5 & Hr5 & Hre). rewrite (bind_OK _ _ _ _ _ Hr5).
      exists 0, s5. split; [done|]. by right.
Qed.

(** * The result *)

(** [d] is a copy of the parent's memory up to [sz], in pages that were free:
    it has an entry for the pages below [sz] and for the kernel only, and the
    parent is as it was. *)
Record forked (s : pmem) (d sz : Z) (l : list Z) : Prop := {
  fk_child : uspace s d l;
  fk_parent : uspace s pgdir l;
  fk_copied : forall va, 0 <= va < PGROUNDUP sz -> page_copied s d va;
  fk_private : forall va, 0 <= va < PGROUNDUP sz -> In (frame (ram s) d va) l0;
  fk_rest : forall va, PGROUNDUP sz <= va < KERNBASE -> mapped (ram s) d va = false;
  fk_kernel : forall va, KERNBASE <= va < 2 ^ 32 -> pte_of (ram s) d va = default 0 (kernel_pte kmap va);
  fk_same : forall va, pte_of (ram s) pgdir va = pte_of (ram s0) pgdir va;
  fk_memory : forall w, valid_page w -> ~ In w l0 -> page_eq w (ram s0) (ram s);
}.

Lemma parent_uspace s d l i : copies s d l i [] -> uspace s pgdir l.
Proof.
  intros [A B C D E F G]. pose proof (parent_kept s D) as Hpf. destruct Hpar as [Has Hfr Hsh].
  assert (forall w, In w l -> In w l0) as Hsub by (intros w Hw; apply C; by left).
  split.
  - split; [apply A|eapply wf_frame; [done|apply Has]|].
    intros v Hv Hin. rewrite (owns_frame _ _ _ _ Hpf) in Hv. by apply (as_disj _ _ _ Has v Hv), Hsub.
  - intros va Hu. unfold mapped, frame. rewrite (pte_frame _ _ _ _ Hpf), (owns_frame _ _ _ _ Hpf). intros Hm.
    destruct (Hfr va Hu Hm) as (? & ? & Hn). split; [done|]. split; [done|]. intros ?. by apply Hn, Hsub.
  - intros va Hu. unfold unshared, mapped, frame. rewrite !(pte_frame _ _ _ va Hpf).
    intros Hm HU va'. rewrite !(pte_frame _ _ _ va' Hpf). by apply (Hsh va).
Qed.

Lemma copies_forked s d l sz : copies s d l (PGROUNDUP sz) [] -> 0 <= sz <= KERNBASE -> forked s d sz l.
Proof.
  intros Hcp Hsz. pose proof (parent_uspace _ _ _ _ Hcp) as Hp. destruct Hcp as [A B C D E F G].
  rewrite PGROUNDUP_eq in * by ulia. split; rewrite ?PGROUNDUP_eq by ulia; try done.
  - intros va Hva. apply C. right. right. left. exists va.
    assert (uva va) by (unfold uva; ulia). split; [done|]. split; [ulia|]. split; [|done].
    destruct (F va Hva) as [F1 _]. unfold mapped. rewrite F1. apply mkpte_P.
  - intros va. apply (pte_frame _ _ _ _ (parent_kept s D)).
Qed.

Lemma copyuvm_run sz :
  0 <= sz <= KERNBASE -> (forall va, 0 <= va < sz -> mapped (ram s0) pgdir va = true) ->
  exists r s, copyuvm pgdir sz s0 = OK r s /\
    ((r <> 0 /\ exists l, forked s r sz l) \/ (r = 0 /\ restored s)).
Proof.
  intros Hsz Hall. pose proof (as_free _ _ _ (us_as _ _ _ Hpar)) as Hf. unfold copyuvm.
  destruct (setupkvm_run s0 l0 Hf) as (d & s1 & Hr & Hc). rewrite (bind_OK _ _ _ _ _ Hr).
  destruct Hc as [(Hd & used & l & Hk)|(-> & l & Hf' & Hl & Hq)].
  - rewrite (proj2 (Z.eqb_neq _ _) Hd).
    destruct (copyuvm_loop_run (S (Z.to_nat (sz / PGSIZE))) s1 d l 0 sz) as (r & s2 & Hr2 & Hc2);
      [by eapply copies_init|done|done|ulia|rewrite PGROUNDUP_eq; ulia|ulia|done|ulia|].
    exists r, s2. split; [done|]. destruct Hc2 as [(-> & l' & Hcp)|?]; [left|by right].
    split; [done|]. exists l'. by apply copies_forked.
  - exists 0, s1. split; [done|]. right. split; [done|]. exists l. split; [done|].
    assert (forall w, In w l <-> In w l0) as Hll by (intros w; rewrite Hl; tauto).
    split; [done|]. intros w Hw Hn. apply Hq; [done|]. by rewrite Hll.
Qed.

End copy.

Section results.
Context `{L : Link}.

(** C8: copyuvm, which fork calls, on an address space whose pages below sz
    are mapped: either it returns 0 and every page that was free is free
    again, or it returns a page table in which the user pages below sz have
    the flags and the contents of the parent's, lie in pages that were free
    (so that no later write of one process shows in the other), and which
    has nothing else but the kernel's entries; the parent's page table and
    memory are unchanged. *)
Theorem copyuvm_copies s pgdir l sz :
  uspace s pgdir l -> 0 <= sz <= KERNBASE -> (forall va, 0 <= va < sz -> mapped (ram s) pgdir va = true) ->
  exists r s', copyuvm pgdir sz s = OK r s' /\
    ((r <> 0 /\ exists l', forked s pgdir l s' r sz l') \/ (r = 0 /\ restored s l s')).
Proof. intros. by apply copyuvm_run. Qed.

End results.

(** * A sample: a process of one page *)

Lemma sample_grown_uspace :
  exists l, uspace (L := sample_link) sample_grown (pg 0) l /\
    forall va, 0 <= va < PGSIZE -> mapped (ram sample_grown) (pg 0) va = true.
Proof.
  destruct (allocuvm_run (L := sample_link) (sample_pmem sample_free) (pg 0) 0 PGSIZE sample_free) as (r & s & l & Hr & Hc);
    [apply sample_uspace|ulia|ulia|intros; apply sample_empty|].
  assert (allocuvm (L := sample_link) (pg 0) 0 PGSIZE (sample_pmem sample_free) = OK PGSIZE sample_grown) as Hg.
  { apply (returns_final (allocuvm (L := sample_link) (pg 0) 0 PGSIZE (sample_pmem sample_free))). by vm_compute. }
  revert Hg. generalize sample_grown. intros g Hg. rewrite Hg in Hr. apply OK_inj in Hr as [<- <-].
  destruct Hc as [[_ Hal]|[Hz _]]; [|clear - Hz; discriminate Hz].
  exists l. split; [apply Hal|]. intros va Hva. destruct (al_in _ _ _ _ _ _ _ _ Hal va) as [Hp _]; [exact Hva|].
  unfold mapped. rewrite Hp. apply mkpte_P.
Qed.

Lemma copyuvm_copies_witness :
  exists l r s', uspace (L := sample_link) sample_grown (pg 0) l /\
    copyuvm (L := sample_link) (pg 0) PGSIZE sample_grown = OK r s' /\
    ((r <> 0 /\ exists l', forked (L := sample_link) sample_grown (pg 0) l s' r PGSIZE l') \/
     (r = 0 /\ restored (L := sample_link) sample_grown l s')).
Proof.
  destruct sample_grown_uspace as (l & Hu & Hm).
  destruct (copyuvm_copies (L := sample_link) sample_grown (pg 0) l PGSIZE Hu) as (r & s' & H); [ulia|exact Hm|].
  exists l, r, s'. exact (conj Hu H).
Defined.
