(* ===== verification/Ulock.v ===== *)
(** ulock.c: the user-level spin lock, the queue of waiting threads and the
    semaphores built from them, with the threads that run them interleaved
    one statement at a time. *)

From S2P Require Import Prelude.

Definition MAX_QUEUE_SIZE : Z := 1024.

(** * The queue *)

Record queue := Queue { arr : list Z; front : Z; rear : Z }.

Definition init_queue (q : queue) : queue := Queue (arr q) 0 0.

Definition isempty (q : queue) : bool := front q =? rear q.

Definition enqueue (q : queue) (value : Z) : queue * Z :=
  if Z.rem (front q + 1) MAX_QUEUE_SIZE =? rear q then (q, -1)
  else (Queue (<[Z.to_nat (front q) := value]> (arr q))
          (Z.rem (front q + 1) MAX_QUEUE_SIZE) (rear q), 0).

Definition dequeue (q : queue) : queue * Z :=
  if front q =? rear q then (q, -1)
  else (Queue (arr q) (front q) (Z.rem (rear q + 1) MAX_QUEUE_SIZE),
        arr q !!! Z.to_nat (rear q)).

(** * Semaphores *)

(** [locked] is the spin lock [sl]. *)
Record semaphore := Sem { val : Z; q : queue; locked : Z }.

Definition semaphore_init (s : semaphore) (initval : Z) : semaphore :=
  Sem initval (init_queue (q s)) 0.

(** xchg returns the old value and stores the new one, in one step. *)
Definition xchg (s : semaphore) (newval : Z) : semaphore * Z :=
  (Sem (val s) (q s) newval, locked s).

Definition release_splock (s : semaphore) : semaphore := Sem (val s) (q s) 0.

(** Where a thread is in semaphore_wait, block and semaphore_signal; the
    names say what the next statement is. *)
Inductive pc :=
| Idle                      (* between calls *)
| WAcquire | WDec | WTest | WRelease
| BEnqueue | BRelease | BSuspend | BAsleep | BAcquire
| SAcquire | SInc | SIsEmpty | SResume | SRelease.

Inductive call := CWait | CSignal.

(** A thread: its id as gettid gives it, whether it is the group leader,
    where it is, and the calls it has still to make.  [waits], [signals]:
    the calls it completed. *)
Record thread := Thread {
  gettid : Z; leader : bool; at_ : pc; todo : list call;
  waits : Z; signals : Z }.

Record machine := Machine { sem : semaphore; threads : list thread }.

Definition set_at (p : pc) (t : thread) : thread :=
  Thread (gettid t) (leader t) p (todo t) (waits t) (signals t).
Definition start (c : call) (l : list call) (t : thread) : thread :=
  Thread (gettid t) (leader t) (match c with CWait => WAcquire | CSignal => SAcquire end)
    l (waits t) (signals t).
Definition end_wait (t : thread) : thread :=
  Thread (gettid t) (leader t) Idle (todo t) (waits t + 1) (signals t).
Definition end_signal (t : thread) : thread :=
  Thread (gettid t) (leader t) Idle (todo t) (waits t) (signals t + 1).

(** tresume: the kernel looks for a thread of the group with this tid (the
    leader has none) and makes it runnable; one that is not asleep yet goes
    to sleep later all the same. *)
Definition resume (tid : Z) (t : thread) : thread :=
  if (gettid t =? tid) && negb (leader t) then
    match at_ t with BAsleep => set_at BAcquire t | _ => t end
  else t.
Definition tresume (tid : Z) (ts : list thread) : list thread := resume tid <$> ts.

(** acquire_splock: one turn of the loop; [None] while the lock is taken. *)
Definition spin (s : semaphore) : option semaphore :=
  let '(s', old) := xchg s 1 in if old =? 0 then Some s' else None.

(** The next statement of thread [t], number [i]. *)
Definition step_thread (m : machine) (i : nat) (t : thread) : option machine :=
  let s := sem m in
  let goto s' p := Some (Machine s' (<[i := set_at p t]> (threads m))) in
  match at_ t with
  | Idle =>
    match todo t with
    | [] => None
    | c :: l => Some (Machine s (<[i := start c l t]> (threads m)))
    end
  | WAcquire => s' ← spin s; goto s' WDec
  | WDec => goto (Sem (val s - 1) (q s) (locked s)) WTest
  | WTest => if val s <? 0 then goto s BEnqueue else goto s WRelease
  | WRelease => Some (Machine (release_splock s) (<[i := end_wait t]> (threads m)))
  | BEnqueue =>
    let '(q', _) := enqueue (q s) (gettid t) in
    goto (Sem (val s) q' (locked s)) BRelease
  | BRelease => goto (release_splock s) BSuspend
  | BSuspend => goto s (if leader t then BAcquire else BAsleep)
  | BAsleep => None
  | BAcquire => s' ← spin s; goto s' WTest
  | SAcquire => s' ← spin s; goto s' SInc
  | SInc => goto (Sem (val s + 1) (q s) (locked s)) SIsEmpty
  | SIsEmpty => if isempty (q s) then goto s SRelease else goto s SResume
  | SResume =>
    let '(q', tid) := dequeue (q s) in
    Some (Machine (Sem (val s) q' (locked s)) (<[i := set_at SRelease t]> (tresume tid (threads m))))
  | SRelease => Some (Machine (release_splock s) (<[i := end_signal t]> (threads m)))
  end.

Definition step (m : machine) (i : nat) : option machine :=
  t ← threads m !! i; step_thread m i t.

(** A schedule: which thread moves next. *)
Fixpoint run (m : machine) (sched : list nat) : option machine :=
  match sched with
  | [] => Some m
  | i :: sched => m' ← step m i; run m' sched
  end.

Definition new_thread (tid : Z) (l : list call) : thread := Thread tid false Idle l 0 0.

Definition boot (initval : Z) (progs : list (list call)) : machine :=
  Machine (semaphore_init (Sem 0 (Queue (replicate (Z.to_nat MAX_QUEUE_SIZE) 0) 0 0) 0) initval)
    (imap (fun i l => new_thread (Z.of_nat i + 1) l) progs).

(** * The queue is a bounded first-in first-out queue *)

(** The abstract queue holds at most MAX_QUEUE_SIZE - 1 values. *)
Inductive qop := QEnqueue (v : Z) | QDequeue.

Definition aqueue (o : qop) (l : list Z) : list Z * Z :=
  match o with
  | QEnqueue v => if Z.of_nat (length l) =? MAX_QUEUE_SIZE - 1 then (l, -1) else (l ++ [v], 0)
  | QDequeue => match l with [] => ([], -1) | v :: l => (l, v) end
  end.

Definition cqueue (o : qop) (q : queue) : queue * Z :=
  match o with QEnqueue v => enqueue q v | QDequeue => dequeue q end.

(** The results of a sequence of calls. *)
Fixpoint results {S} (f : qop -> S -> S * Z) (ops : list qop) (s : S) : list Z :=
  match ops with
  | [] => []
  | o :: ops => let '(s', r) := f o s in r :: results f ops s'
  end.

Record holds (q : queue) (l : list Z) : Prop := {
  h_arr : length (arr q) = 1024%nat;
  h_front : 0 <= front q < 1024;
  h_rear : 0 <= rear q < 1024;
  h_len : Z.of_nat (length l) = (front q - rear q) mod 1024;
  h_elt : forall i x, l !! i = Some x -> arr q !! Z.to_nat ((rear q + Z.of_nat i) mod 1024) = Some x;
}.

Lemma holds_empty a : length a = 1024%nat -> holds (Queue a 0 0) [].
Proof. by split. Qed.

Lemma rem_1024 x : 0 <= x -> Z.rem x MAX_QUEUE_SIZE = x mod 1024.
Proof. intros. by rewrite Z.rem_mod_nonneg. Qed.

Lemma enqueue_holds q l v :
  holds q l ->
  let '(l', r) := aqueue (QEnqueue v) l in
  exists q', enqueue q v = (q', r) /\ holds q' l'.
Proof.
  intros [Ha Hf Hr Hl He]. simpl. unfold enqueue. rewrite rem_1024 by lia.
  replace (Z.of_nat (length l) =? MAX_QUEUE_SIZE - 1) with ((front q + 1) mod 1024 =? rear q)
    by (unfold MAX_QUEUE_SIZE; lia).
  destruct (Z.eqb_spec ((front q + 1) mod 1024) (rear q)) as [Heq|Hne]; [by exists q|].
  eexists. split; [done|]. split; simpl.
  - by rewrite length_insert.
  - lia.
  - done.
  - rewrite length_app. simpl. lia.
  - intros i x. rewrite lookup_app_Some. intros [Hi|[Hi Hx]].
    + rewrite list_lookup_insert_ne; [by apply He|]. apply lookup_lt_Some in Hi. lia.
    + apply list_lookup_singleton_Some in Hx as [? <-].
      replace (Z.to_nat ((rear q + Z.of_nat i) mod 1024)) with (Z.to_nat (front q)) by lia.
      apply list_lookup_insert_eq. lia.
Qed.

Lemma dequeue_holds q l :
  holds q l ->
  let '(l', r) := aqueue QDequeue l in
  exists q', dequeue q = (q', r) /\ holds q' l'.
Proof.
  intros [Ha Hf Hr Hl He]. simpl. unfold dequeue.
  destruct l as [|v l].
  - assert (front q = rear q) as Heq by (simpl in Hl; lia).
    rewrite (proj2 (Z.eqb_eq _ _) Heq). exists q. by split.
  - rewrite (proj2 (Z.eqb_neq (front q) (rear q))) by (simpl in Hl; lia).
    rewrite rem_1024 by lia. pose proof (He O v eq_refl) as Hv.
    rewrite Z.add_0_r, Z.mod_small in Hv by lia.
    eexists. split; [f_equal; by apply list_lookup_total_correct|].
    split; simpl in *; [done|done|lia|lia|].
    intros i x Hi. specialize (He (S i) x Hi).
    replace ((rear q + 1) mod 1024 + Z.of_nat i) with
      (rear q + Z.of_nat (S i) - 1024 * ((rear q + 1) / 1024)) by lia.
    by rewrite Z.mul_comm, Zminus_mod, Z_mod_mult, Z.sub_0_r, Zmod_mod.
Qed.

(** enqueue and dequeue implement a first-in first-out queue of at most
    1023 values: every sequence of calls returns what the abstract queue
    returns, -1 on a full queue and on an empty one included. *)
Theorem queue_refines q l ops :
  holds q l -> results cqueue ops q = results aqueue ops l.
Proof.
  revert q l. induction ops as [|[v|] ops IH]; intros q l Hq; [done|..]; cbn [results cqueue].
  - pose proof (enqueue_holds q l v Hq) as H. destruct (aqueue (QEnqueue v) l) as [l' r].
    destruct H as (q' & -> & Hq'). f_equal. by apply IH.
  - pose proof (dequeue_holds q l Hq) as H. destruct (aqueue QDequeue l) as [l' r].
    destruct H as (q' & -> & Hq'). f_equal. by apply IH.
Qed.

(** * Counting over the threads *)

Definition total (f : thread -> Z) (ts : list thread) : Z := foldr (fun t n => f t + n) 0 ts.

Lemma total_insert f ts i t t' :
  ts !! i = Some t -> total f (<[i := t']> ts) = total f ts - f t + f t'.
Proof.
  revert i. induction ts as [|t0 ts IH]; intros [|i] Hi; simpl in *; [done|done|..].
  - injection Hi as ->. lia.
  - specialize (IH i Hi). lia.
Qed.

Lemma total_sub f g ts : total (fun t => f t - g t) ts = total f ts - total g ts.
Proof. induction ts as [|t ts IH]; simpl; lia. Qed.

Lemma total_nonneg f ts : (forall t, 0 <= f t) -> 0 <= total f ts.
Proof. intros H. induction ts as [|t ts IH]; simpl; [done|]. specialize (H t). lia. Qed.

Lemma total_elem f ts i t : (forall t, 0 <= f t) -> ts !! i = Some t -> f t <= total f ts.
Proof.
  intros H. revert i. induction ts as [|t0 ts IH]; intros [|i] Hi; simpl in *; [done|done|..].
  - injection Hi as ->. pose proof (total_nonneg f ts H). lia.
  - specialize (IH i Hi). specialize (H t0). lia.
Qed.

Lemma total_map f h ts : (forall t, f (h t) = f t) -> total f (h <$> ts) = total f ts.
Proof. intros H. induction ts as [|t ts IH]; [done|]. rewrite fmap_cons. simpl. by rewrite H, IH. Qed.

(** Steps change one thread, and tresume those it wakes. *)
Lemma total_resume f tid i t t' ts :
  (forall t, f (resume tid t) = f t) -> ts !! i = Some t ->
  f (resume tid t) = f t ->
  total f (<[i := t']> (tresume tid ts)) = total f ts - f t + f t'.
Proof.
  intros H Hi Ht. unfold tresume.
  rewrite (total_insert f _ i (resume tid t)), total_map, Ht; [done|done|].
  by rewrite list_lookup_fmap, Hi.
Qed.

(** The statements between acquire and release. *)
Definition critical (t : thread) : Z :=
  match at_ t with
  | WDec | WTest | WRelease | BEnqueue | BRelease | SInc | SIsEmpty | SResume | SRelease => 1
  | _ => 0
  end.

(** Waits that have decremented the value; those that have passed; signals
    that have incremented it. *)
Definition claimed (t : thread) : Z :=
  waits t + match at_ t with
            | WTest | WRelease | BEnqueue | BRelease | BSuspend | BAsleep | BAcquire => 1
            | _ => 0
            end.
Definition passed (t : thread) : Z := waits t + match at_ t with WRelease => 1 | _ => 0 end.
Definition posted (t : thread) : Z :=
  signals t + match at_ t with SIsEmpty | SResume | SRelease => 1 | _ => 0 end.

Lemma critical_resume tid t : critical (resume tid t) = critical t.
Proof. unfold resume. case_match; [|done]. destruct t as [? ? [] ? ? ?]; done. Qed.
Lemma claimed_resume tid t : claimed (resume tid t) = claimed t.
Proof. unfold resume. case_match; [|done]. destruct t as [? ? [] ? ? ?]; done. Qed.
Lemma passed_resume tid t : passed (resume tid t) = passed t.
Proof. unfold resume. case_match; [|done]. destruct t as [? ? [] ? ? ?]; done. Qed.
Lemma posted_resume tid t : posted (resume tid t) = posted t.
Proof. unfold resume. case_match; [|done]. destruct t as [? ? [] ? ? ?]; done. Qed.

Lemma critical_nonneg t : 0 <= critical t.
Proof. destruct t as [? ? [] ? ? ?]; done. Qed.

Lemma passed_waits t : 0 <= passed t - waits t.
Proof. destruct t as [? ? [] ? ? ?]; unfold passed; simpl; lia. Qed.

Lemma passed_claimed t : 0 <= claimed t - passed t.
Proof. destruct t as [? ? [] ? ? ?]; unfold passed, claimed; simpl; lia. Qed.

(** Threads before their first call, on a semaphore just initialised. *)
Definition initial (initval : Z) (m : machine) : Prop :=
  locked (sem m) = 0 /\ val (sem m) = initval
  /\ Forall (fun t => at_ t = Idle /\ waits t = 0 /\ signals t = 0) (threads m).

Inductive reachable (m0 : machine) : machine -> Prop :=
| reach_refl : reachable m0 m0
| reach_step m i m' : reachable m0 m -> step m i = Some m' -> reachable m0 m'.

(** The invariant of every interleaving. *)
Record sem_inv (initval : Z) (m : machine) : Prop := {
  si_lock : total critical (threads m) = locked (sem m);
  si_bit : locked (sem m) = 0 \/ locked (sem m) = 1;
  si_val : val (sem m) = initval - total claimed (threads m) + total posted (threads m);
  si_pass : total passed (threads m) <= initval + total posted (threads m);
}.

Lemma initial_inv initval m : initial initval m -> 0 <= initval -> sem_inv initval m.
Proof.
  intros (Hl & Hv & Ht) Hi.
  assert (total critical (threads m) = 0 /\ total claimed (threads m) = 0
          /\ total passed (threads m) = 0 /\ total posted (threads m) = 0) as (A & B & C & D).
  { induction Ht as [|t ts (H1 & H2 & H3) _ IH]; [done|]. simpl.
    unfold critical, claimed, passed, posted in *. rewrite H1, H2, H3. lia. }
  split; rewrite ?A, ?B, ?C, ?D, ?Hl, ?Hv; lia.
Qed.

Ltac count Hi :=
  repeat first
    [ rewrite (total_insert _ _ _ _ _ Hi)
    | rewrite (total_resume _ _ _ _ _ _ (critical_resume _) Hi) by apply critical_resume
    | rewrite (total_resume _ _ _ _ _ _ (claimed_resume _) Hi) by apply claimed_resume
    | rewrite (total_resume _ _ _ _ _ _ (passed_resume _) Hi) by apply passed_resume
    | rewrite (total_resume _ _ _ _ _ _ (posted_resume _) Hi) by apply posted_resume ].

Lemma step_inv initval m i m' : sem_inv initval m -> step m i = Some m' -> sem_inv initval m'.
Proof.
  intros [H1 H2 H3 H4]. unfold step.
  destruct (threads m !! i) as [t|] eqn:Hi; simpl; [|done].
  pose proof (total_elem _ _ _ _ passed_claimed Hi) as Hpc. rewrite total_sub in Hpc.
  pose proof (total_elem _ _ _ _ critical_nonneg Hi) as Hc.
  unfold step_thread, spin, xchg. destruct t as [tid ld p l w s].
  destruct p; simpl; intros Hs; repeat case_match; simplify_eq/=;
    try match goal with c : call |- _ => destruct c end;
    (split; simpl; count Hi);
    generalize dependent (total critical (threads m)); generalize dependent (total claimed (threads m));
    generalize dependent (total passed (threads m)); generalize dependent (total posted (threads m));
    unfold critical, claimed, passed, posted; simpl; lia.
Qed.

Lemma reachable_inv initval m0 m :
  sem_inv initval m0 -> reachable m0 m -> sem_inv initval m.
Proof. intros H. induction 1; [done|]. by eapply step_inv. Qed.

Lemma run_reachable m0 sched m m' : reachable m0 m -> run m sched = Some m' -> reachable m0 m'.
Proof.
  revert m. induction sched as [|i sched IH]; simpl; intros m Hr Hm; [by injection Hm as <-|].
  destruct (step m i) as [m1|] eqn:Hs; [|done]. apply (IH m1); [|done]. by eapply reach_step.
Qed.

(** * What the semaphore guarantees *)

(** whatever the interleaving, at most one thread is between
    acquire_splock and release_splock. *)
Theorem splock_mutual_exclusion initval m0 m i j t u :
  initial initval m0 -> 0 <= initval -> reachable m0 m ->
  threads m !! i = Some t -> threads m !! j = Some u ->
  critical t = 1 -> critical u = 1 -> i = j.
Proof.
  intros H0 Hi Hr Ht Hu Hct Hcu.
  destruct (reachable_inv initval m0 m (initial_inv _ _ H0 Hi) Hr) as [H1 H2 _ _].
  destruct (decide (i = j)) as [|Hne]; [done|]. exfalso.
  pose proof (total_insert critical (threads m) i t (set_at Idle t) Ht) as He.
  assert (<[i := set_at Idle t]> (threads m) !! j = Some u) as Hu'
    by by rewrite list_lookup_insert_ne.
  pose proof (total_elem critical _ j u critical_nonneg Hu') as Hle.
  rewrite He, Hct, Hcu in Hle. unfold critical at 2 in Hle. simpl in Hle. lia.
Qed.


(** * What it does not guarantee *)

Definition mutex3 : machine := boot 1 [[CWait; CSignal]; [CWait; CSignal]; [CWait; CSignal]].

(** The first thread takes the semaphore, the two others block in turn, the
    first signals, and the thread it wakes finds the value still negative. *)
Definition schedule3 : list nat :=
  replicate 5 0%nat ++ replicate 7 1%nat ++ replicate 7 2%nat ++ replicate 6 0%nat ++ replicate 5 1%nat.

(** C38: three threads that use a semaphore of initial value 1 as a mutex can
    deadlock: the first has taken and signalled it and is done, the two
    others sleep, and no thread can move.  A waiter takes its unit of the
    value before it blocks, and tests the value again when it wakes. *)
Theorem semaphore_deadlock :
  exists m, run mutex3 schedule3 = Some m
    /\ (waits <$> threads m) = [1; 0; 0] /\ (signals <$> threads m) = [1; 0; 0]
    /\ (at_ <$> threads m) = [Idle; BAsleep; BAsleep]
    /\ forall i, step m i = None.
Proof.
  eexists. split; [vm_compute; reflexivity|]. repeat (split; [reflexivity|]).
  intros [|[|[|i]]]; reflexivity.
Qed.

(** the wakeup of a single waiter can be lost: when the signal comes
    after block has released the lock and before it suspends the thread,
    the waiter sleeps for ever, though the value is not negative. *)
Theorem semaphore_lost_wakeup :
  exists sched m, run (boot 0 [[CWait]; [CSignal]]) sched = Some m
    /\ (at_ <$> threads m) = [BAsleep; Idle] /\ val (sem m) = 0
    /\ (signals <$> threads m) = [0; 1]
    /\ forall i, step m i = None.
Proof.
  exists (replicate 6 0%nat ++ replicate 6 1%nat ++ [0%nat]).
  eexists. split; [vm_compute; reflexivity|]. repeat (split; [reflexivity|]).
  intros [|[|i]]; reflexivity.
Qed.

(** * Witnesses *)

Lemma queue_refines_witness :
  results cqueue [QEnqueue 5; QEnqueue 7; QDequeue; QDequeue; QDequeue]
    (Queue (replicate 1024 0) 0 0) = [0; 0; 5; 7; -1].
Proof. apply (queue_refines (Queue (replicate 1024 0) 0 0) []). by apply holds_empty. Defined.

Lemma mutex3_initial : initial 1 mutex3.
Proof. split; [reflexivity|]. split; [reflexivity|]. repeat constructor. Qed.

Definition mutex3_next : machine := default mutex3 (run mutex3 (replicate 3 0%nat)).

Lemma mutex3_reach : reachable mutex3 mutex3_next.
Proof. apply (run_reachable _ (replicate 3 0%nat) mutex3); [apply reach_refl|]. vm_compute. reflexivity. Qed.

Lemma splock_mutual_exclusion_witness :
  threads mutex3_next !! 0%nat = Some (Thread 1 false WTest [CSignal] 0 0) /\ 0%nat = 0%nat.
Proof.
  split; [vm_compute; reflexivity|].
  apply (splock_mutual_exclusion 1 mutex3 mutex3_next 0 0 (Thread 1 false WTest [CSignal] 0 0)
           (Thread 1 false WTest [CSignal] 0 0) mutex3_initial); try done; apply mutex3_reach.
Defined.

