(* ===== verification/Umalloc.v ===== *)
(** umalloc.c: the allocator of user programs, over the memory of a program
    with its free list in it, and the proof that the blocks it hands out are
    apart from each other and from the free ones. *)

From S2P Require Import Prelude Mmu Str.
From Stdlib Require Import Sorted.

(** * Definitions *)

(** The memory of the program, the static variable freep, and the end of
    the memory that the kernel has given it. *)
Record heap := Heap { hmem : memory; freep : Z; brk : Z }.

Definition set_hmem (f : memory -> memory) (h : heap) : heap := Heap (f (hmem h)) (freep h) (brk h).
Definition set_freep (p : Z) (h : heap) : heap := Heap (hmem h) p (brk h).

(** sbrk, as malloc relies on it: it fails and changes nothing, or it returns
    the old end of the memory and moves it up; what is below stays, and the
    memory of a program ends below KERNBASE. *)
Class Sbrk := {
  sbrk : Z -> heap -> Z * heap;
  sbrk_spec n h : 0 < n < 2 ^ 31 ->
    sbrk n h = (-1, h)
    \/ exists m, sbrk n h = (brk h, Heap m (freep h) (brk h + n))
         /\ brk h + n <= KERNBASE /\ forall x, x < brk h -> load8 m x = load8 (hmem h) x;
}.

(** sizeof(Header). *)
Definition HDR : Z := 8.

Section umalloc.
(** The address of the static variable base. *)
Context `{SB : Sbrk} (base : Z).

Definition s_ptr (p : Z) : M heap Z := gets (fun h => load32 (hmem h) p).
Definition s_size (p : Z) : M heap Z := gets (fun h => load32 (hmem h) (p + 4)).
Definition put_ptr (p v : Z) : M heap unit := modify (set_hmem (fun m => store32 m p v)).
Definition put_size (p v : Z) : M heap unit := modify (set_hmem (fun m => store32 m (p + 4) v)).
(** Pointer arithmetic on headers. *)
Definition plus (p n : Z) : Z := u32 (p + HDR * n).

(** The loop of free: the place of [bp] in the list. *)
Fixpoint free_place (bp p : Z) (fuel : nat) : M heap Z :=
  match fuel with
  | O => nofuel
  | S fuel =>
    q ← s_ptr p;
    if (p <? bp) && (bp <? q) then mret p
    else if (q <=? p) && ((p <? bp) || (bp <? q)) then mret p
    else free_place bp q fuel
  end.

(** Put [bp] behind [p], in one piece with the next block when it touches
    it; and in one piece with [p]. *)
Definition join_up (bp p : Z) : M heap unit :=
  n ← s_size bp;
  q ← s_ptr p;
  if plus bp n =? q then
    k ← s_size q;
    put_size bp (u32 (n + k));;
    q ← s_ptr p;
    q' ← s_ptr q;
    put_ptr bp q'
  else put_ptr bp q.

Definition join_down (bp p : Z) : M heap unit :=
  k ← s_size p;
  if plus p k =? bp then
    n ← s_size bp;
    put_size p (u32 (k + n));;
    q ← s_ptr bp;
    put_ptr p q
  else put_ptr p bp.

Definition free (fuel : nat) (ap : Z) : M heap unit :=
  let bp := plus ap (-1) in
  fp ← gets freep;
  p ← free_place bp fp fuel;
  join_up bp p;;
  join_down bp p;;
  modify (set_freep p).

Definition morecore (fuel : nat) (nu : Z) : M heap Z :=
  let nu := if nu <? 4096 then 4096 else nu in
  p ← (fun h => let '(p, h') := sbrk (s32 (nu * HDR)) h in OK p h');
  if p =? -1 then mret 0
  else
    put_size p nu;;
    free fuel (plus p 1);;
    gets freep.

(** Take [nunits] units from the free block [p] of [n] units behind [prevp]:
    all of it, or its tail. *)
Definition carve (prevp p n nunits : Z) : M heap Z :=
  p ← (if n =? nunits then
         q ← s_ptr p;
         put_ptr prevp q;;
         mret p
       else
         put_size p (n - nunits);;
         let p := plus p (n - nunits) in
         put_size p nunits;;
         mret p);
  modify (set_freep prevp);;
  mret (plus p 1).

(** The loop of malloc.  [lf] is the fuel of the loop of free. *)
Fixpoint malloc_loop (lf : nat) (nunits prevp p : Z) (fuel : nat) : M heap Z :=
  match fuel with
  | O => nofuel
  | S fuel =>
    n ← s_size p;
    if nunits <=? n then carve prevp p n nunits
    else
      fp ← gets freep;
      r ← (if p =? fp then q ← morecore lf nunits; mret (if q =? 0 then None else Some q) else mret (Some p));
      match r with
      | None => mret 0
      | Some p => q ← s_ptr p; malloc_loop lf nunits p q fuel
      end
  end.

(** The units of a block for [nbytes] bytes, with its header. *)
Definition units (nbytes : Z) : Z := u32 (u32 (nbytes + HDR - 1) / HDR + 1).

Definition malloc (fuel : nat) (nbytes : Z) : M heap Z :=
  let nunits := units nbytes in
  fp ← gets freep;
  (if fp =? 0 then put_ptr base base;; modify (set_freep base);; put_size base 0 else mret tt);;
  prevp ← gets freep;
  p ← s_ptr prevp;
  malloc_loop fuel nunits prevp p fuel.


(** * The heap *)

(** The end of a block. *)
Definition bend (b : Z * Z) : Z := b.1 + HDR * b.2.

(** The headers in memory of the blocks of a list, each pointing to the next
    one, and the last one to [d]. *)
Definition nxt (L : list (Z * Z)) (d : Z) : Z := match L with [] => d | b :: _ => b.1 end.
Fixpoint chain (m : memory) (L : list (Z * Z)) (d : Z) : Prop :=
  match L with
  | [] => True
  | b :: L => load32 m b.1 = nxt L d /\ load32 m (b.1 + 4) = b.2 /\ chain m L d
  end.

(** Blocks in the order of their addresses, none touching the next. *)
Definition ordered : list (Z * Z) -> Prop := StronglySorted (fun b c => bend b < c.1).

Definition apart (b c : Z * Z) : Prop := bend b <= c.1 \/ bend c <= b.1.

(** The units of the free blocks, and of the live ones. *)
Definition total (L : list (Z * Z)) : Z := foldr (fun b s => b.2 + s) 0 L.
Definition mtotal (live : gmap Z Z) : Z := map_fold (fun _ n s => n + s) 0 live.

(** [lo] is where the memory that sbrk gives starts; [free] are the free
    blocks and [live] those handed out, from their addresses to their units.
    All memory is in one of them. *)
Record heap_ok (lo : Z) (h : heap) (free : list (Z * Z)) (live : gmap Z Z) : Prop := {
  h_base : 0 < base /\ base + HDR <= lo /\ lo <= brk h <= KERNBASE;
  h_freep : freep h ∈ ((base, 0) :: free).*1;
  h_chain : chain (hmem h) ((base, 0) :: free) base;
  h_ordered : ordered free;
  h_free : forall b, b ∈ free -> lo <= b.1 /\ 0 < b.2 /\ bend b <= brk h;
  h_live : forall a n, live !! a = Some n ->
    load32 (hmem h) (a + 4) = n /\ lo <= a /\ 0 < n /\ bend (a, n) <= brk h;
  h_apart : forall b a n, b ∈ free -> live !! a = Some n -> apart b (a, n);
  h_live_apart : forall a n a' n', live !! a = Some n -> live !! a' = Some n' -> a <> a' -> apart (a, n) (a', n');
  h_total : HDR * (total free + mtotal live) = brk h - lo;
}.

(** The bytes of the live blocks stay. *)
Definition kept (live : gmap Z Z) (h h' : heap) : Prop := forall a n x,
  live !! a = Some n -> a + 4 <= x < bend (a, n) -> load8 (hmem h') x = load8 (hmem h) x.

(** * Lists of blocks *)

Lemma nxt_app l1 l2 d : nxt (l1 ++ l2) d = nxt l1 (nxt l2 d).
Proof. by destruct l1. Qed.

Lemma chain_app m l1 l2 d : chain m (l1 ++ l2) d <-> chain m l1 (nxt l2 d) /\ chain m l2 d.
Proof.
  induction l1 as [|b l1 IH]; simpl; [naive_solver|]. rewrite IH, nxt_app. naive_solver.
Qed.

Lemma chain_lookup m L d i b :
  chain m L d -> L !! i = Some b ->
  load32 m b.1 = nxt (drop (S i) L) d /\ load32 m (b.1 + 4) = b.2.
Proof.
  revert i. induction L as [|c L IH]; intros [|i]; simpl; [done..| |].
  - intros (H1 & H2 & _) [= <-]. by rewrite drop_0.
  - intros (_ & _ & H) Hi. by apply IH.
Qed.

(** A change of memory away from the headers. *)
Lemma blocks_ext m m' L d :
  chain m L d -> (forall b x, b ∈ L -> b.1 <= x < b.1 + HDR -> load8 m' x = load8 m x) -> chain m' L d.
Proof.
  induction L as [|b L IH]; simpl; [done|]. intros (H1 & H2 & H3) Hx.
  assert (forall x, b.1 <= x < b.1 + HDR -> load8 m' x = load8 m x) as Hb.
  { intros x. apply Hx. by left. }
  unfold HDR in Hb. split; [|split].
  - rewrite <- H1. apply load32_ext. intros. apply Hb. lia.
  - rewrite <- H2. apply load32_ext. intros. apply Hb. lia.
  - apply IH; [done|]. intros c x Hc. apply Hx. by right.
Qed.

(** The last pointer of a chain may be stored anew. *)
Lemma chain_relink m l x k d d' :
  chain m (l ++ [(x, k)]) d -> 0 <= d' < 2 ^ 32 ->
  (forall b, b ∈ l -> apart (b.1, 1) (x, 1)) ->
  chain (store32 m x d') (l ++ [(x, k)]) d'.
Proof.
  intros H Hd Hl. apply chain_app in H as [H1 (H2 & H3 & _)]. apply chain_app. split.
  - simpl in *. eapply blocks_ext; [exact H1|]. intros b y Hb Hy. apply load8_store32_ne.
    destruct (Hl b Hb) as [Hx|Hx]; unfold bend, HDR in *; simpl in *; lia.
  - simpl in *. split; [rewrite load32_store32_eq; by apply u32_id|].
    split; [|done]. by rewrite load32_store32_ne by lia.
Qed.

Lemma ordered_app l1 l2 :
  ordered (l1 ++ l2) <-> ordered l1 /\ ordered l2 /\ forall b c, b ∈ l1 -> c ∈ l2 -> bend b < c.1.
Proof.
  induction l1 as [|x l1 IH]; simpl.
  - split; [|naive_solver]. intros H. split; [constructor|]. split; [done|]. set_solver.
  - split.
    + intros [H1 H2]%StronglySorted_inv. apply IH in H1 as (H3 & H4 & H5).
      rewrite Forall_app, !Forall_forall in H2. destruct H2 as [H2 H6].
      split; [constructor; [done|by apply Forall_forall]|]. split; [done|].
      intros b c [->|Hb]%elem_of_cons Hc; auto.
    + intros ([H1 H2]%StronglySorted_inv & H3 & H4). constructor.
      * apply IH. split; [done|]. split; [done|]. intros b c Hb. apply H4. by right.
      * rewrite Forall_app. split; [done|]. apply Forall_forall. intros c. apply H4. by left.
Qed.

Lemma total_app l1 l2 : total (l1 ++ l2) = total l1 + total l2.
Proof. unfold total. induction l1 as [|b l1 IH]; simpl; lia. Qed.

Lemma mtotal_insert live a n : live !! a = None -> mtotal (<[a := n]> live) = n + mtotal live.
Proof. intros Ha. unfold mtotal. rewrite map_fold_insert_L; [done|lia|done]. Qed.

Lemma mtotal_delete live a n : live !! a = Some n -> mtotal live = n + mtotal (delete a live).
Proof.
  intros Ha. rewrite <- (insert_delete_id live a n Ha) at 1. apply mtotal_insert. apply lookup_delete_eq.
Qed.

(** * The loop of free *)

Definition rising : list (Z * Z) -> Prop := StronglySorted (fun b c => b.1 < c.1).

Lemma ordered_rising L : ordered L -> (forall b, b ∈ L -> 0 <= b.2) -> rising L.
Proof.
  induction 1 as [|b L Ho IH Hf]; intros Hn; constructor.
  - apply IH. intros c Hc. apply Hn. by right.
  - rewrite Forall_forall in *. intros c Hc. specialize (Hf c Hc). specialize (Hn b ltac:(by left)).
    unfold bend, HDR in Hf. lia.
Qed.

Lemma rising_app_r l1 l2 : rising (l1 ++ l2) -> rising l2.
Proof. induction l1; [done|]. intros [? _]%StronglySorted_inv. auto. Qed.

(** Where a block goes in a list of blocks. *)
Lemma place_split (bp : Z) (L : list (Z * Z)) b0 :
  b0.1 < bp -> rising (b0 :: L) -> (forall b, b ∈ L -> b.1 <> bp) ->
  exists l1 x l2, b0 :: L = l1 ++ x :: l2 /\ x.1 < bp /\ forall c, c ∈ l2 -> bp < c.1.
Proof.
  revert b0. induction L as [|c L IH]; intros b0 Hb Ho Hn.
  - exists [], b0, []. set_solver.
  - apply StronglySorted_inv in Ho as [Ho _]. pose proof (Hn c ltac:(by left)) as Hcb.
    destruct (decide (c.1 < bp)) as [Hlt|Hge].
    + destruct (IH c) as (l1 & x & l2 & E & H1 & H2); [done|done|intros; apply Hn; by right|].
      exists (b0 :: l1), x, l2. simpl. by rewrite E.
    + exists [], b0, (c :: L). split; [done|]. split; [done|].
      intros d [->|Hd]%elem_of_cons; [lia|].
      apply StronglySorted_inv in Ho as [_ Hf]. rewrite Forall_forall in Hf. specialize (Hf d Hd). lia.
Qed.

(** Up to the place, from below it. *)
Lemma free_place_up bp h l x l2 fuel :
  chain (hmem h) (l ++ x :: l2) base -> rising (l ++ x :: l2) -> base <= x.1 < bp ->
  (forall c, c ∈ l2 -> bp < c.1) -> (length l < fuel)%nat ->
  free_place bp (nxt (l ++ [x]) 0) fuel h = OK x.1 h.
Proof.
  intros Hc Hr Hx H2. revert fuel. induction l as [|b l IH]; intros [|fuel] Hf; simpl in *; try lia.
  - destruct Hc as (Hq & _). unfold s_ptr. rewrite bind_gets, Hq.
    destruct l2 as [|c l2]; simpl.
    + destruct (Z.ltb_spec x.1 bp), (Z.ltb_spec bp base), (Z.leb_spec base x.1); simpl; by try lia.
    + specialize (H2 c ltac:(by left)).
      destruct (Z.ltb_spec x.1 bp), (Z.ltb_spec bp c.1); simpl; by try lia.
  - destruct Hc as (Hq & _ & Hc). apply StronglySorted_inv in Hr as [Hr Hb]. rewrite Forall_forall in Hb.
    unfold s_ptr. rewrite bind_gets, Hq.
    assert (exists c, nxt (l ++ x :: l2) base = c.1 /\ nxt (l ++ [x]) 0 = c.1 /\ c ∈ l ++ [x]) as (c & E1 & E2 & Hc').
    { destruct l as [|c l]; simpl; [exists x|exists c]; repeat split; try by left. }
    assert (b.1 < c.1 <= x.1) as Hbc.
    { split; [apply Hb; set_solver|]. apply elem_of_app in Hc' as [Hc'|Hc'%list_elem_of_singleton]; [|subst; lia].
      clear -Hr Hc'. induction l as [|d l IH]; [set_solver|]. simpl in Hr.
      apply StronglySorted_inv in Hr as [Hr Hd]. rewrite Forall_forall in Hd.
      apply elem_of_cons in Hc' as [->|Hc']; [|by apply IH]. specialize (Hd x). set_solver by lia. }
    rewrite E1. destruct (Z.ltb_spec bp c.1), (Z.leb_spec c.1 b.1); simpl; rewrite ?andb_false_r; try lia.
    rewrite <- E2. apply IH; [done|done|lia].
Qed.

(** From above it: to the end of the list, and on from its start. *)
Lemma free_place_wrap bp h l fuel :
  chain (hmem h) l base -> rising l -> base < bp -> (forall c, c ∈ l -> bp < c.1) -> (length l <= fuel)%nat ->
  free_place bp (nxt l base) fuel h = free_place bp base (fuel - length l) h.
Proof.
  intros Hc Hr Hb. revert fuel. induction l as [|c l IH]; intros fuel Hl Hf; simpl in *.
  - by rewrite Nat.sub_0_r.
  - destruct fuel as [|fuel]; [lia|]. destruct Hc as (Hq & _ & Hc).
    apply StronglySorted_inv in Hr as [Hr Hd]. rewrite Forall_forall in Hd.
    pose proof (Hl c ltac:(by left)) as Hcb. simpl. unfold s_ptr. rewrite bind_gets, Hq.
    destruct (Z.ltb_spec c.1 bp); [lia|]. simpl.
    replace ((nxt l base <=? c.1) && (bp <? nxt l base)) with false.
    + apply IH; [done|done|intros d ?; apply Hl; by right|lia].
    + symmetry. destruct l as [|d l]; simpl.
      * destruct (Z.ltb_spec bp base); [lia|]. by rewrite andb_false_r.
      * specialize (Hd d ltac:(by left)). destruct (Z.leb_spec d.1 c.1); [lia|done].
Qed.

(** The loop finds the place, wherever freep is. *)
Lemma free_place_ok bp h L p0 fuel :
  chain (hmem h) ((base, 0) :: L) base -> rising ((base, 0) :: L) -> base < bp ->
  (forall b, b ∈ L -> b.1 <> bp) -> p0 ∈ ((base, 0) :: L).*1 -> (length L < fuel)%nat ->
  exists l1 x l2, (base, 0) :: L = l1 ++ x :: l2 /\ x.1 < bp /\ (forall c, c ∈ l2 -> bp < c.1)
    /\ free_place bp p0 fuel h = OK x.1 h.
Proof.
  intros Hc Hr Hb Hn Hp Hf.
  destruct (place_split bp L (base, 0)) as (l1 & x & l2 & E & Hx & H2); [done|done|done|].
  exists l1, x, l2. split; [done|]. split; [done|]. split; [done|].
  assert (length (l1 ++ x :: l2) <= fuel)%nat as Hlen by (rewrite <- E; simpl; lia).
  rewrite length_app in Hlen. simpl in Hlen. pose proof Hc as Hc0. pose proof Hr as Hr0.
  rewrite E in Hp, Hc0, Hr0.
  assert (base <= x.1) as Hbx.
  { destruct l1 as [|b l1]; injection E as <- E'; [simpl; lia|]. simpl in Hr0.
    apply StronglySorted_inv in Hr0 as [_ Hf']. rewrite Forall_forall in Hf'.
    specialize (Hf' x). simpl in Hf'. set_solver by lia. }
  assert (forall k, (length l1 < k)%nat -> free_place bp base k h = OK x.1 h) as Hup.
  { intros k Hk. replace base with (nxt (l1 ++ [x]) 0).
    - by apply (free_place_up bp h l1 x l2).
    - destruct l1 as [|b l1]; injection E as <- E'; done. }
  apply list_elem_of_fmap in Hp as (b & -> & Hin).
  apply elem_of_app in Hin as [Hin|[->|Hin]%elem_of_cons].
  - apply list_elem_of_split in Hin as (u & v & ->). rewrite <- app_assoc in Hc0, Hr0. simpl in *.
    apply chain_app in Hc0 as [_ Hc0]. apply (free_place_up bp h (b :: v) x l2); [done| |lia|done|].
    + by apply rising_app_r in Hr0.
    + rewrite length_app in Hlen. simpl in *. lia.
  - apply chain_app in Hc0 as [_ Hc0]. apply (free_place_up bp h [] x l2); [done| |lia|done|simpl; lia].
    by apply rising_app_r in Hr0.
  - apply list_elem_of_split in Hin as (u & v & ->).
    assert (l1 ++ x :: u ++ b :: v = (l1 ++ x :: u) ++ b :: v) as Ea by (by rewrite <- app_assoc).
    rewrite Ea in Hc0, Hr0. apply chain_app in Hc0 as [_ Hc0].
    rewrite length_app in Hlen. simpl in Hlen.
    change b.1 with (nxt (b :: v) base). rewrite free_place_wrap; [apply Hup; simpl; lia|done| |done| |simpl; lia].
    + by apply rising_app_r in Hr0.
    + intros c Hc'. apply H2. set_solver.
Qed.

(** * Merging *)

Ltac blia := unfold apart, bend, HDR in *; cbn [fst snd] in *; lia.

(** The block [b] can stand between the lists [l1] and [l2], away from the
    live blocks; it may touch its neighbours. *)
Record fits (lo hi : Z) (l1 : list (Z * Z)) (b : Z * Z) (l2 : list (Z * Z)) (live : gmap Z Z) : Prop := {
  f_in : lo <= b.1 /\ 0 < b.2 /\ bend b <= hi;
  f_low : forall c, c ∈ l1 -> bend c <= b.1;
  f_up : forall c, c ∈ l2 -> bend b <= c.1;
  f_apart : forall a n, live !! a = Some n -> apart b (a, n);
}.

(** What is known of the free blocks. *)
Record frees (lo hi : Z) (L : list (Z * Z)) (live : gmap Z Z) : Prop := {
  fr_ordered : ordered L;
  fr_in : forall b, b ∈ L -> lo <= b.1 /\ 0 < b.2 /\ bend b <= hi;
  fr_apart : forall b a n, b ∈ L -> live !! a = Some n -> apart b (a, n);
}.

Lemma frees_app lo hi l1 l2 live :
  frees lo hi (l1 ++ l2) live <->
  frees lo hi l1 live /\ frees lo hi l2 live /\ forall b c, b ∈ l1 -> c ∈ l2 -> bend b < c.1.
Proof.
  split.
  - intros [(H1 & H2 & H3)%ordered_app H4 H5].
    split; [|split; [|done]]; split; try done; intros; (apply H4 || eapply H5); set_solver.
  - intros ([A1 A2 A3] & [B1 B2 B3] & C). split; [by apply ordered_app| |];
      intros b; [intros [?|?]%elem_of_app|intros a n [?|?]%elem_of_app]; auto.
Qed.

Lemma frees_insert lo hi l1 b l2 live :
  frees lo hi (l1 ++ l2) live -> fits lo hi l1 b l2 live ->
  (forall c, c ∈ l1 -> bend c <> b.1) -> (forall c, c ∈ l2 -> bend b <> c.1) ->
  frees lo hi (l1 ++ b :: l2) live.
Proof.
  intros (F1 & F2 & F3)%frees_app [G1 G2 G3 G4] N1 N2.
  change (b :: l2) with ([b] ++ l2). rewrite !frees_app.
  assert (frees lo hi [b] live) as Fb.
  { split; [by repeat constructor|..]; intros c; [intros ->%list_elem_of_singleton; done|].
    intros a n ->%list_elem_of_singleton. apply G4. }
  split; [done|]. split; [split; [done|split; [done|]]|].
  - intros c d ->%list_elem_of_singleton Hd. specialize (G3 d Hd). specialize (N2 d Hd). lia.
  - intros c d Hc [->%list_elem_of_singleton|Hd]%elem_of_app; [|by apply F3].
    specialize (G2 c Hc). specialize (N1 c Hc). lia.
Qed.

(** A block that takes in the next one, or is taken in by the one before. *)
Lemma fits_up lo hi l1 b c l2 live :
  frees lo hi (l1 ++ c :: l2) live -> fits lo hi l1 b (c :: l2) live -> c.1 = bend b ->
  (forall a n, live !! a = Some n -> 0 < n) -> fits lo hi l1 (b.1, b.2 + c.2) l2 live
  /\ forall d, d ∈ l2 -> bend (b.1, b.2 + c.2) <> d.1.
Proof.
  intros F [G1 G2 G3 G4] Hc Hn. change (c :: l2) with ([c] ++ l2) in F.
  apply frees_app in F as (_ & (Fc & _ & Fl)%frees_app & _).
  destruct (fr_in _ _ _ _ Fc c ltac:(by left)) as (C1 & C2 & C3). unfold bend, HDR in *.
  assert (forall d, d ∈ l2 -> c.1 + 8 * c.2 < d.1) as Hl by (intros d Hd; apply Fl; [by left|done]).
  split; [split; cbn [fst snd]|].
  - blia.
  - intros d Hd. specialize (G2 d Hd). blia.
  - intros d Hd. specialize (Hl d Hd). blia.
  - intros a n Ha. pose proof (G4 a n Ha). pose proof (fr_apart _ _ _ _ Fc c a n ltac:(by left) Ha).
    specialize (Hn a n Ha). blia.
  - intros d Hd. specialize (Hl d Hd). blia.
Qed.

Lemma fits_down lo hi l1 b x l2 live :
  frees lo hi (l1 ++ [x]) live -> fits lo hi (l1 ++ [x]) b l2 live -> b.1 = bend x ->
  (forall a n, live !! a = Some n -> 0 < n) -> fits lo hi l1 (x.1, x.2 + b.2) l2 live
  /\ forall d, d ∈ l1 -> bend d <> x.1.
Proof.
  intros (_ & Fx & Fl)%frees_app [G1 G2 G3 G4] Hx Hn.
  destruct (fr_in _ _ _ _ Fx x ltac:(by left)) as (C1 & C2 & C3). unfold bend, HDR in *.
  assert (forall d, d ∈ l1 -> d.1 + 8 * d.2 < x.1) as Hl by (intros d Hd; apply Fl; [done|by left]).
  split; [split; cbn [fst snd]|].
  - blia.
  - intros d Hd. specialize (Hl d Hd). blia.
  - intros d Hd. specialize (G3 d Hd). blia.
  - intros a n Ha. pose proof (G4 a n Ha). pose proof (fr_apart _ _ _ _ Fx x a n ltac:(by left) Ha).
    specialize (Hn a n Ha). blia.
  - intros d Hd. specialize (Hl d Hd). blia.
Qed.

(** Headers at [a] and [b] do not overlap. *)
Definition sep (a b : Z) : Prop := a + HDR <= b \/ b + HDR <= a.

Lemma join_up_ok h bp n p l2 :
  load32 (hmem h) p = nxt l2 base -> load32 (hmem h) (bp + 4) = n -> chain (hmem h) l2 base ->
  sep p bp -> (forall c, c ∈ l2 -> sep c.1 bp /\ 0 <= c.1 < 2 ^ 32 /\ 0 <= n + c.2 < 2 ^ 32) ->
  0 <= base < bp -> 0 <= n -> bp + HDR * n < 2 ^ 32 ->
  exists n1 l2' m1, join_up bp p h = OK tt (Heap m1 (freep h) (brk h))
    /\ (forall y, y < bp \/ bp + HDR <= y -> load8 m1 y = load8 (hmem h) y)
    /\ load32 m1 bp = nxt l2' base /\ load32 m1 (bp + 4) = n1
    /\ (l2' = l2 /\ n1 = n /\ (forall c, head l2 = Some c -> bp + HDR * n <> c.1)
        \/ exists c, l2 = c :: l2' /\ c.1 = bp + HDR * n /\ n1 = n + c.2).
Proof.
  intros Hp Hn Hc Hs Hl Hb Hn0 Hn1. unfold sep, HDR in *.
  unfold join_up, s_size, s_ptr, put_size, put_ptr, plus, HDR. rewrite !bind_gets, Hn, Hp, u32_id by lia.
  assert (0 <= nxt l2 base < 2 ^ 32) as Hq by (destruct l2 as [|c l2]; simpl; [lia|apply Hl; by left]).
  destruct (Z.eqb_spec (bp + 8 * n) (nxt l2 base)) as [E|E].
  - destruct l2 as [|c l2]; simpl in E; [lia|]. destruct Hc as (C1 & C2 & C3).
    destruct (Hl c ltac:(by left)) as (Hs' & Hc1 & Hc2).
    assert (forall d, d ∈ l2 -> 0 <= d.1 < 2 ^ 32) as Hd by (intros d Hd; apply Hl; by right).
    rewrite !bind_gets, !bind_modify, !bind_gets. unfold set_hmem. cbn [hmem freep brk nxt].
    rewrite (load32_store32_ne _ _ _ p), Hp by lia. cbn [nxt].
    rewrite load32_store32_ne, C1, C2, u32_id by lia. unfold modify. cbn [hmem freep brk].
    eexists (n + c.2), l2, _. split; [reflexivity|]. cbn [hmem]. split; [|split; [|split]].
    + intros y Hy. rewrite !load8_store32_ne by lia. done.
    + rewrite load32_store32_eq. apply u32_id. destruct l2 as [|d l2]; simpl; [lia|apply Hd; by left].
    + rewrite load32_store32_ne, load32_store32_eq by lia. by apply u32_id.
    + right. exists c. split; [done|]. split; [simpl in E; lia|done].
  - unfold modify, set_hmem. cbn [hmem freep brk].
    eexists n, l2, _. split; [reflexivity|]. split; [|split; [|split]].
    + intros y Hy. by rewrite load8_store32_ne by lia.
    + rewrite load32_store32_eq. by apply u32_id.
    + by rewrite load32_store32_ne by lia.
    + left. split; [done|]. split; [done|]. intros c Hc'. destruct l2; [done|]. injection Hc' as ->. done.
Qed.

Lemma join_down_ok h bp n1 p k q :
  load32 (hmem h) (p + 4) = k -> load32 (hmem h) (bp + 4) = n1 -> load32 (hmem h) bp = q ->
  sep p bp -> 0 <= bp < 2 ^ 32 -> 0 <= q < 2 ^ 32 -> 0 <= k + n1 < 2 ^ 32 -> 0 <= p + HDR * k < 2 ^ 32 ->
  exists m1, join_down bp p h = OK tt (Heap m1 (freep h) (brk h))
    /\ (forall y, y < p \/ p + HDR <= y -> load8 m1 y = load8 (hmem h) y)
    /\ (p + HDR * k <> bp /\ load32 m1 p = bp /\ load32 m1 (p + 4) = k
        \/ p + HDR * k = bp /\ load32 m1 p = q /\ load32 m1 (p + 4) = k + n1).
Proof.
  intros Hk Hn Hq Hs Hb Hq0 Hkn Hpk. unfold sep, HDR in *.
  unfold join_down, s_size, s_ptr, put_size, put_ptr, plus, HDR. rewrite !bind_gets, Hk, u32_id by lia.
  destruct (Z.eqb_spec (p + 8 * k) bp) as [E|E].
  - rewrite !bind_gets, !bind_modify, !bind_gets, Hn. unfold set_hmem. cbn [hmem freep brk].
    rewrite load32_store32_ne, Hq, u32_id by lia. unfold modify. cbn [hmem freep brk].
    eexists. split; [reflexivity|]. split; [|right; split; [done|split]].
    + intros y Hy. by rewrite !load8_store32_ne by lia.
    + rewrite load32_store32_eq. by apply u32_id.
    + rewrite load32_store32_ne, load32_store32_eq by lia. by apply u32_id.
  - unfold modify, set_hmem. cbn [hmem freep brk].
    eexists. split; [reflexivity|]. split; [|left; split; [done|split]].
    + intros y Hy. by rewrite load8_store32_ne by lia.
    + rewrite load32_store32_eq. by apply u32_id.
    + by rewrite load32_store32_ne by lia.
Qed.

(** The list after both joins. *)
Lemma join_chain m m1 m2 bp n1 l1 x l2 l2' :
  chain m (l1 ++ x :: l2) base -> (exists u, l2 = u ++ l2') ->
  (forall y, y < bp \/ bp + HDR <= y -> load8 m1 y = load8 m y) ->
  load32 m1 bp = nxt l2' base -> load32 m1 (bp + 4) = n1 ->
  (forall y, y < x.1 \/ x.1 + HDR <= y -> load8 m2 y = load8 m1 y) ->
  sep x.1 bp -> (forall b, b ∈ l1 ++ l2 -> sep b.1 x.1 /\ sep b.1 bp) ->
  (load32 m2 x.1 = bp /\ load32 m2 (x.1 + 4) = x.2 -> chain m2 (l1 ++ x :: (bp, n1) :: l2') base)
  /\ (load32 m2 x.1 = nxt l2' base /\ load32 m2 (x.1 + 4) = x.2 + n1 ->
      chain m2 (l1 ++ (x.1, x.2 + n1) :: l2') base).
Proof.
  intros Hc [u ->] H1 Hp Hn H2 Hs Hl. unfold sep, HDR in *.
  apply chain_app in Hc as [Hc1 (_ & _ & Hc2)]. apply chain_app in Hc2 as [_ Hc2]. simpl in Hc1.
  assert (forall l, (forall b, b ∈ l -> b ∈ l1 ++ u ++ l2') -> forall d, chain m l d -> chain m2 l d) as Hk.
  { intros l Hin d Hd. eapply blocks_ext; [exact Hd|]. intros b y Hb Hy. unfold HDR in Hy.
    destruct (Hl b (Hin b Hb)) as [S1 S2]. rewrite H2, H1 by lia. done. }
  assert (chain m2 l1 x.1) as C1 by (apply Hk; [set_solver|done]).
  assert (chain m2 l2' base) as C2 by (apply Hk; [set_solver|done]).
  split; intros [E1 E2]; rewrite chain_app; (split; [done|]); simpl.
  - split; [done|]. split; [done|].
    split; [rewrite <- Hp; apply load32_ext; intros; apply H2; lia|].
    split; [rewrite <- Hn; apply load32_ext; intros; apply H2; lia|done].
  - done.
Qed.

(** The list of free blocks after both joins. *)
Lemma join_up_frees lo hi f1 bp n l2 n1 l2' live :
  frees lo hi (f1 ++ l2) live -> fits lo hi f1 (bp, n) l2 live -> (forall a n, live !! a = Some n -> 0 < n) ->
  (l2' = l2 /\ n1 = n /\ (forall c, head l2 = Some c -> bp + HDR * n <> c.1)
   \/ exists c, l2 = c :: l2' /\ c.1 = bp + HDR * n /\ n1 = n + c.2) ->
  frees lo hi (f1 ++ l2') live /\ fits lo hi f1 (bp, n1) l2' live
  /\ (forall d, d ∈ l2' -> bend (bp, n1) <> d.1) /\ n <= n1 /\ n1 + total l2' = n + total l2
  /\ (exists u, l2 = u ++ l2') /\ (length l2' <= length l2)%nat.
Proof.
  intros Fr Ft Hpos [(-> & -> & Hh)|(c & -> & Hc & ->)].
  - split; [done|]. split; [done|]. split; [|split; [lia|split; [lia|split; [by exists []|lia]]]].
    intros d Hd. destruct l2 as [|c l2]; [set_solver|]. specialize (Hh c eq_refl).
    pose proof (f_up _ _ _ _ _ _ Ft c ltac:(by left)).
    apply frees_app in Fr as (_ & Fr & _). pose proof (fr_in _ _ _ _ Fr c ltac:(by left)).
    apply elem_of_cons in Hd as [->|Hd]; [blia|]. change (c :: l2) with ([c] ++ l2) in Fr.
    apply frees_app in Fr as (_ & _ & Fr). specialize (Fr c d ltac:(by left) Hd). blia.
  - destruct (fits_up lo hi f1 (bp, n) c l2' live) as [H1 H2]; [done|done|done|done|].
    assert (frees lo hi (f1 ++ l2') live) as F'.
    { change (c :: l2') with ([c] ++ l2') in Fr. apply frees_app in Fr as (A & (_ & B & _)%frees_app & C).
      apply frees_app. split; [done|]. split; [done|]. intros. apply C; [done|]. set_solver. }
    apply frees_app in Fr as (_ & Fr & _). pose proof (fr_in _ _ _ _ Fr c ltac:(by left)).
    split; [done|]. split; [done|]. split; [done|]. split; [lia|].
    split; [unfold total; simpl; lia|]. split; [by exists [c]|simpl; lia].
Qed.

Lemma sorted_mid (R : Z * Z -> Z * Z -> Prop) l1 x l2 :
  StronglySorted R (l1 ++ x :: l2) -> (forall b, b ∈ l1 -> R b x) /\ (forall c, c ∈ l2 -> R x c).
Proof.
  induction l1 as [|b l1 IH]; simpl; intros [H1 H2]%StronglySorted_inv; rewrite Forall_forall in H2.
  - split; [set_solver|done].
  - destruct (IH H1) as [H3 H4]. split; [|done]. intros c [->|Hc]%elem_of_cons; [apply H2; set_solver|auto].
Qed.

Section ok.
Variables (lo : Z) (h : heap) (fl : list (Z * Z)) (live : gmap Z Z).
Hypothesis H : heap_ok lo h fl live.

Lemma ok_frees : frees lo (brk h) fl live.
Proof using H. split; apply H. Qed.

(** The headers of the list are apart. *)
Lemma ok_spaced : StronglySorted (fun b c => b.1 + HDR <= c.1) ((base, 0) :: fl).
Proof using H.
  destruct H as [[H0 [H1 H2]] _ _ Ho Hf _ _ _ _]. constructor.
  - clear -Ho Hf. induction Ho as [|b l Ho IH Hb]; constructor.
    + apply IH. intros c Hc. apply Hf. by right.
    + rewrite Forall_forall in *. intros c Hc. specialize (Hb c Hc). specialize (Hf b ltac:(by left)). blia.
  - apply Forall_forall. intros c Hc. specialize (Hf c Hc). simpl. blia.
Qed.

Lemma ok_rising : rising ((base, 0) :: fl).
Proof using H.
  pose proof ok_spaced as Hs. induction Hs as [|b l Hs IH Hf]; constructor; [done|].
  eapply Forall_impl; [exact Hf|]. intros c Hc. unfold HDR in Hc. lia.
Qed.

Lemma ok_addr b : b ∈ (base, 0) :: fl -> 0 < b.1 /\ 0 <= b.2 /\ bend b < KERNBASE + 1 /\ b.1 + HDR <= KERNBASE.
Proof using H.
  destruct H as [[H0 [H1 H2]] _ _ _ Hf _ _ _ _]. intros [->|Hb]%elem_of_cons; [blia|].
  specialize (Hf b Hb). blia.
Qed.

End ok.

Definition freed (lo : Z) (n : Z) (h : heap) (fl : list (Z * Z)) (live : gmap Z Z) (h' : heap) : Prop :=
  exists fl', heap_ok lo h' fl' live /\ kept live h h' /\ brk h' = brk h
    /\ (exists b, b ∈ fl' /\ n <= b.2) /\ (length fl' <= S (length fl))%nat.

(** What makes the heap well formed again after a block went back. *)
Lemma free_close lo h fl live bp n fl' m' p :
  heap_ok lo h fl live -> live !! bp = Some n -> p ∈ ((base, 0) :: fl').*1 ->
  chain m' ((base, 0) :: fl') base -> frees lo (brk h) fl' (delete bp live) ->
  total fl' = n + total fl -> kept (delete bp live) h (Heap m' p (brk h)) ->
  (exists b, b ∈ fl' /\ n <= b.2) -> (length fl' <= S (length fl))%nat ->
  freed lo n h fl (delete bp live) (Heap m' p (brk h)).
Proof.
  intros [H0 H1 H2 H3 H4 H5 H6 H7 H8] Hb Hp Hc [F1 F2 F3] Ht Hk Hx Hl.
  assert (forall a k, delete bp live !! a = Some k -> a <> bp /\ live !! a = Some k) as Hd.
  { intros a k Ha. by apply lookup_delete_Some in Ha as [? ?]. }
  exists fl'. split; [|done]. split; try done.
  - intros a k Ha. destruct (Hd a k Ha) as [_ Ha']. destruct (H5 a k Ha') as (A1 & A2). split; [|done].
    rewrite <- A1. apply load32_ext. intros x Hx'. apply (Hk a k); [done|]. destruct A2. blia.
  - intros a k a' k' Ha Ha'. destruct (Hd a k Ha), (Hd a' k' Ha'). by apply H7.
  - simpl. rewrite Ht, <- H8, (mtotal_delete live bp n) by done. lia.
Qed.

(** The joins, once the place is found: between [x] and [l2]. *)
Section joins.
Variables (lo : Z) (h : heap) (fl : list (Z * Z)) (live : gmap Z Z) (bp n : Z) (l1 : list (Z * Z)) (x : Z * Z) (l2 : list (Z * Z)).
Hypothesis H : heap_ok lo h fl live.
Hypothesis Hb : live !! bp = Some n.
Hypothesis E : (base, 0) :: fl = l1 ++ x :: l2.
Hypothesis Hx : x.1 < bp.
Hypothesis H2 : forall c, c ∈ l2 -> bp < c.1.

Lemma bp_facts : load32 (hmem h) (bp + 4) = n /\ lo <= bp /\ 0 < n /\ bp + 8 * n <= brk h /\ base + 8 <= lo.
Proof using H Hb.
  pose proof (h_base _ _ _ _ H) as (B1 & B2 & B3).
  destruct (h_live _ _ _ _ H bp n Hb) as (Hn & Hlo & Hn0 & Hbrk). unfold bend, HDR in *. simpl in Hbrk. lia.
Qed.

Lemma bp_apart b : b ∈ fl -> 0 < b.2 /\ apart b (bp, n).
Proof using H Hb.
  intros Hin. split; [apply (h_free _ _ _ _ H b Hin)|by apply (h_apart _ _ _ _ H)].
Qed.

Lemma bp_sep b : b ∈ (base, 0) :: fl -> sep b.1 bp.
Proof using H Hb.
  pose proof bp_facts. intros [->|Hin]%elem_of_cons; [unfold sep; blia|].
  pose proof (bp_apart b Hin). unfold sep. blia.
Qed.

(** The free blocks below the place, and [x] among them unless it is base. *)
Lemma joins_split : exists f1, fl = f1 ++ l2
  /\ (f1 = [] /\ l1 = [] /\ x = (base, 0) \/ exists l, l1 = (base, 0) :: l /\ f1 = l ++ [x]).
Proof using E.
  clear -E. destruct l1 as [|b l]; simpl in E.
  - injection E as <- ->. exists []. split; [done|]. by left.
  - injection E as <- ->. exists (l ++ [x]). rewrite <- app_assoc. split; [done|]. right. by exists l.
Qed.

Lemma bp_fits f1 : fl = f1 ++ l2 -> (forall b, b ∈ f1 -> b.1 <= x.1) ->
  frees lo (brk h) (f1 ++ l2) (delete bp live) /\ fits lo (brk h) f1 (bp, n) l2 (delete bp live).
Proof using H Hb Hx H2 E.
  intros Ef Hf1. pose proof bp_facts as (F1 & F2 & F3 & F4 & F5). pose proof bp_apart as Ha. rewrite Ef in Ha.
  split.
  - rewrite <- Ef. destruct (ok_frees _ _ _ _ H) as [A1 A2 A3]. split; [done|done|].
    intros b a k Hin [_ Hk]%lookup_delete_Some. by apply A3.
  - split; simpl; [blia|..].
    + intros c Hc. specialize (Hf1 c Hc). specialize (Ha c ltac:(set_solver)). blia.
    + intros c Hc. specialize (H2 c Hc). specialize (Ha c ltac:(set_solver)). blia.
    + intros a k [Hne Hk]%lookup_delete_Some. by apply (h_live_apart _ _ _ _ H).
Qed.

(** The stores to the headers at [x] and [bp] keep the live blocks. *)
Lemma joins_kept m1 m2 f b :
  (forall y, y < bp \/ bp + HDR <= y -> load8 m1 y = load8 (hmem h) y) ->
  (forall y, y < x.1 \/ x.1 + HDR <= y -> load8 m2 y = load8 m1 y) ->
  kept (delete bp live) h (Heap m2 f b).
Proof using H Hb E Hx H2.
  pose proof bp_facts as (F1 & F2 & F3 & F4 & F5).
  intros M1 M2 a k y [Hne Ha]%lookup_delete_Some Hy. simpl.
  pose proof (h_live_apart _ _ _ _ H bp n a k Hb Ha Hne) as Hap.
  destruct (h_live _ _ _ _ H a k Ha) as (_ & Hla & Hk & _).
  assert (x.1 + 8 <= a \/ bend (a, k) <= x.1) as Hxa.
  { assert (x ∈ (base, 0) :: fl) as [Hx0|Hin]%elem_of_cons by (rewrite E; set_solver).
    - rewrite Hx0. simpl. lia.
    - pose proof (h_apart _ _ _ _ H x a k Hin Ha). pose proof (h_free _ _ _ _ H x Hin). blia. }
  rewrite M2, M1; [done|blia..].
Qed.

(** What the joins make of the blocks [f1] below the place and [l2] above. *)
Definition joined (f1 : list (Z * Z)) (n1 : Z) (l2' : list (Z * Z)) : Prop :=
  frees lo (brk h) (f1 ++ l2') (delete bp live) /\ fits lo (brk h) f1 (bp, n1) l2' (delete bp live)
  /\ (forall d, d ∈ l2' -> bend (bp, n1) <> d.1) /\ n <= n1 /\ n1 + total l2' = n + total l2
  /\ (exists u, l2 = u ++ l2') /\ (length l2' <= length l2)%nat.

Lemma joins_chain : chain (hmem h) (l1 ++ x :: l2) base
  /\ load32 (hmem h) x.1 = nxt l2 base /\ load32 (hmem h) (x.1 + 4) = x.2 /\ x ∈ (base, 0) :: fl.
Proof using H Hb E Hx H2.
  assert (chain (hmem h) (l1 ++ x :: l2) base) as Hc by (rewrite <- E; apply H). split; [done|].
  pose proof (proj2 (proj1 (chain_app _ _ _ _) Hc)) as (P1 & P2 & _).
  split; [done|]. split; [done|]. rewrite E. set_solver.
Qed.

Lemma joins_run f1 : fl = f1 ++ l2 -> (forall b, b ∈ f1 -> b.1 <= x.1) ->
  exists n1 l2' m1 m2, joined f1 n1 l2'
    /\ (join_up bp x.1;; join_down bp x.1;; modify (set_freep x.1)) h = OK tt (Heap m2 x.1 (brk h))
    /\ (forall y, y < bp \/ bp + HDR <= y -> load8 m1 y = load8 (hmem h) y)
    /\ load32 m1 bp = nxt l2' base /\ load32 m1 (bp + 4) = n1
    /\ (forall y, y < x.1 \/ x.1 + HDR <= y -> load8 m2 y = load8 m1 y)
    /\ (bend x <> bp /\ load32 m2 x.1 = bp /\ load32 m2 (x.1 + 4) = x.2
        \/ bend x = bp /\ load32 m2 x.1 = nxt l2' base /\ load32 m2 (x.1 + 4) = x.2 + n1).
Proof using H Hb E Hx H2.
  intros Ef Hf1. pose proof bp_facts as (Hn & Hlo & Hn0 & Hbrk & Hbase).
  pose proof (h_base _ _ _ _ H) as (B1 & _ & B3). destruct joins_chain as (Hc & P1 & P2 & Hxin).
  assert (forall c, c ∈ l2 -> c ∈ fl) as Hsub by (rewrite Ef; set_solver).
  assert (forall c, c ∈ l2 -> 0 <= c.1 < 2 ^ 32) as Hc32.
  { intros c Hcin. destruct (ok_addr _ _ _ _ H c) as (C1 & C2 & C3 & C4); [right; by apply Hsub|].
    unfold KERNBASE in *. blia. }
  destruct (ok_addr _ _ _ _ H x Hxin) as (X1 & X2 & X3 & X4). destruct (bp_fits f1 Ef Hf1) as [Fr Ft].
  destruct (join_up_ok h bp n x.1 l2) as (n1 & l2' & m1 & J & M1 & Q1 & Q2 & Hj);
    [done|done|by apply chain_app in Hc as [_ (_ & _ & ?)]|by apply bp_sep| |lia|lia
    |unfold HDR, KERNBASE in *; lia|].
  { intros c Hcin. split; [apply bp_sep; right; by apply Hsub|]. split; [by apply Hc32|].
    destruct (ok_addr _ _ _ _ H c) as (C1 & C2 & C3 & C4); [right; by apply Hsub|]. unfold KERNBASE in *. blia. }
  pose proof (join_up_frees _ _ _ _ _ _ _ _ _ Fr Ft
    ltac:(intros a k [_ Hk]%lookup_delete_Some; apply (h_live _ _ _ _ H a k Hk)) Hj) as HJ.
  pose proof HJ as (_ & Ft' & _ & Hn1 & _ & [u Hu] & _).
  pose proof (f_in _ _ _ _ _ _ Ft') as (_ & _ & Hend). pose proof (bp_sep x Hxin) as Hs.
  destruct (join_down_ok (Heap m1 (freep h) (brk h)) bp n1 x.1 x.2 (nxt l2' base)) as (m2 & J2 & M2 & Hd).
  - rewrite <- P2. apply load32_ext. intros y Hy. apply M1. unfold sep, HDR in *. lia.
  - done.
  - done.
  - done.
  - unfold KERNBASE in *. lia.
  - destruct l2' as [|c l2']; simpl; [unfold KERNBASE in *; lia|]. apply Hc32. rewrite Hu. set_solver.
  - unfold KERNBASE in *. blia.
  - unfold KERNBASE in *. blia.
  - exists n1, l2', m1, m2. split; [exact HJ|]. split; [rewrite (bind_OK _ _ _ _ _ J), (bind_OK _ _ _ _ _ J2); done|].
    split; [done|]. split; [done|]. split; [done|]. split; [done|]. exact Hd.
Qed.

(** The place is below the first free block. *)
Lemma joins_base : x = (base, 0) -> l1 = [] ->
  wp (join_up bp x.1;; join_down bp x.1;; modify (set_freep x.1)) h
    (fun _ h' => freed lo n h fl (delete bp live) h').
Proof using H Hb E Hx H2.
  intros Hx0 Hl1. pose proof bp_facts as (Hn & Hlo & Hn0 & Hbrk & Hbase).
  assert (fl = [] ++ l2) as Ef by (rewrite Hl1 in E; injection E as _ ->; done).
  destruct (joins_run [] Ef) as (n1 & l2' & m1 & m2 & (Fr & Ft & Hup & Hn1 & Htot & Hsuf & Hlen) & J & M1 & Q1 & Q2 & M2 & Hd);
    [set_solver|]. destruct joins_chain as (Hc & _ & _ & Hxin).
  eapply wp_intro; [exact J|]. pose proof (bp_sep x Hxin) as Hs.
  destruct Hd as [(_ & D1 & D2)|(D0 & _)]; [|rewrite Hx0 in D0; blia].
  apply (free_close lo h fl live bp n ((bp, n1) :: l2')); try done.
  - rewrite Hx0. by left.
  - destruct (join_chain (hmem h) m1 m2 bp n1 l1 x l2 l2') as [HA _]; try done.
    + rewrite Hl1. simpl. intros b Hbin. split; [|apply bp_sep; right; by rewrite Ef].
      pose proof (sorted_mid _ l1 x l2 ltac:(rewrite <- E; by eapply ok_spaced)) as [_ HS].
      right. by apply HS.
    + specialize (HA (conj D1 D2)). rewrite Hl1, Hx0 in HA. exact HA.
  - apply (frees_insert _ _ [] (bp, n1) l2'); [done|done|set_solver|done].
  - rewrite Ef. simpl. unfold total in *. simpl. lia.
  - by apply (joins_kept m1).
  - exists (bp, n1). split; [by left|done].
  - rewrite Ef. simpl. lia.
Qed.

(** The place is behind a free block. *)
Lemma joins_block l : l1 = (base, 0) :: l ->
  wp (join_up bp x.1;; join_down bp x.1;; modify (set_freep x.1)) h
    (fun _ h' => freed lo n h fl (delete bp live) h').
Proof using H Hb E Hx H2.
  intros Hl1. pose proof bp_facts as (Hn & Hlo & Hn0 & Hbrk & Hbase).
  assert (fl = (l ++ [x]) ++ l2) as Ef by (rewrite Hl1 in E; injection E as ->; by rewrite <- app_assoc).
  pose proof (sorted_mid _ l1 x l2 ltac:(rewrite <- E; by eapply ok_spaced)) as [HS1 HS2].
  destruct (joins_run (l ++ [x]) Ef) as (n1 & l2' & m1 & m2 & (Fr & Ft & Hup & Hn1 & Htot & Hsuf & Hlen) & J & M1 & Q1 & Q2 & M2 & Hd).
  { intros b [Hbin| ->%list_elem_of_singleton]%elem_of_app; [|lia].
    specialize (HS1 b). rewrite Hl1 in HS1. specialize (HS1 ltac:(set_solver)). unfold HDR in HS1. lia. }
  destruct joins_chain as (Hc & _ & _ & Hxin).
  eapply wp_intro; [exact J|]. pose proof (bp_sep x Hxin) as Hs.
  destruct (join_chain (hmem h) m1 m2 bp n1 l1 x l2 l2') as [HA HB]; try done.
  { intros b Hbin. split; [|apply bp_sep; rewrite E; set_solver].
    apply elem_of_app in Hbin as [Hbin|Hbin]; [left; by apply HS1|right; by apply HS2]. }
  pose proof (joins_kept m1 m2 x.1 (brk h) M1 M2) as Hk. rewrite Hl1 in HA, HB.
  destruct Hd as [(D0 & D1 & D2)|(D0 & D1 & D2)].
  - apply (free_close lo h fl live bp n ((l ++ [x]) ++ (bp, n1) :: l2')); try done.
    + rewrite <- app_assoc. simpl. rewrite fmap_app. set_solver.
    + rewrite <- app_assoc. by apply HA.
    + apply frees_insert; [done|done| |done]. intros c [Hcin| ->%list_elem_of_singleton]%elem_of_app; [|done].
      pose proof (fr_ordered _ _ _ _ (ok_frees _ _ _ _ H)) as Ho. rewrite Ef, <- app_assoc in Ho.
      apply sorted_mid in Ho as [Ho _]. specialize (Ho c Hcin). simpl. lia.
    + rewrite Ef, !total_app. unfold total in *. simpl. lia.
    + exists (bp, n1). split; [set_solver|done].
    + rewrite Ef, !length_app. simpl. lia.
  - destruct (fits_down lo (brk h) l (bp, n1) x l2' (delete bp live)) as [Ft2 Hlow]; [|done|done| |].
    { by apply frees_app in Fr as [? _]. }
    { intros a k [_ Hkk]%lookup_delete_Some. apply (h_live _ _ _ _ H a k Hkk). }
    apply (free_close lo h fl live bp n (l ++ (x.1, x.2 + n1) :: l2')); try done.
    + simpl. rewrite fmap_app. set_solver.
    + by apply HB.
    + apply frees_insert; [|done|done|].
      * rewrite <- app_assoc in Fr. apply frees_app in Fr as (A & (_ & B & _)%frees_app & C).
        apply frees_app. split; [done|]. split; [done|]. intros. apply C; set_solver.
      * intros c Hcin. specialize (Hup c Hcin). blia.
    + rewrite Ef, !total_app. unfold total in *. simpl. lia.
    + exists (x.1, x.2 + n1). split; [set_solver|]. pose proof (h_free _ _ _ _ H x) as Hfx.
      specialize (Hfx ltac:(rewrite Ef; set_solver)). simpl. lia.
    + rewrite Ef, !length_app. simpl. lia.
Qed.

End joins.

Lemma free_ok lo h fl live bp n fuel :
  heap_ok lo h fl live -> live !! bp = Some n -> (length fl < fuel)%nat ->
  wp (free fuel (bp + HDR)) h (fun _ h' => freed lo n h fl (delete bp live) h').
Proof.
  intros H Hb Hf. pose proof (h_base _ _ _ _ H) as (B1 & B2 & B3).
  pose proof (bp_facts _ _ _ _ _ _ H Hb) as (Hn & Hlo & Hn0 & Hbrk & Hbase).
  unfold free. replace (plus (bp + HDR) (-1)) with bp by (unfold plus, HDR, KERNBASE in *; rewrite u32_id; lia).
  apply wp_bind, wp_gets.
  destruct (free_place_ok bp h fl (freep h) fuel) as (l1 & x & l2 & E & Hx & H2 & Hp);
    [apply H|by eapply ok_rising|lia| |apply H|lia|].
  { intros b Hin. pose proof (bp_sep _ _ _ _ _ _ H Hb b ltac:(by right)) as Hs. unfold sep, HDR in Hs. lia. }
  apply wp_bind. eapply wp_intro; [exact Hp|]. cbv beta.
  destruct (joins_split fl l1 x l2 E) as (f1 & _ & [(_ & Hl1 & Hx0)|(l & Hl1 & _)]).
  - by eapply joins_base.
  - by eapply joins_block.
Qed.

(** * morecore *)

(** The memory that sbrk gave, as a block that is live. *)
Lemma heap_grown lo h fl live m nu :
  heap_ok lo h fl live -> 0 < nu < 2 ^ 32 -> brk h + HDR * nu <= KERNBASE ->
  (forall x, x < brk h -> load8 m x = load8 (hmem h) x) ->
  live !! brk h = None
  /\ heap_ok lo (Heap (store32 m (brk h + 4) nu) (freep h) (brk h + HDR * nu)) fl (<[brk h := nu]> live)
  /\ kept live h (Heap (store32 m (brk h + 4) nu) (freep h) (brk h + HDR * nu)).
Proof.
  intros H Hnu Hk Hm. pose proof (h_base _ _ _ _ H) as (B1 & B2 & B3).
  assert (live !! brk h = None) as Hnone.
  { destruct (live !! brk h) as [n|] eqn:E; [|done]. destruct (h_live _ _ _ _ H _ _ E) as (_ & _ & ? & ?). blia. }
  assert (forall x, x < brk h -> load8 (store32 m (brk h + 4) nu) x = load8 (hmem h) x) as Hs.
  { intros x Hx. rewrite load8_store32_ne by lia. by apply Hm. }
  assert (kept live h (Heap (store32 m (brk h + 4) nu) (freep h) (brk h + HDR * nu))) as Hkept.
  { intros a n x Ha Hx. apply Hs. destruct (h_live _ _ _ _ H a n Ha). lia. }
  split; [done|]. split; [|done]. split; cbn [hmem freep brk].
  - blia.
  - apply H.
  - eapply blocks_ext; [apply H|]. intros b x Hb Hx. apply Hs.
    apply elem_of_cons in Hb as [->|Hb]; [simpl in Hx; blia|]. pose proof (h_free _ _ _ _ H b Hb). blia.
  - apply H.
  - intros b Hb. pose proof (h_free _ _ _ _ H b Hb). blia.
  - intros a n [[<- <-]|[Hne Ha]]%lookup_insert_Some.
    + split; [rewrite load32_store32_eq; by apply u32_id; lia|]. blia.
    + destruct (h_live _ _ _ _ H a n Ha) as (A1 & A2). split; [|blia].
      rewrite <- A1. apply load32_ext. intros x Hx. apply Hs. blia.
  - intros b a n Hb [[<- <-]|[Hne Ha]]%lookup_insert_Some; [|by apply (h_apart _ _ _ _ H)].
    pose proof (h_free _ _ _ _ H b Hb). blia.
  - assert (forall a n, live !! a = Some n -> apart (a, n) (brk h, nu)) as Hnew.
    { intros a n Ha. destruct (h_live _ _ _ _ H a n Ha) as (_ & A2). blia. }
    intros a n a' n' [[<- <-]|[Hne Ha]]%lookup_insert_Some [[<- <-]|[Hne' Ha']]%lookup_insert_Some Hd.
    + done.
    + destruct (Hnew a' n' Ha'); [by right|by left].
    + by apply Hnew.
    + by apply (h_live_apart _ _ _ _ H).
  - rewrite mtotal_insert by done. pose proof (h_total _ _ _ _ H). unfold HDR in *. lia.
Qed.

Lemma kept_trans live h h1 h2 : kept live h h1 -> kept live h1 h2 -> kept live h h2.
Proof. intros H1 H2 a n x Ha Hx. rewrite (H2 a n x Ha Hx). by apply (H1 a n). Qed.

Lemma morecore_ok lo h fl live nu fuel :
  heap_ok lo h fl live -> 0 < nu -> HDR * nu < 2 ^ 31 -> (length fl < fuel)%nat ->
  wp (morecore fuel nu) h (fun r h' => r = 0 /\ h' = h
    \/ r = freep h' /\ r <> 0 /\ exists fl', heap_ok lo h' fl' live /\ kept live h h'
         /\ (exists b, b ∈ fl' /\ nu <= b.2) /\ (length fl' <= S (length fl))%nat).
Proof.
  intros H Hnu Hsz Hf. pose proof (h_base _ _ _ _ H) as (B1 & B2 & B3). unfold morecore.
  set (k := if nu <? 4096 then 4096 else nu).
  assert (nu <= k /\ 0 < k /\ 0 < HDR * k < 2 ^ 31) as (Hk1 & Hk2 & Hk3).
  { unfold k, HDR in *. destruct (Z.ltb_spec nu 4096); lia. }
  rewrite s32_id by (unfold HDR in *; lia). rewrite (Z.mul_comm k). apply wp_bind.
  destruct (sbrk_spec (HDR * k) h Hk3) as [E|(m & E & Hb & Hm)]; unfold wp at 1; rewrite E.
  - simpl. by left.
  - destruct (Z.eqb_spec (brk h) (-1)) as [?|_]; [unfold HDR in *; lia|].
    destruct (heap_grown lo h fl live m k H) as (Hnone & Hok & Hkept); [unfold HDR in *; lia|done|done|].
    apply wp_bind, wp_modify. unfold set_hmem. simpl.
    assert (plus (brk h) 1 = brk h + HDR) as ->
      by (unfold plus, HDR, KERNBASE in *; rewrite u32_id; lia).
    apply wp_bind. eapply wp_mono; [apply (free_ok lo _ fl (<[brk h := k]> live) (brk h) k);
      [exact Hok|apply lookup_insert_eq|done]|].
    intros _ h' (fl' & Hok' & Hkept' & _ & (b & Hb1 & Hb2) & Hlen). rewrite delete_insert_id in Hok', Hkept' by done.
    apply wp_gets. right. split; [done|].
    pose proof (h_freep _ _ _ _ Hok') as Hfp. apply list_elem_of_fmap in Hfp as (c & -> & Hc).
    destruct (ok_addr _ _ _ _ Hok' c Hc). split; [lia|]. exists fl'. split; [done|].
    split; [by eapply kept_trans|]. split; [|done]. exists b. split; [done|lia].
Qed.

(** * malloc *)

(** A block of [nunits] units was handed out, at [r]. *)
Definition handed (lo : Z) (live : gmap Z Z) (nunits : Z) (h : heap) (r : Z) (h' : heap) : Prop :=
  exists a fl', r = a + HDR /\ live !! a = None /\ heap_ok lo h' fl' (<[a := nunits]> live) /\ kept live h h'.

(** A piece [c] of the free block [b] becomes live, and [rest] of it stays
    free. *)
Section carve.
Variables (lo : Z) (h : heap) (f1 : list (Z * Z)) (b : Z * Z) (f2 : list (Z * Z)) (live : gmap Z Z)
  (rest : list (Z * Z)) (c : Z * Z).
Hypothesis H : heap_ok lo h (f1 ++ b :: f2) live.
Hypothesis Hc : b.1 <= c.1 /\ bend c = bend b /\ 0 < c.2.
Hypothesis Hrest : rest = [] /\ c = b \/ exists k, rest = [(b.1, k)] /\ 0 < k /\ b.1 + HDR * k = c.1.

Lemma carve_apart a n : live !! a = Some n -> apart c (a, n) /\ 0 < n.
Proof using H Hc Hrest.
  intros Ha. destruct (h_live _ _ _ _ H a n Ha) as (_ & _ & Hn & _). split; [|done].
  pose proof (h_apart _ _ _ _ H b a n ltac:(set_solver) Ha). blia.
Qed.

Lemma carve_new : live !! c.1 = None.
Proof using H Hc Hrest.
  destruct (live !! c.1) as [n|] eqn:E; [|done]. pose proof (carve_apart _ _ E). blia.
Qed.

Lemma carve_rest : frees lo (brk h) (f1 ++ rest ++ f2) live.
Proof using H Hc Hrest.
  pose proof carve_apart as Hap.
  pose proof (h_free _ _ _ _ H b ltac:(set_solver)) as Hb.
  destruct (proj1 (frees_app _ _ _ _ _) (ok_frees _ _ _ _ H)) as (Fr1 & Fr2 & Fr3).
  change (b :: f2) with ([b] ++ f2) in Fr2, Fr3. apply frees_app in Fr2 as (Frb & Fr2 & Frb2).
  assert (frees lo (brk h) (f1 ++ f2) live) as Fr.
  { apply frees_app. split; [done|]. split; [done|]. intros. apply Fr3; set_solver. }
  destruct Hrest as [(-> & ->)|(k & -> & Hk0 & Hk1)]; [done|]. apply frees_insert; [done|split; simpl|..].
  - blia.
  - intros d Hd. specialize (Fr3 d b Hd ltac:(set_solver)). blia.
  - intros d Hd. specialize (Frb2 b d ltac:(by left) Hd). blia.
  - intros a n Ha. pose proof (h_apart _ _ _ _ H b a n ltac:(set_solver) Ha). specialize (Hap a n Ha). blia.
  - intros d Hd. specialize (Fr3 d b Hd ltac:(set_solver)). simpl. lia.
  - intros d Hd. specialize (Frb2 b d ltac:(by left) Hd). blia.
Qed.

Lemma carve_frees : frees lo (brk h) (f1 ++ rest ++ f2) (<[c.1 := c.2]> live).
Proof using H Hc Hrest.
  destruct carve_rest as [G1 G2 G3]. split; [done|done|].
  intros d a n Hd [[<- <-]|[_ Ha]]%lookup_insert_Some; [|by apply G3]. rewrite <- surjective_pairing.
  destruct (proj1 (frees_app _ _ _ _ _) (ok_frees _ _ _ _ H)) as (_ & Fr2 & Fr3).
  change (b :: f2) with ([b] ++ f2) in Fr2, Fr3. apply frees_app in Fr2 as (_ & _ & Frb2).
  apply elem_of_app in Hd as [Hd|[Hd|Hd]%elem_of_app].
  - pose proof (Fr3 d b Hd ltac:(set_solver)). blia.
  - destruct Hrest as [(-> & _)|(k & -> & _ & Hk1)]; [set_solver|]. apply list_elem_of_singleton in Hd as ->. blia.
  - pose proof (Frb2 b d ltac:(by left) Hd). blia.
Qed.

Lemma carve_close m' x :
  x ∈ ((base, 0) :: f1).*1 -> chain m' ((base, 0) :: f1 ++ rest ++ f2) base ->
  load32 m' (c.1 + 4) = c.2 -> kept live h (Heap m' x (brk h)) ->
  handed lo live c.2 h (c.1 + HDR) (Heap m' x (brk h)).
Proof using H Hc Hrest.
  intros Hx Hch Hsz Hk. exists c.1, (f1 ++ rest ++ f2). split; [done|]. split; [apply carve_new|].
  split; [|done]. destruct carve_frees as [F1 F2 F3]. pose proof carve_apart as Hap.
  pose proof (h_free _ _ _ _ H b ltac:(set_solver)) as Hb.
  split; try done.
  - apply H.
  - simpl. rewrite fmap_app. set_solver.
  - intros a n [[<- <-]|[_ Ha]]%lookup_insert_Some; [simpl; blia|].
    destruct (h_live _ _ _ _ H a n Ha) as (A1 & A2). split; [|done].
    rewrite <- A1. apply load32_ext. intros y Hy. apply (Hk a n); [done|]. blia.
  - intros a n a' n' [[<- <-]|[_ Ha]]%lookup_insert_Some [[<- <-]|[_ Ha']]%lookup_insert_Some Hne.
    + done.
    + rewrite <- surjective_pairing. by apply Hap.
    + specialize (Hap a n Ha). blia.
    + by apply (h_live_apart _ _ _ _ H).
  - simpl. rewrite mtotal_insert by apply carve_new. rewrite <- (h_total _ _ _ _ H), !total_app.
    assert (total rest + c.2 = b.2) as Ht.
    { destruct Hrest as [(-> & ->)|(k & -> & _ & Hk1)]; unfold total; simpl; blia. }
    unfold total in *. simpl. lia.
Qed.

End carve.

Section carving.
Variables (lo : Z) (h : heap) (f1 : list (Z * Z)) (b : Z * Z) (f2 : list (Z * Z)) (live : gmap Z Z)
  (l : list (Z * Z)) (x k nunits : Z).
Hypothesis H : heap_ok lo h (f1 ++ b :: f2) live.
Hypothesis El : (base, 0) :: f1 = l ++ [(x, k)].
Hypothesis Hn : 0 < nunits <= b.2.

Lemma carving_facts :
  chain (hmem h) (l ++ [(x, k)]) b.1 /\ load32 (hmem h) b.1 = nxt f2 base /\ load32 (hmem h) (b.1 + 4) = b.2
  /\ chain (hmem h) f2 base
  /\ (forall d, d ∈ l -> d.1 + HDR <= x) /\ (forall d, d ∈ l ++ [(x, k)] -> d.1 + HDR <= b.1)
  /\ (forall d, d ∈ f2 -> bend b < d.1) /\ 0 < b.1 /\ bend b <= KERNBASE
  /\ (forall d, d ∈ f2 -> d.1 < KERNBASE).
Proof using H El Hn.
  pose proof (h_chain _ _ _ _ H) as Hc. pose proof (ok_spaced _ _ _ _ H) as Hs. rewrite app_comm_cons, El in Hc, Hs.
  apply chain_app in Hc as [Hc1 (Hp & Hz & Hc2)].
  pose proof (sorted_mid _ _ _ _ Hs) as [S1 _]. rewrite <- app_assoc in Hs. apply sorted_mid in Hs as [S2 _].
  pose proof (fr_ordered _ _ _ _ (ok_frees _ _ _ _ H)) as [_ S3]%sorted_mid.
  destruct (ok_addr _ _ _ _ H b ltac:(set_solver)) as (A1 & A2 & A3 & A4).
  repeat (split; [solve [done | lia]|]). intros d Hd. destruct (ok_addr _ _ _ _ H d ltac:(set_solver)). blia.
Qed.

Lemma carve_all : b.2 = nunits -> wp (carve x b.1 b.2 nunits) h (handed lo live nunits h).
Proof using H El Hn.
  intros He. destruct carving_facts as (C1 & C2 & C3 & C4 & S1 & S2 & S3 & B1 & B2 & S4).
  pose proof (h_base _ _ _ _ H) as (K1 & K2 & K3).
  assert ((x, k) ∈ (base, 0) :: f1) as Hx by (rewrite El; set_solver).
  unfold carve. rewrite (proj2 (Z.eqb_eq _ _) He). unfold wp, s_ptr, put_ptr. mrun.
  unfold set_hmem, set_freep. cbn [hmem freep brk]. rewrite C2.
  replace (plus b.1 1) with (b.1 + HDR) by (unfold plus, KERNBASE in *; rewrite u32_id; blia).
  rewrite <- He. apply (carve_close lo h f1 b f2 live []); [done|lia|by left|..].
  - apply list_elem_of_fmap. by exists (x, k).
  - cbn [app]. rewrite app_comm_cons, El. apply chain_app. split.
    + apply (chain_relink _ _ _ _ b.1); [done|destruct f2 as [|d f2']; simpl|].
      * unfold KERNBASE in *. blia.
      * specialize (S4 d ltac:(by left)). specialize (S3 d ltac:(by left)). unfold KERNBASE in *. blia.
      * intros d Hd. specialize (S1 d Hd). left. blia.
    + eapply blocks_ext; [done|]. intros d y Hd Hy. apply load8_store32_ne. right.
      specialize (S3 d Hd). specialize (S2 (x, k) ltac:(set_solver)). blia.
  - rewrite load32_store32_ne; [done|]. specialize (S2 (x, k) ltac:(set_solver)). blia.
  - intros a n y Ha Hy. apply load8_store32_ne. destruct (h_live _ _ _ _ H a n Ha) as (_ & A1 & A2 & _).
    apply elem_of_cons in Hx as [[= -> ->]|Hx]; [blia|].
    pose proof (h_free _ _ _ _ H (x, k) ltac:(set_solver)).
    pose proof (h_apart _ _ _ _ H (x, k) a n ltac:(set_solver) Ha). blia.
Qed.

Lemma carve_tail : b.2 <> nunits -> wp (carve x b.1 b.2 nunits) h (handed lo live nunits h).
Proof using H El Hn.
  intros He. destruct carving_facts as (C1 & C2 & C3 & C4 & S1 & S2 & S3 & B1 & B2 & S4).
  pose proof (h_base _ _ _ _ H) as (K1 & K2 & K3).
  assert ((x, k) ∈ (base, 0) :: f1) as Hx by (rewrite El; set_solver).
  unfold carve. rewrite (proj2 (Z.eqb_neq _ _) He). unfold wp, put_size. mrun.
  unfold set_hmem, set_freep. cbn [hmem freep brk].
  set (r := b.2 - nunits). assert (plus b.1 r = b.1 + HDR * r) as -> by (unfold plus, r, KERNBASE in *; rewrite u32_id; blia).
  replace (plus (b.1 + HDR * r) 1) with (b.1 + HDR * r + HDR) by (unfold plus, r, KERNBASE in *; rewrite u32_id; blia).
  apply (carve_close lo h f1 b f2 live [(b.1, r)] (b.1 + HDR * r, nunits)); [done|unfold r; blia| |..].
  - right. exists r. unfold r. split; [done|]. simpl. lia.
  - apply list_elem_of_fmap. by exists (x, k).
  - set (m' := store32 _ _ _).
    assert (forall y, y < b.1 + 4 \/ bend b <= y -> load8 m' y = load8 (hmem h) y) as Hm.
    { intros y Hy. unfold m', r in *. rewrite !load8_store32_ne by blia. done. }
    cbn [app]. rewrite app_comm_cons, El. apply chain_app. split; [|split; [|split]].
    + simpl. eapply blocks_ext; [done|]. intros d y Hd Hy. apply Hm. specialize (S2 d Hd). blia.
    + simpl. rewrite <- C2. apply load32_ext. intros y Hy. apply Hm. lia.
    + simpl. unfold m'. rewrite load32_store32_ne by (unfold r; blia). rewrite load32_store32_eq.
      apply u32_id. unfold r, KERNBASE in *. blia.
    + eapply blocks_ext; [done|]. intros d y Hd Hy. apply Hm. specialize (S3 d Hd). blia.
  - simpl. rewrite load32_store32_eq. apply u32_id. unfold KERNBASE in *. blia.
  - intros a n y Ha Hy. simpl. destruct (h_live _ _ _ _ H a n Ha) as (_ & A1 & A2 & _).
    pose proof (h_apart _ _ _ _ H b a n ltac:(set_solver) Ha).
    rewrite !load8_store32_ne by (unfold r; blia). done.
Qed.

End carving.

(** The blocks [pre] come before the one at hand, and [prev] is the last of
    them. *)
Definition before (pre : list (Z * Z)) (prev : Z) : Prop := pre = [] \/ exists l k, pre = l ++ [(prev, k)].

Lemma carve_ok lo h fl live pre d post prev nunits :
  heap_ok lo h fl live -> (base, 0) :: fl = pre ++ d :: post -> before pre prev -> 0 < nunits <= d.2 ->
  wp (carve prev d.1 d.2 nunits) h (handed lo live nunits h).
Proof.
  intros H E [->|(l & k & ->)] Hn.
  - injection E as <- _. simpl in Hn. lia.
  - destruct (l ++ [(prev, k)]) as [|c f1] eqn:El; [by destruct l|]. injection E as <- ->.
    destruct (decide (d.2 = nunits)); [by eapply carve_all|by eapply carve_tail].
Qed.

Section scan.
Variables (lo : Z) (h : heap) (fl : list (Z * Z)) (live : gmap Z Z) (nunits : Z) (lf : nat).
Variable Q : Z -> heap -> Prop.
Hypothesis H : heap_ok lo h fl live.
Hypothesis Hn : 0 < nunits.
Hypothesis HQ : forall r h', handed lo live nunits h r h' -> Q r h'.

(** A stretch of the list without freep. *)
Lemma scan_seg seg pre post prev fuel :
  (base, 0) :: fl = pre ++ seg ++ post -> (length seg <= fuel)%nat -> (forall d, d ∈ seg -> d.1 <> freep h) ->
  before pre prev ->
  ((forall d, d ∈ seg -> d.2 < nunits) -> forall prev', before (pre ++ seg) prev' ->
     wp (malloc_loop lf nunits prev' (nxt post base) (fuel - length seg)) h Q) ->
  wp (malloc_loop lf nunits prev (nxt (seg ++ post) base) fuel) h Q.
Proof using H Hn HQ.
  revert pre prev fuel. induction seg as [|d seg IH]; intros pre prev fuel E Hf Hd Hp Hk.
  - rewrite <- (Nat.sub_0_r fuel). apply Hk; [set_solver|]. by rewrite app_nil_r.
  - simpl in *. destruct fuel as [|fuel]; [lia|]. simpl.
    pose proof (h_chain _ _ _ _ H) as Hc. rewrite E in Hc. apply chain_app in Hc as [_ (C1 & C2 & _)].
    unfold s_size, s_ptr. apply wp_bind, wp_gets. rewrite C2.
    destruct (Z.leb_spec nunits d.2) as [Hle|Hlt].
    + eapply wp_mono; [by eapply carve_ok|]. exact HQ.
    + apply wp_bind, wp_gets. rewrite (proj2 (Z.eqb_neq _ _) (Hd d ltac:(by left))).
      apply wp_bind, wp_ret, wp_bind, wp_gets. rewrite C1.
      apply (IH (pre ++ [d])); [by rewrite <- app_assoc|lia|intros; apply Hd; by right
        |right; exists pre, d.2; by destruct d|].
      intros Hs prev'. rewrite <- app_assoc. apply Hk. intros c [->|Hc']%elem_of_cons; [done|by apply Hs].
Qed.

(** A turn around the list, from freep back to it. *)
Lemma scan_all l1 f l2 fuel :
  (base, 0) :: fl = l1 ++ f :: l2 -> f.1 = freep h -> (S (length fl) < fuel)%nat ->
  ((forall d, d ∈ (base, 0) :: fl -> d.2 < nunits) ->
     wp (q ← morecore lf nunits;
         match (if q =? 0 then None else Some q) with
         | None => mret 0
         | Some p => q ← s_ptr p; malloc_loop lf nunits p q (fuel - S (length fl))
         end) h Q) ->
  wp (malloc_loop lf nunits f.1 (nxt l2 base) fuel) h Q.
Proof using H Hn HQ.
  intros E Hf Hfuel Hk.
  pose proof (ok_rising _ _ _ _ H) as Hr. rewrite E in Hr. apply sorted_mid in Hr as [R1 R2].
  pose proof (f_equal length E) as Hlen. rewrite length_app in Hlen. simpl in Hlen.
  rewrite <- (app_nil_r l2). apply (scan_seg l2 (l1 ++ [f]) []).
  { rewrite app_nil_r, <- app_assoc. exact E. } { lia. }
  { intros d Hd. specialize (R2 d Hd). lia. } { right. exists l1, f.2. by destruct f. }
  intros S2 prev' _. simpl. replace base with (nxt (l1 ++ f :: l2) base) at 1 by (rewrite <- E; done).
  apply (scan_seg l1 [] (f :: l2)); [done|lia| |by left|].
  { intros d Hd. specialize (R1 d Hd). lia. }
  intros S1 prev Hp. simpl in Hp. simpl nxt.
  destruct (fuel - length l2 - length l1)%nat as [|k] eqn:Ek; [lia|]. simpl.
  pose proof (h_chain _ _ _ _ H) as Hc. rewrite E in Hc. apply chain_app in Hc as [_ (C1 & C2 & _)].
  apply wp_bind. unfold s_size at 1. apply wp_gets. rewrite C2.
  destruct (Z.leb_spec nunits f.2) as [Hle|Hlt].
  - eapply wp_mono; [by eapply carve_ok|]. exact HQ.
  - apply wp_bind, wp_gets. rewrite Hf, Z.eqb_refl.
    replace k with (fuel - S (length fl))%nat by lia.
    unfold wp. rewrite bind_assoc. apply Hk. rewrite E.
    intros d [Hd|[->|Hd]%elem_of_cons]%elem_of_app; auto.
Qed.

End scan.

Lemma malloc_loop_ok lo h fl live nunits l1 f l2 fuel :
  heap_ok lo h fl live -> 0 < nunits -> HDR * nunits < 2 ^ 31 ->
  (base, 0) :: fl = l1 ++ f :: l2 -> f.1 = freep h -> (2 * length fl + 4 < fuel)%nat ->
  wp (malloc_loop fuel nunits f.1 (nxt l2 base) fuel) h (fun r h' =>
    r = 0 /\ h' = h \/ handed lo live nunits h r h').
Proof.
  intros H Hn Hs E Hf Hfuel. apply (scan_all lo h fl live) with (l1 := l1); try done; [by right|lia|].
  intros _. apply wp_bind. eapply wp_mono; [apply morecore_ok; [done|done|done|lia]|].
  intros q h' [(-> & ->)|(-> & Hq & fl' & H' & Hk & (b & Hb & Hb2) & Hlen)].
  - simpl. by left.
  - rewrite (proj2 (Z.eqb_neq _ _) Hq). apply wp_bind, wp_gets.
    pose proof (h_freep _ _ _ _ H') as Hfp. apply list_elem_of_fmap in Hfp as (f' & Hf' & Hin).
    apply list_elem_of_split in Hin as (l1' & l2' & E').
    pose proof (h_chain _ _ _ _ H') as Hc. rewrite E' in Hc. apply chain_app in Hc as [_ (C1 & _)].
    rewrite Hf', C1. apply (scan_all lo h' fl' live) with (l1 := l1'); try done; [|lia|].
    + intros r h2 (a & fl2 & -> & Ha & Hok & Hk2). right. exists a, fl2. split; [done|]. split; [done|].
      split; [done|]. by eapply kept_trans.
    + intros Hsmall. specialize (Hsmall b ltac:(by right)). lia.
Qed.

(** * A program and its blocks *)

(** The result of a computation with enough fuel. *)
Definition yields {A} (m : nat -> M heap A) (h : heap) (a : A) (h' : heap) : Prop :=
  exists k, forall fuel, (k <= fuel)%nat -> m fuel h = OK a h'.

(** What a program can do with its heap: allocate, give back a block it has,
    and store to the bytes of its blocks.  [live] are its blocks. *)
Inductive program (lo : Z) : heap -> gmap Z Z -> Prop :=
| pr_start h : 0 < base -> base + HDR <= lo -> lo = brk h -> lo <= KERNBASE -> freep h = 0 -> program lo h ∅
| pr_malloc h live nbytes r h' :
    program lo h live -> 0 <= nbytes <= 2 ^ 31 - 32 -> yields (fun fuel => malloc fuel nbytes) h r h' ->
    program lo h' (if r =? 0 then live else <[r - HDR := units nbytes]> live)
| pr_free h live a n h' :
    program lo h live -> live !! a = Some n -> yields (fun fuel => free fuel (a + HDR)) h tt h' ->
    program lo h' (delete a live)
| pr_store h live a n x v :
    program lo h live -> live !! a = Some n -> a + HDR <= x < bend (a, n) ->
    program lo (set_hmem (fun m => store8 m x v) h) live.

(** A program that has not allocated anything yet, or a heap. *)
Definition heap_rep (lo : Z) (h : heap) (fl : list (Z * Z)) (live : gmap Z Z) : Prop :=
  heap_ok lo h fl live
  \/ 0 < base /\ base + HDR <= lo /\ lo = brk h /\ lo <= KERNBASE /\ freep h = 0 /\ fl = [] /\ live = ∅.

Lemma units_eq n : 0 <= n <= 2 ^ 31 - 32 -> units n = (n + 7) / 8 + 1.
Proof. intros Hn. unfold units, HDR. rewrite (u32_id (n + 8 - 1)) by lia. rewrite u32_id; lia. Qed.

(** The first call of malloc makes the list. *)
Lemma heap_first lo h :
  0 < base -> base + HDR <= lo -> lo = brk h -> lo <= KERNBASE ->
  heap_ok lo (Heap (store32 (store32 (hmem h) base base) (base + 4) 0) base (brk h)) [] ∅.
Proof.
  intros. split; simpl; try set_solver.
  - rewrite (load32_store32_ne _ _ _ base), !load32_store32_eq by lia. split; [|done].
    apply u32_id. unfold KERNBASE, HDR in *. lia.
  - constructor.
  - unfold total, mtotal. rewrite map_fold_empty. simpl. lia.
Qed.

Lemma malloc_ok lo h fl live nbytes fuel :
  heap_rep lo h fl live -> 0 <= nbytes <= 2 ^ 31 - 32 -> (2 * length fl + 4 < fuel)%nat ->
  wp (malloc fuel nbytes) h (fun r h' =>
    r = 0 /\ heap_ok lo h' fl live /\ kept live h h' \/ handed lo live (units nbytes) h r h').
Proof.
  intros Hrep Hn Hfuel. unfold malloc. apply wp_bind, wp_gets, wp_bind.
  assert (wp (if freep h =? 0 then put_ptr base base;; modify (set_freep base);; put_size base 0 else mret tt) h
    (fun _ h1 => heap_ok lo h1 fl live /\ kept live h h1)) as H1.
  { destruct Hrep as [H|(B1 & B2 & B3 & B4 & -> & -> & ->)].
    - pose proof (h_freep _ _ _ _ H) as Hfp. apply list_elem_of_fmap in Hfp as (c & Hc & Hin).
      destruct (ok_addr _ _ _ _ H c Hin). rewrite (proj2 (Z.eqb_neq _ _)) by lia. by split.
    - rewrite Z.eqb_refl. unfold wp, put_ptr, put_size. mrun. unfold set_hmem, set_freep. cbn [hmem freep brk].
      split; [by apply heap_first|]. intros a n x Ha. by rewrite lookup_empty in Ha. }
  eapply wp_mono; [exact H1|]. clear H1. intros _ h1 [H Hk]. cbv beta.
  pose proof (h_freep _ _ _ _ H) as Hfp. apply list_elem_of_fmap in Hfp as (f & Hf & Hin).
  apply list_elem_of_split in Hin as (l1 & l2 & E).
  pose proof (h_chain _ _ _ _ H) as Hc. rewrite E in Hc. apply chain_app in Hc as [_ (C1 & _)].
  apply wp_bind, wp_gets, wp_bind. unfold s_ptr. apply wp_gets. rewrite Hf, C1. rewrite units_eq by done.
  eapply wp_mono; [apply (malloc_loop_ok lo h1 fl live ((nbytes + 7) / 8 + 1) l1 f l2); try done; unfold HDR; lia|].
  intros r h' [(-> & ->)|(a & fl' & -> & Ha & Hok & Hk2)]; [by left|right].
  exists a, fl'. split; [done|]. split; [done|]. split; [done|]. by eapply kept_trans.
Qed.

Lemma free_place_more bp p k k' : (k <= k')%nat -> extends (free_place bp p k) (free_place bp p k').
Proof.
  revert p k'. induction k as [|k IH]; intros p [|k'] Hk; simpl; try lia; [auto with extends..|].
  apply extends_bind; [auto with extends|intros q].
  repeat case_match; [auto with extends..|]. apply IH. lia.
Qed.

Lemma free_more k k' ap : (k <= k')%nat -> extends (free k ap) (free k' ap).
Proof.
  intros Hk. unfold free. apply extends_bind; [auto with extends|intros fp].
  apply extends_bind; [by apply free_place_more|auto with extends].
Qed.

Lemma morecore_more k k' n : (k <= k')%nat -> extends (morecore k n) (morecore k' n).
Proof.
  intros Hk. unfold morecore. apply extends_bind; [auto with extends|intros p].
  case_match; [auto with extends|]. apply extends_bind; [auto with extends|intros ?].
  apply extends_bind; [by apply free_more|auto with extends].
Qed.

Lemma malloc_loop_more lf lf' n prev p k k' :
  (lf <= lf')%nat -> (k <= k')%nat -> extends (malloc_loop lf n prev p k) (malloc_loop lf' n prev p k').
Proof.
  intros Hl. revert prev p k'. induction k as [|k IH]; intros prev p [|k'] Hk; simpl; try lia; [auto with extends..|].
  apply extends_bind; [auto with extends|intros z]. case_match; [auto with extends|].
  apply extends_bind; [auto with extends|intros fp]. apply extends_bind.
  - case_match; [|auto with extends]. apply extends_bind; [by apply morecore_more|auto with extends].
  - intros [q|]; [|auto with extends]. apply extends_bind; [auto with extends|intros]. apply IH. lia.
Qed.

Lemma malloc_more k k' n : (k <= k')%nat -> extends (malloc k n) (malloc k' n).
Proof.
  intros Hk. unfold malloc. repeat (apply extends_bind; [auto with extends|intros ?]).
  by apply malloc_loop_more.
Qed.

(** What is reached with some fuel is the result. *)
Lemma wp_yields {A} (m : nat -> M heap A) k h Q :
  (forall k', (k <= k')%nat -> extends (m k) (m k')) -> wp (m k) h Q -> exists a h', yields m h a h' /\ Q a h'.
Proof.
  intros Hm (a & h' & E & HQ)%wp_elim. exists a, h'. split; [|done]. exists k. intros k' Hk. by apply (Hm k').
Qed.

Lemma handed_pos lo live n h r h' : handed lo live n h r h' -> HDR < r.
Proof.
  intros (a & fl & -> & _ & H & _). destruct (h_live _ _ _ _ H a n) as (_ & Ha & _); [apply lookup_insert_eq|].
  pose proof (h_base _ _ _ _ H). unfold HDR in *. lia.
Qed.

Lemma heap_store lo h fl live a n x v :
  heap_ok lo h fl live -> live !! a = Some n -> a + HDR <= x < bend (a, n) ->
  heap_ok lo (set_hmem (fun m => store8 m x v) h) fl live.
Proof.
  intros H Ha Hx. pose proof (h_base _ _ _ _ H) as (B1 & B2 & B3).
  destruct (h_live _ _ _ _ H a n Ha) as (A1 & A2 & A3 & A4).
  split; try apply H; unfold set_hmem; cbn [hmem brk].
  - eapply blocks_ext; [apply H|]. intros b y Hb Hy. apply load8_store8_ne.
    apply elem_of_cons in Hb as [->|Hb]; [simpl in Hy; blia|].
    pose proof (h_apart _ _ _ _ H b a n Hb Ha). pose proof (h_free _ _ _ _ H b Hb). blia.
  - intros a' n' Ha'. destruct (h_live _ _ _ _ H a' n' Ha') as (E & A1' & A2' & A3').
    split; [|done]. rewrite <- E. apply load32_ext. intros y Hy. apply load8_store8_ne.
    destruct (decide (a = a')) as [->|Hne]; [blia|].
    pose proof (h_live_apart _ _ _ _ H a n a' n' Ha Ha' Hne). blia.
Qed.

Lemma program_heap lo h live : program lo h live -> exists fl, heap_rep lo h fl live.
Proof.
  induction 1 as [h B1 B2 B3 B4 B5|h live nbytes r h' _ [fl IH] Hn [k Hk]|h live a n h' _ [fl IH] Ha [k Hk]|
    h live a n x v _ [fl IH] Ha Hx].
  - exists []. by right.
  - pose proof (malloc_ok lo h fl live nbytes (k + 2 * length fl + 5) IH Hn ltac:(lia)) as Hw.
    unfold wp in Hw. rewrite Hk in Hw by lia. destruct Hw as [(-> & H & _)|Hh]; [exists fl; by left|].
    pose proof (handed_pos _ _ _ _ _ _ Hh) as Hr. destruct Hh as (a & fl' & -> & Ha & H & _). exists fl'.
    rewrite (proj2 (Z.eqb_neq _ _)) by (unfold HDR in *; lia). left. by replace (a + HDR - HDR) with a by lia.
  - destruct IH as [H|(_ & _ & _ & _ & _ & _ & ->)]; [|done].
    pose proof (free_ok lo h fl live a n (k + length fl + 1) H Ha ltac:(lia)) as Hw.
    unfold wp in Hw. rewrite Hk in Hw by lia. destruct Hw as (fl' & H' & _). exists fl'. by left.
  - destruct IH as [H|(_ & _ & _ & _ & _ & _ & ->)]; [|done]. exists fl. left. by eapply heap_store.
Qed.

(** * Properties *)

(** C22: malloc gives a program memory that is its own.  Whatever a program
    has allocated, freed and stored before, malloc of up to 2 GB ends and
    returns 0, or the address of a block of at least the size asked for,
    inside the memory of the program, that overlaps neither the bytes nor the
    headers of the blocks the program has; the bytes of those do not change. *)
Theorem malloc_safe lo h live nbytes :
  program lo h live -> 0 <= nbytes <= 2 ^ 31 - 32 ->
  exists r h', yields (fun fuel => malloc fuel nbytes) h r h'
    /\ (r = 0 \/ lo + HDR <= r /\ r + nbytes <= brk h'
         /\ forall a n, live !! a = Some n -> r + nbytes <= a \/ bend (a, n) <= r - HDR)
    /\ kept live h h'.
Proof.
  intros [fl Hrep]%program_heap Hn.
  destruct (wp_yields (fun fuel => malloc fuel nbytes) _ _ _ ltac:(intros; by apply malloc_more)
    (malloc_ok lo h fl live nbytes (2 * length fl + 5) Hrep Hn ltac:(lia))) as (r & h' & Hy & Hw).
  exists r, h'. split; [done|]. destruct Hw as [(-> & _ & Hk)|(a & fl' & -> & Ha & H & Hk)]; [by split; [left|]|].
  split; [|done]. right. rewrite units_eq in H by done. set (n := (nbytes + 7) / 8 + 1) in H.
  destruct (h_live _ _ _ _ H a n) as (_ & H1 & H2 & H3); [apply lookup_insert_eq|].
  split; [lia|]. split; [unfold n in *; blia|]. intros a' n' Ha'.
  assert (a' <> a) as Hne by congruence.
  pose proof (h_live_apart _ _ _ _ H a n a' n' (lookup_insert_eq _ _ _)) as Hap.
  rewrite lookup_insert_ne in Hap by done. specialize (Hap Ha' (not_eq_sym Hne)). unfold n in *. blia.
Qed.

(** Ordered blocks that fill a range are one block. *)
Lemma ordered_room L lo hi :
  ordered L -> (forall b, b ∈ L -> lo <= b.1 /\ 0 < b.2 /\ bend b <= hi) -> lo <= hi ->
  HDR * total L + Z.of_nat (length L) - 1 <= hi - lo \/ L = [].
Proof.
  intros Ho. revert lo. induction Ho as [|b L Ho IH Hf]; intros lo Hin Hlo; [by right|left].
  rewrite Forall_forall in Hf. pose proof (Hin b ltac:(by left)) as Hb.
  destruct L as [|c L]; [unfold total; simpl; blia|].
  destruct (IH (bend b + 1)) as [IHl|?]; [| |unfold total in *; cbn [foldr length] in *; blia|done].
  - intros d Hd. specialize (Hf d Hd). pose proof (Hin d ltac:(by right)). lia.
  - pose proof (Hf c ltac:(by left)). pose proof (Hin c ltac:(set_solver)). blia.
Qed.

Lemma ordered_full L lo hi :
  ordered L -> (forall b, b ∈ L -> lo <= b.1 /\ 0 < b.2 /\ bend b <= hi) -> HDR * total L = hi - lo -> lo < hi ->
  exists n, L = [(lo, n)] /\ HDR * n = hi - lo.
Proof.
  intros Ho Hin Ht Hlt. destruct (ordered_room L lo hi Ho Hin) as [Hr| ->]; [lia| |unfold total in Ht; simpl in Ht; lia].
  destruct L as [|[a n] [|c L]]; [unfold total in Ht; simpl in Ht; lia| |simpl length in Hr; lia].
  pose proof (Hin (a, n) ltac:(by left)) as Hb. unfold total in Ht. simpl in Ht, Hb.
  assert (a = lo) as -> by blia. exists n. split; [done|lia].
Qed.

(** free gives a block back.  Whatever a program has allocated, freed and
    stored before, free of one of its blocks ends and leaves the other blocks
    alone; when it was the last one, the free list is one block of all the
    memory that the kernel has given the program: the pieces are joined again. *)
Theorem free_joins lo h live a n :
  program lo h live -> live !! a = Some n ->
  exists h', yields (fun fuel => free fuel (a + HDR)) h tt h' /\ brk h' = brk h /\ kept (delete a live) h h'
    /\ (delete a live = ∅ -> load32 (hmem h') base = lo /\ load32 (hmem h') lo = base
          /\ HDR * load32 (hmem h') (lo + 4) = brk h' - lo).
Proof.
  intros [fl [H|(_ & _ & _ & _ & _ & _ & ->)]]%program_heap Ha; [|done].
  destruct (wp_yields (fun fuel => free fuel (a + HDR)) _ _ _ ltac:(intros; by apply free_more)
    (free_ok lo h fl live a n (S (length fl)) H Ha ltac:(lia))) as ([] & h' & Hy & (fl' & H' & Hk & Hb & _ & _)).
  exists h'. split; [done|]. split; [done|]. split; [done|]. intros He. rewrite He in H'.
  pose proof (h_total _ _ _ _ H') as Ht. unfold mtotal in Ht. rewrite map_fold_empty in Ht.
  destruct (ordered_full fl' lo (brk h')) as (k & -> & Hk'); [apply H'|apply H'|lia| |].
  { destruct (h_live _ _ _ _ H a n Ha) as (_ & A1 & A2 & A3). blia. }
  pose proof (h_chain _ _ _ _ H') as (C1 & _ & C2 & C3 & _). simpl in *. by rewrite C3.
Qed.

End umalloc.

(** * A sample program *)

(** A kernel that has memory up to KERNBASE; the program's data ends below
    0x3000, where its heap starts. *)
#[local] Instance sample_sbrk : Sbrk.
Proof.
  refine {| sbrk n h := if brk h + n <=? KERNBASE then (brk h, Heap (hmem h) (freep h) (brk h + n)) else (-1, h) |}.
  intros n h Hn. destruct (Z.leb_spec (brk h + n) KERNBASE); [right|by left]. by exists (hmem h).
Defined.

Definition sample_base : Z := 0x2ff0.
Definition sample_start : heap := Heap (fun _ => 0) 0 0x3000.

(** The program after it has asked for 100 bytes. *)
Definition sample_one : heap := final (malloc sample_base 9 100 sample_start).

Lemma sample_one_eq : malloc sample_base 9 100 sample_start = OK 0xaf98 sample_one.
Proof. apply returns_final. vm_compute. reflexivity. Qed.

Lemma sample_program : program sample_base 0x3000 sample_one {[ 0xaf90 := 14 ]}.
Proof.
  apply (pr_malloc sample_base 0x3000 sample_start ∅ 100 0xaf98 sample_one); [by apply pr_start|lia|].
  exists 9%nat. intros k Hk. by apply (malloc_more sample_base 9 k 100 Hk), sample_one_eq.
Qed.

Lemma malloc_safe_witness :
  exists r h', yields (fun fuel => malloc sample_base fuel 1000) sample_one r h'
    /\ (r = 0 \/ 0x3000 + HDR <= r /\ r + 1000 <= brk h'
         /\ forall a n, ({[ 0xaf90 := 14 ]} : gmap Z Z) !! a = Some n -> r + 1000 <= a \/ bend (a, n) <= r - HDR)
    /\ kept {[ 0xaf90 := 14 ]} sample_one h'.
Proof. apply (malloc_safe sample_base); [exact sample_program|lia]. Defined.

Lemma free_joins_witness :
  exists h', yields (fun fuel => free fuel (0xaf90 + HDR)) sample_one tt h'
    /\ load32 (hmem h') sample_base = 0x3000 /\ HDR * load32 (hmem h') (0x3000 + 4) = brk h' - 0x3000.
Proof.
  destruct (free_joins sample_base 0x3000 sample_one {[ 0xaf90 := 14 ]} 0xaf90 14 sample_program) as (h' & H1 & _ & _ & H2).
  - reflexivity.
  - exists h'. split; [exact H1|]. destruct H2 as (H3 & _ & H4); [apply delete_singleton_eq|]. exact (conj H3 H4).
Defined.
