(* ===== verification/Ulib.v ===== *)
(** ulib.c and printf.c: the strings and the formatted output of user
    programs, over the memory of a program. *)

From S2P Require Import Prelude Mmu Str.


(** * ulib.c *)

(** The strings that the loops run over end somewhere: the fuel bounds
    them. *)
Fixpoint strcpy (m : memory) (s t : Z) (fuel : nat) : option memory :=
  match fuel with
  | O => None
  | S fuel =>
    let c := load8 m t in
    let m := store8 m s c in
    if c =? 0 then Some m else strcpy m (s + 1) (t + 1) fuel
  end.

Fixpoint strcmp (m : memory) (p q : Z) (fuel : nat) : option Z :=
  match fuel with
  | O => None
  | S fuel =>
    if negb (load8 m p =? 0) && (load8 m p =? load8 m q) then strcmp m (p + 1) (q + 1) fuel
    else Some (load8 m p - load8 m q)
  end.

Fixpoint strlen_from (m : memory) (s n : Z) (fuel : nat) : option Z :=
  match fuel with
  | O => None
  | S fuel => if load8 m (s + n) =? 0 then Some n else strlen_from m s (n + 1) fuel
  end.
Definition strlen (m : memory) (s : Z) (fuel : nat) : option Z := strlen_from m s 0 fuel.

Definition memset (m : memory) (dst c n : Z) : memory := stosb m dst c (Z.to_nat n).

(** 0 is the null pointer. *)
Fixpoint strchr (m : memory) (s c : Z) (fuel : nat) : option Z :=
  match fuel with
  | O => None
  | S fuel =>
    if load8 m s =? 0 then Some 0
    else if load8 m s =? c then Some s
    else strchr m (s + 1) c fuel
  end.

Fixpoint atoi_loop (m : memory) (s n : Z) (fuel : nat) : option Z :=
  match fuel with
  | O => None
  | S fuel =>
    let c := load8 m s in
    if (48 <=? c) && (c <=? 57) then atoi_loop m (s + 1) (s32 (n * 10 + c - 48)) fuel else Some n
  end.
Definition atoi (m : memory) (s : Z) (fuel : nat) : option Z := atoi_loop m s 0 fuel.

(** Upwards only: the source and the destination may not overlap unless the
    destination is below. *)
Definition memmove (m : memory) (dst src n : Z) : memory := move_up m dst src (Z.to_nat n).

(** * printf.c *)

Definition digits : list Z := [48; 49; 50; 51; 52; 53; 54; 55; 56; 57; 65; 66; 67; 68; 69; 70].

(** The loop that fills buf, last digit first. *)
Fixpoint digit_loop (x base : Z) (fuel : nat) : list Z :=
  match fuel with
  | O => []
  | S fuel =>
    digits !!! Z.to_nat (x mod base) :: (if x / base =? 0 then [] else digit_loop (x / base) base fuel)
  end.

(** The characters that printint writes; buf has room for 16. *)
Definition printint (xx base : Z) (sgn : bool) : list Z :=
  let neg := sgn && (s32 xx <? 0) in
  let x := if neg then u32 (- s32 xx) else u32 xx in
  rev (digit_loop x base 16 ++ (if neg then [45] else [])).

(** The arguments of printf: words, and strings by their characters, [None]
    for a null pointer. *)
Inductive uarg := AInt (v : Z) | AStr (s : option (list Z)).

(** (null) *)
Definition null_string : list Z := [40; 110; 117; 108; 108; 41].

(** What printf writes for a format and its arguments; what C leaves
    undefined, an argument that is missing or of the other kind, writes
    nothing here. *)
Fixpoint format (fmt : list Z) (args : list uarg) : list Z :=
  match fmt with
  | [] => []
  | c :: fmt =>
    if negb (c =? 37) then c :: format fmt args
    else
      match fmt with
      | [] => []
      | d :: fmt =>
        if d =? 100 then
          match args with AInt v :: args => printint v 10 true ++ format fmt args | _ => [] end
        else if (d =? 120) || (d =? 112) then
          match args with AInt v :: args => printint v 16 false ++ format fmt args | _ => [] end
        else if d =? 115 then
          match args with AStr s :: args => default null_string s ++ format fmt args | _ => [] end
        else if d =? 99 then
          match args with AInt v :: args => v mod 256 :: format fmt args | _ => [] end
        else if d =? 37 then 37 :: format fmt args
        else 37 :: d :: format fmt args
      end
  end.

(** * Numbers and their digits *)

(** The number that a list of decimal digits denotes. *)
Definition decimal (l : list Z) : Z := foldl (fun n c => n * 10 + (c - 48)) 0 l.
Definition is_digit (c : Z) : bool := (48 <=? c) && (c <=? 57).

(** The value of the digits of [digit_loop], in any base. *)
Definition digit_value (c : Z) : Z := if c <? 65 then c - 48 else c - 55.
Definition value_rev (base : Z) (l : list Z) : Z := foldr (fun c n => digit_value c + base * n) 0 l.

Lemma digits_value d : 0 <= d < 16 -> digit_value (digits !!! Z.to_nat d) = d /\ digits !!! Z.to_nat d <> 0.
Proof.
  intros Hd. assert (Forall (fun d => digit_value (digits !!! Z.to_nat d) = d /\ digits !!! Z.to_nat d <> 0) (seqZ 0 16)) as H
    by (repeat constructor; vm_compute; congruence).
  rewrite Forall_forall in H. apply H, elem_of_seqZ. lia.
Qed.

Lemma digit_loop_S x base fuel :
  digit_loop x base (S fuel) =
    digits !!! Z.to_nat (x mod base) :: (if x / base =? 0 then [] else digit_loop (x / base) base fuel).
Proof. reflexivity. Qed.

Lemma digit_loop_value base x fuel :
  2 <= base <= 16 -> 0 <= x < base ^ Z.of_nat (S fuel) ->
  value_rev base (digit_loop x base (S fuel)) = x.
Proof.
  intros Hb. revert x. induction fuel as [|fuel IH]; intros x Hx.
  - rewrite Z.pow_1_r in Hx. rewrite digit_loop_S.
    rewrite (Z.div_small x base), (Z.mod_small x base) by lia. simpl. rewrite (proj1 (digits_value x ltac:(lia))). lia.
  - replace (Z.of_nat (S (S fuel))) with (1 + Z.of_nat (S fuel)) in Hx by lia.
    rewrite Z.pow_add_r, Z.pow_1_r in Hx by lia. rewrite digit_loop_S.
    pose proof (Z.div_mod x base ltac:(lia)). pose proof (Z.mod_pos_bound x base ltac:(lia)).
    cbn [value_rev foldr]. rewrite (proj1 (digits_value (x mod base) ltac:(lia))).
    destruct (Z.eqb_spec (x / base) 0) as [E|E]; [simpl; lia|].
    fold (value_rev base (digit_loop (x / base) base (S fuel))). rewrite IH; [lia|].
    split; [apply Z.div_pos; lia|]. apply Z.div_lt_upper_bound; lia.
Qed.


Lemma digit_loop_digits x fuel : 0 <= x -> Forall (fun c => is_digit c = true) (digit_loop x 10 fuel).
Proof.
  revert x. induction fuel as [|fuel IH]; intros x Hx; [constructor|]. rewrite digit_loop_S.
  constructor.
  - assert (Forall (fun d => is_digit (digits !!! Z.to_nat d) = true) (seqZ 0 10)) as H by (repeat constructor).
    rewrite Forall_forall in H. apply H, elem_of_seqZ. lia.
  - case_match; [constructor|]. apply IH, Z.div_pos; lia.
Qed.

Lemma value_rev_decimal l :
  Forall (fun c => is_digit c = true) l -> value_rev 10 l = decimal (rev l).
Proof.
  induction 1 as [|c l Hc _ IH]; [done|]. unfold decimal in *. cbn [value_rev foldr rev].
  fold (value_rev 10 l). rewrite foldl_app, IH. simpl. unfold digit_value, is_digit in *.
  destruct (c <? 65) eqn:E; lia.
Qed.

(** atoi keeps the low 32 bits of the number that it has read. *)
Lemma atoi_loop_decimal m l rest fuel : forall s n,
  Forall (fun c => is_digit c = true) l ->
  cstr m s (l ++ rest) -> (default 0 (head rest) <? 48) || (57 <? default 0 (head rest)) = true ->
  (length l < fuel)%nat -> s32 n = n ->
  atoi_loop m s n fuel = Some (s32 (foldl (fun n c => n * 10 + (c - 48)) n l)).
Proof.
  revert fuel. induction l as [|c l IH]; intros fuel s n Hl Hs Hr Hf Hn.
  - destruct fuel as [|fuel]; [simpl in Hf; lia|]. cbn [atoi_loop foldl]. rewrite Hn.
    assert (load8 m s = default 0 (head rest)) as ->
      by (destruct rest; simpl in *; [done | by destruct Hs as (_ & ? & _)]).
    case_match; [lia | done].
  - destruct fuel as [|fuel]; [simpl in Hf; lia|]. apply Forall_cons in Hl as [Hc Hl].
    simpl in Hs. destruct Hs as (_ & Hc' & Hs). cbn [atoi_loop foldl]. rewrite Hc'.
    unfold is_digit in Hc. rewrite Hc. rewrite (IH fuel (s + 1)); try done; [| simpl in Hf; lia | unfold s32; lia].
    f_equal. clear -l.
    assert (forall a b, s32 a = s32 b -> s32 (foldl (fun n c => n * 10 + (c - 48)) a l) = s32 (foldl (fun n c => n * 10 + (c - 48)) b l)) as H
      by (induction l as [|d l IH]; intros a b Hab; simpl; [done | apply IH; unfold s32 in *; lia]).
    apply H. unfold s32. lia.
Qed.

(** A run of digits is read as the number it denotes, as an int. *)
Lemma atoi_decimal m s l rest fuel :
  Forall (fun c => is_digit c = true) l ->
  cstr m s (l ++ rest) -> (default 0 (head rest) <? 48) || (57 <? default 0 (head rest)) = true ->
  (length l < fuel)%nat ->
  atoi m s fuel = Some (s32 (decimal l)).
Proof. intros. by apply (atoi_loop_decimal m l rest). Qed.

(** what printf prints for %d of an int that is not negative, atoi reads
    back as that int; the digits that it prints for %x denote the word. *)
Theorem printint_atoi m s n fuel :
  0 <= n < 2 ^ 31 -> cstr m s (printint n 10 true) -> (16 < fuel)%nat ->
  atoi m s fuel = Some n /\ forall x, 0 <= x < 2 ^ 32 -> value_rev 16 (rev (printint x 16 false)) = x.
Proof.
  intros Hn Hs Hf.
  assert (forall x, 0 <= x < 2 ^ 32 -> u32 x = x) as Hu by (intros; apply u32_id; lia).
  split.
  - unfold printint in Hs. rewrite s32_id, (proj2 (Z.ltb_ge n 0)), andb_false_r, app_nil_r, Hu in Hs by lia.
    assert (Forall (fun c => is_digit c = true) (digit_loop n 10 16)) as Hd by (apply digit_loop_digits; lia).
    rewrite (atoi_decimal m s (rev (digit_loop n 10 16)) []); try done.
    + rewrite <- value_rev_decimal by done. rewrite digit_loop_value by lia. by rewrite s32_id by lia.
    + by apply List.Forall_rev.
    + by rewrite app_nil_r.
    + rewrite length_rev. enough (length (digit_loop n 10 16) <= 16)%nat by lia.
      clear. generalize 16%nat. intros k. revert n. induction k as [|k IH]; intros n; simpl; [lia|].
      case_match; simpl; [lia|]. specialize (IH (n / 10)). lia.
  - intros x Hx. unfold printint. rewrite andb_false_l, app_nil_r, rev_involutive, Hu by done.
    apply digit_loop_value; lia.
Qed.

Definition sample_text : memory := fun x => if x <? 100 then 0 else nth (Z.to_nat (x - 100)) (printint 2026 10 true) 0.

Lemma printint_atoi_witness : atoi sample_text 100 20 = Some 2026.
Proof.
  apply (printint_atoi sample_text 100 2026 20); [lia | | lia]. vm_compute. repeat split; congruence.
Defined.

(** * Strings *)

Lemma strlen_cstr m s l fuel : cstr m s l -> (length l < fuel)%nat -> strlen m s fuel = Some (Z.of_nat (length l)).
Proof.
  unfold strlen. intros Hs. assert (cstr m (s + 0) l) as H by by rewrite Z.add_0_r. revert H. clear Hs.
  enough (forall n, cstr m (s + n) l -> (length l < fuel)%nat -> strlen_from m s n fuel = Some (n + Z.of_nat (length l))) as H
    by (intros; by apply (H 0)).
  revert fuel. induction l as [|c l IH]; intros fuel n Hs Hf; (destruct fuel as [|fuel]; [simpl in Hf; lia|]); simpl in Hs |- *.
  - rewrite Hs. simpl. f_equal. lia.
  - destruct Hs as (Hc & -> & Hs). rewrite (proj2 (Z.eqb_neq c 0)) by done.
    rewrite IH; [f_equal; lia | by rewrite Z.add_assoc | simpl in Hf; lia].
Qed.

Lemma strchr_first m c l2 : forall l1 s fuel,
  cstr m s (l1 ++ c :: l2) -> ~ c ∈ l1 -> (length l1 < fuel)%nat ->
  strchr m s c fuel = Some (s + Z.of_nat (length l1)).
Proof.
  induction l1 as [|x l1 IH]; intros s fuel Hs Hc Hf; (destruct fuel as [|fuel]; [simpl in Hf; lia|]);
    simpl in Hs, Hf |- *; destruct Hs as (Hx & -> & Hs); rewrite (proj2 (Z.eqb_neq _ 0)) by done.
  - rewrite Z.eqb_refl. f_equal. lia.
  - rewrite not_elem_of_cons in Hc. rewrite (proj2 (Z.eqb_neq x c)) by naive_solver.
    rewrite IH by (naive_solver lia). f_equal. lia.
Qed.

Lemma strchr_none m c : forall l s fuel,
  cstr m s l -> ~ c ∈ l -> (length l < fuel)%nat -> strchr m s c fuel = Some 0.
Proof.
  induction l as [|x l IH]; intros s fuel Hs Hc Hf; (destruct fuel as [|fuel]; [simpl in Hf; lia|]); simpl in Hs, Hf |- *.
  - by rewrite Hs.
  - destruct Hs as (Hx & -> & Hs). rewrite not_elem_of_cons in Hc.
    rewrite (proj2 (Z.eqb_neq x 0)), (proj2 (Z.eqb_neq x c)) by naive_solver. apply IH; naive_solver lia.
Qed.

(** The copy is the string, when the places do not overlap. *)
Lemma strcpy_cstr t : forall l m s k fuel,
  cstr m (t + k) l -> (length l < fuel)%nat -> 0 <= k ->
  s + k + Z.of_nat (length l) < t \/ t + k + Z.of_nat (length l) < s ->
  exists m', strcpy m (s + k) (t + k) fuel = Some m' /\ cstr m' (s + k) l
    /\ forall x, x < s + k \/ s + k + Z.of_nat (length l) < x -> load8 m' x = load8 m x.
Proof.
  induction l as [|c l IH]; intros m s k fuel Ht Hf Hk Hd; (destruct fuel as [|fuel]; [simpl in Hf; lia|]);
    cbn [strcpy cstr length] in *.
  - rewrite Ht. exists (store8 m (s + k) 0). simpl. split; [done|].
    split; [by rewrite load8_store8_eq|]. intros x Hx. apply load8_store8_ne. lia.
  - destruct Ht as (Hc & Hc' & Ht). rewrite Hc', (proj2 (Z.eqb_neq c 0)) by done.
    assert (c mod 256 = c) as Hb by (rewrite <- Hc'; unfold load8; lia).
    destruct (IH (store8 m (s + k) c) s (k + 1) fuel) as (m' & E & Hm & Hx); [| lia | lia | lia |].
    { rewrite Z.add_assoc. clear -Ht Hd Hk.
      assert (forall a l m, cstr m a l -> ~ a <= s + k <= a + Z.of_nat (length l) -> cstr (store8 m (s + k) c) a l) as H.
      { clear. intros a l. revert a. induction l as [|d l IH]; intros a m H Hn; simpl in *.
        - by rewrite load8_store8_ne by lia.
        - destruct H as (? & ? & ?). rewrite load8_store8_ne by lia. split; [done|]. split; [done|]. apply IH; [done | lia]. }
      apply H; [done | lia]. }
    rewrite <- !Z.add_assoc. rewrite E. exists m'. split; [done|]. split.
    + split; [done|]. split; [|done].
      rewrite Hx by lia. by rewrite load8_store8_eq.
    + intros x Hx'. rewrite Hx by lia. apply load8_store8_ne. lia.
Qed.
