(* ===== verification/Mp.v ===== *)
(** mp.c: the search for the multiprocessor tables of the firmware, and the
    processors and the I/O APIC that they list. *)

From S2P Require Import Prelude Mmu Str.

(** * Tables *)

(** sizeof(struct mp), sizeof(struct mpconf), sizeof(struct mpproc),
    sizeof(struct mpioapic). *)
Definition MP_SIZE : Z := 16.
Definition MPCONF_SIZE : Z := 44.
Definition MPPROC_SIZE : Z := 20.
Definition MPIOAPIC_SIZE : Z := 8.

Definition MPPROC : Z := 0.
Definition MPBUS : Z := 1.
Definition MPIOAPIC : Z := 2.
Definition MPIOINTR : Z := 3.
Definition MPLINTR : Z := 4.

Definition NCPU : nat := 8.

Section tables.
Variable m : memory.

(** struct mp. *)
Definition mp_physaddr (p : Z) : Z := load32 m (p + 4).
Definition mp_imcrp (p : Z) : Z := load8 m (p + 12).
(** struct mpconf. *)
Definition conf_length (p : Z) : Z := load8 m (p + 4) + 256 * load8 m (p + 5).
Definition conf_version (p : Z) : Z := load8 m (p + 6).
Definition conf_lapicaddr (p : Z) : Z := load32 m (p + 36).

(** The bytes are added as an int and returned as a byte. *)
Definition sum (addr len : Z) : Z := foldl (fun s i => s32 (s + load8 m (addr + i))) 0 (seqZ 0 len) mod 256.

(** memcmp of four bytes with a signature. *)
Definition signature (p : Z) (s : list Z) : bool := bool_decide (bytes_at m p 4 = s).
(** _MP_ and PCMP *)
Definition MP_SIG : list Z := [95; 77; 80; 95].
Definition PCMP_SIG : list Z := [80; 67; 77; 80].

(** The loop of mpsearch1 over the [n] structures from [p] on; 0 is the null
    pointer. *)
Fixpoint mpsearch_loop (p : Z) (n : nat) : Z :=
  match n with
  | O => 0
  | S n => if signature p MP_SIG && (sum p MP_SIZE =? 0) then p else mpsearch_loop (p + MP_SIZE) n
  end.

Definition mpsearch1 (a len : Z) : Z := mpsearch_loop (P2V a) (Z.to_nat (len / MP_SIZE)).

Definition mpsearch : Z :=
  let bda := P2V 0x400 in
  let p := Z.shiftl (Z.lor (Z.shiftl (load8 m (bda + 0x0F)) 8) (load8 m (bda + 0x0E))) 4 in
  let mp :=
    if negb (p =? 0) then mpsearch1 p 1024
    else mpsearch1 (u32 (Z.lor (Z.shiftl (load8 m (bda + 0x14)) 8) (load8 m (bda + 0x13)) * 1024 - 1024)) 1024 in
  if negb (mp =? 0) then mp else mpsearch1 0xF0000 0x10000.

(** The configuration table and the structure that points to it. *)
Definition mpconfig : option (Z * Z) :=
  let mp := mpsearch in
  if (mp =? 0) || (mp_physaddr mp =? 0) then None
  else
    let conf := P2V (mp_physaddr mp) in
    if negb (signature conf PCMP_SIG) then None
    else if negb (conf_version conf =? 1) && negb (conf_version conf =? 4) then None
    else if negb (sum conf (conf_length conf) =? 0) then None
    else Some (conf, mp).

End tables.

(** * mpinit *)

(** The memory, and what mpinit sets: the ids of the CPUs that it found, of
    the I/O APIC, the address of the local APIC, and the bytes it writes to
    ports. *)
Record mp_t := Mp { mp_mem : memory; cpus : list Z; ioapicid : Z; lapic : Z; mp_out : list (Z * Z) }.

Definition add_cpu (id : Z) (s : mp_t) : mp_t :=
  if (length (cpus s) <? NCPU)%nat then Mp (mp_mem s) (cpus s ++ [id]) (ioapicid s) (lapic s) (mp_out s) else s.
Definition set_ioapicid (id : Z) (s : mp_t) : mp_t := Mp (mp_mem s) (cpus s) id (lapic s) (mp_out s).
Definition set_lapic (a : Z) (s : mp_t) : mp_t := Mp (mp_mem s) (cpus s) (ioapicid s) a (mp_out s).
Definition outb (port v : Z) (s : mp_t) : mp_t := Mp (mp_mem s) (cpus s) (ioapicid s) (lapic s) (mp_out s ++ [(port, v)]).

(** The loop over the entries.  The default case leaves the switch, not the
    loop, with p as it was. *)
Fixpoint mpinit_loop (p e : Z) (ismp : bool) (fuel : nat) : M mp_t bool :=
  match fuel with
  | O => nofuel
  | S fuel =>
    if e <=? p then mret ismp
    else
      m ← gets mp_mem;
      let t := load8 m p in
      if t =? MPPROC then
        modify (add_cpu (load8 m (p + 1)));;
        mpinit_loop (p + MPPROC_SIZE) e ismp fuel
      else if t =? MPIOAPIC then
        modify (set_ioapicid (load8 m (p + 1)));;
        mpinit_loop (p + MPIOAPIC_SIZE) e ismp fuel
      else if (t =? MPBUS) || (t =? MPIOINTR) || (t =? MPLINTR) then mpinit_loop (p + 8) e ismp fuel
      else mpinit_loop p e false fuel
  end.

(** [imcr] is what the port 0x23 reads. *)
Definition mpinit (imcr : Z) (fuel : nat) : M mp_t unit :=
  m ← gets mp_mem;
  match mpconfig m with
  | None => panic "Expect to run on an SMP"
  | Some (conf, mp) =>
    modify (set_lapic (conf_lapicaddr m conf));;
    ismp ← mpinit_loop (conf + MPCONF_SIZE) (conf + conf_length m conf) true fuel;
    if negb ismp then panic "Didn't find a suitable machine"
    else if negb (mp_imcrp m mp =? 0) then
      modify (outb 0x22 0x70);;
      modify (outb 0x23 (Z.lor imcr 1))
    else mret tt
  end.

(** * What the tables say *)

(** An entry: a processor with its id, the I/O APIC, or one of the kinds that
    are passed over. *)
Inductive mpentry := EProc (id : Z) | EIoapic (id : Z) | EOther (t : Z).

Definition entry_size (x : mpentry) : Z := match x with EProc _ => MPPROC_SIZE | _ => 8 end.

(** The entry that is at [p]. *)
Definition entry_at (m : memory) (p : Z) (x : mpentry) : Prop :=
  match x with
  | EProc id => load8 m p = MPPROC /\ load8 m (p + 1) = id
  | EIoapic id => load8 m p = MPIOAPIC /\ load8 m (p + 1) = id
  | EOther t => load8 m p = t /\ (t = MPBUS \/ t = MPIOINTR \/ t = MPLINTR)
  end.

(** The entries from [p] to [e]. *)
Fixpoint entries_at (m : memory) (p e : Z) (l : list mpentry) : Prop :=
  match l with
  | [] => p = e
  | x :: l => entry_at m p x /\ entries_at m (p + entry_size x) e l
  end.

Definition proc_ids (l : list mpentry) : list Z := omap (fun x => match x with EProc id => Some id | _ => None end) l.
Definition ioapic_ids (l : list mpentry) : list Z := omap (fun x => match x with EIoapic id => Some id | _ => None end) l.

Lemma entries_end m p e l : entries_at m p e l -> p <= e /\ (l <> [] -> p < e).
Proof.
  revert p. induction l as [|x l IH]; intros p; simpl; [intros ->; split; [lia | done]|].
  intros [_ Hl]. apply IH in Hl as [Hl _]. assert (8 <= entry_size x) by (destruct x; unfold entry_size, MPPROC_SIZE; lia). lia.
Qed.

Lemma mpinit_loop_ok l : forall m p e ids io la out fuel,
  entries_at m p e l -> (length l < fuel)%nat -> (length ids <= NCPU)%nat ->
  mpinit_loop p e true fuel (Mp m ids io la out)
  = OK true (Mp m (take NCPU (ids ++ proc_ids l)) (default io (last (ioapic_ids l))) la out).
Proof.
  induction l as [|x l IH]; intros m p e ids io la out fuel He Hf Hn; (destruct fuel as [|fuel]; [simpl in Hf; lia|]); cbn [mpinit_loop].
  - simpl in He. rewrite (proj2 (Z.leb_le e p)) by lia. simpl. by rewrite app_nil_r, take_ge by lia.
  - destruct (entries_end _ _ _ _ He) as [_ Hpe]. rewrite (proj2 (Z.leb_gt e p)) by (apply Hpe; done). simpl in He, Hf.
    destruct He as [Hx He]. rewrite bind_gets. cbn [mp_mem]. destruct x as [id|id|t]; cbn [entry_at entry_size] in *.
    + destruct Hx as [-> ->]. simpl. rewrite bind_modify. unfold add_cpu. cbn [cpus mp_mem ioapicid lapic mp_out].
      destruct (Nat.ltb_spec (length ids) NCPU) as [Hlt|Hge].
      * rewrite (IH m (p + MPPROC_SIZE) e (ids ++ [id])) by (done || rewrite ?length_app; simpl; lia). by rewrite <- app_assoc.
      * rewrite (IH m (p + MPPROC_SIZE) e ids) by (done || lia). by rewrite !take_app_le by lia.
    + destruct Hx as [-> ->]. simpl. rewrite bind_modify. unfold set_ioapicid. cbn [cpus mp_mem ioapicid lapic mp_out].
      rewrite (IH m (p + MPIOAPIC_SIZE) e ids) by (done || lia). do 2 f_equal. unfold ioapic_ids. simpl.
      by destruct (omap _ l) as [|y k] using rev_ind; [|rewrite app_comm_cons, !last_snoc].
    + destruct Hx as [-> Ht]. assert ((t =? MPPROC) = false /\ (t =? MPIOAPIC) = false) as [-> ->]
        by (unfold MPPROC, MPIOAPIC, MPBUS, MPIOINTR, MPLINTR in *; lia).
      rewrite (proj2 (orb_true_iff _ _)) by (unfold MPBUS, MPIOINTR, MPLINTR in *; lia). by apply IH; [|lia|].
Qed.

(** for a table of known entries, mpinit finds the processors that the
    table lists, in order and at most NCPU of them, the last I/O APIC, and the
    address of the local APIC; it switches the interrupts away from the old
    controller when the structure asks for it. *)
Theorem mpinit_table m conf mp l io la imcr fuel :
  mpconfig m = Some (conf, mp) -> entries_at m (conf + MPCONF_SIZE) (conf + conf_length m conf) l -> (length l < fuel)%nat ->
  mpinit imcr fuel (Mp m [] io la [])
  = OK tt (Mp m (take NCPU (proc_ids l)) (default io (last (ioapic_ids l))) (conf_lapicaddr m conf)
      (if mp_imcrp m mp =? 0 then [] else [(0x22, 0x70); (0x23, Z.lor imcr 1)])).
Proof.
  intros Hc He Hf. unfold mpinit. rewrite bind_gets. cbn [mp_mem]. rewrite Hc, bind_modify. unfold set_lapic. cbn [mp_mem cpus ioapicid lapic mp_out].
  rewrite (bind_OK _ _ _ _ _ (mpinit_loop_ok l m _ _ [] io _ [] fuel He Hf ltac:(simpl; lia))). cbn [negb]. rewrite app_nil_l.
  by destruct (mp_imcrp m mp =? 0).
Qed.

Lemma mpinit_loop_stuck fuel : forall p e ismp s,
  p < e -> load8 (mp_mem s) p > 4 -> mpinit_loop p e ismp fuel s = NOFUEL s.
Proof.
  induction fuel as [|fuel IH]; intros p e ismp s Hp Ht; [done|]. cbn [mpinit_loop].
  rewrite (proj2 (Z.leb_gt e p)), bind_gets by done. unfold MPPROC, MPIOAPIC, MPBUS, MPIOINTR, MPLINTR.
  rewrite !(proj2 (Z.eqb_neq (load8 (mp_mem s) p) _)) by lia. by apply IH.
Qed.

(** Entries up to one that is of no known kind. *)
Fixpoint unknown_at (m : memory) (p e : Z) (l : list mpentry) : Prop :=
  match l with
  | [] => p < e /\ load8 m p > 4
  | x :: l => p < e /\ entry_at m p x /\ unknown_at m (p + entry_size x) e l
  end.

Lemma mpinit_loop_hangs l : forall m p e ismp ids io la out fuel,
  unknown_at m p e l -> exists s, mpinit_loop p e ismp fuel (Mp m ids io la out) = NOFUEL s.
Proof.
  induction l as [|x l IH]; intros m p e ismp ids io la out fuel Hu; simpl in Hu.
  - destruct Hu as [Hp Ht]. eexists. by apply mpinit_loop_stuck.
  - destruct fuel as [|fuel]; [by eexists|]. destruct Hu as (Hp & Hx & Hu). cbn [mpinit_loop].
    rewrite (proj2 (Z.leb_gt e p)), bind_gets by done. cbn [mp_mem]. destruct x as [id|id|t]; cbn [entry_at entry_size] in *.
    + destruct Hx as [-> _]. simpl. rewrite bind_modify. unfold add_cpu. case_match; by apply IH.
    + destruct Hx as [-> _]. simpl. rewrite bind_modify. by apply IH.
    + destruct Hx as [-> Ht]. assert ((t =? MPPROC) = false /\ (t =? MPIOAPIC) = false) as [-> ->]
        by (unfold MPPROC, MPIOAPIC, MPBUS, MPIOINTR, MPLINTR in *; lia).
      rewrite (proj2 (orb_true_iff _ _)) by (unfold MPBUS, MPIOINTR, MPLINTR in *; lia). by apply IH.
Qed.

(** an entry of an unknown kind makes mpinit loop for ever: the break of
    the default case leaves the switch only, p stays, and the panic that is
    meant for such a table is not reached. *)
Theorem mpinit_unknown_entry m conf mp l io la imcr fuel :
  mpconfig m = Some (conf, mp) -> unknown_at m (conf + MPCONF_SIZE) (conf + conf_length m conf) l ->
  exists s, mpinit imcr fuel (Mp m [] io la []) = NOFUEL s.
Proof.
  intros Hc Hu. unfold mpinit. rewrite bind_gets. cbn [mp_mem]. rewrite Hc, bind_modify. unfold set_lapic. cbn [mp_mem cpus ioapicid lapic mp_out].
  destruct (mpinit_loop_hangs l m _ _ true [] io (conf_lapicaddr m conf) [] fuel Hu) as [s E]. exists s.
  unfold mbind, M_bind. by rewrite E.
Qed.

(** A machine with two processors, and one whose last entry has type 9. *)
Definition sample_conf (t sum : Z) : list Z :=
  PCMP_SIG ++ [100; 0; 4; sum] ++ replicate 28 0 ++ [0; 0; 224; 254] ++ replicate 4 0
  ++ [MPPROC; 0] ++ replicate 18 0 ++ [MPPROC; 1] ++ replicate 18 0 ++ [MPIOAPIC; 2] ++ replicate 6 0 ++ [t] ++ replicate 7 0.
Definition sample_firmware (t sum : Z) : memory := fun x =>
  if (P2V 0xF0000 <=? x) && (x <? P2V 0xF0000 + 16) then
    nth (Z.to_nat (x - P2V 0xF0000)) (MP_SIG ++ [0; 16; 0; 0; 1; 4; 16; 0; 128; 0; 0; 0]) 0
  else if (P2V 0x1000 <=? x) && (x <? P2V 0x1000 + 100) then nth (Z.to_nat (x - P2V 0x1000)) (sample_conf t sum) 0
  else 0.

Lemma mpinit_table_witness :
  exists s, mpinit 0 10 (Mp (sample_firmware MPBUS 132) [] 0 0 []) = OK tt s
    /\ cpus s = [0; 1] /\ ioapicid s = 2 /\ lapic s = 0xFEE00000 /\ mp_out s = [(0x22, 0x70); (0x23, 1)].
Proof.
  eexists. split.
  - apply (mpinit_table _ (P2V 0x1000) (P2V 0xF0000) [EProc 0; EProc 1; EIoapic 2; EOther MPBUS]);
      [vm_compute; reflexivity | vm_compute; repeat split; left; reflexivity | simpl; lia].
  - vm_compute. repeat split; reflexivity.
Defined.

Lemma mpinit_unknown_entry_witness :
  exists s, mpinit 0 1000 (Mp (sample_firmware 9 124) [] 0 0 []) = NOFUEL s.
Proof.
  apply (mpinit_unknown_entry _ (P2V 0x1000) (P2V 0xF0000) [EProc 0; EProc 1; EIoapic 2]);
    [vm_compute; reflexivity | vm_compute; repeat split; reflexivity].
Defined.
