(* ===== verification/Dev.v ===== *)
(** x86.h, access to devices: the in and out instructions and the registers of
    devices in memory.  What a device answers is a function of everything that
    was read from and written to devices before; the disk controller of
    ide.c and bootmain.c is specified by what it must answer. *)

From S2P Require Import Prelude Mmu.

(** * Accesses and the machine *)

(** One access: in and out of a byte, of a word, and the read and the write of
    a register in memory, each with its value. *)
Inductive ev :=
| EIn (port v : Z) | EOut (port v : Z) | EInl (port v : Z) | EOutl (port v : Z)
| ERd (a v : Z) | EWr (a v : Z).

(** The accesses so far, the last one first. *)
Notation log := (list ev).

(** The hardware: what the next access reads. *)
Class hardware := Hardware { hin : log -> Z -> Z; hinl : log -> Z -> Z; hrd : log -> Z -> Z }.

(** What the code that talks to devices works on: memory, the accesses, the
    variables lapic, ioapicid, the ids of cpus[0..ncpu), uart, havedisk1 and
    cons.locking, the devices in devsw, the locks that were initialised, and
    the messages given to cprintf. *)
Record dev := MkDev {
  d_mem : memory; d_log : log; d_lapic : Z; d_ioapicid : Z; d_cpus : list Z; d_uart : bool;
  d_havedisk1 : bool; d_locking : bool; d_devsw : list Z; d_locks : list string; d_msgs : list string
}.

Definition set_d_mem (f : memory -> memory) (s : dev) : dev :=
  MkDev (f (d_mem s)) (d_log s) (d_lapic s) (d_ioapicid s) (d_cpus s) (d_uart s) (d_havedisk1 s)
    (d_locking s) (d_devsw s) (d_locks s) (d_msgs s).
Definition with_log (l : log) (s : dev) : dev :=
  MkDev (d_mem s) l (d_lapic s) (d_ioapicid s) (d_cpus s) (d_uart s) (d_havedisk1 s) (d_locking s)
    (d_devsw s) (d_locks s) (d_msgs s).
Definition set_d_lapic (a : Z) (s : dev) : dev :=
  MkDev (d_mem s) (d_log s) a (d_ioapicid s) (d_cpus s) (d_uart s) (d_havedisk1 s) (d_locking s) (d_devsw s)
    (d_locks s) (d_msgs s).
Definition set_d_ioapicid (a : Z) (s : dev) : dev :=
  MkDev (d_mem s) (d_log s) (d_lapic s) a (d_cpus s) (d_uart s) (d_havedisk1 s) (d_locking s) (d_devsw s)
    (d_locks s) (d_msgs s).
Definition set_d_cpus (l : list Z) (s : dev) : dev :=
  MkDev (d_mem s) (d_log s) (d_lapic s) (d_ioapicid s) l (d_uart s) (d_havedisk1 s) (d_locking s)
    (d_devsw s) (d_locks s) (d_msgs s).
Definition set_d_uart (b : bool) (s : dev) : dev :=
  MkDev (d_mem s) (d_log s) (d_lapic s) (d_ioapicid s) (d_cpus s) b (d_havedisk1 s) (d_locking s)
    (d_devsw s) (d_locks s) (d_msgs s).
Definition set_d_havedisk1 (b : bool) (s : dev) : dev :=
  MkDev (d_mem s) (d_log s) (d_lapic s) (d_ioapicid s) (d_cpus s) (d_uart s) b (d_locking s) (d_devsw s)
    (d_locks s) (d_msgs s).
Definition set_d_locking (b : bool) (s : dev) : dev :=
  MkDev (d_mem s) (d_log s) (d_lapic s) (d_ioapicid s) (d_cpus s) (d_uart s) (d_havedisk1 s) b (d_devsw s)
    (d_locks s) (d_msgs s).
Definition add_devsw (i : Z) (s : dev) : dev :=
  MkDev (d_mem s) (d_log s) (d_lapic s) (d_ioapicid s) (d_cpus s) (d_uart s) (d_havedisk1 s) (d_locking s)
    (d_devsw s ++ [i]) (d_locks s) (d_msgs s).
Definition add_lock (n : string) (s : dev) : dev :=
  MkDev (d_mem s) (d_log s) (d_lapic s) (d_ioapicid s) (d_cpus s) (d_uart s) (d_havedisk1 s) (d_locking s)
    (d_devsw s) (d_locks s ++ [n]) (d_msgs s).
Definition add_msg (n : string) (s : dev) : dev :=
  MkDev (d_mem s) (d_log s) (d_lapic s) (d_ioapicid s) (d_cpus s) (d_uart s) (d_havedisk1 s) (d_locking s)
    (d_devsw s) (d_locks s) (d_msgs s ++ [n]).

Definition push (e : ev) (s : dev) : dev := with_log (e :: d_log s) s.

Section access.
Context {hw : hardware}.

Definition inb (port : Z) : M dev Z :=
  l ← gets d_log;
  let v := u8 (hin l port) in
  modify (push (EIn port v));;
  mret v.

Definition outb (port data : Z) : M dev unit := modify (push (EOut port (u8 data))).

(** The bytes of a word, low byte first. *)
Definition le_bytes (v : Z) : list Z :=
  [v mod 256; v / 256 mod 256; v / 65536 mod 256; v / 16777216 mod 256].

(** rep insl: the bytes that it stores. *)
Fixpoint insl (port : Z) (cnt : nat) : M dev (list Z) :=
  match cnt with
  | O => mret []
  | S cnt =>
    l ← gets d_log;
    let v := u32 (hinl l port) in
    modify (push (EInl port v));;
    r ← insl port cnt;
    mret (le_bytes v ++ r)
  end.

(** rep outsl, of the bytes that are at its address. *)
Fixpoint outsl (port : Z) (data : list Z) : M dev unit :=
  match data with
  | a :: b :: c :: d :: data =>
    modify (push (EOutl port (a + 256 * b + 65536 * c + 16777216 * d)));;
    outsl port data
  | _ => mret tt
  end.

(** A volatile word in memory that is a register. *)
Definition mmio_read (a : Z) : M dev Z :=
  l ← gets d_log;
  let v := u32 (hrd l a) in
  modify (push (ERd a v));;
  mret v.
Definition mmio_write (a v : Z) : M dev unit := modify (push (EWr a (u32 v))).

(** while((inb(port) & mask) != want) ; and the value that ended it. *)
Fixpoint poll (port mask want : Z) (fuel : nat) : M dev Z :=
  match fuel with
  | O => nofuel
  | S fuel =>
    r ← inb port;
    if Z.land r mask =? want then mret r else poll port mask want fuel
  end.

(** * The polling loop *)

(** The accesses that [k] readings of a port make. *)
Fixpoint polled (port : Z) (k : nat) (l : log) : log :=
  match k with
  | O => l
  | S k => polled port k (EIn port (u8 (hin l port)) :: l)
  end.

(** Within [k] readings the port shows [want]. *)
Fixpoint ready (port mask want : Z) (k : nat) (l : log) : Prop :=
  match k with
  | O => False
  | S k =>
    Z.land (u8 (hin l port)) mask = want \/ ready port mask want k (EIn port (u8 (hin l port)) :: l)
  end.

Lemma push_with_log e l s : push e (with_log l s) = with_log (e :: l) s.
Proof. done. Qed.

Lemma with_log_self s : with_log (d_log s) s = s.
Proof. by destruct s. Qed.

(** A device that gets ready ends the loop, which only reads the port. *)
Lemma poll_ready port mask want k fuel s :
  ready port mask want k (d_log s) -> (k <= fuel)%nat ->
  exists n r, poll port mask want fuel s = OK r (with_log (polled port (S n) (d_log s)) s)
    /\ Z.land r mask = want.
Proof.
  revert k s. induction fuel as [|fuel IH]; intros [|k] s Hr Hk; try (simpl in *; lia).
  simpl. unfold inb. mrun. destruct (Z.eqb_spec (Z.land (u8 (hin (d_log s) port)) mask) want) as [E|E].
  - exists 0%nat, (u8 (hin (d_log s) port)). split; [by destruct s|done].
  - destruct Hr as [?|Hr]; [done|].
    destruct (IH k (push (EIn port (u8 (hin (d_log s) port))) s) Hr ltac:(lia)) as (n & r & E1 & E2).
    exists (S n), r. split; [|done]. etransitivity; [exact E1|]. by destruct s.
Qed.

End access.

(** * The disk controller *)

(** The byte last written to a port. *)
Fixpoint last_out (port : Z) (l : log) : Z :=
  match l with
  | [] => 0
  | EOut p v :: l => if p =? port then v else last_out port l
  | _ :: l => last_out port l
  end.

(** The accesses since the last command (port 0x1f7). *)
Fixpoint since (l : log) : log :=
  match l with
  | [] => []
  | EOut p v :: l => if p =? 0x1f7 then [] else EOut p v :: since l
  | e :: l => e :: since l
  end.

(** The words that were read from, or written to, the data port since. *)
Definition data_in (e : ev) : option Z :=
  match e with EInl p v => if p =? 0x1f0 then Some v else None | _ => None end.
Definition data_out (e : ev) : option Z :=
  match e with EOutl p v => if p =? 0x1f0 then Some v else None | _ => None end.
Definition words_in (l : log) : nat := length (omap data_in (since l)).
Definition words_out (l : log) : list Z := rev (omap data_out (since l)).

(** What a command asks for: the drive, the first sector, the number of them
    and the command. *)
Record request := Request { r_drive : Z; r_lba : Z; r_count : Z; r_cmd : Z }.

Definition request_of (l : log) : request :=
  Request (last_out 0x1f6 l / 16 mod 2)
    (last_out 0x1f3 l + 256 * last_out 0x1f4 l + 65536 * last_out 0x1f5 l + 16777216 * (last_out 0x1f6 l mod 16))
    (last_out 0x1f2 l) (last_out 0x1f7 l).

Definition SECTOR_SIZE : Z := 512.

(** A byte of a drive is given by its place. *)
Definition drives : Type := Z -> Z -> Z.

Definition word_at (d : Z -> Z) (o : Z) : Z :=
  d o mod 256 + 256 * (d (o + 1) mod 256) + 65536 * (d (o + 2) mod 256) + 16777216 * (d (o + 3) mod 256).

(** What a controller does: its status shows ready within [wait] readings,
    and after the command to read sectors the data port gives the words of
    the sectors in turn.  The drive is addressed by sector numbers, which the
    bits 0xe0 of port 0x1f6 say. *)
Class controller (hw : hardware) (img : drives) (wait : nat) : Prop := {
  ctl_ready l : ready 0x1f7 0xC0 0x40 wait l;
  ctl_read l :
    r_cmd (request_of l) = 0x20 -> Z.land (last_out 0x1f6 l) 0xE0 = 0xE0 ->
    Z.of_nat (words_in l) < 128 * r_count (request_of l) ->
    hinl l 0x1f0 = word_at (img (r_drive (request_of l)))
      (SECTOR_SIZE * r_lba (request_of l) + 4 * Z.of_nat (words_in l));
}.

(** A disk that is always ready; nothing else answers. *)
Definition plain_disk (img : drives) : hardware :=
  Hardware (fun _ _ => 0x40)
    (fun l _ => word_at (img (r_drive (request_of l))) (SECTOR_SIZE * r_lba (request_of l) + 4 * Z.of_nat (words_in l)))
    (fun _ _ => 0).

#[global] Instance plain_controller img : controller (plain_disk img) img 1.
Proof. split; [intros l; by left | done]. Qed.
