(* ===== verification/Apic.v ===== *)
(** ioapic.c, lapic.c, picirq.c and the parts of uart.c, console.c and ide.c that
    set up devices: the interrupt controllers, the start of another processor,
    the clock, and which interrupts reach which processor at the end. *)

From S2P Require Import Prelude Mmu Vm Dev.

Section apic.
Context {hw : hardware}.

(** * ioapic.c *)

Definition IOAPIC : Z := 0xFEC00000.
Definition REG_ID : Z := 0x00.
Definition REG_VER : Z := 0x01.
Definition REG_TABLE : Z := 0x10.
Definition INT_DISABLED : Z := 0x00010000.

(** struct ioapic: the offsets of its reg and its data. *)
Definition IOAPIC_DATA : Z := IOAPIC + 16.

Definition ioapicread (reg : Z) : M dev Z :=
  mmio_write IOAPIC reg;;
  mmio_read IOAPIC_DATA.

Definition ioapicwrite (reg data : Z) : M dev unit :=
  mmio_write IOAPIC reg;;
  mmio_write IOAPIC_DATA data.

(** The loop over the [n] interrupts from [i] on. *)
Fixpoint ioapicinit_loop (i : Z) (n : nat) : M dev unit :=
  match n with
  | O => mret tt
  | S n =>
    ioapicwrite (REG_TABLE + 2 * i) (Z.lor INT_DISABLED (T_IRQ0 + i));;
    ioapicwrite (REG_TABLE + 2 * i + 1) 0;;
    ioapicinit_loop (i + 1) n
  end.

Definition ioapicinit : M dev unit :=
  v ← ioapicread REG_VER;
  let maxintr := Z.land (Z.shiftr v 16) 0xFF in
  v ← ioapicread REG_ID;
  let id := Z.shiftr v 24 in
  ioapicid ← gets d_ioapicid;
  (if negb (id =? ioapicid)
   then modify (add_msg "ioapicinit: id isn't equal to ioapicid; not a MP") else mret tt);;
  ioapicinit_loop 0 (Z.to_nat (maxintr + 1)).

Definition ioapicenable (irq cpunum : Z) : M dev unit :=
  ioapicwrite (REG_TABLE + 2 * irq) (T_IRQ0 + irq);;
  ioapicwrite (REG_TABLE + 2 * irq + 1) (Z.shiftl cpunum 24).

(** * picirq.c *)

Definition IO_PIC1 : Z := 0x20.
Definition IO_PIC2 : Z := 0xA0.

Definition picinit : M dev unit :=
  outb (IO_PIC1 + 1) 0xFF;;
  outb (IO_PIC2 + 1) 0xFF.

(** * lapic.c *)

(** Registers, as indices of words. *)
Definition ID : Z := 0x20 / 4.
Definition VER : Z := 0x30 / 4.
Definition TPR : Z := 0x80 / 4.
Definition EOI : Z := 0xB0 / 4.
Definition SVR : Z := 0xF0 / 4.
Definition ESR : Z := 0x280 / 4.
Definition ICRLO : Z := 0x300 / 4.
Definition ICRHI : Z := 0x310 / 4.
Definition TIMER : Z := 0x320 / 4.
Definition PCINT : Z := 0x340 / 4.
Definition LINT0 : Z := 0x350 / 4.
Definition LINT1 : Z := 0x360 / 4.
Definition ERROR : Z := 0x370 / 4.
Definition TICR : Z := 0x380 / 4.
Definition TDCR : Z := 0x3E0 / 4.

Definition ENABLE : Z := 0x100.
Definition INIT : Z := 0x500.
Definition STARTUP : Z := 0x600.
Definition DELIVS : Z := 0x1000.
Definition ASSERT : Z := 0x4000.
Definition LEVEL : Z := 0x8000.
Definition BCAST : Z := 0x80000.
Definition X1 : Z := 0xB.
Definition PERIODIC : Z := 0x20000.
Definition MASKED : Z := 0x10000.

(** lapic[index] *)
Definition lapicr (index : Z) : M dev Z :=
  a ← gets d_lapic;
  mmio_read (a + 4 * index).

Definition lapicw (index value : Z) : M dev unit :=
  a ← gets d_lapic;
  mmio_write (a + 4 * index) value;;
  lapicr ID;;
  mret tt.

(** while(lapic[ICRLO] & DELIVS) ; *)
Fixpoint wait_delivery (fuel : nat) : M dev unit :=
  match fuel with
  | O => nofuel
  | S fuel => v ← lapicr ICRLO; if testf v DELIVS then wait_delivery fuel else mret tt
  end.

Definition lapicinit (fuel : nat) : M dev unit :=
  a ← gets d_lapic;
  if a =? 0 then mret tt
  else
    lapicw SVR (Z.lor ENABLE (T_IRQ0 + IRQ_SPURIOUS));;
    lapicw TDCR X1;;
    lapicw TIMER (Z.lor PERIODIC (T_IRQ0 + IRQ_TIMER));;
    lapicw TICR 10000000;;
    lapicw LINT0 MASKED;;
    lapicw LINT1 MASKED;;
    v ← lapicr VER;
    (if 4 <=? Z.land (Z.shiftr v 16) 0xFF then lapicw PCINT MASKED else mret tt);;
    lapicw ERROR (T_IRQ0 + IRQ_ERROR);;
    lapicw ESR 0;;
    lapicw ESR 0;;
    lapicw EOI 0;;
    lapicw ICRHI 0;;
    lapicw ICRLO (Z.lor (Z.lor BCAST INIT) LEVEL);;
    wait_delivery fuel;;
    lapicw TPR 0.

Definition lapicid : M dev Z :=
  a ← gets d_lapic;
  if a =? 0 then mret 0 else v ← lapicr ID; mret (Z.shiftr v 24).

Definition lapiceoi : M dev unit :=
  a ← gets d_lapic;
  if a =? 0 then mret tt else lapicw EOI 0.

Definition microdelay (us : Z) : M dev unit := mret tt.

Definition CMOS_PORT : Z := 0x70.
Definition CMOS_RETURN : Z := 0x71.

(** A ushort in memory. *)
Definition store16 (m : memory) (a v : Z) : memory := store8 (store8 m a v) (a + 1) (v / 256).

(** The loop that sends the STARTUP interrupt [n] times. *)
Fixpoint send_startup (apicid addr : Z) (n : nat) : M dev unit :=
  match n with
  | O => mret tt
  | S n =>
    lapicw ICRHI (Z.shiftl apicid 24);;
    lapicw ICRLO (Z.lor STARTUP (Z.shiftr addr 12));;
    microdelay 200;;
    send_startup apicid addr n
  end.

Definition lapicstartap (apicid addr : Z) : M dev unit :=
  outb CMOS_PORT 0xF;;
  outb (CMOS_PORT + 1) 0x0A;;
  let wrv := P2V (Z.lor (Z.shiftl 0x40 4) 0x67) in
  modify (set_d_mem (fun m => store16 m wrv 0));;
  modify (set_d_mem (fun m => store16 m (wrv + 2) (Z.shiftr addr 4)));;
  lapicw ICRHI (Z.shiftl apicid 24);;
  lapicw ICRLO (Z.lor (Z.lor INIT LEVEL) ASSERT);;
  microdelay 200;;
  lapicw ICRLO (Z.lor INIT LEVEL);;
  microdelay 100;;
  send_startup apicid addr 2.

(** * The clock *)

Definition CMOS_STATA : Z := 0x0a.
Definition CMOS_STATB : Z := 0x0b.
Definition CMOS_UIP : Z := Z.shiftl 1 7.
Definition SECS : Z := 0x00.
Definition MINS : Z := 0x02.
Definition HOURS : Z := 0x04.
Definition DAY : Z := 0x07.
Definition MONTH : Z := 0x08.
Definition YEAR : Z := 0x09.

Record rtcdate := Date { second : Z; minute : Z; hour : Z; day : Z; month : Z; year : Z }.

Definition cmos_read (reg : Z) : M dev Z :=
  outb CMOS_PORT reg;;
  microdelay 200;;
  inb CMOS_RETURN.

Definition fill_rtcdate : M dev rtcdate :=
  s ← cmos_read SECS;
  mi ← cmos_read MINS;
  h ← cmos_read HOURS;
  d ← cmos_read DAY;
  mo ← cmos_read MONTH;
  y ← cmos_read YEAR;
  mret (Date s mi h d mo y).

#[global] Instance rtcdate_eq_dec : EqDecision rtcdate.
Proof. solve_decision. Defined.

(** The loop that reads until it has the same date twice. *)
Fixpoint cmostime_loop (fuel : nat) : M dev rtcdate :=
  match fuel with
  | O => nofuel
  | S fuel =>
    t1 ← fill_rtcdate;
    a ← cmos_read CMOS_STATA;
    if testf a CMOS_UIP then cmostime_loop fuel
    else
      t2 ← fill_rtcdate;
      if decide (t1 = t2) then mret t1 else cmostime_loop fuel
  end.

Definition CONV (x : Z) : Z := Z.shiftr x 4 * 10 + Z.land x 0xf.

Definition cmostime (fuel : nat) : M dev rtcdate :=
  sb ← cmos_read CMOS_STATB;
  let bcd := Z.land sb (Z.shiftl 1 2) =? 0 in
  t ← cmostime_loop fuel;
  let t := if bcd then Date (CONV (second t)) (CONV (minute t)) (CONV (hour t)) (CONV (day t)) (CONV (month t))
                        (CONV (year t)) else t in
  mret (Date (second t) (minute t) (hour t) (day t) (month t) (year t + 2000)).

(** * uart.c *)

Definition COM1 : Z := 0x3f8.

(** The wait for the transmitter: at most [n] readings. *)
Fixpoint uart_wait (n : nat) : M dev unit :=
  match n with
  | O => mret tt
  | S n => v ← inb (COM1 + 5); if testf v 0x20 then mret tt else microdelay 10;; uart_wait n
  end.

Definition uartputc (c : Z) : M dev unit :=
  uart ← gets d_uart;
  if negb uart then mret tt
  else
    uart_wait 128;;
    outb (COM1 + 0) c.

(** The next character, or -1. *)
Definition uartgetc : M dev Z :=
  uart ← gets d_uart;
  if negb uart then mret (-1)
  else
    v ← inb (COM1 + 5);
    if negb (testf v 0x01) then mret (-1) else inb (COM1 + 0).

Fixpoint uartputs (l : list Z) : M dev unit :=
  match l with [] => mret tt | c :: l => uartputc c;; uartputs l end.

(** xv6...\n *)
Definition banner : list Z := [120; 118; 54; 46; 46; 46; 10].

Definition uartinit : M dev unit :=
  outb (COM1 + 2) 0;;
  outb (COM1 + 3) 0x80;;
  outb (COM1 + 0) (115200 / 9600);;
  outb (COM1 + 1) 0;;
  outb (COM1 + 3) 0x03;;
  outb (COM1 + 4) 0;;
  outb (COM1 + 1) 0x01;;
  v ← inb (COM1 + 5);
  if v =? 0xFF then mret tt
  else
    modify (set_d_uart true);;
    inb (COM1 + 2);;
    inb (COM1 + 0);;
    ioapicenable IRQ_COM1 0;;
    uartputs banner.

(** * console.c *)

(** devsw[CONSOLE] gets its two functions. *)
Definition consoleinit : M dev unit :=
  modify (add_lock "console");;
  modify (add_devsw 1);;
  modify (set_d_locking true);;
  ioapicenable IRQ_KBD 0.

(** * ide.c *)

Definition IDE_BSY : Z := 0x80.
Definition IDE_DRDY : Z := 0x40.
Definition IDE_DF : Z := 0x20.
Definition IDE_ERR : Z := 0x01.

Definition idewait (checkerr : bool) (fuel : nat) : M dev Z :=
  r ← poll 0x1f7 (Z.lor IDE_BSY IDE_DRDY) IDE_DRDY fuel;
  if checkerr && testf r (Z.lor IDE_DF IDE_ERR) then mret (-1) else mret 0.

(** The test for disk 1: at most [n] readings. *)
Fixpoint find_disk1 (n : nat) : M dev unit :=
  match n with
  | O => mret tt
  | S n =>
    v ← inb 0x1f7;
    if negb (v =? 0) then modify (set_d_havedisk1 true) else find_disk1 n
  end.

Definition ideinit (fuel : nat) : M dev unit :=
  modify (add_lock "ide");;
  cpus ← gets d_cpus;
  ioapicenable IRQ_IDE (Z.of_nat (length cpus) - 1);;
  idewait false fuel;;
  outb 0x1f6 (Z.lor 0xe0 (Z.shiftl 1 4));;
  find_disk1 1000;;
  outb 0x1f6 (Z.lor 0xe0 (Z.shiftl 0 4)).

(** * proc.c *)

(** mycpu: the index in cpus of the processor with the id of this one; [IF]
    is the interrupt flag of eflags. *)
Definition mycpu (IF : bool) : M dev nat :=
  if IF then panic "mycpu called with interrupts enabled"
  else
    apicid ← lapicid;
    cpus ← gets d_cpus;
    match list_find (eq apicid) cpus with
    | Some (i, _) => mret i
    | None => panic "unknown apicid"
    end.

Definition cpuid (IF : bool) : M dev nat := mycpu IF.

End apic.

(** * What the I/O APIC holds *)

(** The register that is selected, and the value last written to a register. *)
Fixpoint ioapic_sel (l : log) : Z :=
  match l with
  | [] => 0
  | EWr a v :: l => if a =? IOAPIC then v else ioapic_sel l
  | _ :: l => ioapic_sel l
  end.
Fixpoint ioapic_reg (l : log) (r : Z) : option Z :=
  match l with
  | [] => None
  | EWr a v :: l => if (a =? IOAPIC_DATA) && (ioapic_sel l =? r) then Some v else ioapic_reg l r
  | _ :: l => ioapic_reg l r
  end.

(** An I/O APIC with [n] + 1 interrupt lines. *)
Definition ioapic_lines (hw : hardware) (n : Z) : Prop := forall l,
  ioapic_sel l = REG_VER -> Z.land (Z.shiftr (u32 (hrd l IOAPIC_DATA)) 16) 0xFF = n.

(** What code leaves alone that does not touch the I/O APIC. *)
Record frame (s s' : dev) : Prop := Frame {
  fr_reg r : ioapic_reg (d_log s') r = ioapic_reg (d_log s) r;
  fr_mem : d_mem s' = d_mem s;
  fr_lapic : d_lapic s' = d_lapic s;
  fr_cpus : d_cpus s' = d_cpus s;
  fr_uart : d_uart s' = d_uart s;
}.

#[global] Instance frame_preorder : PreOrder frame.
Proof.
  split; [by intros s; split|].
  intros a b c [R1 M1 L1 C1 U1] [R2 M2 L2 C2 U2]. split; congruence.
Qed.

(** Code that returns and leaves the I/O APIC alone. *)
Definition framed {A} (m : M dev A) : Prop := forall s, wp m s (fun _ s' => frame s s').

Lemma framed_ret {A} (a : A) : framed (mret a).
Proof. intros s. by apply wp_ret. Qed.

Lemma framed_gets {A} (f : dev -> A) : framed (gets f).
Proof. intros s. by apply wp_gets. Qed.

Lemma framed_bind {A B} (m : M dev A) (k : A -> M dev B) :
  framed m -> (forall a, framed (k a)) -> framed (m ≫= k).
Proof.
  intros Hm Hk s. apply wp_bind. eapply wp_mono; [apply Hm|]. intros a s' F.
  eapply wp_mono; [apply Hk|]. intros b s'' F'. by transitivity s'.
Qed.

Lemma framed_modify f : (forall s, frame s (f s)) -> framed (modify f).
Proof. intros H s. apply wp_modify. apply H. Qed.

Lemma framed_push e :
  match e with EWr a _ => a <> IOAPIC_DATA | _ => True end -> framed (modify (push e)).
Proof.
  intros He. apply framed_modify. intros s. split; try done.
  intros r. destruct e; try done. simpl. by rewrite (proj2 (Z.eqb_neq _ _)).
Qed.

Create HintDb frame.
#[export] Hint Resolve framed_ret framed_gets framed_bind : frame.

Section framed.
Context {hw : hardware}.

Lemma framed_inb p : framed (inb p).
Proof. repeat (apply framed_bind; [|intros]); eauto with frame. by apply framed_push. Qed.

Lemma framed_outb p v : framed (outb p v).
Proof. by apply framed_push. Qed.

Lemma framed_mmio_read a : framed (mmio_read a).
Proof. repeat (apply framed_bind; [|intros]); eauto with frame. by apply framed_push. Qed.

Lemma framed_lock n : framed (modify (add_lock n)).
Proof. by apply framed_modify. Qed.

#[local] Hint Resolve framed_inb framed_outb framed_mmio_read framed_lock : frame.

Lemma framed_uart_wait n : framed (uart_wait n).
Proof.
  induction n as [|n IH]; [apply framed_ret|]. simpl. apply framed_bind; [apply framed_inb|].
  intros v. destruct (testf v 0x20); eauto with frame.
Qed.

Lemma framed_uartputs l : framed (uartputs l).
Proof.
  induction l as [|c l IH]; [apply framed_ret|]. simpl. apply framed_bind; [|done].
  apply framed_bind; [apply framed_gets|]. intros [|]; [|apply framed_ret].
  apply framed_bind; [apply framed_uart_wait | intros _; apply framed_outb].
Qed.

Lemma framed_find_disk1 n : framed (find_disk1 n).
Proof.
  induction n as [|n IH]; [apply framed_ret|]. simpl. apply framed_bind; [apply framed_inb|].
  intros v. destruct (negb (v =? 0)); [by apply framed_modify | done].
Qed.

Lemma polled_reg port k l r : ioapic_reg (polled port k l) r = ioapic_reg l r.
Proof. revert l. induction k as [|k IH]; intros l; [done|]. simpl. by rewrite IH. Qed.

Lemma framed_idewait b img wait fuel :
  controller hw img wait -> (wait <= fuel)%nat -> framed (idewait b fuel).
Proof.
  intros Hc Hf. apply framed_bind; [|intros r; destruct (b && _); apply framed_ret]. intros s.
  destruct (poll_ready 0x1f7 0xC0 0x40 wait fuel s (ctl_ready _) Hf) as (n & r & E & _).
  unfold wp. change (Z.lor IDE_BSY IDE_DRDY) with 0xC0. change IDE_DRDY with 0x40. rewrite E.
  split; try done. intros r'. apply (polled_reg 0x1f7 (S n)).
Qed.

Lemma framed_picinit : framed picinit.
Proof. unfold picinit. eauto with frame. Qed.

(** * The redirection table *)

(** The two words of an interrupt line. *)
Definition redir (l : log) (i : Z) : option Z * option Z :=
  (ioapic_reg l (REG_TABLE + 2 * i), ioapic_reg l (REG_TABLE + 2 * i + 1)).

(** The line is off; it is on and goes to a processor. *)
Definition line_off (i : Z) : option Z * option Z := (Some (Z.lor INT_DISABLED (T_IRQ0 + i)), Some 0).
Definition line_on (i cpu : Z) : option Z * option Z := (Some (T_IRQ0 + i), Some (u32 (Z.shiftl cpu 24))).

Definition others (s s' : dev) : Prop :=
  d_mem s' = d_mem s /\ d_lapic s' = d_lapic s /\ d_cpus s' = d_cpus s /\ d_uart s' = d_uart s.

Lemma ioapicwrite_reg r v s :
  0 <= r < 2 ^ 32 ->
  wp (ioapicwrite r v) s (fun _ s' => others s s' /\ forall r',
    ioapic_reg (d_log s') r' = if r' =? r then Some (u32 v) else ioapic_reg (d_log s) r').
Proof.
  intros Hr. unfold wp, ioapicwrite, mmio_write. mrun. split; [done|]. intros r'. simpl.
  rewrite (u32_id r Hr), Z.eqb_sym. by destruct (r' =? r).
Qed.

(** Setting both words of a line. *)
Lemma set_line i lo hi s :
  0 <= i < 2 ^ 30 ->
  wp (ioapicwrite (REG_TABLE + 2 * i) lo;; ioapicwrite (REG_TABLE + 2 * i + 1) hi) s (fun _ s' =>
    others s s' /\ forall j, redir (d_log s') j =
      if j =? i then (Some (u32 lo), Some (u32 hi)) else redir (d_log s) j).
Proof.
  intros Hi. unfold REG_TABLE. apply wp_bind. eapply wp_mono; [apply ioapicwrite_reg; lia|].
  intros _ s1 [(O1 & O2 & O3 & O4) R1]. eapply wp_mono; [apply ioapicwrite_reg; lia|].
  intros _ s2 [(P1 & P2 & P3 & P4) R2]. split; [repeat split; congruence|]. intros j.
  unfold redir, REG_TABLE. rewrite !R2, !R1.
  destruct (Z.eqb_spec j i) as [->|Hj].
  - rewrite !Z.eqb_refl. by rewrite (proj2 (Z.eqb_neq (16 + 2 * i) (16 + 2 * i + 1))) by lia.
  - by rewrite !(proj2 (Z.eqb_neq _ _)) by lia.
Qed.

Lemma ioapicenable_redir irq cpu s :
  0 <= irq < 1024 ->
  wp (ioapicenable irq cpu) s (fun _ s' => others s s' /\ forall j,
    redir (d_log s') j = if j =? irq then line_on irq cpu else redir (d_log s) j).
Proof.
  intros Hi. eapply wp_mono; [apply set_line; lia|]. intros _ s' [O R]. split; [done|].
  intros j. rewrite R. unfold line_on, T_IRQ0. by rewrite (u32_id (32 + irq)) by lia.
Qed.

Lemma line_off_small i : 0 <= i < 1024 -> u32 (Z.lor INT_DISABLED (T_IRQ0 + i)) = Z.lor INT_DISABLED (T_IRQ0 + i).
Proof.
  intros Hi. apply u32_id. unfold INT_DISABLED, T_IRQ0. split; [apply Z.lor_nonneg; lia|].
  destruct (Z.eq_dec (Z.lor 65536 (32 + i)) 0) as [->|]; [lia|].
  apply Z.log2_lt_pow2; [|rewrite Z.log2_lor by lia].
  - pose proof (proj2 (Z.lor_nonneg 65536 (32 + i)) ltac:(lia)). lia.
  - assert (Z.log2 (32 + i) <= Z.log2 65536) by (apply Z.log2_le_mono; lia). change (Z.log2 65536) with 16 in *. lia.
Qed.

Lemma ioapicinit_loop_redir n i s :
  0 <= i -> i + Z.of_nat n <= 1024 ->
  wp (ioapicinit_loop i n) s (fun _ s' => others s s' /\ forall j, redir (d_log s') j =
    if bool_decide (i <= j < i + Z.of_nat n) then line_off j else redir (d_log s) j).
Proof.
  revert i s. induction n as [|n IH]; intros i s Hi Hn.
  { apply wp_ret. split; [done|]. intros j. by rewrite bool_decide_eq_false_2 by lia. }
  simpl. unfold wp. rewrite <- bind_assoc. apply wp_bind. eapply wp_mono; [apply set_line; lia|].
  intros _ s1 [(O1 & O2 & O3 & O4) R1]. eapply wp_mono; [apply IH; lia|].
  intros _ s2 [(P1 & P2 & P3 & P4) R2]. split; [repeat split; congruence|]. intros j. rewrite R2, R1.
  destruct (Z.eqb_spec j i) as [->|Hj].
  - rewrite bool_decide_eq_false_2, bool_decide_eq_true_2 by lia. unfold line_off. by rewrite line_off_small by lia.
  - by rewrite (bool_decide_ext (i + 1 <= j < i + 1 + Z.of_nat n) (i <= j < i + Z.of_nat (S n))) by lia.
Qed.

Lemma ioapicread_value r s :
  0 <= r < 2 ^ 32 ->
  wp (ioapicread r) s (fun v s' =>
    frame s s' /\ v = u32 (hrd (EWr IOAPIC r :: d_log s) IOAPIC_DATA)).
Proof. intros Hr. unfold wp, ioapicread, mmio_write, mmio_read. mrun. simpl. by rewrite (u32_id r Hr). Qed.

Lemma frame_others s s' : frame s s' -> others s s'.
Proof. by intros [? ? ? ? ?]. Qed.

Lemma ioapicinit_redir n s :
  ioapic_lines hw n ->
  wp ioapicinit s (fun _ s' => others s s' /\ forall j, 0 <= j <= n -> redir (d_log s') j = line_off j).
Proof.
  intros Hn. unfold ioapicinit.
  apply wp_bind. eapply wp_mono; [by apply ioapicread_value|]. intros v s0 [F0 ->]. cbv zeta.
  rewrite (Hn (EWr IOAPIC REG_VER :: d_log s) eq_refl).
  assert (0 <= n < 256) as Hb.
  { rewrite <- (Hn (EWr IOAPIC REG_VER :: d_log s) eq_refl). change 0xFF with (2 ^ 8 - 1). rewrite land_ones_mod by lia. lia. }
  apply wp_bind. eapply wp_mono; [by apply ioapicread_value|]. intros v s1 [F1 _].
  apply wp_bind, wp_gets, wp_bind.
  assert (forall b : bool, framed (if b then modify (add_msg "ioapicinit: id isn't equal to ioapicid; not a MP") else mret tt)) as Hm.
  { intros []; [by apply framed_modify | apply framed_ret]. }
  eapply (wp_mono _ _ _ _ (Hm _ _)). intros _ s2 F2.
  eapply wp_mono; [apply ioapicinit_loop_redir; lia|]. intros _ s3 [(P1 & P2 & P3 & P4) R].
  assert (frame s s2) as (Q1 & Q2 & Q3 & Q4)%frame_others by (etransitivity; [exact F0|]; by etransitivity).
  split; [repeat split; congruence|]. intros j Hj. rewrite R. by rewrite bool_decide_eq_true_2 by lia.
Qed.


(** * The devices that ask for interrupts *)

Lemma frame_redir s s' j : frame s s' -> redir (d_log s') j = redir (d_log s) j.
Proof. intros F. unfold redir. by rewrite !(fr_reg _ _ F). Qed.

(** A step that leaves the I/O APIC alone, from a state that is [frame]d from
    the first one. *)
Lemma wp_framed {A B} (m : M dev A) (k : A -> M dev B) s0 s Q :
  frame s0 s -> framed m -> (forall a s', frame s0 s' -> wp (k a) s' Q) -> wp (m ≫= k) s Q.
Proof.
  intros F0 Hm Hk. apply wp_bind. eapply (wp_mono _ _ _ _ (Hm s)). intros a s' F. apply Hk. by transitivity s.
Qed.

Lemma consoleinit_redir s :
  wp consoleinit s (fun _ s' => others s s' /\ forall j,
    redir (d_log s') j = if j =? IRQ_KBD then line_on IRQ_KBD 0 else redir (d_log s) j).
Proof.
  unfold consoleinit.
  do 3 (apply wp_bind, wp_modify). eapply wp_mono; [by apply ioapicenable_redir|]. done.
Qed.

(** The serial port gets its interrupt line when it is there. *)
Lemma uartinit_redir s :
  d_uart s = false ->
  wp uartinit s (fun _ s' => d_mem s' = d_mem s /\ d_lapic s' = d_lapic s /\ d_cpus s' = d_cpus s /\ forall j,
    redir (d_log s') j = if d_uart s' && (j =? IRQ_COM1) then line_on IRQ_COM1 0 else redir (d_log s) j).
Proof.
  intros Hu. unfold uartinit. assert (frame s s) as F by done. revert F. generalize s at 2 3. intros s1 F.
  do 7 (apply (wp_framed _ _ s s1 _ F (framed_outb _ _)); clear s1 F; intros _ s1 F).
  apply (wp_framed _ _ s s1 _ F (framed_inb _)). clear s1 F. intros v s1 F.
  destruct (v =? 0xFF).
  - apply wp_ret. rewrite (fr_uart _ _ F), Hu, (fr_mem _ _ F), (fr_lapic _ _ F), (fr_cpus _ _ F).
    repeat split; try done. intros j. by apply frame_redir.
  - apply wp_bind, wp_modify. set (s2 := set_d_uart true s1). assert (frame s2 s2) as F2 by done.
    assert (forall j, redir (d_log s2) j = redir (d_log s) j) as R2 by (intros j; apply (frame_redir _ _ _ F)).
    apply (wp_framed _ _ s2 s2 _ F2 (framed_inb _)). intros _ s3 F3.
    apply (wp_framed _ _ s2 s3 _ F3 (framed_inb _)). clear s3 F3. intros _ s3 F3.
    apply wp_bind. eapply wp_mono; [by apply ioapicenable_redir|]. intros _ s4 [(O1 & O2 & O3 & O4) R].
    eapply (wp_mono _ _ _ _ (framed_uartputs banner s4)). intros _ s5 F5.
    assert (d_uart s5 = true) as -> by (rewrite (fr_uart _ _ F5), O4, (fr_uart _ _ F3); done).
    rewrite (fr_mem _ _ F5), (fr_lapic _ _ F5), (fr_cpus _ _ F5), O1, O2, O3.
    rewrite (fr_mem _ _ F3), (fr_lapic _ _ F3), (fr_cpus _ _ F3).
    repeat split; [apply (fr_mem _ _ F) | apply (fr_lapic _ _ F) | apply (fr_cpus _ _ F) |].
    intros j. by rewrite (frame_redir _ _ _ F5), R, (frame_redir _ _ _ F3), R2.
Qed.

Lemma ideinit_redir img wait fuel s :
  controller hw img wait -> (wait <= fuel)%nat ->
  wp (ideinit fuel) s (fun _ s' => others s s' /\ forall j,
    redir (d_log s') j =
      if j =? IRQ_IDE then line_on IRQ_IDE (Z.of_nat (length (d_cpus s)) - 1) else redir (d_log s) j).
Proof.
  intros Hc Hf. unfold ideinit. apply wp_bind, wp_modify, wp_bind, wp_gets, wp_bind.
  eapply wp_mono; [by apply ioapicenable_redir|]. intros _ s1 [(O1 & O2 & O3 & O4) R]. assert (frame s1 s1) as F by done.
  apply (wp_framed _ _ s1 s1 _ F (framed_idewait false img wait fuel Hc Hf)). intros _ s2 F2.
  apply (wp_framed _ _ s1 s2 _ F2 (framed_outb _ _)). clear s2 F2. intros _ s2 F2.
  apply (wp_framed _ _ s1 s2 _ F2 (framed_find_disk1 _)). clear s2 F2. intros _ s2 F2.
  eapply (wp_mono _ _ _ _ (framed_outb _ _ s2)). intros _ s3 F3.
  assert (frame s1 s3) as F13 by (by transitivity s2). destruct (frame_others _ _ F13) as (P1 & P2 & P3 & P4).
  split; [repeat split; simpl in *; congruence|]. intros j. by rewrite (frame_redir _ _ _ F13), R.
Qed.

End framed.

(** * The local APIC *)

(** Within [k] readings the delivery status of ICRLO is clear. *)
Fixpoint delivered (hw : hardware) (a : Z) (k : nat) (l : log) : Prop :=
  match k with
  | O => False
  | S k =>
    let v := u32 (hrd l (a + 4 * ICRLO)) in
    testf v DELIVS = false \/ delivered hw a k (ERd (a + 4 * ICRLO) v :: l)
  end.

(** A local APIC with its registers at [a], which are none of the I/O APIC. *)
Definition lapic_apart (a : Z) : Prop := 0 < a /\ (a + 0x400 <= IOAPIC_DATA \/ IOAPIC_DATA < a).

Section lapic.
Context {hw : hardware} (a : Z).
Hypothesis (Ha : lapic_apart a).

(** Like [framed], for code that uses the local APIC at [a]. *)
Definition lapic_framed {A} (m : M dev A) : Prop := forall s, d_lapic s = a -> wp m s (fun _ s' => frame s s').

Lemma lapic_framed_bind {A B} (m : M dev A) (k : A -> M dev B) :
  lapic_framed m -> (forall x, lapic_framed (k x)) -> lapic_framed (m ≫= k).
Proof.
  intros Hm Hk s Hs. apply wp_bind. eapply wp_mono; [by apply Hm|]. intros x s' F.
  eapply wp_mono; [apply Hk; by rewrite (fr_lapic _ _ F)|]. intros y s'' F'. by transitivity s'.
Qed.

Lemma lapic_framed_of {A} (m : M dev A) : framed m -> lapic_framed m.
Proof. intros H s _. apply H. Qed.

Lemma lapic_framed_lapicr i : lapic_framed (lapicr i).
Proof. apply lapic_framed_of. apply framed_bind; [apply framed_gets|intros; apply framed_mmio_read]. Qed.

Lemma lapic_framed_lapicw i v : 0 <= i < 0x100 -> lapic_framed (lapicw i v).
Proof.
  intros Hi s Hs. unfold lapicw. apply wp_bind, wp_gets. rewrite Hs.
  revert s Hs. refine (lapic_framed_bind _ _ (lapic_framed_of _ _) (fun _ => lapic_framed_bind _ _ (lapic_framed_lapicr _) (fun _ => lapic_framed_of _ (framed_ret _)))).
  apply framed_push. destruct Ha. lia.
Qed.

Lemma lapic_framed_wait k fuel s :
  d_lapic s = a -> delivered hw a k (d_log s) -> (k <= fuel)%nat -> wp (wait_delivery fuel) s (fun _ s' => frame s s').
Proof.
  revert k s. induction fuel as [|fuel IH]; intros [|k] s Hs Hd Hk; try (simpl in *; lia).
  simpl wait_delivery. apply wp_bind. unfold lapicr, mmio_read. apply wp_bind, wp_gets, wp_bind, wp_gets. rewrite Hs. cbv zeta.
  apply wp_bind, wp_modify, wp_ret. set (v := u32 _) in *. set (s1 := push _ s).
  assert (frame s s1) as F by done. destruct (testf v DELIVS) eqn:E; [|by apply wp_ret].
  eapply wp_mono; [apply (IH k); [done| |lia]|by intros [] s' ?; transitivity s1].
  destruct Hd as [Hd|Hd]; [|exact Hd]. fold v in Hd. congruence.
Qed.

Lemma lapicinit_frame k fuel s :
  (forall l, delivered hw a k l) -> (k <= fuel)%nat -> d_lapic s = a -> wp (lapicinit fuel) s (fun _ s' => frame s s').
Proof.
  intros Hd Hk. revert s. change (lapic_framed (lapicinit fuel)). intros s Hs. unfold lapicinit. apply wp_bind, wp_gets.
  rewrite Hs, (proj2 (Z.eqb_neq _ _)) by (destruct Ha; lia). revert s Hs.
  refine (lapic_framed_bind _ _ (lapic_framed_lapicw _ _ _) (fun _ => _)); [done|].
  do 5 (refine (lapic_framed_bind _ _ (lapic_framed_lapicw _ _ _) (fun _ => _)); [done|]).
  refine (lapic_framed_bind _ _ (lapic_framed_lapicr _) (fun v => _)).
  refine (lapic_framed_bind _ _ _ (fun _ => _)).
  { destruct (4 <=? _); [by apply lapic_framed_lapicw|apply lapic_framed_of, framed_ret]. }
  do 6 (refine (lapic_framed_bind _ _ (lapic_framed_lapicw _ _ _) (fun _ => _)); [done|]).
  refine (lapic_framed_bind _ _ _ (fun _ => lapic_framed_lapicw _ _ _)); [|done].
  intros s Hs. by apply (lapic_framed_wait k).
Qed.

(** The id in the register tells a processor which one it is. *)
Lemma mycpu_finds id i s :
  (forall l, Z.shiftr (u32 (hrd l (a + 4 * ID))) 24 = id) -> d_lapic s = a -> NoDup (d_cpus s) -> d_cpus s !! i = Some id ->
  wp (mycpu false) s (fun c s' => c = i /\ frame s s').
Proof.
  intros Hid Hs Hn Hi. unfold mycpu, lapicid. apply wp_bind, wp_bind, wp_gets. rewrite Hs, (proj2 (Z.eqb_neq _ _)) by (destruct Ha; lia).
  apply wp_bind. unfold lapicr, mmio_read. apply wp_bind, wp_gets, wp_bind, wp_gets. rewrite Hs. cbv zeta.
  apply wp_bind, wp_modify, wp_ret, wp_ret, wp_bind, wp_gets. rewrite Hid. set (s1 := push _ s).
  change (d_cpus s1) with (d_cpus s).
  assert (list_find (eq id) (d_cpus s) = Some (i, id)) as ->.
  { apply list_find_Some. split; [done|]. split; [done|]. intros j y Hj Hlt ->. pose proof (NoDup_lookup _ _ _ _ Hn Hi Hj). lia. }
  by apply wp_ret.
Qed.

Lemma lapicw_run i v s :
  d_lapic s = a ->
  exists w, lapicw i v s = OK tt (with_log (ERd (a + 4 * ID) w :: EWr (a + 4 * i) (u32 v) :: d_log s) s).
Proof.
  intros Hs. eexists. unfold lapicw, lapicr, mmio_read, mmio_write. mrun. rewrite Hs.
  change (d_lapic (push _ s)) with (d_lapic s). rewrite Hs. reflexivity.
Qed.

(** A write that leaves the I/O APIC alone. *)
Lemma lapicw_reg i v w l r : 0 <= i < 0x100 -> ioapic_reg (ERd (a + 4 * ID) w :: EWr (a + 4 * i) v :: l) r = ioapic_reg l r.
Proof. intros Hi. simpl. by rewrite (proj2 (Z.eqb_neq (a + 4 * i) IOAPIC_DATA)) by (destruct Ha; lia). Qed.

(** The commands that start a processor: the last one tells processor
    [apicid] to run the page of [addr]. *)
Lemma lapicstartap_run apicid addr s :
  d_lapic s = a ->
  exists l v1 v2, lapicstartap apicid addr s = OK tt
    (set_d_mem (fun m => store16 (store16 m (P2V 0x467) 0) (P2V 0x467 + 2) (Z.shiftr addr 4))
      (with_log (ERd (a + 4 * ID) v2 :: EWr (a + 4 * ICRLO) (u32 (Z.lor STARTUP (Z.shiftr addr 12)))
        :: ERd (a + 4 * ID) v1 :: EWr (a + 4 * ICRHI) (u32 (Z.shiftl apicid 24)) :: l) s)) /\
    forall r, ioapic_reg l r = ioapic_reg (d_log s) r.
Proof.
  intros Hs. unfold lapicstartap, outb. change (Z.lor (Z.shiftl 0x40 4) 0x67) with 0x467. rewrite !bind_modify.
  set (s1 := set_d_mem _ (set_d_mem _ _)). assert (d_lapic s1 = a) as H1 by done.
  edestruct (lapicw_run ICRHI (Z.shiftl apicid 24) s1 H1) as (w1 & E1). rewrite (bind_OK _ _ _ _ _ E1).
  set (s2 := with_log _ s1). assert (d_lapic s2 = a) as H2 by done.
  edestruct (lapicw_run ICRLO (Z.lor (Z.lor INIT LEVEL) ASSERT) s2 H2) as (w2 & E2). rewrite (bind_OK _ _ _ _ _ E2).
  set (s3 := with_log _ s2). assert (d_lapic s3 = a) as H3 by done. unfold microdelay. rewrite bind_ret.
  edestruct (lapicw_run ICRLO (Z.lor INIT LEVEL) s3 H3) as (w3 & E3). rewrite (bind_OK _ _ _ _ _ E3).
  set (s4 := with_log _ s3). assert (d_lapic s4 = a) as H4 by done. rewrite bind_ret. cbn [send_startup].
  edestruct (lapicw_run ICRHI (Z.shiftl apicid 24) s4 H4) as (w4 & E4). rewrite (bind_OK _ _ _ _ _ E4).
  set (s5 := with_log _ s4). assert (d_lapic s5 = a) as H5 by done.
  edestruct (lapicw_run ICRLO (Z.lor STARTUP (Z.shiftr addr 12)) s5 H5) as (w5 & E5). rewrite (bind_OK _ _ _ _ _ E5).
  set (s6 := with_log _ s5). assert (d_lapic s6 = a) as H6 by done. unfold microdelay. rewrite bind_ret.
  edestruct (lapicw_run ICRHI (Z.shiftl apicid 24) s6 H6) as (w6 & E6). rewrite (bind_OK _ _ _ _ _ E6).
  set (s7 := with_log _ s6). assert (d_lapic s7 = a) as H7 by done.
  edestruct (lapicw_run ICRLO (Z.lor STARTUP (Z.shiftr addr 12)) s7 H7) as (w7 & E7). rewrite (bind_OK _ _ _ _ _ E7).
  exists (d_log s6), w6, w7. split; [reflexivity|]. intros r. unfold s6, s5, s4, s3, s2. cbn [d_log with_log].
  by rewrite !lapicw_reg by done.
Qed.

End lapic.
