(* ===== verification/Clock.v ===== *)
(** The clock of lapic.c: cmostime ends, and does not mix two dates. *)

From S2P Require Import Prelude Mmu Dev Apic.

(** * A clock *)

(** What the registers of a clock show: a date, whether an update is close, and
    the mode bits of status B. *)
Definition field (d : rtcdate) (reg : Z) : option Z :=
  if reg =? SECS then Some (second d) else if reg =? MINS then Some (minute d) else if reg =? HOURS then Some (hour d)
  else if reg =? DAY then Some (day d) else if reg =? MONTH then Some (month d) else if reg =? YEAR then Some (year d) else None.

(** A clock whose date, as its registers have it, is [date] after a number of
    accesses to devices.  The fields are bytes.  A tick changes the seconds,
    and the next one comes at least 200 accesses later; UIP is only shown
    before a tick, at most 20 accesses before it. *)
Class clock (hw : hardware) (date : nat -> rtcdate) (statb : Z) : Prop := {
  ck_field l reg v : last_out CMOS_PORT l = reg -> field (date (length l)) reg = Some v -> hin l CMOS_RETURN = v /\ 0 <= v < 256;
  ck_statb l : last_out CMOS_PORT l = CMOS_STATB -> hin l CMOS_RETURN = statb;
  ck_statb_range : 0 <= statb < 256;
  ck_uip l : last_out CMOS_PORT l = CMOS_STATA -> testf (u8 (hin l CMOS_RETURN)) CMOS_UIP = true ->
    exists u, (length l <= u < length l + 20)%nat /\ date (S u) <> date u;
  ck_tick t : date (S t) <> date t -> second (date (S t)) <> second (date t) /\
    forall u, (t < u <= t + 200)%nat -> date u = date (S t);
}.

Section clock.
Context {hw : hardware} {date : nat -> rtcdate} {statb : Z} {ck : clock hw date statb}.

(** The accesses so far. *)
Notation now s := (length (d_log s)).

Lemma cmos_read_run reg s :
  0 <= reg < 256 ->
  exists s', cmos_read reg s = OK (u8 (hin (EOut CMOS_PORT reg :: d_log s) CMOS_RETURN)) s' /\ now s' = S (S (now s)).
Proof. intros Hr. unfold cmos_read, outb, microdelay, inb. mrun. eexists. unfold u8 at 1 2. rewrite (Z.mod_small reg) by lia. by split. Qed.

Lemma cmos_read_field reg v s :
  0 <= reg < 256 -> field (date (S (now s))) reg = Some v ->
  exists s', cmos_read reg s = OK v s' /\ now s' = S (S (now s)).
Proof.
  intros Hr Hf. destruct (cmos_read_run reg s Hr) as (s' & E & Hn). exists s'. split; [|done]. rewrite E. f_equal.
  destruct (ck_field (EOut CMOS_PORT reg :: d_log s) reg v) as [-> Hv]; [done|done|]. by apply Z.mod_small.
Qed.

(** The date that is read from time [t] on, a field at a time. *)
Definition read_date (t : nat) : rtcdate :=
  Date (second (date (t + 1))) (minute (date (t + 3))) (hour (date (t + 5))) (day (date (t + 7)))
    (month (date (t + 9))) (year (date (t + 11))).

Lemma fill_rtcdate_run s :
  exists s', fill_rtcdate s = OK (read_date (now s)) s' /\ now s' = (now s + 12)%nat.
Proof.
  unfold fill_rtcdate, read_date.
  destruct (cmos_read_field SECS (second (date (now s + 1))) s) as (s1 & E1 & N1); [done|by rewrite Nat.add_1_r|]. rewrite (bind_OK _ _ _ _ _ E1).
  destruct (cmos_read_field MINS (minute (date (now s + 3))) s1) as (s2 & E2 & N2); [done|rewrite N1; by replace (now s + 3)%nat with (S (S (S (now s)))) by lia|].
  rewrite (bind_OK _ _ _ _ _ E2).
  destruct (cmos_read_field HOURS (hour (date (now s + 5))) s2) as (s3 & E3 & N3); [done|rewrite N2, N1; by replace (now s + 5)%nat with (S (S (S (S (S (now s)))))) by lia|].
  rewrite (bind_OK _ _ _ _ _ E3).
  destruct (cmos_read_field DAY (day (date (now s + 7))) s3) as (s4 & E4 & N4); [done|replace (S (now s3)) with (now s + 7)%nat by lia; done|].
  rewrite (bind_OK _ _ _ _ _ E4).
  destruct (cmos_read_field MONTH (month (date (now s + 9))) s4) as (s5 & E5 & N5); [done|replace (S (now s4)) with (now s + 9)%nat by lia; done|].
  rewrite (bind_OK _ _ _ _ _ E5).
  destruct (cmos_read_field YEAR (year (date (now s + 11))) s5) as (s6 & E6 & N6); [done|replace (S (now s5)) with (now s + 11)%nat by lia; done|].
  rewrite (bind_OK _ _ _ _ _ E6). exists s6. split; [done|]. lia.
Qed.

(** * Ticks *)

(** Without a tick the date stays. *)
Lemma no_tick t n : (forall u, (t <= u < t + n)%nat -> date (S u) = date u) -> forall u, (t <= u <= t + n)%nat -> date u = date t.
Proof.
  induction n as [|n IH]; intros H u Hu; [by replace u with t by lia|].
  destruct (decide (u = S (t + n))) as [->|Hne]; [|apply IH; [intros v Hv; apply H; lia|lia]].
  rewrite H by lia. apply IH; [intros v Hv; apply H; lia|lia].
Qed.

Lemma tick_or_not t n : (exists u, (t <= u < t + n)%nat /\ date (S u) <> date u) \/ forall u, (t <= u < t + n)%nat -> date (S u) = date u.
Proof.
  induction n as [|n [(u & Hu & Ht)|IH]]; [right; lia|left; exists u; split; [lia|done]|].
  destruct (decide (date (S (t + n)) = date (t + n))) as [E|E]; [right|left; exists (t + n)%nat; split; [lia|done]].
  intros u Hu. destruct (decide (u = (t + n)%nat)) as [->|]; [done|]. apply IH. lia.
Qed.

(** Around a tick: one date before it, another one after it. *)
Lemma around_tick t v :
  (t <= v < t + 100)%nat -> date (S v) <> date v ->
  (forall u, (t <= u <= v)%nat -> date u = date v) /\ forall u, (v < u <= v + 200)%nat -> date u = date (S v).
Proof.
  intros Hv Ht. split; [|by apply ck_tick]. intros u Hu.
  assert (forall w, (t <= w < t + (v - t))%nat -> date (S w) = date w) as Hn.
  { intros w Hw. destruct (decide (date (S w) = date w)) as [?|Hc]; [done|]. exfalso. apply Ht.
    destruct (ck_tick w Hc) as [_ H]. rewrite (H (S v)), (H v) by lia. done. }
  rewrite (no_tick t (v - t) Hn u), (no_tick t (v - t) Hn v) by lia. done.
Qed.

(** A date that stays while it is read is read as it is. *)
Lemma read_date_still t d : (forall u, (t + 1 <= u <= t + 11)%nat -> date u = d) -> read_date t = d.
Proof.
  intros H. unfold read_date.
  rewrite (H (t + 1)%nat), (H (t + 3)%nat), (H (t + 5)%nat), (H (t + 7)%nat), (H (t + 9)%nat), (H (t + 11)%nat) by lia. by destruct d.
Qed.

(** When the second reading is the same, the first one is a date of the clock. *)
Lemma same_not_torn t :
  read_date t = read_date (t + 14) -> exists x, (t <= x <= t + 26)%nat /\ read_date t = date x.
Proof.
  intros E. destruct (tick_or_not t 26) as [(v & Hv & Ht)|Hn].
  - destruct (around_tick t v ltac:(lia) Ht) as [Hb Ha]. destruct (ck_tick v Ht) as [Hs _].
    destruct (decide (v = t)) as [->|Hne].
    { exists (S t). split; [lia|]. apply read_date_still. intros u Hu. apply Ha. lia. }
    destruct (decide (v < t + 15)%nat) as [Hlt|Hge].
    { exfalso. apply Hs. apply (f_equal second) in E. cbn in E. rewrite <- (Ha (t + 14 + 1)%nat), <- E, (Hb (t + 1)%nat) by lia. done. }
    exists v. split; [lia|]. apply read_date_still. intros u Hu. apply Hb. lia.
  - exists t. split; [lia|]. apply read_date_still. intros u Hu. apply (no_tick t 26 Hn). lia.
Qed.

(** * The loop *)

(** The state of the clock and of the loop is the log: the rest of the run
    only depends on it. *)
Lemma cmos_stata_run s :
  exists a s', cmos_read CMOS_STATA s = OK a s' /\ now s' = S (S (now s)) /\
    (testf a CMOS_UIP = true -> exists u, (now s <= u < now s + 22)%nat /\ date (S u) <> date u).
Proof.
  destruct (cmos_read_run CMOS_STATA s) as (s' & E & Hn); [done|]. eexists _, s'. split; [exact E|]. split; [done|].
  intros H. destruct (ck_uip (EOut CMOS_PORT CMOS_STATA :: d_log s)) as (u & Hu & Ht); [done|done|]. cbn in Hu. exists u. split; [lia|done].
Qed.

(** One turn of the loop gives a date of the clock, or there is a tick close by
    and the loop goes on. *)
Lemma cmostime_turn n s :
  (exists x s', cmostime_loop (S n) s = OK (date x) s' /\ (now s <= x <= now s')%nat /\ now s' = (now s + 26)%nat) \/
  (exists u s', cmostime_loop (S n) s = cmostime_loop n s' /\ (now s + 14 <= now s' <= now s + 26)%nat /\
    (now s <= u < now s + 46)%nat /\ date (S u) <> date u).
Proof.
  cbn [cmostime_loop].
  destruct (fill_rtcdate_run s) as (s1 & E1 & N1). rewrite (bind_OK _ _ _ _ _ E1).
  destruct (cmos_stata_run s1) as (a & s2 & E2 & N2 & Hu). rewrite (bind_OK _ _ _ _ _ E2).
  destruct (testf a CMOS_UIP) eqn:Ha.
  { right. destruct (Hu eq_refl) as (u & Hr & Ht). exists u, s2. split; [done|]. split; [lia|]. split; [lia|done]. }
  destruct (fill_rtcdate_run s2) as (s3 & E3 & N3). rewrite (bind_OK _ _ _ _ _ E3). replace (now s2) with (now s + 14)%nat by lia.
  destruct (decide (read_date (now s) = read_date (now s + 14))) as [Eq|Ne].
  - left. destruct (same_not_torn _ Eq) as (x & Hx & Ex). exists x, s3. split; [by rewrite Ex|]. lia.
  - right. destruct (tick_or_not (now s) 46) as [(u & Hr & Ht)|Hn].
    + exists u, s3. split; [done|]. split; [lia|]. by split.
    + exfalso. apply Ne. rewrite !(read_date_still _ (date (now s))); [done| |]; intros u Hr; apply (no_tick _ _ Hn); lia.
Qed.

(** After a tick the loop has time for a whole turn. *)
Lemma loop_after_tick n s u :
  date (S u) <> date u -> (u < now s + 14 * n)%nat -> (now s <= u + 50)%nat ->
  exists x s', cmostime_loop (S n) s = OK (date x) s' /\ (now s <= x <= now s')%nat.
Proof.
  intros Ht. revert s. induction n as [|n IH]; intros s Hn Hs.
  - destruct (cmostime_turn 0 s) as [(x & s' & E & Hx & _)|(v & s' & _ & _ & Hv & Hc)]; [by exists x, s'|]. exfalso.
    destruct (ck_tick u Ht) as [_ H]. apply Hc. rewrite (H (S v)), (H v) by lia. done.
  - destruct (cmostime_turn (S n) s) as [(x & s' & E & Hx & _)|(v & s' & E & Hs' & Hv & Hc)]; [by exists x, s'|].
    destruct (decide (u < v)%nat) as [Hlt|Hge].
    { exfalso. destruct (ck_tick u Ht) as [_ H]. apply Hc. rewrite (H (S v)), (H v) by lia. done. }
    destruct (IH s') as (x & s2 & E2 & Hx); [lia|lia|]. exists x, s2. split; [by rewrite E|]. lia.
Qed.

Lemma loop_ends s : exists x s', cmostime_loop 6 s = OK (date x) s' /\ (now s <= x <= now s')%nat.
Proof.
  destruct (cmostime_turn 5 s) as [(x & s' & E & Hx & _)|(u & s' & E & Hs' & Hu & Ht)]; [by exists x, s'|].
  destruct (loop_after_tick 4 s' u Ht) as (x & s2 & E2 & Hx); [lia|lia|]. exists x, s2. rewrite E. split; [done|lia].
Qed.

(** More fuel changes nothing. *)
Lemma loop_fuel n s r s' : cmostime_loop n s = OK r s' -> forall m, (n <= m)%nat -> cmostime_loop m s = OK r s'.
Proof.
  revert s. induction n as [|n IH]; intros s H m Hm; [done|]. destruct m as [|m]; [lia|]. cbn [cmostime_loop] in H |- *.
  apply bind_OK_inv in H as (t1 & s1 & E1 & H). rewrite (bind_OK _ _ _ _ _ E1).
  apply bind_OK_inv in H as (a & s2 & E2 & H). rewrite (bind_OK _ _ _ _ _ E2).
  destruct (testf a CMOS_UIP); [apply IH; [done|lia]|].
  apply bind_OK_inv in H as (t2 & s3 & E3 & H). rewrite (bind_OK _ _ _ _ _ E3).
  destruct (decide (t1 = t2)); [done|]. apply IH; [done|lia].
Qed.

(** A date of the registers as numbers: they hold decimal digits unless status
    B says binary. *)
Definition decoded (d : rtcdate) : rtcdate :=
  let f x := if testf statb (Z.shiftl 1 2) then x else x / 16 * 10 + x mod 16 in
  Date (f (second d)) (f (minute d)) (f (hour d)) (f (day d)) (f (month d)) (2000 + f (year d)).
End clock.


(** A clock at 23:59:59 that ticks at the tenth access. *)
Definition eve (t : nat) : rtcdate :=
  if (t <? 10)%nat then Date 0x59 0x59 0x23 0x31 0x12 0x23 else Date 0 0 0 1 1 0x24.

Definition eve_hw : hardware := {|
  hin l p :=
    if p =? CMOS_RETURN then
      let r := last_out CMOS_PORT l in
      if r =? CMOS_STATA then if (length l <? 10)%nat then CMOS_UIP else 0
      else if r =? CMOS_STATB then 2 else default 0 (field (eve (length l)) r)
    else 0;
  hinl _ _ := 0;
  hrd _ _ := 0;
|}.

Lemma eve_clock : clock eve_hw eve 2.
Proof.
  constructor.
  - intros l reg v Hl Hf. unfold hin, eve_hw. rewrite Hl. unfold eve in *.
    change (CMOS_RETURN =? CMOS_RETURN) with true. cbv iota.
    destruct (reg =? CMOS_STATA) eqn:E1; [apply Z.eqb_eq in E1; subst reg; rewrite E1 in Hf; by destruct (length l <? 10)%nat|].
    destruct (reg =? CMOS_STATB) eqn:E2; [apply Z.eqb_eq in E2; subst reg; rewrite E2 in Hf; by destruct (length l <? 10)%nat|].
    rewrite Hf. split; [done|]. unfold field in Hf. destruct (length l <? 10)%nat; cbn [second minute hour day month year] in Hf; repeat case_match; simplify_eq; lia.
  - intros l Hl. unfold hin, eve_hw. by rewrite Hl.
  - lia.
  - intros l Hl. unfold hin, eve_hw. rewrite Hl. destruct (Nat.ltb_spec (length l) 10) as [H|H]; [|by vm_compute]. intros _. exists 9%nat. split; [lia|]. by vm_compute.
  - intros t Ht. unfold eve in *. destruct (Nat.ltb_spec (S t) 10), (Nat.ltb_spec t 10); try done; [lia|].
    split; [done|]. intros u Hu. destruct (Nat.ltb_spec u 10); [lia|done].
Qed.

Definition clock_dev : dev := MkDev (fun _ => 0) [] 0 0 [] false false false [] [] [].

