(* ===== verification/Boot.v ===== *)
(** bootmain.c: the boot loader, which reads the kernel from the disk into
    memory and jumps to it. *)

From Stdlib Require Import Sorting.Sorted.
From S2P Require Import Prelude Mmu Str Vm Dev.

Section boot.
Context {hw : hardware} (fuel : nat).

(** * Definitions *)

Definition SECTSIZE : Z := 512.
Definition ELF_MAGIC : Z := 0x464C457F.
(** sizeof(struct proghdr) *)
Definition PROGHDR_SIZE : Z := 32.

Definition waitdisk : M dev unit := poll 0x1F7 0xC0 0x40 fuel;; mret tt.

Definition readsect (dst offset : Z) : M dev unit :=
  waitdisk;;
  outb 0x1F2 1;;
  outb 0x1F3 offset;;
  outb 0x1F4 (Z.shiftr offset 8);;
  outb 0x1F5 (Z.shiftr offset 16);;
  outb 0x1F6 (Z.lor (Z.shiftr offset 24) 0xE0);;
  outb 0x1F7 0x20;;
  waitdisk;;
  l ← insl 0x1F0 (Z.to_nat (SECTSIZE / 4));
  modify (set_d_mem (fun m => store_bytes m dst l)).

(** The loop over the sectors. *)
Fixpoint readseg_loop (pa epa offset : Z) (n : nat) : M dev unit :=
  match n with
  | O => nofuel
  | S n =>
    if pa <? epa then
      readsect pa offset;;
      readseg_loop (u32 (pa + SECTSIZE)) epa (u32 (offset + 1)) n
    else mret tt
  end.

Definition readseg (pa count offset : Z) : M dev unit :=
  let epa := u32 (pa + count) in
  let pa := u32 (pa - offset mod SECTSIZE) in
  let offset := u32 (offset / SECTSIZE + 1) in
  readseg_loop pa epa offset fuel.

(** The loop over the program headers. *)
Fixpoint load_loop (ph eph : Z) (n : nat) : M dev unit :=
  match n with
  | O => nofuel
  | S n =>
    if ph <? eph then
      m ← gets d_mem;
      let off := load32 m (ph + 4) in
      let pa := load32 m (ph + 12) in
      let filesz := load32 m (ph + 16) in
      let memsz := load32 m (ph + 20) in
      readseg pa filesz off;;
      (if filesz <? memsz
       then modify (set_d_mem (fun m => stosb m (u32 (pa + filesz)) 0 (Z.to_nat (memsz - filesz)))) else mret tt);;
      load_loop (u32 (ph + PROGHDR_SIZE)) eph n
    else mret tt
  end.

(** The result is where it jumps to, or nothing when it returns. *)
Definition bootmain : M dev (option Z) :=
  let elf := 0x10000 in
  readseg elf 4096 0;;
  m ← gets d_mem;
  if negb (load32 m elf =? ELF_MAGIC) then mret None
  else
    let ph := u32 (elf + load32 m (elf + 28)) in
    let phnum := load8 m (elf + 44) + 256 * load8 m (elf + 45) in
    let eph := u32 (ph + PROGHDR_SIZE * phnum) in
    load_loop ph eph fuel;;
    m ← gets d_mem;
    mret (Some (load32 m (elf + 24))).

End boot.

(** * Reading sectors *)

Lemma le_bytes_join a b c d :
  0 <= a < 256 -> 0 <= b < 256 -> 0 <= c < 256 -> 0 <= d < 256 ->
  le_bytes (a + 256 * b + 65536 * c + 16777216 * d) = [a; b; c; d].
Proof. intros. unfold le_bytes. repeat f_equal; lia. Qed.

Lemma le_bytes_word d o :
  le_bytes (word_at d o) = [d o mod 256; d (o + 1) mod 256; d (o + 2) mod 256; d (o + 3) mod 256].
Proof. apply le_bytes_join; lia. Qed.

Lemma word_at_range d o : 0 <= word_at d o < 2 ^ 32.
Proof. unfold word_at. lia. Qed.

(** The [n] bytes of a drive from [o] on. *)
Definition bytes_of (d : Z -> Z) (o : Z) (n : nat) : list Z := (fun i => d (o + Z.of_nat i) mod 256) <$> seq 0 n.

Lemma bytes_of_cons4 d o n : bytes_of d o (4 * S n) = le_bytes (word_at d o) ++ bytes_of d (o + 4) (4 * n).
Proof.
  rewrite le_bytes_word. unfold bytes_of. replace (4 * S n)%nat with (4 + 4 * n)%nat by lia.
  rewrite seq_app, fmap_app. f_equal.
  { simpl. by rewrite Z.add_0_r. }
  change (0 + 4)%nat with (4 + 0)%nat. rewrite <- fmap_add_seq, <- list_fmap_compose.
  apply list_fmap_ext. intros i x _. simpl. do 2 f_equal. lia.
Qed.

Lemma load8_store_bytes m a l x :
  load8 (store_bytes m a l) x =
    if bool_decide (a <= x < a + Z.of_nat (length l)) then (default 0 (l !! Z.to_nat (x - a))) mod 256 else load8 m x.
Proof.
  revert m a. induction l as [|c l IH]; intros m a.
  { simpl. by rewrite bool_decide_eq_false_2 by lia. }
  simpl store_bytes. rewrite IH. simpl length. destruct (decide (x = a)) as [->|Hx].
  - rewrite bool_decide_eq_false_2, bool_decide_eq_true_2 by lia.
    rewrite Z.sub_diag. unfold load8, store8. rewrite Z.eqb_refl. simpl. lia.
  - rewrite (bool_decide_ext (a + 1 <= x < a + 1 + Z.of_nat (length l)) (a <= x < a + Z.of_nat (S (length l)))) by lia.
    case_bool_decide; [|unfold load8, store8; by rewrite (proj2 (Z.eqb_neq _ _))].
    by replace (Z.to_nat (x - a)) with (S (Z.to_nat (x - (a + 1)))) by lia.
Qed.

Lemma load8_stosb m a n x :
  load8 (stosb m a 0 n) x = if bool_decide (a <= x < a + Z.of_nat n) then 0 else load8 m x.
Proof.
  revert m a. induction n as [|n IH]; intros m a; simpl stosb.
  { by rewrite bool_decide_eq_false_2 by lia. }
  rewrite IH. destruct (decide (x = a)) as [->|Hx].
  - rewrite bool_decide_eq_false_2, bool_decide_eq_true_2 by lia. unfold load8, store8. by rewrite Z.eqb_refl.
  - rewrite (bool_decide_ext (a + 1 <= x < a + 1 + Z.of_nat n) (a <= x < a + Z.of_nat (S n))) by lia.
    case_bool_decide; [done|]. unfold load8, store8. by rewrite (proj2 (Z.eqb_neq _ _)).
Qed.

Section sectors.
Context {hw : hardware} {img : drives} {wait : nat} {ctl : controller hw img wait} (fuel : nat).
Hypothesis (Hwait : (wait <= fuel)%nat).

Lemma polled_last_out p port k l : last_out p (polled port k l) = last_out p l.
Proof. revert l. induction k as [|k IH]; intros l; [done|]. simpl. by rewrite IH. Qed.

Lemma polled_request port k l : request_of (polled port k l) = request_of l.
Proof. unfold request_of. by rewrite !polled_last_out. Qed.

Lemma polled_words_in port k l : words_in (polled port k l) = words_in l.
Proof. revert l. induction k as [|k IH]; intros l; [done|]. simpl. by rewrite IH. Qed.

Lemma insl_reads n s :
  let r := request_of (d_log s) in
  r_cmd r = 0x20 -> Z.land (last_out 0x1f6 (d_log s)) 0xE0 = 0xE0 ->
  Z.of_nat (words_in (d_log s) + n) <= 128 * r_count r ->
  wp (insl 0x1F0 n) s (fun l s' => d_mem s' = d_mem s /\
    l = bytes_of (img (r_drive r)) (SECTOR_SIZE * r_lba r + 4 * Z.of_nat (words_in (d_log s))) (4 * n)).
Proof.
  intros r. subst r. revert s. induction n as [|n IH]; intros s Hc He Hw; [by apply wp_ret|].
  simpl insl. apply wp_bind, wp_gets. cbv zeta. rewrite (ctl_read (d_log s) Hc He) by lia.
  rewrite u32_id by apply word_at_range. apply wp_bind, wp_modify, wp_bind.
  set (v := word_at _ _). eapply wp_mono; [apply (IH (push (EInl 0x1F0 v) s)); [done|done|]|].
  { change (words_in (d_log (push (EInl 496 v) s))) with (S (words_in (d_log s))).
    change (request_of (d_log (push (EInl 496 v) s))) with (request_of (d_log s)). lia. }
  intros l s' [Hm ->]. apply wp_ret. split; [done|].
  rewrite bytes_of_cons4. fold v.
  change (words_in (d_log (push (EInl 496 v) s))) with (S (words_in (d_log s))).
  change (request_of (d_log (push (EInl 496 v) s))) with (request_of (d_log s)).
  replace (4 * Z.of_nat (S (words_in (d_log s)))) with (4 * Z.of_nat (words_in (d_log s)) + 4) by lia.
  by rewrite Z.add_assoc.
Qed.

Lemma waitdisk_ok s :
  wp (waitdisk fuel) s (fun _ s' => exists k, s' = with_log (polled 0x1F7 k (d_log s)) s).
Proof.
  destruct (poll_ready 0x1F7 0xC0 0x40 wait fuel s (ctl_ready _) Hwait) as (n & r & E & _).
  unfold wp, waitdisk. rewrite (bind_OK _ _ _ _ _ E). by exists (S n).
Qed.

(** The four bytes of the address of a sector. *)
Lemma lba_bytes o :
  0 <= o < 2 ^ 28 ->
  u8 o + 256 * u8 (Z.shiftr o 8) + 65536 * u8 (Z.shiftr o 16)
    + 16777216 * (u8 (Z.lor (Z.shiftr o 24) 0xE0) mod 16) = o
  /\ u8 (Z.lor (Z.shiftr o 24) 0xE0) / 16 mod 2 = 0
  /\ Z.land (u8 (Z.lor (Z.shiftr o 24) 0xE0)) 0xE0 = 0xE0.
Proof.
  intros Ho. rewrite !Z.shiftr_div_pow2 by lia. unfold u8.
  assert (exists q, o / 2 ^ 24 = q /\ 0 <= q < 16) as (q & Eq & Hq) by (exists (o / 2 ^ 24); split; [done|lia]).
  assert (Z.lor q 0xE0 = q + 0xE0 /\ Z.land (q + 0xE0) 0xE0 = 0xE0) as [El Ea].
  { assert (q ∈ seqZ 0 16) as Hin by (apply elem_of_seqZ; lia). revert Hin. clear. revert q.
    apply Forall_forall. by repeat constructor. }
  rewrite Eq, El. rewrite (Z.mod_small (q + 224)) by lia. repeat split; [lia|lia|done].
Qed.

Lemma readsect_loads dst o s :
  0 <= o < 2 ^ 28 ->
  wp (readsect fuel dst o) s (fun _ s' => d_mem s' = store_bytes (d_mem s) dst (bytes_of (img 0) (512 * o) 512)).
Proof.
  intros Ho. destruct (lba_bytes o Ho) as (E1 & E2 & E3). unfold readsect.
  apply wp_bind. eapply wp_mono; [apply waitdisk_ok|]. intros _ s1 (k1 & ->).
  do 6 (apply wp_bind, wp_modify). apply wp_bind. eapply wp_mono; [apply waitdisk_ok|]. intros _ s2 (k2 & ->).
  match goal with |- wp _ (with_log (polled _ _ (d_log ?x)) _) _ => set (s3 := x) end.
  apply wp_bind. eapply wp_mono.
  - apply insl_reads; cbn [d_log with_log]; rewrite ?polled_request, ?polled_last_out, ?polled_words_in; [done|exact E3|done].
  - intros l s4 [Hm ->]. apply wp_modify. cbn [d_mem set_d_mem d_log with_log] in *. rewrite Hm.
    rewrite polled_words_in, polled_request.
    assert (r_drive (request_of (d_log s3)) = 0) as -> by exact E2.
    assert (r_lba (request_of (d_log s3)) = o) as -> by exact E1.
    change (words_in (d_log s3)) with 0%nat. unfold SECTOR_SIZE. by rewrite Z.add_0_r.
Qed.

Lemma length_bytes_of d o n : length (bytes_of d o n) = n.
Proof. unfold bytes_of. by rewrite length_fmap, length_seq. Qed.

Lemma lookup_bytes_of d o n i : (i < n)%nat -> default 0 (bytes_of d o n !! i) = d (o + Z.of_nat i) mod 256.
Proof. intros Hi. unfold bytes_of. by rewrite list_lookup_fmap, lookup_seq_lt. Qed.

(** What memory holds after the [n] bytes at [a] were loaded from place [o] of
    drive 0 on. *)
Definition loaded (m m' : memory) (a n o : Z) : Prop := forall x,
  load8 m' x = if bool_decide (a <= x < a + n) then img 0 (o + (x - a)) mod 256 else load8 m x.

Lemma readseg_loop_loads k n pa epa o s :
  (k < n)%nat -> 0 <= pa -> 0 <= o -> pa + 512 * Z.of_nat k < 2 ^ 32 -> o + Z.of_nat k <= 2 ^ 28 ->
  epa <= pa + 512 * Z.of_nat k -> (k <> 0%nat -> pa + 512 * (Z.of_nat k - 1) < epa) ->
  wp (readseg_loop fuel pa epa o n) s (fun _ s' => loaded (d_mem s) (d_mem s') pa (512 * Z.of_nat k) (512 * o)).
Proof.
  revert n pa o s. induction k as [|k IH]; intros [|n] pa o s Hn Hp Ho Hb Hs He Hk; try lia; simpl readseg_loop.
  - rewrite (proj2 (Z.ltb_ge _ _)) by lia. apply wp_ret. intros x. by rewrite bool_decide_eq_false_2 by lia.
  - rewrite (proj2 (Z.ltb_lt _ _)) by lia. apply wp_bind. eapply wp_mono; [apply readsect_loads; lia|].
    intros [] s1 E1. unfold SECTSIZE. rewrite !u32_id by lia.
    eapply wp_mono; [apply IH; lia|]. intros [] s2 H2 x. rewrite H2, E1, load8_store_bytes, length_bytes_of.
    repeat case_bool_decide; try lia; [by do 2 f_equal; lia|].
    rewrite lookup_bytes_of, Zmod_mod by lia. do 2 f_equal. lia.
Qed.

(** The number of sectors that hold [count] bytes from [off] on. *)
Definition sectors (count off : Z) : Z := (count + off mod 512 + 511) / 512.

(** What readseg may be asked for: no address and no sector number wraps. *)
Definition loadable (pa count off : Z) : Prop :=
  0 <= count /\ 0 <= off /\ off mod 512 <= pa /\ pa + count + 512 <= 2 ^ 32 /\ off + count + 1024 <= 2 ^ 37 /\
  Z.of_nat fuel > sectors count off.

Lemma readseg_loads pa count off s :
  loadable pa count off ->
  wp (readseg fuel pa count off) s (fun _ s' =>
    loaded (d_mem s) (d_mem s') (pa - off mod 512) (512 * sectors count off) (512 + off - off mod 512)).
Proof.
  intros (H1 & H2 & H3 & H4 & H5 & H6). unfold readseg, SECTSIZE, sectors in *. rewrite !u32_id by lia.
  eapply wp_mono; [apply (readseg_loop_loads (Z.to_nat ((count + off mod 512 + 511) / 512))); lia|].
  intros [] s' H x. rewrite H. rewrite Z2Nat.id by lia. case_bool_decide; [|done]. do 2 f_equal. lia.
Qed.

(** * The kernel on the disk *)

(** The image of the kernel starts at sector 1. *)
Definition kern (k : Z) : Z := img 0 (512 + k).

Record seg := Seg { sg_off : Z; sg_paddr : Z; sg_filesz : Z; sg_memsz : Z }.
Definition seg_of (o : Z) : seg :=
  Seg (word_at kern (o + 4)) (word_at kern (o + 12)) (word_at kern (o + 16)) (word_at kern (o + 20)).
Definition seg_start (g : seg) : Z := sg_paddr g - sg_off g mod 512.
Definition seg_end (g : seg) : Z := sg_paddr g + Z.max (sg_filesz g) (sg_memsz g).

(** A segment that lies above the header of the image and wraps nowhere. *)
Definition seg_ok (g : seg) : Prop :=
  loadable (sg_paddr g) (sg_filesz g) (sg_off g) /\ 0x11000 <= seg_start g /\ 0 <= sg_memsz g /\ seg_end g <= 2 ^ 32.

(** Each segment starts, at the start of its first sector, above the ones
    before it. *)
Definition seg_sorted : list seg -> Prop := StronglySorted (fun a b => seg_end a <= seg_start b).

(** Memory holds a segment: the bytes of the file, then zeros. *)
Definition seg_in (m : memory) (g : seg) : Prop := forall x,
  (sg_paddr g <= x < sg_paddr g + sg_filesz g -> load8 m x = kern (sg_off g + (x - sg_paddr g)) mod 256) /\
  (sg_paddr g + sg_filesz g <= x < sg_paddr g + sg_memsz g -> load8 m x = 0).

(** The first page of the image is in memory at 0x10000. *)
Definition header_in (m : memory) : Prop := forall x, 0x10000 <= x < 0x11000 -> load8 m x = kern (x - 0x10000) mod 256.

Lemma header_load32 m o : header_in m -> 0 <= o <= 4092 -> load32 m (0x10000 + o) = word_at kern o.
Proof.
  intros H Ho. unfold load32, word_at. rewrite !H by lia. repeat f_equal; lia.
Qed.

(** One segment. *)
Lemma load_one g s :
  seg_ok g ->
  wp (readseg fuel (sg_paddr g) (sg_filesz g) (sg_off g);;
      if sg_filesz g <? sg_memsz g
      then modify (set_d_mem (fun m => stosb m (u32 (sg_paddr g + sg_filesz g)) 0 (Z.to_nat (sg_memsz g - sg_filesz g))))
      else mret tt) s
    (fun _ s' => seg_in (d_mem s') g /\ forall x, x < seg_start g -> load8 (d_mem s') x = load8 (d_mem s) x).
Proof.
  intros (Hl & Hs & Hm & He). pose proof Hl as (H1 & H2 & H3 & H4 & H5 & H6). unfold seg_start, seg_end, sectors in *.
  apply wp_bind. eapply (wp_mono _ _ _ _ (readseg_loads _ _ _ s Hl)). intros [] s1 L.
  assert (seg_in' : forall x, sg_paddr g <= x < sg_paddr g + sg_filesz g ->
    load8 (d_mem s1) x = kern (sg_off g + (x - sg_paddr g)) mod 256).
  { intros x Hx. rewrite L. unfold sectors. rewrite bool_decide_eq_true_2 by lia. unfold kern. do 2 f_equal. lia. }
  assert (below : forall x, x < sg_paddr g - sg_off g mod 512 -> load8 (d_mem s1) x = load8 (d_mem s) x).
  { intros x Hx. rewrite L. by rewrite bool_decide_eq_false_2 by lia. }
  destruct (Z.ltb_spec (sg_filesz g) (sg_memsz g)) as [Hz|Hz].
  - apply wp_modify. cbn [d_mem set_d_mem]. rewrite u32_id by lia. split; [intros x; split; intros Hx|intros x Hx].
    all: rewrite load8_stosb; case_bool_decide; try lia; auto.
  - apply wp_ret. split; [|done]. intros x. split; [apply seg_in' | lia].
Qed.

Lemma load_loop_loads (l : list seg) n o s :
  (length l < n)%nat -> 0 <= o -> o + 32 * Z.of_nat (length l) <= 4096 ->
  l = (fun i => seg_of (o + 32 * i)) <$> seqZ 0 (Z.of_nat (length l)) ->
  Forall seg_ok l -> seg_sorted l -> header_in (d_mem s) ->
  wp (load_loop fuel (0x10000 + o) (0x10000 + (o + 32 * Z.of_nat (length l))) n) s (fun _ s' =>
    header_in (d_mem s') /\ Forall (seg_in (d_mem s')) l /\
    forall x, Forall (fun g => x < seg_start g) l -> load8 (d_mem s') x = load8 (d_mem s) x).
Proof.
  revert n o s. induction l as [|g l IH]; intros [|n] o s Hn Ho Hb El Hok Hs Hh; try (simpl in *; lia); cbn [load_loop].
  { rewrite (proj2 (Z.ltb_ge _ _)) by (simpl; lia). by apply wp_ret. }
  cbn [length] in *. rewrite (proj2 (Z.ltb_lt _ _)) by lia. apply wp_bind, wp_gets. cbv zeta.
  rewrite (seqZ_cons 0) in El by lia. cbn [fmap list_fmap] in El. injection El as Eg El. rewrite Z.mul_0_r, Z.add_0_r in Eg.
  rewrite <- !Z.add_assoc, !header_load32 by (done || lia).
  apply Forall_cons in Hok as [Hg Hok]. apply StronglySorted_inv in Hs as [Hs Hlast].
  subst g. pose proof (load_one (seg_of o) s Hg) as H1. unfold wp. rewrite <- bind_assoc.
  apply wp_bind. eapply (wp_mono _ _ _ _ H1). clear H1. intros [] s1 [Hin Hbelow].
  unfold PROGHDR_SIZE. rewrite u32_id by lia.
  replace (0x10000 + (o + 32 * Z.of_nat (S (length l)))) with (0x10000 + ((o + 32) + 32 * Z.of_nat (length l))) by lia.
  assert (header_in (d_mem s1)) as Hh1.
  { intros x Hx. rewrite Hbelow; [by apply Hh|]. destruct Hg as (_ & ? & _). lia. }
  eapply wp_mono; [apply IH; [lia|lia|lia| |done|done|done]|].
  { rewrite El at 1. replace (Z.pred (Z.of_nat (S (length l)))) with (Z.of_nat (length l)) by lia.
    change (Z.succ 0) with (1 + 0). rewrite <- fmap_add_seqZ, <- list_fmap_compose. apply list_fmap_ext.
    intros i x _. simpl. f_equal. lia. }
  intros [] s2 (Hh2 & Hin2 & Hb2). split; [done|]. split.
  - apply Forall_cons. split; [|done]. intros x. destruct (Hin x) as [I1 I2]. unfold seg_end in Hlast.
    split; intros Hx; (rewrite Hb2; [auto|]); eapply Forall_impl; [exact Hlast| |exact Hlast|]; cbv beta; lia.
  - intros x [Hx1 Hx2]%Forall_cons. rewrite Hb2 by done. by apply Hbelow.
Qed.

(** The image of a kernel: its entry point and its segments. *)
Definition image (entry : Z) (segs : list seg) : Prop :=
  let phoff := word_at kern 28 in
  let phnum := kern 44 mod 256 + 256 * (kern 45 mod 256) in
  word_at kern 0 = ELF_MAGIC /\ entry = word_at kern 24 /\ phoff + 32 * phnum <= 4096 /\
  segs = (fun i => seg_of (phoff + 32 * i)) <$> seqZ 0 phnum.

(** The kernel is loaded: every segment is in memory, and the jump is to the
    entry point. *)
Theorem bootmain_loads entry segs s :
  image entry segs -> Forall seg_ok segs -> seg_sorted segs -> (length segs < fuel)%nat -> (8 < fuel)%nat ->
  wp (bootmain fuel) s (fun r s' => r = Some entry /\ Forall (seg_in (d_mem s')) segs).
Proof.
  intros (Hmag & -> & Hph & Hsegs) Hok Hs Hn Hf. pose proof (word_at_range kern 28) as Hr.
  set (phnum := kern 44 mod 256 + 256 * (kern 45 mod 256)) in *.
  assert (0 <= phnum) as Hp0 by (unfold phnum; lia).
  assert (Z.of_nat (length segs) = phnum) as Hlen by (rewrite Hsegs, length_fmap, length_seqZ; lia).
  unfold bootmain. cbv zeta. apply wp_bind.
  eapply wp_mono; [apply readseg_loads; unfold loadable, sectors; lia|]. intros [] s1 L.
  assert (header_in (d_mem s1)) as Hh.
  { intros x Hx. rewrite L. unfold sectors. rewrite bool_decide_eq_true_2 by lia. unfold kern. by do 2 f_equal. }
  apply wp_bind, wp_gets. rewrite <- (Z.add_0_r 0x10000) at 1. rewrite !header_load32, Hmag by (done || lia).
  change (negb (ELF_MAGIC =? ELF_MAGIC)) with false. cbv iota.
  rewrite (Hh (0x10000 + 44)), (Hh (0x10000 + 45)) by lia.
  change (0x10000 + 44 - 0x10000) with 44. change (0x10000 + 45 - 0x10000) with 45. fold phnum.
  unfold PROGHDR_SIZE. rewrite !u32_id by lia. rewrite <- Hlen, <- Z.add_assoc. apply wp_bind.
  eapply wp_mono; [apply (load_loop_loads segs); try done; try lia|]. { by rewrite Hlen. }
  intros [] s2 (Hh2 & Hin & _). apply wp_bind, wp_gets, wp_ret. by rewrite header_load32.
Qed.

End sectors.

(** A kernel of one segment: five bytes at 4096 of the image go to 0x100000,
    with three zeros after them. *)
Definition small_kernel : drives := fun _ o =>
  default 0 (list_to_map (M := gmap Z Z)
    [(512, 0x7F); (513, 0x45); (514, 0x4C); (515, 0x46); (538, 0x10); (540, 52); (556, 1);
     (512 + 57, 16); (512 + 66, 16); (512 + 68, 5); (512 + 72, 8);
     (4608, 11); (4609, 22); (4610, 33); (4611, 44); (4612, 55)] !! o).

Definition dev0 : dev := MkDev (fun _ => 7) [] 0 0 [] false false false [] [] [].

Lemma bootmain_loads_witness :
  wp (bootmain (hw := plain_disk small_kernel) 20) dev0 (fun r s' =>
    r = Some 0x100000 /\ Forall (seg_in (img := small_kernel) (d_mem s')) [Seg 0x1000 0x100000 5 8]).
Proof.
  apply (bootmain_loads (wait := 1) 20).
  - lia.
  - split; [done|]. split; [done|]. split; [vm_compute; discriminate|]. by vm_compute.
  - constructor; [|done]. vm_compute. repeat split; try discriminate.
  - by repeat constructor.
  - simpl. lia.
  - lia.
Defined.
