(* ===== verification/Spinlock.v ===== *)
(** spinlock.c: spin locks and the nesting of pushcli and popcli, on a
    machine of several CPUs whose calls interleave. *)

From S2P Require Import Prelude Mmu.

(** * Definitions *)

(** [struct cpu]: the nesting depth, whether interrupts were on before the
    outermost pushcli, and the interrupt flag of the CPU's eflags. *)
Record cpu := Cpu { ncli : Z; intena : bool; IF : bool }.

(** [struct spinlock]: [lcpu] is the CPU holding it. *)
Record spinlock := Lock { locked : Z; lcpu : option nat }.

Record smp := Smp { cpus : list cpu; locks : list spinlock }.

Definition cpu0 : cpu := Cpu 0 false true.
Definition lock0 : spinlock := Lock 0 None.

Definition the_cpu (s : smp) (c : nat) : cpu := default cpu0 (cpus s !! c).
Definition the_lock (s : smp) (lk : nat) : spinlock := default lock0 (locks s !! lk).

Definition put_cpu (s : smp) (c : nat) (x : cpu) : smp := Smp (<[c := x]> (cpus s)) (locks s).
Definition put_lock (s : smp) (lk : nat) (x : spinlock) : smp := Smp (cpus s) (<[lk := x]> (locks s)).
Definition set_cpu (c : nat) (x : cpu) : M smp unit := modify (fun s => put_cpu s c x).
Definition set_lock (lk : nat) (x : spinlock) : M smp unit := modify (fun s => put_lock s lk x).

(** The CPU is found by its APIC id, which must not change meanwhile. *)
Definition mycpu (c : nat) : M smp cpu :=
  x ← gets (fun s => the_cpu s c);
  if IF x then panic "mycpu called with interrupts enabled" else mret x.

Definition pushcli (c : nat) : M smp unit :=
  x ← gets (fun s => the_cpu s c);
  let eflags := IF x in
  set_cpu c (Cpu (ncli x) (intena x) false);;
  x ← mycpu c;
  (if ncli x =? 0 then set_cpu c (Cpu (ncli x) eflags (IF x)) else mret tt);;
  x ← mycpu c;
  set_cpu c (Cpu (ncli x + 1) (intena x) (IF x)).

Definition popcli (c : nat) : M smp unit :=
  x ← gets (fun s => the_cpu s c);
  if IF x then panic "popcli - interruptible"
  else
    set_cpu c (Cpu (ncli x - 1) (intena x) (IF x));;
    x ← mycpu c;
    if ncli x <? 0 then panic "popcli"
    else if (ncli x =? 0) && intena x then set_cpu c (Cpu (ncli x) (intena x) true)
    else mret tt.

Definition holding (c lk : nat) : M smp bool :=
  pushcli c;;
  l ← gets (fun s => the_lock s lk);
  mycpu c;;
  popcli c;;
  mret (negb (locked l =? 0) && bool_decide (lcpu l = Some c)).

Definition initlock (lk : nat) : M smp unit := set_lock lk (Lock 0 None).

(** acquire, up to the loop; and one turn of the loop, which says whether
    the lock was taken. *)
Definition acquire_enter (c lk : nat) : M smp unit :=
  pushcli c;;
  h ← holding c lk;
  if h : bool then panic "acquire" else mret tt.

Definition acquire_spin (c lk : nat) : M smp bool :=
  l ← gets (fun s => the_lock s lk);
  set_lock lk (Lock 1 (lcpu l));;
  if locked l =? 0 then mycpu c;; set_lock lk (Lock 1 (Some c));; mret true
  else mret false.

Definition release (c lk : nat) : M smp unit :=
  h ← holding c lk;
  if negb h then panic "release"
  else
    l ← gets (fun s => the_lock s lk);
    set_lock lk (Lock (locked l) None);;
    set_lock lk (Lock 0 None);;
    popcli c.

(** * Programs *)

(** What a CPU has done: the locks it took, in reverse order, its own calls
    of pushcli that are still open, and the lock it spins for. *)
Record history := History { held : list nat; pushed : nat; spinning : option nat }.

(** The calls of a program that matches each popcli with a pushcli. *)
Inductive action :=
| AAcquire (lk : nat) | ASpin | ARelease (lk : nat) | APush | APop.

Record world := World { hw : smp; hist : list history }.

Inductive act (w : world) (c : nat) : action -> world -> Prop :=
| act_acquire lk s' h :
    hist w !! c = Some h -> spinning h = None -> (lk < length (locks (hw w)))%nat ->
    acquire_enter c lk (hw w) = OK tt s' ->
    act w c (AAcquire lk) (World s' (<[c := History (held h) (pushed h) (Some lk)]> (hist w)))
| act_spin lk s' h (b : bool) :
    hist w !! c = Some h -> spinning h = Some lk ->
    acquire_spin c lk (hw w) = OK b s' ->
    act w c ASpin (World s' (<[c := if b then History (lk :: held h) (pushed h) None else h]> (hist w)))
| act_release lk s' h :
    hist w !! c = Some h -> spinning h = None ->
    release c lk (hw w) = OK tt s' ->
    act w c (ARelease lk)
      (World s' (<[c := History (filter (fun l => l <> lk) (held h)) (pushed h) None]> (hist w)))
| act_push s' h :
    hist w !! c = Some h -> spinning h = None ->
    pushcli c (hw w) = OK tt s' ->
    act w c APush (World s' (<[c := History (held h) (S (pushed h)) None]> (hist w)))
| act_pop s' h n :
    hist w !! c = Some h -> spinning h = None -> pushed h = S n ->
    popcli c (hw w) = OK tt s' ->
    act w c APop (World s' (<[c := History (held h) n None]> (hist w))).

(** Machines that have just started: no lock taken, no pushcli open. *)
Definition start (w : world) : Prop :=
  length (cpus (hw w)) = length (hist w)
  /\ Forall (fun x => ncli x = 0) (cpus (hw w))
  /\ Forall (fun l => l = Lock 0 None) (locks (hw w))
  /\ Forall (fun h => h = History [] 0 None) (hist w).

Inductive reachable (w0 : world) : world -> Prop :=
| reach_refl : reachable w0 w0
| reach_act w c a w' : reachable w0 w -> act w c a w' -> reachable w0 w'.

(** * What the operations do *)

Lemma the_cpu_eq s c x : (c < length (cpus s))%nat -> the_cpu (put_cpu s c x) c = x.
Proof. intros H. unfold the_cpu. simpl. by rewrite list_lookup_insert_eq. Qed.

Lemma the_cpu_ne s c c' x : c <> c' -> the_cpu (put_cpu s c x) c' = the_cpu s c'.
Proof. intros H. unfold the_cpu. simpl. by rewrite list_lookup_insert_ne. Qed.

Lemma put_put s c x y : put_cpu (put_cpu s c x) c y = put_cpu s c y.
Proof. unfold put_cpu. simpl. by rewrite list_insert_insert_eq. Qed.

Lemma put_length s c x : length (cpus (put_cpu s c x)) = length (cpus s).
Proof. apply length_insert. Qed.

(** The CPU after pushcli, and after popcli. *)
Definition push (x : cpu) : cpu :=
  Cpu (ncli x + 1) (if ncli x =? 0 then IF x else intena x) false.
Definition pop (x : cpu) : cpu :=
  Cpu (ncli x - 1) (intena x) ((ncli x - 1 =? 0) && intena x).

Lemma mycpu_off s c n i :
  (c < length (cpus s))%nat ->
  mycpu c (put_cpu s c (Cpu n i false)) = OK (Cpu n i false) (put_cpu s c (Cpu n i false)).
Proof. intros Hc. unfold mycpu. by rewrite bind_gets, the_cpu_eq. Qed.

Lemma pushcli_run s c :
  (c < length (cpus s))%nat -> pushcli c s = OK tt (put_cpu s c (push (the_cpu s c))).
Proof.
  intros Hc. unfold pushcli, set_cpu. rewrite bind_gets, bind_modify.
  rewrite (bind_OK _ _ _ _ _ (mycpu_off s c _ _ Hc)). simpl. unfold push.
  destruct (ncli (the_cpu s c) =? 0); rewrite ?bind_modify, ?bind_ret, ?put_put;
    rewrite (bind_OK _ _ _ _ _ (mycpu_off s c _ _ Hc)); simpl;
    unfold modify; by rewrite put_put.
Qed.

Lemma popcli_run s c :
  (c < length (cpus s))%nat -> IF (the_cpu s c) = false -> 0 < ncli (the_cpu s c) ->
  popcli c s = OK tt (put_cpu s c (pop (the_cpu s c))).
Proof.
  intros Hc Hi Hn. unfold popcli, set_cpu. rewrite bind_gets, Hi, bind_modify.
  rewrite (bind_OK _ _ _ _ _ (mycpu_off s c _ _ Hc)). simpl.
  rewrite (proj2 (Z.ltb_ge _ _)) by lia. unfold pop.
  destruct (_ && _) eqn:E; unfold modify; [by rewrite put_put|done].
Qed.

(** The panics of popcli: interrupts on, or no pushcli to undo. *)
Lemma popcli_panics s c :
  (c < length (cpus s))%nat -> IF (the_cpu s c) = false -> ncli (the_cpu s c) <= 0 ->
  exists s', popcli c s = PANIC "popcli" s'.
Proof.
  intros Hc Hi Hn. unfold popcli, set_cpu. rewrite bind_gets, Hi, bind_modify.
  rewrite (bind_OK _ _ _ _ _ (mycpu_off s c _ _ Hc)). simpl.
  rewrite (proj2 (Z.ltb_lt _ _)) by lia. by eexists.
Qed.

Definition holds (s : smp) (c lk : nat) : bool :=
  negb (locked (the_lock s lk) =? 0) && bool_decide (lcpu (the_lock s lk) = Some c).

Lemma holding_run s c lk :
  (c < length (cpus s))%nat -> 0 <= ncli (the_cpu s c) ->
  holding c lk s = OK (holds s c lk) (put_cpu s c (pop (push (the_cpu s c)))).
Proof.
  intros Hc Hn. unfold holding. rewrite (bind_OK _ _ _ _ _ (pushcli_run s c Hc)), bind_gets.
  assert (mycpu c (put_cpu s c (push (the_cpu s c)))
          = OK (push (the_cpu s c)) (put_cpu s c (push (the_cpu s c)))) as Hm by by apply mycpu_off.
  rewrite (bind_OK _ _ _ _ _ Hm).
  rewrite (bind_OK _ _ _ _ _ (popcli_run (put_cpu s c (push (the_cpu s c))) c
    ltac:(by rewrite put_length) ltac:(by rewrite the_cpu_eq) ltac:(rewrite the_cpu_eq by done; simpl; lia))).
  by rewrite the_cpu_eq, put_put.
Qed.

(** Nested pushcli and popcli leave interrupts as they were. *)
Lemma pop_push x : 0 <= ncli x -> (0 < ncli x -> IF x = false) ->
  ncli (pop (push x)) = ncli x /\ IF (pop (push x)) = IF x
  /\ (0 < ncli x -> intena (pop (push x)) = intena x).
Proof.
  intros Hn Hi. unfold pop, push. simpl. replace (ncli x + 1 - 1) with (ncli x) by lia.
  destruct (Z.eqb_spec (ncli x) 0) as [H0|H0]; simpl.
  - split; [done|]. split; [done|]. intros; lia.
  - rewrite Hi by lia. done.
Qed.

(** * The invariant *)

(** CPU [c] with history [h]. *)
Record cpu_ok (s : smp) (c : nat) (h : history) : Prop := {
  co_cpu : (c < length (cpus s))%nat;
  co_depth : ncli (the_cpu s c) =
    Z.of_nat (length (held h) + pushed h + match spinning h with Some _ => 1 | None => 0 end);
  co_off : 0 < ncli (the_cpu s c) -> IF (the_cpu s c) = false;
  co_nodup : NoDup (held h);
  co_held : forall lk, lk ∈ held h <-> (lk < length (locks s))%nat /\ the_lock s lk = Lock 1 (Some c);
  co_spin : forall lk, spinning h = Some lk -> (lk < length (locks s))%nat /\ lk ∉ held h;
}.

Record world_ok (w : world) : Prop := {
  wo_cpu : forall c h, hist w !! c = Some h -> cpu_ok (hw w) c h;
  wo_lock : forall lk, the_lock (hw w) lk = Lock 0 None \/ exists c, the_lock (hw w) lk = Lock 1 (Some c);
}.

Lemma start_ok w : start w -> world_ok w.
Proof.
  intros (Hl & Hc & Hk & Hh). rewrite Forall_lookup in Hc. rewrite Forall_lookup in Hk. rewrite Forall_lookup in Hh.
  assert (forall lk, the_lock (hw w) lk = Lock 0 None) as Hlk.
  { intros lk. unfold the_lock. destruct (locks (hw w) !! lk) eqn:E; [by apply Hk in E|done]. }
  split; [|auto]. intros c h Hch. rewrite (Hh c h Hch).
  pose proof (lookup_lt_Some _ _ _ Hch) as Hlt. rewrite <- Hl in Hlt.
  destruct (lookup_lt_is_Some_2 _ _ Hlt) as [x Hx].
  assert (ncli (the_cpu (hw w) c) = 0) as Hn by (unfold the_cpu; rewrite Hx; by apply (Hc c)).
  split; simpl; [done|lia|lia|constructor| |done].
  intros lk. rewrite Hlk. split; [by intros ?%elem_of_nil|by intros [_ ?]].
Qed.

(** A call that changes only CPU [c]. *)
Lemma cpu_ok_other s c x c' h : c <> c' -> cpu_ok s c' h -> cpu_ok (put_cpu s c x) c' h.
Proof.
  intros Hne [H1 H2 H3 H4 H5 H6]. split; try done; rewrite ?put_length, ?the_cpu_ne by done; done.
Qed.

Lemma world_put w c h h' x :
  world_ok w -> hist w !! c = Some h -> cpu_ok (put_cpu (hw w) c x) c h' ->
  world_ok (World (put_cpu (hw w) c x) (<[c := h']> (hist w))).
Proof.
  intros [Hc Hl] Hh Hok. split; [|done]. simpl. intros c' h1 Hc'.
  destruct (decide (c = c')) as [<-|Hne].
  - rewrite list_lookup_insert_eq in Hc' by (by eapply lookup_lt_Some). by injection Hc' as <-.
  - rewrite list_lookup_insert_ne in Hc' by done. apply cpu_ok_other; auto.
Qed.

Lemma holding_put w c h lk :
  world_ok w -> hist w !! c = Some h ->
  exists x, holding c lk (hw w) = OK (holds (hw w) c lk) (put_cpu (hw w) c x)
    /\ ncli x = ncli (the_cpu (hw w) c) /\ IF x = IF (the_cpu (hw w) c).
Proof.
  intros Hw Hh. destruct (wo_cpu _ Hw c h Hh) as [H1 H2 H3 H4 H5 H6].
  destruct (pop_push (the_cpu (hw w) c)) as (P1 & P2 & _); [lia|done|].
  eexists. split; [apply holding_run; [done|lia]|done].
Qed.

Lemma holds_held w c h lk :
  world_ok w -> hist w !! c = Some h -> (lk < length (locks (hw w)))%nat ->
  holds (hw w) c lk = true <-> lk ∈ held h.
Proof.
  intros Hw Hh Hlk. rewrite (co_held _ _ _ (wo_cpu _ Hw c h Hh)). unfold holds.
  destruct (wo_lock _ Hw lk) as [->|(c' & ->)]; simpl.
  - split; [done|by intros [_ ?]].
  - rewrite bool_decide_eq_true. split; [intros [= ->]; done|intros [_ [= ->]]; done].
Qed.

Lemma acquire_enter_ok w c h lk s' :
  world_ok w -> hist w !! c = Some h -> spinning h = None -> (lk < length (locks (hw w)))%nat ->
  acquire_enter c lk (hw w) = OK tt s' ->
  world_ok (World s' (<[c := History (held h) (pushed h) (Some lk)]> (hist w))).
Proof.
  intros Hw Hh Hs Hlk. pose proof (wo_cpu _ Hw c h Hh) as [H1 H2 H3 H4 H5 H6].
  unfold acquire_enter. rewrite (bind_OK _ _ _ _ _ (pushcli_run _ c H1)).
  set (s1 := put_cpu (hw w) c (push (the_cpu (hw w) c))).
  assert (the_cpu s1 c = push (the_cpu (hw w) c)) as Hx1 by by apply the_cpu_eq.
  rewrite (bind_OK _ _ _ _ _ (holding_run s1 c lk ltac:(unfold s1; by rewrite put_length)
             ltac:(rewrite Hx1; simpl; lia))).
  destruct (holds s1 c lk) eqn:E; [done|]. intros [= <-].
  destruct (pop_push (the_cpu s1 c)) as (P1 & P2 & _); [rewrite Hx1; simpl; lia|by rewrite Hx1|].
  unfold s1. rewrite put_put. eapply world_put; [done|done|]. rewrite <- Hx1.
  change (holds (hw w) c lk = false) in E.
  split; simpl; rewrite ?length_insert, ?the_cpu_eq by done; [done| |by rewrite P2, Hx1|done|done|].
  - rewrite P1, Hx1. simpl. rewrite H2, Hs. lia.
  - intros lk' [= <-]. split; [done|]. rewrite <- (holds_held w c h) by done. by rewrite E.
Qed.

Lemma pushcli_ok w c h s' :
  world_ok w -> hist w !! c = Some h -> spinning h = None ->
  pushcli c (hw w) = OK tt s' ->
  world_ok (World s' (<[c := History (held h) (S (pushed h)) None]> (hist w))).
Proof.
  intros Hw Hh Hs. pose proof (wo_cpu _ Hw c h Hh) as [H1 H2 H3 H4 H5 H6].
  rewrite pushcli_run by done. intros [= <-]. eapply world_put; [done|done|].
  split; simpl; rewrite ?length_insert, ?the_cpu_eq by done; try done.
  simpl. rewrite H2, Hs. lia.
Qed.

Lemma popcli_ok w c h n s' :
  world_ok w -> hist w !! c = Some h -> spinning h = None -> pushed h = S n ->
  popcli c (hw w) = OK tt s' ->
  world_ok (World s' (<[c := History (held h) n None]> (hist w))).
Proof.
  intros Hw Hh Hs Hn. pose proof (wo_cpu _ Hw c h Hh) as [H1 H2 H3 H4 H5 H6].
  rewrite popcli_run by (done || (try apply H3; lia)). intros [= <-]. eapply world_put; [done|done|].
  split; simpl; rewrite ?length_insert, ?the_cpu_eq by done; try done; simpl.
  - rewrite H2, Hs, Hn. lia.
  - intros Hlt. by rewrite (proj2 (Z.eqb_neq _ _)) by lia.
Qed.

Lemma the_lock_eq s lk x : (lk < length (locks s))%nat -> the_lock (put_lock s lk x) lk = x.
Proof. intros H. unfold the_lock. simpl. by rewrite list_lookup_insert_eq. Qed.

Lemma the_lock_ne s lk lk' x : lk <> lk' -> the_lock (put_lock s lk x) lk' = the_lock s lk'.
Proof. intros H. unfold the_lock. simpl. by rewrite list_lookup_insert_ne. Qed.

(** Lock [lk] changes hands: from no one to [c], or from [c] to no one. *)
Lemma cpu_ok_lock s lk y c' h :
  cpu_ok s c' h -> (lk < length (locks s))%nat ->
  the_lock s lk <> Lock 1 (Some c') -> y <> Lock 1 (Some c') -> cpu_ok (put_lock s lk y) c' h.
Proof.
  intros [H1 H2 H3 H4 H5 H6] Hlk Ho Hn. split; try done; simpl; rewrite ?length_insert; [|done].
  intros lk'. rewrite H5. destruct (decide (lk = lk')) as [<-|Hne]; [|by rewrite the_lock_ne].
  rewrite the_lock_eq by done. tauto.
Qed.

Lemma world_lock w c h h' lk y :
  world_ok w -> hist w !! c = Some h -> (lk < length (locks (hw w)))%nat ->
  (forall c', c' <> c -> the_lock (hw w) lk <> Lock 1 (Some c') /\ y <> Lock 1 (Some c')) ->
  (y = Lock 0 None \/ y = Lock 1 (Some c)) ->
  cpu_ok (put_lock (hw w) lk y) c h' ->
  world_ok (World (put_lock (hw w) lk y) (<[c := h']> (hist w))).
Proof.
  intros [Hc Hl] Hh Hlk Ho Hy Hok. split; simpl.
  - intros c' h1 Hc'. destruct (decide (c = c')) as [<-|Hne].
    + rewrite list_lookup_insert_eq in Hc' by (by eapply lookup_lt_Some). by injection Hc' as <-.
    + rewrite list_lookup_insert_ne in Hc' by done. destruct (Ho c') as [? ?]; [done|].
      apply cpu_ok_lock; auto.
  - intros lk'. destruct (decide (lk = lk')) as [<-|Hne].
    + rewrite the_lock_eq by done. destruct Hy as [->| ->]; eauto.
    + by rewrite the_lock_ne.
Qed.

Lemma acquire_spin_ok w c h lk b s' :
  world_ok w -> hist w !! c = Some h -> spinning h = Some lk ->
  acquire_spin c lk (hw w) = OK b s' ->
  world_ok (World s' (<[c := if b : bool then History (lk :: held h) (pushed h) None else h]> (hist w))).
Proof.
  intros Hw Hh Hs. pose proof (wo_cpu _ Hw c h Hh) as [H1 H2 H3 H4 H5 H6].
  destruct (H6 lk Hs) as [Hlk Hn]. unfold acquire_spin, set_lock. rewrite bind_gets, bind_modify.
  destruct (wo_lock _ Hw lk) as [Hl|(c' & Hl)]; rewrite Hl; simpl.
  - unfold mycpu. rewrite bind_assoc, bind_gets. change (the_cpu (put_lock _ _ _) c) with (the_cpu (hw w) c).
    rewrite H3 by (rewrite H2, Hs; lia). rewrite bind_ret, bind_modify. unfold put_lock. simpl.
    rewrite list_insert_insert_eq. intros [= <- <-].
    fold (put_lock (hw w) lk (Lock 1 (Some c))).
    eapply world_lock; [done|done|done| |by right|].
    + intros c' Hne. rewrite Hl. split; congruence.
    + split; simpl; [done| |done|by constructor| |done].
      * change (the_cpu (put_lock _ _ _) c) with (the_cpu (hw w) c). rewrite H2, Hs. lia.
      * intros lk'. rewrite length_insert, elem_of_cons, H5.
        destruct (decide (lk' = lk)) as [->|Hne]; [by rewrite the_lock_eq by done; intuition|].
        rewrite the_lock_ne by done. intuition.
  - intros [= <- <-]. unfold put_lock. rewrite list_insert_id, list_insert_id by
      (try done; unfold the_lock in Hl; by destruct (locks (hw w) !! lk); simplify_eq/=).
    destruct w as [[? ?] ?]. done.
Qed.

Lemma filter_notin (lk : nat) (l : list nat) : lk ∉ l -> filter (fun x => x <> lk) l = l.
Proof.
  induction l as [|x l IH]; [done|]. rewrite not_elem_of_cons. intros [? ?].
  rewrite filter_cons_True by done. by rewrite IH.
Qed.

Lemma filter_length (lk : nat) (l : list nat) :
  NoDup l -> lk ∈ l -> S (length (filter (fun x => x <> lk) l)) = length l.
Proof.
  induction 1 as [|x l Hx Hl IH]; [by intros ?%elem_of_nil|]. rewrite elem_of_cons.
  intros [->|Hin].
  - rewrite filter_cons_False by tauto. by rewrite filter_notin.
  - rewrite filter_cons_True by (intros ->; done). simpl. f_equal. by apply IH.
Qed.

(** Giving back a lock, before the popcli that goes with it. *)
Lemma released_ok w c h lk :
  world_ok w -> hist w !! c = Some h -> spinning h = None -> lk ∈ held h ->
  world_ok (World (put_lock (hw w) lk (Lock 0 None))
    (<[c := History (filter (fun l => l <> lk) (held h)) (S (pushed h)) None]> (hist w))).
Proof.
  intros Hw Hh Hs E. pose proof (wo_cpu _ Hw c h Hh) as [H1 H2 H3 H4 H5 H6].
  pose proof (filter_length lk (held h) H4 E) as Hlen. pose proof (proj1 (H5 lk) E) as [Hlk Hl].
  apply (world_lock w c h); [done|done|done| |by left|].
  - intros c' Hne. rewrite Hl. split; congruence.
  - split; simpl; [done| |done|by apply NoDup_filter| |done].
    + change (the_cpu (put_lock _ _ _) c) with (the_cpu (hw w) c). rewrite H2, Hs. lia.
    + intros lk'. rewrite length_insert, list_elem_of_filter, H5.
      destruct (decide (lk' = lk)) as [->|Hne]; [rewrite the_lock_eq by done; intuition congruence|].
      rewrite the_lock_ne by done. intuition.
Qed.

Lemma release_ok w c h lk s' :
  world_ok w -> hist w !! c = Some h -> spinning h = None ->
  release c lk (hw w) = OK tt s' ->
  world_ok (World s' (<[c := History (filter (fun l => l <> lk) (held h)) (pushed h) None]> (hist w))).
Proof.
  intros Hw Hh Hs. pose proof (wo_cpu _ Hw c h Hh) as [H1 H2 H3 H4 H5 H6].
  destruct (holding_put w c h lk Hw Hh) as (x & Hx & X1 & X2).
  unfold release, set_lock. rewrite (bind_OK _ _ _ _ _ Hx).
  destruct (holds (hw w) c lk) eqn:E; [|done]. simpl. rewrite bind_gets, !bind_modify.
  assert (lk < length (locks (hw w)))%nat as Hlk.
  { destruct (decide (lk < length (locks (hw w)))%nat) as [|Hge]; [done|].
    unfold holds, the_lock in E. by rewrite lookup_ge_None_2 in E by lia. }
  apply (holds_held w c h lk Hw Hh Hlk) in E.
  pose proof (filter_length lk (held h) H4 E) as Hlen.
  assert (0 < length (held h))%nat as Hpos by (destruct (held h); [by apply elem_of_nil in E|simpl; lia]).
  set (s1 := put_lock (put_lock (put_cpu (hw w) c x) lk _) lk _).
  assert (s1 = put_cpu (put_lock (hw w) lk (Lock 0 None)) c x) as Hs1.
  { unfold s1, put_lock, put_cpu. simpl. by rewrite list_insert_insert_eq. }
  rewrite Hs1. rewrite popcli_run; rewrite ?the_cpu_eq, ?put_length by done; try done;
    [|rewrite X2, H3; [done|lia]|lia].
  rewrite put_put. intros [= <-].
  set (h1 := History (filter (fun l => l <> lk) (held h)) (S (pushed h)) None).
  set (h2 := History (filter (fun l => l <> lk) (held h)) (pushed h) None).
  set (w1 := World (put_lock (hw w) lk (Lock 0 None)) (<[c := h1]> (hist w))).
  assert (hist w1 !! c = Some h1) as Hh1 by (apply list_lookup_insert_eq; by eapply lookup_lt_Some).
  assert (world_ok w1) as Hw1 by by apply released_ok.
  pose proof (wo_cpu _ Hw1 c h1 Hh1) as [G1 G2 G3 G4 G5 G6].
  replace (<[c := h2]> (hist w)) with (<[c := h2]> (hist w1)) by apply list_insert_insert_eq.
  apply (world_put w1 c h1); [done|done|].
  split; simpl; rewrite ?length_insert, ?the_cpu_eq by done; try done; simpl.
  - rewrite X1, H2, Hs. lia.
  - intros Hlt. by rewrite (proj2 (Z.eqb_neq _ _)) by lia.
  - intros lk0. specialize (G5 lk0). simpl in G5. by rewrite length_insert in G5.
Qed.

Lemma act_ok w c a w' : world_ok w -> act w c a w' -> world_ok w'.
Proof.
  intros Hw Ha. destruct Ha.
  - by eapply acquire_enter_ok.
  - by eapply acquire_spin_ok.
  - by eapply release_ok.
  - by eapply pushcli_ok.
  - by eapply popcli_ok.
Qed.

Lemma reachable_ok w0 w : start w0 -> reachable w0 w -> world_ok w.
Proof. intros H0%start_ok. induction 1; [done|]. by eapply act_ok. Qed.

(** * Properties *)

(** C34: on any number of CPUs and in any interleaving of acquire, release,
    pushcli and popcli, a spin lock is held by at most one CPU. *)
Theorem spinlock_mutual_exclusion w0 w c c' h h' lk :
  start w0 -> reachable w0 w ->
  hist w !! c = Some h -> hist w !! c' = Some h' -> lk ∈ held h -> lk ∈ held h' -> c = c'.
Proof.
  intros H0 Hr Hh Hh' Hl Hl'. pose proof (reachable_ok _ _ H0 Hr) as Hw.
  apply (co_held _ _ _ (wo_cpu _ Hw c h Hh)) in Hl as [_ Hl].
  apply (co_held _ _ _ (wo_cpu _ Hw c' h' Hh')) in Hl' as [_ Hl']. congruence.
Qed.

(** a CPU that holds a lock or spins for one has its interrupts off, its
    depth counts exactly the locks it holds, the one it spins for and its
    open pushcli calls, and it never spins for a lock it holds itself. *)
Theorem interrupts_off w0 w c h :
  start w0 -> reachable w0 w -> hist w !! c = Some h ->
  ncli (the_cpu (hw w) c) =
    Z.of_nat (length (held h) + pushed h + match spinning h with Some _ => 1 | None => 0 end)
  /\ (held h <> [] \/ spinning h <> None -> IF (the_cpu (hw w) c) = false)
  /\ (forall lk, spinning h = Some lk -> lk ∉ held h).
Proof.
  intros H0 Hr Hh. destruct (wo_cpu _ (reachable_ok _ _ H0 Hr) c h Hh) as [H1 H2 H3 H4 H5 H6].
  split; [done|]. split; [|intros lk Hlk; by apply H6].
  intros Hb. apply H3. rewrite H2.
  destruct (held h), (spinning h); simpl; try lia. by destruct Hb.
Qed.

(** * Witnesses *)

Definition two_cpus : world :=
  World (Smp [cpu0; cpu0] [lock0; lock0]) [History [] 0 None; History [] 0 None].

Lemma two_cpus_start : start two_cpus.
Proof. split; [reflexivity|]. split; [|split]; repeat constructor. Qed.

(** CPU 0 takes lock 1; CPU 1 spins for it. *)
Definition contended : world :=
  World (Smp [Cpu 1 true false; Cpu 1 true false] [lock0; Lock 1 (Some 0%nat)])
    [History [1%nat] 0 None; History [] 0 (Some 1%nat)].

Definition spun : world :=
  World (Smp [Cpu 1 true false; cpu0] [lock0; lock0]) [History [] 0 (Some 1%nat); History [] 0 None].
Definition taken : world :=
  World (Smp [Cpu 1 true false; cpu0] [lock0; Lock 1 (Some 0%nat)]) [History [1%nat] 0 None; History [] 0 None].

Lemma contended_reachable : reachable two_cpus contended.
Proof.
  apply (reach_act _ taken 1 (AAcquire 1)).
  - apply (reach_act _ spun 0 ASpin).
    + apply (reach_act _ two_cpus 0 (AAcquire 1)); [apply reach_refl|].
      exact (act_acquire two_cpus 0 1 (hw spun) (History [] 0 None) eq_refl eq_refl ltac:(simpl; lia) eq_refl).
    + exact (act_spin spun 0 1 (hw taken) (History [] 0 (Some 1%nat)) true eq_refl eq_refl eq_refl).
  - exact (act_acquire taken 1 1 (hw contended) (History [] 0 None) eq_refl eq_refl ltac:(simpl; lia) eq_refl).
Qed.

Lemma spinlock_mutual_exclusion_witness :
  hist contended !! 0%nat = Some (History [1%nat] 0 None) /\ 0%nat = 0%nat.
Proof.
  split; [reflexivity|].
  apply (spinlock_mutual_exclusion two_cpus contended 0 0 (History [1%nat] 0 None) (History [1%nat] 0 None) 1);
    [apply two_cpus_start|apply contended_reachable|reflexivity|reflexivity|by apply list_elem_of_singleton..].
Defined.

Lemma interrupts_off_witness :
  ncli (the_cpu (hw contended) 1) = 1 /\ IF (the_cpu (hw contended) 1) = false.
Proof.
  destruct (interrupts_off two_cpus contended 1 (History [] 0 (Some 1%nat)) two_cpus_start
              contended_reachable eq_refl) as (H1 & H2 & _).
  split; [exact H1|]. apply H2. right. discriminate.
Defined.

(** * Call stacks *)

(** The loop of getcallerpcs: the saved eips of at most [n] frames, from the
    frame at [ebp] on. *)
Fixpoint caller_loop (m : memory) (ebp : Z) (n : nat) : list Z :=
  match n with
  | O => []
  | S n =>
    if (ebp =? 0) || (ebp <? KERNBASE) || (ebp =? 0xffffffff) then []
    else load32 m (ebp + 4) :: caller_loop m (load32 m ebp) n
  end.

Definition getcallerpcs (m : memory) (v : Z) : list Z :=
  let pcs := caller_loop m (u32 (v - 8)) 10 in
  pcs ++ replicate (10 - length pcs) 0.

(** The frames of a stack of calls: where each of them is, and where it
    returns to; the outermost one has a saved ebp that is no kernel address. *)
Fixpoint frames (m : memory) (ebp : Z) (l : list (Z * Z)) : Prop :=
  match l with
  | [] => ebp < KERNBASE
  | (f, pc) :: l => ebp = f /\ KERNBASE <= f < 0xffffffff /\ load32 m (f + 4) = pc /\ frames m (load32 m f) l
  end.

Lemma caller_loop_frames m ebp l n : frames m ebp l -> caller_loop m ebp n = take n (snd <$> l).
Proof.
  revert ebp l. induction n as [|n IH]; intros ebp l Hf; [done|]. destruct l as [|[f pc] l]; cbn [caller_loop frames] in *.
  - by rewrite (proj2 (Z.ltb_lt ebp KERNBASE) Hf), orb_true_r.
  - destruct Hf as (-> & Hr & <- & Hf).
    rewrite (proj2 (Z.eqb_neq f 0)), (proj2 (Z.ltb_ge f KERNBASE)), (proj2 (Z.eqb_neq f _)) by (unfold KERNBASE in *; lia).
    cbn. f_equal. by apply IH.
Qed.

(** Getcallerpcs gives the return addresses of the innermost ten frames of the
    stack, the innermost first, and zeros when there are fewer; it takes the
    address of the first argument, which is above the frame. *)
Lemma getcallerpcs_frames m v l :
  8 <= v < 2 ^ 32 -> frames m (v - 8) l ->
  getcallerpcs m v = take 10 (snd <$> l) ++ replicate (10 - length l) 0.
Proof.
  intros Hv Hf. unfold getcallerpcs. rewrite u32_id by lia. rewrite (caller_loop_frames _ _ _ _ Hf). f_equal.
  rewrite length_take, length_fmap. f_equal. lia.
Qed.
