(* ===== verification/Seg.v ===== *)
(** mmu.h, the segment and gate descriptors; seginit, switchkvm and switchuvm of
    vm.c; tvinit and idtinit of trap.c: the tables that the processor follows
    when a program traps, and what it then does with them. *)

From S2P Require Import Prelude Mmu Spinlock.

(** * Descriptors *)

Definition SEG_KCODE : Z := 1.
Definition SEG_KDATA : Z := 2.
Definition SEG_UCODE : Z := 3.
Definition SEG_UDATA : Z := 4.
Definition SEG_TSS : Z := 5.
Definition NSEGS : nat := 6.
Definition STA_X : Z := 0x8.
Definition STA_W : Z := 0x2.
Definition STA_R : Z := 0x2.
Definition STS_T32A : Z := 0x9.
Definition STS_IG32 : Z := 0xE.
Definition STS_TG32 : Z := 0xF.
Definition FL_IF : Z := 0x200.

Record segdesc := Segdesc {
  lim_15_0 : Z; base_15_0 : Z; base_23_16 : Z; sd_type : Z; sd_s : Z; sd_dpl : Z; sd_p : Z;
  lim_19_16 : Z; sd_avl : Z; sd_rsv1 : Z; sd_db : Z; sd_g : Z; base_31_24 : Z
}.

Definition segdesc0 : segdesc := Segdesc 0 0 0 0 0 0 0 0 0 0 0 0 0.

Definition SEG (type base lim dpl : Z) : segdesc :=
  Segdesc (Z.land (Z.shiftr lim 12) 0xffff) (Z.land (u32 base) 0xffff)
    (Z.land (Z.shiftr (u32 base) 16) 0xff) type 1 dpl 1
    (Z.shiftr (u32 lim) 28) 0 0 1 1 (Z.shiftr (u32 base) 24).

(** The limit of a segment of bytes; its field lim_19_16 has four bits. *)
Definition SEG16 (type base lim dpl : Z) : segdesc :=
  Segdesc (Z.land lim 0xffff) (Z.land (u32 base) 0xffff)
    (Z.land (Z.shiftr (u32 base) 16) 0xff) type 1 dpl 1
    (Z.shiftr (u32 lim) 16 mod 16) 0 0 1 0 (Z.shiftr (u32 base) 24).

(** What the processor takes from a descriptor: the base, and the last offset
    inside the segment. *)
Definition seg_base (d : segdesc) : Z := base_15_0 d + 65536 * base_23_16 d + 16777216 * base_31_24 d.
Definition seg_limit (d : segdesc) : Z :=
  let l := lim_15_0 d + 65536 * lim_19_16 d in
  if sd_g d =? 1 then 4096 * l + 4095 else l.

Record gatedesc := Gate {
  off_15_0 : Z; gd_cs : Z; gd_args : Z; gd_rsv1 : Z; gd_type : Z; gd_s : Z; gd_dpl : Z; gd_p : Z; off_31_16 : Z
}.

Definition gate0 : gatedesc := Gate 0 0 0 0 0 0 0 0 0.

Definition SETGATE (istrap : bool) (sel off d : Z) : gatedesc :=
  Gate (Z.land (u32 off) 0xffff) sel 0 0 (if istrap then STS_TG32 else STS_IG32) 0 d 1 (Z.shiftr (u32 off) 16).

Definition gate_off (g : gatedesc) : Z := off_15_0 g + 65536 * off_31_16 g.

(** struct taskstate, its fields that are used. *)
Record taskstate := Ts { esp0 : Z; ss0 : Z; iomb : Z }.

(** * A processor *)

(** The tables and the registers of a processor that these functions set: the
    descriptors and the task state of struct cpu, what lgdt, lidt and ltr
    loaded, and cr3. *)
Record hwcpu := HwCpu {
  c_gdt : list segdesc; c_ts : taskstate; c_gdtr : Z * Z; c_idtr : Z * Z; c_tr : Z; c_cr3 : Z
}.

(** The processors, with the depth of pushcli of each; the interrupt
    descriptor table; and the page table of the kernel. *)
Record segs := Segs { g_smp : Spinlock.smp; g_cpus : list hwcpu; g_idt : list gatedesc; g_kpgdir : Z; g_ticks : bool }.

Definition hwcpu0 : hwcpu := HwCpu (replicate NSEGS segdesc0) (Ts 0 0 0) (0, 0) (0, 0) 0 0.

Definition smp_lens : lens segs Spinlock.smp :=
  Lens g_smp (fun x s => Segs x (g_cpus s) (g_idt s) (g_kpgdir s) (g_ticks s)).

Definition upd_cpu (c : nat) (f : hwcpu -> hwcpu) (s : segs) : segs :=
  Segs (g_smp s) (alter f c (g_cpus s)) (g_idt s) (g_kpgdir s) (g_ticks s).
Definition put_idt (i : nat) (g : gatedesc) (s : segs) : segs :=
  Segs (g_smp s) (g_cpus s) (<[i := g]> (g_idt s)) (g_kpgdir s) (g_ticks s).
Definition init_tickslock (s : segs) : segs := Segs (g_smp s) (g_cpus s) (g_idt s) (g_kpgdir s) true.

Definition set_gdt (i : Z) (d : segdesc) (x : hwcpu) : hwcpu :=
  HwCpu (<[Z.to_nat i := d]> (c_gdt x)) (c_ts x) (c_gdtr x) (c_idtr x) (c_tr x) (c_cr3 x).
Definition set_ts (f : taskstate -> taskstate) (x : hwcpu) : hwcpu :=
  HwCpu (c_gdt x) (f (c_ts x)) (c_gdtr x) (c_idtr x) (c_tr x) (c_cr3 x).
Definition set_gdtr (r : Z * Z) (x : hwcpu) : hwcpu := HwCpu (c_gdt x) (c_ts x) r (c_idtr x) (c_tr x) (c_cr3 x).
Definition set_idtr (r : Z * Z) (x : hwcpu) : hwcpu := HwCpu (c_gdt x) (c_ts x) (c_gdtr x) r (c_tr x) (c_cr3 x).
Definition set_tr (r : Z) (x : hwcpu) : hwcpu := HwCpu (c_gdt x) (c_ts x) (c_gdtr x) (c_idtr x) r (c_cr3 x).
Definition set_cr3 (r : Z) (x : hwcpu) : hwcpu := HwCpu (c_gdt x) (c_ts x) (c_gdtr x) (c_idtr x) (c_tr x) r.

(** The three half words of lgdt and lidt, and what the processor makes of
    them: the limit and the base. *)
Definition pseudo (p size : Z) : list Z := [(size - 1) mod 65536; u32 p mod 65536; Z.shiftr (u32 p) 16 mod 65536].
Definition load_pseudo (l : list Z) : Z * Z := (default 0 (l !! 0%nat), default 0 (l !! 1%nat) + 65536 * default 0 (l !! 2%nat)).

Section segments.
(** Where the build puts idt and the fields of cpus[c], and the entry points
    of vectors.S. *)
Context (gdt_addr ts_addr : nat -> Z) (idt_addr : Z) (vectors : Z -> Z).

Definition lgdt (c : nat) (p size : Z) : M segs unit := modify (upd_cpu c (set_gdtr (load_pseudo (pseudo p size)))).
Definition lidt (c : nat) (p size : Z) : M segs unit := modify (upd_cpu c (set_idtr (load_pseudo (pseudo p size)))).
Definition ltr (c : nat) (sel : Z) : M segs unit := modify (upd_cpu c (set_tr sel)).
Definition lcr3 (c : nat) (val : Z) : M segs unit := modify (upd_cpu c (set_cr3 val)).

(** sizeof(struct segdesc), sizeof(struct gatedesc), sizeof(struct taskstate) *)
Definition SEGDESC_SIZE : Z := 8.
Definition GATE_SIZE : Z := 8.
Definition TS_SIZE : Z := 104.

Definition seginit (c : nat) : M segs unit :=
  modify (upd_cpu c (set_gdt SEG_KCODE (SEG (Z.lor STA_X STA_R) 0 0xffffffff 0)));;
  modify (upd_cpu c (set_gdt SEG_KDATA (SEG STA_W 0 0xffffffff 0)));;
  modify (upd_cpu c (set_gdt SEG_UCODE (SEG (Z.lor STA_X STA_R) 0 0xffffffff DPL_USER)));;
  modify (upd_cpu c (set_gdt SEG_UDATA (SEG STA_W 0 0xffffffff DPL_USER)));;
  lgdt c (gdt_addr c) (SEGDESC_SIZE * Z.of_nat NSEGS).

Definition switchkvm (c : nat) : M segs unit :=
  k ← gets g_kpgdir;
  lcr3 c (V2P k).

(** mycpu() is called before each write; it panics with interrupts on. *)
Definition mycpu_set (c : nat) (f : hwcpu -> hwcpu) : M segs unit :=
  zoom smp_lens (Spinlock.mycpu c);;
  modify (upd_cpu c f).

(** [p] is a process with its kernel stack and its page table. *)
Definition switchuvm (c : nat) (p : option (Z * Z)) : M segs unit :=
  match p with
  | None => panic "switchuvm: no process"
  | Some (kstack, pgdir) =>
    if kstack =? 0 then panic "switchuvm: no kstack"
    else if pgdir =? 0 then panic "switchuvm: no pgdir"
    else
      zoom smp_lens (Spinlock.pushcli c);;
      mycpu_set c (set_gdt SEG_TSS (SEG16 STS_T32A (ts_addr c) (TS_SIZE - 1) 0));;
      mycpu_set c (fun x => match c_gdt x !! Z.to_nat SEG_TSS with
        | Some d => set_gdt SEG_TSS (Segdesc (lim_15_0 d) (base_15_0 d) (base_23_16 d) (sd_type d) 0 (sd_dpl d) (sd_p d)
                      (lim_19_16 d) (sd_avl d) (sd_rsv1 d) (sd_db d) (sd_g d) (base_31_24 d)) x
        | None => x
        end);;
      mycpu_set c (set_ts (fun t => Ts (esp0 t) (Z.shiftl SEG_KDATA 3) (iomb t)));;
      mycpu_set c (set_ts (fun t => Ts (u32 (kstack + KSTACKSIZE)) (ss0 t) (iomb t)));;
      mycpu_set c (set_ts (fun t => Ts (esp0 t) (ss0 t) 0xFFFF));;
      ltr c (Z.shiftl SEG_TSS 3);;
      lcr3 c (V2P pgdir);;
      zoom smp_lens (Spinlock.popcli c)
  end.

(** The loop of tvinit over the [n] gates from [i] on. *)
Fixpoint tvinit_loop (i : Z) (n : nat) : M segs unit :=
  match n with
  | O => mret tt
  | S n =>
    modify (put_idt (Z.to_nat i) (SETGATE false (Z.shiftl SEG_KCODE 3) (vectors i) 0));;
    tvinit_loop (i + 1) n
  end.

Definition tvinit : M segs unit :=
  tvinit_loop 0 256;;
  modify (put_idt (Z.to_nat T_SYSCALL) (SETGATE true (Z.shiftl SEG_KCODE 3) (vectors T_SYSCALL) DPL_USER));;
  modify init_tickslock.

Definition idtinit (c : nat) : M segs unit := lidt c idt_addr (GATE_SIZE * 256).

End segments.

(** * What the processor reads back *)

Lemma split16 x : 0 <= x < 2 ^ 32 -> Z.land (u32 x) 0xffff + 65536 * Z.shiftr (u32 x) 16 = x.
Proof.
  intros Hx. rewrite u32_id by done. change 0xffff with (2 ^ 16 - 1). rewrite land_ones_mod, Z.shiftr_div_pow2 by lia. lia.
Qed.

Lemma gate_off_SETGATE b sel off d : 0 <= off < 2 ^ 32 -> gate_off (SETGATE b sel off d) = off.
Proof. apply split16. Qed.

Lemma load_pseudo_eq p size :
  0 <= p < 2 ^ 32 -> 0 < size <= 65536 -> load_pseudo (pseudo p size) = (size - 1, p).
Proof.
  intros Hp Hs. unfold load_pseudo, pseudo. simpl. rewrite u32_id, Z.shiftr_div_pow2 by lia. f_equal; lia.
Qed.

Lemma seg_base_eq x : 0 <= x < 2 ^ 32 ->
  Z.land (u32 x) 0xffff + 65536 * Z.land (Z.shiftr (u32 x) 16) 0xff + 16777216 * Z.shiftr (u32 x) 24 = x.
Proof.
  intros Hx. rewrite u32_id by done. change 0xffff with (2 ^ 16 - 1). change 0xff with (2 ^ 8 - 1).
  rewrite !land_ones_mod, !Z.shiftr_div_pow2 by lia. lia.
Qed.

(** SEG counts its limit in pages, SEG16 in bytes. *)
Lemma SEG_decodes type base lim dpl :
  0 <= base < 2 ^ 32 -> 0 <= lim < 2 ^ 32 ->
  seg_base (SEG type base lim dpl) = base /\ seg_limit (SEG type base lim dpl) = lim - lim mod 4096 + 4095.
Proof.
  intros Hb Hl. split; [by apply seg_base_eq|]. unfold seg_limit, SEG. simpl. rewrite u32_id by done.
  change 0xffff with (2 ^ 16 - 1). rewrite land_ones_mod, !Z.shiftr_div_pow2 by lia. lia.
Qed.

Lemma SEG16_decodes type base lim dpl :
  0 <= base < 2 ^ 32 -> 0 <= lim < 2 ^ 20 ->
  seg_base (SEG16 type base lim dpl) = base /\ seg_limit (SEG16 type base lim dpl) = lim.
Proof.
  intros Hb Hl. split; [by apply seg_base_eq|]. unfold seg_limit, SEG16. simpl. rewrite u32_id by lia.
  change 0xffff with (2 ^ 16 - 1). rewrite land_ones_mod, !Z.shiftr_div_pow2 by lia. lia.
Qed.

(** * tvinit *)

(** The gate of a vector: user code may only use the one of system calls,
    which leaves interrupts on. *)
Definition trap_gate (vectors : Z -> Z) (i : Z) : gatedesc :=
  if i =? T_SYSCALL then SETGATE true 8 (vectors i) DPL_USER else SETGATE false 8 (vectors i) 0.

Lemma tvinit_loop_run vectors n i s :
  0 <= i -> i + Z.of_nat n <= Z.of_nat (length (g_idt s)) ->
  exists l, tvinit_loop vectors i n s = OK tt (Segs (g_smp s) (g_cpus s) l (g_kpgdir s) (g_ticks s)) /\
    length l = length (g_idt s) /\
    forall j, 0 <= j -> l !! Z.to_nat j =
      if bool_decide (i <= j < i + Z.of_nat n) then Some (SETGATE false 8 (vectors j) 0) else g_idt s !! Z.to_nat j.
Proof.
  revert i s. induction n as [|n IH]; intros i s Hi Hn.
  { exists (g_idt s). split; [by destruct s|]. split; [done|]. intros j Hj. by rewrite bool_decide_eq_false_2 by lia. }
  simpl. rewrite bind_modify. set (s1 := put_idt _ _ s).
  assert (length (g_idt s1) = length (g_idt s)) as Hl by (by unfold s1; simpl; rewrite length_insert).
  destruct (IH (i + 1) s1) as (l & Hr & Hll & Hlk); [lia|lia|]. exists l. split; [done|]. split; [congruence|].
  intros j Hj. rewrite Hlk by done. destruct (decide (j = i)) as [->|Hne].
  - rewrite bool_decide_eq_false_2, bool_decide_eq_true_2 by lia. unfold s1. simpl. by rewrite list_lookup_insert_eq by lia.
  - rewrite (bool_decide_ext (i + 1 <= j < i + 1 + Z.of_nat n) (i <= j < i + Z.of_nat (S n))) by lia.
    case_bool_decide; [done|]. unfold s1. simpl. by rewrite list_lookup_insert_ne by lia.
Qed.

Lemma tvinit_run vectors s :
  length (g_idt s) = 256%nat ->
  exists l, tvinit vectors s = OK tt (Segs (g_smp s) (g_cpus s) l (g_kpgdir s) true) /\
    length l = 256%nat /\ forall i, 0 <= i < 256 -> l !! Z.to_nat i = Some (trap_gate vectors i).
Proof.
  intros Hl. destruct (tvinit_loop_run vectors 256 0 s) as (l & Hr & Hll & Hlk); [lia|lia|].
  unfold tvinit. rewrite (bind_OK _ _ _ _ _ Hr), bind_modify.
  exists (<[Z.to_nat T_SYSCALL := SETGATE true 8 (vectors T_SYSCALL) DPL_USER]> l).
  split; [done|]. split; [rewrite length_insert; congruence|]. intros i Hi. unfold trap_gate.
  destruct (Z.eqb_spec i T_SYSCALL) as [->|Hne].
  - apply list_lookup_insert_eq. unfold T_SYSCALL. lia.
  - rewrite list_lookup_insert_ne by (unfold T_SYSCALL in *; lia). rewrite Hlk by lia. by rewrite bool_decide_eq_true_2 by lia.
Qed.

(** * switchuvm *)

Lemma mycpu_set_run c f s :
  IF (the_cpu (g_smp s) c) = false -> mycpu_set c f s = OK tt (upd_cpu c f s).
Proof.
  intros H. unfold mycpu_set. erewrite bind_OK; [done|]. unfold zoom, mycpu. simpl. rewrite bind_gets, H. by destruct s.
Qed.

Definition the_hw (s : segs) (c : nat) : hwcpu := default hwcpu0 (g_cpus s !! c).

Lemma upd_cpu_upd c f g s : upd_cpu c f (upd_cpu c g s) = upd_cpu c (f ∘ g) s.
Proof.
  unfold upd_cpu. simpl. f_equal. apply list_eq. intros j. destruct (decide (c = j)) as [->|Hj].
  - rewrite !list_lookup_alter_eq. by destruct (g_cpus s !! j).
  - by rewrite !list_lookup_alter_ne.
Qed.

Lemma the_hw_upd c f s : (c < length (g_cpus s))%nat -> the_hw (upd_cpu c f s) c = f (the_hw s c).
Proof.
  intros Hc. unfold the_hw, upd_cpu. simpl. rewrite list_lookup_alter_eq.
  destruct (lookup_lt_is_Some_2 (g_cpus s) c Hc) as [x ->]. done.
Qed.

(** The processor of a process: a trap of its user code goes to the top of its
    kernel stack, in the kernel's data segment, and user code cannot use the
    ports; the page table is its own. *)
Record serves (x : hwcpu) (ts_addr kstack pgdir : Z) : Prop := {
  sv_esp0 : esp0 (c_ts x) = kstack + KSTACKSIZE;
  sv_ss0 : ss0 (c_ts x) = Z.shiftl SEG_KDATA 3;
  sv_iomb : TS_SIZE <= iomb (c_ts x);
  sv_tr : c_tr x = Z.shiftl SEG_TSS 3;
  sv_cr3 : c_cr3 x = V2P pgdir;
  sv_tss : exists d, c_gdt x !! Z.to_nat SEG_TSS = Some d /\ seg_base d = ts_addr /\ seg_limit d = TS_SIZE - 1 /\
    sd_s d = 0 /\ sd_type d = STS_T32A /\ sd_p d = 1;
}.

Lemma switchuvm_run ts_addr c kstack pgdir s :
  (c < length (cpus (g_smp s)))%nat -> (c < length (g_cpus s))%nat -> length (c_gdt (the_hw s c)) = NSEGS ->
  0 <= ncli (the_cpu (g_smp s) c) -> (0 < ncli (the_cpu (g_smp s) c) -> IF (the_cpu (g_smp s) c) = false) ->
  0 <= ts_addr c < 2 ^ 32 -> 0 < kstack < 2 ^ 32 - KSTACKSIZE -> pgdir <> 0 ->
  exists smp x, switchuvm ts_addr c (Some (kstack, pgdir)) s =
      OK tt (Segs smp (<[c := x]> (g_cpus s)) (g_idt s) (g_kpgdir s) (g_ticks s)) /\
    serves x (ts_addr c) kstack pgdir /\ IF (the_cpu smp c) = IF (the_cpu (g_smp s) c) /\
    ncli (the_cpu smp c) = ncli (the_cpu (g_smp s) c).
Proof.
  intros Hc1 Hc2 Hg Hn Hi Ht Hk Hp. unfold switchuvm.
  rewrite !(proj2 (Z.eqb_neq _ _)) by lia.
  erewrite bind_OK; [|unfold zoom; simpl; by rewrite pushcli_run]. set (smp1 := put_cpu _ _ _).
  assert (IF (the_cpu smp1 c) = false) as Hif.
  { unfold smp1. rewrite the_cpu_eq by done. unfold push. by case_match. }
  do 5 (erewrite bind_OK; [|by apply mycpu_set_run]). unfold ltr, lcr3. rewrite !bind_modify, !upd_cpu_upd.
  match goal with |- context [upd_cpu c ?f _] => set (F := f) end.
  assert (the_cpu smp1 c = push (the_cpu (g_smp s) c)) as Hpush by (by apply the_cpu_eq).
  assert (c < length (cpus smp1))%nat as Hc3 by (by unfold smp1; rewrite put_length).
  assert (0 < ncli (the_cpu smp1 c)) as Hn1 by (rewrite Hpush; simpl; lia).
  unfold zoom. cbn [lget smp_lens upd_cpu g_smp]. rewrite popcli_run by done.
  exists (put_cpu smp1 c (pop (the_cpu smp1 c))), (F (the_hw s c)).
  split; [|split; [|rewrite the_cpu_eq, Hpush by done; simpl; destruct (Z.eqb_spec (ncli (the_cpu (g_smp s) c)) 0)]].
  - simpl. do 2 f_equal. unfold the_hw. destruct (lookup_lt_is_Some_2 _ _ Hc2) as [x Hx]. rewrite Hx. simpl.
    apply list_eq. intros j. destruct (decide (c = j)) as [<-|Hj].
    + by rewrite list_lookup_alter_eq, list_lookup_insert_eq, Hx by done.
    + by rewrite list_lookup_alter_ne, list_lookup_insert_ne by done.
  - destruct (the_hw s c) as [gdt t gr ir tr cr]. simpl in Hg. do 7 (destruct gdt as [|? gdt]; try done).
    unfold F. clear F. destruct (SEG16_decodes STS_T32A (ts_addr c) (TS_SIZE - 1) 0) as [B L]; [done|done|].
    split; try done; simpl; [apply u32_id; ulia|]. by eexists.
  - rewrite e. split; [done|lia].
  - rewrite (proj2 (Z.eqb_neq _ _)) by lia. split; [|lia]. symmetry. apply Hi. lia.
Qed.
