(* ===== verification/X86.v ===== *)
(** swtch.S, trapasm.S, vectors.pl, usys.S and initcode.S over a processor with
    its registers and its stack; how the processor takes an interrupt through
    the tables of Seg.v. *)

From S2P Require Import Prelude Mmu Spinlock Seg.

(** * The processor *)

Inductive reg := EAX | ECX | EDX | EBX | ESP | EBP | ESI | EDI | EIP | EFLAGS | CS | DS | ES | FS | GS | SS.

(** Its registers, and memory at virtual addresses. *)
Record x86 := X86 {
  x_eax : Z; x_ecx : Z; x_edx : Z; x_ebx : Z; x_esp : Z; x_ebp : Z; x_esi : Z; x_edi : Z;
  x_eip : Z; x_eflags : Z; x_cs : Z; x_ds : Z; x_es : Z; x_fs : Z; x_gs : Z; x_ss : Z;
  xm : memory
}.

Definition xr (s : x86) (r : reg) : Z :=
  match r with
  | EAX => x_eax s
  | ECX => x_ecx s
  | EDX => x_edx s
  | EBX => x_ebx s
  | ESP => x_esp s
  | EBP => x_ebp s
  | ESI => x_esi s
  | EDI => x_edi s
  | EIP => x_eip s
  | EFLAGS => x_eflags s
  | CS => x_cs s
  | DS => x_ds s
  | ES => x_es s
  | FS => x_fs s
  | GS => x_gs s
  | SS => x_ss s
  end.

Definition put_reg (r : reg) (v : Z) (s : x86) : x86 :=
  let '(X86 a c d b sp bp si di ip fl cs ds es fs gs ss m) := s in
  match r with
  | EAX => X86 v c d b sp bp si di ip fl cs ds es fs gs ss m
  | ECX => X86 a v d b sp bp si di ip fl cs ds es fs gs ss m
  | EDX => X86 a c v b sp bp si di ip fl cs ds es fs gs ss m
  | EBX => X86 a c d v sp bp si di ip fl cs ds es fs gs ss m
  | ESP => X86 a c d b v bp si di ip fl cs ds es fs gs ss m
  | EBP => X86 a c d b sp v si di ip fl cs ds es fs gs ss m
  | ESI => X86 a c d b sp bp v di ip fl cs ds es fs gs ss m
  | EDI => X86 a c d b sp bp si v ip fl cs ds es fs gs ss m
  | EIP => X86 a c d b sp bp si di v fl cs ds es fs gs ss m
  | EFLAGS => X86 a c d b sp bp si di ip v cs ds es fs gs ss m
  | CS => X86 a c d b sp bp si di ip fl v ds es fs gs ss m
  | DS => X86 a c d b sp bp si di ip fl cs v es fs gs ss m
  | ES => X86 a c d b sp bp si di ip fl cs ds v fs gs ss m
  | FS => X86 a c d b sp bp si di ip fl cs ds es v gs ss m
  | GS => X86 a c d b sp bp si di ip fl cs ds es fs v ss m
  | SS => X86 a c d b sp bp si di ip fl cs ds es fs gs v m
  end.
Definition put_word (x v : Z) (s : x86) : x86 :=
  let '(X86 a c d b sp bp si di ip fl cs ds es fs gs ss m) := s in
  X86 a c d b sp bp si di ip fl cs ds es fs gs ss (store32 m x v).

Definition getr (r : reg) : M x86 Z := gets (fun s => xr s r).
Definition setr (r : reg) (v : Z) : M x86 unit := modify (put_reg r v).
Definition ldl (a : Z) : M x86 Z := gets (fun s => load32 (xm s) a).
Definition stl (a v : Z) : M x86 unit := modify (put_word a v).

(** * Instructions *)

Definition pushv (v : Z) : M x86 unit :=
  sp ← getr ESP;
  setr ESP (u32 (sp - 4));;
  stl (u32 (sp - 4)) v.

Definition popv : M x86 Z :=
  sp ← getr ESP;
  v ← ldl sp;
  setr ESP (u32 (sp + 4));;
  mret v.

(** A segment register is pushed with zeros above it. *)
Definition pushl (r : reg) : M x86 unit := v ← getr r; pushv v.
Definition popl (r : reg) : M x86 unit := v ← popv; setr r v.
Definition pops (r : reg) : M x86 unit := v ← popv; setr r (v mod 65536).
Definition movl (src dst : reg) : M x86 unit := v ← getr src; setr dst v.
(** The low half of a register, and a move of it to a segment register. *)
Definition movw_imm (n : Z) (r : reg) : M x86 unit := v ← getr r; setr r (v / 65536 * 65536 + n).
Definition movw (src dst : reg) : M x86 unit := v ← getr src; setr dst (v mod 65536).
Definition addl (n : Z) (r : reg) : M x86 unit := v ← getr r; setr r (u32 (v + n)).
Definition ret : M x86 unit := popl EIP.

Definition pushal : M x86 unit :=
  sp ← getr ESP;
  pushl EAX;; pushl ECX;; pushl EDX;; pushl EBX;; pushv sp;; pushl EBP;; pushl ESI;; pushl EDI.

Definition popal : M x86 unit :=
  popl EDI;; popl ESI;; popl EBP;; addl 4 ESP;; popl EBX;; popl EDX;; popl ECX;; popl EAX.

(** Back to the code that was interrupted; with its stack when that code has
    less privilege. *)
Definition iret : M x86 unit :=
  old ← getr CS;
  popl EIP;;
  pops CS;;
  popl EFLAGS;;
  new ← getr CS;
  if old mod 4 <? new mod 4 then
    v ← popv;
    w ← popv;
    setr ESP v;;
    setr SS (w mod 65536)
  else mret tt.

(** The processor enters the code of a gate: from user code it changes to the
    stack of the task state first; an interrupt gate turns interrupts off.
    Some exceptions push an error code. *)
Definition deliver (g : gatedesc) (t : taskstate) (err : option Z) : M x86 unit :=
  cs ← getr CS;
  ss ← getr SS;
  sp ← getr ESP;
  (if cs mod 4 =? DPL_USER then
     setr ESP (esp0 t);;
     setr SS (ss0 t);;
     pushv ss;;
     pushv sp
   else mret tt);;
  fl ← getr EFLAGS;
  pushv fl;;
  pushv cs;;
  pushl EIP;;
  (match err with Some e => pushv e | None => mret tt end);;
  setr CS (gd_cs g);;
  setr EIP (gate_off g);;
  if gd_type g =? STS_IG32 then setr EFLAGS (Z.land fl (Z.lnot FL_IF)) else mret tt.

(** int $n: the gate must admit the privilege of the code, else it is a general
    protection fault (13). *)
Definition T_GPFLT : Z := 13.
Definition gate_of (idt : list gatedesc) (n : Z) : gatedesc := default gate0 (idt !! Z.to_nat n).
Definition int_n (idt : list gatedesc) (t : taskstate) (n : Z) : M x86 unit :=
  cs ← getr CS;
  if gd_dpl (gate_of idt n) <? cs mod 4 then deliver (gate_of idt T_GPFLT) t (Some (8 * n + 2))
  else deliver (gate_of idt n) t None.

(** * swtch.S *)

Definition swtch : M x86 unit :=
  sp ← getr ESP;
  v ← ldl (sp + 4); setr EAX v;;
  v ← ldl (sp + 8); setr EDX v;;
  pushl EBP;;
  pushl EBX;;
  pushl ESI;;
  pushl EDI;;
  sp ← getr ESP;
  a ← getr EAX;
  stl a sp;;
  movl EDX ESP;;
  popl EDI;;
  popl ESI;;
  popl EBX;;
  popl EBP;;
  ret.

(** * vectors.pl and trapasm.S *)

(** The exceptions with which the processor pushes an error code. *)
Definition has_error (i : Z) : bool := (i =? 8) || ((10 <=? i) && (i <=? 14)) || (i =? 17).

Definition vector (i : Z) : M x86 unit :=
  (if has_error i then mret tt else pushv 0);;
  pushv i.

(** alltraps up to the call, with the address of the frame as its argument. *)
Definition build_frame : M x86 unit :=
  pushl DS;;
  pushl ES;;
  pushl FS;;
  pushl GS;;
  pushal;;
  movw_imm (Z.shiftl SEG_KDATA 3) EAX;;
  movw EAX DS;;
  movw EAX ES;;
  pushl ESP.

Definition trapret : M x86 unit :=
  popal;;
  pops GS;;
  pops FS;;
  pops ES;;
  pops DS;;
  addl 8 ESP;;
  iret.

(** [trap] is the C function, [back] the address after its call. *)
Definition alltraps (trap : M x86 unit) (back : Z) : M x86 unit :=
  build_frame;;
  pushv back;;
  trap;;
  ret;;
  addl 4 ESP;;
  trapret.

(** The vector whose code is at [ip]. *)
Definition find_vector (vectors : Z -> Z) (ip : Z) : option Z :=
  head (filter (fun i => vectors i = ip) (seqZ 0 256)).

(** int $n of a program, through the kernel and back. *)
Definition soft_int (idt : list gatedesc) (t : taskstate) (vectors : Z -> Z) (trap : M x86 unit) (back n : Z) : M x86 unit :=
  int_n idt t n;;
  ip ← getr EIP;
  match find_vector vectors ip with
  | Some i => vector i;; alltraps trap back
  | None => fault ip
  end.

(** * usys.S and syscall.h *)

Inductive sysname :=
| Sysfork | Sysexit | Syswait | Syspipe | Sysread | Syskill | Sysexec | Sysfstat | Syschdir | Sysdup |
Sysgetpid | Syssbrk | Syssleep | Sysuptime | Sysopen | Syswrite | Sysmknod | Sysunlink | Syslink | Sysmkdir |
Sysclose | Sysclone | Sysjoin | Sysgettid | Systkill | Systgkill | Systsuspend | Systresume.

Definition SYS_ (n : sysname) : Z :=
  match n with
  | Sysfork => 1 | Sysexit => 2 | Syswait => 3 | Syspipe => 4 | Sysread => 5 | Syskill => 6 | Sysexec => 7 |
  Sysfstat => 8 | Syschdir => 9 | Sysdup => 10 | Sysgetpid => 11 | Syssbrk => 12 | Syssleep => 13 | Sysuptime
  => 14 | Sysopen => 15 | Syswrite => 16 | Sysmknod => 17 | Sysunlink => 18 | Syslink => 19 | Sysmkdir => 20 |
  Sysclose => 21 | Sysclone => 22 | Sysjoin => 23 | Sysgettid => 24 | Systkill => 25 | Systgkill => 26 |
  Systsuspend => 27 | Systresume => 28
  end.

(** A stub: the number of the call, the trap, and back to the caller. *)
Definition SYSCALL (name : sysname) (int : Z -> M x86 unit) : M x86 unit :=
  setr EAX (SYS_ name);;
  int T_SYSCALL;;
  ret.

(** The stubs of the file. *)
Definition usys : list sysname :=
  [Sysfork; Sysexit; Syswait; Syspipe; Sysread; Syswrite; Sysclose; Syskill; Sysexec; Sysopen; Sysmknod;
   Sysunlink; Sysfstat; Syslink; Sysmkdir; Syschdir; Sysdup; Sysgetpid; Syssbrk; Syssleep; Sysuptime;
   Sysclone; Sysjoin; Sysgettid; Systkill; Systgkill; Systsuspend; Systresume].

(** * initcode.S *)

(** [init] and [argv] are the addresses of its data; exec does not return when
    it succeeds, and exit never does. *)
Definition initcode (init argv : Z) (int : Z -> M x86 unit) (turns : nat) : M x86 unit :=
  pushv argv;;
  pushv init;;
  pushv 0;;
  setr EAX (SYS_ Sysexec);;
  int T_SYSCALL;;
  Nat.iter turns (fun k => setr EAX (SYS_ Sysexit);; int T_SYSCALL;; k) nofuel.

(** * Running the instructions *)

Lemma pushv_run v s :
  4 <= x_esp s < 2 ^ 32 ->
  pushv v s = OK tt (put_word (x_esp s - 4) v (put_reg ESP (x_esp s - 4) s)).
Proof. intros H. unfold pushv, getr, setr, stl. mrun. simpl. by rewrite u32_id by lia. Qed.

Lemma popv_run s :
  0 <= x_esp s < 2 ^ 32 - 4 ->
  popv s = OK (load32 (xm s) (x_esp s)) (put_reg ESP (x_esp s + 4) s).
Proof. intros H. unfold popv, getr, setr, ldl. mrun. simpl. by rewrite u32_id by lia. Qed.

Lemma load32_store32_at m a b v : b = a -> load32 (store32 m a v) b = u32 v.
Proof. intros ->. apply load32_store32_eq. Qed.

(** Loads from a stack of words. *)
Ltac loads := repeat first [rewrite load32_store32_ne by lia | rewrite load32_store32_at by lia].

Ltac xcbn :=
  cbn [put_reg put_word xr xm x_eax x_ecx x_edx x_ebx x_esp x_ebp x_esi x_edi x_eip x_eflags x_cs x_ds x_es x_fs x_gs x_ss].

(** a - 4 - 4 is a - 8, and so on. *)
Ltac xsub :=
  repeat match goal with
  | |- context [?a - ?x - 4] =>
    rewrite <- (Z.sub_add_distr a x 4); let y := eval compute in (x + 4) in change (x + 4) with y
  end.

(** Runs a sequence of instructions from a state that is given by its
    registers. *)
Ltac xstep :=
  lazymatch goal with
  | |- context [((?m ≫= ?f) ≫= ?k) ?s] => rewrite (bind_assoc m f k s)
  | |- context [(pushv ?v ≫= ?k) ?s] => rewrite (bind_OK (pushv v) k s _ _ (pushv_run v s ltac:(xcbn; lia))); xcbn; xsub
  | |- context [(popv ≫= ?k) ?s] => rewrite (bind_OK popv k s _ _ (popv_run s ltac:(xcbn; lia)))
  | |- context [(modify ?f ≫= ?k) ?s] => rewrite (bind_modify f k s)
  | |- context [(gets ?f ≫= ?k) ?s] => rewrite (bind_gets f k s)
  | |- context [(mret ?a ≫= ?k) ?s] => rewrite (bind_ret a k s)
  | |- context [modify ?f ?s] => change (modify f s) with (OK tt (f s))
  | |- context [pushv ?v ?s] => rewrite (pushv_run v s ltac:(xcbn; lia)); xcbn; xsub
  end; xcbn.
Ltac xunf := unfold ret, pushl, popl, pops, movl, movw_imm, movw, addl, getr, setr, ldl, stl.

(** * The context switch *)

(** A call of swtch(old, new): the arguments are on the stack, there is place
    for the context below it, and the new context, the place for the old one
    and the stack do not overlap. *)
Record swtch_call (s : x86) (old new : Z) : Prop := {
  sc_esp : 16 <= x_esp s < 2 ^ 32 - 12;
  sc_old : load32 (xm s) (x_esp s + 4) = old;
  sc_new : load32 (xm s) (x_esp s + 8) = new;
  sc_range : 0 <= new < 2 ^ 32 - 20;
  sc_place : old + 4 <= x_esp s - 16 \/ x_esp s + 12 <= old;
  sc_apart : new + 20 <= x_esp s - 16 \/ x_esp s <= new;
  sc_apart2 : new + 20 <= old \/ old + 4 <= new;
}.

(** The words of struct context at [c]: edi, esi, ebx, ebp, eip. *)
Definition context_at (m : memory) (c : Z) : list Z :=
  [load32 m c; load32 m (c + 4); load32 m (c + 8); load32 m (c + 12); load32 m (c + 16)].

Lemma swtch_run s old new :
  swtch_call s old new -> Forall (fun v => 0 <= v < 2 ^ 32) [x_edi s; x_esi s; x_ebx s; x_ebp s] ->
  exists s', swtch s = OK tt s' /\
    [x_edi s'; x_esi s'; x_ebx s'; x_ebp s'; x_eip s'] = context_at (xm s) new /\ x_esp s' = new + 20 /\
    load32 (xm s') old = x_esp s - 16 /\
    context_at (xm s') (x_esp s - 16) = [x_edi s; x_esi s; x_ebx s; x_ebp s; load32 (xm s) (x_esp s)] /\
    x_cs s' = x_cs s /\
    (forall a, (a + 4 <= old \/ old + 4 <= a) -> (a + 4 <= x_esp s - 16 \/ x_esp s <= a) ->
       load32 (xm s') a = load32 (xm s) a).
Proof.
  destruct s as [a c d b sp bp si di ip fl cs ds es fs gs ss m]. intros [E O N R P A A2] Hf.
  apply Forall_cons in Hf as [F1 Hf]. apply Forall_cons in Hf as [F2 Hf]. apply Forall_cons in Hf as [F3 Hf].
  apply Forall_cons in Hf as [F4 _]. cbn [x_esp xm x_edi x_esi x_ebx x_ebp] in *.
  unfold swtch. xunf. repeat xstep. rewrite O, N. repeat xstep.
  eexists. split; [reflexivity|]. xcbn. unfold context_at.
  replace (sp - 16 + 16) with sp by lia. loads. rewrite !u32_id by lia.
  replace (new + 4 + 4) with (new + 8) by lia. replace (new + 8 + 4) with (new + 12) by lia.
  replace (new + 12 + 4) with (new + 16) by lia. split; [done|]. split; [lia|]. split; [lia|].
  split; [done|]. split; [done|]. intros x Hx Hx'. by loads.
Qed.

(** C26: swtch(&a, b) and, later, swtch(&b', a) from any other stack: the second
    call returns where the first one was called, with the stack pointer and
    the callee-saved registers that it had, provided that nobody wrote to the
    five words of the saved context meanwhile. *)
Theorem swtch_resumes s old new s' t old' :
  swtch_call s old new -> Forall (fun v => 0 <= v < 2 ^ 32) [x_edi s; x_esi s; x_ebx s; x_ebp s] ->
  swtch s = OK tt s' ->
  context_at (xm t) (load32 (xm s') old) = context_at (xm s') (load32 (xm s') old) ->
  swtch_call t old' (load32 (xm s') old) ->
  Forall (fun v => 0 <= v < 2 ^ 32) [x_edi t; x_esi t; x_ebx t; x_ebp t] ->
  exists t', swtch t = OK tt t' /\
    x_eip t' = load32 (xm s) (x_esp s) /\ x_esp t' = x_esp s + 4 /\
    [x_edi t'; x_esi t'; x_ebx t'; x_ebp t'] = [x_edi s; x_esi s; x_ebx s; x_ebp s].
Proof.
  intros Hs Fs Hr Hc Ht Ft. destruct (swtch_run s old new Hs Fs) as (s1 & Hr1 & _ & _ & Eo & Ec & _).
  rewrite Hr in Hr1. injection Hr1 as <-. rewrite Eo in *. rewrite Ec in Hc.
  destruct (swtch_run t old' _ Ht Ft) as (t' & Hr' & Er & Es & _). exists t'. split; [done|].
  rewrite Hc in Er. injection Er as -> -> -> -> ->. split; [done|]. split; [lia|done].
Qed.

(** * Entering the kernel *)

(** struct trapframe at [f], word by word. *)
Definition frame_at (m : memory) (f : Z) : list Z := (fun i => load32 m (f + 4 * i)) <$>
  [0; 1; 2; 3; 4; 5; 6; 7; 8; 9; 10; 11; 12; 13; 14; 15; 16; 17; 18].

Definition FRAME_SIZE : Z := 76.

(** The registers of a program, as the frame has them; [oesp] is not used. *)
Definition frame_of (s : x86) (oesp i err : Z) : list Z :=
  [x_edi s; x_esi s; x_ebp s; oesp; x_ebx s; x_edx s; x_ecx s; x_eax s; x_gs s; x_fs s; x_es s; x_ds s;
   i; err; x_eip s; x_cs s; x_eflags s; x_esp s; x_ss s].

(** Registers of their sizes; user code has privilege 3. *)
Record user_state (s : x86) : Prop := {
  us_words : Forall (fun v => 0 <= v < 2 ^ 32)
    [x_eax s; x_ecx s; x_edx s; x_ebx s; x_esp s; x_ebp s; x_esi s; x_edi s; x_eip s; x_eflags s];
  us_segs : Forall (fun v => 0 <= v < 65536) [x_cs s; x_ds s; x_es s; x_fs s; x_gs s; x_ss s];
  us_cpl : x_cs s mod 4 = DPL_USER;
}.

(** The processor pushes an error code exactly for the vectors that expect it. *)
Definition error_ok (i : Z) (err : option Z) : Prop :=
  match err with Some e => has_error i = true /\ 0 <= e < 2 ^ 32 | None => has_error i = false end.

(** Memory after words were pushed, from [a] - 4 * [k] down. *)
Fixpoint pushed (m : memory) (a k : Z) (ws : list Z) : memory :=
  match ws with [] => m | w :: ws => pushed (store32 m (a - 4 * (k + 1)) w) a (k + 1) ws end.

Lemma load8_pushed m a k ws x :
  x < a - 4 * (k + Z.of_nat (length ws)) \/ a - 4 * k <= x -> load8 (pushed m a k ws) x = load8 m x.
Proof.
  revert m k. induction ws as [|w ws IH]; intros m k Hx; [done|]. simpl in *. rewrite IH by lia. apply load8_store32_ne. lia.
Qed.

Lemma load_pushed_from m a k ws i w :
  ws !! i = Some w -> load32 (pushed m a k ws) (a - 4 * (k + Z.of_nat i + 1)) = u32 w.
Proof.
  revert m k i. induction ws as [|v ws IH]; intros m k i Hi; [done|]. simpl. destruct i as [|i].
  - injection Hi as ->. rewrite (load32_ext _ (store32 m (a - 4 * (k + 1)) w)).
    + rewrite load32_store32_at; [done|lia].
    + intros x Hx. apply load8_pushed. lia.
  - rewrite <- (IH (store32 m (a - 4 * (k + 1)) v) (k + 1) i) by done. f_equal. lia.
Qed.

Lemma load_pushed m a ws i w : ws !! i = Some w -> load32 (pushed m a 0 ws) (a - 4 * (Z.of_nat i + 1)) = u32 w.
Proof. intros Hi. by rewrite <- (load_pushed_from m a 0 ws i w Hi). Qed.

Lemma frame_index i j :
  [0; 1; 2; 3; 4; 5; 6; 7; 8; 9; 10; 11; 12; 13; 14; 15; 16; 17; 18] !! i = Some j -> 0 <= j <= 18.
Proof. intros Hj. apply list_elem_of_lookup_2 in Hj. revert j Hj. apply Forall_forall. repeat constructor; done. Qed.

(** Nineteen words and one more make a frame. *)
Lemma frame_pushed m a ws :
  length ws = 20%nat -> frame_at (pushed m a 0 ws) (a - 76) = u32 <$> rev (take 19 ws).
Proof.
  intros Hl. unfold frame_at.
  transitivity ((fun j => u32 (default 0 (ws !! Z.to_nat (18 - j)))) <$> [0; 1; 2; 3; 4; 5; 6; 7; 8; 9; 10; 11; 12; 13; 14; 15; 16; 17; 18]).
  - apply list_fmap_ext. intros i j Hj.
    pose proof (frame_index i j Hj) as Hr.
    destruct (lookup_lt_is_Some_2 ws (Z.to_nat (18 - j))) as [w Hw]; [lia|]. rewrite Hw. change (default 0 (Some w)) with w.
    rewrite <- (load_pushed m a ws _ w Hw). f_equal. lia.
  - do 20 (destruct ws as [|? ws]; [done|]). destruct ws; done.
Qed.

Ltac user_ranges H :=
  destruct H as [Hw Hs Hc]; cbn [x_eax x_ecx x_edx x_ebx x_esp x_ebp x_esi x_edi x_eip x_eflags x_cs x_ds x_es x_fs x_gs x_ss] in *;
  repeat match goal with
  | H : Forall _ (_ :: _) |- _ => let H1 := fresh "R" in apply Forall_cons in H as [H1 H]
  | H : Forall _ [] |- _ => clear H
  end.

(** Memory is compared store by store. *)
#[local] Strategy opaque [store32].

Lemma low_half v n : 0 <= n < 65536 -> (v / 65536 * 65536 + n) mod 65536 = n.
Proof. intros H. rewrite Z.add_comm, Z.mod_add by lia. by apply Z.mod_small. Qed.

Lemma enter_run s g t i err :
  user_state s -> 200 <= esp0 t < 2 ^ 32 -> 0 <= i < 256 -> error_ok i err ->
  exists s', (deliver g t err;; vector i;; build_frame) s = OK tt s' /\
    frame_at (xm s') (esp0 t - FRAME_SIZE) = frame_of s (esp0 t - 44) i (default 0 err) /\
    x_esp s' = esp0 t - FRAME_SIZE - 4 /\ load32 (xm s') (x_esp s') = esp0 t - FRAME_SIZE /\
    x_cs s' = gd_cs g /\ x_ss s' = ss0 t /\ x_ds s' = Z.shiftl SEG_KDATA 3 /\ x_es s' = Z.shiftl SEG_KDATA 3 /\
    x_eip s' = gate_off g /\
    (forall x, x < esp0 t - FRAME_SIZE - 4 \/ esp0 t <= x -> load8 (xm s') x = load8 (xm s) x).
Proof.
  destruct s as [a c d b sp bp si di ip fl cs ds es fs gs ss m]. intros Hu Ht Hi He. user_ranges Hu.
  set (K := esp0 t) in *.
  unfold deliver, vector, build_frame, pushal. xunf. repeat xstep. rewrite Hc. fold K. change (DPL_USER =? DPL_USER) with true.
  cbv iota. repeat xstep.
  assert (forall m', m' = pushed m K 0 [ss; sp; fl; cs; ip; default 0 err; i; ds; es; fs; gs; a; c; d; b; K - 44; bp; si; di; K - 76] ->
    frame_at m' (K - FRAME_SIZE) = frame_of (X86 a c d b sp bp si di ip fl cs ds es fs gs ss m) (K - 44) i (default 0 err)
    /\ load32 m' (K - 80) = K - FRAME_SIZE
    /\ (forall x, x < K - FRAME_SIZE - 4 \/ K <= x -> load8 m' x = load8 m x)) as Hfin.
  { intros m' ->. unfold FRAME_SIZE. rewrite frame_pushed by done. split; [|split].
    - unfold frame_of. destruct err as [e|]; [destruct He|]; simpl; by rewrite !u32_id by lia.
    - change (K - 80) with (K - 4 * (Z.of_nat 19 + 1)). rewrite (load_pushed _ _ _ 19 (K - 76)) by done. apply u32_id. lia.
    - intros x Hx. apply load8_pushed. simpl. lia. }
  destruct err as [e|]; [destruct He as [He He']|]; repeat xstep; destruct (gd_type g =? STS_IG32); repeat xstep;
    rewrite He; repeat xstep; eexists; (split; [reflexivity|]); xcbn.
  all: match goal with |- frame_at ?m' _ = _ /\ _ => destruct (Hfin m' eq_refl) as (H1 & H2 & H3) end.
  all: split; [exact H1|]; split; [unfold FRAME_SIZE; lia|]; split; [exact H2|]; do 2 (split; [done|]);
    do 2 (split; [by apply low_half|]); split; [done|]; intros x Hx; apply H3; unfold FRAME_SIZE; lia.
Qed.

(** * Leaving the kernel *)

Ltac xadd :=
  repeat match goal with
  | |- context [?a + 4 + 4] => rewrite <- (Z.add_assoc a 4 4); change (4 + 4) with 8
  | |- context [?a + ?x + ?y] =>
    lazymatch x with Zpos _ => idtac end; lazymatch y with Zpos _ => idtac end;
    rewrite <- (Z.add_assoc a x y); let z := eval compute in (x + y) in change (x + y) with z
  end.

(** The state of user code that a frame stands for. *)
Definition of_frame (w : list Z) (m : memory) : x86 :=
  let r i := default 0 (w !! i) in
  X86 (r 7%nat) (r 6%nat) (r 5%nat) (r 4%nat) (r 17%nat) (r 2%nat) (r 1%nat) (r 0%nat) (r 14%nat) (r 16%nat)
    (r 15%nat mod 65536) (r 11%nat mod 65536) (r 10%nat mod 65536) (r 9%nat mod 65536) (r 8%nat mod 65536)
    (r 18%nat mod 65536) m.

Lemma trapret_run s w :
  0 <= x_esp s < 2 ^ 32 - 80 -> x_cs s mod 4 = 0 -> frame_at (xm s) (x_esp s) = w ->
  default 0 (w !! 15%nat) mod 65536 mod 4 = DPL_USER ->
  trapret s = OK tt (of_frame w (xm s)).
Proof.
  destruct s as [a c d b f bp si di ip fl cs ds es fs gs ss m]. cbn [x_esp x_cs xm]. intros Hf Hc Hw Hd.
  unfold frame_at in Hw. cbn [fmap list_fmap] in Hw. subst w. simpl in Hd.
  unfold trapret, popal, iret. xunf.
  repeat (xstep; rewrite ?u32_id by lia; xadd).
  assert (load32 m (f + 60) mod 65536 mod 4 = 3) as -> by exact Hd. rewrite Hc. change (0 <? 3) with true. cbv iota.
  repeat (xstep; xadd). unfold of_frame. cbn [lookup list_lookup]. change (4 * 0) with 0. by rewrite Z.add_0_r.
Qed.

(** * A trap and its return *)

(** What the C function trap may do when it is called with a frame above its
    stack: it returns, it leaves its stack and the processor's privilege as
    they were, it makes of the frame what [F] says, and it keeps the word on
    top of the user's stack, where the stubs of usys.S find their way back. *)
Definition handles (trap : M x86 unit) (F : list Z -> list Z) : Prop := forall s,
  let f := load32 (xm s) (x_esp s + 4) in
  x_esp s + 8 <= f -> load32 (xm s) (f + 68) + 4 <= f ->
  exists s', trap s = OK tt s' /\ x_esp s' = x_esp s /\ x_cs s' = x_cs s /\
    load32 (xm s') (x_esp s) = load32 (xm s) (x_esp s) /\
    frame_at (xm s') f = F (frame_at (xm s) f) /\
    load32 (xm s') (load32 (xm s) (f + 68)) = load32 (xm s) (load32 (xm s) (f + 68)).

(** The way through the kernel and back. *)
Lemma trap_run s g t i err trap F back :
  user_state s -> 200 <= esp0 t < 2 ^ 32 - 80 -> 0 <= i < 256 -> error_ok i err -> gd_cs g mod 4 = 0 ->
  0 <= back < 2 ^ 32 -> handles trap F ->
  default 0 (F (frame_of s (esp0 t - 44) i (default 0 err)) !! 15%nat) mod 65536 mod 4 = DPL_USER ->
  x_esp s + 4 <= esp0 t - 84 ->
  exists m, (deliver g t err;; vector i;; alltraps trap back) s =
    OK tt (of_frame (F (frame_of s (esp0 t - 44) i (default 0 err))) m) /\
    load32 m (x_esp s) = load32 (xm s) (x_esp s).
Proof.
  intros Hu Ht Hi He Hg Hb Hh Hd Hus. destruct (enter_run s g t i err Hu ltac:(lia) Hi He)
    as (s1 & Hr & Hfr & Hsp & Ha & Hcs & _ & _ & _ & _ & Hout).
  apply bind_OK_inv in Hr as ([] & u1 & Hr1 & Hr). apply bind_OK_inv in Hr as ([] & u2 & Hr2 & Hr).
  rewrite (bind_OK _ _ _ _ _ Hr1), (bind_OK _ _ _ _ _ Hr2). unfold alltraps. rewrite (bind_OK _ _ _ _ _ Hr).
  unfold FRAME_SIZE in *. rewrite (bind_OK _ _ _ _ _ (pushv_run back s1 ltac:(lia))).
  set (s2 := put_word _ _ _). assert (x_esp s2 = esp0 t - 84) as E2 by (destruct s1; cbn in *; lia).
  assert (xm s2 = store32 (xm s1) (esp0 t - 84) back) as M2 by (destruct s1; cbn in *; f_equal; lia).
  assert (x_cs s2 = gd_cs g) as C2 by (destruct s1; cbn in *; done).
  assert (load32 (xm s2) (x_esp s2 + 4) = esp0 t - 76) as A2.
  { rewrite M2, E2, load32_store32_ne by lia. rewrite <- Ha. f_equal. lia. }
  assert (load32 (xm s2) (esp0 t - 76 + 68) = x_esp s) as U2.
  { rewrite M2, load32_store32_ne by lia. assert (frame_at (xm s1) (esp0 t - 76) !! 17%nat = Some (x_esp s)) as Hl by (by rewrite Hfr).
    by injection Hl. }
  destruct (Hh s2 ltac:(lia) ltac:(rewrite A2, U2; lia)) as (s3 & Hr3 & E3 & C3 & B3 & F3 & U3). rewrite (bind_OK _ _ _ _ _ Hr3). rewrite A2, E2, U2 in *.
  assert (load32 (xm s2) (x_esp s) = load32 (xm s) (x_esp s)) as U4.
  { rewrite M2, load32_store32_ne by lia. apply load32_ext. intros x Hx. apply Hout. lia. }
  rewrite C2 in C3. clear Hr3. clearbody s2. rewrite M2, load32_store32_at, (u32_id back) in B3 by lia.
  rewrite M2 in F3. assert (frame_at (store32 (xm s1) (esp0 t - 84) back) (esp0 t - 76) = frame_at (xm s1) (esp0 t - 76)) as Ef.
  { unfold frame_at. apply list_fmap_ext. intros k j Hj. apply load32_store32_ne.
    pose proof (frame_index k j Hj). lia. }
  rewrite Ef, Hfr in F3. destruct s3 as [a c d b sp bp si di ip fl cs ds es fs gs ss m]. cbn [x_esp x_cs xm] in *. subst sp.
  exists m. xunf. repeat (xstep; rewrite ?u32_id by lia).
  replace (esp0 t - 84 + 4 + 4) with (esp0 t - 76) by lia.
  erewrite trapret_run; [split; [done|congruence]|xcbn; lia|xcbn; congruence|exact F3|exact Hd].
Qed.

(** * Through the gates *)

Lemma deliver_eip s g t err :
  user_state s -> 200 <= esp0 t < 2 ^ 32 -> exists s', deliver g t err s = OK tt s' /\ x_eip s' = gate_off g.
Proof.
  destruct s as [a c d b sp bp si di ip fl cs ds es fs gs ss m]. intros Hu Ht. user_ranges Hu.
  unfold deliver. xunf. repeat xstep. rewrite Hc. change (DPL_USER =? DPL_USER) with true. cbv iota. repeat xstep.
  destruct err; repeat xstep; destruct (gd_type g =? STS_IG32); repeat xstep; eexists; (split; [reflexivity|done]).
Qed.

Lemma find_vector_eq vectors i :
  (forall j k, 0 <= j < 256 -> 0 <= k < 256 -> vectors j = vectors k -> j = k) -> 0 <= i < 256 ->
  find_vector vectors (vectors i) = Some i.
Proof.
  intros Hinj Hi. unfold find_vector.
  assert (i ∈ filter (fun j => vectors j = vectors i) (seqZ 0 256)) as Hin.
  { apply list_elem_of_filter. split; [done|]. apply elem_of_seqZ. lia. }
  destruct (filter _ _) as [|j l] eqn:E; [by apply not_elem_of_nil in Hin|]. simpl. f_equal.
  assert (j ∈ filter (fun j => vectors j = vectors i) (seqZ 0 256)) as Hj by (rewrite E; by left).
  apply list_elem_of_filter in Hj as [Hv Hj]. apply elem_of_seqZ in Hj. apply Hinj; [lia|lia|done].
Qed.

(** The vector and the error code that an int $n of user code leads to. *)
Definition user_vector (n : Z) : Z * Z := if n =? T_SYSCALL then (T_SYSCALL, 0) else (T_GPFLT, 8 * n + 2).

(** The tables of the kernel: tvinit has run, and the processor serves a
    process. *)
Record kernel_tables (vectors : Z -> Z) (idt : list gatedesc) (t : taskstate) (kstack : Z) : Prop := {
  kt_gate i : 0 <= i < 256 -> idt !! Z.to_nat i = Some (trap_gate vectors i);
  kt_range i : 0 <= i < 256 -> 0 <= vectors i < 2 ^ 32;
  kt_inj i j : 0 <= i < 256 -> 0 <= j < 256 -> vectors i = vectors j -> i = j;
  kt_stack : esp0 t = kstack + KSTACKSIZE;
  kt_place : KERNBASE <= kstack < 2 ^ 32 - KSTACKSIZE - 80;
}.

Lemma soft_int_run vectors idt t kstack s trap F back n :
  kernel_tables vectors idt t kstack -> user_state s -> x_esp s + 4 <= KERNBASE -> 0 <= back < 2 ^ 32 -> 0 <= n < 256 ->
  handles trap F ->
  let f := F (frame_of s (kstack + KSTACKSIZE - 44) (user_vector n).1 (user_vector n).2) in
  default 0 (f !! 15%nat) mod 65536 mod 4 = DPL_USER ->
  exists m, soft_int idt t vectors trap back n s = OK tt (of_frame f m) /\ load32 m (x_esp s) = load32 (xm s) (x_esp s).
Proof.
  intros [Hg Hr Hinj Hst Hpl] Hu Hsp Hb Hn Hh f Hd. unfold KSTACKSIZE in *. unf.
  set (i := (user_vector n).1). set (err := if n =? T_SYSCALL then None else Some (8 * n + 2)).
  assert (0 <= i < 256 /\ error_ok i err /\ default 0 err = (user_vector n).2) as (Hi & He & Herr).
  { unfold i, err, user_vector. destruct (n =? T_SYSCALL); unfold T_SYSCALL, T_GPFLT; simpl; repeat split; try done; lia. }
  assert (int_n idt t n s = deliver (trap_gate vectors i) t err s) as Eint.
  { unfold int_n, getr. rewrite bind_gets. change (xr s CS) with (x_cs s). rewrite (us_cpl _ Hu). unfold gate_of.
    rewrite !Hg by (unfold T_GPFLT; lia). unfold i, err, user_vector, trap_gate. simpl default.
    by destruct (n =? T_SYSCALL) eqn:E; [rewrite (proj1 (Z.eqb_eq _ _) E)|]. }
  assert (gate_off (trap_gate vectors i) = vectors i) as Eoff.
  { unfold trap_gate. destruct (i =? T_SYSCALL); by apply gate_off_SETGATE, Hr. }
  destruct (deliver_eip s (trap_gate vectors i) t err Hu ltac:(lia)) as (s1 & Hr1 & Hip).
  destruct (trap_run s (trap_gate vectors i) t i err trap F back) as (m & Hrun & Hm); try done; try lia.
  { unfold trap_gate. by destruct (i =? T_SYSCALL). }
  { rewrite Herr, Hst. exact Hd. }
  exists m. split; [|done]. unfold soft_int. rewrite Herr, Hst in Hrun. fold f in Hrun.
  rewrite (bind_OK _ _ _ _ _ Hr1) in Hrun. rewrite <- Eint in Hr1. rewrite (bind_OK _ _ _ _ _ Hr1).
  unfold getr. rewrite bind_gets. change (xr s1 EIP) with (x_eip s1). rewrite Hip, Eoff, find_vector_eq; done.
Qed.

Lemma tables_ready vectors ts_addr c kstack pgdir sg sg' :
  length (g_idt sg) = 256%nat -> (c < length (cpus (g_smp sg)))%nat -> (c < length (g_cpus sg))%nat ->
  length (c_gdt (the_hw sg c)) = NSEGS -> ncli (the_cpu (g_smp sg) c) = 0 -> 0 <= ts_addr c < 2 ^ 32 ->
  KERNBASE <= kstack < 2 ^ 32 - KSTACKSIZE - 80 -> pgdir <> 0 ->
  (forall i, 0 <= i < 256 -> 0 <= vectors i < 2 ^ 32) ->
  (forall i j, 0 <= i < 256 -> 0 <= j < 256 -> vectors i = vectors j -> i = j) ->
  (tvinit vectors;; switchuvm ts_addr c (Some (kstack, pgdir))) sg = OK tt sg' ->
  kernel_tables vectors (g_idt sg') (c_ts (the_hw sg' c)) kstack.
Proof.
  intros Hl Hc1 Hc2 Hg Hn Ht Hk Hp Hr Hinj Hrun. destruct (tvinit_run vectors sg Hl) as (idt & H1 & _ & Hi).
  rewrite (bind_OK _ _ _ _ _ H1) in Hrun.
  edestruct (switchuvm_run ts_addr c kstack pgdir) as (smp & x & H2 & Hs & _ & _); try exact Hp; try exact Ht;
    [| | | | | |rewrite H2 in Hrun].
  { exact Hc1. } { exact Hc2. } { exact Hg. } { simpl. lia. } { simpl. lia. } { unf. lia. }
  apply OK_inj in Hrun as [_ <-]. split; [done|done|done| |done].
  unfold the_hw. simpl. rewrite list_lookup_insert_eq by done. apply Hs.
Qed.

(** C12: after tvinit and switchuvm, user code that executes int $n enters the
    kernel on the stack of its process, and only in two ways: n = 64 is a
    system call, every other n is the trap 13 with an error code that names
    n.  In both cases trap finds the registers of the user code in the frame,
    and the user code goes on with what trap leaves there. *)
Theorem user_int_gates vectors ts_addr c kstack pgdir sg sg' s trap F back n :
  length (g_idt sg) = 256%nat -> (c < length (cpus (g_smp sg)))%nat -> (c < length (g_cpus sg))%nat ->
  length (c_gdt (the_hw sg c)) = NSEGS -> ncli (the_cpu (g_smp sg) c) = 0 -> 0 <= ts_addr c < 2 ^ 32 ->
  KERNBASE <= kstack < 2 ^ 32 - KSTACKSIZE - 80 -> pgdir <> 0 ->
  (forall i, 0 <= i < 256 -> 0 <= vectors i < 2 ^ 32) ->
  (forall i j, 0 <= i < 256 -> 0 <= j < 256 -> vectors i = vectors j -> i = j) ->
  (tvinit vectors;; switchuvm ts_addr c (Some (kstack, pgdir))) sg = OK tt sg' ->
  user_state s -> x_esp s + 4 <= KERNBASE -> 0 <= back < 2 ^ 32 -> 0 <= n < 256 -> handles trap F ->
  let f := F (frame_of s (kstack + KSTACKSIZE - 44) (if n =? T_SYSCALL then T_SYSCALL else T_GPFLT)
                (if n =? T_SYSCALL then 0 else 8 * n + 2)) in
  default 0 (f !! 15%nat) mod 65536 mod 4 = DPL_USER ->
  exists m, soft_int (g_idt sg') (c_ts (the_hw sg' c)) vectors trap back n s = OK tt (of_frame f m).
Proof.
  intros. assert (kernel_tables vectors (g_idt sg') (c_ts (the_hw sg' c)) kstack) as Hk by by eapply tables_ready.
  destruct (soft_int_run vectors (g_idt sg') (c_ts (the_hw sg' c)) kstack s trap F back n) as (m & Hr & _); try done;
    unfold user_vector in *; destruct (n =? T_SYSCALL); eauto.
Qed.

Lemma of_frame_of s o i e m :
  user_state s -> of_frame (frame_of s o i e) m =
    X86 (x_eax s) (x_ecx s) (x_edx s) (x_ebx s) (x_esp s) (x_ebp s) (x_esi s) (x_edi s) (x_eip s) (x_eflags s)
      (x_cs s) (x_ds s) (x_es s) (x_fs s) (x_gs s) (x_ss s) m.
Proof.
  destruct s as [a c d b sp bp si di ip fl cs ds es fs gs ss m0]. intros Hu. user_ranges Hu.
  unfold of_frame, frame_of. cbn [lookup list_lookup x_eax x_ecx x_edx x_ebx x_esp x_ebp x_esi x_edi x_eip x_eflags
    x_cs x_ds x_es x_fs x_gs x_ss]. simpl. by rewrite !Z.mod_small by lia.
Qed.

(** C24: a stub of usys.S, called by user code: trap gets a frame for vector 64
    with the number of the call in eax and the stack pointer of the stub, four
    bytes below the arguments; when trap only sets eax to a result, the stub
    returns to its caller with that result, and with every other register as
    it was. *)
Theorem stub_returns vectors idt t kstack s trap G back name :
  kernel_tables vectors idt t kstack -> user_state s -> x_esp s + 4 <= KERNBASE -> 0 <= back < 2 ^ 32 ->
  handles trap (fun f => <[7%nat := G f]> f) ->
  let f := frame_of (put_reg EAX (SYS_ name) s) (kstack + KSTACKSIZE - 44) T_SYSCALL 0 in
  exists m, SYSCALL name (soft_int idt t vectors trap back) s =
    OK tt (X86 (G f) (x_ecx s) (x_edx s) (x_ebx s) (x_esp s + 4) (x_ebp s) (x_esi s) (x_edi s)
             (load32 (xm s) (x_esp s)) (x_eflags s) (x_cs s) (x_ds s) (x_es s) (x_fs s) (x_gs s) (x_ss s) m).
Proof.
  intros Hk Hu Hsp Hb Hh f. assert (0 <= SYS_ name < 2 ^ 32) as Hnum by (destruct name; simpl; lia).
  set (s1 := put_reg EAX (SYS_ name) s).
  assert (user_state s1) as Hu1.
  { unfold s1. destruct s. destruct Hu as [Hw Hs Hc]. split; [|done|done]. cbn in *. apply Forall_cons in Hw as [_ Hw].
    by constructor. }
  destruct (soft_int_run vectors idt t kstack s1 trap (fun f => <[7%nat := G f]> f) back T_SYSCALL) as (m & Hr & Hm); try done.
  { unfold s1. by destruct s. }
  { unfold s1. destruct s. destruct Hu as [Hw Hs Hc]. apply Forall_cons in Hs as [Hs _]. cbn in *. by rewrite (Z.mod_small x_cs0). }
  exists m. unfold SYSCALL, setr. rewrite bind_modify. fold s1. rewrite (bind_OK _ _ _ _ _ Hr).
  change (frame_of s1 _ _ _) with f.
  replace (of_frame (<[7%nat := G f]> f) m) with (put_reg EAX (G f) (of_frame f m)) by done.
  unfold f. rewrite (of_frame_of s1) by done. unfold s1 in *. clear f Hr Hu1 s1. destruct s. cbn in Hm, Hsp |- *.
  user_ranges Hu. xunf. unf. repeat xstep. by rewrite Hm.
Qed.

(** Every call of syscall.h has a stub, and no two stubs have one number. *)
Lemma usys_stubs : (forall n, n ∈ usys) /\ NoDup (SYS_ <$> usys).
Proof.
  split; [|by apply (bool_decide_unpack (NoDup (SYS_ <$> usys)))]. destruct n; unfold usys; set_solver.
Qed.

(** * The first run of a process *)

(** The end of allocproc in proc.c: the kernel stack of a new process, with
    room for the trap frame, the address of trapret, and a context that starts
    at forkret.  The result is the frame, the context and the memory. *)
Definition CONTEXT_SIZE : Z := 20.
Definition new_stack (m : memory) (kstack trapret_a forkret_a : Z) : Z * Z * memory :=
  let sp := kstack + KSTACKSIZE in
  let sp := sp - FRAME_SIZE in
  let tf := sp in
  let sp := sp - 4 in
  let m := store32 m sp trapret_a in
  let sp := sp - CONTEXT_SIZE in
  let context := sp in
  let m := fill m context 0 CONTEXT_SIZE in
  let m := store32 m (context + 16) forkret_a in
  (tf, context, m).

(** The scheduler's swtch, and the code that it jumps to: forkret is a C
    function, and its return address is the word above the context. *)
Definition first_run (trapret_a forkret_a : Z) (forkret : M x86 unit) : M x86 unit :=
  swtch;;
  ip ← getr EIP;
  if ip =? forkret_a then
    forkret;;
    ret;;
    ip ← getr EIP;
    if ip =? trapret_a then trapret else fault ip
  else fault ip.

(** A C function without arguments that keeps its caller's stack. *)
Definition returns (f : M x86 unit) : Prop := forall s,
  exists s', f s = OK tt s' /\ x_esp s' = x_esp s /\ x_cs s' = x_cs s /\
    (forall a, x_esp s <= a < x_esp s + 4 + FRAME_SIZE -> load8 (xm s') a = load8 (xm s) a).

Lemma new_stack_context m kstack ra fa tf c m' :
  0 <= fa < 2 ^ 32 -> new_stack m kstack ra fa = (tf, c, m') ->
  context_at m' c = [0; 0; 0; 0; fa] /\ load32 m' (c + 20) = u32 ra /\ tf = c + 24 /\ c = kstack + KSTACKSIZE - 100.
Proof.
  unfold new_stack, CONTEXT_SIZE, FRAME_SIZE, context_at. intros Hf [= <- <- <-].
  set (c := kstack + KSTACKSIZE - 76 - 4 - 20). replace (kstack + KSTACKSIZE - 76) with (c + 24) by lia.
  rewrite !(load32_store32_ne _ _ _ c), !(load32_store32_ne _ _ _ (c + 4)), !(load32_store32_ne _ _ _ (c + 8)),
    !(load32_store32_ne _ _ _ (c + 12)), (load32_store32_ne _ _ _ (c + 20)), !load32_store32_eq, u32_id by lia.
  rewrite !load32_fill_0, load32_fill_ne, load32_store32_at by lia. split; [done|]. split; [done|]. lia.
Qed.

(** C25: a process that allocproc made starts: whatever the scheduler's stack
    is, its swtch to the new context runs forkret, which returns to trapret,
    which leaves the kernel with the registers that the trap frame has, as
    fork, clone or userinit filled it. *)
Theorem new_process_starts m0 kstack ra fa tf c m1 s old forkret w :
  0 <= ra < 2 ^ 32 -> 0 <= fa < 2 ^ 32 -> 0 <= kstack < 2 ^ 32 - KSTACKSIZE - 80 ->
  new_stack m0 kstack ra fa = (tf, c, m1) ->
  (forall x, c <= x < tf -> load8 (xm s) x = load8 m1 x) -> frame_at (xm s) tf = w ->
  swtch_call s old c -> Forall (fun v => 0 <= v < 2 ^ 32) [x_edi s; x_esi s; x_ebx s; x_ebp s] ->
  (old + 4 <= c \/ kstack + KSTACKSIZE <= old) -> (x_esp s <= c \/ kstack + KSTACKSIZE <= x_esp s - 16) ->
  x_cs s mod 4 = 0 -> returns forkret -> default 0 (w !! 15%nat) mod 65536 mod 4 = DPL_USER ->
  exists m, first_run ra fa forkret s = OK tt (of_frame w m).
Proof.
  intros Hra Hfa Hk Hn Hm Hw Hc Hf Ho Hsp Hcs Hret Hd.
  destruct (new_stack_context _ _ _ _ _ _ _ Hfa Hn) as (Ec & Er & -> & ->). set (c := kstack + KSTACKSIZE - 100) in *.
  assert (forall b, c <= b -> b + 4 <= c + 24 -> load32 (xm s) b = load32 m1 b) as Hm4.
  { intros b H1 H2. apply load32_ext. intros x Hx. apply Hm. lia. }
  destruct (swtch_run s old c Hc Hf) as (s1 & Hr & Er1 & Es1 & _ & _ & Ecs & Hout).
  assert (context_at (xm s) c = context_at m1 c) as Ectx by (unfold context_at; by rewrite !Hm4 by lia).
  rewrite Ectx, Ec in Er1. injection Er1 as _ _ _ _ Eip.
  unfold first_run. rewrite (bind_OK _ _ _ _ _ Hr). unfold getr. rewrite bind_gets. change (xr s1 EIP) with (x_eip s1).
  rewrite Eip, Z.eqb_refl. destruct (Hret s1) as (s2 & Hr2 & Es2 & Ecs2 & Hk2). rewrite (bind_OK _ _ _ _ _ Hr2).
  assert (forall b, c + 20 <= b -> b + 4 <= c + 100 -> load32 (xm s2) b = load32 (xm s) b) as Hs2.
  { intros b H1 H2. rewrite <- Hout by (unfold c in *; lia). apply load32_ext. intros x Hx. apply Hk2.
    rewrite Es1. unfold FRAME_SIZE. lia. }
  destruct s2 as [a cc d b sp bp si di ip fl cs ds es fs gs ss m]. cbn [x_esp x_cs xm] in *. subst sp cs. rewrite Es1 in *.
  exists m. xunf. unfold KSTACKSIZE in *. repeat xstep.
  rewrite Hs2, Hm4, Er, (u32_id ra), Z.eqb_refl by lia. eapply trapret_run; xcbn; [lia|congruence| |exact Hd].
  rewrite <- Hw. unfold frame_at. apply list_fmap_ext. intros k j Hj. pose proof (frame_index k j Hj).
  rewrite <- Hs2 by lia. f_equal. lia.
Qed.

(** * Examples *)

(** A handler that gives [v] as the result of every trap. *)
Definition answer (v : Z) : M x86 unit :=
  sp ← getr ESP;
  f ← ldl (sp + 4);
  stl (f + 28) v.

Lemma answer_handles v : 0 <= v < 2 ^ 32 -> handles (answer v) (fun f => <[7%nat := v]> f).
Proof.
  intros Hv [a c d b sp bp si di ip fl cs ds es fs gs ss m]. xcbn. intros H1 H2. unfold answer. xunf.
  eexists. repeat xstep. split; [reflexivity|]. xcbn. do 2 (split; [done|]).
  split; [by rewrite load32_store32_ne by lia|]. split; [|by rewrite load32_store32_ne by lia].
  unfold frame_at. simpl. loads. by rewrite u32_id by lia.
Qed.

Definition sample_vectors (i : Z) : Z := KERNBASE + 0x100000 + 16 * i.
Definition sample_segs : segs := Segs (Smp [cpu0] []) [hwcpu0] (replicate 256 gate0) 0 false.
Definition sample_user : x86 :=
  X86 1 2 3 4 0x2000 6 7 8 0x1000 FL_IF (8 * SEG_UCODE + 3) (8 * SEG_UDATA + 3) (8 * SEG_UDATA + 3) 0 0
    (8 * SEG_UDATA + 3) (store32 (fun _ => 0) 0x2000 0x1234).
Definition sample_kstack : Z := KERNBASE + 0x200000.
Definition sample_tables : segs :=
  match (tvinit sample_vectors;; switchuvm (fun _ => KERNBASE) 0 (Some (sample_kstack, KERNBASE))) sample_segs with
  | OK _ s => s
  | _ => sample_segs
  end.

Lemma sample_tables_run :
  (tvinit sample_vectors;; switchuvm (fun _ => KERNBASE) 0 (Some (sample_kstack, KERNBASE))) sample_segs = OK tt sample_tables.
Proof. vm_compute. reflexivity. Qed.

Lemma sample_user_state : user_state sample_user.
Proof.
  split; [| |done]; repeat (apply Forall_cons; split; [split; [by apply Z.leb_le|by apply Z.ltb_lt]|]); apply Forall_nil; done.
Qed.

Lemma user_int_gates_witness :
  exists m, soft_int (g_idt sample_tables) (c_ts (the_hw sample_tables 0)) sample_vectors (answer 42) 0x80105000 5 sample_user
    = OK tt (of_frame (<[7%nat := 42]> (frame_of sample_user (sample_kstack + KSTACKSIZE - 44) T_GPFLT 42)) m).
Proof.
  refine (user_int_gates sample_vectors (fun _ => KERNBASE) 0 sample_kstack KERNBASE sample_segs sample_tables sample_user
    (answer 42) (fun f => <[7%nat := 42]> f) 0x80105000 5 eq_refl _ _ eq_refl eq_refl _ _ _ _ _ sample_tables_run
    sample_user_state _ _ _ (answer_handles 42 _) eq_refl);
    unfold sample_vectors, sample_kstack, KSTACKSIZE; unf; simpl; lia.
Defined.

Lemma sample_tables_ready : kernel_tables sample_vectors (g_idt sample_tables) (c_ts (the_hw sample_tables 0)) sample_kstack.
Proof.
  refine (tables_ready sample_vectors (fun _ => KERNBASE) 0 sample_kstack KERNBASE sample_segs sample_tables
    eq_refl _ _ eq_refl eq_refl _ _ _ _ _ sample_tables_run);
    unfold sample_vectors, sample_kstack, KSTACKSIZE; unf; simpl; lia.
Qed.

Lemma stub_returns_witness :
  exists m, SYSCALL Syswait (soft_int (g_idt sample_tables) (c_ts (the_hw sample_tables 0)) sample_vectors (answer 42) 0x80105000)
    sample_user = OK tt (X86 42 2 3 4 0x2004 6 7 8 0x1234 FL_IF (8 * SEG_UCODE + 3) (8 * SEG_UDATA + 3)
      (8 * SEG_UDATA + 3) 0 0 (8 * SEG_UDATA + 3) m).
Proof.
  refine (stub_returns sample_vectors _ _ sample_kstack sample_user (answer 42) (fun _ => 42) 0x80105000 Syswait
    sample_tables_ready sample_user_state _ _ (answer_handles 42 _)); unf; simpl; lia.
Defined.

#[local] Strategy transparent [store32].

(** A call of swtch on the stack at [sp]. *)
Definition sample_call (m : memory) (sp old new v : Z) : x86 :=
  X86 0 0 0 (v + 1) sp (v + 2) (v + 3) (v + 4) 0 0 8 16 16 0 0 16
    (store32 (store32 (store32 m sp (v + 5)) (sp + 4) old) (sp + 8) new).

Definition sample_there : x86 :=
  match swtch (sample_call (fun _ => 0) 0x1000 0x5000 0x2000 100) with OK _ s => s | _ => sample_user end.

Lemma sample_there_run : swtch (sample_call (fun _ => 0) 0x1000 0x5000 0x2000 100) = OK tt sample_there.
Proof.
  edestruct swtch_run as (s & Hs & _); [| |unfold sample_there; by rewrite Hs].
  - split; first [by vm_compute|by left; vm_compute|by right; vm_compute].
  - repeat (apply Forall_cons; split; [simpl; lia|]); apply Forall_nil; done.
Qed.

Lemma swtch_resumes_witness :
  exists t', swtch (sample_call (xm sample_there) 0x3000 0x5004 0xff0 200) = OK tt t' /\
    x_eip t' = 105 /\ x_esp t' = 0x1004 /\ [x_edi t'; x_esi t'; x_ebx t'; x_ebp t'] = [104; 103; 101; 102].
Proof.
  destruct (swtch_resumes (sample_call (fun _ => 0) 0x1000 0x5000 0x2000 100) 0x5000 0x2000 sample_there
    (sample_call (xm sample_there) 0x3000 0x5004 0xff0 200) 0x5004) as (t' & H1 & H2 & H3 & H4).
  1, 5: split; first [by vm_compute|by left; vm_compute|by right; vm_compute].
  1, 4: repeat (apply Forall_cons; split; [simpl; lia|]); apply Forall_nil; done.
  - exact sample_there_run.
  - vm_compute. reflexivity.
  - exists t'. split; [exact H1|]. rewrite H2, H3, H4. clear. by vm_compute.
Defined.

Definition sample_start : Z * Z * memory := new_stack (fun _ => 8 * SEG_UCODE + 3) sample_kstack 0x80105000 0x80106000.

Lemma new_process_starts_witness :
  exists m, first_run 0x80105000 0x80106000 (mret tt)
    (sample_call sample_start.2 0x80120000 0x80130000 sample_start.1.2 100)
    = OK tt (of_frame (frame_at sample_start.2 sample_start.1.1) m).
Proof.
  refine (new_process_starts (fun _ => 8 * SEG_UCODE + 3) sample_kstack 0x80105000 0x80106000 _ _ _
    (sample_call sample_start.2 0x80120000 0x80130000 sample_start.1.2 100) 0x80130000 (mret tt) _ _ _ _
    (eq_sym (eq_trans (eq_sym (surjective_pairing _)) eq_refl)) _ _ _ _ _ _ eq_refl _ _).
  1, 2: unf; lia.
  1: unfold sample_kstack, KSTACKSIZE; unf; lia.
  1: { intros x Hx. unfold sample_call. cbn [xm]. by rewrite !load8_store32_ne by
    (unfold sample_kstack, KSTACKSIZE, FRAME_SIZE, CONTEXT_SIZE in Hx; unf; lia). }
  1: vm_compute; reflexivity.
  1: split; first [by vm_compute|by left; vm_compute|by right; vm_compute].
  1: repeat (apply Forall_cons; split; [simpl; lia|]); apply Forall_nil; done.
  1, 2: right; by vm_compute.
  1: { intros s. by exists s. }
  vm_compute. reflexivity.
Defined.
