(* ===== verification/Entry.v ===== *)
(** asm.h, bootasm.S, entry.S, entryother.S and the entrypgdir of main.c: how a
    processor gets from real mode to C code at the kernel's addresses. *)

From S2P Require Import Prelude Mmu Str Vm Dev Boot Seg.

(** * asm.h *)

Definition word16 (v : Z) : list Z := [v mod 256; v / 256 mod 256].

(** The eight bytes of a descriptor. *)
Definition SEG_NULLASM : list Z := word16 0 ++ word16 0 ++ [0; 0; 0; 0].
Definition SEG_ASM (type base lim : Z) : list Z :=
  word16 (Z.land (Z.shiftr lim 12) 0xffff) ++ word16 (Z.land base 0xffff) ++
  [Z.land (Z.shiftr base 16) 0xff; Z.lor 0x90 type;
   Z.lor 0xC0 (Z.land (Z.shiftr lim 28) 0xf); Z.land (Z.shiftr base 24) 0xff].

(** The bootstrap descriptors of bootasm.S and entryother.S, and the six bytes
    of gdtdesc, for descriptors at [gdt]. *)
Definition boot_gdt : list Z :=
  SEG_NULLASM ++ SEG_ASM (Z.lor STA_X STA_R) 0 0xffffffff ++ SEG_ASM STA_W 0 0xffffffff.
Definition gdtdesc (gdt : Z) : list Z := word16 (Z.of_nat (length boot_gdt) - 1) ++ le_bytes gdt.

(** * A processor before the kernel runs *)

Definition CR0_PE : Z := 0x00000001.
Definition CR0_WP : Z := 0x00010000.
Definition CR0_PG : Z := 0x80000000.
Definition CR4_PSE : Z := 0x00000010.

(** The devices and the physical memory, the control registers, what lgdt
    loaded, the interrupt flag, the segment registers, the stack pointer and
    where it jumps to. *)
Record early := Early {
  e_dev : dev; e_cr0 : Z; e_cr3 : Z; e_cr4 : Z; e_gdtr : Z * Z; e_if : bool;
  e_cs : Z; e_ds : Z; e_es : Z; e_ss : Z; e_fs : Z; e_gs : Z; e_esp : Z; e_eip : Z
}.

Definition dev_lens : lens early dev := Lens e_dev (fun d s =>
  Early d (e_cr0 s) (e_cr3 s) (e_cr4 s) (e_gdtr s) (e_if s) (e_cs s) (e_ds s) (e_es s) (e_ss s) (e_fs s) (e_gs s) (e_esp s) (e_eip s)).
Definition set_cr0 (v : Z) (s : early) : early :=
  Early (e_dev s) v (e_cr3 s) (e_cr4 s) (e_gdtr s) (e_if s) (e_cs s) (e_ds s) (e_es s) (e_ss s) (e_fs s) (e_gs s) (e_esp s) (e_eip s).
Definition set_ecr3 (v : Z) (s : early) : early :=
  Early (e_dev s) (e_cr0 s) v (e_cr4 s) (e_gdtr s) (e_if s) (e_cs s) (e_ds s) (e_es s) (e_ss s) (e_fs s) (e_gs s) (e_esp s) (e_eip s).
Definition set_cr4 (v : Z) (s : early) : early :=
  Early (e_dev s) (e_cr0 s) (e_cr3 s) v (e_gdtr s) (e_if s) (e_cs s) (e_ds s) (e_es s) (e_ss s) (e_fs s) (e_gs s) (e_esp s) (e_eip s).
Definition set_egdtr (v : Z * Z) (s : early) : early :=
  Early (e_dev s) (e_cr0 s) (e_cr3 s) (e_cr4 s) v (e_if s) (e_cs s) (e_ds s) (e_es s) (e_ss s) (e_fs s) (e_gs s) (e_esp s) (e_eip s).
Definition set_if (b : bool) (s : early) : early :=
  Early (e_dev s) (e_cr0 s) (e_cr3 s) (e_cr4 s) (e_gdtr s) b (e_cs s) (e_ds s) (e_es s) (e_ss s) (e_fs s) (e_gs s) (e_esp s) (e_eip s).
(** ljmp *)
Definition set_cs (v : Z) (s : early) : early :=
  Early (e_dev s) (e_cr0 s) (e_cr3 s) (e_cr4 s) (e_gdtr s) (e_if s) v (e_ds s) (e_es s) (e_ss s) (e_fs s) (e_gs s) (e_esp s) (e_eip s).
Definition set_data (v : Z) (s : early) : early :=
  Early (e_dev s) (e_cr0 s) (e_cr3 s) (e_cr4 s) (e_gdtr s) (e_if s) (e_cs s) v v v (e_fs s) (e_gs s) (e_esp s) (e_eip s).
Definition set_fsgs (v : Z) (s : early) : early :=
  Early (e_dev s) (e_cr0 s) (e_cr3 s) (e_cr4 s) (e_gdtr s) (e_if s) (e_cs s) (e_ds s) (e_es s) (e_ss s) v v (e_esp s) (e_eip s).
Definition set_esp (v : Z) (s : early) : early :=
  Early (e_dev s) (e_cr0 s) (e_cr3 s) (e_cr4 s) (e_gdtr s) (e_if s) (e_cs s) (e_ds s) (e_es s) (e_ss s) (e_fs s) (e_gs s) v (e_eip s).
Definition set_eip (v : Z) (s : early) : early :=
  Early (e_dev s) (e_cr0 s) (e_cr3 s) (e_cr4 s) (e_gdtr s) (e_if s) (e_cs s) (e_ds s) (e_es s) (e_ss s) (e_fs s) (e_gs s) (e_esp s) v.

Definition phys (s : early) : memory := d_mem (e_dev s).

(** lgdt, from the six bytes at [a]. *)
Definition lgdt_at (a : Z) : M early unit :=
  modify (fun s => set_egdtr (load8 (phys s) a + 256 * load8 (phys s) (a + 1), load32 (phys s) (a + 2)) s).

(** orl $bits to a control register. *)
Definition or_cr0 (bits : Z) : M early unit := modify (fun s => set_cr0 (Z.lor (e_cr0 s) bits) s).
Definition or_cr4 (bits : Z) : M early unit := modify (fun s => set_cr4 (Z.lor (e_cr4 s) bits) s).

(** * bootasm.S *)

Section entry.
Context {hw : hardware} (fuel : nat).

(** Up to the call of bootmain; [gdtdesc_a] and [start] are addresses of the
    boot block. *)
Definition bootasm (gdtdesc_a start : Z) : M early unit :=
  modify (set_if false);;
  modify (set_data 0);;
  zoom dev_lens (poll 0x64 0x2 0 fuel);;
  zoom dev_lens (outb 0x64 0xd1);;
  zoom dev_lens (poll 0x64 0x2 0 fuel);;
  zoom dev_lens (outb 0x60 0xdf);;
  lgdt_at gdtdesc_a;;
  or_cr0 CR0_PE;;
  modify (set_cs (Z.shiftl SEG_KCODE 3));;
  modify (set_data (Z.shiftl SEG_KDATA 3));;
  modify (set_fsgs 0);;
  modify (set_esp start).

(** bootmain and its jump to the entry of the kernel; when it returns the
    processor spins. *)
Definition boot_block (gdtdesc_a start : Z) : M early unit :=
  bootasm gdtdesc_a start;;
  r ← zoom dev_lens (bootmain fuel);
  match r with
  | Some entry => modify (set_eip entry)
  | None => nofuel
  end.

(** * entry.S *)

Definition entry (entrypgdir stack main : Z) : M early unit :=
  or_cr4 CR4_PSE;;
  modify (set_ecr3 (V2P entrypgdir));;
  or_cr0 (Z.lor CR0_PG CR0_WP);;
  modify (set_esp (u32 (stack + KSTACKSIZE)));;
  modify (set_eip main).

(** * entryother.S *)

(** [start] is where the code was copied to. *)
Definition entryother (gdtdesc_a start : Z) : M early unit :=
  modify (set_if false);;
  modify (set_data 0);;
  lgdt_at gdtdesc_a;;
  or_cr0 CR0_PE;;
  modify (set_cs (Z.shiftl SEG_KCODE 3));;
  modify (set_data (Z.shiftl SEG_KDATA 3));;
  modify (set_fsgs 0);;
  or_cr4 CR4_PSE;;
  modify (fun s => set_ecr3 (load32 (phys s) (start - 12)) s);;
  or_cr0 (Z.lor (Z.lor CR0_PE CR0_PG) CR0_WP);;
  modify (fun s => set_esp (load32 (phys s) (start - 4)) s);;
  modify (fun s => set_eip (load32 (phys s) (start - 8)) s).

End entry.

(** * main.c *)

Definition entrypgdir : list Z :=
  <[Z.to_nat (Z.shiftr KERNBASE PDXSHIFT) := Z.lor (Z.lor (Z.lor 0 PTE_P) PTE_W) PTE_PS]>
    (<[0%nat := Z.lor (Z.lor (Z.lor 0 PTE_P) PTE_W) PTE_PS]> (replicate (Z.to_nat NPDENTRIES) 0)).

(** * What an address reaches *)

(** A descriptor in memory. *)
Definition desc_at (m : memory) (a : Z) : segdesc :=
  let b i := load8 m (a + i) in
  Segdesc (b 0 + 256 * b 1) (b 2 + 256 * b 3) (b 4) (b 5 mod 16) (b 5 / 16 mod 2) (b 5 / 32 mod 4) (b 5 / 128)
    (b 6 mod 16) (b 6 / 16 mod 2) (b 6 / 32 mod 2) (b 6 / 64 mod 2) (b 6 / 128) (b 7).

(** The segment of a selector. *)
Definition segment (s : early) (sel : Z) : segdesc := desc_at (phys s) (snd (e_gdtr s) + 8 * (sel / 8)).

(** In 32-bit protected mode, with code and data segments that are the whole
    address space. *)
Record flat (s : early) : Prop := {
  fl_pe : testf (e_cr0 s) CR0_PE = true;
  fl_if : e_if s = false;
  fl_cs : segment s (e_cs s) = SEG (Z.lor STA_X STA_R) 0 0xffffffff 0;
  fl_ds : segment s (e_ds s) = SEG STA_W 0 0xffffffff 0;
  fl_data : e_es s = e_ds s /\ e_ss s = e_ds s;
}.

(** Through the page directory, when paging is on; a 4 MB page needs PSE. *)
Definition translate (s : early) (la : Z) : option Z :=
  if negb (testf (e_cr0 s) CR0_PG) then Some la
  else
    let pde := load32 (phys s) (PTE_ADDR (e_cr3 s) + 4 * PDX la) in
    if testf pde PTE_P && testf pde PTE_PS && testf (e_cr4 s) CR4_PSE then Some (pde - pde mod 2 ^ 22 + la mod 2 ^ 22)
    else None.

Lemma lookup_bytes_at m a n l j : bytes_at m a n = l -> 0 <= j < Z.of_nat n -> load8 m (a + j) = l !!! Z.to_nat j.
Proof.
  intros <- Hj. unfold bytes_at. rewrite list_lookup_total_alt, list_lookup_fmap, lookup_seq_lt by lia. simpl.
  by rewrite Z2Nat.id by lia.
Qed.

(** SEG_ASM lays out the same descriptors as SEG. *)
Lemma SEG_ASM_decodes m g : bytes_at m g 24 = boot_gdt ->
  desc_at m (g + 8) = SEG (Z.lor STA_X STA_R) 0 0xffffffff 0 /\ desc_at m (g + 16) = SEG STA_W 0 0xffffffff 0.
Proof.
  intros H. unfold desc_at. rewrite <- !Z.add_assoc. rewrite !(lookup_bytes_at _ _ _ _ _ H) by lia.
  split; vm_compute; reflexivity.
Qed.

Lemma gdtdesc_loads m a g : 0 <= g < 2 ^ 32 -> bytes_at m a 6 = gdtdesc g -> load32 m (a + 2) = g.
Proof.
  intros Hg H. unfold load32. rewrite <- !Z.add_assoc. rewrite !(lookup_bytes_at _ _ _ _ _ H) by lia.
  change (gdtdesc g !!! Z.to_nat 2) with (g mod 256). change (gdtdesc g !!! Z.to_nat (2 + 1)) with (g / 256 mod 256).
  change (gdtdesc g !!! Z.to_nat (2 + 2)) with (g / 65536 mod 256).
  change (gdtdesc g !!! Z.to_nat (2 + 3)) with (g / 16777216 mod 256). lia.
Qed.

(** The page directory of entry.S is in physical memory at [a]. *)
Definition entry_table (m : memory) (a : Z) : Prop :=
  a mod 4096 = 0 /\ 0 <= a < 2 ^ 32 /\ forall i, 0 <= i < 1024 -> load32 m (a + 4 * i) = entrypgdir !!! Z.to_nat i.

(** Both 4 MB from 0 on and from KERNBASE on are the first 4 MB of physical
    memory; no other address is mapped. *)
Definition entry_map (s : early) : Prop := forall va, 0 <= va < 2 ^ 32 ->
  translate s va = if va <? 4 * 1024 * 1024 then Some va
    else if (KERNBASE <=? va) && (va <? KERNBASE + 4 * 1024 * 1024) then Some (va - KERNBASE) else None.

Lemma entrypgdir_lookup i : 0 <= i < 1024 -> entrypgdir !!! Z.to_nat i = if (i =? 0) || (i =? 50) then 0x83 else 0.
Proof.
  intros Hi. unfold entrypgdir. change (Z.to_nat (Z.shiftr KERNBASE PDXSHIFT)) with 50%nat.
  change (Z.lor (Z.lor (Z.lor 0 PTE_P) PTE_W) PTE_PS) with 0x83. change (Z.to_nat NPDENTRIES) with 1024%nat.
  rewrite list_lookup_total_alt. destruct (Z.eqb_spec i 50) as [->|H50].
  - rewrite orb_true_r. rewrite list_lookup_insert_eq; [done|]. rewrite length_insert, length_replicate. lia.
  - rewrite list_lookup_insert_ne by lia. destruct (Z.eqb_spec i 0) as [->|H0]; [done|].
    rewrite list_lookup_insert_ne by lia. rewrite lookup_replicate_2 by lia. done.
Qed.

Lemma entry_table_maps s a :
  entry_table (phys s) a -> e_cr3 s = a -> testf (e_cr0 s) CR0_PG = true -> testf (e_cr4 s) CR4_PSE = true -> entry_map s.
Proof.
  intros (Ha & Hr & Ht) E Hp Hs va Hva. unfold translate. rewrite Hp, Hs, E. cbn [negb].
  assert (PTE_ADDR a = a) as -> by (rewrite PTE_ADDR_eq, u32_id; lia).
  assert (PDX va = va / 2 ^ 22) as -> by (rewrite PDX_eq, u32_id; lia).
  rewrite Ht, entrypgdir_lookup by lia. unf.
  destruct (Z.ltb_spec va (4 * 1024 * 1024)) as [Hlo|Hlo].
  { replace (va / 2 ^ 22) with 0 by lia. cbn. f_equal. rewrite Z.mod_small by lia. lia. }
  destruct (Z.leb_spec 0xC800000 va) as [Hk|Hk]; [destruct (Z.ltb_spec va (0xC800000 + 4 * 1024 * 1024)) as [Hk2|Hk2]|].
  { replace (va / 2 ^ 22) with 50 by lia. cbn. f_equal. lia. }
  all: rewrite !(proj2 (Z.eqb_neq _ _)) by lia; done.
Qed.

Lemma lookup_le_bytes ws i k w :
  ws !! i = Some w -> (k < 4)%nat -> (ws ≫= le_bytes) !! (4 * i + k)%nat = le_bytes w !! k.
Proof.
  revert i. induction ws as [|v ws IH]; intros i Hi Hk; [done|].
  change ((v :: ws) ≫= le_bytes) with (le_bytes v ++ (ws ≫= le_bytes)). destruct i as [|i].
  - injection Hi as ->. by rewrite lookup_app_l by done.
  - rewrite lookup_app_r by (simpl; lia). rewrite <- (IH i Hi Hk). f_equal. simpl. lia.
Qed.

(** The words of a table, from its bytes. *)
Lemma entry_table_bytes m a :
  a mod 4096 = 0 -> 0 <= a < 2 ^ 32 ->
  (forall j, 0 <= j < 4096 -> load8 m (a + j) = default 0 ((entrypgdir ≫= le_bytes) !! Z.to_nat j)) -> entry_table m a.
Proof.
  intros Ha Hr Hb. split; [done|]. split; [done|]. intros i Hi.
  assert (entrypgdir !! Z.to_nat i = Some (if (i =? 0) || (i =? 50) then 0x83 else 0)) as Hl.
  { rewrite <- entrypgdir_lookup by done. apply list_lookup_lookup_total_lt.
    unfold entrypgdir. rewrite !length_insert, length_replicate. unf. lia. }
  rewrite entrypgdir_lookup by done. unfold load32. rewrite <- !Z.add_assoc.
  rewrite !Hb by lia. replace (Z.to_nat (4 * i)) with (4 * Z.to_nat i + 0)%nat by lia.
  replace (Z.to_nat (4 * i + 1)) with (4 * Z.to_nat i + 1)%nat by lia.
  replace (Z.to_nat (4 * i + 2)) with (4 * Z.to_nat i + 2)%nat by lia.
  replace (Z.to_nat (4 * i + 3)) with (4 * Z.to_nat i + 3)%nat by lia.
  rewrite !(lookup_le_bytes _ _ _ _ Hl) by lia. by destruct ((i =? 0) || (i =? 50)).
Qed.

(** * The chain of the boot *)

(** The BIOS has loaded the boot block, with its descriptors at [g]. *)
Definition boot_sector (m : memory) (gdtdesc_a g : Z) : Prop :=
  0 <= g < 2 ^ 32 /\ bytes_at m gdtdesc_a 6 = gdtdesc g /\ bytes_at m g 24 = boot_gdt.

(** The segments that the bootstrap descriptors give. *)
Lemma boot_segments gdtdesc_a g m s :
  boot_sector m gdtdesc_a g -> phys s = m -> snd (e_gdtr s) = load32 m (gdtdesc_a + 2) ->
  segment s 8 = SEG (Z.lor STA_X STA_R) 0 0xffffffff 0 /\ segment s 16 = SEG STA_W 0 0xffffffff 0.
Proof.
  intros (Hg & Hd & Hb) Ep Eg. unfold segment. rewrite Ep, Eg, (gdtdesc_loads _ _ _ Hg Hd). by apply SEG_ASM_decodes.
Qed.

(** Another processor, in the code of entryother.S: it takes its page table,
    its stack and the function that it calls from the words below the code. *)
Lemma entryother_run gdtdesc_a start g s :
  boot_sector (phys s) gdtdesc_a g -> entry_table (phys s) (load32 (phys s) (start - 12)) ->
  exists s', entryother gdtdesc_a start s = OK tt s' /\ flat s' /\ entry_map s' /\
    e_esp s' = load32 (phys s) (start - 4) /\ e_eip s' = load32 (phys s) (start - 8).
Proof.
  intros Hb Ht. eexists. split.
  { unfold entryother, lgdt_at, or_cr0, or_cr4. rewrite !bind_modify. reflexivity. }
  split; [|split; [|done]].
  - destruct (boot_segments gdtdesc_a g (phys s) (set_egdtr (0, load32 (phys s) (gdtdesc_a + 2)) s) Hb eq_refl eq_refl) as [H1 H2].
    split; [cbn; by rewrite !testf_lor, !orb_true_r|done|exact H1|exact H2|done].
  - apply (entry_table_maps _ (load32 (phys s) (start - 12))); [exact Ht|done|cbn; by rewrite !testf_lor, !orb_true_r..].
Qed.

(** From the boot block to main. *)
Definition power_up {hw : hardware} (fuel : nat) (gdtdesc_a start entry_a pgdir_a stack main : Z) : M early unit :=
  boot_block fuel gdtdesc_a start;;
  ip ← gets e_eip;
  if ip =? V2P entry_a then entry pgdir_a stack main else fault ip.

Section chain.
Context {hw : hardware} {img : drives} {wait : nat} {ctl : controller hw img wait} (fuel : nat).
Hypothesis (Hwait : (wait <= fuel)%nat).
(** The keyboard controller takes commands. *)
Hypothesis (Hkbd : forall l, ready 0x64 0x2 0 wait l).

Lemma wp_send p v (k : M early unit) s Q :
  (forall d, d_mem d = d_mem (e_dev s) ->
     (forall q, last_out q (d_log d) = if p =? q then u8 v else last_out q (d_log (e_dev s))) -> wp k (lput dev_lens d s) Q) ->
  wp (zoom dev_lens (poll 0x64 0x2 0 fuel);; zoom dev_lens (outb p v);; k) s Q.
Proof.
  intros HQ. destruct (poll_ready 0x64 0x2 0 wait fuel (e_dev s) (Hkbd _) Hwait) as (n & r & E & _).
  apply wp_bind, wp_zoom. eapply wp_intro; [exact E|]. apply wp_bind, wp_zoom, wp_modify.
  apply (HQ (push (EOut p (u8 v)) (with_log (polled 0x64 (S n) (d_log (e_dev s))) (e_dev s)))); [done|].
  intros q. change (last_out q (EOut p (u8 v) :: polled 0x64 (S n) (d_log (e_dev s))) = if p =? q then u8 v else last_out q (d_log (e_dev s))).
  cbn [last_out]. by rewrite polled_last_out.
Qed.

Lemma bootasm_flat gdtdesc_a start g s :
  boot_sector (phys s) gdtdesc_a g ->
  wp (bootasm fuel gdtdesc_a start) s (fun _ s' =>
    flat s' /\ phys s' = phys s /\ e_esp s' = start /\ e_cr0 s' = Z.lor (e_cr0 s) CR0_PE /\ e_cr4 s' = e_cr4 s /\
    last_out 0x64 (d_log (e_dev s')) = 0xd1 /\ last_out 0x60 (d_log (e_dev s')) = 0xdf).
Proof.
  intros Hbs. unfold bootasm. do 2 (apply wp_bind, wp_modify).
  apply wp_send. intros d1 M1 L1. apply wp_send. intros d2 M2 L2. do 5 (apply wp_bind, wp_modify). apply wp_modify.
  assert (d_mem d2 = phys s) as Em by (rewrite M2; exact M1).
  split.
  - match goal with |- flat ?s' => destruct (boot_segments gdtdesc_a g (phys s) s' Hbs Em) as [H1 H2] end.
    { change (load32 (d_mem d2) (gdtdesc_a + 2) = load32 (phys s) (gdtdesc_a + 2)). by rewrite Em. }
    split; [|done|exact H1|exact H2|done]. cbn. by rewrite testf_lor, orb_true_r.
  - split; [exact Em|]. do 3 (split; [done|]). cbn -[last_out]. rewrite !L2. cbn -[last_out]. by rewrite L1.
Qed.

(** C17: from the boot block to main.  When the kernel on the disk has its
    entry and its page directory where they were linked, the boot block makes
    flat segments and opens all of memory, bootmain loads every segment, and
    entry turns on a page table in which the first 4 MB of memory are at their
    own addresses and at the kernel's, and nothing else is mapped; then main
    runs on the kernel's stack, with interrupts off. *)
Theorem kernel_entered gdtdesc_a g start entry_a pgdir_a stack main segs s :
  boot_sector (phys s) gdtdesc_a g -> 0 <= stack < 2 ^ 32 - KSTACKSIZE ->
  image (img := img) (V2P entry_a) segs -> Forall (seg_ok fuel) segs -> seg_sorted segs ->
  (length segs < fuel)%nat -> (8 < fuel)%nat ->
  V2P pgdir_a mod 4096 = 0 -> V2P pgdir_a + 4096 <= 2 ^ 32 ->
  (forall j, 0 <= j < 4096 -> exists g, g ∈ segs /\ sg_paddr g <= V2P pgdir_a + j < sg_paddr g + sg_filesz g /\
     kern (img := img) (sg_off g + (V2P pgdir_a + j - sg_paddr g)) mod 256 = default 0 ((entrypgdir ≫= le_bytes) !! Z.to_nat j)) ->
  exists s1 s', bootasm fuel gdtdesc_a start s = OK tt s1 /\ flat s1 /\
    last_out 0x64 (d_log (e_dev s1)) = 0xd1 /\ last_out 0x60 (d_log (e_dev s1)) = 0xdf /\
    power_up fuel gdtdesc_a start entry_a pgdir_a stack main s = OK tt s' /\
    e_eip s' = main /\ e_esp s' = stack + KSTACKSIZE /\ e_if s' = false /\
    Forall (seg_in (img := img) (phys s')) segs /\ entry_map s'.
Proof.
  intros Hbs Hst Him Hok Hso Hn Hf Ha Hr Hp.
  destruct (wp_elim _ _ _ (bootasm_flat gdtdesc_a start g s Hbs)) as ([] & s1 & E1 & Fl & _ & _ & _ & _ & L1 & L2).
  destruct (wp_elim _ _ _ (bootmain_loads fuel Hwait _ segs (e_dev s1) Him Hok Hso Hn Hf)) as (r & d & E2 & -> & Hin).
  assert (zoom dev_lens (bootmain fuel) s1 = OK (Some (V2P entry_a)) (lput dev_lens d s1)) as Ez by (unfold zoom; simpl; by rewrite E2).
  exists s1. eexists. do 4 (split; [done|]). split.
  { unfold power_up, boot_block. rewrite bind_assoc, (bind_OK _ _ _ _ _ E1), bind_assoc, (bind_OK _ _ _ _ _ Ez).
    rewrite bind_modify, bind_gets. cbn [e_eip set_eip]. rewrite Z.eqb_refl. unfold entry, or_cr4, or_cr0.
    rewrite !bind_modify. reflexivity. }
  cbn. split; [done|]. split; [apply u32_id; unfold KSTACKSIZE in *; lia|]. split; [apply Fl|]. split; [exact Hin|].
  apply (entry_table_maps _ (V2P pgdir_a)); [|done|cbn; by rewrite testf_lor, orb_true_r..].
  apply entry_table_bytes; [done|apply u32_range|]. intros j Hj.
  destruct (Hp j Hj) as (g' & Hg & Hx & <-). rewrite Forall_forall in Hin. by apply (Hin g' Hg).
Qed.

End chain.

(** * An example *)

(** A kernel of one segment: its page directory, at 0x100000, which is also
    where it starts. *)
Definition tiny_kernel : drives := fun _ o =>
  default 0 (list_to_map (M := gmap Z Z)
    [(512, 0x7F); (513, 0x45); (514, 0x4C); (515, 0x46); (538, 0x10); (540, 52); (556, 1);
     (512 + 57, 16); (512 + 66, 16); (512 + 69, 16); (512 + 73, 16); (4608, 0x83); (4808, 0x83)] !! o).

(** A disk and a keyboard controller that are always ready. *)
Definition tiny_hw : hardware :=
  Hardware (fun _ p => if p =? 0x64 then 0 else 0x40) (@hinl (plain_disk tiny_kernel)) (fun _ _ => 0).

#[local] Instance tiny_controller : controller tiny_hw tiny_kernel 1.
Proof. split; [intros l; by left | done]. Qed.

Definition tiny_state : early :=
  Early (MkDev (store_bytes (store_bytes (fun _ => 0) 0x7d00 boot_gdt) 0x7d18 (gdtdesc 0x7d00)) [] 0 0 [] false false false [] [] [])
    0 0 0 (0, 0) true 0 0 0 0 0 0 0 0.

Lemma tiny_pgdir j :
  0 <= j < 4096 ->
  kern (img := tiny_kernel) (0x1000 + (V2P (KERNBASE + 0x100000) + j - 0x100000)) mod 256
  = default 0 ((entrypgdir ≫= le_bytes) !! Z.to_nat j).
Proof.
  intros Hj. assert (let t := entrypgdir ≫= le_bytes in
    forallb (fun j => kern (img := tiny_kernel) (0x1000 + (V2P (KERNBASE + 0x100000) + j - 0x100000)) mod 256
      =? default 0 (t !! Z.to_nat j)) (seqZ 0 4096) = true) as H by (vm_compute; reflexivity).
  cbv zeta in H. rewrite List.forallb_forall in H. apply Z.eqb_eq, H, list_elem_of_In, elem_of_seqZ. lia.
Qed.

Lemma kernel_entered_witness :
  exists s1 s', bootasm (hw := tiny_hw) 40 0x7d18 0x7c00 tiny_state = OK tt s1 /\ flat s1 /\
    last_out 0x64 (d_log (e_dev s1)) = 0xd1 /\ last_out 0x60 (d_log (e_dev s1)) = 0xdf /\
    power_up (hw := tiny_hw) 40 0x7d18 0x7c00 (KERNBASE + 0x100000) (KERNBASE + 0x100000) (KERNBASE + 0x200000)
      (KERNBASE + 0x101000) tiny_state = OK tt s' /\
    e_eip s' = KERNBASE + 0x101000 /\ e_esp s' = KERNBASE + 0x200000 + KSTACKSIZE /\ e_if s' = false /\
    Forall (seg_in (img := tiny_kernel) (phys s')) [Boot.Seg 0x1000 0x100000 0x1000 0x1000] /\ entry_map s'.
Proof.
  refine (kernel_entered (img := tiny_kernel) (wait := 1) 40 _ _ 0x7d18 0x7d00 0x7c00 (KERNBASE + 0x100000) (KERNBASE + 0x100000)
    (KERNBASE + 0x200000) (KERNBASE + 0x101000) [Boot.Seg 0x1000 0x100000 0x1000 0x1000] tiny_state _ _ _ _ _ _ _ _ _ _).
  - lia.
  - intros l. by left.
  - split; [lia|]. split; by vm_compute.
  - unf. lia.
  - split; [done|]. split; [done|]. split; [vm_compute; discriminate|]. by vm_compute.
  - constructor; [|done]. vm_compute. repeat split; discriminate.
  - by repeat constructor.
  - simpl. lia.
  - lia.
  - done.
  - vm_compute. discriminate.
  - intros j Hj. exists (Boot.Seg 0x1000 0x100000 0x1000 0x1000). split; [by apply list_elem_of_singleton|].
    split; [|by apply tiny_pgdir]. change (V2P (KERNBASE + 0x100000)) with 0x100000. simpl. lia.
Defined.
