(* ===== verification/Kernel.v ===== *)
(** The kernel's shared state, and the kernel code of one process as a
    computation that can be interrupted: wherever it acquires a spin lock
    other CPUs may run first, and where it calls sched other processes run
    until it is scheduled again. *)

From S2P Require Import Prelude Mmu Kalloc Vm.

(** * Data *)

Inductive procstate := UNUSED | EMBRYO | SLEEPING | RUNNABLE | RUNNING | ZOMBIE.

#[export] Instance procstate_eq_dec : EqDecision procstate.
Proof. solve_decision. Defined.

(** Sleep channels: the addresses that the code sleeps on. *)
Inductive chan_t :=
| CProc (slot : nat)          (* a struct proc *)
| CTicks                      (* &ticks *)
| CNread (pipe : Z)           (* &p->nread *)
| CNwrite (pipe : Z)          (* &p->nwrite *)
| CFs (addr : Z).             (* sleep locks, buffers and the log *)

#[export] Instance chan_eq_dec : EqDecision chan_t.
Proof. solve_decision. Defined.

(** Spin locks. *)
Inductive lock :=
| LPtable | LTicks | LFtable
| LThread (slot : nat)        (* p->tlock *)
| LPipe (pipe : Z)            (* p->lock *)
| LFs (addr : Z).             (* the locks of the file system *)

#[export] Instance lock_eq_dec : EqDecision lock.
Proof. solve_decision. Defined.

(** The trap frame, with the registers the kernel reads or writes by name
    and the others. *)
Record trapframe := TF {
  eax : Z; eip : Z; esp : Z; eflags : Z; cs : Z; ds : Z; es : Z; ss : Z;
  trapno : Z; regs : list Z }.

Definition tf_zero : trapframe := TF 0 0 0 0 0 0 0 0 0 [].
Definition set_eax (x : Z) (f : trapframe) : trapframe :=
  TF x (eip f) (esp f) (eflags f) (cs f) (ds f) (es f) (ss f) (trapno f) (regs f).
Definition set_eip (x : Z) (f : trapframe) : trapframe :=
  TF (eax f) x (esp f) (eflags f) (cs f) (ds f) (es f) (ss f) (trapno f) (regs f).
Definition set_esp (x : Z) (f : trapframe) : trapframe :=
  TF (eax f) (eip f) x (eflags f) (cs f) (ds f) (es f) (ss f) (trapno f) (regs f).

(** [struct proc].  A pointer to a process is the index of its slot; the
    trap frame, which lies in the kernel stack, is a field; the saved
    context is the rest of the computation. *)
Record proc := Proc {
  sz : Z;
  pgdir : Z;
  kstack : Z;
  state : procstate;
  pid : Z;
  tid : Z;
  tstack : Z;
  tstackalloc : Z;
  parent : option nat;
  tf : trapframe;
  chan : option chan_t;
  killed : Z;
  ofile : list (option nat);
  cwd : option nat;
  name : list Z;
}.

Definition set_sz (x : Z) (p : proc) : proc :=
  Proc x (pgdir p) (kstack p) (state p) (pid p) (tid p) (tstack p) (tstackalloc p) (parent p) (tf p)
    (chan p) (killed p) (ofile p) (cwd p) (name p).
Definition set_pgdir (x : Z) (p : proc) : proc :=
  Proc (sz p) x (kstack p) (state p) (pid p) (tid p) (tstack p) (tstackalloc p) (parent p) (tf p)
    (chan p) (killed p) (ofile p) (cwd p) (name p).
Definition set_kstack (x : Z) (p : proc) : proc :=
  Proc (sz p) (pgdir p) x (state p) (pid p) (tid p) (tstack p) (tstackalloc p) (parent p) (tf p)
    (chan p) (killed p) (ofile p) (cwd p) (name p).
Definition set_state (x : procstate) (p : proc) : proc :=
  Proc (sz p) (pgdir p) (kstack p) x (pid p) (tid p) (tstack p) (tstackalloc p) (parent p) (tf p)
    (chan p) (killed p) (ofile p) (cwd p) (name p).
Definition set_pid (x : Z) (p : proc) : proc :=
  Proc (sz p) (pgdir p) (kstack p) (state p) x (tid p) (tstack p) (tstackalloc p) (parent p) (tf p)
    (chan p) (killed p) (ofile p) (cwd p) (name p).
Definition set_tid (x : Z) (p : proc) : proc :=
  Proc (sz p) (pgdir p) (kstack p) (state p) (pid p) x (tstack p) (tstackalloc p) (parent p) (tf p)
    (chan p) (killed p) (ofile p) (cwd p) (name p).
Definition set_tstack (x : Z) (p : proc) : proc :=
  Proc (sz p) (pgdir p) (kstack p) (state p) (pid p) (tid p) x (tstackalloc p) (parent p) (tf p)
    (chan p) (killed p) (ofile p) (cwd p) (name p).
Definition set_tstackalloc (x : Z) (p : proc) : proc :=
  Proc (sz p) (pgdir p) (kstack p) (state p) (pid p) (tid p) (tstack p) x (parent p) (tf p) (chan p)
    (killed p) (ofile p) (cwd p) (name p).
Definition set_parent (x : option nat) (p : proc) : proc :=
  Proc (sz p) (pgdir p) (kstack p) (state p) (pid p) (tid p) (tstack p) (tstackalloc p) x (tf p)
    (chan p) (killed p) (ofile p) (cwd p) (name p).
Definition set_tf (x : trapframe) (p : proc) : proc :=
  Proc (sz p) (pgdir p) (kstack p) (state p) (pid p) (tid p) (tstack p) (tstackalloc p) (parent p) x
    (chan p) (killed p) (ofile p) (cwd p) (name p).
Definition set_chan (x : option chan_t) (p : proc) : proc :=
  Proc (sz p) (pgdir p) (kstack p) (state p) (pid p) (tid p) (tstack p) (tstackalloc p) (parent p)
    (tf p) x (killed p) (ofile p) (cwd p) (name p).
Definition set_killed (x : Z) (p : proc) : proc :=
  Proc (sz p) (pgdir p) (kstack p) (state p) (pid p) (tid p) (tstack p) (tstackalloc p) (parent p)
    (tf p) (chan p) x (ofile p) (cwd p) (name p).
Definition set_ofile (x : list (option nat)) (p : proc) : proc :=
  Proc (sz p) (pgdir p) (kstack p) (state p) (pid p) (tid p) (tstack p) (tstackalloc p) (parent p)
    (tf p) (chan p) (killed p) x (cwd p) (name p).
Definition set_cwd (x : option nat) (p : proc) : proc :=
  Proc (sz p) (pgdir p) (kstack p) (state p) (pid p) (tid p) (tstack p) (tstackalloc p) (parent p)
    (tf p) (chan p) (killed p) (ofile p) x (name p).
Definition set_name (x : list Z) (p : proc) : proc :=
  Proc (sz p) (pgdir p) (kstack p) (state p) (pid p) (tid p) (tstack p) (tstackalloc p) (parent p)
    (tf p) (chan p) (killed p) (ofile p) (cwd p) x.

(** A slot of the zero-initialised table. *)
Definition proc0 : proc := Proc 0 0 0 UNUSED 0 0 0 0 None tf_zero None 0 (replicate 16 None) None [].

Inductive filetype := FD_NONE | FD_PIPE | FD_INODE.

#[export] Instance filetype_eq_dec : EqDecision filetype.
Proof. solve_decision. Defined.

(** [struct file]; [fip] is the inode, [fpipe] the page of the pipe. *)
Record file := File {
  ftype : filetype; fref : Z; readable : bool; writable : bool;
  fpipe : Z; fip : nat; off : Z }.

Definition file0 : file := File FD_NONE 0 false false 0 0 0.

(** [struct pipe], without its lock. *)
Record pipe := Pipe {
  data : list Z; nread : Z; nwrite : Z; readopen : bool; writeopen : bool }.

(** The shared state.  [fs] is the state of the inode layer.  [locked] are
    the spin locks taken by any CPU; [mine] those taken by the process that
    runs, whose number is the depth of pushcli on its CPU; [building] is
    the slot that it has allocated and not yet made runnable. *)
Record kst (FS : Type) := Kst {
  mem : pmem;
  procs : list proc;
  nextpid : Z;
  initproc : option nat;
  ftable : list file;
  pipes : gmap Z pipe;
  ticks : Z;
  locked : list lock;
  mine : list lock;
  building : option nat;
  fs : FS;
}.
Arguments Kst {FS}.
Arguments mem {FS}. Arguments procs {FS}. Arguments nextpid {FS}. Arguments initproc {FS}.
Arguments ftable {FS}. Arguments pipes {FS}. Arguments ticks {FS}. Arguments locked {FS}.
Arguments mine {FS}. Arguments building {FS}. Arguments fs {FS}.

Section state.
Context {FS : Type}.
Definition put_mem (x : pmem) (s : kst FS) : kst FS :=
  Kst x (procs s) (nextpid s) (initproc s) (ftable s) (pipes s) (ticks s) (locked s) (mine s)
    (building s) (fs s).
Definition put_procs (x : list proc) (s : kst FS) : kst FS :=
  Kst (mem s) x (nextpid s) (initproc s) (ftable s) (pipes s) (ticks s) (locked s) (mine s)
    (building s) (fs s).
Definition put_nextpid (x : Z) (s : kst FS) : kst FS :=
  Kst (mem s) (procs s) x (initproc s) (ftable s) (pipes s) (ticks s) (locked s) (mine s)
    (building s) (fs s).
Definition put_initproc (x : option nat) (s : kst FS) : kst FS :=
  Kst (mem s) (procs s) (nextpid s) x (ftable s) (pipes s) (ticks s) (locked s) (mine s)
    (building s) (fs s).
Definition put_ftable (x : list file) (s : kst FS) : kst FS :=
  Kst (mem s) (procs s) (nextpid s) (initproc s) x (pipes s) (ticks s) (locked s) (mine s)
    (building s) (fs s).
Definition put_pipes (x : gmap Z pipe) (s : kst FS) : kst FS :=
  Kst (mem s) (procs s) (nextpid s) (initproc s) (ftable s) x (ticks s) (locked s) (mine s)
    (building s) (fs s).
Definition put_ticks (x : Z) (s : kst FS) : kst FS :=
  Kst (mem s) (procs s) (nextpid s) (initproc s) (ftable s) (pipes s) x (locked s) (mine s)
    (building s) (fs s).
Definition put_locked (x : list lock) (s : kst FS) : kst FS :=
  Kst (mem s) (procs s) (nextpid s) (initproc s) (ftable s) (pipes s) (ticks s) x (mine s)
    (building s) (fs s).
Definition put_mine (x : list lock) (s : kst FS) : kst FS :=
  Kst (mem s) (procs s) (nextpid s) (initproc s) (ftable s) (pipes s) (ticks s) (locked s) x
    (building s) (fs s).
Definition put_building (x : option nat) (s : kst FS) : kst FS :=
  Kst (mem s) (procs s) (nextpid s) (initproc s) (ftable s) (pipes s) (ticks s) (locked s) (mine s)
    x (fs s).
Definition put_fs (x : FS) (s : kst FS) : kst FS :=
  Kst (mem s) (procs s) (nextpid s) (initproc s) (ftable s) (pipes s) (ticks s) (locked s) (mine s)
    (building s) x.
End state.

(** * Computations *)

Inductive why := SwAcquire (lk : lock) | SwSched.

(** What a piece of kernel code does before control leaves the CPU: it
    returns, it panics (or faults), or it stops at a switch, with the rest
    of the code waiting for the state it will find when it goes on.
    [Fuel]: the bound on the turns of its loops was too small. *)
Inductive outcome (FS A : Type) :=
| Done (a : A) (s : kst FS)
| Halt (msg : string) (s : kst FS)
| Fuel (s : kst FS)
| Switch (w : why) (s : kst FS) (k : kst FS -> outcome FS A).
Arguments Done {FS A}. Arguments Halt {FS A}. Arguments Fuel {FS A}. Arguments Switch {FS A}.

Definition K (FS A : Type) := kst FS -> outcome FS A.

Fixpoint obind {FS A B} (o : outcome FS A) (f : A -> K FS B) : outcome FS B :=
  match o with
  | Done a s => f a s
  | Halt msg s => Halt msg s
  | Fuel s => Fuel s
  | Switch w s k => Switch w s (fun s' => obind (k s') f)
  end.

#[export] Instance K_ret FS : MRet (K FS) := fun A a s => Done a s.
#[export] Instance K_bind FS : MBind (K FS) := fun A B f m s => obind (m s) f.

Section monad.
Context {FS : Type}.
Implicit Types s : kst FS.

Definition get : K FS (kst FS) := fun s => Done s s.
Definition put (s' : kst FS) : K FS unit := fun _ => Done tt s'.
Definition change (f : kst FS -> kst FS) : K FS unit := fun s => Done tt (f s).
Definition kpanic {A} (msg : string) : K FS A := fun s => Halt msg s.
Definition out_of_fuel {A} : K FS A := fun s => Fuel s.

(** The operations of the allocator and of the page tables. *)
Definition lift {A} (m : M pmem A) : K FS A := fun s =>
  match m (mem s) with
  | OK a m' => Done a (put_mem m' s)
  | PANIC msg m' => Halt msg (put_mem m' s)
  | FAULT _ m' => Halt "trap" (put_mem m' s)
  | NOFUEL m' => Fuel (put_mem m' s)
  end.

(** * Spin locks *)

Definition holding (lk : lock) (s : kst FS) : bool := bool_decide (lk ∈ mine s).

(** The other CPUs run until the lock is free; what the process holds and
    builds is its own. *)
Definition acquire (lk : lock) : K FS unit := fun s =>
  if holding lk s then Halt "acquire" s
  else Switch (SwAcquire lk) s (fun s' =>
    Done tt (put_building (building s) (put_mine (lk :: mine s) (put_locked (lk :: locked s') s')))).

Definition remove (lk : lock) (l : list lock) : list lock := filter (fun x => x <> lk) l.

Definition release (lk : lock) : K FS unit := fun s =>
  if holding lk s then Done tt (put_mine (remove lk (mine s)) (put_locked (remove lk (locked s)) s))
  else Halt "release" s.

(** * The process table *)

Definition slot_of (s : kst FS) (i : nat) : proc := default proc0 (procs s !! i).
Definition upd (i : nat) (f : proc -> proc) (s : kst FS) : kst FS :=
  put_procs (alter f i (procs s)) s.

Definition p_ {A} (i : nat) (f : proc -> A) : K FS A := fun s => Done (f (slot_of s i)) s.
Definition p_set (i : nat) (f : proc -> proc) : K FS unit := change (upd i f).

(** THREAD_LEADER: the process itself, or the parent of a thread; None is a
    null pointer. *)
Definition THREAD_LEADER (s : kst FS) (i : nat) : option nat :=
  if tid (slot_of s i) =? -1 then Some i else parent (slot_of s i).

End monad.
