(* ===== verification/Rely.v ===== *)
(** A rely-guarantee logic for the process table.  The kernel code of each
    process is verified on its own, against what the others may do at its
    switch points; the machine that interleaves the processes on any number
    of CPUs then keeps the invariant of the table. *)

From S2P Require Import Prelude Mmu Kalloc Vm Kernel.

(** The id by which the rest of the system names a process or thread: the
    thread id, or the pid of a group leader. *)
Definition ident (p : proc) : Z := if (tid p =? -1) || (tid p =? 0) then pid p else tid p.

(** A process that has run or is about to. *)
Definition live (p : proc) : bool :=
  match state p with SLEEPING | RUNNABLE | RUNNING | ZOMBIE => true | _ => false end.

Section rely.
Context {FS : Type}.
Implicit Types s : kst FS.

(** The invariant of the process table. *)
Record inv s : Prop := {
  inv_len : length (procs s) = NPROC;
  inv_next : 1 <= nextpid s;
  inv_ident : forall i, 0 <= ident (slot_of s i) < nextpid s;
  inv_uniq : forall i j, ident (slot_of s i) = ident (slot_of s j) -> 0 < ident (slot_of s i) -> i = j;
  inv_kstack : forall i, live (slot_of s i) = true -> kstack (slot_of s i) <> 0;
  inv_unused : forall i, state (slot_of s i) = UNUSED -> tid (slot_of s i) = 0 \/ tid (slot_of s i) = -1;
}.

Definition same_core (p p' : proc) : Prop :=
  state p' = state p /\ pid p' = pid p /\ tid p' = tid p /\ kstack p' = kstack p.

(** What the process in slot [me] may have done since it last got control. *)
Record guar (me : nat) s0 s : Prop := {
  gu_embryo : forall x, state (slot_of s0 x) = EMBRYO -> building s0 <> Some x ->
    same_core (slot_of s0 x) (slot_of s x);
  gu_run : forall x, x <> me -> state (slot_of s x) = RUNNING <-> state (slot_of s0 x) = RUNNING;
  gu_build : forall x, building s = Some x ->
    state (slot_of s x) = EMBRYO /\ (building s0 = Some x \/ state (slot_of s0 x) = UNUSED);
  gu_tid : forall x, x <> me -> state (slot_of s0 x) = RUNNING -> tid (slot_of s x) = tid (slot_of s0 x);
}.

(** What it relies on between a switch point [s] and going on from [s']. *)
Record rely (me : nat) s s' : Prop := {
  re_run : state (slot_of s me) = RUNNING -> state (slot_of s' me) = RUNNING;
  re_build : forall x, building s = Some x -> same_core (slot_of s x) (slot_of s' x);
  re_tid : state (slot_of s me) = RUNNING -> tid (slot_of s' me) = tid (slot_of s me);
}.

(** The state it may stop in. *)
Definition stopped (me : nat) (w : why) s : Prop :=
  match w with
  | SwAcquire _ => state (slot_of s me) = RUNNING
  | SwSched => state (slot_of s me) = SLEEPING \/ state (slot_of s me) = RUNNABLE
               \/ state (slot_of s me) = ZOMBIE
  end.

(** When it may go on: the lock is free, or the scheduler picks it. *)
Definition ready (me : nat) (w : why) s : Prop :=
  match w with SwAcquire lk => lk ∉ locked s | SwSched => state (slot_of s me) = RUNNABLE end.

Definition enter (me : nat) (w : why) s : kst FS :=
  match w with SwAcquire _ => s | SwSched => upd me (set_state RUNNING) s end.

(** The locals of the process whose snapshot is [s], in the state [s']. *)
Definition locals s s' : kst FS := put_building (building s) (put_mine (mine s) s').

(** Every run of the outcome, started in [s0], keeps the guarantee and the
    invariant at its stops, and ends in [Q]. *)
Fixpoint safe {A} (me : nat) (s0 : kst FS) (o : outcome FS A) (Q : kst FS -> A -> kst FS -> Prop) : Prop :=
  match o with
  | Done a s => Q s0 a s
  | Halt _ _ | Fuel _ => True
  | Switch w s k =>
    guar me s0 s /\ inv s /\ stopped me w s
    /\ forall s', rely me s s' -> inv s' -> ready me w s' ->
         safe me (locals s s') (k (enter me w s')) Q
  end.

(** Triples, on the state where the process last got control and the
    current one. *)
Definition triple {A} (me : nat) (P : kst FS -> kst FS -> Prop) (m : K FS A)
    (Q : A -> kst FS -> kst FS -> Prop) : Prop :=
  forall s0 s, P s0 s -> safe me s0 (m s) (fun s0 a s => Q a s0 s).

(** * Rules *)

Lemma safe_bind {A B} me s0 (o : outcome FS A) (f : A -> K FS B) Q :
  safe me s0 o (fun s0 a s => safe me s0 (f a s) Q) -> safe me s0 (obind o f) Q.
Proof.
  revert s0. induction o as [a s|msg s|s|w s k IH]; intros s0; simpl; try done.
  intros (H1 & H2 & H3 & H4). split; [done|]. split; [done|]. split; [done|]. auto.
Qed.

Lemma safe_mono {A} me s0 (o : outcome FS A) Q Q' :
  (forall s0 a s, Q s0 a s -> Q' s0 a s) -> safe me s0 o Q -> safe me s0 o Q'.
Proof.
  intros HQ. revert s0. induction o as [a s|msg s|s|w s k IH]; intros s0; simpl; auto.
  intros (H1 & H2 & H3 & H4). split; [done|]. split; [done|]. split; [done|]. auto.
Qed.

Lemma triple_bind {A B} me P (m : K FS A) R (f : A -> K FS B) Q :
  triple me P m R -> (forall a, triple me (R a) (f a) Q) -> triple me P (m ≫= f) Q.
Proof.
  intros Hm Hf s0 s HP. apply safe_bind. eapply safe_mono; [|by apply Hm].
  intros s0' a s' HR. by apply Hf.
Qed.

Lemma triple_ret {A} me (a : A) (P : A -> kst FS -> kst FS -> Prop) : triple me (P a) (mret a) P.
Proof. by intros s0 s H. Qed.

Lemma triple_get me P : triple me P get (fun a s0 s => a = s /\ P s0 s).
Proof. intros s0 s H. by split. Qed.

Lemma triple_p {A} me P i (f : proc -> A) :
  triple me P (p_ i f) (fun a s0 s => a = f (slot_of s i) /\ P s0 s).
Proof. intros s0 s H. by split. Qed.

Lemma triple_change me P f (Q : kst FS -> kst FS -> Prop) :
  (forall s0 s, P s0 s -> Q s0 (f s)) -> triple me P (change f) (fun _ => Q).
Proof. intros H s0 s HP. by apply H. Qed.

Lemma triple_panic {A} me P msg (Q : A -> kst FS -> kst FS -> Prop) : triple me P (kpanic msg) Q.
Proof. by intros s0 s _. Qed.

Lemma triple_fuel {A} me P (Q : A -> kst FS -> kst FS -> Prop) : triple me P out_of_fuel Q.
Proof. by intros s0 s _. Qed.

Lemma triple_conseq {A} me (P P' : kst FS -> kst FS -> Prop) (m : K FS A) (Q Q' : A -> kst FS -> kst FS -> Prop) :
  triple me P' m Q' -> (forall s0 s, P s0 s -> P' s0 s) -> (forall a s0 s, Q' a s0 s -> Q a s0 s) ->
  triple me P m Q.
Proof. intros H HP HQ s0 s Hs. eapply safe_mono; [|by apply H, HP]. auto. Qed.

Lemma triple_pure {A} me (P : kst FS -> kst FS -> Prop) (X : Prop) (m : K FS A) Q :
  (X -> triple me P m Q) -> triple me (fun s0 s => X /\ P s0 s) m Q.
Proof. intros H s0 s [HX HP]. by apply H. Qed.

(** Assertions that do not look at the memory. *)
Lemma triple_lift {A} me (P : kst FS -> kst FS -> Prop) (m : M pmem A) :
  (forall s0 s x, P s0 s -> P s0 (put_mem x s)) -> triple me P (lift m) (fun _ => P).
Proof. intros H s0 s HP. unfold lift. destruct (m (mem s)); simpl; auto. Qed.

Lemma triple_if {A} me P (b : bool) (m1 m2 : K FS A) Q :
  (b = true -> triple me P m1 Q) -> (b = false -> triple me P m2 Q) ->
  triple me P (if b then m1 else m2) Q.
Proof. destruct b; auto. Qed.

(** * Slots *)

Lemma slot_upd i f s x :
  slot_of (upd i f s) x = if decide (x = i /\ (i < length (procs s))%nat) then f (slot_of s i) else slot_of s x.
Proof.
  unfold slot_of, upd. simpl. destruct (decide (x = i)) as [->|Hne].
  - rewrite list_lookup_alter_eq. destruct (procs s !! i) as [p|] eqn:E; simpl.
    + apply lookup_lt_Some in E. by destruct (decide _) as [|[]].
    + apply lookup_ge_None_1 in E. destruct (decide _) as [[_ ?]|]; [lia|done].
  - rewrite list_lookup_alter_ne by done. by destruct (decide _) as [[]|].
Qed.

Lemma slot_upd_ne i f s x : x <> i -> slot_of (upd i f s) x = slot_of s x.
Proof. intros H. rewrite slot_upd. by destruct (decide _) as [[]|]. Qed.

Lemma slot_upd_eq i f s : (i < length (procs s))%nat -> slot_of (upd i f s) i = f (slot_of s i).
Proof. intros H. rewrite slot_upd. by destruct (decide _) as [|[]]. Qed.

Lemma slot_map f s x : f proc0 = proc0 -> slot_of (put_procs (f <$> procs s) s) x = f (slot_of s x).
Proof. intros H. unfold slot_of. simpl. rewrite list_lookup_fmap. by destruct (procs s !! x). Qed.

(** A slot in use is a slot of the table. *)
Lemma used_slot s i : state (slot_of s i) <> UNUSED -> (i < length (procs s))%nat.
Proof.
  unfold slot_of. destruct (procs s !! i) eqn:E; [intros _; by eapply lookup_lt_Some|done].
Qed.

(** * The table, up to gentle changes *)

(** Sleepers may be woken; ids and kernel stacks stay. *)
Definition gentle (p p' : proc) : Prop :=
  pid p' = pid p /\ tid p' = tid p /\ kstack p' = kstack p
  /\ (state p' = state p \/ state p = SLEEPING /\ state p' = RUNNABLE).

Definition calm s s' : Prop :=
  length (procs s') = length (procs s) /\ nextpid s' = nextpid s /\ building s' = building s
  /\ forall x, gentle (slot_of s x) (slot_of s' x).

Lemma gentle_refl p : gentle p p.
Proof. repeat split. by left. Qed.

Lemma gentle_ident p p' : gentle p p' -> ident p' = ident p.
Proof. intros (H1 & H2 & _). unfold ident. by rewrite H1, H2. Qed.

Lemma gentle_live p p' : gentle p p' -> live p' = live p.
Proof. intros (_ & _ & _ & [H|[H1 H2]]); unfold live; [by rewrite H|by rewrite H1, H2]. Qed.

Lemma gentle_embryo p p' : gentle p p' -> state p = EMBRYO -> same_core p p'.
Proof. intros (H1 & H2 & H3 & [H|[H _]]) He; [done|congruence]. Qed.

Lemma gentle_run p p' : gentle p p' -> state p' = RUNNING <-> state p = RUNNING.
Proof. intros (_ & _ & _ & [->|[-> ->]]); done. Qed.

Lemma inv_calm s s' : inv s -> calm s s' -> inv s'.
Proof.
  intros [H1 H2 H3 H4 H5 H6] (C1 & C2 & C3 & C4). split.
  - congruence.
  - by rewrite C2.
  - intros i. rewrite C2, (gentle_ident _ _ (C4 i)). apply H3.
  - intros i j. rewrite (gentle_ident _ _ (C4 i)), (gentle_ident _ _ (C4 j)). apply H4.
  - intros i. rewrite (gentle_live _ _ (C4 i)). destruct (C4 i) as (_ & _ & -> & _). apply H5.
  - intros i Hi. destruct (C4 i) as (_ & -> & _ & [He|[_ He]]); [|congruence]. apply H6. congruence.
Qed.

Lemma guar_calm me s0 s s' : guar me s0 s -> calm s s' -> guar me s0 s'.
Proof.
  intros [G1 G2 G3 G4] (C1 & C2 & C3 & C4). split.
  - intros x Hx Hb. destruct (G1 x Hx Hb) as (A1 & A2 & A3 & A4).
    destruct (gentle_embryo _ _ (C4 x)) as (B1 & B2 & B3 & B4); [congruence|].
    repeat split; congruence.
  - intros x Hx. rewrite <- G2 by done. apply gentle_run, C4.
  - intros x Hx. rewrite C3 in Hx. destruct (G3 x Hx) as [Hs Hb]. split; [|done].
    destruct (gentle_embryo _ _ (C4 x) Hs) as (-> & _). done.
  - intros x Hx Hr. destruct (C4 x) as (_ & -> & _). by apply G4.
Qed.

Lemma guar_refl me s :
  (forall x, building s = Some x -> state (slot_of s x) = EMBRYO) -> guar me s s.
Proof. intros H. split; [done|done| |done]. intros x Hx. split; [by apply H|by left]. Qed.

(** * Assertions *)

(** The process [me] runs, and builds the slot [b], of which it knows [R]. *)
Definition base (me : nat) (b : option nat) (R : proc -> Prop) (s0 s : kst FS) : Prop :=
  guar me s0 s /\ inv s /\ state (slot_of s me) = RUNNING /\ building s = b
  /\ forall x, b = Some x -> R (slot_of s x).

(** Facts about the slot being built that the others cannot change. *)
Definition core_prop (R : proc -> Prop) : Prop := forall p p', same_core p p' -> R p -> R p'.

Lemma base_calm me b R s0 s s' : core_prop R -> base me b R s0 s -> calm s s' -> base me b R s0 s'.
Proof.
  intros HR (Hg & Hi & Hr & Hb & Hx) Hc. pose proof Hc as (C1 & C2 & C3 & C4).
  split; [by eapply guar_calm|]. split; [by eapply inv_calm|].
  split; [by apply (gentle_run _ _ (C4 me))|]. split; [congruence|].
  intros x Hbx. apply (HR (slot_of s x)); [|by apply Hx].
  apply gentle_embryo; [apply C4|]. apply (gu_build _ _ _ Hg). congruence.
Qed.

Lemma calm_silent s s' :
  procs s' = procs s -> nextpid s' = nextpid s -> building s' = building s -> calm s s'.
Proof.
  intros H1 H2 H3. split; [congruence|]. split; [done|]. split; [done|].
  intros x. unfold slot_of. rewrite H1. apply gentle_refl.
Qed.

Lemma calm_upd s i f : (forall p, gentle p (f p)) -> calm s (upd i f s).
Proof.
  intros H. split; [apply length_alter|]. split; [done|]. split; [done|].
  intros x. rewrite slot_upd. case_decide as Hd; [destruct Hd as [-> _]; apply H|apply gentle_refl].
Qed.

Lemma calm_map s f : (forall p, gentle p (f p)) -> calm s (put_procs (f <$> procs s) s).
Proof.
  intros H. split; [apply length_fmap|]. split; [done|]. split; [done|].
  intros x. unfold slot_of. simpl. rewrite list_lookup_fmap.
  destruct (procs s !! x); [apply H|apply gentle_refl].
Qed.

(** * Locks *)

Lemma inv_silent s s' : procs s' = procs s -> nextpid s' = nextpid s -> inv s -> inv s'.
Proof.
  intros H1 H2 [A B C D E F]. unfold slot_of in *. split; rewrite ?H1, ?H2; try done;
    intros; unfold slot_of in *; rewrite ?H1, ?H2 in *; auto.
Qed.

(** Going on after a switch: the locals come back, the others have kept
    their word. *)
Lemma base_resume me b R s s' s1 :
  core_prop R -> (forall x, b = Some x -> state (slot_of s x) = EMBRYO) ->
  (forall x, b = Some x -> R (slot_of s x)) -> building s = b ->
  rely me s s' -> inv s' -> state (slot_of s' me) = RUNNING ->
  procs s1 = procs s' -> nextpid s1 = nextpid s' -> building s1 = b ->
  base me b R (locals s s') s1.
Proof.
  intros HR He Hx Hb Hre Hi Hrun H1 H2 H3.
  assert (forall x, slot_of s1 x = slot_of s' x) as Hsl by (intros; unfold slot_of; by rewrite H1).
  assert (forall x, b = Some x -> same_core (slot_of s x) (slot_of s' x)) as Hc.
  { intros x Hbx. apply (re_build _ _ _ Hre). congruence. }
  split; [|split; [by eapply inv_silent|split; [by rewrite Hsl|split; [done|]]]].
  - split.
    + intros x _ _. rewrite Hsl. by repeat split.
    + intros x _. by rewrite Hsl.
    + intros x Hbx. rewrite Hsl. assert (b = Some x) as Hb' by congruence. split.
      * destruct (Hc x Hb') as (-> & _). by apply He.
      * left. simpl. congruence.
    + intros x _ _. by rewrite Hsl.
  - intros x Hbx. rewrite Hsl. apply (HR (slot_of s x)); auto.
Qed.

Lemma triple_acquire me b R lk :
  core_prop R -> triple me (base me b R) (acquire lk) (fun _ => base me b R).
Proof.
  intros HR s0 s (Hg & Hi & Hr & Hb & Hx). unfold acquire. case_match; [done|]. simpl.
  split; [done|]. split; [done|]. split; [done|]. intros s' Hre Hi' _.
  apply (base_resume me b R s s'); try done; try (by apply (re_run _ _ _ Hre)).
  intros x Hbx. apply (gu_build _ _ _ Hg). congruence.
Qed.

Lemma triple_silent me b R f :
  core_prop R ->
  (forall s, procs (f s) = procs s /\ nextpid (f s) = nextpid s /\ building (f s) = building s) ->
  triple me (base me b R) (change f) (fun _ => base me b R).
Proof.
  intros HR Hf. apply triple_change. intros s0 s Hs. destruct (Hf s) as (H1 & H2 & H3).
  eapply base_calm; [done|done|by apply calm_silent].
Qed.

Lemma triple_release me b R lk :
  core_prop R -> triple me (base me b R) (release lk) (fun _ => base me b R).
Proof.
  intros HR s0 s Hs. unfold release. case_match; [|done]. simpl.
  eapply base_calm; [done|done|by apply calm_silent].
Qed.

Lemma base_mem me b R s0 s x : core_prop R -> base me b R s0 s -> base me b R s0 (put_mem x s).
Proof. intros HR Hs. eapply base_calm; [done|done|by apply calm_silent]. Qed.

Lemma triple_mem {A} me b R (m : M pmem A) :
  core_prop R -> triple me (base me b R) (lift m) (fun _ => base me b R).
Proof. intros HR. apply triple_lift. intros s0 s x. by apply base_mem. Qed.

Lemma triple_upd me b R i f :
  core_prop R -> (forall p, gentle p (f p)) ->
  triple me (base me b R) (p_set i f) (fun _ => base me b R).
Proof.
  intros HR Hf. apply triple_change. intros s0 s Hs. eapply base_calm; [done|done|by apply calm_upd].
Qed.

Lemma core_True : core_prop (fun _ => True).
Proof. done. Qed.

End rely.

#[export] Hint Resolve core_True : xv6.
#[export] Hint Resolve triple_get triple_p triple_panic triple_fuel : xv6.
