(* ===== verification/Sched.v ===== *)
(** proc.c, part 1: giving up and getting back the CPU (sched, yield, sleep,
    wakeup), and the calls that change the state of another process or
    thread (kill, tkill, tsuspend, tresume). *)

From S2P Require Import Prelude Mmu Kalloc Vm Kernel.

(** * Definitions *)

(** The index of the first slot that satisfies [f]. *)
Fixpoint first (f : proc -> bool) (l : list proc) : option nat :=
  match l with
  | [] => None
  | p :: l => if f p then Some O else S <$> first f l
  end.

Section sched.
Context {FS : Type}.
Notation K := (K FS).

(** Enter the scheduler.  It releases ptable.lock while it looks for
    another process, and holds it when it comes back to this one. *)
Definition sched (me : nat) : K unit := fun s =>
  if negb (holding LPtable s) then Halt "sched ptable.lock" s
  else if negb (length (mine s) =? 1)%nat then Halt "sched locks" s
  else if bool_decide (state (slot_of s me) = RUNNING) then Halt "sched running" s
  else Switch SwSched (put_mine [] (put_locked (remove LPtable (locked s)) s)) (fun s' =>
    Done tt (put_building (building s) (put_mine [LPtable] (put_locked (LPtable :: locked s') s')))).

Definition yield (me : nat) : K unit :=
  acquire LPtable;;
  p_set me (set_state RUNNABLE);;
  sched me;;
  release LPtable.

Definition sleep (me : nat) (c : option chan_t) (lk : lock) : K unit :=
  (if decide (lk = LPtable) then mret tt else acquire LPtable;; release lk);;
  p_set me (fun p => set_state SLEEPING (set_chan c p));;
  sched me;;
  p_set me (set_chan None);;
  (if decide (lk = LPtable) then mret tt else release LPtable;; acquire lk).

Definition wake (c : option chan_t) (p : proc) : proc :=
  if bool_decide (state p = SLEEPING) && bool_decide (chan p = c) then set_state RUNNABLE p else p.

Definition wakeup1 (c : option chan_t) : K unit :=
  change (fun s => put_procs (wake c <$> procs s) s).

Definition wakeup (c : option chan_t) : K unit :=
  acquire LPtable;;
  wakeup1 c;;
  release LPtable.

(** Mark a process killed, and wake it from sleep if necessary. *)
Definition mark_killed (p : proc) : proc :=
  let p := set_killed 1 p in
  if bool_decide (state p = SLEEPING) then set_state RUNNABLE p else p.

Definition kill (pid_ : Z) : K Z :=
  acquire LPtable;;
  s ← get;
  match first (fun p => (pid p =? pid_) && (tid p =? -1)) (procs s) with
  | Some i => p_set i mark_killed;; release LPtable;; mret 0
  | None => release LPtable;; mret (-1)
  end.

Definition tkill (me : nat) (tid_ : Z) : K Z :=
  if tid_ =? -1 then mret (-1)
  else
    acquire LPtable;;
    s ← get;
    match first (fun p => (pid p =? pid (slot_of s me)) && (tid p =? tid_)) (procs s) with
    | Some i => p_set i mark_killed;; release LPtable;; mret 0
    | None => release LPtable;; mret (-1)
    end.

Definition tsuspend (me : nat) : K Z :=
  s ← get;
  if decide (THREAD_LEADER s me = Some me) then mret (-1)
  else
    acquire LPtable;;
    sleep me (Some (CProc me)) LPtable;;
    release LPtable;;
    mret 0.

(** The slot is looked up before the lock is taken. *)
Definition tresume (me : nat) (tid_ : Z) : K Z :=
  if tid_ =? -1 then mret (-1)
  else
    s ← get;
    match first (fun p => (tid p =? tid_) && (pid p =? pid (slot_of s me))) (procs s) with
    | None => mret (-1)
    | Some i =>
      if negb (killed (slot_of s me) =? 0) then mret (-1)
      else
        acquire LPtable;;
        p_set i (fun p => set_chan None (set_state RUNNABLE p));;
        release LPtable;;
        mret 0
    end.

(** sysproc.c: sleep for [n] ticks; one unit of fuel per tick waited for. *)
Fixpoint sleep_ticks (me : nat) (ticks0 n : Z) (fuel : nat) : K Z :=
  match fuel with
  | O => out_of_fuel
  | S fuel =>
    s ← get;
    if u32 (ticks s - ticks0) <? u32 n then
      if negb (killed (slot_of s me) =? 0) then release LTicks;; mret (-1)
      else sleep me (Some CTicks) LTicks;; sleep_ticks me ticks0 n fuel
    else release LTicks;; mret 0
  end.

Definition sys_sleep (me : nat) (n : Z) (fuel : nat) : K Z :=
  acquire LTicks;;
  s ← get;
  sleep_ticks me (ticks s) n fuel.

Definition sys_uptime : K Z :=
  acquire LTicks;;
  s ← get;
  release LTicks;;
  mret (ticks s).

(** The clock interrupt of trap.c on the first CPU. *)
Definition tick : K unit :=
  acquire LTicks;;
  change (fun s => put_ticks (u32 (ticks s + 1)) s);;
  wakeup (Some CTicks);;
  release LTicks.

End sched.
