(* ===== verification/Pipe.v ===== *)
(** file.c and pipe.c: the table of open files, and pipes.  The inode layer
    below them is an interface. *)

From S2P Require Import Prelude Mmu Kalloc Vm Kernel Sched.

(** * The interface of the inode layer *)

(** [struct stat]. *)
Record stat := Stat { st_dev : Z; st_ino : Z; st_type : Z; st_nlink : Z; st_size : Z }.

(** The calls of fs.c and log.c that file.c, proc.c and exec.c use, on a
    state of their own.  Those that may sleep take the slot of the calling
    process first.  A user buffer is the list of its bytes: [readi]
    gives its result and the bytes it read. *)
Class Inodes (FS : Type) := {
  idup : nat -> K FS nat;
  iput : nat -> nat -> K FS unit;
  begin_op : nat -> K FS unit;
  end_op : nat -> K FS unit;
  ilock : nat -> nat -> K FS unit;
  iunlock : nat -> nat -> K FS unit;
  readi : nat -> nat -> Z -> Z -> K FS (Z * list Z);
  writei : nat -> nat -> list Z -> Z -> K FS Z;
  stati : nat -> K FS stat;
  namei : nat -> list Z -> K FS (option nat);
}.

Section pipe.
Context {FS : Type} `{L : Link} `{I : Inodes FS}.
Notation K := (K FS).

(** * Files *)

Definition file_of (s : kst FS) (f : nat) : file := default file0 (ftable s !! f).
Definition f_set (f : nat) (g : file -> file) : K unit :=
  change (fun s => put_ftable (alter g f (ftable s)) s).

Definition set_fref (x : Z) (f : file) : file :=
  File (ftype f) x (readable f) (writable f) (fpipe f) (fip f) (off f).
Definition set_ftype (x : filetype) (f : file) : file :=
  File x (fref f) (readable f) (writable f) (fpipe f) (fip f) (off f).
Definition set_off (x : Z) (f : file) : file :=
  File (ftype f) (fref f) (readable f) (writable f) (fpipe f) (fip f) x.

Fixpoint first_file (l : list file) : option nat :=
  match l with
  | [] => None
  | f :: l => if fref f =? 0 then Some O else S <$> first_file l
  end.

Definition filealloc : K (option nat) :=
  acquire LFtable;;
  s ← get;
  match first_file (ftable s) with
  | Some f => f_set f (set_fref 1);; release LFtable;; mret (Some f)
  | None => release LFtable;; mret None
  end.

Definition filedup (f : nat) : K nat :=
  acquire LFtable;;
  s ← get;
  if fref (file_of s f) <? 1 then kpanic "filedup"
  else
    f_set f (fun x => set_fref (fref x + 1) x);;
    release LFtable;;
    mret f.

(** * Pipes *)

Definition PIPESIZE : Z := 512.

Definition pipe0 : pipe := Pipe (replicate 512 0) 0 0 false false.
Definition pipe_of (s : kst FS) (p : Z) : pipe := default pipe0 (pipes s !! p).
Definition pipe_set (p : Z) (g : pipe -> pipe) : K unit :=
  change (fun s => put_pipes (<[p := g (pipe_of s p)]> (pipes s)) s).

Definition close_end (w : bool) (x : pipe) : pipe :=
  if w then Pipe (data x) (nread x) (nwrite x) (readopen x) false
  else Pipe (data x) (nread x) (nwrite x) false (writeopen x).

Definition pipeclose (p : Z) (writable_ : bool) : K unit :=
  acquire (LPipe p);;
  pipe_set p (close_end writable_);;
  wakeup (Some (if writable_ then CNread p else CNwrite p));;
  s ← get;
  if negb (readopen (pipe_of s p)) && negb (writeopen (pipe_of s p)) then
    release (LPipe p);;
    change (fun s => put_pipes (delete p (pipes s)) s);;
    lift (kfree p)
  else release (LPipe p).

(** p->data[p->nwrite++ % PIPESIZE] = c, and c = p->data[p->nread++ % PIPESIZE]. *)
Definition push_byte (c : Z) (x : pipe) : pipe :=
  Pipe (<[Z.to_nat (nwrite x mod PIPESIZE) := c]> (data x)) (nread x) (u32 (nwrite x + 1))
    (readopen x) (writeopen x).
Definition next_byte (x : pipe) : Z := data x !!! Z.to_nat (nread x mod PIPESIZE).
Definition drop_byte (x : pipe) : pipe :=
  Pipe (data x) (u32 (nread x + 1)) (nwrite x) (readopen x) (writeopen x).

Definition full (x : pipe) : bool := nwrite x =? u32 (nread x + PIPESIZE).
Definition empty (x : pipe) : bool := nread x =? nwrite x.

(** The two loops of pipewrite; one unit of fuel per test of the inner one. *)
Fixpoint pipewrite_loop (me : nat) (p : Z) (rest : list Z) (n : Z) (fuel : nat) : K Z :=
  match rest with
  | [] => wakeup (Some (CNread p));; release (LPipe p);; mret n
  | c :: rest' =>
    match fuel with
    | O => out_of_fuel
    | S fuel =>
      s ← get;
      let x := pipe_of s p in
      if full x then
        if negb (readopen x) || negb (killed (slot_of s me) =? 0) then
          release (LPipe p);; mret (-1)
        else
          wakeup (Some (CNread p));;
          sleep me (Some (CNwrite p)) (LPipe p);;
          pipewrite_loop me p rest n fuel
      else pipe_set p (push_byte c);; pipewrite_loop me p rest' n fuel
    end
  end.

Definition pipewrite (me : nat) (p : Z) (addr : list Z) (fuel : nat) : K Z :=
  acquire (LPipe p);;
  pipewrite_loop me p addr (Z.of_nat (length addr)) fuel.

(** The loop that waits for data. *)
Fixpoint piperead_wait (me : nat) (p : Z) (fuel : nat) : K bool :=
  match fuel with
  | O => out_of_fuel
  | S fuel =>
    s ← get;
    let x := pipe_of s p in
    if empty x && writeopen x then
      if negb (killed (slot_of s me) =? 0) then release (LPipe p);; mret false
      else sleep me (Some (CNread p)) (LPipe p);; piperead_wait me p fuel
    else mret true
  end.

Fixpoint piperead_copy (x : pipe) (n : nat) : pipe * list Z :=
  match n with
  | O => (x, [])
  | S n =>
    if empty x then (x, [])
    else let '(x', l) := piperead_copy (drop_byte x) n in (x', next_byte x :: l)
  end.

Definition piperead (me : nat) (p : Z) (n : Z) (fuel : nat) : K (Z * list Z) :=
  acquire (LPipe p);;
  ok ← piperead_wait me p fuel;
  if negb ok then mret (-1, [])
  else
    s ← get;
    let '(x, l) := piperead_copy (pipe_of s p) (Z.to_nat n) in
    pipe_set p (fun _ => x);;
    wakeup (Some (CNwrite p));;
    release (LPipe p);;
    mret (Z.of_nat (length l), l).

(** * Closing, reading and writing files *)

Definition fileclose (me : nat) (f : nat) : K unit :=
  acquire LFtable;;
  s ← get;
  let ff := file_of s f in
  if fref ff <? 1 then kpanic "fileclose"
  else if 0 <? fref ff - 1 then f_set f (set_fref (fref ff - 1));; release LFtable
  else
    f_set f (fun x => set_ftype FD_NONE (set_fref 0 x));;
    release LFtable;;
    match ftype ff with
    | FD_PIPE => pipeclose (fpipe ff) (writable ff)
    | FD_INODE => begin_op me;; iput me (fip ff);; end_op me
    | FD_NONE => mret tt
    end.

Definition filestat (me : nat) (f : nat) : K (option stat) :=
  s ← get;
  match ftype (file_of s f) with
  | FD_INODE =>
    ilock me (fip (file_of s f));;
    st ← stati (fip (file_of s f));
    iunlock me (fip (file_of s f));;
    mret (Some st)
  | _ => mret None
  end.

Definition fileread (me : nat) (f : nat) (n : Z) (fuel : nat) : K (Z * list Z) :=
  s ← get;
  let ff := file_of s f in
  if negb (readable ff) then mret (-1, [])
  else match ftype ff with
  | FD_PIPE => piperead me (fpipe ff) n fuel
  | FD_INODE =>
    ilock me (fip ff);;
    s ← get;
    '(r, l) ← readi me (fip ff) (off (file_of s f)) n;
    (if 0 <? r then f_set f (fun x => set_off (u32 (off x + r)) x) else mret tt);;
    iunlock me (fip ff);;
    mret (r, l)
  | FD_NONE => kpanic "fileread"
  end.


(** The loop of filewrite: at most [max] bytes per transaction. *)
Fixpoint filewrite_loop (me : nat) (f : nat) (rest : list Z) (n : Z) (fuel : nat) : K Z :=
  match rest with
  | [] => mret n
  | _ :: _ =>
    match fuel with
    | O => out_of_fuel
    | S fuel =>
      let max := ((MAXOPBLOCKS - 1 - 1 - 2) / 2) * 512 in
      let n1 := if max <? Z.of_nat (length rest) then max else Z.of_nat (length rest) in
      begin_op me;;
      s ← get;
      let ip := fip (file_of s f) in
      ilock me ip;;
      s ← get;
      r ← writei me ip (take (Z.to_nat n1) rest) (off (file_of s f));
      (if 0 <? r then f_set f (fun x => set_off (u32 (off x + r)) x) else mret tt);;
      iunlock me ip;;
      end_op me;;
      if r <? 0 then mret (-1)
      else if negb (r =? n1) then kpanic "short filewrite"
      else filewrite_loop me f (drop (Z.to_nat r) rest) n fuel
    end
  end.

Definition filewrite (me : nat) (f : nat) (addr : list Z) (fuel : nat) : K Z :=
  s ← get;
  let ff := file_of s f in
  if negb (writable ff) then mret (-1)
  else match ftype ff with
  | FD_PIPE => pipewrite me (fpipe ff) addr fuel
  | FD_INODE => filewrite_loop me f addr (Z.of_nat (length addr)) fuel
  | FD_NONE => kpanic "filewrite"
  end.

Definition pipealloc (me : nat) : K (option (nat * nat)) :=
  f0 ← filealloc;
  match f0 with
  | None => mret None
  | Some f0 =>
    f1 ← filealloc;
    match f1 with
    | None => fileclose me f0;; mret None
    | Some f1 =>
      p ← lift kalloc;
      if p =? 0 then fileclose me f0;; fileclose me f1;; mret None
      else
        change (fun s => put_pipes (<[p := Pipe (data (pipe_of s p)) 0 0 true true]> (pipes s)) s);;
        f_set f0 (fun x => File FD_PIPE (fref x) true false p (fip x) (off x));;
        f_set f1 (fun x => File FD_PIPE (fref x) false true p (fip x) (off x));;
        mret (Some (f0, f1))
    end
  end.

End pipe.
