(* ===== verification/Thread.v ===== *)
(** proc.c, part 2: the life of processes and threads, from allocproc and
    clone to exit, wait, join and tgkill. *)

From S2P Require Import Prelude Mmu Str Kalloc Vm Kernel Sched Pipe.

(** * Definitions *)

Definition CLONE_VM : Z := 1.
Definition CLONE_FS : Z := 2.
Definition CLONE_FILES : Z := 4.
Definition CLONE_THREAD : Z := 8.
Definition CLONE_PARENT : Z := 16.
Definition TFLAGS : Z := Z.lor (Z.lor (Z.lor CLONE_VM CLONE_FS) CLONE_FILES) CLONE_THREAD.

(** Where the linker puts ptable.proc. *)
Class Tables := { ptable_proc : Z }.

(** The address of a slot; struct proc takes 188 bytes, its parent field
    is at 84. *)
Definition proc_addr `{T : Tables} (p : option nat) : Z :=
  match p with None => 0 | Some i => ptable_proc + 188 * Z.of_nat i end.
Definition PARENT_OFFSET : Z := 84.

(** The bytes of a word, least significant first. *)
Definition bytes4 (v : Z) : list Z :=
  [v mod 256; (v / 2 ^ 8) mod 256; (v / 2 ^ 16) mod 256; (v / 2 ^ 24) mod 256].

Section thread.
Context {FS : Type} `{L : Link} `{T : Tables} `{I : Inodes FS}.
Notation K := (K FS).

Definition null {A} : K A := kpanic "null pointer".

(** * Creating *)

(** Signed overflow of nextpid stops the model. *)
Definition allocproc : K (option nat) :=
  acquire LPtable;;
  s ← get;
  match first (fun p => bool_decide (state p = UNUSED)) (procs s) with
  | None => release LPtable;; mret None
  | Some np =>
    if nextpid s =? 2 ^ 31 - 1 then kpanic "signed overflow"
    else
      p_set np (fun p => set_pid (nextpid s) (set_state EMBRYO p));;
      change (fun s => put_building (Some np) (put_nextpid (nextpid s + 1) s));;
      release LPtable;;
      k ← lift kalloc;
      p_set np (set_kstack k);;
      if k =? 0 then
        p_set np (set_state UNUSED);;
        change (put_building None);;
        mret None
      else
        p_set np (fun p => set_tstackalloc 0 (set_tstack 0 (set_tid (-1) p)));;
        change (fun s => put_locked (remove (LThread np) (locked s)) s);;
        mret (Some np)
  end.

(** The failure exits of clone: np gives its kernel stack back. *)
Definition clone_fail (np : nat) : K Z :=
  k ← p_ np kstack;
  lift (kfree k);;
  p_set np (fun p => set_state UNUSED (set_kstack 0 p));;
  change (put_building None);;
  mret (-1).

(** The memory and the stack of the child; [None]: it goes on. *)
Definition clone_memory (me np leader : nat) (child_stack flags : Z) : K (option Z) :=
  l ← p_ leader (fun p => p);
  (if testf flags CLONE_VM then p_set np (set_pgdir (pgdir l));; mret None
   else
     d ← lift (copyuvm (pgdir l) (sz l));
     p_set np (set_pgdir d);;
     if d =? 0 then r ← clone_fail np; mret (Some r) else mret None) ≫= fun r =>
  match r with
  | Some r => mret (Some r)
  | None =>
    if testf flags CLONE_VM then
      if child_stack =? 0 then
        let guard_page := u32 (tstack l - 2 * PGSIZE) in
        t ← lift (cloneuvm (pgdir l) (sz l) guard_page);
        p_set np (set_tstack t);;
        if t =? 0 then r ← clone_fail np; mret (Some r)
        else p_set np (set_tstackalloc 1);; mret None
      else p_set np (set_tstack child_stack);; mret None
    else
      p_set np (set_tstack (tstack l));;
      if decide (me = leader) then mret None
      else
        n ← p_ np (fun p => p);
        c ← p_ me (fun p => p);
        r ← lift (copy_thread_stack (pgdir n) (u32 (tstack n - PGSIZE)) (pgdir l) (u32 (tstack c - PGSIZE)));
        if r =? -1 then change (put_building None);; mret (Some (-1)) else mret None
  end.

(** The registers of the child. *)
Definition clone_frame (me np leader : nat) (func flags args : Z) : K (option Z) :=
  c ← p_ me (fun p => p);
  p_set np (set_tf (tf c));;
  n ← p_ np (fun p => p);
  if testf flags CLONE_VM then
    let sp := u32 (tstack n - 2 * 4) in
    r ← lift (copyout (pgdir c) (pgdir n) sp (bytes4 0xffffffff ++ bytes4 (u32 args)));
    if r =? -1 then r ← clone_fail np; mret (Some r)
    else p_set np (fun p => set_tf (set_esp sp (set_eip func (tf p))) p);; mret None
  else
    let f := set_eax 0 (tf n) in
    let sp := if decide (me = leader) then esp f
              else u32 (tstack n - (tstack c - esp f)) in
    p_set np (fun p => set_tf (set_esp sp (set_eip func f)) p);;
    mret None.

(** The open files of the child, one descriptor after the other. *)
Fixpoint clone_files (me np : nat) (flags : Z) (fds : list nat) : K unit :=
  match fds with
  | [] => mret tt
  | i :: fds =>
    o ← p_ me (fun p => default None (ofile p !! i));
    match o with
    | None => mret tt
    | Some f =>
      if testf flags CLONE_FILES then
        f' ← filedup f;
        p_set np (fun p => set_ofile (<[i := Some f']> (ofile p)) p)
      else
        f' ← filealloc;
        p_set np (fun p => set_ofile (<[i := f']> (ofile p)) p);;
        match f' with
        | None => null
        | Some f' =>
          s ← get;
          ip ← idup (fip (file_of s f));
          f_set f' (fun x => File (ftype (file_of s f)) (fref x) (readable (file_of s f))
                               (writable (file_of s f)) (fpipe x) ip 0)
        end
    end;;
    clone_files me np flags fds
  end.

Definition clone (me : nat) (func child_stack flags args : Z) : K Z :=
  np ← allocproc;
  match np with
  | None => mret (-1)
  | Some np =>
    s ← get;
    match THREAD_LEADER s me with
    | None => null
    | Some leader =>
      l ← p_ leader (fun p => p);
      p_set np (fun p => set_parent (if testf flags CLONE_PARENT then parent l else Some leader)
                           (set_sz (sz l) p));;
      r ← clone_memory me np leader child_stack flags;
      match r with
      | Some r => mret r
      | None =>
        r ← clone_frame me np leader func flags args;
        match r with
        | Some r => mret r
        | None =>
          clone_files me np flags (seq 0 NOFILE);;
          (if testf flags CLONE_FS then
             d ← p_ me cwd;
             match d with None => null | Some d => d' ← idup d; p_set np (set_cwd (Some d')) end
           else mret tt);;
          c ← p_ me (fun p => p);
          p_set np (set_name (take 15 (name c)));;
          retid ← (if testf flags CLONE_THREAD then
                     p_set np (fun p => set_pid (pid c) (set_tid (pid p) p));;
                     p_ np tid
                   else p_set np (set_tid (-1));; p_ np pid);
          acquire LPtable;;
          p_set np (set_state RUNNABLE);;
          change (put_building None);;
          release LPtable;;
          mret retid
        end
      end
    end
  end.

Definition fork (me : nat) : K Z :=
  e ← p_ me (fun p => eip (tf p));
  clone me e 0 (Z.lor CLONE_FS CLONE_FILES) 0.

(** * Reaping *)

(** What wait and join clear in a slot. *)
Definition clear_slot (p : proc) : proc :=
  set_state UNUSED (set_killed 0 (set_name [] (set_parent None (set_tstack 0
    (set_tid 0 (set_pid 0 (set_kstack 0 p))))))).

(** Free the kernel stack of a dead thread, and its user stack if the
    kernel allocated it. *)
Definition free_thread (i : nat) : K unit :=
  p ← p_ i (fun p => p);
  lift (kfree (kstack p));;
  p_set i (set_kstack 0);;
  if tstackalloc p =? 0 then mret tt else lift (freecloneuvm (pgdir p) (tstack p)).

(** The second loop of tgkill, from slot [js] on: whether a thread is
    still alive. *)
Fixpoint reap_threads (me : nat) (js : list nat) : K bool :=
  match js with
  | [] => mret false
  | i :: js =>
    s ← get;
    let p := slot_of s i in
    if negb (pid p =? pid (slot_of s me)) || (tid p =? -1) then reap_threads me js
    else if decide (state p = ZOMBIE) then
      free_thread i;; p_set i clear_slot;; reap_threads me js
    else mret true
  end.

Fixpoint tgkill_loop (me : nat) (fuel : nat) : K Z :=
  match fuel with
  | O => out_of_fuel
  | S fuel =>
    alive ← reap_threads me (seq 0 NPROC);
    if negb alive then release LPtable;; mret 0
    else
      k ← p_ me killed;
      if negb (k =? 0) then release LPtable;; mret (-1)
      else sleep me (Some (CProc me)) LPtable;; tgkill_loop me fuel
  end.

Definition kill_thread (pid_ : Z) (p : proc) : proc :=
  if (pid p =? pid_) && negb (tid p =? -1) then
    let p := set_killed 1 p in
    if bool_decide (state p = SLEEPING) then set_chan None (set_state RUNNABLE p) else p
  else p.

Definition tgkill (me : nat) (fuel : nat) : K Z :=
  s ← get;
  if negb (bool_decide (THREAD_LEADER s me = Some me)) then mret (-1)
  else
    acquire LPtable;;
    change (fun s => put_procs (kill_thread (pid (slot_of s me)) <$> procs s) s);;
    tgkill_loop me fuel.

Fixpoint close_files (me : nat) (fds : list nat) : K unit :=
  match fds with
  | [] => mret tt
  | fd :: fds =>
    o ← p_ me (fun p => default None (ofile p !! fd));
    match o with
    | None => mret tt
    | Some f => fileclose me f;; p_set me (fun p => set_ofile (<[fd := None]> (ofile p)) p)
    end;;
    close_files me fds
  end.

(** Pass abandoned children to init. *)
Fixpoint reparent (me : nat) (js : list nat) : K unit :=
  match js with
  | [] => mret tt
  | i :: js =>
    s ← get;
    (if bool_decide (parent (slot_of s i) = Some me) && (tid (slot_of s i) =? -1) then
       p_set i (set_parent (initproc s));;
       if bool_decide (state (slot_of s i) = ZOMBIE) then wakeup1 (CProc <$> initproc s) else mret tt
     else mret tt);;
    reparent me js
  end.

(** exit from its last acquire on: inform the leader and the parent, pass
    the children on, and give up the CPU for good. *)
Definition exit_finish (me : nat) : K Z :=
  acquire LPtable;;
  s ← get;
  (if tid (slot_of s me) =? -1 then mret tt else wakeup1 (CProc <$> THREAD_LEADER s me));;
  wakeup1 (CProc <$> parent (slot_of s me));;
  reparent me (seq 0 NPROC);;
  p_set me (set_state ZOMBIE);;
  sched me;;
  kpanic "zombie exit".

Definition exit (me : nat) (fuel : nat) : K Z :=
  s ← get;
  if bool_decide (initproc s = Some me) then kpanic "init exiting"
  else
    close_files me (seq 0 NOFILE);;
    begin_op me;;
    d ← p_ me cwd;
    match d with None => null | Some d => iput me d end;;
    end_op me;;
    p_set me (set_cwd None);;
    t ← p_ me tid;
    (if t =? -1 then tgkill me fuel else mret 0);;
    exit_finish me.

(** Whether THREAD_LEADER(p)->parent is the leader of the caller.  The
    leader of a slot that was never used, or was cleared, is null: the
    field is then read from user memory. *)
Definition is_child (me i : nat) : K bool :=
  s ← get;
  match THREAD_LEADER s i with
  | Some q => mret (bool_decide (parent (slot_of s q) = THREAD_LEADER s me))
  | None =>
    v ← lift (ld_user (pgdir (slot_of s me)) PARENT_OFFSET);
    mret (v =? proc_addr (THREAD_LEADER s me))
  end.

(** The scan of wait: the id of the child it reaped, or whether there is
    any child. *)
Fixpoint wait_scan (me : nat) (js : list nat) (havekids : bool) : K (Z + bool) :=
  match js with
  | [] => mret (inr havekids)
  | i :: js =>
    c ← is_child me i;
    if negb c then wait_scan me js havekids
    else
      p ← p_ i (fun p => p);
      if bool_decide (state p = ZOMBIE) && (tid p =? -1) then
        lift (kfree (kstack p));;
        p_set i (set_kstack 0);;
        lift (freevm (pgdir p));;
        p_set i clear_slot;;
        mret (inl (pid p))
      else wait_scan me js true
  end.

Fixpoint wait_loop (me : nat) (fuel : nat) : K Z :=
  match fuel with
  | O => out_of_fuel
  | S fuel =>
    r ← wait_scan me (seq 0 NPROC) false;
    match r with
    | inl pid_ => release LPtable;; mret pid_
    | inr havekids =>
      k ← p_ me killed;
      if negb havekids || negb (k =? 0) then release LPtable;; mret (-1)
      else
        s ← get;
        sleep me (CProc <$> THREAD_LEADER s me) LPtable;;
        wait_loop me fuel
    end
  end.

Definition wait (me : nat) (fuel : nat) : K Z :=
  acquire LPtable;;
  wait_loop me fuel.

Fixpoint join_loop (me i : nat) (leader : option nat) (fuel : nat) : K Z :=
  match fuel with
  | O => out_of_fuel
  | S fuel =>
    k ← p_ me killed;
    if negb (k =? 0) then release LPtable;; mret (-1)
    else
      p ← p_ i (fun p => p);
      if bool_decide (state p = ZOMBIE) then
        free_thread i;;
        p_set i (fun p => clear_slot (set_pgdir 0 p));;
        release LPtable;;
        mret (tid p)
      else
        sleep me (CProc <$> leader) LPtable;;
        join_loop me i leader fuel
  end.

Definition join (me : nat) (tid_ : Z) (fuel : nat) : K Z :=
  if tid_ =? -1 then mret (-1)
  else
    s ← get;
    let leader := THREAD_LEADER s me in
    match first (fun p => (tid p =? tid_) && bool_decide (parent p = leader)) (procs s) with
    | None => mret (-1)
    | Some i =>
      if negb (killed (slot_of s me) =? 0) then mret (-1)
      else
        acquire LPtable;;
        join_loop me i leader fuel
    end.

(** * Memory *)

(** The checks of switchuvm; the registers it loads are in Seg.v. *)
Definition switchuvm (i : nat) : K unit :=
  p ← p_ i (fun p => p);
  if kstack p =? 0 then kpanic "switchuvm: no kstack"
  else if pgdir p =? 0 then kpanic "switchuvm: no pgdir"
  else mret tt.

Definition growproc (me : nat) (n : Z) : K Z :=
  s ← get;
  match THREAD_LEADER s me with
  | None => null
  | Some leader =>
    let sz0 := sz (slot_of s leader) in
    let pgdir := pgdir (slot_of s me) in
    r ← (if 0 <? n then lift (allocuvm pgdir sz0 (u32 (sz0 + n)))
         else if n <? 0 then lift (deallocuvm pgdir sz0 (u32 (sz0 + n)))
         else mret sz0);
    if negb (n =? 0) && (r =? 0) then mret (-1)
    else
      p_set me (set_sz r);;
      p_set leader (set_sz r);;
      switchuvm me;;
      mret 0
  end.

Definition sys_sbrk (me : nat) (n : Z) : K Z :=
  s ← get;
  match THREAD_LEADER s me with
  | None => null
  | Some leader =>
    acquire (LThread leader);;
    addr ← p_ leader sz;
    r ← growproc me n;
    release (LThread leader);;
    mret (if r <? 0 then -1 else addr)
  end.

(** The first process. *)
Definition userinit (initcode : list Z) (root : list Z) : K unit :=
  np ← allocproc;
  change (fun s => put_initproc np s);;
  match np with
  | None => null
  | Some p =>
    d ← lift setupkvm;
    p_set p (set_pgdir d);;
    if d =? 0 then kpanic "userinit: out of memory?"
    else
      lift (inituvm d initcode);;
      p_set p (fun p => set_name [105; 110; 105; 116; 99; 111; 100; 101] (set_tstack PGSIZE (set_tf (TF 0 0 PGSIZE 0x200 0x1b 0x23 0x23 0x23 0 [])
                 (set_sz PGSIZE p))));;
      r ← namei p root;
      p_set p (set_cwd r);;
      acquire LPtable;;
      p_set p (set_state RUNNABLE);;
      change (put_building None);;
      release LPtable
  end.

End thread.
