(* ===== verification/Calls.v ===== *)
(** The calls of proc.c, file.c and pipe.c in the rely-guarantee logic: each
    keeps the invariant of the process table, whatever the other processes
    do at its switch points. *)

From S2P Require Import Prelude Mmu Kalloc Vm Kernel Sched Pipe Thread Rely.

Create HintDb keeps.

Section calls.
Context {FS : Type}.
Implicit Types s : kst FS.
Notation K := (K FS).

(** Code that leaves the process running, and the slot it builds alone. *)
Definition keeps {A} (me : nat) (m : K A) : Prop :=
  forall b R, core_prop R -> triple me (base me b R) m (fun _ => base me b R).

Lemma keeps_bind {A B} me (m : K A) (f : A -> K B) :
  keeps me m -> (forall a, keeps me (f a)) -> keeps me (m ≫= f).
Proof. intros Hm Hf b R HR. eapply triple_bind; [by apply Hm|]. intros a. by apply Hf. Qed.

Lemma keeps_ret {A} me (a : A) : keeps me (mret a).
Proof. intros b R HR. by intros s0 s Hs. Qed.

Lemma keeps_get me : keeps me get.
Proof. intros b R HR. by intros s0 s Hs. Qed.

Lemma keeps_p {A} me i (f : proc -> A) : keeps me (p_ i f).
Proof. intros b R HR. by intros s0 s Hs. Qed.

Lemma keeps_panic {A} me msg : keeps me (kpanic msg : K A).
Proof. intros b R HR. apply triple_panic. Qed.

Lemma keeps_fuel {A} me : keeps me (out_of_fuel : K A).
Proof. intros b R HR. apply triple_fuel. Qed.

Lemma keeps_silent me f :
  (forall s, procs (f s) = procs s /\ nextpid (f s) = nextpid s /\ building (f s) = building s) ->
  keeps me (change f).
Proof. intros Hf b R HR. by apply triple_silent. Qed.

Lemma keeps_lift {A} me (m : M pmem A) : keeps me (lift m).
Proof. intros b R HR. by apply triple_mem. Qed.

Lemma keeps_acquire me lk : keeps me (acquire lk).
Proof. intros b R HR. by apply triple_acquire. Qed.

Lemma keeps_release me lk : keeps me (release lk).
Proof. intros b R HR. by apply triple_release. Qed.

Lemma keeps_upd me i f : (forall p, gentle p (f p)) -> keeps me (p_set i f).
Proof. intros Hf b R HR. by apply triple_upd. Qed.

(** Updates of fields that the invariant does not speak of. *)
Lemma gentle_wake c p : gentle p (wake c p).
Proof.
  unfold wake. case_match eqn:E; [|apply gentle_refl].
  apply andb_true_iff in E as [E%bool_decide_eq_true _]. repeat split. by right.
Qed.

Lemma gentle_killed p : gentle p (mark_killed p).
Proof.
  unfold mark_killed. simpl. case_match eqn:E; [|repeat split; by left].
  apply bool_decide_eq_true in E. repeat split. by right.
Qed.

Lemma gentle_kill_thread x p : gentle p (kill_thread x p).
Proof.
  unfold kill_thread. case_match; [|apply gentle_refl]. simpl. case_match eqn:E; [|repeat split; by left].
  apply bool_decide_eq_true in E. repeat split. by right.
Qed.

Lemma keeps_wakeup1 me c : keeps me (wakeup1 c).
Proof.
  intros b R HR. apply triple_change. intros s0 s Hs.
  eapply base_calm; [done|done|]. apply calm_map, gentle_wake.
Qed.

End calls.

Ltac gentle := intros ?; first [apply gentle_killed | apply gentle_wake | repeat split; by left].

#[export] Hint Resolve keeps_ret keeps_get keeps_p keeps_panic keeps_fuel keeps_lift
  keeps_acquire keeps_release keeps_wakeup1 : keeps.
#[export] Hint Extern 2 (keeps _ (p_set _ _)) => (apply keeps_upd; gentle) : keeps.
#[export] Hint Extern 2 (keeps _ (change _)) => (apply keeps_silent; done) : keeps.

(** Code made of such pieces. *)
Ltac keep :=
  repeat first
    [ solve [eauto with keeps]
    | apply keeps_bind; [|intros ?]
    | case_match ].

Section calls2.
Context {FS : Type} `{L : Link} `{T : Tables} `{I : Inodes FS}.
Implicit Types s : kst FS.
Notation K := (K FS).

(** * Giving up the CPU *)

(** The process has changed its own state, and is about to call sched. *)
Definition parting (me : nat) (b : option nat) (R : proc -> Prop) (s0 s : kst FS) : Prop :=
  guar me s0 s /\ inv s /\ stopped me SwSched s /\ building s = b
  /\ forall x, b = Some x -> R (slot_of s x).

Lemma parting_set me b R s0 s f :
  (forall p, pid (f p) = pid p /\ tid (f p) = tid p /\ kstack (f p) = kstack p
     /\ (state (f p) = SLEEPING \/ state (f p) = RUNNABLE \/ state (f p) = ZOMBIE)) ->
  base me b R s0 s -> parting me b R s0 (upd me f s).
Proof.
  intros Hf ([G1 G2 G3 G4] & [H1 H2 H3 H4 H5 H6] & Hr & Hb & Hx).
  assert (me < length (procs s))%nat as Hme by (apply used_slot; congruence).
  destruct (Hf (slot_of s me)) as (F1 & F2 & F3 & F4).
  assert (forall x, ident (slot_of (upd me f s) x) = ident (slot_of s x)
            /\ kstack (slot_of (upd me f s) x) = kstack (slot_of s x)) as Hid.
  { intros x. destruct (decide (x = me)) as [->|]; [|by rewrite slot_upd_ne].
    rewrite slot_upd_eq by done. unfold ident. by rewrite F1, F2. }
  assert (forall x, building s = Some x -> x <> me) as Hbm.
  { intros x Hbx ->. destruct (G3 me Hbx). congruence. }
  split; [|split; [|split; [|split; [done|]]]].
  - split.
    + intros x Hx0 Hbx. destruct (G1 x Hx0 Hbx) as (A1 & A2 & A3 & A4).
      rewrite slot_upd_ne; [done|]. intros ->. congruence.
    + intros x Hne. rewrite slot_upd_ne by done. by apply G2.
    + intros x Hbx. rewrite slot_upd_ne by by apply Hbm. by apply G3.
    + intros x Hne. rewrite slot_upd_ne by done. by apply G4.
  - split; simpl.
    + by rewrite length_alter.
    + done.
    + intros i. destruct (Hid i) as [-> _]. apply H3.
    + intros i j. destruct (Hid i) as [-> _], (Hid j) as [-> _]. apply H4.
    + intros i Hl. destruct (Hid i) as [_ ->]. destruct (decide (i = me)) as [->|].
      * apply H5. unfold live. by rewrite Hr.
      * apply H5. by rewrite slot_upd_ne in Hl.
    + intros i Hi. destruct (decide (i = me)) as [->|].
      * rewrite slot_upd_eq in Hi by done. exfalso. intuition congruence.
      * rewrite slot_upd_ne in Hi |- * by done. by apply H6.
  - simpl. by rewrite slot_upd_eq.
  - intros x Hbx. rewrite slot_upd_ne; [by apply Hx|]. apply Hbm. congruence.
Qed.

(** The scheduler makes a runnable process run. *)
Lemma inv_run s me : inv s -> state (slot_of s me) = RUNNABLE -> inv (upd me (set_state RUNNING) s).
Proof.
  intros [H1 H2 H3 H4 H5 H6] Hr.
  assert (me < length (procs s))%nat as Hme by (apply used_slot; congruence).
  assert (forall x, ident (slot_of (upd me (set_state RUNNING) s) x) = ident (slot_of s x)
    /\ kstack (slot_of (upd me (set_state RUNNING) s) x) = kstack (slot_of s x)
    /\ tid (slot_of (upd me (set_state RUNNING) s) x) = tid (slot_of s x)) as Hid.
  { intros x. destruct (decide (x = me)) as [->|]; [by rewrite slot_upd_eq|by rewrite slot_upd_ne]. }
  split; simpl.
  - by rewrite length_alter.
  - done.
  - intros i. destruct (Hid i) as [-> _]. apply H3.
  - intros i j. destruct (Hid i) as [-> _], (Hid j) as [-> _]. apply H4.
  - intros i Hl. destruct (Hid i) as (_ & -> & _). destruct (decide (i = me)) as [->|].
    + apply H5. unfold live. by rewrite Hr.
    + apply H5. by rewrite slot_upd_ne in Hl.
  - intros i Hi. destruct (Hid i) as (_ & _ & ->). destruct (decide (i = me)) as [->|].
    + by rewrite slot_upd_eq in Hi.
    + apply H6. by rewrite slot_upd_ne in Hi.
Qed.

Lemma triple_sched me b R :
  core_prop R -> triple me (parting me b R) (sched me) (fun _ => base me b R).
Proof.
  intros HR s0 s (Hg & Hi & Hst & Hb & Hx). unfold sched.
  destruct (holding LPtable s); [|done]. simpl.
  destruct (length (mine s) =? 1)%nat; [|done]. simpl.
  destruct (bool_decide (state (slot_of s me) = RUNNING)); [done|]. simpl.
  set (s1 := put_mine [] (put_locked (remove LPtable (locked s)) s)).
  assert (calm s s1) as Hc by by apply calm_silent.
  split; [by eapply guar_calm|]. split; [by eapply inv_calm|]. split; [done|].
  intros s' Hre Hi' Hrd. simpl in Hrd.
  assert (me < length (procs s'))%nat as Hme by (apply used_slot; congruence).
  assert (forall x, b = Some x -> state (slot_of s x) = EMBRYO) as Hemb.
  { intros x Hbx. apply (gu_build _ _ _ Hg). congruence. }
  assert (forall x, b = Some x -> same_core (slot_of s x) (slot_of s' x)) as Hcore.
  { intros x Hbx. apply (re_build _ _ _ Hre). simpl. congruence. }
  assert (forall x, b = Some x -> x <> me) as Hbm.
  { intros x Hbx ->. destruct (Hcore me Hbx) as (H1 & _). rewrite (Hemb me Hbx) in H1. congruence. }
  change (building s1) with (building s) in *. rewrite Hb.
  split; [|split; [|split; [|split; [done|]]]].
  - split; simpl.
    + intros x Hx0 _. change (slot_of (locals _ _) x) with (slot_of s' x) in *.
      change (slot_of _ x) with (slot_of (upd me (set_state RUNNING) s') x) at 2.
      rewrite slot_upd_ne; [by repeat split|]. intros ->. congruence.
    + intros x Hne. change (slot_of _ x) with (slot_of (upd me (set_state RUNNING) s') x) at 1.
      by rewrite slot_upd_ne.
    + intros x Hbx. change (slot_of _ x) with (slot_of (upd me (set_state RUNNING) s') x) at 1.
      rewrite slot_upd_ne by by apply Hbm. split; [|left; simpl; congruence].
      destruct (Hcore x Hbx) as (-> & _). by apply Hemb.
    + intros x Hne _. change (slot_of _ x) with (slot_of (upd me (set_state RUNNING) s') x) at 1.
      by rewrite slot_upd_ne.
  - eapply inv_silent; [| |by apply (inv_run s' me)]; done.
  - change (slot_of _ me) with (slot_of (upd me (set_state RUNNING) s') me).
    by rewrite slot_upd_eq.
  - intros x Hbx. change (slot_of _ x) with (slot_of (upd me (set_state RUNNING) s') x).
    rewrite slot_upd_ne by by apply Hbm. apply (HR (slot_of s x)); auto.
Qed.

Lemma keeps_part {A} me f (m : K A) :
  (forall p, pid (f p) = pid p /\ tid (f p) = tid p /\ kstack (f p) = kstack p
     /\ (state (f p) = SLEEPING \/ state (f p) = RUNNABLE \/ state (f p) = ZOMBIE)) ->
  keeps me m -> keeps me (p_set me f;; sched me;; m).
Proof.
  intros Hf Hm b R HR. eapply triple_bind; [|intros ?].
  - apply triple_change. intros s0 s. by apply (parting_set me b R).
  - eapply triple_bind; [by apply triple_sched|]. intros ?. by apply Hm.
Qed.

Lemma keeps_yield me : keeps me (yield me : K _).
Proof.
  apply keeps_bind; [keep|intros _]. apply keeps_part; [|keep].
  intros p. split; [done|]. split; [done|]. split; [done|]. auto.
Qed.

Lemma keeps_sleep me c lk : keeps me (sleep me c lk : K _).
Proof.
  apply keeps_bind; [keep|intros _]. apply keeps_part; [|keep].
  intros p. split; [done|]. split; [done|]. split; [done|]. auto.
Qed.

Lemma keeps_wakeup me c : keeps me (wakeup c : K _).
Proof. keep. Qed.

Lemma keeps_kill me p : keeps me (kill p : K _).
Proof. unfold kill. keep. Qed.

Lemma keeps_tkill me t : keeps me (tkill me t : K _).
Proof. unfold tkill. keep. Qed.

Hint Resolve keeps_sleep keeps_wakeup : keeps.

Lemma keeps_tsuspend me : keeps me (tsuspend me : K _).
Proof. unfold tsuspend. keep. Qed.

Lemma keeps_sleep_ticks me t n fuel : keeps me (sleep_ticks me t n fuel : K _).
Proof. induction fuel; simpl; keep. Qed.

Hint Resolve keeps_sleep_ticks : keeps.

Lemma keeps_sys_sleep me n fuel : keeps me (sys_sleep me n fuel : K _).
Proof. unfold sys_sleep. keep. Qed.

Lemma keeps_tick me : keeps me (tick : K _).
Proof. unfold tick. keep. Qed.

(** * The inode layer *)

(** Code that touches the process table only through sleep and wakeup. *)
Inductive plain (me : nat) : forall A, K A -> Prop :=
| pl_ret A (a : A) : plain me A (mret a)
| pl_bind A B (m : K A) (f : A -> K B) :
    plain me A m -> (forall a, plain me B (f a)) -> plain me B (m ≫= f)
| pl_get : plain me _ get
| pl_p A i (f : proc -> A) : plain me A (p_ i f)
| pl_change f :
    (forall s, procs (f s) = procs s /\ nextpid (f s) = nextpid s /\ building (f s) = building s) ->
    plain me _ (change f)
| pl_lift A (m : M pmem A) : plain me A (lift m)
| pl_panic A msg : plain me A (kpanic msg)
| pl_fuel A : plain me A out_of_fuel
| pl_acquire lk : plain me _ (acquire lk)
| pl_release lk : plain me _ (release lk)
| pl_sleep c lk : plain me _ (sleep me c lk)
| pl_wakeup c : plain me _ (wakeup c).

Lemma plain_keeps A me (m : K A) : plain me A m -> keeps me m.
Proof. induction 1; keep. Qed.

End calls2.

(** What the inode layer promises to the process layer. *)
Class PlainInodes (FS : Type) `{I : Inodes FS} := {
  plain_idup me n : plain me _ (idup n);
  plain_iput me n : plain me _ (iput me n);
  plain_begin_op me : plain me _ (begin_op me);
  plain_end_op me : plain me _ (end_op me);
  plain_ilock me n : plain me _ (ilock me n);
  plain_iunlock me n : plain me _ (iunlock me n);
  plain_readi me n o k : plain me _ (readi me n o k);
  plain_writei me n l o : plain me _ (writei me n l o);
  plain_stati me n : plain me _ (stati n);
  plain_namei me l : plain me _ (namei me l);
}.

#[export] Hint Resolve keeps_sleep keeps_wakeup keeps_kill keeps_tkill keeps_tsuspend keeps_yield
  keeps_sys_sleep : keeps.
#[export] Hint Extern 3 (keeps _ (idup _)) => (apply plain_keeps, plain_idup) : keeps.
#[export] Hint Extern 3 (keeps _ (iput _ _)) => (apply plain_keeps, plain_iput) : keeps.
#[export] Hint Extern 3 (keeps _ (begin_op _)) => (apply plain_keeps, plain_begin_op) : keeps.
#[export] Hint Extern 3 (keeps _ (end_op _)) => (apply plain_keeps, plain_end_op) : keeps.
#[export] Hint Extern 3 (keeps _ (ilock _ _)) => (apply plain_keeps, plain_ilock) : keeps.
#[export] Hint Extern 3 (keeps _ (iunlock _ _)) => (apply plain_keeps, plain_iunlock) : keeps.
#[export] Hint Extern 3 (keeps _ (readi _ _ _ _)) => (apply plain_keeps, plain_readi) : keeps.
#[export] Hint Extern 3 (keeps _ (writei _ _ _ _)) => (apply plain_keeps, plain_writei) : keeps.
#[export] Hint Extern 3 (keeps _ (stati _)) => (apply plain_keeps, plain_stati) : keeps.
#[export] Hint Extern 3 (keeps _ (namei _ _)) => (apply plain_keeps, plain_namei) : keeps.

Section calls3.
Context {FS : Type} `{L : Link} `{T : Tables} `{I : Inodes FS} `{PI : !PlainInodes FS}.
Implicit Types s : kst FS.
Notation K := (K FS).

(** * Files and pipes *)

Lemma keeps_filealloc me : keeps me (filealloc : K _).
Proof. unfold filealloc, f_set. keep. Qed.

Lemma keeps_filedup me f : keeps me (filedup f : K _).
Proof. unfold filedup, f_set. keep. Qed.

Lemma keeps_pipeclose me p w : keeps me (pipeclose p w : K _).
Proof. unfold pipeclose, pipe_set. keep. Qed.

Lemma keeps_pipewrite_loop me p l n fuel : keeps me (pipewrite_loop me p l n fuel : K _).
Proof. revert l. induction fuel; intros []; simpl; unfold pipe_set; keep. Qed.

Lemma keeps_piperead_wait me p fuel : keeps me (piperead_wait me p fuel : K _).
Proof. induction fuel; simpl; keep. Qed.

Hint Resolve keeps_filealloc keeps_filedup keeps_pipeclose keeps_pipewrite_loop keeps_piperead_wait : keeps.

Lemma keeps_pipewrite me p l fuel : keeps me (pipewrite me p l fuel : K _).
Proof. unfold pipewrite. keep. Qed.

Lemma keeps_piperead me p n fuel : keeps me (piperead me p n fuel : K _).
Proof. unfold piperead, pipe_set. keep. Qed.

Lemma keeps_fileclose me f : keeps me (fileclose me f : K _).
Proof. unfold fileclose, f_set. keep. Qed.

Hint Resolve keeps_pipewrite keeps_piperead keeps_fileclose : keeps.

Lemma keeps_fileread me f n fuel : keeps me (fileread me f n fuel : K _).
Proof. unfold fileread, f_set. keep. Qed.

Lemma keeps_filewrite_loop me f l n fuel : keeps me (filewrite_loop me f l n fuel : K _).
Proof. revert l. induction fuel; intros []; simpl; unfold f_set; keep. Qed.

Hint Resolve keeps_filewrite_loop : keeps.

Lemma keeps_filewrite me f l fuel : keeps me (filewrite me f l fuel : K _).
Proof. unfold filewrite. keep. Qed.

Lemma keeps_pipealloc me : keeps me (pipealloc me : K _).
Proof. unfold pipealloc, f_set. keep. Qed.

(** * Reaping *)

(** Updates that give a slot back. *)
Definition clearing (h : proc -> proc) : Prop :=
  forall p, state (h p) = UNUSED /\ pid (h p) = 0 /\ tid (h p) = 0.

Lemma base_clear me b R s0 s i h :
  base me b R s0 s -> state (slot_of s i) = ZOMBIE -> clearing h -> base me b R s0 (upd i h s).
Proof.
  intros ([G1 G2 G3 G4] & [H1 H2 H3 H4 H5 H6] & Hr & Hb & Hx) Hz Hh.
  assert (i < length (procs s))%nat as Hi by (apply used_slot; congruence).
  assert (i <> me) as Him by (intros ->; congruence).
  assert (forall x, building s = Some x -> x <> i) as Hbi.
  { intros x Hbx ->. destruct (G3 i Hbx). congruence. }
  destruct (Hh (slot_of s i)) as (F1 & F2 & F3).
  assert (ident (h (slot_of s i)) = 0) as F4 by (unfold ident; by rewrite F2, F3).
  split; [|split; [|split; [by rewrite slot_upd_ne by done|split; [done|]]]].
  - split.
    + intros x Hx0 Hbx. rewrite slot_upd_ne; [by apply G1|].
      intros ->. destruct (G1 i Hx0 Hbx) as (? & _). congruence.
    + intros x Hne. rewrite <- (G2 x Hne). destruct (decide (x = i)) as [->|]; [|by rewrite slot_upd_ne].
      rewrite slot_upd_eq by done. split; congruence.
    + intros x Hbx. rewrite slot_upd_ne by by apply Hbi. by apply G3.
    + intros x Hne Hx0. rewrite slot_upd_ne; [by apply G4|].
      intros ->. apply (G2 i Hne) in Hx0. congruence.
  - split; simpl; [by rewrite length_alter|done|..].
    + intros x. destruct (decide (x = i)) as [->|]; [|by rewrite slot_upd_ne].
      rewrite slot_upd_eq, F4 by done. lia.
    + intros x y. destruct (decide (x = i)) as [->|]; [rewrite slot_upd_eq, F4 by done; lia|].
      rewrite (slot_upd_ne i h s x) by done. destruct (decide (y = i)) as [->|].
      * rewrite slot_upd_eq, F4 by done. lia.
      * rewrite slot_upd_ne by done. apply H4.
    + intros x. destruct (decide (x = i)) as [->|]; [|rewrite slot_upd_ne by done; apply H5].
      rewrite slot_upd_eq by done. unfold live. by rewrite F1.
    + intros x. destruct (decide (x = i)) as [->|]; [|rewrite slot_upd_ne by done; apply H6].
      rewrite slot_upd_eq by done. auto.
  - intros x Hbx. rewrite slot_upd_ne; [by apply Hx|]. apply Hbi. congruence.
Qed.

(** Slot [i] is being given back: once cleared, all is well. *)
Definition dying (me : nat) (b : option nat) (R : proc -> Prop) (i : nat) (s0 s : kst FS) : Prop :=
  forall h, clearing h -> base me b R s0 (upd i h s).

Lemma upd_upd i f g s : upd i g (upd i f s) = upd i (g ∘ f) s.
Proof. unfold upd, put_procs. simpl. by rewrite list_alter_alter_eq. Qed.

Lemma dying_upd me b R i f :
  triple me (dying me b R i) (p_set i f : K _) (fun _ => dying me b R i).
Proof.
  apply triple_change. intros s0 s Hd h Hh. rewrite upd_upd. apply Hd. intros p. apply Hh.
Qed.

Lemma dying_lift {A} me b R i (m : M pmem A) :
  core_prop R -> triple me (dying me b R i) (lift m : K _) (fun _ => dying me b R i).
Proof. intros HR. apply triple_lift. intros s0 s x Hd h Hh.
  apply (base_mem me b R s0 (upd i h s)); [done|by apply Hd].
Qed.

Lemma dying_clear me b R i h :
  clearing h -> triple me (dying me b R i) (p_set i h : K _) (fun _ => base me b R).
Proof. intros Hh. apply triple_change. intros s0 s Hd. by apply Hd. Qed.

Lemma dying_p {A} me b R i j (f : proc -> A) :
  triple me (dying me b R i) (p_ j f : K _) (fun _ => dying me b R i).
Proof. by intros s0 s Hd. Qed.

Lemma dying_free_thread me b R i :
  core_prop R -> triple me (dying me b R i) (free_thread i : K _) (fun _ => dying me b R i).
Proof.
  intros HR. eapply triple_bind; [apply dying_p|intros p].
  eapply triple_bind; [by apply dying_lift|intros ?].
  eapply triple_bind; [apply dying_upd|intros ?].
  case_match; [by intros s0 s Hd|by apply dying_lift].
Qed.

Lemma zombie_dying me b R s0 s i :
  base me b R s0 s -> state (slot_of s i) = ZOMBIE -> dying me b R i s0 s.
Proof. intros Hs Hz h Hh. by apply base_clear. Qed.

Lemma clearing_slot : clearing clear_slot.
Proof. by intros p. Qed.

(** Code that reads the state first, and knows what it read. *)
Lemma keeps_get_then {A} me (f : kst FS -> K A) :
  (forall s, forall b R, core_prop R ->
     triple me (fun s0 s1 => s1 = s /\ base me b R s0 s1) (f s) (fun _ => base me b R)) ->
  keeps me (get ≫= f).
Proof. intros H b R HR s0 s Hs. by apply (H s b R HR). Qed.

Lemma keeps_p_then {A B} me i (g : proc -> B) (f : B -> K A) :
  (forall s, forall b R, core_prop R ->
     triple me (fun s0 s1 => s1 = s /\ base me b R s0 s1) (f (g (slot_of s i))) (fun _ => base me b R)) ->
  keeps me (p_ i g ≫= f).
Proof. intros H b R HR s0 s Hs. by apply (H s b R HR). Qed.

(** A branch that does not use it. *)
Lemma keeps_known {A} me (m : K A) s b R :
  core_prop R -> keeps me m ->
  triple me (fun s0 s1 => s1 = s /\ base me b R s0 s1) m (fun _ => base me b R).
Proof.
  intros HR Hm. apply (triple_conseq me _ (base me b R) m _ (fun _ => base me b R)); [by apply Hm| |done].
  by intros s0 s1 [_ ?].
Qed.

Lemma known_dying {A} me (m : K A) s b R i Q :
  state (slot_of s i) = ZOMBIE -> triple me (dying me b R i) m Q ->
  triple me (fun s0 s1 => s1 = s /\ base me b R s0 s1) m Q.
Proof.
  intros Hz Hm. eapply triple_conseq; [exact Hm| |done]. intros s0 s1 [-> Hs]. by apply zombie_dying.
Qed.

Lemma keeps_reap_threads me js : keeps me (reap_threads me js : K _).
Proof.
  induction js as [|i js IH]; simpl; [keep|]. apply keeps_get_then. intros s b R HR.
  case_match; [by apply keeps_known|]. case_decide as Hz; [|apply keeps_known; [done|keep]].
  apply (known_dying _ _ _ _ _ i); [done|].
  eapply triple_bind; [by apply dying_free_thread|intros ?].
  eapply triple_bind; [apply dying_clear, clearing_slot|intros ?]. by apply IH.
Qed.

Lemma keeps_tgkill_loop me fuel : keeps me (tgkill_loop me fuel : K _).
Proof. pose proof keeps_reap_threads. induction fuel; cbn [tgkill_loop]; keep. Qed.

Lemma keeps_tgkill me fuel : keeps me (tgkill me fuel : K _).
Proof.
  pose proof keeps_tgkill_loop. unfold tgkill. keep. intros b R HR. apply triple_change.
  intros s0 s Hs. eapply base_calm; [done|done|]. apply calm_map, gentle_kill_thread.
Qed.

Lemma keeps_join_loop me i leader fuel : keeps me (join_loop me i leader fuel : K _).
Proof.
  induction fuel as [|fuel IH]; simpl; [keep|]. apply keeps_bind; [keep|intros k].
  case_match; [keep|]. apply keeps_p_then. intros s b R HR.
  case_match eqn:E; [|apply keeps_known; [done|keep]]. apply bool_decide_eq_true in E.
  apply (known_dying _ _ _ _ _ i); [done|].
  eapply triple_bind; [by apply dying_free_thread|intros ?].
  eapply triple_bind; [by apply dying_clear|intros ?].
  assert (keeps me (release LPtable;; mret (tid (slot_of s i)) : K Z)) as Hk by keep. by apply Hk.
Qed.

Lemma keeps_join me t fuel : keeps me (join me t fuel : K _).
Proof. pose proof keeps_join_loop. unfold join. keep. Qed.

Lemma keeps_wait_scan me js h : keeps me (wait_scan me js h : K _).
Proof.
  revert h. induction js as [|i js IH]; intros h; simpl; [keep|].
  apply keeps_bind; [unfold is_child; keep|intros c]. case_match; [done|].
  apply keeps_p_then. intros s b R HR.
  case_match eqn:E; [|by apply keeps_known]. apply andb_true_iff in E as [E%bool_decide_eq_true _].
  apply (known_dying _ _ _ _ _ i); [done|].
  eapply triple_bind; [by apply dying_lift|intros ?].
  eapply triple_bind; [apply dying_upd|intros ?].
  eapply triple_bind; [by apply dying_lift|intros ?].
  eapply triple_bind; [apply dying_clear, clearing_slot|intros ?]. by apply keeps_ret.
Qed.

Lemma keeps_wait_loop me fuel : keeps me (wait_loop me fuel : K _).
Proof. pose proof keeps_wait_scan. induction fuel; cbn [wait_loop]; keep. Qed.

Lemma keeps_wait me fuel : keeps me (wait me fuel : K _).
Proof. pose proof keeps_wait_loop. unfold wait. keep. Qed.

Lemma keeps_growproc me n : keeps me (growproc me n : K _).
Proof. unfold growproc, switchuvm, null. keep. Qed.

Lemma keeps_sys_sbrk me n : keeps me (sys_sbrk me n : K _).
Proof. pose proof keeps_growproc. unfold sys_sbrk, null. keep. Qed.

(** * exit *)

Lemma keeps_close_files me fds : keeps me (close_files me fds : K _).
Proof. pose proof keeps_fileclose. induction fds; simpl; keep. Qed.

Lemma keeps_reparent me js : keeps me (reparent me js : K _).
Proof. induction js; simpl; keep. Qed.

Lemma keeps_exit me fuel : keeps me (exit me fuel : K _).
Proof.
  pose proof keeps_close_files. pose proof keeps_reparent. pose proof keeps_tgkill.
  unfold exit, null.
  repeat first [ apply keeps_part; [intros p; repeat split; auto|]
               | solve [eauto with keeps] | apply keeps_bind; [|intros ?] | case_match ].
Qed.

(** * clone *)

(** What is known of the slot being built: while it has only a pid, once it
    has its kernel stack, and once its ids are final. *)
Definition has_pid (p : proc) : Prop := (tid p = 0 \/ tid p = -1) /\ 0 < pid p.
Definition has_stack (p : proc) : Prop := has_pid p /\ kstack p <> 0.
Definition has_ids (p : proc) : Prop := 0 < ident p /\ kstack p <> 0.

Lemma core_has_pid : core_prop has_pid.
Proof. intros p p' (_ & H2 & H3 & _) [? ?]. unfold has_pid. by rewrite H2, H3. Qed.
Lemma core_has_stack : core_prop has_stack.
Proof.
  intros p p' Hc [H1 H2]. split; [by eapply core_has_pid|]. by destruct Hc as (_ & _ & _ & ->).
Qed.
Lemma core_has_ids : core_prop has_ids.
Proof.
  intros p p' (_ & H2 & H3 & H4) [H5 H6]. unfold has_ids, ident in *. by rewrite H2, H3, H4.
Qed.

(** Nobody else's slot is the one being built. *)
Lemma build_other me s0 s np x :
  guar me s0 s -> building s = Some np -> state (slot_of s0 x) = EMBRYO -> building s0 <> Some x -> x <> np.
Proof. intros Hg Hb Hx Hbx ->. destruct (gu_build _ _ _ Hg np Hb) as (_ & [?|?]); congruence. Qed.

(** Updates of the slot being built, which stays so or becomes final. *)
Lemma base_own me b (R R' : proc -> Prop) s0 s np f :
  base me (Some np) R s0 s ->
  (forall p, R p -> ident (f p) = ident p) ->
  (forall p, R p -> state p = EMBRYO ->
     (b = Some np /\ state (f p) = EMBRYO /\ R' (f p))
     \/ (b = None /\ state (f p) = EMBRYO)
     \/ (b = None /\ state (f p) = UNUSED /\ (tid (f p) = 0 \/ tid (f p) = -1))
     \/ (b = None /\ state (f p) = RUNNABLE /\ kstack (f p) <> 0)) ->
  base me b R' s0 (put_building b (upd np f s)).
Proof.
  intros (Hg & [H1 H2 H3 H4 H5 H6] & Hr & Hb & Hx) Hid Hcase.
  pose proof (Hx np eq_refl) as HR. pose proof Hg as [G1 G2 G3 G4].
  destruct (G3 np Hb) as [He Hb0]. specialize (Hcase _ HR He). specialize (Hid _ HR).
  assert (np < length (procs s))%nat as Hlt by (apply used_slot; congruence).
  assert (forall x, slot_of (put_building b (upd np f s)) x = slot_of (upd np f s) x) as Hsl by done.
  assert (np <> me) as Hnm by (intros ->; congruence).
  assert (forall x, ident (slot_of (upd np f s) x) = ident (slot_of s x)) as Hids.
  { intros x. destruct (decide (x = np)) as [->|]; [by rewrite slot_upd_eq|by rewrite slot_upd_ne]. }
  split; [|split; [|split; [by rewrite Hsl, slot_upd_ne|split; [done|]]]].
  - split.
    + intros x Hx0 Hbx. rewrite Hsl, slot_upd_ne; [by apply G1|]. by eapply build_other.
    + intros x Hne. rewrite Hsl, <- (G2 x Hne). destruct (decide (x = np)) as [->|]; [|by rewrite slot_upd_ne].
      rewrite slot_upd_eq, He by done. intuition congruence.
    + intros x Hbx. simpl in Hbx. rewrite Hsl. assert (x = np) as -> by intuition congruence.
      rewrite slot_upd_eq by done. split; [intuition congruence|done].
    + intros x Hne Hx0. rewrite Hsl, slot_upd_ne; [by apply G4|].
      intros ->. apply (G2 np Hne) in Hx0. congruence.
  - split; simpl; [by rewrite length_alter|done|..]; intros x.
    + rewrite Hsl, Hids. apply H3.
    + intros y. rewrite !Hsl, !Hids. apply H4.
    + rewrite Hsl. destruct (decide (x = np)) as [->|]; [|rewrite slot_upd_ne by done; apply H5].
      rewrite slot_upd_eq by done. unfold live.
      by destruct Hcase as [(_ & -> & _)|[(_ & ->)|[(_ & -> & _)|(_ & -> & ?)]]].
    + rewrite Hsl. destruct (decide (x = np)) as [->|]; [|rewrite slot_upd_ne by done; apply H6].
      rewrite slot_upd_eq by done. intuition congruence.
  - intros x Hbx. rewrite Hsl. assert (x = np) as -> by intuition congruence.
    rewrite slot_upd_eq by done. intuition congruence.
Qed.

Lemma first_spec f l i : first f l = Some i -> exists p, l !! i = Some p /\ f p = true.
Proof.
  revert i. induction l as [|p l IH]; intros i; simpl; [done|]. destruct (f p) eqn:E.
  - intros [= <-]. by exists p.
  - destruct (first f l) as [j|] eqn:Ej; [|done]. intros [= <-]. by apply IH.
Qed.

Lemma triple_acquire_fresh me b R lk :
  core_prop R -> triple me (base me b R) (acquire lk : K _)
                   (fun _ s0 s => procs s = procs s0 /\ base me b R s0 s).
Proof.
  intros HR s0 s (Hg & Hi & Hr & Hb & Hx). unfold acquire. case_match; [done|]. simpl.
  split; [done|]. split; [done|]. split; [done|]. intros s' Hre Hi' _. split; [done|].
  apply (base_resume me b R s s'); try done; try (by apply (re_run _ _ _ Hre)).
  intros x Hbx. apply (gu_build _ _ _ Hg). congruence.
Qed.

(** Two updates in a row. *)
Lemma triple_two {A} me (P P' : kst FS -> kst FS -> Prop) f g (m : K A) Q :
  (forall s0 s, P s0 s -> P' s0 (g (f s))) -> triple me P' m Q ->
  triple me P (change f;; change g;; m) Q.
Proof. intros H Hm s0 s HP. apply Hm. by apply H. Qed.

(** The slot that allocproc takes. *)
Lemma base_alloc me R s0 s np :
  base me None R s0 s -> procs s = procs s0 -> state (slot_of s np) = UNUSED ->
  (np < length (procs s))%nat ->
  base me (Some np) has_pid s0
    (put_building (Some np) (put_nextpid (nextpid s + 1)
       (upd np (fun p => set_pid (nextpid s) (set_state EMBRYO p)) s))).
Proof.
  intros ([G1 G2 G3 G4] & [H1 H2 H3 H4 H5 H6] & Hr & Hb & Hx) Hp Hu Hlt.
  set (f := fun p => set_pid (nextpid s) (set_state EMBRYO p)).
  set (s1 := put_building _ _).
  assert (forall x, slot_of s1 x = slot_of (upd np f s) x) as Hsl by done.
  assert (np <> me) as Hnm by (intros ->; congruence).
  pose proof (H6 np Hu) as Ht.
  assert (ident (f (slot_of s np)) = nextpid s) as Hid.
  { unfold ident. simpl. by destruct Ht as [-> | ->]. }
  split; [|split; [|split; [by rewrite Hsl, slot_upd_ne|split; [done|]]]].
  - split.
    + intros x Hx0 Hbx. rewrite Hsl, slot_upd_ne; [by apply G1|].
      intros ->. destruct (G1 np Hx0 Hbx). congruence.
    + intros x Hne. rewrite Hsl, <- (G2 x Hne). destruct (decide (x = np)) as [->|]; [|by rewrite slot_upd_ne].
      rewrite slot_upd_eq, Hu by done. done.
    + intros x [= <-]. rewrite Hsl, slot_upd_eq by done. split; [done|]. right.
      unfold slot_of in *. by rewrite <- Hp.
    + intros x Hne Hx0. rewrite Hsl, slot_upd_ne; [by apply G4|].
      intros ->. apply (G2 np Hne) in Hx0. congruence.
  - split; simpl; [by rewrite length_alter|lia|..]; intros x.
    + rewrite Hsl. destruct (decide (x = np)) as [->|].
      * rewrite slot_upd_eq, Hid by done. lia.
      * rewrite slot_upd_ne by done. specialize (H3 x). lia.
    + intros y. rewrite !Hsl. specialize (H3 x) as H3x. specialize (H3 y) as H3y.
      destruct (decide (x = np)) as [->|], (decide (y = np)) as [->|]; [done|..];
        rewrite ?slot_upd_eq, ?Hid by done; rewrite ?slot_upd_ne by done; try lia. apply H4.
    + rewrite Hsl. destruct (decide (x = np)) as [->|]; [by rewrite slot_upd_eq|].
      rewrite slot_upd_ne by done. apply H5.
    + rewrite Hsl. destruct (decide (x = np)) as [->|]; [by rewrite slot_upd_eq|].
      rewrite slot_upd_ne by done. apply H6.
  - intros x [= <-]. rewrite Hsl, slot_upd_eq by done. split; [done|]. simpl. lia.
Qed.

Lemma put_building_id b s : building s = b -> put_building b s = s.
Proof. destruct s. simpl. by intros ->. Qed.

Lemma triple_own me R R' np f :
  (forall p, R p -> ident (f p) = ident p) ->
  (forall p, R p -> state p = EMBRYO -> state (f p) = EMBRYO /\ R' (f p)) ->
  triple me (base me (Some np) R) (p_set np f : K _) (fun _ => base me (Some np) R').
Proof.
  intros H1 H2. apply triple_change. intros s0 s Hs.
  rewrite <- (put_building_id (Some np) (upd np f s)) by apply Hs.
  apply (base_own me (Some np) R); [done|done|]. intros p HR He. left.
  destruct (H2 p HR He). done.
Qed.

Lemma base_weaken me b (R R' : proc -> Prop) s0 s :
  (forall p, R p -> R' p) -> base me b R s0 s -> base me b R' s0 s.
Proof. intros H (H1 & H2 & H3 & H4 & H5). repeat (split; [done|]). auto. Qed.

(** Whether a call went on building, or gave up. *)
Definition or_done (me np : nat) (R : proc -> Prop) (r : option Z) : kst FS -> kst FS -> Prop :=
  match r with
  | None => base me (Some np) R
  | Some _ => base me None (fun _ => True)
  end.

Lemma triple_allocproc me :
  triple me (base me None (fun _ => True)) (allocproc : K _)
    (fun r => match r with
              | None => base me None (fun _ => True)
              | Some np => base me (Some np) has_stack
              end).
Proof.
  eapply triple_bind; [by apply triple_acquire_fresh|intros ?].
  eapply triple_bind; [apply triple_get|intros s].
  destruct (first (fun p => bool_decide (state p = UNUSED)) (procs s)) as [np|] eqn:Ef.
  2:{ apply (triple_bind _ _ _ (fun _ => base me None (fun _ => True))); [|by intros ? ? ?].
      intros s0 s1 (_ & _ & Hs). by apply (triple_release me None (fun _ => True)). }
  apply first_spec in Ef as (p & Hp' & Hu%bool_decide_eq_true).
  assert (slot_of s np = p) as Hsl by (unfold slot_of; by rewrite Hp').
  destruct (nextpid s =? 2 ^ 31 - 1); [apply triple_panic|].
  eapply (triple_two me _ (base me (Some np) has_pid)).
  { intros s0 s1 (-> & Hp & Hs). 
    exact (base_alloc me (fun _ => True) s0 s1 np Hs Hp ltac:(congruence) ltac:(by eapply lookup_lt_Some)). }
  eapply triple_bind; [apply triple_release, core_has_pid|intros ?].
  eapply triple_bind; [apply triple_mem, core_has_pid|intros k].
  eapply triple_bind.
  { apply (triple_own me has_pid (fun p => has_pid p /\ kstack p = k)); [done|]. intros q Hq He. done. }
  intros ?. destruct (Z.eqb_spec k 0) as [->|Hk].
  - eapply (triple_two me _ (base me None (fun _ => True))); [|by intros ? ? ?].
    intros s0 s1 Hb. apply (base_own me None _ _ _ _ np) with (1 := Hb); [done|].
    intros q [Hq _] He. right. right. left. split; [done|]. split; [done|]. apply Hq.
  - eapply triple_bind.
    { apply (triple_own me _ has_stack).
      - intros q [[Hq _] _]. unfold ident. simpl. by destruct Hq as [-> | ->].
      - intros q [[Hq1 Hq2] Hq3] He. split; [done|]. split; [|simpl; congruence].
        split; [by right|done]. }
    intros ?. eapply triple_bind; [by apply triple_silent; [apply core_has_stack|]|]. intros ?.
    by intros s0 s1 Hb.
Qed.

Lemma triple_clone_fail me np :
  triple me (base me (Some np) has_stack) (clone_fail np : K _) (fun _ => base me None (fun _ => True)).
Proof.
  eapply triple_bind; [apply (keeps_p me np kstack), core_has_stack|intros k].
  eapply triple_bind; [apply triple_mem, core_has_stack|intros ?].
  eapply (triple_two me _ (base me None (fun _ => True))); [|by intros ? ? ?].
  intros s0 s1 Hb. apply (base_own me None _ _ _ _ np) with (1 := Hb); [done|].
  intros q [[Hq _] _] He. right. right. left. done.
Qed.

(** Leaving the slot behind, unfinished. *)
Lemma triple_abandon me R np :
  triple me (base me (Some np) R) (change (put_building None) : K _) (fun _ => base me None (fun _ => True)).
Proof.
  apply triple_change. intros s0 s (Hg & Hi & Hr & Hb & Hx). split; [|split; [by apply (inv_silent s)|done]].
  destruct Hg as [G1 G2 G3 G4]. by split.
Qed.

(** Steps that keep what is known of the slot. *)
Lemma own_keeps {A B} me np (m : K A) (f : A -> K B) Q :
  keeps me m -> (forall a, triple me (base me (Some np) has_stack) (f a) Q) ->
  triple me (base me (Some np) has_stack) (m ≫= f) Q.
Proof. intros Hm Hf. eapply triple_bind; [by apply Hm, core_has_stack|done]. Qed.

(** A way out of clone. *)
Lemma triple_give_up me np :
  triple me (base me (Some np) has_stack) (r ← clone_fail np; mret (Some r)) (or_done me np has_stack).
Proof. eapply triple_bind; [apply triple_clone_fail|]. by intros r s0 s Hs. Qed.

Lemma triple_clone_memory me np leader cs flags :
  triple me (base me (Some np) has_stack) (clone_memory me np leader cs flags : K _) (or_done me np has_stack).
Proof.
  apply own_keeps; [keep|intros l].
  apply (triple_bind _ _ _ (or_done me np has_stack)).
  - destruct (testf flags CLONE_VM); [apply own_keeps; [keep|by intros ? s0 s Hs]|].
    apply own_keeps; [keep|intros d]. apply own_keeps; [keep|intros ?].
    case_match; [apply triple_give_up|by intros s0 s Hs].
  - intros [r|]; [by intros s0 s Hs|]. simpl. destruct (testf flags CLONE_VM).
    + case_match; [|apply own_keeps; [keep|by intros ? s0 s Hs]].
      apply own_keeps; [keep|intros t]. apply own_keeps; [keep|intros ?].
      case_match; [apply triple_give_up|apply own_keeps; [keep|by intros ? s0 s Hs]].
    + apply own_keeps; [keep|intros ?]. case_decide; [by intros s0 s Hs|].
      do 3 (apply own_keeps; [keep|intros ?]). case_match; [|by intros s0 s Hs].
      eapply triple_bind; [apply triple_abandon|]. by intros ? s0 s Hs.
Qed.

Lemma triple_clone_frame me np leader func flags args :
  triple me (base me (Some np) has_stack) (clone_frame me np leader func flags args : K _)
    (or_done me np has_stack).
Proof.
  do 3 (apply own_keeps; [keep|intros ?]). destruct (testf flags CLONE_VM).
  - apply own_keeps; [keep|intros r]. case_match; [apply triple_give_up|].
    apply own_keeps; [keep|by intros ? s0 s Hs].
  - apply own_keeps; [keep|by intros ? s0 s Hs].
Qed.

Lemma keeps_clone_files me np flags fds : keeps me (clone_files me np flags fds : K _).
Proof.
  pose proof keeps_filealloc. pose proof keeps_filedup.
  induction fds; simpl; unfold f_set, null; keep.
Qed.

Lemma triple_clone me func cs flags args :
  triple me (base me None (fun _ => True)) (clone me func cs flags args : K _)
    (fun _ => base me None (fun _ => True)).
Proof.
  eapply triple_bind; [apply triple_allocproc|]. intros [np|]; [|by intros s0 s Hs].
  apply own_keeps; [keep|intros s]. destruct (THREAD_LEADER s me) as [leader|]; [|apply triple_panic].
  do 2 (apply own_keeps; [keep|intros ?]).
  eapply triple_bind; [apply triple_clone_memory|]. intros [r|]; [by intros ? ? ?|].
  eapply triple_bind; [apply triple_clone_frame|]. intros [r|]; [by intros ? ? ?|].
  apply own_keeps; [apply keeps_clone_files|intros ?].
  apply own_keeps; [unfold null; keep|intros ?].
  do 2 (apply own_keeps; [keep|intros ?]).
  apply (triple_bind _ _ _ (fun _ => base me (Some np) has_ids)).
  - destruct (testf flags CLONE_THREAD);
      (eapply triple_bind; [|intros ?; apply (keeps_p me np), core_has_ids]);
      apply (triple_own me has_stack has_ids).
    + intros p [[Hp1 Hp2] _]. unfold ident. simpl. rewrite (proj2 (Z.eqb_neq (pid p) (-1))) by lia.
      rewrite (proj2 (Z.eqb_neq (pid p) 0)) by lia. by destruct Hp1 as [-> | ->].
    + intros p [[Hp1 Hp2] Hp3] He. split; [done|]. split; [|done].
      unfold ident. simpl. rewrite (proj2 (Z.eqb_neq (pid p) (-1))) by lia.
      by rewrite (proj2 (Z.eqb_neq (pid p) 0)) by lia.
    + intros p [[Hp1 Hp2] _]. unfold ident. simpl. by destruct Hp1 as [-> | ->].
    + intros p [[Hp1 Hp2] Hp3] He. split; [done|]. by split.
  - intros retid. eapply triple_bind; [apply triple_acquire, core_has_ids|intros ?].
    eapply (triple_two me _ (base me None (fun _ => True))).
    + intros s0 s1 Hb. apply (base_own me None _ _ _ _ np) with (1 := Hb); [done|].
      intros p [_ Hk] He. do 3 right. done.
    + eapply triple_bind; [by apply triple_release|]. by intros ? ? ? ?.
Qed.

Lemma triple_fork me :
  triple me (base me None (fun _ => True)) (fork me : K _) (fun _ => base me None (fun _ => True)).
Proof. eapply triple_bind; [by apply (keeps_p me)|]. intros e. apply triple_clone. Qed.

End calls3.
