(* ===== verification/Machine.v ===== *)
(** The machine: the processes interleaved on any number of CPUs.  A process
    in user mode may enter the kernel with any call; in the kernel it goes
    on from its switch points when it holds the lock it waits for, or when
    the scheduler picks it. *)

From S2P Require Import Prelude Mmu Kalloc Vm Kernel Sched Pipe Thread Rely Calls VmUser.

(** * Definitions *)

(** The ways into the kernel: system calls and the clock. *)
Inductive entry :=
| EFork | EClone (func child_stack flags args : Z) | EExit | EWait | EJoin (tid : Z)
| EKill (pid : Z) | ETkill (tid : Z) | ETgkill | ETsuspend | ETresume (tid : Z) | EYield | ESbrk (n : Z) | ESleep (n : Z)
| EPipe | EClose (f : nat) | ERead (f : nat) (n : Z) | EWrite (f : nat) (l : list Z) | ETick.

Section calls.
Context {FS : Type} `{L : Link} `{T : Tables} `{I : Inodes FS}.

Definition kernel (me fuel : nat) (e : entry) : K FS Z :=
  match e with
  | EFork => fork me
  | EClone func child_stack flags args => clone me func child_stack flags args
  | EExit => exit me fuel
  | EWait => wait me fuel
  | EJoin t => join me t fuel
  | EKill p => kill p
  | ETkill t => tkill me t
  | ETgkill => tgkill me fuel
  | ETsuspend => tsuspend me
  | ETresume t => tresume me t
  | EYield => yield me;; mret 0
  | ESbrk n => sys_sbrk me n
  | ESleep n => sys_sleep me n fuel
  | EPipe => r ← pipealloc me; mret (match r with Some _ => 0 | None => -1 end)
  | EClose f => fileclose me f;; mret 0
  | ERead f n => r ← fileread me f n fuel; mret (fst r)
  | EWrite f l => filewrite me f l fuel
  | ETick => tick;; mret 0
  end.

(** An entry and the turns of the loops that wait. *)
Definition kernel_call (me : nat) (c : entry * nat) : K FS Z := kernel me (snd c) (fst c).

End calls.

(** Every entry but tresume, which makes a slot runnable whatever it is. *)
Definition no_tresume {FS} (s : kst FS) (i : nat) (c : entry * nat) : bool :=
  match fst c with ETresume _ => false | _ => true end.

(** The kernel is entered with [kern i e] by the process in slot [i];
    between the steps of the processes the devices and the user code change
    the state as [world] says. *)
Section machine.
Context {FS E : Type} (kern : nat -> E -> K FS Z) (world : kst FS -> kst FS -> Prop).
Implicit Types s : kst FS.

(** Where a process stopped: why, the state it left, and what is left to do. *)
Record stop := Stop { st_why : why; st_snap : kst FS; st_cont : kst FS -> outcome FS Z }.

Record machine := Mach { ks : kst FS; conts : nat -> option stop }.

(** The saved context of a slot goes when the slot is given back or taken
    by a new process: allocproc sets a new one. *)
Definition keeps_context (p : proc) : bool :=
  match state p with UNUSED | EMBRYO => false | _ => true end.

Definition settle (i : nat) (m : machine) s (c : option stop) : machine :=
  Mach s (fun x => if keeps_context (slot_of s x) then (if decide (x = i) then c else conts m x) else None).

(** The process in slot [i] runs until it returns to user mode or stops; a
    panic stops the machine. *)
Definition run (i : nat) (m : machine) (o : outcome FS Z) : option machine :=
  match o with
  | Done _ s => Some (settle i m s None)
  | Switch w s k => Some (settle i m s (Some (Stop w s k)))
  | Halt _ _ | Fuel _ => None
  end.

(** [allowed] are the entries that user programs make: which ones, from
    which slot and in which state. *)
Inductive mstep (allowed : kst FS -> nat -> E -> bool) (m : machine) : machine -> Prop :=
| ms_enter i e m' :
    allowed (ks m) i e = true -> conts m i = None -> state (slot_of (ks m) i) = RUNNING ->
    run i m (kern i e (put_building None (put_mine [] (ks m)))) = Some m' -> mstep allowed m m'
| ms_lock i lk s k m' :
    conts m i = Some (Stop (SwAcquire lk) s k) -> lk ∉ locked (ks m) ->
    run i m (k (ks m)) = Some m' -> mstep allowed m m'
| ms_sched i s k m' :
    conts m i = Some (Stop SwSched s k) -> state (slot_of (ks m) i) = RUNNABLE ->
    run i m (k (upd i (set_state RUNNING) (ks m))) = Some m' -> mstep allowed m m'
| ms_first i :
    conts m i = None -> state (slot_of (ks m) i) = RUNNABLE ->
    mstep allowed m (Mach (upd i (set_state RUNNING) (ks m)) (conts m))
| ms_world s : world (ks m) s -> mstep allowed m (Mach s (conts m)).

Inductive reachable (allowed : kst FS -> nat -> E -> bool) (m0 : machine) : machine -> Prop :=
| mreach_refl : reachable allowed m0 m0
| mreach_step m m' : reachable allowed m0 m -> mstep allowed m m' -> reachable allowed m0 m'.

(** A machine whose processes are all in user mode or new. *)
Definition fresh_machine (m : machine) : Prop := inv (ks m) /\ forall i, conts m i = None.

(** * The invariant of the machine *)

Definition back_to_user (i : nat) (s0 : kst FS) (a : Z) (s : kst FS) : Prop :=
  base i None (fun _ => True) s0 s.

Record stop_ok (m : machine) (i : nat) (c : stop) : Prop := {
  sp_state : match st_why c with
             | SwAcquire _ => state (slot_of (ks m) i) = RUNNING
             | SwSched => state (slot_of (ks m) i) <> RUNNING
             end;
  sp_rely : rely i (st_snap c) (ks m);
  sp_embryo : forall x, building (st_snap c) = Some x -> state (slot_of (st_snap c) x) = EMBRYO;
  sp_safe : forall s', rely i (st_snap c) s' -> inv s' -> ready i (st_why c) s' ->
    safe i (locals (st_snap c) s') (st_cont c (enter i (st_why c) s')) (back_to_user i);
}.

Record machine_ok (m : machine) : Prop := {
  mo_inv : inv (ks m);
  mo_stop : forall i c, conts m i = Some c -> stop_ok m i c;
  mo_build : forall i j c d x, conts m i = Some c -> conts m j = Some d -> i <> j ->
    building (st_snap c) = Some x -> building (st_snap d) <> Some x;
}.

Variable allowed : kst FS -> nat -> E -> bool.
Hypothesis kern_safe : forall me e s, allowed s me e = true ->
  triple me (fun s0 s' => procs s' = procs s /\ base me None (fun _ => True) s0 s')
    (kern me e) (fun _ => base me None (fun _ => True)).
Hypothesis world_silent : forall s s', world s s' -> procs s' = procs s /\ nextpid s' = nextpid s.

(** What one process does is compatible with the stops of the others. *)
Lemma rely_step i j s0 s c :
  j <> i -> guar i s0 s -> rely j (st_snap c) s0 ->
  (forall x, building (st_snap c) = Some x ->
     state (slot_of (st_snap c) x) = EMBRYO /\ building s0 <> Some x) ->
  rely j (st_snap c) s.
Proof.
  intros Hne [G1 G2 G3 G4] [R1 R2 R3] Hb. split.
  - intros Hr. by apply G2; [|apply R1].
  - intros x Hx. destruct (Hb x Hx) as [He Hn]. destruct (R2 x Hx) as (A1 & A2 & A3 & A4).
    destruct (G1 x) as (B1 & B2 & B3 & B4); [congruence|done|].
    repeat split; congruence.
  - intros Hr. rewrite <- (R3 Hr). by apply G4; [|apply R1].
Qed.

(** The process in slot [i] ran from [s0], the machine's state with its own
    locals, to [s], keeping its guarantee, and left [c] behind. *)
Section settled.
Variables (m : machine) (i : nat) (s0 s : kst FS) (c : option stop).
Hypothesis Hm : machine_ok m.
Hypothesis Hprocs : procs s0 = procs (ks m).
Hypothesis Hbuild : forall j d x, conts m j = Some d -> j <> i ->
  building s0 = Some x -> building (st_snap d) <> Some x.
Hypothesis Hg : guar i s0 s.
Hypothesis Hi : inv s.
Hypothesis Hc : forall d, c = Some d -> st_snap d = s /\ stopped i (st_why d) s
  /\ forall s', rely i s s' -> inv s' -> ready i (st_why d) s' ->
       safe i (locals s s') (st_cont d (enter i (st_why d) s')) (back_to_user i).

Local Lemma slot_start x : slot_of s0 x = slot_of (ks m) x.
Proof using Hprocs. unfold slot_of. by rewrite Hprocs. Qed.

Local Lemma rely_start j d : rely j (st_snap d) (ks m) -> rely j (st_snap d) s0.
Proof using Hprocs. intros [R1 R2 R3]. split; [|intros x|]; rewrite slot_start; auto. Qed.

Local Lemma other_stop j d : j <> i -> conts m j = Some d -> stop_ok (settle i m s c) j d.
Proof using Hm Hprocs Hbuild Hg.
  intros Hne Hd. destruct (mo_stop m Hm j d Hd) as [S1 S2 S3 S4].
  split; [| |done|done]; simpl.
  - pose proof (gu_run _ _ _ Hg j Hne) as Hr. rewrite slot_start in Hr.
    destruct (st_why d); [by apply Hr|]. intros Hx. by apply S1, Hr.
  - apply (rely_step i j s0); [done..|by apply rely_start|].
    intros x Hx. split; [by apply S3|]. intros Hb. by apply (Hbuild j d x).
Qed.

Local Lemma own_stop d : c = Some d -> stop_ok (settle i m s c) i d.
Proof using Hg Hc.
  intros Hd. destruct (Hc d Hd) as (Hs & Hst & Hsafe). split; simpl; rewrite ?Hs.
  - destruct (st_why d); [done|]. simpl in Hst. intros Hr. rewrite Hr in Hst. by destruct Hst as [?|[?|?]].
  - split; [done| |done]. intros x _. by repeat split.
  - intros x Hx. by apply (gu_build _ _ _ Hg).
  - done.
Qed.

Local Lemma settled_conts j d : conts (settle i m s c) j = Some d ->
  (j = i /\ c = Some d) \/ (j <> i /\ conts m j = Some d).
Proof using. simpl. clear. destruct (keeps_context _), (decide (j = i)); naive_solver. Qed.

Local Lemma own_build d j e x : c = Some d -> j <> i -> conts m j = Some e ->
  building (st_snap d) = Some x -> building (st_snap e) <> Some x.
Proof using Hm Hprocs Hbuild Hg Hc.
  intros Hd Hne He Hx Hy. destruct (Hc d Hd) as (Hs & _). rewrite Hs in Hx.
  destruct (gu_build _ _ _ Hg x Hx) as [_ [Hb|Hu]]; [by apply (Hbuild j e x)|].
  destruct (mo_stop m Hm j e He) as [_ [_ S2 _] S3 _]. rewrite slot_start in Hu.
  destruct (S2 x Hy) as [S _]. rewrite S, (S3 x Hy) in Hu. done.
Qed.

Lemma machine_settle : machine_ok (settle i m s c).
Proof using Hm Hprocs Hbuild Hg Hi Hc.
  split; [done| |].
  - intros j d Hd. destruct (settled_conts _ _ Hd) as [[-> ?]|[? ?]]; [by apply own_stop|by apply other_stop].
  - intros j k d e x Hd He Hne Hx Hy.
    destruct (settled_conts _ _ Hd) as [[-> ?]|[? ?]], (settled_conts _ _ He) as [[-> ?]|[? ?]].
    + done.
    + by apply (own_build d k e x).
    + by apply (own_build e j d x).
    + by apply (mo_build m Hm j k d e x).
Qed.

End settled.

Lemma machine_run m i s0 o m' :
  machine_ok m -> procs s0 = procs (ks m) ->
  (forall j d x, conts m j = Some d -> j <> i -> building s0 = Some x -> building (st_snap d) <> Some x) ->
  safe i s0 o (back_to_user i) -> run i m o = Some m' -> machine_ok m'.
Proof.
  intros Hm Hp Hb Hs. destruct o as [a s|msg s|s|w s k]; simpl in *; try discriminate; intros [= <-].
  - destruct Hs as (Hg & Hi & _). by apply (machine_settle m i s0).
  - destruct Hs as (Hg & Hi & Hst & Hk). apply (machine_settle m i s0); try done.
    by intros d [= <-].
Qed.

Lemma machine_resume m i w s k m' :
  machine_ok m -> conts m i = Some (Stop w s k) -> ready i w (ks m) ->
  run i m (k (enter i w (ks m))) = Some m' -> machine_ok m'.
Proof.
  intros Hm Hc Hr. pose proof (mo_stop m Hm i _ Hc) as [S1 S2 S3 S4]. simpl in *.
  apply (machine_run m i (locals s (ks m))); [done|done| |by apply S4; [| apply Hm|]].
  intros j d x Hj Hne Hx. by apply (mo_build m Hm i j _ d x Hc).
Qed.

Lemma machine_first m i :
  machine_ok m -> conts m i = None -> state (slot_of (ks m) i) = RUNNABLE ->
  machine_ok (Mach (upd i (set_state RUNNING) (ks m)) (conts m)).
Proof.
  intros Hm Hc Hr. split; simpl; [by apply inv_run; [apply Hm|]| |apply Hm].
  intros j d Hd. destruct (mo_stop m Hm j d Hd) as [S1 [R1 R2 R3] S3 S4].
  assert (j <> i) by congruence. split; simpl; [by rewrite slot_upd_ne| |done|done].
  split; [rewrite slot_upd_ne by done; done| |rewrite slot_upd_ne by done; done]. intros x Hx.
  destruct (decide (x = i)) as [->|]; [|rewrite slot_upd_ne by done; by apply R2].
  destruct (R2 i Hx) as [S _]. rewrite (S3 i Hx) in S. congruence.
Qed.

Lemma machine_world m s : machine_ok m -> world (ks m) s -> machine_ok (Mach s (conts m)).
Proof using world_silent.
  intros Hm Hw. destruct (world_silent _ _ Hw) as [Hp Hn].
  assert (forall x, slot_of s x = slot_of (ks m) x) as Hsl by (intros; unfold slot_of; by rewrite Hp).
  split; simpl; [by eapply inv_silent; [| |apply Hm]| |apply Hm].
  intros j d Hd. destruct (mo_stop m Hm j d Hd) as [S1 [R1 R2 R3] S3 S4].
  split; simpl; [by rewrite Hsl| |done|done].
  split; [rewrite Hsl; done| |rewrite Hsl; done]. intros x Hx. rewrite Hsl. by apply R2.
Qed.

Lemma machine_step m m' : machine_ok m -> mstep allowed m m' -> machine_ok m'.
Proof using kern_safe world_silent.
  intros Hm [i e m2 Ha Hc Hr Ho|i lk s k m2 Hc Hf Ho|i s k m2 Hc Hr Ho|i Hc Hr|s Hw].
  - apply (machine_run m i (put_building None (put_mine [] (ks m))) _ _ Hm) in Ho; [done|done|done|].
    apply (kern_safe i e (ks m) Ha). split; [done|]. split; [apply guar_refl; naive_solver|]. split; [|done].
    by apply (inv_silent (ks m)), Hm.
  - by apply (machine_resume m i (SwAcquire lk) s k).
  - by apply (machine_resume m i SwSched s k).
  - by apply machine_first.
  - by apply machine_world.
Qed.

Lemma machine_reachable_ok m0 m : fresh_machine m0 -> reachable allowed m0 m -> machine_ok m.
Proof using kern_safe world_silent.
  intros [Hi Hn]. induction 1 as [|m m' _ IH Hs]; [|by apply (machine_step m)].
  split; [done|..]; intros; rewrite Hn in *; discriminate.
Qed.

(** * What holds of every machine that is reached *)

(** Ids name one slot. *)
Lemma machine_ids m0 m (i j : nat) :
  fresh_machine m0 -> reachable allowed m0 m ->
  let p := slot_of (ks m) i in let q := slot_of (ks m) j in
  (tid p = -1 -> tid q = -1 -> pid p = pid q -> 0 < pid p -> i = j)
  /\ (0 < tid p -> tid p = tid q -> i = j)
  /\ (0 < tid p -> tid q = -1 -> pid q <> tid p).
Proof using kern_safe world_silent.
  intros H0 Hr p q. pose proof (mo_inv _ (machine_reachable_ok _ _ H0 Hr)) as Hi.
  pose proof (inv_uniq _ Hi i j) as Hu. unfold ident in Hu. fold p q in Hu.
  repeat split.
  - intros Hp Hq. rewrite Hp, Hq in Hu. simpl in Hu. auto.
  - intros Hp Hq. rewrite <- Hq in Hu.
    destruct (Z.eqb_spec (tid p) (-1)), (Z.eqb_spec (tid p) 0); simpl in Hu; auto; lia.
  - intros Hp Hq He. rewrite Hq in Hu.
    destruct (Z.eqb_spec (tid p) (-1)), (Z.eqb_spec (tid p) 0); simpl in Hu; try lia.
    assert (i = j) as Hij by (apply Hu; lia). subst j. change q with p in Hq. lia.
Qed.

(** States agree with where the processes stopped. *)
Lemma machine_states m0 m (i : nat) :
  fresh_machine m0 -> reachable allowed m0 m ->
  (forall lk s k, conts m i = Some (Stop (SwAcquire lk) s k) -> state (slot_of (ks m) i) = RUNNING)
  /\ (forall s k, conts m i = Some (Stop SwSched s k) -> state (slot_of (ks m) i) <> RUNNING)
  /\ (live (slot_of (ks m) i) = true -> kstack (slot_of (ks m) i) <> 0).
Proof using kern_safe world_silent.
  intros H0 Hr. pose proof (machine_reachable_ok _ _ H0 Hr) as Hm. split; [|split].
  - intros lk s k Hc. exact (sp_state _ _ _ (mo_stop _ Hm i _ Hc)).
  - intros s k Hc. exact (sp_state _ _ _ (mo_stop _ Hm i _ Hc)).
  - apply (inv_kstack _ (mo_inv _ Hm)).
Qed.

(** A slot under construction is its builder's. *)
Lemma machine_embryo m0 m (i x : nat) (c : stop) :
  fresh_machine m0 -> reachable allowed m0 m -> conts m i = Some c -> building (st_snap c) = Some x ->
  same_core (slot_of (st_snap c) x) (slot_of (ks m) x)
  /\ state (slot_of (ks m) x) = EMBRYO
  /\ forall j d, conts m j = Some d -> j <> i -> building (st_snap d) <> Some x.
Proof using kern_safe world_silent.
  intros H0 Hr Hc Hx. pose proof (machine_reachable_ok _ _ H0 Hr) as Hm.
  pose proof (mo_stop _ Hm i c Hc) as [_ Hre Hem _].
  pose proof (re_build _ _ _ Hre x Hx) as Hs. split; [done|]. split.
  - destruct Hs as [-> _]. by apply Hem.
  - intros j d Hd Hne. by apply (mo_build _ Hm i j c d x).
Qed.

End machine.

(** * Execution *)

(** One step, from what is to be done. *)
Section execution.
Context {FS E : Type} (kern : nat -> E -> K FS Z) (world : kst FS -> kst FS -> Prop).
Notation reachable := (reachable kern world).

Definition enter_kernel (i : nat) (e : E) (m : machine (FS := FS)) : machine :=
  match conts m i with
  | None =>
    if decide (state (slot_of (ks m) i) = RUNNING) then
      default m (run i m (kern i e (put_building None (put_mine [] (ks m)))))
    else m
  | Some _ => m
  end.

Definition next (i : nat) (m : machine (FS := FS)) : machine :=
  match conts m i with
  | Some (Stop (SwAcquire lk) s k) =>
    if decide (lk ∉ locked (ks m)) then default m (run i m (k (ks m))) else m
  | Some (Stop SwSched s k) =>
    if decide (state (slot_of (ks m) i) = RUNNABLE)
    then default m (run i m (k (upd i (set_state RUNNING) (ks m)))) else m
  | None =>
    if decide (state (slot_of (ks m) i) = RUNNABLE) then Mach (upd i (set_state RUNNING) (ks m)) (conts m) else m
  end.

Lemma enter_reachable ok m0 m i e :
  ok (ks m) i e = true -> reachable ok m0 m -> reachable ok m0 (enter_kernel i e m).
Proof.
  intros Ha Hr. unfold enter_kernel. destruct (conts m i) eqn:Hc; [done|]. case_decide; [|done].
  destruct (run i m _) eqn:Ho; [|done]. by eapply mreach_step; [|eapply ms_enter].
Qed.

Lemma next_reachable ok m0 m i : reachable ok m0 m -> reachable ok m0 (next i m).
Proof.
  intros Hr. unfold next. destruct (conts m i) as [[[lk|] s k]|] eqn:Hc; [| |case_decide; [|done]; by eapply mreach_step; [|apply ms_first]].
  - case_decide; [|done]. destruct (run i m _) eqn:Ho; [|done]. by eapply mreach_step; [|eapply ms_lock].
  - case_decide; [|done]. destruct (run i m _) eqn:Ho; [|done]. by eapply mreach_step; [|eapply ms_sched].
Qed.
End execution.

(** * A sample *)

(** An inode layer whose calls do nothing. *)
#[local] Instance no_inodes : Inodes unit := {|
  idup n := mret n; iput _ _ := mret tt; begin_op _ := mret tt; end_op _ := mret tt;
  ilock _ _ := mret tt; iunlock _ _ := mret tt; readi _ _ _ _ := mret (0, []);
  writei _ _ _ _ := mret 0; stati _ := mret (Stat 0 0 0 0 0); namei _ _ := mret None |}.

#[local] Instance no_inodes_plain : PlainInodes unit.
Proof. split; intros; apply pl_ret. Qed.

#[local] Instance sample_tables : Tables := {| ptable_proc := KERNBASE + 0x110000 |}.

(** The first process, with a page of memory at 0, and nothing else. *)
Definition sample_init : proc :=
  set_cwd (Some 0%nat) (set_tid (-1) (set_pid 1 (set_state RUNNING (set_kstack (pg 7)
    (set_pgdir (pg 0) (set_sz PGSIZE proc0)))))).
Definition sample_machine : machine (FS := unit) :=
  Mach (Kst sample_grown (sample_init :: replicate 63 proc0) 2 (Some 0%nat) [] ∅ 0 [] [] None tt) (fun _ => None).

Definition quiet (s s' : kst unit) : Prop := False.

Definition start `{L : Link} (i : nat) (e : entry) : machine (FS := unit) -> machine :=
  enter_kernel kernel_call i (e, 100%nat).

Definition sample_stop (m : machine (FS := unit)) (i : nat) : option (why * option nat) :=
  c ← conts m i; mret (st_why c, building (st_snap c)).

#[local] Existing Instance sample_link.

(** The first process has made a slot for a thread, and waits for the
    process table. *)
Definition sample_cloning : machine (FS := unit) :=
  next 0 (start 0 (EClone 0 PGSIZE TFLAGS 5) sample_machine).

Lemma sample_slot (i : nat) :
  i = 0%nat \/ default proc0 ((sample_init :: replicate 63 proc0) !! i) = proc0.
Proof.
  destruct i as [|i]; [by left|right]. change (default proc0 (replicate 63 proc0 !! i) = proc0).
  destruct (decide (i < 63)%nat) as [Hi|Hi].
  - by rewrite lookup_replicate_2.
  - by rewrite lookup_ge_None_2 by (rewrite length_replicate; lia).
Qed.

(** The first process alone satisfies the invariant. *)
Lemma sample_inv {FS} (s : kst FS) :
  procs s = sample_init :: replicate 63 proc0 -> nextpid s = 2 -> inv s.
Proof.
  intros Hp Hn. split; rewrite ?Hp, ?Hn; [done|done|..]; intros i; unfold slot_of; rewrite Hp.
  - destruct (sample_slot i) as [->| ->]; vm_compute; split; congruence.
  - intros j. destruct (sample_slot i) as [->| ->]; [|intros _ H; by vm_compute in H].
    destruct (sample_slot j) as [->|Hj]; [done|]. rewrite Hj. intros H. by vm_compute in H.
  - destruct (sample_slot i) as [->| ->]; vm_compute; congruence.
  - destruct (sample_slot i) as [->| ->]; vm_compute; [congruence|by left].
Qed.

Lemma sample_fresh : fresh_machine sample_machine.
Proof. split; [by apply sample_inv|done]. Qed.

(** The thread has been made; its parent is back in user mode. *)
Definition sample_cloned : machine (FS := unit) := next 0 sample_cloning.
