(* ===== verification/Life.v ===== *)
(** What the calls of proc.c do, whatever the other processes do between
    their switch points: sleep and wakeup, kill, the end of exit, wait,
    join and tgkill. *)

From S2P Require Import Prelude Mmu Kalloc Vm Kernel Sched Pipe Thread Rely Calls VmUser Machine.

(** * Critical sections *)

Section critical.
Context {FS : Type}.
Implicit Types s : kst FS.

(** The state right after the process whose state was [s] got [lk]. *)
Definition granted (lk : lock) s s' : kst FS :=
  put_building (building s) (put_mine (lk :: mine s) (put_locked (lk :: locked s') s')).

Definition unlocked (lk : lock) s : kst FS :=
  put_mine (remove lk (mine s)) (put_locked (remove lk (locked s)) s).

Lemma remove_fresh lk l : lk ∉ l -> remove lk l = l.
Proof.
  intros H. unfold remove. induction l as [|x l IH]; [done|].
  rewrite filter_cons, decide_True; [f_equal; apply IH|]; intros Hx; apply H; [by right|subst; by left].
Qed.

Lemma remove_cons lk l : lk ∉ l -> remove lk (lk :: l) = l.
Proof. intros H. unfold remove. rewrite filter_cons, decide_False by auto. by apply remove_fresh. Qed.

Lemma remove_below lk lk' l : lk' <> lk -> lk ∉ l -> remove lk (remove lk' (lk :: l)) = remove lk' l.
Proof.
  intros Hne H. unfold remove at 2. rewrite filter_cons, decide_True by auto. apply remove_cons.
  unfold remove. rewrite list_elem_of_filter. naive_solver.
Qed.

Lemma holding_fresh lk s : lk ∉ mine s -> holding lk s = false.
Proof. intros H. by apply bool_decide_eq_false. Qed.

Lemma holding_cons lk l s : mine s = lk :: l -> holding lk s = true.
Proof. intros H. apply bool_decide_eq_true. rewrite H. left. Qed.

Lemma acquire_run lk s :
  lk ∉ mine s -> acquire lk s = Switch (SwAcquire lk) s (fun s' => Done tt (granted lk s s')).
Proof. intros H. unfold acquire. by rewrite holding_fresh. Qed.

Lemma release_run lk s : lk ∈ mine s -> release lk s = Done tt (unlocked lk s).
Proof. intros H. unfold release, holding. by rewrite bool_decide_eq_true_2. Qed.

(** Leaving a critical section: the process has the locks of [y] again. *)
Lemma unlocked_eq lk x y :
  mine x = lk :: mine y -> locked x = lk :: locked y -> lk ∉ mine y -> lk ∉ locked y ->
  put_mine (mine y) (put_locked (locked y) x) = y -> unlocked lk x = y.
Proof. intros H1 H2 H3 H4 H5. unfold unlocked. by rewrite H1, H2, !remove_cons. Qed.

Lemma bind_done {A B} (m : K FS A) (f : A -> K FS B) s a s' : m s = Done a s' -> (m ≫= f) s = f a s'.
Proof. intros H. unfold mbind, K_bind. by rewrite H. Qed.

Lemma bind_switch {A B} (m : K FS A) (f : A -> K FS B) s w s' k :
  m s = Switch w s' k -> (m ≫= f) s = Switch w s' (fun s'' => obind (k s'') f).
Proof. intros H. unfold mbind, K_bind. by rewrite H. Qed.

Lemma bind_get {B} (f : kst FS -> K FS B) s : (get ≫= f) s = f s s.
Proof. done. Qed.
Lemma kbind_ret {A B} (a : A) (f : A -> K FS B) s : (mret a ≫= f) s = f a s.
Proof. done. Qed.
Lemma bind_p {A B} i (g : proc -> A) (f : A -> K FS B) s : (p_ i g ≫= f) s = f (g (slot_of s i)) s.
Proof. done. Qed.
Lemma bind_p_set {B} i g (f : unit -> K FS B) s : (p_set i g ≫= f) s = f tt (upd i g s).
Proof. done. Qed.
Lemma bind_change {B} g (f : unit -> K FS B) s : (change g ≫= f) s = f tt (g s).
Proof. done. Qed.
Lemma bind_release {B} lk (f : unit -> K FS B) s :
  lk ∈ mine s -> (release lk ≫= f) s = f tt (unlocked lk s).
Proof. intros H. by rewrite (bind_done _ _ _ _ _ (release_run lk s H)). Qed.
Lemma bind_lift {A B} (m : M pmem A) (f : A -> K FS B) s a m' :
  m (mem s) = OK a m' -> (lift m ≫= f) s = f a (put_mem m' s).
Proof. intros H. unfold mbind, K_bind, lift. by rewrite H. Qed.
(** A call whose body runs with [lk]. *)
Lemma critical_run {A} lk (m : K FS A) s :
  lk ∉ mine s -> (acquire lk;; m) s = Switch (SwAcquire lk) s (fun s' => m (granted lk s s')).
Proof. intros H. by rewrite (bind_switch _ _ _ _ _ _ (acquire_run lk s H)). Qed.

End critical.

(** * kill *)

Section life.
Context {FS : Type} `{L : Link} `{T : Tables} `{I : Inodes FS}.
Implicit Types s : kst FS.

Lemma first_cases (f : proc -> bool) (l : list proc) :
  match first f l with
  | Some i => exists p, l !! i = Some p /\ f p = true /\ forall j q, (j < i)%nat -> l !! j = Some q -> f q = false
  | None => forall j q, l !! j = Some q -> f q = false
  end.
Proof.
  induction l as [|p l IH]; simpl; [done|]. destruct (f p) eqn:Hp; [by exists p; repeat split; [..|lia]|].
  destruct (first f l) as [i|]; simpl.
  - destruct IH as (q & H1 & H2 & H3). exists q. split; [done|]. split; [done|].
    intros [|j] r Hj; simpl; [congruence|]. apply H3. lia.
  - intros [|j] r; simpl; [congruence|]. apply IH.
Qed.

Lemma first_at (f : proc -> bool) s i :
  (i < length (procs s))%nat -> f (slot_of s i) = true ->
  (forall j, (j < i)%nat -> f (slot_of s j) = false) -> first f (procs s) = Some i.
Proof.
  intros Hi Hf Hj. pose proof (first_cases f (procs s)) as H. unfold slot_of in *.
  destruct (lookup_lt_is_Some_2 _ _ Hi) as [p Hp]. rewrite Hp in Hf. simpl in Hf.
  destruct (first f (procs s)) as [j|]; [|by rewrite (H _ _ Hp) in Hf].
  destruct H as (q & H1 & H2 & H3). f_equal.
  destruct (Nat.lt_trichotomy j i) as [Hlt|[->|Hlt]]; [|done|].
  - specialize (Hj j Hlt). rewrite H1 in Hj. simpl in Hj. congruence.
  - rewrite (H3 _ _ Hlt Hp) in Hf. done.
Qed.

Lemma slot_lookup s i p : procs s !! i = Some p -> slot_of s i = p.
Proof. intros H. unfold slot_of. by rewrite H. Qed.

Lemma lookup_slot s i : (i < length (procs s))%nat -> procs s !! i = Some (slot_of s i).
Proof. intros H. unfold slot_of. by destruct (lookup_lt_is_Some_2 _ _ H) as [p ->]. Qed.

Lemma leader_slot s i : tid (slot_of s i) = -1 -> (i < length (procs s))%nat.
Proof.
  intros H. destruct (decide (i < length (procs s))%nat); [done|].
  unfold slot_of in H. by rewrite lookup_ge_None_2 in H by lia.
Qed.

(** kill, whatever state it gets the process table in: if there is a
    group leader with the given pid, that process alone is marked killed and
    woken from its sleep, and kill returns 0; otherwise nothing changes and
    kill returns -1.  Threads of the group are not touched. *)
Theorem kill_spec (pid_ : Z) s :
  LPtable ∉ mine s -> 0 < pid_ ->
  exists k, kill pid_ s = Switch (SwAcquire LPtable) s k
    /\ forall s', inv s' -> LPtable ∉ locked s' ->
       (forall i, pid (slot_of s' i) = pid_ -> tid (slot_of s' i) = -1 ->
          k s' = Done 0 (upd i mark_killed (locals s s'))
          /\ killed (mark_killed (slot_of s' i)) = 1
          /\ state (mark_killed (slot_of s' i)) <> SLEEPING)
       /\ ((forall i, pid (slot_of s' i) = pid_ -> tid (slot_of s' i) <> -1) ->
           k s' = Done (-1) (locals s s')).
Proof.
  intros Hm Hp. unfold kill. rewrite critical_run by done. eexists. split; [done|].
  intros s' Hi Hl. cbv beta. rewrite bind_get.
  pose proof (first_cases (fun p => (pid p =? pid_) && (tid p =? -1)) (procs s')) as Hf.
  change (procs (granted LPtable s s')) with (procs s').
  destruct (first _ (procs s')) as [i|] eqn:Hfi.
  - destruct Hf as (p & H1 & H2 & _). apply slot_lookup in H1 as Hs. subst p.
    apply andb_true_iff in H2 as [H2 H3]. apply Z.eqb_eq in H2, H3. split; [|naive_solver].
    intros j Hj1 Hj2. assert (j = i) as ->.
    { apply (inv_uniq _ Hi); unfold ident; rewrite Hj2, ?H3; simpl; lia. }
    split; [|unfold mark_killed; simpl; case_bool_decide; done].
    rewrite bind_p_set, bind_release by left.
    unfold mret, K_ret. f_equal. by apply unlocked_eq.
  - split; [|intros _].
    + intros i H1 H2. assert (procs s' !! i = Some (slot_of s' i)) as H3.
      { by apply lookup_slot, leader_slot. }
      apply Hf in H3. rewrite H1, H2, !Z.eqb_refl in H3. done.
    + rewrite bind_release by left.
      unfold mret, K_ret. f_equal. by apply unlocked_eq.
Qed.

(** * sleep and wakeup *)

Lemma sched_run me s :
  mine s = [LPtable] -> state (slot_of s me) <> RUNNING ->
  sched me s = Switch SwSched (put_mine [] (put_locked (remove LPtable (locked s)) s)) (fun s' =>
    Done tt (put_building (building s) (put_mine [LPtable] (put_locked (LPtable :: locked s') s')))).
Proof.
  intros Hm Hs. unfold sched. rewrite (holding_cons LPtable []), Hm by done. simpl.
  by rewrite bool_decide_eq_false_2.
Qed.

Lemma wakeup_run c s :
  LPtable ∉ mine s ->
  exists k, wakeup c s = Switch (SwAcquire LPtable) s k
    /\ forall s', LPtable ∉ locked s' -> k s' = Done tt (put_procs (wake c <$> procs s') (locals s s')).
Proof.
  intros Hm. unfold wakeup. rewrite critical_run by done. eexists. split; [done|].
  intros s' Hl. cbv beta. unfold wakeup1. rewrite bind_change, release_run by left.
  f_equal. by apply unlocked_eq.
Qed.

Lemma woken c (s : kst FS) l i :
  state (slot_of s i) = SLEEPING -> chan (slot_of s i) = c -> procs s = l ->
  state (default proc0 ((wake c <$> l) !! i)) = RUNNABLE.
Proof.
  unfold slot_of. intros H1 H2 <-. rewrite list_lookup_fmap. destruct (procs s !! i); simpl in *; [|done].
  unfold wake. by rewrite !bool_decide_eq_true_2.
Qed.

(** The state in which a process sleeps on [c]. *)
Definition asleep (me : nat) (c : option chan_t) s : kst FS :=
  upd me (fun p => set_state SLEEPING (set_chan c p)) s.

Lemma sleep_enter me c lk s :
  lk <> LPtable -> mine s = [lk] ->
  exists k1, sleep me c lk s = Switch (SwAcquire LPtable) s k1
    /\ forall s1, (me < length (procs s1))%nat -> LPtable ∉ locked s1 ->
       exists s2 k2, k1 s1 = Switch SwSched s2 k2
         /\ s2 = put_mine [] (put_locked (remove lk (locked s1)) (asleep me c (locals s s1)))
         /\ forall s3, LPtable ∉ locked s3 -> exists k3,
              k2 s3 = Switch (SwAcquire lk) (put_mine [] (upd me (set_chan None) (locals s s3))) k3
              /\ forall s4, k3 s4 = Done tt (granted lk (put_mine [] s) s4).
Proof.
  intros Hlk Hm. unfold sleep. rewrite !decide_False by done.
  assert (LPtable ∉ mine s) as Hn by (rewrite Hm; set_solver).
  rewrite (bind_switch _ _ _ _ _ _ (critical_run LPtable (release lk) s Hn)). eexists. split; [done|].
  intros s1 Hme Hl. cbv beta. rewrite release_run by (simpl; rewrite Hm; set_solver). simpl obind.
  rewrite bind_p_set. erewrite bind_switch; [|apply sched_run].
  - eexists _, _. split; [done|]. split.
    { unfold put_mine, put_locked, asleep, upd. simpl. by rewrite remove_below. }
    intros s3 Hl3. cbv beta. simpl obind. rewrite bind_p_set, bind_release by left.
    match goal with |- context [unlocked LPtable ?x] => assert (unlocked LPtable x
      = put_mine [] (upd me (set_chan None) (locals s s3))) as -> end.
    { apply unlocked_eq; try done. simpl. set_solver. }
    rewrite acquire_run by (simpl; set_solver). by eexists.
  - simpl. rewrite Hm. unfold remove. rewrite filter_cons, decide_True by auto. f_equal.
    apply remove_cons. set_solver.
  - by rewrite slot_upd_eq.
Qed.

(** C31: sleep and wakeup on a channel lose no wakeup.  The process that
    calls sleep with [lk] keeps [lk] until it has the process table, gives
    both up only when it is SLEEPING on the channel, and touches no other
    slot; a wakeup on the channel that finds it so makes it RUNNABLE; and
    when it is picked it leaves the channel and takes [lk] again. *)
Theorem sleep_wakeup (me : nat) (c : option chan_t) (lk : lock) s :
  lk <> LPtable -> mine s = [lk] ->
  exists k1, sleep me c lk s = Switch (SwAcquire LPtable) s k1
    /\ forall s1, (me < length (procs s1))%nat -> LPtable ∉ locked s1 ->
       exists s2 k2, k1 s1 = Switch SwSched s2 k2
         /\ state (slot_of s2 me) = SLEEPING /\ chan (slot_of s2 me) = c
         /\ lk ∉ locked s2 /\ LPtable ∉ locked s2 /\ mine s2 = []
         /\ (forall j, j <> me -> slot_of s2 j = slot_of s1 j)
         /\ (forall t, LPtable ∉ mine t -> exists k, wakeup c t = Switch (SwAcquire LPtable) t k
               /\ forall s3, slot_of s3 me = slot_of s2 me -> LPtable ∉ locked s3 ->
                  exists s4, k s3 = Done tt s4 /\ state (slot_of s4 me) = RUNNABLE)
         /\ forall s3, LPtable ∉ locked s3 -> (me < length (procs s3))%nat -> exists s4 k3,
              k2 s3 = Switch (SwAcquire lk) s4 k3 /\ chan (slot_of s4 me) = None
              /\ forall s5, exists s6, k3 s5 = Done tt s6 /\ mine s6 = [lk] /\ procs s6 = procs s5.
Proof.
  intros Hlk Hm. destruct (sleep_enter me c lk s Hlk Hm) as (k1 & H1 & H2).
  exists k1. split; [done|]. intros s1 Hme Hl. destruct (H2 s1 Hme Hl) as (s2 & k2 & H3 & -> & H4).
  eexists _, k2. split; [done|]. unfold asleep. simpl.
  change (slot_of (put_mine _ (put_locked _ ?x))) with (slot_of x).
  rewrite !slot_upd_eq by done. split; [done|]. split; [done|].
  split; [unfold remove; rewrite list_elem_of_filter; naive_solver|].
  split; [unfold remove; rewrite list_elem_of_filter; naive_solver|]. split; [done|]. split; [|split].
  - intros j Hj. change (slot_of (put_mine _ (put_locked _ ?x))) with (slot_of x). by rewrite slot_upd_ne.
  - intros t Ht. destruct (wakeup_run c t Ht) as (k & Hk1 & Hk2). exists k. split; [done|].
    intros s3 Hs3 Hl3. rewrite Hk2 by done. eexists. split; [done|].
    apply (woken c s3 (procs s3)); by rewrite ?Hs3.
  - intros s3 Hl3 Hme3. destruct (H4 s3 Hl3) as (k3 & H5 & H6). eexists _, k3. split; [done|].
    change (slot_of (put_mine _ ?x)) with (slot_of x). rewrite slot_upd_eq by done. split; [done|].
    intros s5. rewrite H6. by eexists.
Qed.

(** * exit *)

(** The process table [s'] after some processes of [s] were woken, and the
    child processes of [me] among [js] were given to init. *)
Record adopted (me : nat) (js : list nat) s s' : Prop := {
  ad_frame : exists l, s' = put_procs l s /\ length l = length (procs s);
  ad_parent : forall x, parent (slot_of s' x) =
    if decide (x ∈ js /\ parent (slot_of s x) = Some me /\ tid (slot_of s x) = -1)
    then initproc s else parent (slot_of s x);
  ad_tid : forall x, tid (slot_of s' x) = tid (slot_of s x);
  ad_state : forall x, state (slot_of s' x) = state (slot_of s x)
    \/ state (slot_of s x) = SLEEPING /\ state (slot_of s' x) = RUNNABLE;
  ad_init : forall x z, z ∈ js -> parent (slot_of s z) = Some me -> tid (slot_of s z) = -1 ->
    state (slot_of s z) = ZOMBIE -> state (slot_of s x) = SLEEPING ->
    chan (slot_of s x) = CProc <$> initproc s -> state (slot_of s' x) = RUNNABLE;
  ad_chan : forall x, chan (slot_of s' x) = chan (slot_of s x);
}.

Lemma slot_wake c s x : slot_of (put_procs (wake c <$> procs s) s) x = wake c (slot_of s x).
Proof. by apply slot_map. Qed.

Lemma wake_cases c p :
  wake c p = p \/ state p = SLEEPING /\ chan p = c /\ wake c p = set_state RUNNABLE p.
Proof. unfold wake. do 2 case_bool_decide; simpl; auto. Qed.

Lemma wake_awake c p : state p = SLEEPING -> chan p = c -> state (wake c p) = RUNNABLE.
Proof. intros H1 H2. unfold wake. by rewrite !bool_decide_eq_true_2. Qed.

Lemma wake_fields c p : parent (wake c p) = parent p /\ tid (wake c p) = tid p /\ chan (wake c p) = chan p.
Proof. destruct (wake_cases c p) as [->|(_ & _ & ->)]; done. Qed.

Lemma adopted_nil me s : adopted me [] s s.
Proof.
  split; try done.
  - exists (procs s). split; [by destruct s|done].
  - by left.
  - set_solver.
Qed.

Lemma adopted_app me js1 js2 s s1 s' :
  initproc s <> Some me -> adopted me js1 s s1 -> adopted me js2 s1 s' -> adopted me (js1 ++ js2) s s'.
Proof.
  intros Hi [(l & -> & Hl) P1 T1 S1 N1 C1] [(l' & -> & Hl') P2 T2 S2 N2 C2]. simpl in *.
  split.
  - exists l'. split; [done|congruence].
  - intros x. rewrite P2, T1, P1. repeat case_decide; set_solver.
  - intros x. by rewrite T2, T1.
  - intros x. destruct (S2 x) as [->|[E1 E2]], (S1 x) as [E3|[E3 E4]]; try rewrite E3 in *; auto; naive_solver.
  - intros x z Hz Hp Ht Hs Hx Hc. destruct (decide (z ∈ js1)) as [Hz1|Hz1].
    + assert (state (slot_of (put_procs l s) x) = RUNNABLE) as E by (apply (N1 x z); set_solver).
      destruct (S2 x) as [E2|[E2 _]]; congruence.
    + destruct (S1 x) as [E|[_ E]]; [|destruct (S2 x) as [E2|[E2 _]]; congruence].
      apply (N2 x z); [set_solver|rewrite P1; case_decide; set_solver|congruence| |congruence|congruence].
      destruct (S1 z) as [->|[? _]]; congruence.
  - intros x. by rewrite C2, C1.
Qed.

Lemma adopted_wake me c s : adopted me [] s (put_procs (wake c <$> procs s) s).
Proof.
  split.
  - eexists. split; [done|]. by rewrite length_fmap.
  - intros x. rewrite slot_wake, (proj1 (wake_fields _ _)). case_decide; set_solver.
  - intros x. rewrite slot_wake. apply wake_fields.
  - intros x. rewrite slot_wake. destruct (wake_cases c (slot_of s x)) as [->|(E & _ & ->)]; auto.
  - set_solver.
  - intros x. rewrite slot_wake. apply wake_fields.
Qed.

(** A process woken on the way stays so. *)
Lemma adopted_awake me js s s' x :
  adopted me js s s' -> state (slot_of s x) = RUNNABLE -> state (slot_of s' x) = RUNNABLE.
Proof. intros Ha Hx. destruct (ad_state _ _ _ _ Ha x) as [?|[? _]]; congruence. Qed.

Lemma adopted_one me i s : (i < length (procs s))%nat ->
  exists s1, adopted me [i] s s1 /\
    (if bool_decide (parent (slot_of s i) = Some me) && (tid (slot_of s i) =? -1) then
       p_set i (set_parent (initproc s));;
       if bool_decide (state (slot_of s i) = ZOMBIE) then wakeup1 (CProc <$> initproc s) else mret tt
     else mret tt) s = Done tt s1.
Proof.
  intros Hi. destruct (bool_decide (parent _ = _) && _) eqn:Hb.
  - apply andb_true_iff in Hb as [H1 H2]. apply bool_decide_eq_true in H1. apply Z.eqb_eq in H2.
    set (s1 := upd i (set_parent (initproc s)) s).
    assert (forall x, slot_of s1 x = if decide (x = i) then set_parent (initproc s) (slot_of s x) else slot_of s x) as Hs1.
    { intros x. unfold s1. case_decide as Hx; [subst x; by rewrite slot_upd_eq|by rewrite slot_upd_ne]. }
    case_bool_decide as Hz.
    + exists (put_procs (wake (CProc <$> initproc s) <$> procs s1) s1). split; [|done].
      split.
      * eexists. split; [done|]. by rewrite length_fmap; simpl; rewrite length_alter.
      * intros x. rewrite slot_wake, (proj1 (wake_fields _ _)), Hs1. repeat case_decide; set_solver.
      * intros x. rewrite slot_wake. destruct (wake_fields (CProc <$> initproc s) (slot_of s1 x)) as (_ & -> & _).
        rewrite Hs1. by case_decide.
      * intros x. rewrite slot_wake. destruct (wake_cases (CProc <$> initproc s) (slot_of s1 x)) as [->|(E1 & _ & ->)];
          rewrite Hs1 in *; case_decide; auto.
      * intros x z _ _ _ _ Hx Hc. rewrite slot_wake. apply wake_awake; rewrite Hs1; by case_decide.
      * intros x. rewrite slot_wake. destruct (wake_fields (CProc <$> initproc s) (slot_of s1 x)) as (_ & _ & ->).
        rewrite Hs1. by case_decide.
    + exists s1. split; [|done]. split.
      * eexists. split; [done|]. by rewrite length_alter.
      * intros x. rewrite Hs1. repeat case_decide; set_solver.
      * intros x. rewrite Hs1. by case_decide.
      * intros x. rewrite Hs1. left. by case_decide.
      * intros x z Hzi. set_solver.
      * intros x. rewrite Hs1. by case_decide.
  - exists s. split; [|done]. apply andb_false_iff in Hb. split; try done.
    + exists (procs s). split; [by destruct s|done].
    + intros x. destruct (decide (x ∈ [i] /\ _)) as [(Hx & H1 & H2)|]; [|done].
      assert (x = i) as -> by set_solver. rewrite H2, bool_decide_eq_true_2 in Hb by done. naive_solver.
    + by left.
    + intros x z Hz H1 H2. assert (z = i) as -> by set_solver.
      rewrite H2, bool_decide_eq_true_2 in Hb by done. naive_solver.
Qed.

Lemma reparent_run me js s :
  initproc s <> Some me -> (forall i, i ∈ js -> (i < length (procs s))%nat) ->
  exists s', reparent me js s = Done tt s' /\ adopted me js s s'.
Proof.
  revert s. induction js as [|i js IH]; intros s Hi Hjs; [exists s; split; [done|apply adopted_nil]|].
  destruct (adopted_one me i s) as (s1 & Ha & Hr); [apply Hjs; by left|].
  destruct (ad_frame _ _ _ _ Ha) as (l & -> & Hl).
  destruct (IH (put_procs l s)) as (s' & Hs' & Ha'); [done| |].
  { intros x Hx. simpl. rewrite Hl. apply Hjs. by right. }
  exists s'. split; [|by apply (adopted_app me [i] js s (put_procs l s))].
  cbn [reparent]. rewrite bind_get, (bind_done _ _ _ _ _ Hr). done.
Qed.

(** What exit does to the table before it becomes ZOMBIE. *)
Lemma exit_table {A} me s0 (rest : K FS A) :
  (me < NPROC)%nat -> length (procs s0) = NPROC -> initproc s0 <> Some me ->
  exists s3, adopted me (seq 0 NPROC) s0 s3
    /\ ((if tid (slot_of s0 me) =? -1 then mret tt else wakeup1 (CProc <$> THREAD_LEADER s0 me));;
        wakeup1 (CProc <$> parent (slot_of s0 me));; reparent me (seq 0 NPROC);; rest) s0 = rest s3
    /\ (forall j, tid (slot_of s0 me) <> -1 -> state (slot_of s0 j) = SLEEPING ->
          chan (slot_of s0 j) = CProc <$> THREAD_LEADER s0 me -> state (slot_of s3 j) = RUNNABLE)
    /\ (forall j, state (slot_of s0 j) = SLEEPING ->
          chan (slot_of s0 j) = CProc <$> parent (slot_of s0 me) -> state (slot_of s3 j) = RUNNABLE).
Proof.
  intros Hme Hlen Hi.
  assert (exists s1, (if tid (slot_of s0 me) =? -1 then mret tt else wakeup1 (CProc <$> THREAD_LEADER s0 me)) s0
     = Done tt s1 /\ adopted me [] s0 s1
     /\ forall j, tid (slot_of s0 me) <> -1 -> state (slot_of s0 j) = SLEEPING ->
        chan (slot_of s0 j) = CProc <$> THREAD_LEADER s0 me -> state (slot_of s1 j) = RUNNABLE) as (s1 & E1 & A1 & W1).
  { destruct (Z.eqb_spec (tid (slot_of s0 me)) (-1)).
    - exists s0. split; [done|]. split; [apply adopted_nil|done].
    - eexists. split; [done|]. split; [apply adopted_wake|]. intros j _ H1 H2.
      rewrite slot_wake. by apply wake_awake. }
  rewrite (bind_done _ _ _ _ _ E1). clear E1. unfold wakeup1. rewrite bind_change.
  set (c := CProc <$> parent (slot_of s0 me)). set (s2 := put_procs (wake c <$> procs s1) s1).
  pose proof (adopted_wake me c s1) as A2. fold s2 in A2.
  pose proof (adopted_app me [] [] _ _ _ Hi A1 A2) as A12. simpl in A12.
  destruct (ad_frame _ _ _ _ A12) as (l2 & Hl2 & Hl2').
  destruct (reparent_run me (seq 0 NPROC) s2) as (s3 & E3 & A3).
  { by rewrite Hl2. }
  { intros i Hin. apply elem_of_seq in Hin. rewrite Hl2. simpl. rewrite Hl2', Hlen. lia. }
  exists s3. split; [by apply (adopted_app me [] (seq 0 NPROC) s0 s2)|].
  split; [by rewrite (bind_done _ _ _ _ _ E3)|]. split.
  - intros j H1 H2 H3. apply (adopted_awake me (seq 0 NPROC) s2); [done|].
    apply (adopted_awake me [] s1); [done|]. by apply W1.
  - intros j H1 H2. apply (adopted_awake me (seq 0 NPROC) s2); [done|]. unfold s2. rewrite slot_wake.
    destruct (ad_state _ _ _ _ A1 j) as [E|[_ E]].
    + apply wake_awake; [congruence|]. by rewrite (ad_chan _ _ _ _ A1).
    + by destruct (wake_cases c (slot_of s1 j)) as [->|(? & _ & _)]; [|congruence].
Qed.


(** * wait *)

(** The word that wait reads through a null leader, and which slots it
    takes for children of the caller. *)
Definition null_parent (me : nat) s (v : Z) : Prop :=
  ld_user (pgdir (slot_of s me)) PARENT_OFFSET (mem s) = OK v (mem s).

Definition kid (me : nat) s (v : Z) (i : nat) : bool :=
  match THREAD_LEADER s i with
  | Some q => bool_decide (parent (slot_of s q) = THREAD_LEADER s me)
  | None => v =? proc_addr (THREAD_LEADER s me)
  end.

(** A child process that has exited. *)
Definition dead_kid (me : nat) s (v : Z) (i : nat) : bool :=
  kid me s v i && bool_decide (state (slot_of s i) = ZOMBIE) && (tid (slot_of s i) =? -1).

Lemma is_child_run me i s v : null_parent me s v -> is_child me i s = Done (kid me s v i) s.
Proof.
  intros Hv. unfold is_child, kid. rewrite bind_get. destruct (THREAD_LEADER s i); [done|].
  rewrite (bind_lift _ _ s _ _ Hv). by destruct s.
Qed.

Lemma wait_scan_none me js h s v :
  null_parent me s v -> Forall (fun i => dead_kid me s v i = false) js ->
  wait_scan me js h s = Done (inr (h || existsb (kid me s v) js)) s.
Proof.
  intros Hv Hd. revert h. induction Hd as [|i js Hi _ IH]; intros h; simpl; [by rewrite orb_false_r|].
  rewrite (bind_done _ _ _ _ _ (is_child_run me i s v Hv)). unfold dead_kid in Hi.
  destruct (kid me s v i) eqn:Hk; simpl in *; [|apply IH].
  rewrite bind_p, Hi, IH. by rewrite orb_true_r.
Qed.

(** What wait does to the slot it found. *)
Definition reaped (i : nat) (m : pmem) s : kst FS := upd i clear_slot (put_mem m s).

Lemma wait_scan_some me js1 js2 i h s v m1 m2 :
  null_parent me s v -> Forall (fun i => dead_kid me s v i = false) js1 -> dead_kid me s v i = true ->
  kfree (kstack (slot_of s i)) (mem s) = OK tt m1 -> freevm (pgdir (slot_of s i)) m1 = OK tt m2 ->
  wait_scan me (js1 ++ i :: js2) h s = Done (inl (pid (slot_of s i))) (reaped i m2 s).
Proof.
  intros Hv Hd Hi H1 H2. revert h. induction Hd as [|j js1 Hj _ IH]; intros h; simpl.
  - rewrite (bind_done _ _ _ _ _ (is_child_run me i s v Hv)). unfold dead_kid in Hi.
    apply andb_true_iff in Hi as [Hi H4]. apply andb_true_iff in Hi as [Hk H3]. rewrite Hk. simpl. rewrite bind_p, H3, H4. simpl.
    rewrite (bind_lift _ _ s _ _ H1), bind_p_set, (bind_lift _ _ _ tt m2) by done.
    rewrite bind_p_set. unfold mret, K_ret. do 2 f_equal.
    change (upd i clear_slot (upd i (set_kstack 0) (put_mem m2 s)) = reaped i m2 s). apply upd_upd.
  - rewrite (bind_done _ _ _ _ _ (is_child_run me j s v Hv)). unfold dead_kid in Hj.
    destruct (kid me s v j) eqn:Hk; simpl in *; [rewrite bind_p, Hj|]; apply IH.
Qed.

Lemma dead_kids_split me s v i :
  (i < NPROC)%nat -> (forall j, (j < i)%nat -> dead_kid me s v j = false) ->
  exists js1 js2, seq 0 NPROC = js1 ++ i :: js2 /\ Forall (fun i => dead_kid me s v i = false) js1.
Proof.
  intros Hi Hd. exists (seq 0 i), (seq (S i) (NPROC - S i)). split.
  - replace NPROC with (i + S (NPROC - S i))%nat at 1 by lia. by rewrite seq_app.
  - apply Forall_forall. intros j Hj. apply elem_of_seq in Hj. apply Hd. lia.
Qed.

(** sleep on a channel with the process table in hand. *)
Lemma sleep_ptable {A} me c s (rest : K FS A) :
  mine s = [LPtable] -> (me < length (procs s))%nat ->
  exists k, (sleep me c LPtable;; rest) s
      = Switch SwSched (put_mine [] (put_locked (remove LPtable (locked s)) (asleep me c s))) k
    /\ forall s', k s' = rest (upd me (set_chan None)
         (put_building (building s) (put_mine [LPtable] (put_locked (LPtable :: locked s') s')))).
Proof.
  intros Hm Hme. assert (exists k, sleep me c LPtable s
      = Switch SwSched (put_mine [] (put_locked (remove LPtable (locked s)) (asleep me c s))) k
    /\ forall s', k s' = Done tt (upd me (set_chan None)
         (put_building (building s) (put_mine [LPtable] (put_locked (LPtable :: locked s') s'))))) as (k & E & Hk).
  { unfold sleep. rewrite !decide_True by done. rewrite kbind_ret, bind_p_set.
    erewrite bind_switch; [|apply sched_run; [done|by rewrite slot_upd_eq]]. by eexists. }
  rewrite (bind_switch _ _ _ _ _ _ E). eexists. split; [done|]. intros s'. cbv beta. by rewrite Hk.
Qed.

Lemma sleep_granted {A} me c s s' (rest : K FS A) :
  mine s = [] -> LPtable ∉ locked s' -> (me < length (procs s'))%nat ->
  exists k2, (sleep me c LPtable;; rest) (granted LPtable s s') = Switch SwSched (asleep me c (locals s s')) k2
    /\ forall s3, k2 s3 = rest (upd me (set_chan None) (granted LPtable s s3)).
Proof.
  intros Hm Hl Hme. destruct (sleep_ptable me c (granted LPtable s s') rest) as (k2 & E & Hk2);
    [simpl; by rewrite Hm|done|].
  exists k2. split.
  - rewrite E. f_equal. unfold put_mine, put_locked, asleep, upd, locals, put_procs. simpl. by rewrite remove_cons, Hm.
  - intros s3. rewrite Hk2. unfold granted. simpl. by rewrite Hm.
Qed.

Lemma wait_turn me fuel s v :
  null_parent me s v -> LPtable ∈ mine s ->
  (forall i m1 m2, (i < NPROC)%nat -> dead_kid me s v i = true ->
     (forall j, (j < i)%nat -> dead_kid me s v j = false) ->
     kfree (kstack (slot_of s i)) (mem s) = OK tt m1 -> freevm (pgdir (slot_of s i)) m1 = OK tt m2 ->
     wait_loop me (S fuel) s = Done (pid (slot_of s i)) (unlocked LPtable (reaped i m2 s)))
  /\ ((forall i, (i < NPROC)%nat -> dead_kid me s v i = false) ->
      ((forall i, (i < NPROC)%nat -> kid me s v i = false) \/ killed (slot_of s me) <> 0 ->
         wait_loop me (S fuel) s = Done (-1) (unlocked LPtable s))
      /\ ((exists i, (i < NPROC)%nat /\ kid me s v i = true) -> killed (slot_of s me) = 0 ->
          wait_loop me (S fuel) s = (sleep me (CProc <$> THREAD_LEADER s me) LPtable;; wait_loop me fuel) s)).
Proof.
  intros Hv Hl. split.
  - intros i m1 m2 Hi Hd Hj H1 H2. destruct (dead_kids_split me s v i Hi Hj) as (js1 & js2 & Hsp & Hf).
    cbn [wait_loop]. rewrite Hsp, (bind_done _ _ _ _ _ (wait_scan_some me js1 js2 i false s v m1 m2 Hv Hf Hd H1 H2)).
    by rewrite bind_release.
  - intros Hd. cbn [wait_loop].
    rewrite (bind_done _ _ _ _ _ (wait_scan_none me (seq 0 NPROC) false s v Hv
      ltac:(apply Forall_forall; intros j Hj; apply elem_of_seq in Hj; apply Hd; lia))).
    rewrite bind_p. cbn [orb]. split.
    + intros Hor. assert (negb (existsb (kid me s v) (seq 0 NPROC)) || negb (killed (slot_of s me) =? 0) = true) as ->.
      { apply orb_true_iff. destruct Hor as [Hk|Hk]; [left|right].
        - apply negb_true_iff, not_true_iff_false. rewrite existsb_exists. intros (x & Hx & Hkx).
          rewrite Hk in Hkx; [done|]. apply list_elem_of_In, elem_of_seq in Hx. lia.
        - apply negb_true_iff, Z.eqb_neq, Hk. }
      by rewrite bind_release.
    + intros (i & Hi & Hk) ->. assert (existsb (kid me s v) (seq 0 NPROC) = true) as ->.
      { apply existsb_exists. exists i. split; [|done]. apply list_elem_of_In, elem_of_seq. lia. }
      simpl. by rewrite bind_get.
Qed.

(** wait, whatever state it gets the process table in: if a child
    process has exited, the first such slot is cleared, its kernel stack and
    its memory are freed, and its pid is returned; if there is no child, or
    the caller was killed, nothing changes and wait returns -1; otherwise the
    caller sleeps on its leader, with the lock released, and looks again when
    it is woken.  (The slots whose leader is null take their parent from the
    word that the caller's memory has at that offset.) *)
Theorem wait_spec (me fuel : nat) s :
  mine s = [] ->
  exists k, wait me (S fuel) s = Switch (SwAcquire LPtable) s k
    /\ forall s' v, null_parent me s' v -> LPtable ∉ locked s' -> (me < length (procs s'))%nat ->
       (forall i m1 m2, (i < NPROC)%nat -> dead_kid me s' v i = true ->
          (forall j, (j < i)%nat -> dead_kid me s' v j = false) ->
          kfree (kstack (slot_of s' i)) (mem s') = OK tt m1 -> freevm (pgdir (slot_of s' i)) m1 = OK tt m2 ->
          k s' = Done (pid (slot_of s' i)) (reaped i m2 (locals s s')))
       /\ ((forall i, (i < NPROC)%nat -> dead_kid me s' v i = false) ->
           ((forall i, (i < NPROC)%nat -> kid me s' v i = false) \/ killed (slot_of s' me) <> 0 ->
              k s' = Done (-1) (locals s s'))
           /\ ((exists i, (i < NPROC)%nat /\ kid me s' v i = true) -> killed (slot_of s' me) = 0 ->
               exists k2, k s' = Switch SwSched (asleep me (CProc <$> THREAD_LEADER s' me) (locals s s')) k2
                 /\ forall s3, k2 s3 = wait_loop me fuel (upd me (set_chan None) (granted LPtable s s3)))).
Proof.
  intros Hm. unfold wait. rewrite critical_run by (rewrite Hm; set_solver). eexists. split; [done|].
  intros s' v Hv Hl Hme. cbv beta.
  destruct (wait_turn me fuel (granted LPtable s s') v Hv) as [H1 H2]; [left|].
  split; [|intros Hd; destruct (H2 Hd) as [H3 H4]; split].
  - intros i m1 m2 Hi Hd Hj E1 E2. rewrite (H1 i m1 m2) by done. f_equal.
    apply unlocked_eq; try done. simpl. rewrite Hm. inversion 1.
  - intros Hor. rewrite H3 by done. f_equal. apply unlocked_eq; try done. simpl. rewrite Hm. inversion 1.
  - intros Hk Hkill. rewrite H4 by done. by apply sleep_granted.
Qed.

(** * join *)

(** The memory of a dead thread can be freed, leaving [m']. *)
Definition frees (p : proc) (m m' : pmem) : Prop :=
  exists m1, kfree (kstack p) m = OK tt m1
    /\ (if tstackalloc p =? 0 then m' = m1 else freecloneuvm (pgdir p) (tstack p) m1 = OK tt m').

Lemma free_thread_run {A} i s m' (f : unit -> K FS A) :
  frees (slot_of s i) (mem s) m' ->
  (free_thread i ≫= f) s = f tt (put_mem m' (upd i (set_kstack 0) s)).
Proof.
  intros (m1 & H1 & H2). apply bind_done. unfold free_thread. rewrite bind_p, (bind_lift _ _ s _ _ H1), bind_p_set.
  destruct (tstackalloc (slot_of s i) =? 0); [by subst|]. unfold lift. simpl. by rewrite H2.
Qed.

Definition join_clear (p : proc) : proc := clear_slot (set_pgdir 0 p).

Lemma join_turn me i leader fuel s :
  LPtable ∈ mine s ->
  (killed (slot_of s me) <> 0 -> join_loop me i leader (S fuel) s = Done (-1) (unlocked LPtable s))
  /\ (killed (slot_of s me) = 0 ->
      (forall m', state (slot_of s i) = ZOMBIE -> frees (slot_of s i) (mem s) m' ->
         join_loop me i leader (S fuel) s
         = Done (tid (slot_of s i)) (unlocked LPtable (upd i join_clear (put_mem m' s))))
      /\ (state (slot_of s i) <> ZOMBIE ->
          join_loop me i leader (S fuel) s = (sleep me (CProc <$> leader) LPtable;; join_loop me i leader fuel) s)).
Proof.
  intros Hl. cbn [join_loop]. rewrite bind_p. split; [|intros ->; split].
  - intros Hk. apply Z.eqb_neq in Hk as ->. cbn [negb]. by rewrite bind_release.
  - intros m' Hz Hf. cbn [negb Z.eqb]. rewrite bind_p, bool_decide_eq_true_2 by done.
    rewrite (free_thread_run i s m'), bind_p_set, bind_release by done.
    unfold mret, K_ret. do 2 f_equal.
    change (upd i join_clear (upd i (set_kstack 0) (put_mem m' s)) = upd i join_clear (put_mem m' s)).
    apply upd_upd.
  - intros Hz. cbn [negb Z.eqb]. by rewrite bind_p, bool_decide_eq_false_2.
Qed.


(** * tgkill *)

(** [Q] holds of the result, whatever the others do at the switch points as
    long as they keep [E]. *)
Fixpoint post {A} (E : kst FS -> Prop) (o : outcome FS A) (Q : A -> kst FS -> Prop) : Prop :=
  match o with
  | Done a s => Q a s
  | Halt _ _ | Fuel _ => True
  | Switch _ _ k => forall s', E s' -> post E (k s') Q
  end.

Lemma post_bind {A B} E (m : K FS A) (f : A -> K FS B) s Q :
  post E (m s) (fun a s => post E (f a s) Q) -> post E ((m ≫= f) s) Q.
Proof. unfold mbind, K_bind. induction (m s) as [a s1|msg s1|s1|w s1 k IH]; simpl; auto. Qed.

Lemma post_mono {A} E (o : outcome FS A) (Q Q' : A -> kst FS -> Prop) :
  (forall a s, Q a s -> Q' a s) -> post E o Q -> post E o Q'.
Proof. intros H. induction o as [a s|msg s|s|w s k IH]; simpl; auto. Qed.

(** The other threads of the group of [me]. *)
Definition member (me : nat) s (i : nat) : bool :=
  (pid (slot_of s i) =? pid (slot_of s me)) && negb (tid (slot_of s i) =? -1).

Lemma member_clear me s i j m h :
  tid (slot_of s me) = -1 -> 0 < pid (slot_of s me) -> member me s i = true -> (i < length (procs s))%nat ->
  member me (upd i clear_slot (put_mem m (upd i h s))) j = if decide (j = i) then false else member me s j.
Proof.
  intros Ht Hp Hi Hlen. unfold member in *.
  assert (me <> i) by (intros <-; rewrite Ht in Hi; simpl in Hi; by rewrite andb_false_r in Hi).
  change (put_mem m (upd i h s)) with (upd i h (put_mem m s)). rewrite upd_upd.
  rewrite (slot_upd_ne i _ _ me) by done. change (slot_of (put_mem m s)) with (slot_of s).
  case_decide as Hj; [subst j; rewrite slot_upd_eq by done|by rewrite slot_upd_ne].
  change (pid ((clear_slot ∘ h) ?x)) with 0. apply andb_false_iff. left. lia.
Qed.

Lemma member_slot me s i : 0 < pid (slot_of s me) -> member me s i = true -> (i < length (procs s))%nat.
Proof.
  intros Hp Hi. destruct (decide (i < length (procs s))%nat); [done|]. unfold member in Hi.
  rewrite (eq_refl : slot_of s i = default proc0 (procs s !! i)), lookup_ge_None_2 in Hi by lia.
  change (pid (default proc0 None)) with 0 in Hi. apply andb_true_iff in Hi as [Hi _]. lia.
Qed.

Lemma post_lift {A B} E (m : M pmem A) (f : A -> K FS B) s Q :
  (forall a m', post E (f a (put_mem m' s)) Q) -> post E ((lift m ≫= f) s) Q.
Proof. intros H. unfold mbind, K_bind, lift. by destruct (m (mem s)); simpl. Qed.

Lemma post_free_thread {A} E i s (f : unit -> K FS A) Q :
  (forall m', post E (f tt (put_mem m' (upd i (set_kstack 0) s))) Q) -> post E ((free_thread i ≫= f) s) Q.
Proof.
  intros H. apply post_bind. unfold free_thread. rewrite bind_p.
  apply post_lift. intros _ m1. rewrite bind_p_set. destruct (tstackalloc (slot_of s i) =? 0).
  - apply (H m1).
  - unfold lift. destruct (freecloneuvm _ _ _); simpl; try done. destruct a. apply H.
Qed.

(** One pass of tgkill over the table: no thread of the group is left in
    the slots it passed, unless it found one that is alive. *)
Lemma reap_threads_post E me js s :
  tid (slot_of s me) = -1 -> 0 < pid (slot_of s me) ->
  post E (reap_threads me js s) (fun alive s' =>
    slot_of s' me = slot_of s me
    /\ (forall j, member me s j = false -> member me s' j = false)
    /\ (alive = false -> forall j, j ∈ js -> member me s' j = false)).
Proof.
  revert s. induction js as [|i js IH]; intros s Ht Hp; [simpl; set_solver|].
  cbn [reap_threads]. rewrite bind_get. destruct (member me s i) eqn:Hi.
  - apply andb_true_iff in Hi as Hi'. destruct Hi' as [E1 E2]. rewrite E1.
    apply negb_true_iff in E2 as E3. rewrite E3. cbn [negb orb]. case_decide; [|simpl; naive_solver].
    apply post_free_thread. intros m. rewrite bind_p_set. set (s1 := upd i clear_slot _).
    assert (i < length (procs s))%nat as Hlen by (by apply (member_slot me)).
    assert (me <> i) by (intros <-; by rewrite Ht in E3).
    assert (slot_of s1 me = slot_of s me) as Hme.
    { unfold s1. rewrite slot_upd_ne by done. change (slot_of (put_mem m ?x)) with (slot_of x). by rewrite slot_upd_ne. }
    assert (forall j, member me s1 j = if decide (j = i) then false else member me s j) as Hc.
    { intros j. by apply member_clear. }
    specialize (IH s1). rewrite Hme in IH. eapply post_mono; [|by apply IH].
    intros alive s2 (H1 & H2 & H3). split; [done|]. split.
    + intros j Hj. apply H2. rewrite Hc. by case_decide.
    + intros Ha j Hj. destruct (decide (j = i)) as [->|]; [|apply H3; set_solver].
      apply H2. rewrite Hc. by case_decide.
  - assert (negb (pid (slot_of s i) =? pid (slot_of s me)) || (tid (slot_of s i) =? -1) = true) as ->.
    { unfold member in Hi. by destruct (_ =? _), (_ =? _). }
    eapply post_mono; [|by apply IH]. intros alive s2 (H1 & H2 & H3). split; [done|]. split; [done|].
    intros Ha j Hj. destruct (decide (j = i)) as [->|]; [by apply H2|apply H3; set_solver].
Qed.

(** The caller of tgkill keeps its ids while it waits. *)
Definition leading (me : nat) s : Prop := tid (slot_of s me) = -1 /\ 0 < pid (slot_of s me).

Lemma sched_post E me s Q :
  (forall s', E s' -> Q tt (put_building (building s) (put_mine [LPtable] (put_locked (LPtable :: locked s') s')))) ->
  post E (sched me s) Q.
Proof. intros H. unfold sched. repeat case_match; simpl; auto. Qed.

Lemma leading_upd me s f : (forall p, tid (f p) = tid p /\ pid (f p) = pid p) -> leading me s -> leading me (upd me f s).
Proof.
  unfold leading. intros Hf [H1 H2]. rewrite slot_upd. case_decide; [|done]. by destruct (Hf (slot_of s me)) as [-> ->].
Qed.

Lemma sleep_post me c s Q :
  (forall s', leading me s' -> Q tt s') -> post (leading me) (sleep me c LPtable s) Q.
Proof.
  intros H. unfold sleep. rewrite !decide_True by done. rewrite kbind_ret, bind_p_set.
  apply post_bind, sched_post. intros s' Hs'. rewrite bind_p_set. by apply H, leading_upd.
Qed.

Lemma release_post E lk s Q : Q tt (unlocked lk s) -> post E (release lk s) Q.
Proof. intros H. unfold release. by destruct (holding lk s). Qed.

Lemma acquire_post E lk s Q : (forall s', E s' -> Q tt (granted lk s s')) -> post E (acquire lk s) Q.
Proof. intros H. unfold acquire. by destruct (holding lk s). Qed.

Definition tgkill_post (me : nat) (r : Z) s : Prop :=
  (r = 0 /\ forall i, (i < NPROC)%nat -> pid (slot_of s i) = pid (slot_of s me) -> tid (slot_of s i) = -1)
  \/ (r = -1 /\ killed (slot_of s me) <> 0).

Lemma tgkill_loop_post me fuel s :
  leading me s -> post (leading me) (tgkill_loop me fuel s) (tgkill_post me).
Proof.
  revert s. induction fuel as [|fuel IH]; intros s [Ht Hp]; [done|]. cbn [tgkill_loop].
  apply post_bind. eapply post_mono; [|by apply reap_threads_post].
  intros [] s1 (H1 & _ & H3); cbn [negb].
  - rewrite bind_p. destruct (Z.eqb_spec (killed (slot_of s1 me)) 0) as [|Hk]; cbn [negb].
    + by apply post_bind, sleep_post.
    + apply post_bind, release_post. by right.
  - apply post_bind, release_post. left. split; [done|]. intros i Hi Hpi.
    assert (i ∈ seq 0 NPROC) as Hin by (apply elem_of_seq; lia).
    specialize (H3 eq_refl i Hin). unfold member in H3.
    change (slot_of (unlocked LPtable s1)) with (slot_of s1) in *. rewrite Hpi, Z.eqb_refl in H3. simpl in H3. lia.
Qed.

(** The memory of the dead threads of the group among [js] can be freed. *)
Inductive frees_all (me : nat) s : list nat -> pmem -> pmem -> Prop :=
| fa_nil m : frees_all me s [] m m
| fa_skip i js m m' : member me s i = false -> frees_all me s js m m' -> frees_all me s (i :: js) m m'
| fa_free i js m m1 m' : member me s i = true -> state (slot_of s i) = ZOMBIE ->
    frees (slot_of s i) m m1 -> frees_all me s js m1 m' -> frees_all me s (i :: js) m m'.

Definition same_stacks (p p' : proc) : Prop :=
  pid p' = pid p /\ tid p' = tid p /\ kstack p' = kstack p /\ tstackalloc p' = tstackalloc p
  /\ pgdir p' = pgdir p /\ tstack p' = tstack p /\ (state p = ZOMBIE -> state p' = ZOMBIE).

Lemma frees_all_ext me s s' js m m' :
  (forall i, same_stacks (slot_of s i) (slot_of s' i)) -> frees_all me s js m m' -> frees_all me s' js m m'.
Proof.
  intros Hs. assert (forall i, member me s' i = member me s i) as Hmem.
  { intros i. unfold member. destruct (Hs i) as (-> & -> & _), (Hs me) as (-> & _). done. }
  induction 1 as [m|i js m m' Hi _ IH|i js m m1 m' Hi Hz (m2 & E1 & E2) _ IH].
  - constructor.
  - constructor; [by rewrite Hmem|done].
  - destruct (Hs i) as (_ & _ & H3 & H4 & H5 & H6 & H7). apply (fa_free me s' i js m m1); [by rewrite Hmem|auto| |done].
    exists m2. by rewrite H3, H4, H5, H6.
Qed.

Lemma kill_thread_stacks pid_ p : same_stacks p (kill_thread pid_ p).
Proof.
  unfold kill_thread, same_stacks. destruct (_ && _); [|tauto]. simpl.
  case_bool_decide; simpl; repeat split; congruence.
Qed.

(** The table after the first loop of tgkill. *)
Lemma slot_kill_thread me s i :
  leading me s ->
  slot_of (put_procs (kill_thread (pid (slot_of s me)) <$> procs s) s) i
  = kill_thread (pid (slot_of s me)) (slot_of s i).
Proof.
  intros [_ Hp]. apply slot_map. unfold kill_thread. change (pid proc0) with 0.
  by destruct (Z.eqb_spec 0 (pid (slot_of s me))); [lia|].
Qed.


Lemma reap_dead me s0 js m m' :
  frees_all me s0 js m m' -> NoDup js -> leading me s0 ->
  forall s, mem s = m -> slot_of s me = slot_of s0 me -> (forall i, i ∈ js -> slot_of s i = slot_of s0 i) ->
  exists l, reap_threads me js s = Done false (put_mem m' (put_procs l s)).
Proof.
  intros Hf. induction Hf as [m|i js m m' Hi Hf IH|i js m m1 m' Hi Hz H1 Hf IH]; intros Hnd Hl s Hm Hme Hs.
  - exists (procs s). subst m. by destruct s.
  - apply NoDup_cons in Hnd as [Hni Hnd].
    destruct (IH Hnd Hl s Hm Hme) as (l & E); [intros; apply Hs; by right|]. exists l. rewrite <- E.
    cbn [reap_threads]. rewrite bind_get, (Hs i), Hme by left.
    unfold member in Hi. by destruct (_ =? _), (_ =? _).
  - apply NoDup_cons in Hnd as [Hni Hnd]. cbn [reap_threads]. rewrite bind_get, (Hs i), Hme by left.
    apply andb_true_iff in Hi as [E1 E2]. rewrite E1. apply negb_true_iff in E2. rewrite E2. cbn [negb orb].
    assert (me <> i) by (intros <-; destruct Hl as [Ht _]; by rewrite Ht in E2).
    rewrite decide_True by done. rewrite (free_thread_run i s m1), bind_p_set by (rewrite Hm, (Hs i); [done|left]).
    match goal with |- context [reap_threads me js ?x] => destruct (IH Hnd Hl x) as (l & E) end.
    + done.
    + rewrite slot_upd_ne by done. change (slot_of (put_mem m1 ?x)) with (slot_of x). by rewrite slot_upd_ne.
    + intros j Hj. assert (j <> i) by congruence. rewrite slot_upd_ne by done.
      change (slot_of (put_mem m1 ?x)) with (slot_of x). rewrite slot_upd_ne by done. apply Hs. by right.
    + exists l. by rewrite E.
Qed.

(** tgkill called by a group leader whose threads are all dead by the
    time it gets the process table frees their stacks and returns 0 at once. *)
Theorem tgkill_dead (me fuel : nat) s :
  leading me s -> mine s = [] ->
  exists k, tgkill me (S fuel) s = Switch (SwAcquire LPtable) s k
    /\ forall s' m', leading me s' -> LPtable ∉ locked s' -> frees_all me s' (seq 0 NPROC) (mem s') m' ->
       exists l, k s' = Done 0 (put_mem m' (put_procs l (locals s s'))).
Proof.
  intros Hl Hm. unfold tgkill. rewrite bind_get. unfold THREAD_LEADER. rewrite (proj1 Hl).
  rewrite bool_decide_eq_true_2 by done. cbn [negb]. rewrite critical_run by (rewrite Hm; inversion 1).
  eexists. split; [done|]. intros s' m' Hl' Hfree Hf. cbv beta. rewrite bind_change.
  set (g := granted LPtable s s'). set (s1 := put_procs _ g). assert (leading me g) as Hg by done.
  assert (forall i, same_stacks (slot_of s' i) (slot_of s1 i)) as Hs.
  { intros i. unfold s1. rewrite slot_kill_thread by done. apply kill_thread_stacks. }
  destruct (reap_dead me s1 (seq 0 NPROC) (mem s') m' (frees_all_ext me s' s1 _ _ _ Hs Hf)
    (NoDup_seq 0 NPROC)) with (s := s1) as (l & E); try done.
  { destruct (Hs me) as (E1 & E2 & _). unfold leading. by rewrite E1, E2. }
  exists l. cbn [tgkill_loop]. rewrite (bind_done _ _ _ _ _ E). cbn [negb]. rewrite bind_release by left.
  unfold mret, K_ret. f_equal. apply unlocked_eq; try done. simpl. rewrite Hm. inversion 1.
Qed.

End life.

(** * Witnesses *)

#[local] Existing Instances no_inodes no_inodes_plain sample_tables sample_link.

Lemma kill_spec_witness :
  exists k, kill 1 (ks sample_machine) = Switch (SwAcquire LPtable) (ks sample_machine) k
    /\ k (ks sample_machine) = Done 0 (upd 0 mark_killed (locals (ks sample_machine) (ks sample_machine))).
Proof.
  destruct (kill_spec 1 (ks sample_machine)) as (k & H1 & H2); [inversion 1|lia|].
  exists k. split; [exact H1|].
  destruct (H2 (ks sample_machine) (proj1 sample_fresh)) as [H3 _]; [inversion 1|].
  exact (proj1 (H3 0%nat eq_refl eq_refl)).
Defined.

(** The first process holds the lock of the clock. *)
Definition sample_ticks : kst unit := put_mine [LTicks] (put_locked [LTicks] (ks sample_machine)).

Lemma sleep_wakeup_witness :
  exists k1 s2 k2, sleep 0 (Some CTicks) LTicks sample_ticks = Switch (SwAcquire LPtable) sample_ticks k1
    /\ k1 sample_ticks = Switch SwSched s2 k2 /\ state (slot_of s2 0) = SLEEPING /\ LTicks ∉ locked s2.
Proof.
  destruct (sleep_wakeup 0 (Some CTicks) LTicks sample_ticks) as (k1 & H1 & H2); [discriminate|reflexivity|].
  destruct (H2 sample_ticks) as (s2 & k2 & H3 & H4 & _ & H5 & _);
    [vm_compute; lia|apply (bool_decide_unpack _); vm_compute; exact I|].
  exists k1, s2, k2. split; [exact H1|]. split; [exact H3|]. split; [exact H4|exact H5].
Defined.

(** The thread of the first process runs. *)
Definition sample_running : kst unit := put_mine [] (ks (next 1 sample_cloned)).


(** The first process has a child that exited, with an empty page table. *)
Definition bereaved : kst unit :=
  put_procs (sample_init :: set_parent (Some 0%nat) (set_state ZOMBIE (set_pgdir (pg 9) (set_pid 2
    (set_kstack (pg 8) sample_init)))) :: replicate 62 proc0) (ks sample_machine).

Lemma bereaved_freed : exists m1 m2,
  kfree (kstack (slot_of bereaved 1)) (mem bereaved) = OK tt m1
  /\ freevm (pgdir (slot_of bereaved 1)) m1 = OK tt m2.
Proof.
  exists (final (kfree (pg 8) sample_grown)), (final (freevm (pg 9) (final (kfree (pg 8) sample_grown)))).
  split; apply succeeds_final; vm_compute; reflexivity.
Qed.

(** Reading user memory changes nothing. *)
Lemma ld_user_pure cur va s v : returns (ld_user cur va s) v = true -> ld_user cur va s = OK v s.
Proof.
  intros H. apply returns_final in H. rewrite H. f_equal.
  revert H. unfold ld_user, walkpgdir, ld, gets, fault, mbind, M_bind, mret, M_ret.
  repeat (case_match; simplify_eq; try done); simpl; try congruence.
Qed.

Lemma bereaved_null : null_parent 0 bereaved 0.
Proof. apply ld_user_pure. vm_compute. reflexivity. Qed.

Lemma wait_spec_witness :
  exists k m2, wait 0 1 bereaved = Switch (SwAcquire LPtable) bereaved k
    /\ k bereaved = Done 2 (reaped 1 m2 (locals bereaved bereaved)).
Proof.
  destruct (wait_spec 0 0 bereaved) as (k & H1 & H2); [reflexivity|].
  destruct bereaved_freed as (m1 & m2 & E1 & E2).
  pose proof bereaved_null as Hv.
  destruct (H2 bereaved 0 Hv) as [H3 _]; [inversion 1|vm_compute; lia|].
  exists k, m2. split; [exact H1|].
  apply (H3 1%nat m1 m2); [vm_compute; lia|vm_compute; reflexivity| |exact E1|exact E2].
  intros [|j] Hj; [vm_compute; reflexivity|lia].
Defined.

(** The thread of the first process has exited. *)
Definition sample_exited : kst unit := put_mine [] (ks (next 1 (start 1 EExit (next 1 sample_cloned)))).

Lemma sample_exited_frees : exists m', frees (slot_of sample_exited 1) (mem sample_exited) m'.
Proof.
  eexists. exists (final (kfree (kstack (slot_of sample_exited 1)) (mem sample_exited))).
  split; [apply succeeds_final; vm_compute; reflexivity|].
  assert (tstackalloc (slot_of sample_exited 1) =? 0 = true) as -> by (vm_compute; reflexivity). reflexivity.
Qed.


Lemma sample_leading : leading 0 sample_exited.
Proof. split; vm_compute; reflexivity. Qed.


Lemma sample_exited_frees_all : exists m', frees_all 0 sample_exited (seq 0 NPROC) (mem sample_exited) m'.
Proof.
  destruct sample_exited_frees as (m' & Hm). exists m'.
  apply fa_skip; [vm_compute; reflexivity|].
  apply (fa_free _ _ _ _ _ m'); [vm_compute; reflexivity..|exact Hm|].
  assert (Forall (fun i => member 0 sample_exited i = false) (seq 2 62)) as Hf.
  { apply (bool_decide_unpack _). vm_compute. exact I. }
  change (frees_all 0 sample_exited (seq 2 62) m' m').
  induction Hf; [apply fa_nil|by apply fa_skip].
Qed.

Lemma tgkill_dead_witness :
  exists k l m', tgkill 0 1 sample_exited = Switch (SwAcquire LPtable) sample_exited k
    /\ k sample_exited = Done 0 (put_mem m' (put_procs l (locals sample_exited sample_exited))).
Proof.
  destruct (tgkill_dead 0 0 sample_exited sample_leading eq_refl) as (k & H1 & H2).
  destruct sample_exited_frees_all as (m' & Hm).
  destruct (H2 sample_exited m' sample_leading) as (l & H3);
    [apply (bool_decide_unpack _); vm_compute; exact I|exact Hm|].
  exists k, l, m'. split; [exact H1|exact H3].
Defined.
