(* ===== verification/Fifo.v ===== *)
(** Pipes are first-in first-out queues of bytes, whatever the readers and
    writers do at the switch points: the abstract view of struct pipe, and
    the theorems about pipewrite and piperead. *)

From S2P Require Import Prelude Mmu Kalloc Vm Kernel Sched Pipe Rely Machine Life.

(** * The queue in a pipe *)

Definition count (x : pipe) : Z := u32 (nwrite x - nread x).

Ltac plia := unfold count, PIPESIZE, u32, push_byte, drop_byte in *; cbn [nread nwrite data] in *; lia.

(** The bytes written and not yet read, oldest first. *)
Definition queue (x : pipe) : list Z :=
  (fun k => data x !!! Z.to_nat ((nread x + Z.of_nat k) mod PIPESIZE)) <$> seq 0 (Z.to_nat (count x)).

Record pipe_ok (x : pipe) : Prop := {
  po_data : length (data x) = 512%nat;
  po_read : 0 <= nread x < 2 ^ 32;
  po_write : 0 <= nwrite x < 2 ^ 32;
  po_count : count x <= PIPESIZE;
}.

Lemma length_queue x : Z.of_nat (length (queue x)) = count x.
Proof. unfold queue, count. rewrite length_fmap, length_seq. plia. Qed.

Lemma full_spec x : pipe_ok x -> full x = true <-> count x = PIPESIZE.
Proof. intros [H1 H2 H3 H4]. unfold full, count in *. rewrite Z.eqb_eq. plia. Qed.

Lemma empty_spec x : pipe_ok x -> empty x = true <-> queue x = [].
Proof.
  intros [H1 H2 H3 H4]. pose proof (length_queue x) as Hl. unfold empty, count in *. rewrite Z.eqb_eq. split.
  - intros He. apply length_zero_iff_nil. plia.
  - intros Hq. rewrite Hq in Hl. simpl in Hl. plia.
Qed.

Lemma not_full x : pipe_ok x -> full x = false -> count x < PIPESIZE.
Proof.
  intros Hx Hf. destruct (full_spec x Hx) as [_ Hs]. destruct Hx as [_ _ _ H4].
  destruct (Z.eq_dec (count x) PIPESIZE) as [E|]; [|lia]. by rewrite Hs in Hf.
Qed.

Lemma count_push c x : pipe_ok x -> full x = false -> count (push_byte c x) = count x + 1.
Proof.
  intros Hx Hf. pose proof (not_full x Hx Hf) as Hlt. unfold PIPESIZE in Hlt. unfold count in *. simpl.
  pose proof (u32_range (nwrite x - nread x)). rewrite <- (u32_id (u32 (nwrite x - nread x) + 1)) by lia.
  unfold u32. rewrite Zminus_mod_idemp_l, Zplus_mod_idemp_l. f_equal. lia.
Qed.

Lemma count_drop x : pipe_ok x -> empty x = false -> count (drop_byte x) = count x - 1.
Proof.
  intros [_ H2 H3 _] He. unfold empty in He. apply Z.eqb_neq in He.
  unfold count in *. simpl. pose proof (u32_range (nwrite x - nread x)).
  assert (u32 (nwrite x - nread x) <> 0) by (unfold u32; lia).
  rewrite <- (u32_id (u32 (nwrite x - nread x) - 1)) by lia.
  unfold u32. rewrite Zminus_mod_idemp_r, Zminus_mod_idemp_l. f_equal. lia.
Qed.

(** The place after the last byte is where the next one goes. *)
Lemma write_place x : pipe_ok x -> nwrite x mod PIPESIZE = (nread x + count x) mod PIPESIZE.
Proof.
  intros [_ H2 H3 _]. unfold count, u32, PIPESIZE.
  rewrite (Z.mod_eq (nwrite x - nread x) (2 ^ 32)) by lia.
  replace (nread x + _) with (nwrite x + - ((nwrite x - nread x) / 2 ^ 32) * 2 ^ 23 * 512) by lia.
  by rewrite Z_mod_plus_full.
Qed.

Lemma push_ok c x : pipe_ok x -> full x = false -> pipe_ok (push_byte c x).
Proof.
  intros Hx Hf. pose proof (not_full x Hx Hf) as Hlt. pose proof Hx as [H1 H2 H3 H4].
  split; simpl; [by rewrite length_insert|done|apply u32_range|].
  rewrite count_push by done. lia.
Qed.

(** Distinct offsets below the size are distinct places. *)
Lemma place_inj n i j : 0 <= i < PIPESIZE -> 0 <= j < PIPESIZE ->
  (n + i) mod PIPESIZE = (n + j) mod PIPESIZE -> i = j.
Proof. intros. plia. Qed.

Lemma push_queue c x : pipe_ok x -> full x = false -> queue (push_byte c x) = queue x ++ [c].
Proof.
  intros Hx Hf. pose proof (not_full x Hx Hf) as Hlt. pose proof (write_place x Hx) as Hw.
  assert (0 <= count x) as H0 by apply u32_range. pose proof (po_data x Hx) as Hd.
  unfold queue. rewrite count_push, Z2Nat.inj_add by (done || lia). rewrite seq_app, fmap_app. simpl.
  rewrite Hw. f_equal.
  - apply list_fmap_ext. intros k y Hy. apply lookup_seq in Hy as [-> Hk]. simpl.
    rewrite list_lookup_total_insert_ne; [done|]. intros E.
    apply Z2Nat.inj in E; [|unfold PIPESIZE; lia..].
    apply place_inj in E; lia.
  - f_equal. rewrite Z2Nat.id by done. apply list_lookup_total_insert_eq. unfold PIPESIZE. lia.
Qed.

Lemma drop_queue x : pipe_ok x -> empty x = false ->
  pipe_ok (drop_byte x) /\ queue x = next_byte x :: queue (drop_byte x).
Proof.
  intros Hx He. pose proof (count_drop x Hx He) as Hc. destruct Hx as [H1 H2 H3 H4].
  split; [split; simpl; [done|apply u32_range|done|rewrite Hc; lia]|].
  assert (0 <= count (drop_byte x)) by apply u32_range.
  assert (Z.to_nat (count x) = S (Z.to_nat (count (drop_byte x)))) as E by lia.
  unfold queue. rewrite E. simpl seq. rewrite fmap_cons. f_equal.
  - unfold next_byte. do 3 f_equal. lia.
  - rewrite <- fmap_S_seq, <- list_fmap_compose. apply list_fmap_ext. intros k y Hy. simpl. f_equal.
    plia.
Qed.

(** * What one process does to a pipe *)

Section fifo.
Context {FS : Type} `{L : Link} `{I : Inodes FS}.
Implicit Types s : kst FS.
Notation K := (K FS).

(** The process last got control when the queue of pipe [p] was [q]; until
    then it had appended [sent] to the queue and taken [got] from it.  At
    every switch, and when it returns, what it did since is to append some
    bytes to [q] and to take some from its front.  The others may change the
    queue when the process does not hold the lock of the pipe, and wake it at
    most [b] times; it never panics and never runs out of fuel. *)
Fixpoint fifo {A} (b : nat) (me : nat) (p : Z) (q sent got : list Z) (o : outcome FS A)
    (Q : A -> list Z -> list Z -> kst FS -> Prop) : Prop :=
  match o with
  | Done a s => exists w r, q ++ w = r ++ queue (pipe_of s p) /\ pipe_ok (pipe_of s p) /\ Q a (sent ++ w) (got ++ r) s
  | Halt _ _ | Fuel _ => False
  | Switch y s k =>
    exists w r, q ++ w = r ++ queue (pipe_of s p) /\ pipe_ok (pipe_of s p)
      /\ forall b', (match y with SwSched => b = S b' | _ => b = b' end) ->
         forall s', pipe_ok (pipe_of s' p) -> (LPipe p ∈ mine s -> pipe_of s' p = pipe_of s p) ->
           (me < length (procs s'))%nat ->
           fifo b' me p (queue (pipe_of s' p)) (sent ++ w) (got ++ r) (k s') Q
  end.

Lemma fifo_shift {A} b me p q q' w r sent got (o : outcome FS A) Q :
  q ++ w = r ++ q' -> fifo b me p q' (sent ++ w) (got ++ r) o Q -> fifo b me p q sent got o Q.
Proof.
  intros Hq. destruct o as [a s|msg s|s|y s k]; simpl; [|done|done|];
    intros (w' & r' & Hw & H); exists (w ++ w'), (r ++ r');
    (split; [by rewrite app_assoc, Hq, <- app_assoc, Hw, app_assoc|]);
    rewrite !(app_assoc sent), !(app_assoc got); done.
Qed.

Lemma fifo_acquire {B} b me p lk q sent got (f : unit -> K B) s Q :
  lk ∉ mine s -> pipe_ok (pipe_of s p) -> q = queue (pipe_of s p) ->
  (forall s', pipe_ok (pipe_of s' p) -> (LPipe p ∈ mine s -> pipe_of s' p = pipe_of s p) ->
     (me < length (procs s'))%nat -> fifo b me p (queue (pipe_of s' p)) sent got (f tt (granted lk s s')) Q) ->
  fifo b me p q sent got ((acquire lk ≫= f) s) Q.
Proof.
  intros H1 H2 -> H3. rewrite (bind_switch _ _ _ _ _ _ (acquire_run lk s H1)). simpl.
  exists [], []. rewrite !app_nil_r. split; [done|]. split; [done|]. intros b' <-. apply H3.
Qed.

Lemma fifo_assoc {A B C} b me p q sent got (m : K A) (f : A -> K B) (g : B -> K C) s Q :
  fifo b me p q sent got ((m ≫= (fun a => f a ≫= g)) s) Q ->
  fifo b me p q sent got (((m ≫= f) ≫= g) s) Q.
Proof.
  unfold mbind, K_bind. revert b q sent got.
  induction (m s) as [a s1|msg s1|s1|y s1 k IH]; intros b q sent got; simpl; try done.
  intros (w & r & H1 & H2 & H3). exists w, r. split; [done|]. split; [done|]. eauto.
Qed.

(** The process holds the lock of the pipe, and no other. *)
Definition in_pipe (p : Z) s : Prop := mine s = [LPipe p] /\ pipe_ok (pipe_of s p).

Lemma fifo_wakeup {B} b me p c sent got (f : unit -> K B) s Q :
  in_pipe p s ->
  (forall s', in_pipe p s' -> pipe_of s' p = pipe_of s p -> (me < length (procs s'))%nat ->
     fifo b me p (queue (pipe_of s' p)) sent got (f tt s') Q) ->
  fifo b me p (queue (pipe_of s p)) sent got ((wakeup c ≫= f) s) Q.
Proof.
  intros [Hm Hok] Hf. unfold wakeup, wakeup1. apply fifo_assoc, fifo_acquire; [rewrite Hm; set_solver|done|done|].
  intros s' Hok' Hsame Hme. assert (pipe_of s' p = pipe_of s p) as E by (apply Hsame; rewrite Hm; left).
  apply fifo_assoc. rewrite bind_change, bind_release by left.
  match goal with |- context [f tt ?x] => apply (Hf x); [|done|] end.
  - split; [|done]. simpl. rewrite remove_cons by (rewrite Hm; set_solver). done.
  - simpl. by rewrite length_fmap.
Qed.

Lemma fifo_sleep {B} b me p c sent got (f : unit -> K B) s Q :
  in_pipe p s -> (me < length (procs s))%nat ->
  (forall b' s', b = S b' -> in_pipe p s' -> (me < length (procs s'))%nat ->
     fifo b' me p (queue (pipe_of s' p)) sent got (f tt s') Q) ->
  fifo b me p (queue (pipe_of s p)) sent got ((sleep me c (LPipe p) ≫= f) s) Q.
Proof.
  intros [Hm Hok] Hme Hf. unfold sleep. rewrite !decide_False by done.
  apply fifo_assoc, fifo_assoc, fifo_acquire; [rewrite Hm; set_solver|done|done|].
  intros s1 Hok1 Hsame Hme1. assert (pipe_of s1 p = pipe_of s p) as E by (apply Hsame; rewrite Hm; left).
  rewrite bind_release by (simpl; rewrite Hm; set_solver). apply fifo_assoc. rewrite bind_p_set.
  apply fifo_assoc. erewrite bind_switch;
    [|apply sched_run; [simpl; rewrite Hm|by rewrite slot_upd_eq]].
  2:{ unfold remove. rewrite filter_cons, decide_True by auto. f_equal. apply remove_cons. set_solver. }
  exists [], []. rewrite !app_nil_r. split; [done|]. split; [done|]. intros b' -> s2 Hok2 _ Hme2. cbv beta. simpl obind.
  apply fifo_assoc. rewrite bind_p_set. apply fifo_assoc. rewrite bind_release by left.
  apply fifo_acquire; [simpl; rewrite remove_cons; set_solver|done|done|].
  intros s3 Hok3 _ Hme3. match goal with |- context [f tt ?x] => apply (Hf b' x); [done| |done] end.
  split; [|done]. simpl. rewrite remove_cons; set_solver.
Qed.

Lemma fifo_done {A} b me p sent got (a : A) s (Q : A -> list Z -> list Z -> kst FS -> Prop) :
  pipe_ok (pipe_of s p) -> Q a sent got s -> fifo b me p (queue (pipe_of s p)) sent got (Done a s) Q.
Proof. intros H1 H2. exists [], []. by rewrite !app_nil_r. Qed.

Lemma pipe_of_set p g s : pipe_of (put_pipes (<[p := g (pipe_of s p)]> (pipes s)) s) p = g (pipe_of s p).
Proof. unfold pipe_of at 1. simpl. by rewrite lookup_insert_eq. Qed.

(** The results of pipewrite: all of [l] was appended; or the pipe is full,
    and nobody can read from it or the caller was killed, after a part of
    [l] was appended. *)
Definition wrote (me : nat) (p : Z) (l : list Z) (r : Z) (sent got : list Z) s : Prop :=
  got = [] /\ ((r = Z.of_nat (length l) /\ sent = l)
    \/ (r = -1 /\ sent `prefix_of` l /\ count (pipe_of s p) = PIPESIZE
        /\ (readopen (pipe_of s p) = false \/ killed (slot_of s me) <> 0))).

Lemma pipewrite_loop_fifo me p l fuel b rest sent s :
  l = sent ++ rest -> in_pipe p s -> (me < length (procs s))%nat -> (length rest + b < fuel)%nat ->
  fifo b me p (queue (pipe_of s p)) sent [] (pipewrite_loop me p rest (Z.of_nat (length l)) fuel s) (wrote me p l).
Proof.
  revert b rest sent s. induction fuel as [|fuel IH]; intros b rest sent s Hl Hin Hme Hfuel; [lia|].
  destruct rest as [|c rest]; cbn [pipewrite_loop].
  - apply fifo_wakeup; [done|]. intros s' [Hm' Hok'] _ _. rewrite bind_release by (rewrite Hm'; left).
    apply (fifo_done b me p sent [] _ (unlocked (LPipe p) s')); [done|].
    split; [done|]. left. rewrite app_nil_r in Hl. by subst.
  - rewrite bind_get. pose proof Hin as [Hm Hok]. destruct (full (pipe_of s p)) eqn:Hfull.
    + destruct (negb (readopen _) || negb _) eqn:Hstop.
      * rewrite bind_release by (rewrite Hm; left).
        apply (fifo_done b me p sent [] _ (unlocked (LPipe p) s)); [done|].
        split; [done|]. right. split; [done|]. split; [by exists (c :: rest)|]. split; [by apply full_spec|].
        apply orb_true_iff in Hstop as [H|H]; [left; by apply negb_true_iff|right; apply Z.eqb_neq; by apply negb_true_iff].
      * apply fifo_wakeup; [done|]. intros s1 Hin1 E1 Hme1. apply fifo_sleep; [done..|].
        intros b' s2 -> Hin2 Hme2. apply IH; [done..|simpl in *; lia].
    + unfold pipe_set. rewrite bind_change. set (s1 := put_pipes _ s).
      assert (pipe_of s1 p = push_byte c (pipe_of s p)) as E by apply pipe_of_set.
      apply (fifo_shift _ _ _ _ (queue (pipe_of s1 p)) [c] []); [by rewrite E, push_queue|].
      apply IH; [by rewrite <- app_assoc| |done|simpl in *; lia].
      split; [done|]. rewrite E. by apply push_ok.
Qed.

(** C6: Writing to a pipe, whatever the readers and the other writers do
    while the writer does not hold the pipe's lock: at every switch it has
    only appended bytes of its buffer, in order, to the queue in the pipe,
    which never holds more than 512; it returns the length of the buffer when
    all of it was appended, and -1 only when the pipe is full and its read
    end is closed or the writer was killed.  It does not panic, and each time
    it waits it has been woken since. *)
Theorem pipewrite_fifo (b me : nat) (p : Z) (addr : list Z) (fuel : nat) s :
  mine s = [] -> pipe_ok (pipe_of s p) -> (length addr + b < fuel)%nat ->
  fifo b me p (queue (pipe_of s p)) [] [] (pipewrite me p addr fuel s) (wrote me p addr).
Proof.
  intros Hm Hok Hfuel. apply fifo_acquire; [rewrite Hm; set_solver|done|done|].
  intros s' Hok' _ Hme. apply (pipewrite_loop_fifo me p addr fuel b addr [] (granted (LPipe p) s s'));
    [done| |done|done].
  split; [simpl; by rewrite Hm|done].
Qed.

Lemma piperead_copy_spec x n x' l :
  pipe_ok x -> piperead_copy x n = (x', l) ->
  pipe_ok x' /\ queue x = l ++ queue x' /\ (length l <= n)%nat
  /\ ((length l < n)%nat -> queue x' = []) /\ writeopen x' = writeopen x.
Proof.
  revert x l. induction n as [|n IH]; intros x l Hok; simpl.
  { intros [= <- <-]. simpl. split; [done|]. repeat split; lia. }
  destruct (empty x) eqn:He.
  - intros [= <- <-]. apply empty_spec in He as Hq; [|done]. rewrite Hq. simpl. split; [done|]. repeat split; lia.
  - destruct (piperead_copy (drop_byte x) n) as [x1 l1] eqn:E. intros [= <- <-].
    destruct (drop_queue x Hok He) as [Hok' Hq]. destruct (IH _ _ Hok' E) as (H1 & H2 & H3 & H4 & H5).
    rewrite Hq, H2. simpl. split; [done|]. split; [done|]. split; [lia|]. split; [|done]. intros. apply H4. lia.
Qed.

Lemma piperead_wait_fifo {B} me p fuel b s (f : bool -> K B) Q :
  in_pipe p s -> (me < length (procs s))%nat -> (b < fuel)%nat ->
  (forall b' s', in_pipe p s' -> (me < length (procs s'))%nat ->
     queue (pipe_of s' p) <> [] \/ writeopen (pipe_of s' p) = false ->
     fifo b' me p (queue (pipe_of s' p)) [] [] (f true s') Q) ->
  (forall b' s', pipe_ok (pipe_of s' p) -> killed (slot_of s' me) <> 0 ->
     fifo b' me p (queue (pipe_of s' p)) [] [] (f false s') Q) ->
  fifo b me p (queue (pipe_of s p)) [] [] ((piperead_wait me p fuel ≫= f) s) Q.
Proof.
  intros Hin Hme Hfuel Ht Hf. revert b s Hin Hme Hfuel.
  induction fuel as [|fuel IH]; intros b s Hin Hme Hfuel; [lia|].
  cbn [piperead_wait]. apply fifo_assoc. rewrite bind_get. pose proof Hin as [Hm Hok].
  destruct (empty (pipe_of s p) && writeopen (pipe_of s p)) eqn:He.
  - destruct (Z.eqb_spec (killed (slot_of s me)) 0) as [Hk|Hk]; cbn [negb].
    + apply fifo_assoc, fifo_sleep; [done..|]. intros b' s' -> Hin' Hme'. apply IH; [done..|lia].
    + apply fifo_assoc. rewrite bind_release by (rewrite Hm; left). by apply (Hf b (unlocked (LPipe p) s)).
  - apply andb_false_iff in He as [He|He]; apply Ht; try done; [left|by right].
    intros Hq. apply empty_spec in Hq; [congruence|done].
Qed.

(** The results of piperead: the oldest bytes of the pipe, as many as were
    asked for unless the pipe was drained; none only at the end of the file,
    or when none was asked for; -1 when the caller was killed. *)
Definition took (me : nat) (p n : Z) (r : Z * list Z) (sent got : list Z) s : Prop :=
  sent = [] /\ ((fst r = Z.of_nat (length (snd r)) /\ got = snd r /\ (length got <= Z.to_nat n)%nat
      /\ ((length got < Z.to_nat n)%nat -> queue (pipe_of s p) = [])
      /\ (got = [] -> 0 < n -> writeopen (pipe_of s p) = false))
    \/ (r = (-1, []) /\ got = [] /\ killed (slot_of s me) <> 0)).

(** C10: Reading from a pipe, whatever the writers and the other readers do
    while the reader does not hold the pipe's lock: it takes bytes only from
    the front of the queue in the pipe, in one step, and returns exactly
    those: as many as were asked for, or all there are; it returns none only
    when the write end is closed, and -1 only when it was killed. *)
Theorem piperead_fifo (b me : nat) (p n : Z) (fuel : nat) s :
  mine s = [] -> pipe_ok (pipe_of s p) -> (b < fuel)%nat ->
  fifo b me p (queue (pipe_of s p)) [] [] (piperead me p n fuel s) (took me p n).
Proof.
  intros Hm Hok Hfuel. apply fifo_acquire; [rewrite Hm; set_solver|done|done|].
  intros s1 Hok1 _ Hme. assert (in_pipe p (granted (LPipe p) s s1)) as Hin by (split; [simpl; by rewrite Hm|done]).
  apply (piperead_wait_fifo me p fuel b (granted (LPipe p) s s1)); [done..| |].
  - clear s1 Hok1 Hin Hme. intros b' s1 Hin Hme Hor. cbn [negb]. rewrite bind_get.
    destruct (piperead_copy _ _) as [x l] eqn:E. unfold pipe_set. rewrite bind_change.
    destruct (piperead_copy_spec _ _ _ _ (proj2 Hin) E) as (H1 & H2 & H3 & H4 & H5).
    set (s2 := put_pipes _ s1). assert (pipe_of s2 p = x) as Hx by (apply (pipe_of_set p (fun _ => x))).
    apply (fifo_shift _ _ _ _ (queue (pipe_of s2 p)) [] l); [by rewrite app_nil_r, Hx|]. simpl.
    apply fifo_wakeup; [split; [apply Hin|by rewrite Hx]|].
    intros s3 [Hm3 Hok3] E3 _. rewrite bind_release by (rewrite Hm3; left).
    apply (fifo_done b' me p [] l _ (unlocked (LPipe p) s3)); [done|]. split; [done|]. left.
    change (pipe_of (unlocked (LPipe p) s3) p) with (pipe_of s3 p). rewrite E3, Hx. simpl.
    repeat split; try done. intros -> Hn. rewrite H5. destruct Hor as [Hq|]; [|done].
    destruct Hq. rewrite H2. simpl. apply H4. simpl. lia.
  - intros b' s2 Hok2 Hk. cbn [negb]. apply (fifo_done b' me p [] [] (-1, []) s2); [done|].
    split; [done|]. by right.
Qed.

End fifo.

(** * Witnesses *)

Definition sample_pipe : kst unit :=
  put_pipes {[ pg 9 := Pipe (replicate 512 0) 510 510 true true ]} (ks sample_machine).

Lemma sample_pipe_ok : pipe_ok (pipe_of sample_pipe (pg 9)).
Proof. split; vm_compute; try split; congruence. Qed.

Lemma pipewrite_fifo_witness :
  fifo 2 0 (pg 9) [] [] [] (pipewrite 0 (pg 9) [1; 2; 3] 6 sample_pipe) (wrote 0 (pg 9) [1; 2; 3]).
Proof.
  change (@nil Z) with (queue (pipe_of sample_pipe (pg 9))) at 1.
  apply (pipewrite_fifo 2 0 (pg 9) [1; 2; 3] 6 sample_pipe eq_refl sample_pipe_ok). simpl. lia.
Defined.

Lemma piperead_fifo_witness :
  fifo 2 0 (pg 9) [] [] [] (piperead 0 (pg 9) 10 3 sample_pipe) (took 0 (pg 9) 10).
Proof.
  change (@nil Z) with (queue (pipe_of sample_pipe (pg 9))) at 1.
  apply (piperead_fifo 2 0 (pg 9) 10 3 sample_pipe eq_refl sample_pipe_ok). lia.
Defined.
