(* ===== verification/Races.v ===== *)
(** Runs of the machine in which the thread calls break what the rest of
    proc.c relies on: tresume of a thread that has exited, and the exit of a
    group leader that is killed while it waits for its threads. *)

From S2P Require Import Prelude Mmu Kalloc Vm Kernel Sched Pipe Thread Rely Calls VmUser Machine.

#[local] Existing Instances no_inodes sample_tables sample_link.

(** * tresume of a dead thread *)

Definition any_entry (s : kst unit) (i : nat) (e : entry * nat) : bool := true.

#[local] Notation reachable := (reachable kernel_call quiet).

(** The thread made in [sample_cloned] is scheduled and exits; its leader
    resumes it. *)
Definition exited : machine (FS := unit) := next 1 (start 1 EExit (next 1 sample_cloned)).
Definition resumed : machine (FS := unit) := next 0 (start 0 (ETresume 2) exited).

(** What a slot is, and what it would do if it were scheduled now. *)
Definition fate (m : machine (FS := unit)) (i : nat) : option string :=
  c ← conts m i;
  match st_cont c (enter i (st_why c) (ks m)) with Halt msg _ => Some msg | _ => None end.


Lemma sample_stop_none m i : sample_stop m i = None -> conts m i = None.
Proof. unfold sample_stop. by destruct (conts m i). Qed.

Lemma resumed_reachable : reachable any_entry sample_machine resumed.
Proof.
  apply next_reachable, enter_reachable; [reflexivity|].
  apply next_reachable, enter_reachable; [reflexivity|].
  do 3 apply next_reachable. apply enter_reachable; [reflexivity|]. apply mreach_refl.
Qed.

Lemma fate_stop m i msg w b :
  sample_stop m i = Some (w, b) -> fate m i = Some msg ->
  exists s k s', conts m i = Some (Stop w s k) /\ k (enter i w (ks m)) = Halt msg s'.
Proof.
  unfold sample_stop, fate. destruct (conts m i) as [[w' s k]|]; [|done]. simpl.
  intros [= -> _]. destruct (k (enter i w (ks m))) as [| msg' s' | |] eqn:E; try done. intros [= ->].
  by exists s, k, s'.
Qed.

(** C39: A program can panic the kernel with tresume: a thread exits and is a
    ZOMBIE in its last sched; another thread of the group resumes it, which
    makes it RUNNABLE whatever its state was; when the scheduler picks it,
    exit goes on after sched and panics with zombie exit. *)
Theorem tresume_revives_zombie :
  exists m i s k s', reachable any_entry sample_machine m
    /\ conts m i = Some (Stop SwSched s k) /\ state (slot_of s i) = ZOMBIE
    /\ state (slot_of (ks m) i) = RUNNABLE
    /\ k (upd i (set_state RUNNING) (ks m)) = Halt "zombie exit" s'.
Proof.
  exists resumed, 1%nat.
  assert (option_map (fun c => state (slot_of (st_snap c) 1)) (conts resumed 1) = Some ZOMBIE) as Hz
    by (vm_compute; reflexivity).
  destruct (fate_stop resumed 1 "zombie exit" SwSched None) as (s & k & s' & Hc & Hk);
    [vm_compute; reflexivity..|].
  exists s, k, s'. rewrite Hc in Hz. injection Hz as Hz. split; [|split; [exact Hc|split; [exact Hz|split; [|exact Hk]]]].
  - exact resumed_reachable.
  - vm_compute. reflexivity.
Qed.

(** * A leader killed while it exits *)

(** The first process, and a process whose only page is at 0. *)
Definition family_init : proc :=
  set_cwd (Some 0%nat) (set_tid (-1) (set_pid 1 (set_state RUNNING (set_kstack (pg 7) proc0)))).
Definition family_leader : proc :=
  set_parent (Some 0%nat) (set_pid 2 (set_kstack (pg 8) sample_init)).
Definition family : machine (FS := unit) :=
  Mach (Kst sample_grown (family_init :: family_leader :: replicate 62 proc0) 3 (Some 0%nat) [] ∅ 0 [] [] None tt)
    (fun _ => None).

(** The leader makes a thread, which goes into user mode; the leader calls
    exit, and waits for the thread to die. *)
Definition family_waiting : machine (FS := unit) :=
  next 1 (start 1 EExit (next 2 (next 1 (next 1 (start 1 (EClone 0 PGSIZE TFLAGS 5) family))))).
(** init kills the leader, which stops waiting and becomes a ZOMBIE. *)
Definition family_orphaned : machine (FS := unit) :=
  next 1 (next 1 (next 0 (start 0 (EKill 2) family_waiting))).
(** init waits for it. *)
Definition family_reaped : machine (FS := unit) := next 0 (start 0 EWait family_orphaned).


Lemma family_reaped_reachable : reachable no_tresume family family_reaped.
Proof.
  apply next_reachable, enter_reachable; [reflexivity|].
  do 3 apply next_reachable. apply enter_reachable; [reflexivity|].
  apply next_reachable, enter_reachable; [reflexivity|].
  do 3 apply next_reachable. apply enter_reachable; [reflexivity|]. apply mreach_refl.
Qed.

Lemma family_slot (i : nat) : i = 0%nat \/ i = 1%nat \/ slot_of (ks family) i = proc0.
Proof.
  destruct i as [|[|i]]; [by left|by right; left|right; right].
  change (default proc0 (replicate 62 proc0 !! i) = proc0).
  destruct (decide (i < 62)%nat) as [Hi|Hi].
  - by rewrite lookup_replicate_2.
  - by rewrite lookup_ge_None_2 by (rewrite length_replicate; lia).
Qed.

Lemma family_fresh : fresh_machine family.
Proof.
  split; [|done]. split; [done|done| | | |]; intros i; destruct (family_slot i) as [->|[->|Hi]].
  1-3: rewrite ?Hi; vm_compute; split; congruence.
  1-3: intros j; destruct (family_slot j) as [->|[->|Hj]]; rewrite ?Hi, ?Hj; intros H1 H2;
    first [done|by vm_compute in H1|by vm_compute in H2].
  1-3: rewrite ?Hi; vm_compute; congruence.
  1-3: rewrite ?Hi; vm_compute; auto.
Qed.

(** C40: A group leader that is killed while it waits in exit for its threads
    gives up waiting and becomes a ZOMBIE while a thread still runs; when the
    parent waits for it, the page directory that the running thread uses is
    back on the free list. *)
Theorem killed_leader_frees_memory_in_use :
  exists m t, fresh_machine family /\ reachable no_tresume family m
    /\ state (slot_of (ks m) t) = RUNNING /\ conts m t = None
    /\ freelist (kmem (mem (ks m))) = pgdir (slot_of (ks m) t).
Proof.
  exists family_reaped, 2%nat. split; [exact family_fresh|]. split; [exact family_reaped_reachable|].
  split; [vm_compute; reflexivity|]. split; [|vm_compute; reflexivity].
  apply sample_stop_none. vm_compute. reflexivity.
Qed.
