(* ===== verification/Fsys.v ===== *)
(** The data of the file system: disk, buffer cache, log, inode cache and
    console, as one record that is the [fs] field of the kernel's state. *)

From S2P Require Import Prelude Mmu Kernel.

(** * Constants *)

Definition BSIZE : Z := 512.
Definition NDIRECT : Z := 12.
Definition NINDIRECT : Z := BSIZE / 4.
Definition MAXFILE : Z := NDIRECT + NINDIRECT.
Definition ROOTINO : Z := 1.
Definition ROOTDEV : Z := 1.
Definition DIRSIZ : Z := 14.
(** sizeof(struct dinode), inodes per block, bitmap bits per block. *)
Definition DINODE_SIZE : Z := 64.
Definition IPB : Z := BSIZE / DINODE_SIZE.
Definition BPB : Z := BSIZE * 8.
(** sizeof(struct dirent). *)
Definition DIRENT_SIZE : Z := 16.

Definition O_RDONLY : Z := 0x000.
Definition O_WRONLY : Z := 0x001.
Definition O_RDWR : Z := 0x002.
Definition O_CREATE : Z := 0x200.

Definition T_DIR : Z := 1.
Definition T_FILE : Z := 2.
Definition T_DEV : Z := 3.
Definition NDEV : Z := 10.
Definition CONSOLE : Z := 1.

Definition LOGSIZE : Z := MAXOPBLOCKS * 3.
Definition NBUF : nat := 30.
Definition NINODE : nat := 50.
Definition FSSIZE : Z := 1000.
Definition INPUT_BUF : Z := 128.

(** * Blocks *)

(** A block is the list of its bytes. *)
Definition zero_block : list Z := replicate 512 0.
Definition disk_t := gmap Z (list Z).
Definition dblk (d : disk_t) (b : Z) : list Z := default zero_block (d !! b).

(** The fields of C structures in a block, little-endian. *)
Definition rd8 (l : list Z) (o : Z) : Z := l !!! Z.to_nat o.
Definition rd16 (l : list Z) (o : Z) : Z := rd8 l o + 256 * rd8 l (o + 1).
Definition rd32 (l : list Z) (o : Z) : Z := rd16 l o + 65536 * rd16 l (o + 2).
Definition wr8 (l : list Z) (o v : Z) : list Z := <[Z.to_nat o := v mod 256]> l.
Definition wr16 (l : list Z) (o v : Z) : list Z := wr8 (wr8 l o v) (o + 1) (v / 256).
Definition wr32 (l : list Z) (o v : Z) : list Z := wr16 (wr16 l o v) (o + 2) (v / 65536).
(** A short. *)
Definition s16 (z : Z) : Z := (z + 2 ^ 15) mod 2 ^ 16 - 2 ^ 15.

(** memmove of [v] into [l] at offset [o], and of [n] bytes out of it. *)
Definition blit (l : list Z) (o : Z) (v : list Z) : list Z :=
  take (Z.to_nat o) l ++ v ++ drop (Z.to_nat o + length v) l.
Definition slice (l : list Z) (o n : Z) : list Z := take (Z.to_nat n) (drop (Z.to_nat o) l).

(** * Structures *)

(** [struct sleeplock]; its spin lock is one of the [LFs] locks. *)
Record sleeplock := SL {
  sl_locked : bool;
  sl_pid : Z;
}.

Definition set_sl_locked (x : bool) (r : sleeplock) : sleeplock :=
  SL x (sl_pid r).
Definition set_sl_pid (x : Z) (r : sleeplock) : sleeplock :=
  SL (sl_locked r) x.

Definition sl0 : sleeplock := SL false 0.

(** [struct buf]; [b_valid] and [b_dirty] are the bits B_VALID and B_DIRTY of
    flags.  The list pointers are the order of the cache and the disk queue. *)
Record buf := Buf {
  b_valid : bool;
  b_dirty : bool;
  b_dev : Z;
  b_blockno : Z;
  b_lock : sleeplock;
  b_refcnt : Z;
  b_data : list Z;
}.

Definition set_b_valid (x : bool) (r : buf) : buf :=
  Buf x (b_dirty r) (b_dev r) (b_blockno r) (b_lock r) (b_refcnt r) (b_data r).
Definition set_b_dirty (x : bool) (r : buf) : buf :=
  Buf (b_valid r) x (b_dev r) (b_blockno r) (b_lock r) (b_refcnt r) (b_data r).
Definition set_b_dev (x : Z) (r : buf) : buf :=
  Buf (b_valid r) (b_dirty r) x (b_blockno r) (b_lock r) (b_refcnt r) (b_data r).
Definition set_b_blockno (x : Z) (r : buf) : buf :=
  Buf (b_valid r) (b_dirty r) (b_dev r) x (b_lock r) (b_refcnt r) (b_data r).
Definition set_b_lock (x : sleeplock) (r : buf) : buf :=
  Buf (b_valid r) (b_dirty r) (b_dev r) (b_blockno r) x (b_refcnt r) (b_data r).
Definition set_b_refcnt (x : Z) (r : buf) : buf :=
  Buf (b_valid r) (b_dirty r) (b_dev r) (b_blockno r) (b_lock r) x (b_data r).
Definition set_b_data (x : list Z) (r : buf) : buf :=
  Buf (b_valid r) (b_dirty r) (b_dev r) (b_blockno r) (b_lock r) (b_refcnt r) x.

Definition buf0 : buf := Buf false false 0 0 sl0 0 zero_block.

(** [struct logheader]. *)
Record logheader := LH {
  lh_n : Z;
  lh_block : list Z;
}.

Definition set_lh_n (x : Z) (r : logheader) : logheader :=
  LH x (lh_block r).
Definition set_lh_block (x : list Z) (r : logheader) : logheader :=
  LH (lh_n r) x.

(** [struct log]. *)
Record log_t := Log {
  lg_start : Z;
  lg_size : Z;
  lg_outstanding : Z;
  lg_committing : bool;
  lg_dev : Z;
  lg_lh : logheader;
}.

Definition set_lg_start (x : Z) (r : log_t) : log_t :=
  Log x (lg_size r) (lg_outstanding r) (lg_committing r) (lg_dev r) (lg_lh r).
Definition set_lg_size (x : Z) (r : log_t) : log_t :=
  Log (lg_start r) x (lg_outstanding r) (lg_committing r) (lg_dev r) (lg_lh r).
Definition set_lg_outstanding (x : Z) (r : log_t) : log_t :=
  Log (lg_start r) (lg_size r) x (lg_committing r) (lg_dev r) (lg_lh r).
Definition set_lg_committing (x : bool) (r : log_t) : log_t :=
  Log (lg_start r) (lg_size r) (lg_outstanding r) x (lg_dev r) (lg_lh r).
Definition set_lg_dev (x : Z) (r : log_t) : log_t :=
  Log (lg_start r) (lg_size r) (lg_outstanding r) (lg_committing r) x (lg_lh r).
Definition set_lg_lh (x : logheader) (r : log_t) : log_t :=
  Log (lg_start r) (lg_size r) (lg_outstanding r) (lg_committing r) (lg_dev r) x.

(** [struct superblock]. *)
Record superblock := SB {
  sb_size : Z;
  sb_nblocks : Z;
  sb_ninodes : Z;
  sb_nlog : Z;
  sb_logstart : Z;
  sb_inodestart : Z;
  sb_bmapstart : Z;
}.

Definition set_sb_size (x : Z) (r : superblock) : superblock :=
  SB x (sb_nblocks r) (sb_ninodes r) (sb_nlog r) (sb_logstart r) (sb_inodestart r) (sb_bmapstart r).
Definition set_sb_nblocks (x : Z) (r : superblock) : superblock :=
  SB (sb_size r) x (sb_ninodes r) (sb_nlog r) (sb_logstart r) (sb_inodestart r) (sb_bmapstart r).
Definition set_sb_ninodes (x : Z) (r : superblock) : superblock :=
  SB (sb_size r) (sb_nblocks r) x (sb_nlog r) (sb_logstart r) (sb_inodestart r) (sb_bmapstart r).
Definition set_sb_nlog (x : Z) (r : superblock) : superblock :=
  SB (sb_size r) (sb_nblocks r) (sb_ninodes r) x (sb_logstart r) (sb_inodestart r) (sb_bmapstart r).
Definition set_sb_logstart (x : Z) (r : superblock) : superblock :=
  SB (sb_size r) (sb_nblocks r) (sb_ninodes r) (sb_nlog r) x (sb_inodestart r) (sb_bmapstart r).
Definition set_sb_inodestart (x : Z) (r : superblock) : superblock :=
  SB (sb_size r) (sb_nblocks r) (sb_ninodes r) (sb_nlog r) (sb_logstart r) x (sb_bmapstart r).
Definition set_sb_bmapstart (x : Z) (r : superblock) : superblock :=
  SB (sb_size r) (sb_nblocks r) (sb_ninodes r) (sb_nlog r) (sb_logstart r) (sb_inodestart r) x.

(** [struct inode]. *)
Record inode := Inode {
  i_dev : Z;
  i_inum : Z;
  i_ref : Z;
  i_lock : sleeplock;
  i_valid : bool;
  i_type : Z;
  i_major : Z;
  i_minor : Z;
  i_nlink : Z;
  i_size : Z;
  i_addrs : list Z;
}.

Definition set_i_dev (x : Z) (r : inode) : inode :=
  Inode x (i_inum r) (i_ref r) (i_lock r) (i_valid r) (i_type r) (i_major r) (i_minor r) (i_nlink r)
    (i_size r) (i_addrs r).
Definition set_i_inum (x : Z) (r : inode) : inode :=
  Inode (i_dev r) x (i_ref r) (i_lock r) (i_valid r) (i_type r) (i_major r) (i_minor r) (i_nlink r)
    (i_size r) (i_addrs r).
Definition set_i_ref (x : Z) (r : inode) : inode :=
  Inode (i_dev r) (i_inum r) x (i_lock r) (i_valid r) (i_type r) (i_major r) (i_minor r) (i_nlink r)
    (i_size r) (i_addrs r).
Definition set_i_lock (x : sleeplock) (r : inode) : inode :=
  Inode (i_dev r) (i_inum r) (i_ref r) x (i_valid r) (i_type r) (i_major r) (i_minor r) (i_nlink r)
    (i_size r) (i_addrs r).
Definition set_i_valid (x : bool) (r : inode) : inode :=
  Inode (i_dev r) (i_inum r) (i_ref r) (i_lock r) x (i_type r) (i_major r) (i_minor r) (i_nlink r)
    (i_size r) (i_addrs r).
Definition set_i_type (x : Z) (r : inode) : inode :=
  Inode (i_dev r) (i_inum r) (i_ref r) (i_lock r) (i_valid r) x (i_major r) (i_minor r) (i_nlink r)
    (i_size r) (i_addrs r).
Definition set_i_major (x : Z) (r : inode) : inode :=
  Inode (i_dev r) (i_inum r) (i_ref r) (i_lock r) (i_valid r) (i_type r) x (i_minor r) (i_nlink r)
    (i_size r) (i_addrs r).
Definition set_i_minor (x : Z) (r : inode) : inode :=
  Inode (i_dev r) (i_inum r) (i_ref r) (i_lock r) (i_valid r) (i_type r) (i_major r) x (i_nlink r)
    (i_size r) (i_addrs r).
Definition set_i_nlink (x : Z) (r : inode) : inode :=
  Inode (i_dev r) (i_inum r) (i_ref r) (i_lock r) (i_valid r) (i_type r) (i_major r) (i_minor r) x
    (i_size r) (i_addrs r).
Definition set_i_size (x : Z) (r : inode) : inode :=
  Inode (i_dev r) (i_inum r) (i_ref r) (i_lock r) (i_valid r) (i_type r) (i_major r) (i_minor r)
    (i_nlink r) x (i_addrs r).
Definition set_i_addrs (x : list Z) (r : inode) : inode :=
  Inode (i_dev r) (i_inum r) (i_ref r) (i_lock r) (i_valid r) (i_type r) (i_major r) (i_minor r)
    (i_nlink r) (i_size r) x.

Definition inode0 : inode := Inode 0 0 0 sl0 false 0 0 0 0 0 (replicate 13 0).

(** The console: cons.locking, [struct input], the bytes sent to the serial
    port, and the cursor and cells of the screen. *)
Record console_t := Cons {
  cn_locking : bool;
  cn_buf : list Z;
  cn_r : Z;
  cn_w : Z;
  cn_e : Z;
  cn_uart : list Z;
  cn_pos : Z;
  cn_crt : list Z;
  cn_shift : Z;
}.

Definition set_cn_locking (x : bool) (r : console_t) : console_t :=
  Cons x (cn_buf r) (cn_r r) (cn_w r) (cn_e r) (cn_uart r) (cn_pos r) (cn_crt r) (cn_shift r).
Definition set_cn_buf (x : list Z) (r : console_t) : console_t :=
  Cons (cn_locking r) x (cn_r r) (cn_w r) (cn_e r) (cn_uart r) (cn_pos r) (cn_crt r) (cn_shift r).
Definition set_cn_r (x : Z) (r : console_t) : console_t :=
  Cons (cn_locking r) (cn_buf r) x (cn_w r) (cn_e r) (cn_uart r) (cn_pos r) (cn_crt r) (cn_shift r).
Definition set_cn_w (x : Z) (r : console_t) : console_t :=
  Cons (cn_locking r) (cn_buf r) (cn_r r) x (cn_e r) (cn_uart r) (cn_pos r) (cn_crt r) (cn_shift r).
Definition set_cn_e (x : Z) (r : console_t) : console_t :=
  Cons (cn_locking r) (cn_buf r) (cn_r r) (cn_w r) x (cn_uart r) (cn_pos r) (cn_crt r) (cn_shift r).
Definition set_cn_uart (x : list Z) (r : console_t) : console_t :=
  Cons (cn_locking r) (cn_buf r) (cn_r r) (cn_w r) (cn_e r) x (cn_pos r) (cn_crt r) (cn_shift r).
Definition set_cn_pos (x : Z) (r : console_t) : console_t :=
  Cons (cn_locking r) (cn_buf r) (cn_r r) (cn_w r) (cn_e r) (cn_uart r) x (cn_crt r) (cn_shift r).
Definition set_cn_crt (x : list Z) (r : console_t) : console_t :=
  Cons (cn_locking r) (cn_buf r) (cn_r r) (cn_w r) (cn_e r) (cn_uart r) (cn_pos r) x (cn_shift r).
Definition set_cn_shift (x : Z) (r : console_t) : console_t :=
  Cons (cn_locking r) (cn_buf r) (cn_r r) (cn_w r) (cn_e r) (cn_uart r) (cn_pos r) (cn_crt r) x.

(** What the disk controller was told to do. *)
Inductive command := CmdRead (b : Z) | CmdWrite (b : Z) (v : list Z).

(** The file system.  [fs_cmd] is the request the controller works on,
    [fs_err] whether it reports errors; [fs_order] are the buffers from the
    most to the least recently used. *)
Record fsys := Fsys {
  fs_disk : disk_t;
  fs_cmd : option command;
  fs_err : bool;
  fs_havedisk1 : bool;
  fs_idequeue : list nat;
  fs_bufs : list buf;
  fs_order : list nat;
  fs_log : log_t;
  fs_sb : superblock;
  fs_icache : list inode;
  fs_cons : console_t;
}.

Definition set_fs_disk (x : disk_t) (r : fsys) : fsys :=
  Fsys x (fs_cmd r) (fs_err r) (fs_havedisk1 r) (fs_idequeue r) (fs_bufs r) (fs_order r) (fs_log r)
    (fs_sb r) (fs_icache r) (fs_cons r).
Definition set_fs_cmd (x : option command) (r : fsys) : fsys :=
  Fsys (fs_disk r) x (fs_err r) (fs_havedisk1 r) (fs_idequeue r) (fs_bufs r) (fs_order r) (fs_log r)
    (fs_sb r) (fs_icache r) (fs_cons r).
Definition set_fs_err (x : bool) (r : fsys) : fsys :=
  Fsys (fs_disk r) (fs_cmd r) x (fs_havedisk1 r) (fs_idequeue r) (fs_bufs r) (fs_order r) (fs_log r)
    (fs_sb r) (fs_icache r) (fs_cons r).
Definition set_fs_havedisk1 (x : bool) (r : fsys) : fsys :=
  Fsys (fs_disk r) (fs_cmd r) (fs_err r) x (fs_idequeue r) (fs_bufs r) (fs_order r) (fs_log r) (fs_sb r)
    (fs_icache r) (fs_cons r).
Definition set_fs_idequeue (x : list nat) (r : fsys) : fsys :=
  Fsys (fs_disk r) (fs_cmd r) (fs_err r) (fs_havedisk1 r) x (fs_bufs r) (fs_order r) (fs_log r) (fs_sb
    r) (fs_icache r) (fs_cons r).
Definition set_fs_bufs (x : list buf) (r : fsys) : fsys :=
  Fsys (fs_disk r) (fs_cmd r) (fs_err r) (fs_havedisk1 r) (fs_idequeue r) x (fs_order r) (fs_log r)
    (fs_sb r) (fs_icache r) (fs_cons r).
Definition set_fs_order (x : list nat) (r : fsys) : fsys :=
  Fsys (fs_disk r) (fs_cmd r) (fs_err r) (fs_havedisk1 r) (fs_idequeue r) (fs_bufs r) x (fs_log r)
    (fs_sb r) (fs_icache r) (fs_cons r).
Definition set_fs_log (x : log_t) (r : fsys) : fsys :=
  Fsys (fs_disk r) (fs_cmd r) (fs_err r) (fs_havedisk1 r) (fs_idequeue r) (fs_bufs r) (fs_order r) x
    (fs_sb r) (fs_icache r) (fs_cons r).
Definition set_fs_sb (x : superblock) (r : fsys) : fsys :=
  Fsys (fs_disk r) (fs_cmd r) (fs_err r) (fs_havedisk1 r) (fs_idequeue r) (fs_bufs r) (fs_order r)
    (fs_log r) x (fs_icache r) (fs_cons r).
Definition set_fs_icache (x : list inode) (r : fsys) : fsys :=
  Fsys (fs_disk r) (fs_cmd r) (fs_err r) (fs_havedisk1 r) (fs_idequeue r) (fs_bufs r) (fs_order r)
    (fs_log r) (fs_sb r) x (fs_cons r).
Definition set_fs_cons (x : console_t) (r : fsys) : fsys :=
  Fsys (fs_disk r) (fs_cmd r) (fs_err r) (fs_havedisk1 r) (fs_idequeue r) (fs_bufs r) (fs_order r)
    (fs_log r) (fs_sb r) (fs_icache r) x.

(** * Locks and channels *)

Definition idelock : lock := LFs 0.
Definition bcache_lock : lock := LFs 1.
Definition log_lock : lock := LFs 2.
Definition icache_lock : lock := LFs 3.
Definition cons_lock : lock := LFs 4.

(** The sleep locks of the buffers and of the inodes, and their spin locks. *)
Inductive slock := SBuf (i : nat) | SInode (i : nat).

Definition slock_lk (l : slock) : lock :=
  match l with SBuf i => LFs (100 + Z.of_nat i) | SInode i => LFs (200 + Z.of_nat i) end.
Definition slock_chan (l : slock) : chan_t :=
  match l with SBuf i => CFs (100 + Z.of_nat i) | SInode i => CFs (200 + Z.of_nat i) end.
Definition buf_chan (i : nat) : chan_t := CFs (300 + Z.of_nat i).
Definition log_chan : chan_t := CFs 2.
Definition input_chan : chan_t := CFs 4.

(** * Access *)

Notation KF := (K fsys).

Definition fget {A} (f : fsys -> A) : KF A := fun s => Done (f (fs s)) s.
Definition fset (f : fsys -> fsys) : KF unit := change (fun s => put_fs (f (fs s)) s).

Definition buf_of (r : fsys) (i : nat) : buf := default buf0 (fs_bufs r !! i).
Definition bget_ {A} (i : nat) (f : buf -> A) : KF A := fget (fun r => f (buf_of r i)).
Definition bset (i : nat) (f : buf -> buf) : KF unit :=
  fset (fun r => set_fs_bufs (alter f i (fs_bufs r)) r).

Definition inode_of (r : fsys) (i : nat) : inode := default inode0 (fs_icache r !! i).
Definition iget_ {A} (i : nat) (f : inode -> A) : KF A := fget (fun r => f (inode_of r i)).
Definition iset (i : nat) (f : inode -> inode) : KF unit :=
  fset (fun r => set_fs_icache (alter f i (fs_icache r)) r).

Definition lget {A} (f : log_t -> A) : KF A := fget (fun r => f (fs_log r)).
Definition lset (f : log_t -> log_t) : KF unit := fset (fun r => set_fs_log (f (fs_log r)) r).

Definition cget {A} (f : console_t -> A) : KF A := fget (fun r => f (fs_cons r)).
Definition cset (f : console_t -> console_t) : KF unit := fset (fun r => set_fs_cons (f (fs_cons r)) r).

Definition slock_of (r : fsys) (l : slock) : sleeplock :=
  match l with SBuf i => b_lock (buf_of r i) | SInode i => i_lock (inode_of r i) end.
Definition slset (l : slock) (x : sleeplock) : KF unit :=
  match l with SBuf i => bset i (set_b_lock x) | SInode i => iset i (set_i_lock x) end.
