(* ===== verification/Uprog.v ===== *)
(** User programs: trees of system calls.  The system calls of user.h, the
    part of ulib.c and printf.c that makes calls, and two ways to run a
    program: with its input and output, and with its descriptors. *)

From S2P Require Import Prelude Mmu Str Ulib.

(** * System calls *)

(** The calls of user.h.  Paths and arguments are their characters, the bytes
    that write takes from memory are part of the call. *)
Inductive call :=
  | SFork | SWait | SPipe
  | SWrite (fd : Z) (l : list Z) | SRead (fd n : Z) | SClose (fd : Z)
  | SKill (pid : Z) | SExec (path : list Z) (argv : list (list Z))
  | SOpen (path : list Z) (mode : Z) | SMknod (path : list Z) (major minor : Z)
  | SUnlink (path : list Z) | SFstat (fd : Z) | SLink (old new : list Z)
  | SMkdir (path : list Z) | SChdir (path : list Z) | SDup (fd : Z)
  | SGetpid | SSbrk (n : Z) | SSleep (n : Z) | SUptime
  | SClone (func stack flags arg : Z) | SJoin (tid : Z) | STkill (tid : Z) | STgkill
  | SGettid | STsuspend | STresume (tid : Z).

(** What a call gives back: its value, and what it wrote to memory: the bytes
    of read, the two descriptors of pipe, the words type, dev, ino, nlink and
    size of fstat. *)
Record reply := Reply { rv : Z; rdata : list Z }.

(** A program returns, makes a call and goes on with the reply, or exits;
    [UDry] is a loop that ran out of fuel. *)
Inductive U (A : Type) :=
  | URet (a : A)
  | USys (c : call) (k : reply -> U A)
  | UExit
  | UDry.
Arguments URet {A}. Arguments USys {A}. Arguments UExit {A}. Arguments UDry {A}.

#[export] Instance U_ret : MRet U := @URet.
#[export] Instance U_bind : MBind U := fun A B f =>
  fix go m := match m with
  | URet a => f a
  | USys c k => USys c (fun r => go (k r))
  | UExit => UExit
  | UDry => UDry
  end.

Definition sys (c : call) : U reply := USys c URet.
(** A call of which only the value is used. *)
Definition sysv (c : call) : U Z := USys c (fun r => URet (rv r)).
(** A call whose value is not used. *)
Definition sys_ (c : call) : U unit := USys c (fun _ => URet tt).

(** * Strings and output *)

Definition chars (s : string) : list Z := (fun a => Z.of_N (Ascii.N_of_ascii a)) <$> String.list_ascii_of_string s.
Definition NL : list Z := [10].

Definition putc (fd c : Z) : U unit := sys_ (SWrite fd [c]).

Fixpoint puts (fd : Z) (l : list Z) : U unit :=
  match l with
  | [] => mret tt
  | c :: l => putc fd c;; puts fd l
  end.

(** Every character is a write of its own. *)
Definition printf (fd : Z) (fmt : list Z) (args : list uarg) : U unit := puts fd (format fmt args).

(** * ulib.c *)

(** The loop of gets; [k] is max - 1 - i. *)
Fixpoint gets_loop (k : nat) (l : list Z) : U (list Z) :=
  match k with
  | O => mret l
  | S k =>
    r ← sys (SRead 0 1);
    if rv r <? 1 then mret l
    else
      let c := nth 0 (rdata r) 0 in
      if (c =? 10) || (c =? 13) then mret (l ++ [c]) else gets_loop k (l ++ [c])
  end.
Definition gets (max : Z) : U (list Z) := gets_loop (Z.to_nat (max - 1)) [].

Definition stat (n : list Z) : U reply :=
  fd ← sysv (SOpen n 0);
  if fd <? 0 then mret (Reply (-1) [])
  else
    r ← sys (SFstat fd);
    sys_ (SClose fd);;
    mret r.

(** * Running a program *)

Inductive outcome (A : Type) := Returned (a : A) | Exited | Dry.
Arguments Returned {A}. Arguments Exited {A}. Arguments Dry {A}.

(** The run of a program in a system that answers its calls. *)
Fixpoint urun {W A} (h : call -> W -> reply * W) (p : U A) (w : W) : outcome A * W :=
  match p with
  | URet a => (Returned a, w)
  | USys c k => let '(r, w) := h c w in urun h (k r) w
  | UExit => (Exited, w)
  | UDry => (Dry, w)
  end.

Definition ubind {W A B} (x : outcome A * W) (f : A -> W -> outcome B * W) : outcome B * W :=
  match x with
  | (Returned a, w) => f a w
  | (Exited, w) => (Exited, w)
  | (Dry, w) => (Dry, w)
  end.

Lemma urun_bind {W A B} (h : call -> W -> reply * W) (p : U A) (f : A -> U B) w :
  urun h (p ≫= f) w = ubind (urun h p w) (fun a w => urun h (f a) w).
Proof. revert w. induction p as [|c k IH| |]; intros w; try done. simpl. destruct (h c w). apply IH. Qed.

(** A filter: read takes from the input, at most [chunk i] bytes but at least
    one for the i-th read, and 0 bytes at its end; write to descriptor 1 goes
    to the output, and to others to the errors; other calls succeed. *)
Record io := Io { inp : list Z; outp : list Z; errp : list Z; nread : nat }.

Definition filter_os (chunk : nat -> nat) (c : call) (w : io) : reply * io :=
  match c with
  | SRead _ n =>
    let k := Nat.min (Z.to_nat n) (Nat.max 1 (chunk (nread w))) in
    let l := take k (inp w) in
    (Reply (Z.of_nat (length l)) l, Io (drop k (inp w)) (outp w) (errp w) (S (nread w)))
  | SWrite fd l =>
    (Reply (Z.of_nat (length l)) [],
     if fd =? 1 then Io (inp w) (outp w ++ l) (errp w) (nread w)
     else Io (inp w) (outp w) (errp w ++ l) (nread w))
  | _ => (Reply 0 [], w)
  end.

Lemma urun_puts chunk l w :
  urun (filter_os chunk) (puts 1 l) w = (Returned tt, Io (inp w) (outp w ++ l) (errp w) (nread w)).
Proof.
  revert w. induction l as [|c l IH]; intros w; simpl; [by rewrite app_nil_r; destruct w|].
  rewrite IH. simpl. by rewrite <- app_assoc.
Qed.

Lemma urun_printf chunk fmt args w :
  urun (filter_os chunk) (printf 1 fmt args) w
  = (Returned tt, Io (inp w) (outp w ++ format fmt args) (errp w) (nread w)).
Proof. apply urun_puts. Qed.

(** A read that has not met the end of the input gives at least a byte. *)
Lemma urun_read chunk {A} (f : reply -> U A) fd n w :
  0 < n ->
  exists k, (1 <= k <= Z.to_nat n)%nat
    /\ (Z.to_nat n <= chunk (nread w) -> k = Z.to_nat n)%nat
    /\ urun (filter_os chunk) (sys (SRead fd n) ≫= f) w
       = urun (filter_os chunk) (f (Reply (Z.of_nat (length (take k (inp w)))) (take k (inp w))))
           (Io (drop k (inp w)) (outp w) (errp w) (S (nread w))).
Proof. intros Hn. exists (Nat.min (Z.to_nat n) (Nat.max 1 (chunk (nread w)))). split; [lia|]. split; [lia | done]. Qed.

Lemma urun_write chunk {A} (f : Z -> U A) l w :
  urun (filter_os chunk) (sysv (SWrite 1 l) ≫= f) w
  = urun (filter_os chunk) (f (Z.of_nat (length l))) (Io (inp w) (outp w ++ l) (errp w) (nread w)).
Proof. done. Qed.
