(* ===== verification/Progs.v ===== *)
(** The small user programs as trees of system calls, and what the filters
    among them compute. *)

From S2P Require Import Prelude Mmu Fsys Str Ulib Uprog.

(** The elements of argv after argv[0]; argc is one more. *)
Notation args := (list (list Z)).

Definition str (l : list Z) : uarg := AStr (Some l).

(** * cat.c *)

Fixpoint cat (fuel : nat) (fd : Z) : U unit :=
  match fuel with
  | O => UDry
  | S fuel =>
    r ← sys (SRead fd 512);
    let n := rv r in
    if 0 <? n then
      w ← sysv (SWrite 1 (take (Z.to_nat n) (rdata r)));
      if negb (w =? n) then
        printf 1 (chars "cat: write error" ++ NL) [];;
        UExit
      else cat fuel fd
    else if n <? 0 then
      printf 1 (chars "cat: read error" ++ NL) [];;
      UExit
    else mret tt
  end.

Fixpoint cat_files (fuel : nat) (argv : args) : U unit :=
  match argv with
  | [] => UExit
  | a :: argv =>
    fd ← sysv (SOpen a 0);
    if fd <? 0 then
      printf 1 (chars "cat: cannot open %s" ++ NL) [str a];;
      UExit
    else
      cat fuel fd;;
      sys_ (SClose fd);;
      cat_files fuel argv
  end.

Definition cat_main (fuel : nat) (argv : args) : U unit :=
  match argv with
  | [] => cat fuel 0;; UExit
  | _ => cat_files fuel argv
  end.

(** * echo.c *)

Fixpoint echo_main (argv : args) : U unit :=
  match argv with
  | [] => UExit
  | a :: argv =>
    printf 1 (chars "%s%s") [str a; str (match argv with [] => NL | _ => chars " " end)];;
    echo_main argv
  end.

(** * wc.c *)

Record counts := Counts { wc_l : Z; wc_w : Z; wc_c : Z; inword : bool }.

(** A space, a carriage return, a tab, a newline or a vertical tab; strchr
    does not find the NUL. *)
Definition is_space (c : Z) : bool := existsb (Z.eqb c) [32; 13; 9; 10; 11].

Definition wc_char (x : counts) (c : Z) : counts :=
  let l := if c =? 10 then s32 (wc_l x + 1) else wc_l x in
  let n := s32 (wc_c x + 1) in
  if is_space c then Counts l (wc_w x) n false
  else if negb (inword x) then Counts l (s32 (wc_w x + 1)) n true
  else Counts l (wc_w x) n (inword x).

Fixpoint wc_loop (fuel : nat) (fd : Z) (x : counts) : U (Z * counts) :=
  match fuel with
  | O => UDry
  | S fuel =>
    r ← sys (SRead fd 512);
    if 0 <? rv r then wc_loop fuel fd (foldl wc_char x (take (Z.to_nat (rv r)) (rdata r)))
    else mret (rv r, x)
  end.

Definition wc (fuel : nat) (fd : Z) (name : list Z) : U unit :=
  '(n, x) ← wc_loop fuel fd (Counts 0 0 0 false);
  if n <? 0 then
    printf 1 (chars "wc: read error" ++ NL) [];;
    UExit
  else printf 1 (chars "%d %d %d %s" ++ NL) [AInt (wc_l x); AInt (wc_w x); AInt (wc_c x); str name].

Fixpoint wc_files (fuel : nat) (argv : args) : U unit :=
  match argv with
  | [] => UExit
  | a :: argv =>
    fd ← sysv (SOpen a 0);
    if fd <? 0 then
      printf 1 (chars "wc: cannot open %s" ++ NL) [str a];;
      UExit
    else
      wc fuel fd a;;
      sys_ (SClose fd);;
      wc_files fuel argv
  end.

Definition wc_main (fuel : nat) (argv : args) : U unit :=
  match argv with
  | [] => wc fuel 0 [];; UExit
  | _ => wc_files fuel argv
  end.

(** * kill.c, ln.c, mkdir.c, rm.c, zombie.c *)

(** The memory that holds a string at address 0. *)
Definition string_at_0 (l : list Z) : memory := fun x => if x <? 0 then 0 else nth (Z.to_nat x) l 0.

Fixpoint kill_pids (argv : args) : U unit :=
  match argv with
  | [] => UExit
  | a :: argv =>
    sys_ (SKill (default 0 (atoi (string_at_0 a) 0 (S (length a)))));;
    kill_pids argv
  end.

Definition kill_main (argv : args) : U unit :=
  match argv with
  | [] => printf 2 (chars "usage: kill pid..." ++ NL) [];; UExit
  | _ => kill_pids argv
  end.

Definition ln_main (argv : args) : U unit :=
  match argv with
  | [old; new] =>
    r ← sysv (SLink old new);
    (if r <? 0 then printf 2 (chars "link %s %s: failed" ++ NL) [str old; str new] else mret tt);;
    UExit
  | _ => printf 2 (chars "Usage: ln old new" ++ NL) [];; UExit
  end.

(** The loops of mkdir.c and rm.c stop at the first failure. *)
Fixpoint mkdir_loop (argv : args) : U unit :=
  match argv with
  | [] => UExit
  | a :: argv =>
    r ← sysv (SMkdir a);
    if r <? 0 then printf 2 (chars "mkdir: %s failed to create" ++ NL) [str a];; UExit
    else mkdir_loop argv
  end.

Definition mkdir_main (argv : args) : U unit :=
  match argv with
  | [] => printf 2 (chars "Usage: mkdir files..." ++ NL) [];; UExit
  | _ => mkdir_loop argv
  end.

Fixpoint rm_loop (argv : args) : U unit :=
  match argv with
  | [] => UExit
  | a :: argv =>
    r ← sysv (SUnlink a);
    if r <? 0 then printf 2 (chars "rm: %s failed to delete" ++ NL) [str a];; UExit
    else rm_loop argv
  end.

Definition rm_main (argv : args) : U unit :=
  match argv with
  | [] => printf 2 (chars "Usage: rm files..." ++ NL) [];; UExit
  | _ => rm_loop argv
  end.

Definition zombie_main : U unit :=
  pid ← sysv SFork;
  (if 0 <? pid then sys_ (SSleep 5) else mret tt);;
  UExit.

(** * ls.c *)

(** The loop that looks for the last slash; [k] is one more than the index of
    p, and the result is the index after the slash. *)
Fixpoint after_slash (path : list Z) (k : nat) : nat :=
  match k with
  | O => O
  | S k' => if nth k' path 0 =? 47 then k else after_slash path k'
  end.

Definition fmtname (path : list Z) : list Z :=
  let p := drop (after_slash path (S (length path))) path in
  if DIRSIZ <=? Z.of_nat (length p) then p
  else p ++ replicate (Z.to_nat DIRSIZ - length p) 32.

(** The string in a field that may be full. *)
Fixpoint until_nul (l : list Z) : list Z :=
  match l with
  | [] => []
  | c :: l => if c =? 0 then [] else c :: until_nul l
  end.

(** The fields of the answer of fstat. *)
Definition st_type (r : reply) : Z := nth 0 (rdata r) 0.
Definition st_ino (r : reply) : Z := nth 2 (rdata r) 0.
Definition st_size (r : reply) : Z := nth 4 (rdata r) 0.

Definition ls_line (name : list Z) (r : reply) : U unit :=
  printf 1 (chars "%s %d %d %d" ++ NL) [str (fmtname name); AInt (st_type r); AInt (st_ino r); AInt (st_size r)].

(** The loop over the entries of a directory; [dir] is its path with the
    slash. *)
Fixpoint ls_entries (fuel : nat) (fd : Z) (dir : list Z) : U unit :=
  match fuel with
  | O => UDry
  | S fuel =>
    r ← sys (SRead fd DIRENT_SIZE);
    if negb (rv r =? DIRENT_SIZE) then mret tt
    else
      let de := rdata r in
      if (nth 0 de 0 =? 0) && (nth 1 de 0 =? 0) then ls_entries fuel fd dir
      else
        let buf := dir ++ until_nul (take (Z.to_nat DIRSIZ) (drop 2 de)) in
        st ← stat buf;
        (if rv st <? 0 then printf 1 (chars "ls: cannot stat %s" ++ NL) [str buf] else ls_line buf st);;
        ls_entries fuel fd dir
  end.

Definition ls (fuel : nat) (path : list Z) : U unit :=
  fd ← sysv (SOpen path 0);
  if fd <? 0 then printf 2 (chars "ls: cannot open %s" ++ NL) [str path]
  else
    st ← sys (SFstat fd);
    if rv st <? 0 then
      printf 2 (chars "ls: cannot stat %s" ++ NL) [str path];;
      sys_ (SClose fd)
    else
      (if st_type st =? T_FILE then ls_line path st
       else if st_type st =? T_DIR then
         if 512 <? Z.of_nat (length path) + 1 + DIRSIZ + 1 then printf 1 (chars "ls: path too long" ++ NL) []
         else ls_entries fuel fd (path ++ [47])
       else mret tt);;
      sys_ (SClose fd).

Fixpoint ls_files (fuel : nat) (argv : args) : U unit :=
  match argv with
  | [] => UExit
  | a :: argv => ls fuel a;; ls_files fuel argv
  end.

Definition ls_main (fuel : nat) (argv : args) : U unit :=
  match argv with
  | [] => ls fuel (chars ".");; UExit
  | _ => ls_files fuel argv
  end.

(** * init.c *)

(** Wait for the shell, past the zombies that init has adopted. *)
Fixpoint init_wait (fuel : nat) (pid : Z) : U unit :=
  match fuel with
  | O => UDry
  | S fuel =>
    wpid ← sysv SWait;
    if (0 <=? wpid) && negb (wpid =? pid) then
      printf 1 (chars "zombie!" ++ NL) [];;
      init_wait fuel pid
    else mret tt
  end.

Fixpoint init_loop (fuel : nat) : U unit :=
  match fuel with
  | O => UDry
  | S fuel' =>
    printf 1 (chars "init: starting sh" ++ NL) [];;
    pid ← sysv SFork;
    if pid <? 0 then
      printf 1 (chars "init: fork failed" ++ NL) [];;
      UExit
    else if pid =? 0 then
      sys_ (SExec (chars "sh") [chars "sh"]);;
      printf 1 (chars "init: exec sh failed" ++ NL) [];;
      UExit
    else
      init_wait fuel pid;;
      init_loop fuel'
  end.

Definition init_main (fuel : nat) : U unit :=
  fd ← sysv (SOpen (chars "console") O_RDWR);
  (if fd <? 0 then
     sys_ (SMknod (chars "console") 1 1);;
     sys_ (SOpen (chars "console") O_RDWR)
   else mret tt);;
  sys_ (SDup 0);;
  sys_ (SDup 0);;
  init_loop fuel.

(** * What the filters compute *)

(** A run of cat copies its input, whatever the sizes of the reads. *)
Lemma cat_copies chunk fuel fd : forall w,
  (length (inp w) < fuel)%nat ->
  exists n, urun (filter_os chunk) (cat fuel fd) w = (Returned tt, Io [] (outp w ++ inp w) (errp w) n).
Proof.
  induction fuel as [|fuel IH]; intros w Hf; [lia|]. cbn [cat].
  edestruct urun_read as (k & Hk & _ & ->); [lia|]. cbn [rv rdata].
  destruct w as [l out err i]. cbn [inp outp errp Uprog.nread] in *. destruct l as [|c l].
  - rewrite take_nil, drop_nil. simpl. rewrite app_nil_r. eauto.
  - rewrite (proj2 (Z.ltb_lt 0 _)) by (rewrite length_take; simpl; lia).
    rewrite urun_write, Nat2Z.id, (take_ge (take k (c :: l))), Z.eqb_refl by lia. cbn [negb inp outp errp Uprog.nread].
    destruct (IH (Io (drop k (c :: l)) (out ++ take k (c :: l)) err (S i))) as [n Hn].
    { cbn [inp]. rewrite length_drop. simpl in *. lia. }
    exists n. rewrite Hn. cbn [inp outp errp]. by rewrite <- app_assoc, take_drop.
Qed.

(** The words of a text: its longest runs without white space. *)
Fixpoint fields (cur : list Z) (l : list Z) : list (list Z) :=
  match l with
  | [] => match cur with [] => [] | _ => [cur] end
  | c :: l =>
    if is_space c then match cur with [] => fields [] l | _ => cur :: fields [] l end
    else fields (cur ++ [c]) l
  end.
Definition words (l : list Z) : list (list Z) := fields [] l.
Definition newlines (l : list Z) : nat := length (filter (fun c => c = 10) l).

(** The loop over the characters adds the counts of a text; a word that was
    begun before it is not counted again. *)
Lemma wc_chars l : forall x cur,
  inword x = match cur with [] => false | _ => true end ->
  0 <= wc_l x -> 0 <= wc_w x -> 0 <= wc_c x ->
  wc_l x + Z.of_nat (length l) < 2 ^ 31 -> wc_w x + Z.of_nat (length l) < 2 ^ 31 -> wc_c x + Z.of_nat (length l) < 2 ^ 31 ->
  let y := foldl wc_char x l in
  wc_l y = wc_l x + Z.of_nat (newlines l) /\ wc_c y = wc_c x + Z.of_nat (length l)
  /\ wc_w y = wc_w x + Z.of_nat (length (fields cur l)) - (if inword x then 1 else 0).
Proof.
  induction l as [|c l IH]; intros x cur Hw ? ? ? Hl1 Hl2 Hl3; cbv zeta; cbn [foldl].
  - rewrite Hw. unfold newlines. destruct cur; simpl; lia.
  - cbn [length] in *.
    assert (Z.of_nat (newlines (c :: l)) = (if c =? 10 then 1 else 0) + Z.of_nat (newlines l)) as ->.
    { unfold newlines. rewrite filter_cons. destruct (Z.eqb_spec c 10); case_decide; simpl; lia || done. }
    unfold wc_char at 2 4 6. cbn [fields].
    rewrite !s32_id by lia.
    assert (forall b : bool, (if b then wc_l x + 1 else wc_l x) = (if b then 1 else 0) + wc_l x) as Hb by (intros []; lia).
    rewrite Hb.
    destruct (is_space c).
    + edestruct (IH (Counts ((if c =? 10 then 1 else 0) + wc_l x) (wc_w x) (wc_c x + 1) false) []) as (-> & -> & ->);
        cbn [inword wc_l wc_w wc_c]; try (destruct (c =? 10); lia); try done.
      rewrite Hw. destruct cur; cbn [length]; lia.
    + destruct (inword x) eqn:E; cbn [negb].
      * edestruct (IH (Counts ((if c =? 10 then 1 else 0) + wc_l x) (wc_w x) (wc_c x + 1) true) (cur ++ [c])) as (-> & -> & ->);
          cbn [inword wc_l wc_w wc_c]; try (destruct (c =? 10); lia); try (by destruct cur); lia.
      * edestruct (IH (Counts ((if c =? 10 then 1 else 0) + wc_l x) (wc_w x + 1) (wc_c x + 1) true) (cur ++ [c])) as (-> & -> & ->);
          cbn [inword wc_l wc_w wc_c]; try (destruct (c =? 10); lia); try (by destruct cur); lia.
Qed.

Lemma wc_loop_run chunk fuel fd : forall w x,
  (length (inp w) < fuel)%nat ->
  exists n, urun (filter_os chunk) (wc_loop fuel fd x) w
            = (Returned (0, foldl wc_char x (inp w)), Io [] (outp w) (errp w) n).
Proof.
  induction fuel as [|fuel IH]; intros w x Hf; [lia|]. cbn [wc_loop].
  edestruct urun_read as (k & Hk & _ & ->); [lia|]. cbn [rv rdata].
  destruct w as [l out err i]. cbn [inp outp errp Uprog.nread] in *. destruct l as [|c l].
  - rewrite take_nil, drop_nil. simpl. eauto.
  - rewrite (proj2 (Z.ltb_lt 0 _)), Nat2Z.id, (take_ge (take k (c :: l))) by (rewrite ?length_take; simpl; lia).
    destruct (IH (Io (drop k (c :: l)) out err (S i)) (foldl wc_char x (take k (c :: l)))) as [n Hn].
    { cbn [inp]. rewrite length_drop. simpl in *. lia. }
    exists n. rewrite Hn. cbn [inp outp errp]. by rewrite <- foldl_app, take_drop.
Qed.

(** wc prints the number of newlines, of words (longest runs without
    white space) and of bytes of its input, and the name, however the input
    is cut into reads. *)
Theorem wc_counts chunk fuel fd name l out err :
  (length l < fuel)%nat -> Z.of_nat (length l) < 2 ^ 31 ->
  exists n, urun (filter_os chunk) (wc fuel fd name) (Io l out err 0)
            = (Returned tt, Io [] (out ++ format (chars "%d %d %d %s" ++ NL)
                [AInt (Z.of_nat (newlines l)); AInt (Z.of_nat (length (words l))); AInt (Z.of_nat (length l)); str name]) err n).
Proof.
  intros Hf Hl. destruct (wc_loop_run chunk fuel fd (Io l out err 0) (Counts 0 0 0 false) Hf) as [n Hn].
  exists n. unfold wc. rewrite urun_bind, Hn. cbn [ubind]. cbn [inp outp errp].
  destruct (wc_chars l (Counts 0 0 0 false) []) as (H1 & H2 & H3); try done; cbn [wc_l wc_w wc_c] in *; try lia.
  rewrite H1, H2, H3. cbn [inword Z.ltb Z.compare]. rewrite urun_printf. cbn [inp outp errp Uprog.nread].
  by rewrite !Z.add_0_l, Z.sub_0_r.
Qed.

(** a b\n c, in reads of 2 bytes. *)
Lemma wc_counts_witness :
  exists n, urun (filter_os (fun _ => 2%nat)) (wc 10 0 (chars "x")) (Io (chars "a b" ++ NL ++ chars " c") [] [] 0)
            = (Returned tt, Io [] (chars "1 3 6 x" ++ NL) [] n).
Proof.
  destruct (wc_counts (fun _ => 2%nat) 10 0 (chars "x") (chars "a b" ++ NL ++ chars " c") [] []) as [n Hn];
    [vm_compute; lia | vm_compute; reflexivity |]. exists n. etransitivity; [exact Hn | reflexivity].
Defined.
