(* ===== verification/Grep.v ===== *)
(** grep.c: the matcher of patterns, proved equivalent to the languages that
    patterns denote, and the loop over the lines of a file. *)

From S2P Require Import Prelude Mmu Fsys Str Ulib Uprog Progs.

(** * The program *)

(** The loop of matchstar, with matchhere of the rest of the pattern. *)
Fixpoint matchstar (here : list Z -> bool) (c : Z) (text : list Z) : bool :=
  here text
  || match text with
     | [] => false
     | t :: text => if (t =? c) || (c =? 46) then matchstar here c text else false
     end.

Fixpoint matchhere (re text : list Z) : bool :=
  match re with
  | [] => true
  | c :: re =>
    let simple :=
      if (c =? 36) && match re with [] => true | _ => false end then match text with [] => true | _ => false end
      else
        match text with
        | [] => false
        | t :: text => if (c =? 46) || (c =? t) then matchhere re text else false
        end in
    match re with
    | s :: re => if s =? 42 then matchstar (matchhere re) c text else simple
    | [] => simple
    end
  end.

(** The loop of match, over the ends of the text. *)
Fixpoint match_from (re text : list Z) : bool :=
  matchhere re text
  || match text with [] => false | _ :: text => match_from re text end.

Definition match_ (re text : list Z) : bool :=
  match re with
  | c :: re' => if c =? 94 then matchhere re' text else match_from re text
  | [] => match_from re text
  end.

(** strchr in a buffer that ends where the list does. *)
Fixpoint find_char (c : Z) (l : list Z) : option nat :=
  match l with
  | [] => None
  | x :: l => if x =? 0 then None else if x =? c then Some O else S <$> find_char c l
  end.

(** The loop over the lines in the buffer; the result is what is behind the
    last one. *)
Fixpoint grep_lines (fuel : nat) (pattern p : list Z) : U (list Z) :=
  match fuel with
  | O => UDry
  | S fuel =>
    match find_char 10 p with
    | None => mret p
    | Some q =>
      (if match_ pattern (take q p) then sys_ (SWrite 1 (take (S q) p)) else mret tt);;
      grep_lines fuel pattern (drop (S q) p)
    end
  end.

(** [held] is the first part of a line, at the start of the buffer; it is kept
    only when a line was found before it. *)
Fixpoint grep (fuel : nat) (pattern : list Z) (fd : Z) (held : list Z) : U unit :=
  match fuel with
  | O => UDry
  | S fuel =>
    r ← sys (SRead fd (1024 - Z.of_nat (length held) - 1));
    if 0 <? rv r then
      let buf := held ++ take (Z.to_nat (rv r)) (rdata r) in
      p ← grep_lines (S (length buf)) pattern buf;
      grep fuel pattern fd (if (length p =? length buf)%nat then [] else p)
    else mret tt
  end.

Fixpoint grep_files (fuel : nat) (pattern : list Z) (argv : args) : U unit :=
  match argv with
  | [] => UExit
  | a :: argv =>
    fd ← sysv (SOpen a 0);
    if fd <? 0 then
      printf 1 (chars "grep: cannot open %s" ++ NL) [str a];;
      UExit
    else
      grep fuel pattern fd [];;
      sys_ (SClose fd);;
      grep_files fuel pattern argv
  end.

Definition grep_main (fuel : nat) (argv : args) : U unit :=
  match argv with
  | [] => printf 2 (chars "usage: grep pattern [file ...]" ++ NL) [];; UExit
  | [pattern] => grep fuel pattern 0 [];; UExit
  | pattern :: argv => grep_files fuel pattern argv
  end.

(** * The language of a pattern *)

(** A pattern is a sequence of characters and of repeated characters; a dot
    stands for any character. *)
Inductive item := One (c : Z) | Star (c : Z).

Definition fits (c t : Z) : Prop := c = 46 \/ c = t.

Inductive lang : list item -> list Z -> Prop :=
  | lang_nil : lang [] []
  | lang_one c t its l : fits c t -> lang its l -> lang (One c :: its) (t :: l)
  | lang_stop c its l : lang its l -> lang (Star c :: its) l
  | lang_more c t its l : fits c t -> lang (Star c :: its) l -> lang (Star c :: its) (t :: l).

(** The items of a pattern without its ^, and whether it ends in $. *)
Fixpoint items (re : list Z) : list item * bool :=
  match re with
  | [] => ([], false)
  | c :: re =>
    let simple :=
      if (c =? 36) && match re with [] => true | _ => false end then ([], true)
      else let '(its, e) := items re in (One c :: its, e) in
    match re with
    | s :: re => if s =? 42 then let '(its, e) := items re in (Star c :: its, e) else simple
    | [] => simple
    end
  end.

(** The text begins with a word of the language, or is one when the pattern
    ends in $. *)
Definition begins (re text : list Z) : Prop :=
  exists l rest, text = l ++ rest /\ lang (items re).1 l /\ ((items re).2 = true -> rest = []).

(** The text has a part that the pattern describes: at its start for ^, at
    its end for $. *)
Definition matches (re text : list Z) : Prop :=
  match re with
  | 94 :: re => begins re text
  | _ => exists pre post, text = pre ++ post /\ begins re post
  end.

Lemma matchstar_spec (here : list Z -> bool) c its e text :
  (forall t, here t = true <-> exists l rest, t = l ++ rest /\ lang its l /\ (e = true -> rest = [])) ->
  matchstar here c text = true
  <-> exists l rest, text = l ++ rest /\ lang (Star c :: its) l /\ (e = true -> rest = []).
Proof.
  intros Hh. induction text as [|t text IH]; cbn [matchstar]; rewrite orb_true_iff, Hh.
  - split.
    + intros [(l & rest & ? & ? & ?)|?]; [|done]. exists l, rest. eauto using lang_stop.
    + intros (l & rest & E & Hl & ?). left. symmetry in E. apply app_eq_nil in E as [-> ->].
      inversion Hl; subst. by exists [], [].
  - split.
    + intros [(l & rest & ? & ? & ?)|H].
      * exists l, rest. eauto using lang_stop.
      * destruct ((t =? c) || (c =? 46)) eqn:E; [|done]. apply IH in H as (l & rest & -> & Hl & He).
        exists (t :: l), rest. split; [done|]. split; [|done]. apply lang_more; [unfold fits; lia | done].
    + intros (l & rest & E & Hl & He). inversion Hl as [| |? ? ? Hl' |? t' ? l' Hf Hl']; subst.
      * left. by exists l, rest.
      * right. simpl in E. injection E as <- ->. rewrite (proj2 (orb_true_iff _ _)) by (unfold fits in Hf; lia).
        apply IH. by exists l', rest.
Qed.

Lemma simple_spec c re text :
  (forall t, matchhere re t = true <-> begins re t) ->
  (match re with s :: _ => s <> 42 | [] => True end) ->
  matchhere (c :: re) text = true <-> begins (c :: re) text.
Proof.
  intros IH Hs. unfold begins.
  assert (matchhere (c :: re) text =
    if (c =? 36) && match re with [] => true | _ => false end then match text with [] => true | _ => false end
    else match text with [] => false | t :: text => if (c =? 46) || (c =? t) then matchhere re text else false end) as ->.
  { cbn [matchhere]. destruct re as [|s re]; [done|]. by rewrite (proj2 (Z.eqb_neq s 42)). }
  assert (items (c :: re) =
    if (c =? 36) && match re with [] => true | _ => false end then ([], true)
    else let '(its, e) := items re in (One c :: its, e)) as ->.
  { cbn [items]. destruct re as [|s re]; [done|]. by rewrite (proj2 (Z.eqb_neq s 42)). }
  destruct ((c =? 36) && _) eqn:E.
  - simpl. split.
    + destruct text; [|done]. intros _. exists [], []. repeat constructor.
    + intros (l & rest & -> & Hl & He). inversion Hl; subst. by rewrite He.
  - unfold begins in IH. destruct (items re) as [its e]. simpl in *. split.
    + destruct text as [|t text]; [done|]. destruct ((c =? 46) || (c =? t)) eqn:F; [|done].
      intros (l & rest & -> & Hl & He)%IH. exists (t :: l), rest. split; [done|]. split; [|done].
      constructor; [unfold fits; lia | done].
    + intros (l & rest & -> & Hl & He). inversion Hl as [|? t ? l' Hf Hl'| |]; subst. simpl.
      rewrite (proj2 (orb_true_iff _ _)) by (unfold fits in Hf; lia). apply IH. by exists l', rest.
Qed.

Lemma matchhere_spec re text : matchhere re text = true <-> begins re text.
Proof.
  remember (length re) as n eqn:Hn. revert re Hn text.
  induction (lt_wf n) as [n _ IH]. intros [|c re] -> text.
  - split; [|done]. intros _. exists [], text. repeat constructor. done.
  - destruct re as [|s re]; [apply simple_spec; [|done]; intros; eapply IH; [|done]; simpl; lia|].
    destruct (Z.eq_dec s 42) as [->|Hs].
    + cbn [matchhere Z.eqb Pos.eqb]. unfold begins. cbn [items Z.eqb Pos.eqb].
      destruct (items re) as [its e] eqn:E. simpl. apply matchstar_spec. intros t.
      rewrite (IH (length re)) by (simpl; lia || done). unfold begins. by rewrite E.
    + apply simple_spec; [|done]. intros. eapply IH; [|done]. simpl. lia.
Qed.

Lemma match_from_spec re text :
  match_from re text = true <-> exists pre post, text = pre ++ post /\ begins re post.
Proof.
  induction text as [|t text IH]; cbn [match_from]; rewrite orb_true_iff, matchhere_spec.
  - split; [intros [?|?]; [by exists [], []|done]|]. intros (pre & post & E & ?).
    symmetry in E. apply app_eq_nil in E as [-> ->]. by left.
  - rewrite IH. split.
    + intros [?|(pre & post & -> & ?)]; [by exists [], (t :: text) | by exists (t :: pre), post].
    + intros ([|t' pre] & post & E & ?); simplify_eq/=; [by left | right; by exists pre, post].
Qed.

(** C19: match answers whether some part of the text is in the language of the
    pattern, a part at the start of the text for a pattern with ^ and at its
    end for one with $. *)
Theorem match_spec re text : match_ re text = true <-> matches re text.
Proof.
  unfold match_, matches. destruct re as [|c re]; [apply match_from_spec|].
  destruct (Z.eqb_spec c 94) as [->|Hc]; [apply matchhere_spec|].
  rewrite match_from_spec. repeat case_match; naive_solver.
Qed.

(** * The lines of a file *)

(** The lines of a text that end in a newline, without it; [cur] is the part
    of the first one that came before. *)
Fixpoint lines (cur l : list Z) : list (list Z) :=
  match l with
  | [] => []
  | c :: l => if c =? 10 then cur :: lines [] l else lines (cur ++ [c]) l
  end.

(** What grep is to print: the lines that match. *)
Definition selected (pattern : list Z) (ls : list (list Z)) : list Z :=
  concat ((fun l => if match_ pattern l then l ++ [10] else []) <$> ls).

Lemma lines_app_nil cur l : ~ 10 ∈ l -> forall l', lines cur (l ++ l') = lines (cur ++ l) l'.
Proof.
  revert cur. induction l as [|c l IH]; intros cur Hl l'; simpl; [by rewrite app_nil_r|].
  rewrite not_elem_of_cons in Hl. rewrite (proj2 (Z.eqb_neq c 10)) by naive_solver.
  rewrite IH by naive_solver. by rewrite <- app_assoc.
Qed.

Lemma lines_none cur l : ~ 10 ∈ l -> lines cur l = [].
Proof. intros H. rewrite <- (app_nil_r l), lines_app_nil by done. done. Qed.

Lemma lines_one l l' : ~ 10 ∈ l -> lines [] (l ++ 10 :: l') = l :: lines [] l'.
Proof. intros H. by rewrite lines_app_nil. Qed.

Lemma find_char_spec c l :
  c <> 0 -> ~ 0 ∈ l ->
  match find_char c l with
  | Some q => exists l1 l2, l = l1 ++ c :: l2 /\ length l1 = q /\ ~ c ∈ l1
  | None => ~ c ∈ l
  end.
Proof.
  intros Hc. induction l as [|x l IH]; intros Hz; simpl; [by apply not_elem_of_nil|].
  rewrite not_elem_of_cons in Hz. rewrite (proj2 (Z.eqb_neq x 0)) by naive_solver.
  destruct (Z.eqb_spec x c) as [->|Hx]; [exists [], l; split_and!; [done | done | apply not_elem_of_nil]|].
  specialize (IH ltac:(naive_solver)). destruct (find_char c l) as [q|]; simpl.
  - destruct IH as (l1 & l2 & -> & <- & H). exists (x :: l1), l2. rewrite elem_of_cons. naive_solver.
  - rewrite elem_of_cons. naive_solver.
Qed.

(** The lines in the buffer are printed when they match; what is left has no
    newline. *)
Lemma grep_lines_run chunk pattern fuel : forall p w,
  (length p < fuel)%nat -> ~ 0 ∈ p ->
  exists done_ rest, p = done_ ++ rest /\ ~ 10 ∈ rest /\ (done_ = [] \/ exists d, done_ = d ++ [10])
    /\ (forall l, lines [] (p ++ l) = lines [] done_ ++ lines rest l)
    /\ urun (filter_os chunk) (grep_lines fuel pattern p) w
       = (Returned rest, Io (inp w) (outp w ++ selected pattern (lines [] done_)) (errp w) (Uprog.nread w)).
Proof.
  induction fuel as [|fuel IH]; intros p w Hf Hz; [lia|]. cbn [grep_lines].
  pose proof (find_char_spec 10 p ltac:(lia) Hz) as Hq. destruct (find_char 10 p) as [q|].
  - destruct Hq as (l1 & l2 & -> & <- & Hl). rewrite elem_of_app, elem_of_cons in Hz.
    rewrite take_app_length. replace (S (length l1)) with (length (l1 ++ [10])) by (rewrite length_app; simpl; lia).
    rewrite cons_middle, app_assoc, take_app_length, drop_app_length.
    set (out := if match_ pattern l1 then l1 ++ [10] else []).
    assert (urun (filter_os chunk) (if match_ pattern l1 then sys_ (SWrite 1 (l1 ++ [10])) else mret tt) w
            = (Returned tt, Io (inp w) (outp w ++ out) (errp w) (Uprog.nread w))) as E.
    { subst out. destruct (match_ pattern l1); simpl; [done|]. rewrite app_nil_r. by destruct w. }
    destruct (IH l2 (Io (inp w) (outp w ++ out) (errp w) (Uprog.nread w))) as (d & rest & -> & Hr & Hd & Hln & E');
      [rewrite !length_app in Hf; simpl in Hf; lia | naive_solver |].
    exists (l1 ++ 10 :: d), rest. split; [by rewrite <- !app_assoc|]. split; [done|]. split; [right|split].
    + destruct Hd as [->|[d' ->]]; [by exists l1 | exists (l1 ++ 10 :: d'); by rewrite <- app_assoc].
    + intros l. rewrite <- !app_assoc. simpl. rewrite !lines_one by done. by rewrite app_assoc, Hln.
    + rewrite urun_bind, E. cbn [ubind]. rewrite E'. cbn [inp outp errp Uprog.nread].
      rewrite lines_one by done. unfold selected. simpl. by rewrite <- app_assoc.
  - exists [], p. split; [done|]. split; [done|]. split; [by left|]. split.
    + intros l. by rewrite lines_app_nil.
    + simpl. unfold selected. simpl. rewrite app_nil_r. by destruct w.
Qed.

(** Terminated lines fit in the buffer. *)
Definition lines_fit (l : list Z) : Prop := Forall (fun x => (length x <= 1022)%nat) (lines [] l).

Lemma grep_run pattern fd chunk fuel : forall held w,
  (forall i, 1023 <= chunk i)%nat ->
  (length (inp w) < fuel)%nat -> (length held <= 1022)%nat -> ~ 10 ∈ held ->
  ~ 0 ∈ held ++ inp w -> lines_fit (held ++ inp w) ->
  exists n, urun (filter_os chunk) (grep fuel pattern fd held) w
    = (Returned tt, Io [] (outp w ++ selected pattern (lines [] (held ++ inp w))) (errp w) n).
Proof.
  induction fuel as [|fuel IH]; intros held w Hch Hf Hh Hn Hz Hfit; [lia|]. cbn [grep].
  edestruct urun_read as (k & Hk & Hk' & ->); [lia|]. rewrite Hk' by (specialize (Hch (Uprog.nread w)); lia). clear k Hk Hk'.
  set (k := Z.to_nat (1024 - Z.of_nat (length held) - 1)). cbn [rv rdata].
  destruct w as [l out err i]. cbn [inp outp errp Uprog.nread] in *.
  destruct l as [|c l].
  { rewrite take_nil, drop_nil, !app_nil_r. simpl. rewrite lines_none by done. unfold selected. simpl.
    rewrite app_nil_r. eauto. }
  set (l' := c :: l) in *. assert (1 <= length l')%nat as Hl1 by (subst l'; simpl; lia). clearbody l'. clear c l.
  assert (k = 1023 - length held)%nat as Ek by lia. clearbody k.
  rewrite (proj2 (Z.ltb_lt 0 _)), Nat2Z.id, (take_ge (take k l')) by (rewrite ?length_take; lia).
  assert (held ++ l' = (held ++ take k l') ++ drop k l') as Et by by rewrite <- app_assoc, take_drop.
  assert (length (held ++ take k l') = Nat.min 1023 (length (held ++ l'))) as Hlen
    by (rewrite !length_app, length_take; lia).
  assert (length (drop k l') < fuel)%nat as Hd by (rewrite length_drop; lia).
  rewrite Et in *. clear Et Hl1. set (text := held ++ take k l') in *. set (tail := drop k l') in *.
  clearbody text tail. clear l' Hf Ek.
  rewrite urun_bind. rewrite elem_of_app in Hz.
  destruct (grep_lines_run chunk pattern (S (length text)) text (Io tail out err (S i)))
    as (d & rest & -> & Hr & Hd' & Hln & ->); [lia | naive_solver |].
  cbn [ubind inp outp errp Uprog.nread]. rewrite Hln.
  unfold lines_fit in Hfit. rewrite Hln, Forall_app in Hfit. destruct Hfit as [_ Hfit].
  rewrite length_app. rewrite elem_of_app in Hz.
  destruct Hd' as [->|[d' ->]].
  - cbn [length app lines] in *. rewrite Nat.add_0_l, Nat.eqb_refl.
    assert (lines rest tail = lines [] tail /\ Forall (fun x => (length x <= 1022)%nat) (lines [] tail)) as [Hrest Hfit'].
    { destruct (decide (10 ∈ tail)) as [H10|H10].
      - exfalso. apply list_elem_of_split_l in H10 as (l1 & l2 & -> & H10).
        rewrite lines_app_nil in Hfit by done. simpl in Hfit. apply Forall_cons in Hfit as [Hfit _].
        rewrite length_app in Hfit. rewrite length_app, (length_app l1) in Hlen. cbn [length] in Hlen. lia.
      - by rewrite !lines_none by done. }
    rewrite Hrest. unfold selected at 1. cbn [fmap list_fmap concat]. rewrite app_nil_r.
    apply (IH [] (Io tail out err (S i)));
      [done | done | cbn [length]; lia | apply not_elem_of_nil | intros H; apply Hz; by right | done].
  - rewrite !length_app in *. simpl. rewrite (proj2 (Nat.eqb_neq _ _)) by (simpl; lia).
    destruct (IH rest (Io tail (out ++ selected pattern (lines [] (d' ++ [10]))) err (S i))) as [n E]; cbn [inp];
      [done | done | cbn [length] in Hlen; lia | done | | unfold lines_fit; by rewrite lines_app_nil |].
    + rewrite elem_of_app. intros [?|?]; apply Hz; tauto.
    + exists n. rewrite E. cbn [inp outp errp]. rewrite <- app_assoc, (lines_app_nil [] rest) by done. unfold selected.
      by rewrite fmap_app, concat_app.
Qed.

(** grep prints the lines of its input that match the pattern, each with
    its newline and in order, and nothing else, when every read gives as many
    bytes as there is room for and the lines fit in the buffer; characters
    after the last newline are not a line. *)
Theorem grep_prints pattern fd chunk fuel l out err :
  (forall i, 1023 <= chunk i)%nat -> (length l < fuel)%nat -> ~ 0 ∈ l -> lines_fit l ->
  exists n, urun (filter_os chunk) (grep fuel pattern fd []) (Io l out err 0)
    = (Returned tt, Io [] (out ++ selected pattern (lines [] l)) err n).
Proof.
  intros Hc Hf Hz Hfit. apply (grep_run pattern fd chunk fuel [] (Io l out err 0)); try done; [simpl; lia | apply not_elem_of_nil].
Qed.

Definition sample_lines : list Z := chars "one" ++ NL ++ chars "two" ++ NL ++ chars "to" ++ NL.

(** t.*o$ selects two and to. *)
Lemma grep_prints_witness :
  exists n, urun (filter_os (fun _ => 2000%nat)) (grep 20 (chars "t.*o$") 0 []) (Io sample_lines [] [] 0)
    = (Returned tt, Io [] (chars "two" ++ NL ++ chars "to" ++ NL) [] n).
Proof.
  destruct (grep_prints (chars "t.*o$") 0 (fun _ => 2000%nat) 20 sample_lines [] []) as [n Hn].
  - lia.
  - vm_compute. lia.
  - apply (bool_decide_unpack (~ 0 ∈ sample_lines)). vm_compute. exact I.
  - apply (bool_decide_unpack (Forall (fun x => (length x <= 1022)%nat) (lines [] sample_lines))). vm_compute. exact I.
  - exists n. etransitivity; [exact Hn | reflexivity].
Defined.

(** a line that arrives in two reads is lost: when a read gives the first
    characters of a line and nothing before them, they are dropped from the
    buffer, and grep matches and prints only what follows. *)
Theorem grep_short_read :
  urun (filter_os (fun _ => 3%nat)) (grep 20 (chars "hello") 0 []) (Io (chars "hello" ++ NL) [] [] 0)
    = (Returned tt, Io [] [] [] 3)
  /\ selected (chars "hello") (lines [] (chars "hello" ++ NL)) = chars "hello" ++ NL.
Proof. split; reflexivity. Qed.
