(* ===== verification/Shell.v ===== *)
(** sh.c: the parser of command lines and the program that runs them. *)

From S2P Require Import Prelude Mmu Fsys Str Ulib Uprog Progs.

(** * Commands *)

(** The structures that the constructors of sh.c allocate.  The strings are
    places in the line: where they begin and where they end; argv and eargv of
    struct execcmd are one list of pairs. *)
Inductive cmd :=
  | EXEC (argv : list (nat * nat))
  | REDIR (c : cmd) (file efile : nat) (mode fd : Z)
  | PIPE (left right : cmd)
  | LIST (left right : cmd)
  | BACK (c : cmd).

Definition MAXARGS : nat := 10.

Definition panic {A} (s : list Z) : U A :=
  printf 2 (chars "%s" ++ NL) [str s];;
  UExit.

Definition fork1 : U Z :=
  pid ← sysv SFork;
  if pid =? -1 then panic (chars "fork") else mret pid.

(** The struct execcmd that [ret] ends in gets one more argument: parseexec
    keeps a pointer to it while redirections are put around it. *)
Fixpoint add_arg (ret : cmd) (a : nat * nat) : cmd :=
  match ret with
  | EXEC argv => EXEC (argv ++ [a])
  | REDIR c file efile mode fd => REDIR (add_arg c a) file efile mode fd
  | _ => ret
  end.

(** * Tokens *)

Definition whitespace : list Z := [32; 9; 13; 10; 11].
(** < | > & ; ( ) *)
Definition symbols : list Z := [60; 124; 62; 38; 59; 40; 41].

(** strchr finds no NUL. *)
Definition has (l : list Z) (c : Z) : bool := existsb (Z.eqb c) l.

Section parse.
(** The line, which a NUL follows. *)
Variable buf : list Z.
Notation es := (length buf).

Definition char_at (s : nat) : Z := nth s buf 0.

(** The loops over characters stop at es. *)
Fixpoint scan (p : Z -> bool) (s k : nat) : nat :=
  match k with
  | O => s
  | S k => if p (char_at s) then scan p (S s) k else s
  end.

Definition skip (s : nat) : nat := scan (has whitespace) s (es - s).
Definition word_end (s : nat) : nat :=
  scan (fun c => negb (has whitespace c) && negb (has symbols c)) s (es - s).

(** The token, its two ends, and where the next one begins. *)
Definition gettoken (s : nat) : Z * nat * nat * nat :=
  let s := skip s in
  let q := s in
  let c := char_at s in
  let '(ret, s) :=
    if c =? 0 then (c, s)
    else if has [124; 40; 41; 59; 38; 60] c then (c, S s)
    else if c =? 62 then if char_at (S s) =? 62 then (43, S (S s)) else (c, S s)
    else (97, word_end s) in
  (ret, q, s, skip s).

Definition peek (s : nat) (toks : list Z) : bool * nat :=
  let s := skip s in
  (negb (char_at s =? 0) && has toks (char_at s), s).

(** * The parser *)

(** The fuel of the loops is one more than the characters. *)
Fixpoint parseredirs_loop (fuel : nat) (c : cmd) (s : nat) : U (cmd * nat) :=
  match fuel with
  | O => UDry
  | S fuel =>
    let '(b, s) := peek s [60; 62] in
    if negb b then mret (c, s)
    else
      let '(tok, _, _, s) := gettoken s in
      let '(tok2, q, eq, s) := gettoken s in
      if negb (tok2 =? 97) then panic (chars "missing file for redirection")
      else
        let c :=
          if tok =? 60 then REDIR c q eq O_RDONLY 0
          else if tok =? 62 then REDIR c q eq (Z.lor O_WRONLY O_CREATE) 1
          else if tok =? 43 then REDIR c q eq (Z.lor O_WRONLY O_CREATE) 1
          else c in
        parseredirs_loop fuel c s
  end.
Definition parseredirs (c : cmd) (s : nat) : U (cmd * nat) := parseredirs_loop (S es) c s.

Fixpoint parseexec_loop (fuel : nat) (ret : cmd) (argc : nat) (s : nat) : U (cmd * nat) :=
  match fuel with
  | O => UDry
  | S fuel =>
    let '(b, s) := peek s [124; 41; 38; 59] in
    if b then mret (ret, s)
    else
      let '(tok, q, eq, s) := gettoken s in
      if tok =? 0 then mret (ret, s)
      else if negb (tok =? 97) then panic (chars "syntax")
      else
        let ret := add_arg ret (q, eq) in
        let argc := S argc in
        if (MAXARGS <=? argc)%nat then panic (chars "too many args")
        else
          '(ret, s) ← parseredirs ret s;
          parseexec_loop fuel ret argc s
  end.

(** The loop of parseline that collects &. *)
Fixpoint parseback (fuel : nat) (c : cmd) (s : nat) : U (cmd * nat) :=
  match fuel with
  | O => UDry
  | S fuel =>
    let '(b, s) := peek s [38] in
    if b then
      let '(_, _, _, s) := gettoken s in
      parseback fuel (BACK c) s
    else mret (c, s)
  end.

Fixpoint parseline (fuel : nat) (s : nat) : U (cmd * nat) :=
  match fuel with
  | O => UDry
  | S fuel =>
    '(c, s) ← parsepipe fuel s;
    '(c, s) ← parseback (S es) c s;
    let '(b, s) := peek s [59] in
    if b then
      let '(_, _, _, s) := gettoken s in
      '(r, s) ← parseline fuel s;
      mret (LIST c r, s)
    else mret (c, s)
  end
with parsepipe (fuel : nat) (s : nat) : U (cmd * nat) :=
  match fuel with
  | O => UDry
  | S fuel =>
    '(c, s) ← parseexec fuel s;
    let '(b, s) := peek s [124] in
    if b then
      let '(_, _, _, s) := gettoken s in
      '(r, s) ← parsepipe fuel s;
      mret (PIPE c r, s)
    else mret (c, s)
  end
with parseexec (fuel : nat) (s : nat) : U (cmd * nat) :=
  match fuel with
  | O => UDry
  | S fuel =>
    let '(b, s) := peek s [40] in
    if b then parseblock fuel s
    else
      '(ret, s) ← parseredirs (EXEC []) s;
      parseexec_loop (S es) ret 0 s
  end
with parseblock (fuel : nat) (s : nat) : U (cmd * nat) :=
  match fuel with
  | O => UDry
  | S fuel =>
    let '(b, s) := peek s [40] in
    if negb b then panic (chars "parseblock")
    else
      let '(_, _, _, s) := gettoken s in
      '(c, s) ← parseline fuel s;
      let '(b, s) := peek s [41] in
      if negb b then panic (chars "syntax - missing )")
      else
        let '(_, _, _, s) := gettoken s in
        parseredirs c s
  end.

End parse.

(** The line with the ends of all strings of a command set to NUL. *)
Fixpoint nulterminate (c : cmd) (buf : list Z) : list Z :=
  match c with
  | EXEC argv => foldl (fun buf a => <[a.2 := 0]> buf) buf argv
  | REDIR c _ efile _ _ => <[efile := 0]> (nulterminate c buf)
  | PIPE l r | LIST l r => nulterminate r (nulterminate l buf)
  | BACK c => nulterminate c buf
  end.

(** Four calls lead from one parenthesis to the next. *)
Definition parse_fuel (buf : list Z) : nat := 4 * S (length buf).

(** The command, and the line as it leaves it. *)
Definition parsecmd (buf : list Z) : U (cmd * list Z) :=
  '(c, s) ← parseline buf (parse_fuel buf) 0;
  let '(_, s) := peek buf s [] in
  if negb (s =? length buf)%nat then
    printf 2 (chars "leftovers: %s" ++ NL) [str (drop s buf)];;
    panic (chars "syntax")
  else mret (c, nulterminate c buf).

(** * Running commands *)

(** The string at a place of the line. *)
Definition string_at (buf : list Z) (q : nat) : list Z := until_nul (drop q buf).

Section run.
(** The line, with the NULs of nulterminate. *)
Variable buf : list Z.

Fixpoint runcmd (c : cmd) : U unit :=
  match c with
  | EXEC [] => UExit
  | EXEC (((a, _) :: _) as argv) =>
    sys_ (SExec (string_at buf a) ((fun p => string_at buf p.1) <$> argv));;
    printf 2 (chars "exec %s failed" ++ NL) [str (string_at buf a)];;
    UExit
  | REDIR c file _ mode fd =>
    sys_ (SClose fd);;
    r ← sysv (SOpen (string_at buf file) mode);
    if r <? 0 then
      printf 2 (chars "open %s failed" ++ NL) [str (string_at buf file)];;
      UExit
    else
      runcmd c;;
      UExit
  | LIST l r =>
    pid ← fork1;
    (if pid =? 0 then runcmd l else mret tt);;
    sys_ SWait;;
    runcmd r;;
    UExit
  | PIPE l r =>
    p ← sys SPipe;
    (if rv p <? 0 then panic (chars "pipe") else mret tt);;
    let p0 := nth 0 (rdata p) 0 in
    let p1 := nth 1 (rdata p) 0 in
    pid ← fork1;
    (if pid =? 0 then
       sys_ (SClose 1);;
       sys_ (SDup p1);;
       sys_ (SClose p0);;
       sys_ (SClose p1);;
       runcmd l
     else mret tt);;
    pid ← fork1;
    (if pid =? 0 then
       sys_ (SClose 0);;
       sys_ (SDup p0);;
       sys_ (SClose p0);;
       sys_ (SClose p1);;
       runcmd r
     else mret tt);;
    sys_ (SClose p0);;
    sys_ (SClose p1);;
    sys_ SWait;;
    sys_ SWait;;
    UExit
  | BACK c =>
    pid ← fork1;
    (if pid =? 0 then runcmd c else mret tt);;
    UExit
  end.

End run.

(** * The shell *)

(** The line that was read, [None] at the end of the input. *)
Definition getcmd (nbuf : Z) : U (option (list Z)) :=
  printf 2 (chars "$ ") [];;
  l ← gets nbuf;
  mret (match until_nul l with [] => None | l => Some l end).

Fixpoint open_console (fuel : nat) : U unit :=
  match fuel with
  | O => UDry
  | S fuel =>
    fd ← sysv (SOpen (chars "console") O_RDWR);
    if 0 <=? fd then if 3 <=? fd then sys_ (SClose fd) else open_console fuel else mret tt
  end.

(** Change the directory: "cd ", the path, and a last character that is to be
    the newline. *)
Definition run_cd (buf : list Z) : U unit :=
  let path := drop 3 (take (length buf - 1) buf) in
  r ← sysv (SChdir path);
  if r <? 0 then printf 2 (chars "cannot cd %s" ++ NL) [str path] else mret tt.

Fixpoint sh_loop (fuel : nat) : U unit :=
  match fuel with
  | O => UDry
  | S fuel =>
    l ← getcmd 100;
    match l with
    | None => UExit
    | Some buf =>
      (if (nth 0 buf 0 =? 99) && (nth 1 buf 0 =? 100) && (nth 2 buf 0 =? 32) then run_cd buf
       else
         pid ← fork1;
         (if pid =? 0 then
            '(c, buf) ← parsecmd buf;
            runcmd buf c
          else mret tt);;
         sys_ SWait);;
      sh_loop fuel
    end
  end.

Definition sh_main (fuel : nat) : U unit :=
  open_console fuel;;
  sh_loop fuel.
