(* ===== verification/ShellFacts.v ===== *)
(** The parser of sh.c decides the grammar of command lines: a reference
    lexer and a grammar over tokens, the proof that the parser accepts exactly
    the lines of the grammar and builds their trees; and the descriptors with
    which runcmd starts programs. *)

From S2P Require Import Prelude Mmu Fsys Str Ulib Uprog Progs Shell.

(** * The grammar *)

(** Tokens: a symbol, >>, a word. *)
Inductive tok := TSym (c : Z) | TApp | TWord (w : list Z).

Definition flush (cur : list Z) (ts : list tok) : list tok :=
  match cur with [] => ts | _ => TWord cur :: ts end.

(** The tokens of a line; [cur] is the word that was begun. *)
Fixpoint lex (cur l : list Z) : list tok :=
  match l with
  | [] => flush cur []
  | c :: l =>
    if has whitespace c then flush cur (lex [] l)
    else if c =? 62 then
      flush cur (match l with 62 :: l => TApp :: lex [] l | _ => TSym c :: lex [] l end)
    else if has symbols c then flush cur (TSym c :: lex [] l)
    else lex (cur ++ [c]) l
  end.

(** Commands with their strings. *)
Inductive tree :=
  | TExec (argv : list (list Z))
  | TRedir (t : tree) (file : list Z) (mode fd : Z)
  | TPipe (l r : tree)
  | TList (l r : tree)
  | TBack (t : tree).

(** A redirection: input, output, or output with >>, and the file. *)
Inductive dir := In | Out | App.
Definition redir : Type := dir * list Z.

Definition redir_toks (r : redir) : list tok :=
  [match r.1 with In => TSym 60 | Out => TSym 62 | App => TApp end; TWord r.2].
Definition apply_redir (t : tree) (r : redir) : tree :=
  match r.1 with
  | In => TRedir t r.2 O_RDONLY 0
  | Out | App => TRedir t r.2 (Z.lor O_WRONLY O_CREATE) 1
  end.

(** What a simple command is made of: arguments and redirections. *)
Definition piece : Type := list Z + redir.
Definition piece_toks (p : piece) : list tok :=
  match p with inl w => [TWord w] | inr r => redir_toks r end.
Definition piece_args (ps : list piece) : list (list Z) := omap (fun p : piece => match p with inl w => Some w | inr _ => None end) ps.
Definition piece_redirs (ps : list piece) : list redir := omap (fun p : piece => match p with inl _ => None | inr r => Some r end) ps.

(** line ::= pipe &* | pipe &* ; line
    pipe ::= exec | exec '|' pipe
    exec ::= ( line ) redir* | (word | redir)*   with fewer than MAXARGS words *)
Inductive g_line : list tok -> tree -> Prop :=
  | g_line_end ts t n :
    g_pipe ts t -> g_line (ts ++ replicate n (TSym 38)) (Nat.iter n TBack t)
  | g_line_list ts t n ts' t' :
    g_pipe ts t -> g_line ts' t' ->
    g_line (ts ++ replicate n (TSym 38) ++ TSym 59 :: ts') (TList (Nat.iter n TBack t) t')
with g_pipe : list tok -> tree -> Prop :=
  | g_pipe_one ts t : g_exec ts t -> g_pipe ts t
  | g_pipe_more ts t ts' t' :
    g_exec ts t -> g_pipe ts' t' -> g_pipe (ts ++ TSym 124 :: ts') (TPipe t t')
with g_exec : list tok -> tree -> Prop :=
  | g_exec_block ts t rs :
    g_line ts t -> g_exec (TSym 40 :: ts ++ TSym 41 :: (rs ≫= redir_toks)) (foldl apply_redir t rs)
  | g_exec_simple ps :
    (length (piece_args ps) < MAXARGS)%nat ->
    g_exec (ps ≫= piece_toks) (foldl apply_redir (TExec (piece_args ps)) (piece_redirs ps)).

Scheme g_line_mut := Induction for g_line Sort Prop
  with g_pipe_mut := Induction for g_pipe Sort Prop
  with g_exec_mut := Induction for g_exec Sort Prop.
Combined Scheme g_mut from g_line_mut, g_pipe_mut, g_exec_mut.

(** * Words in the line *)

Definition wordc (c : Z) : bool := negb (has whitespace c) && negb (has symbols c).

Lemma lex_word w l : Forall (fun c => wordc c = true) w ->
  match l with c :: _ => wordc c = false | [] => True end ->
  forall cur, lex cur (w ++ l) = flush (cur ++ w) (lex [] l).
Proof.
  intros Hw Hl. induction Hw as [|c w Hc _ IH]; intros cur; cbn [app].
  - rewrite app_nil_r. destruct l as [|c l]; [by destruct cur|]. cbn [lex]. unfold wordc in Hl.
    destruct (has whitespace c); [done|]. destruct (Z.eqb_spec c 62) as [->|]; [by destruct l|].
    destruct (has symbols c); [done|]. done.
  - cbn [lex]. unfold wordc in Hc. destruct (has whitespace c); [done|].
    destruct (Z.eqb_spec c 62) as [->|]; [done|]. destruct (has symbols c); [done|].
    rewrite IH. by rewrite <- app_assoc.
Qed.

Lemma lex_skip w l : Forall (fun c => has whitespace c = true) w -> lex [] (w ++ l) = lex [] l.
Proof. induction 1 as [|c w Hc _ IH]; [done|]. cbn [app lex]. by rewrite Hc, IH. Qed.

(** The program writes a message to descriptor 2 and exits. *)
Inductive fails {A} : U A -> Prop :=
  | fails_exit : fails UExit
  | fails_write l k : (forall r, fails (k r)) -> fails (USys (SWrite 2 l) k).

(** The program returns a result with a property, or fails. *)
Definition yields {A} (p : U A) (Q : A -> Prop) : Prop := (exists a, p = URet a /\ Q a) \/ fails p.

Lemma fails_bind {A B} (p : U A) (f : A -> U B) : fails p -> fails (p ≫= f).
Proof. induction 1; simpl; by constructor. Qed.

Lemma fails_puts {A} l (p : U A) : fails p -> fails (puts 2 l;; p).
Proof. intros Hp. induction l as [|c l IH]; [done|]. constructor. intros _. exact IH. Qed.

Lemma fails_panic {A} s : fails (A := A) (panic s).
Proof. apply fails_puts. constructor. Qed.

Lemma uret_bind {A B} (a : A) (f : A -> U B) : URet a ≫= f = f a.
Proof. done. Qed.

Lemma yields_ret {A} (a : A) (Q : A -> Prop) : Q a -> yields (mret a) Q.
Proof. intros. left. by exists a. Qed.

Lemma yields_bind {A B} (p : U A) (f : A -> U B) Q R :
  yields p Q -> (forall a, Q a -> yields (f a) R) -> yields (p ≫= f) R.
Proof. intros [(a & -> & Ha)|Hp] Hf; [by apply Hf | right; by apply fails_bind]. Qed.

Lemma yields_mono {A} (p : U A) (Q R : A -> Prop) : yields p Q -> (forall a, Q a -> R a) -> yields p R.
Proof. intros [(a & -> & Ha)|Hp] H; [left; eauto | by right]. Qed.

Lemma yields_panic {A} s (Q : A -> Prop) : yields (panic s) Q.
Proof. right. apply fails_panic. Qed.

(** The tree of a command, given how its strings are read. *)
Fixpoint decode (f : nat * nat -> list Z) (c : cmd) : tree :=
  match c with
  | EXEC argv => TExec (f <$> argv)
  | REDIR c q eq mode fd => TRedir (decode f c) (f (q, eq)) mode fd
  | PIPE l r => TPipe (decode f l) (decode f r)
  | LIST l r => TList (decode f l) (decode f r)
  | BACK c => TBack (decode f c)
  end.

(** The strings of a command. *)
Fixpoint places (c : cmd) : list (nat * nat) :=
  match c with
  | EXEC argv => argv
  | REDIR c q eq _ _ => places c ++ [(q, eq)]
  | PIPE l r | LIST l r => places l ++ places r
  | BACK c => places c
  end.

Fixpoint add_word (t : tree) (w : list Z) : tree :=
  match t with
  | TExec argv => TExec (argv ++ [w])
  | TRedir t file mode fd => TRedir (add_word t w) file mode fd
  | _ => t
  end.

Lemma decode_add_arg f c a : decode f (add_arg c a) = add_word (decode f c) (f a).
Proof. induction c; simpl; try done; [by rewrite fmap_app | by rewrite IHc]. Qed.

Lemma add_word_redirs args w rs :
  add_word (foldl apply_redir (TExec args) rs) w = foldl apply_redir (TExec (args ++ [w])) rs.
Proof.
  induction rs as [|r rs IH] using rev_ind; [done|]. rewrite !foldl_app. simpl. rewrite <- IH.
  unfold apply_redir at 1 3. by destruct (r.1).
Qed.

Lemma places_add_arg c a : Forall (fun x => x ∈ a :: places c) (places (add_arg c a)).
Proof.
  induction c; simpl; apply Forall_forall; intros x; rewrite ?elem_of_app, ?elem_of_cons; try set_solver.
  rewrite Forall_forall in IHc. intros [H|H]; [|set_solver]. apply IHc in H. set_solver.
Qed.

Section facts.
Variable buf : list Z.
Hypothesis Hz : ~ 0 ∈ buf.
Notation es := (length buf).

Definition at_ (s : nat) (ts : list tok) : Prop := (s <= es)%nat /\ lex [] (drop s buf) = ts.

Definition slice (a : nat * nat) : list Z := take (a.2 - a.1) (drop a.1 buf).

(** The ends of a word of the line. *)
Definition word_at (a : nat * nat) : Prop :=
  (a.1 < a.2 <= es)%nat /\ Forall (fun c => wordc c = true) (slice a)
  /\ (a.2 = es \/ wordc (char_at buf a.2) = false).

Lemma char_at_drop s : char_at buf s = nth 0 (drop s buf) 0.
Proof. unfold char_at. by rewrite !nth_lookup, lookup_drop, Nat.add_0_r. Qed.

Lemma drop_cons s c l : drop s buf = c :: l -> char_at buf s = c /\ drop (S s) buf = l /\ (s < es)%nat /\ c <> 0.
Proof.
  intros E. assert (buf !! s = Some c) as L by (rewrite <- (Nat.add_0_r s), <- lookup_drop, E; done).
  split; [rewrite char_at_drop, E; done|]. split; [|split].
  - rewrite <- Nat.add_1_r, <- drop_drop, E. done.
  - by apply lookup_lt_Some in L.
  - intros ->. apply Hz. by eapply list_elem_of_lookup_2.
Qed.

Lemma drop_nil_inv s : (s <= es)%nat -> drop s buf = [] -> s = es /\ char_at buf s = 0.
Proof.
  intros Hs E. assert (length (drop s buf) = 0%nat) as H by by rewrite E. rewrite length_drop in H.
  split; [lia|]. by rewrite char_at_drop, E.
Qed.

(** A scan goes over the longest run of characters. *)
Lemma scan_span p k : forall s, (s + k = es)%nat ->
  exists w l, drop s buf = w ++ l /\ Forall (fun c => p c = true) w
    /\ match l with c :: _ => p c = false | [] => True end
    /\ scan buf p s k = (s + length w)%nat /\ drop (s + length w) buf = l.
Proof.
  induction k as [|k IH]; intros s Hs; cbn [scan].
  - exists [], []. rewrite (drop_ge buf s) by lia. simpl. rewrite drop_ge by lia. split_and!; try done; lia.
  - destruct (drop s buf) as [|c l] eqn:E; [apply drop_nil_inv in E as [? _]; lia|].
    destruct (drop_cons _ _ _ E) as (-> & E' & _ & _).
    destruct (p c) eqn:Hc.
    + destruct (IH (S s)) as (w & l' & E2 & Hw & Hl & -> & Hd); [lia|]. rewrite E' in E2. subst l.
      exists (c :: w), l'. simpl. split_and!; try done; [by rewrite E2 | by constructor |].
      by replace (s + S (length w))%nat with (S s + length w)%nat by lia.
    + exists [], (c :: l). simpl. rewrite Nat.add_0_r. split_and!; done.
Qed.

Lemma skip_spec s ts : at_ s ts ->
  at_ (skip buf s) ts
  /\ match drop (skip buf s) buf with c :: _ => has whitespace c = false | [] => True end.
Proof.
  intros [Hs Hl]. unfold skip. destruct (scan_span (has whitespace) (es - s) s) as (w & l & E & Hw & Hl' & -> & Hd); [lia|].
  rewrite Hd. split; [|done]. split.
  - assert (length (drop s buf) = length (w ++ l)) as H by by rewrite E. rewrite length_drop, length_app in H. lia.
  - rewrite Hd. rewrite E, lex_skip in Hl; done.
Qed.

(** * Tokens in the line *)

(** What gettoken returns for a token. *)
Definition code (t : tok) : Z := match t with TSym c => c | TApp => 43 | TWord _ => 97 end.
Definition first_char (t : tok) : Z := match t with TSym c => c | TApp => 62 | TWord w => nth 0 w 0 end.

Lemma has_cons c l : has (c :: l) c = true.
Proof. unfold has. simpl. by rewrite Z.eqb_refl. Qed.

Lemma word_end_spec s c l : drop s buf = c :: l -> wordc c = true ->
  word_at (s, word_end buf s) /\ lex [] (c :: l) = TWord (slice (s, word_end buf s)) :: lex [] (drop (word_end buf s) buf).
Proof.
  intros E Hc. destruct (drop_cons _ _ _ E) as (_ & _ & Hs & _). unfold word_end.
  destruct (scan_span wordc (es - s) s) as (w & l' & E' & Hw & Hl & Hscan & Hd); [lia|]. fold wordc.
  change (scan buf (fun c0 => negb (has whitespace c0) && negb (has symbols c0)) s (es - s)) with (scan buf wordc s (es - s)).
  rewrite Hscan. rewrite <- E, E', Hd.
  assert (length (drop s buf) = length (w ++ l')) as H by by rewrite E'. rewrite length_drop, length_app in H.
  assert (w <> []) as Hne by (intros ->; rewrite E in E'; simpl in E'; subst l'; congruence).
  assert (slice (s, s + length w)%nat = w) as Hsl.
  { unfold slice. simpl. rewrite E'. replace (s + length w - s)%nat with (length w) by lia. by rewrite take_app_length. }
  rewrite Hsl. split.
  - split; [|split].
    + simpl. destruct w; [done|]. simpl in *. lia.
    + by rewrite Hsl.
    + simpl. destruct l' as [|d l'']; [left; simpl in H; lia|]. right. by destruct (drop_cons _ _ _ Hd) as (-> & _).
  - rewrite lex_word by done. simpl. by destruct w.
Qed.

Lemma at_skip s ts : (s <= es)%nat -> lex [] (drop s buf) = ts -> at_ (skip buf s) ts.
Proof. intros. by apply skip_spec. Qed.

Lemma symbols_cases c : has symbols c = has [124; 40; 41; 59; 38; 60] c || (c =? 62).
Proof. unfold has, symbols. simpl. apply eq_true_iff_eq. rewrite !orb_true_iff. tauto. Qed.

(** gettoken takes the first token. *)
Lemma gettoken_spec s ts : at_ s ts ->
  match ts with
  | [] => exists q, gettoken buf s = (0, q, q, es)
  | t :: ts => exists q eq s', gettoken buf s = (code t, q, eq, s') /\ at_ s' ts
      /\ match t with
         | TWord w => word_at (q, eq) /\ slice (q, eq) = w
         | TSym c => has symbols c = true
         | TApp => True
         end
  end.
Proof.
  intros Hat. apply skip_spec in Hat as [[Hs Hl] Hw]. unfold gettoken. set (q := skip buf s) in *. clearbody q. clear s.
  destruct (drop q buf) as [|c l] eqn:E.
  - simpl in Hl. subst ts. destruct (drop_nil_inv q Hs E) as [Hq ->]. simpl. rewrite Hq.
    exists es. unfold skip. by rewrite Nat.sub_diag.
  - destruct (drop_cons _ _ _ E) as (Hc & Hd & Hq & Hc0). rewrite Hc, (proj2 (Z.eqb_neq c 0)) by done.
    pose proof (symbols_cases c) as Hsym. cbn [lex] in Hl. rewrite Hw in Hl.
    destruct (Z.eqb_spec c 62) as [->|Hc62].
    + cbn [flush] in Hl. simpl. destruct l as [|d l].
      * subst ts. destruct (drop_nil_inv (S q) ltac:(lia) Hd) as [Hq' ->]. simpl. eexists q, (S q), _. split; [done|].
        split; [|done]. apply at_skip; [lia|]. by rewrite drop_ge by lia.
      * destruct (drop_cons _ _ _ Hd) as (-> & Hd' & ? & _). destruct (Z.eqb_spec d 62) as [->|Hd62].
        -- subst ts. eexists q, (S (S q)), _. split; [done|]. split; [|done]. apply at_skip; [lia|]. by rewrite Hd'.
        -- assert (ts = TSym 62 :: lex [] (d :: l)) as -> by (subst ts; repeat (case_match; try done)).
           eexists q, (S q), _. split; [done|]. split; [|done]. apply at_skip; [lia|]. by rewrite Hd.
    + rewrite orb_false_r in Hsym. rewrite <- Hsym. destruct (has symbols c) eqn:Hs'.
      * subst ts. eexists q, (S q), _. split; [done|]. split; [|done]. apply at_skip; [lia|]. by rewrite Hd.
      * destruct (word_end_spec q c l E) as [Hwd Hlx]; [unfold wordc; by rewrite Hw, Hs'|].
        assert (lex [] (c :: l) = ts) as Hl' by (cbn [lex]; rewrite Hw, (proj2 (Z.eqb_neq c 62)), Hs'; done).
        rewrite Hl' in Hlx. rewrite Hlx. eexists q, (word_end buf q), _. split; [done|].
        split; [|done]. apply at_skip; [apply Hwd | done].
Qed.

(** The first character of a token is the one at its place. *)
Lemma first_char_spec q ts : at_ q ts -> match drop q buf with c :: _ => has whitespace c = false | [] => True end ->
  match ts with
  | [] => char_at buf q = 0
  | t :: _ => char_at buf q = first_char t /\ first_char t <> 0
              /\ match t with TWord _ => has symbols (first_char t) = false | _ => True end
  end.
Proof.
  intros [Hq Hl] Hw. destruct (drop q buf) as [|c l] eqn:E.
  - simpl in Hl. subst ts. by destruct (drop_nil_inv q Hq E).
  - destruct (drop_cons _ _ _ E) as (-> & _ & _ & Hc0). cbn [lex] in Hl. rewrite Hw in Hl.
    destruct (Z.eqb_spec c 62) as [->|Hc62]; [by subst ts; repeat (case_match; simplify_eq/=)|].
    destruct (has symbols c) eqn:Hs'; [by subst ts|].
    destruct (word_end_spec q c l E) as [Hwd Hlx]; [unfold wordc; by rewrite Hw, Hs'|].
    assert (lex [] (c :: l) = ts) as Hl' by (cbn [lex]; rewrite Hw, (proj2 (Z.eqb_neq c 62)), Hs'; done).
    rewrite Hl' in Hlx. rewrite Hlx. simpl. destruct Hwd as [Hlt _]. simpl in Hlt. unfold slice. simpl. rewrite E.
    destruct (word_end buf q - q)%nat eqn:En; [lia|]. simpl. done.
Qed.

(** peek looks at the first token. *)
Lemma peek_spec s ts toks : at_ s ts -> forallb (has symbols) toks = true ->
  exists s', peek buf s toks = (match ts with TWord _ :: _ | [] => false | t :: _ => has toks (first_char t) end, s') /\ at_ s' ts.
Proof.
  intros Hat Ht. apply skip_spec in Hat as [Hat Hw]. unfold peek. exists (skip buf s). split; [|done]. f_equal.
  pose proof (first_char_spec _ _ Hat Hw) as Hf. destruct ts as [|t ts]; [by rewrite Hf|].
  destruct Hf as (-> & Hn & Hsym). rewrite (proj2 (Z.eqb_neq _ 0)) by done. simpl. destruct t; try done.
  destruct (has toks _) eqn:E; [|done]. unfold has in E. apply existsb_exists in E as (x & Hx & E). apply Z.eqb_eq in E. subst x.
  rewrite forallb_forall in Ht. rewrite Ht in Hsym; done.
Qed.


(** * The parser accepts lines of the grammar only *)

Notation dec := (decode slice).
Notation ok c := (Forall word_at (places c)).

Definition starts_redir (ts : list tok) : bool :=
  match ts with TSym c :: _ => has [60; 62] c | TApp :: _ => true | _ => false end.

Lemma parseredirs_sound fuel : forall c s ts,
  at_ s ts -> (length ts < fuel)%nat -> ok c ->
  yields (parseredirs_loop buf fuel c s) (fun '(c', s') => exists rs rest,
    ts = (rs ≫= redir_toks) ++ rest /\ at_ s' rest /\ starts_redir rest = false
    /\ dec c' = foldl apply_redir (dec c) rs /\ ok c').
Proof.
  induction fuel as [|fuel IH]; intros c s ts Hat Hf Hok; [lia|]. cbn [parseredirs_loop].
  destruct (peek_spec s ts [60; 62] Hat eq_refl) as (s1 & -> & Hat1).
  destruct (match ts with TWord _ :: _ | [] => false | t :: _ => has [60; 62] (first_char t) end) eqn:Eb; cbn [negb].
  2: { apply yields_ret. exists [], ts. split_and!; try done. by destruct ts as [|[]]. }
  destruct ts as [|t ts]; [done|].
  destruct (gettoken_spec s1 _ Hat1) as (q & eq & s2 & -> & Hat2 & _).
  pose proof (gettoken_spec s2 ts Hat2) as Hg. destruct ts as [|t2 ts].
  { destruct Hg as [q' ->]. apply yields_panic. }
  destruct Hg as (q' & eq' & s3 & -> & Hat3 & Hw).
  destruct (Z.eqb_spec (code t2) 97) as [E2|]; cbn [negb]; [|apply yields_panic].
  assert (exists w, t2 = TWord w) as [w ->].
  { destruct t2 as [x| |w]; [|done|by exists w]. simpl in E2. subst x. done. }
  destruct Hw as [Hw Hsl].
  match goal with |- yields (parseredirs_loop _ _ ?c' _) _ => set (c1 := c') end.
  assert (exists r, redir_toks r = [t; TWord w] /\ dec c1 = apply_redir (dec c) r /\ ok c1) as (r & Hr & Hdec & Hok1).
  { assert (ok c /\ Forall word_at [(q', eq')]) as Hok2 by (split; [done | by apply Forall_singleton]). rewrite <- Forall_app in Hok2.
    destruct t as [x| |]; [| |done]; simpl in Eb, c1.
    - unfold has in Eb. simpl in Eb. rewrite orb_false_r in Eb. apply orb_true_iff in Eb as [E|E]; apply Z.eqb_eq in E; subst x.
      + exists (In, w). subst c1. simpl. by rewrite Hsl.
      + exists (Out, w). subst c1. simpl. by rewrite Hsl.
    - exists (App, w). subst c1. simpl. by rewrite Hsl. }
  clearbody c1. simpl in Hf.
  destruct (IH c1 s3 ts Hat3 ltac:(lia) Hok1) as [([c' s'] & -> & rs & rest & -> & Hat' & Hst & Hd & Hok')|Hfail]; [|by right].
  left. exists (c', s'). split; [done|]. exists (r :: rs), rest. cbn [mbind list_bind]. rewrite Hr. split_and!; try done.
  cbn [foldl]. by rewrite <- Hdec.
Qed.

Lemma token_count s ts : at_ s ts -> (length ts <= es)%nat.
Proof.
  intros [Hs <-]. transitivity (length (drop s buf)); [|rewrite length_drop; lia].
  generalize (drop s buf). clear. intros l.
  enough (forall n l cur, length l <= n -> length (lex cur l) <= length l + length cur)%nat as H
    by (specialize (H _ l [] (le_n _)); simpl in H; lia).
  clear l. intros n. assert (forall cur ts, length (flush cur ts) <= length ts + length cur)%nat as Hfl
    by (intros [] ts; simpl; lia).
  induction n as [|n IH]; intros [|c l] cur Hl; simpl in Hl; try lia; try (specialize (Hfl cur []); simpl in *; lia).
  cbn [lex]. destruct (has whitespace c); [|destruct (c =? 62); [|destruct (has symbols c)]].
  - etransitivity; [apply Hfl|]. specialize (IH l [] ltac:(lia)). simpl in *. lia.
  - assert (Nat.le (length (match l with 62 :: l0 => TApp :: lex [] l0 | _ => TSym c :: lex [] l end)) (S (length l))) as H.
    { repeat (case_match; subst); cbn [length]; try (apply le_n_S, (IH _ []); simpl in *; lia);
        match goal with |- context [lex [] ?l0] => specialize (IH l0 [] ltac:(simpl in *; lia)) end; simpl in *; lia. }
    etransitivity; [apply Hfl|]. simpl. lia.
  - etransitivity; [apply Hfl|]. specialize (IH l [] ltac:(lia)). simpl in *. lia.
  - specialize (IH l (cur ++ [c]) ltac:(lia)). rewrite length_app in IH. simpl in *. lia.
Qed.

Lemma piece_redirs_fmap rs : piece_redirs (inr <$> rs) = rs /\ piece_args (inr <$> rs) = []
  /\ (inr <$> rs : list piece) ≫= piece_toks = rs ≫= redir_toks.
Proof. induction rs as [|r rs (IH1 & IH2 & IH3)]; [done|]. unfold piece_redirs, piece_args in *. cbn. by rewrite IH1, IH2, IH3. Qed.

(** The tokens behind a simple command. *)
Definition ends_exec (ts : list tok) : bool :=
  match ts with [] => true | TSym c :: _ => has [124; 41; 38; 59] c | _ => false end.

Lemma parseexec_sound fuel : forall ret argc s ts args rs,
  at_ s ts -> (length ts < fuel)%nat -> ok ret -> dec ret = foldl apply_redir (TExec args) rs ->
  length args = argc -> (argc < MAXARGS)%nat ->
  yields (parseexec_loop buf fuel ret argc s) (fun '(c, s') => exists ps rest,
    ts = (ps ≫= piece_toks) ++ rest /\ at_ s' rest /\ ends_exec rest = true
    /\ dec c = foldl apply_redir (TExec (args ++ piece_args ps)) (rs ++ piece_redirs ps)
    /\ (length (args ++ piece_args ps) < MAXARGS)%nat /\ ok c).
Proof.
  induction fuel as [|fuel IH]; intros ret argc s ts args rs Hat Hf Hok Hdec Hargs Hmax; [lia|]. cbn [parseexec_loop].
  destruct (peek_spec s ts [124; 41; 38; 59] Hat eq_refl) as (s1 & -> & Hat1).
  destruct (match ts with TWord _ :: _ | [] => false | t :: _ => has [124; 41; 38; 59] (first_char t) end) eqn:Eb.
  { apply yields_ret. exists [], ts. simpl. rewrite !app_nil_r. split_and!; try done; [by destruct ts as [|[]] | lia]. }
  pose proof (gettoken_spec s1 ts Hat1) as Hg. destruct ts as [|t ts].
  { destruct Hg as [q ->]. simpl. apply yields_ret. exists [], []. simpl. rewrite !app_nil_r. split_and!; try done; [|lia].
    split; [done|]. by rewrite drop_all. }
  destruct Hg as (q & eq & s2 & -> & Hat2 & Hw).
  destruct (Z.eqb_spec (code t) 0) as [E0|_].
  { destruct t as [x| |]; try done. simpl in E0. by subst x. }
  destruct (Z.eqb_spec (code t) 97) as [E97|]; cbn [negb]; [|apply yields_panic].
  assert (exists w, t = TWord w) as [w ->].
  { destruct t as [x| |w]; [|done|by exists w]. simpl in E97. by subst x. }
  destruct Hw as [Hw Hsl]. case_match eqn:Em; [apply yields_panic|]. apply Nat.leb_gt in Em.
  assert (ok (add_arg ret (q, eq))) as Hok1.
  { apply Forall_forall. intros x Hx. pose proof (places_add_arg ret (q, eq)) as H. rewrite Forall_forall in H, Hok.
    apply H, elem_of_cons in Hx as [->|Hx]; [done | by apply Hok]. }
  simpl in Hf. eapply yields_bind.
  { apply parseredirs_sound; [done | | done]. pose proof (token_count _ _ Hat2). lia. }
  intros [ret1 s3] (rs1 & rest1 & -> & Hat3 & _ & Hdec1 & Hok2).
  rewrite decode_add_arg, Hdec, Hsl, add_word_redirs, <- foldl_app in Hdec1.
  rewrite length_app in Hf.
  destruct (IH ret1 (S argc) s3 rest1 (args ++ [w]) (rs ++ rs1)) as [([c s'] & -> & ps & rest & -> & Hat' & He & Hd & Hlen & Hok')|Hfail];
    try done; [lia | rewrite length_app; simpl; lia | | by right].
  left. exists (c, s'). split; [done|]. exists (inl w :: (inr <$> rs1) ++ ps), rest.
  destruct (piece_redirs_fmap rs1) as (E1 & E2 & E3).
  assert (piece_args (inl w :: (inr <$> rs1) ++ ps) = w :: piece_args ps) as ->
    by (unfold piece_args in *; simpl; by rewrite omap_app, E2).
  assert (piece_redirs (inl w :: (inr <$> rs1) ++ ps) = rs1 ++ piece_redirs ps) as ->
    by (unfold piece_redirs in *; simpl; by rewrite omap_app, E1).
  cbn [mbind list_bind piece_toks app]. rewrite bind_app, E3, <- !app_assoc. rewrite <- !app_assoc in Hd, Hlen. by rewrite <- (app_assoc rs) in Hd.
Qed.

Lemma parseback_sound fuel : forall c s ts,
  at_ s ts -> (length ts < fuel)%nat -> ok c ->
  exists c' s' n rest, parseback buf fuel c s = URet (c', s') /\ ts = replicate n (TSym 38) ++ rest /\ at_ s' rest
    /\ (match rest with TSym 38 :: _ => False | _ => True end)
    /\ dec c' = Nat.iter n TBack (dec c) /\ ok c'.
Proof.
  induction fuel as [|fuel IH]; intros c s ts Hat Hf Hok; [lia|]. cbn [parseback].
  destruct (peek_spec s ts [38] Hat eq_refl) as (s1 & -> & Hat1).
  destruct (match ts with TWord _ :: _ | [] => false | t :: _ => has [38] (first_char t) end) eqn:Eb.
  - destruct ts as [|t ts]; [done|].
    assert (t = TSym 38) as ->
      by (destruct t as [x| |]; try done; unfold has in Eb; simpl in Eb; rewrite orb_false_r in Eb; apply Z.eqb_eq in Eb; by subst x).
    destruct (gettoken_spec s1 _ Hat1) as (q & eq & s2 & -> & Hat2 & _). simpl in Hf.
    destruct (IH (BACK c) s2 ts) as (c' & s' & n & rest & E & -> & Hat' & Hr & Hd & Hok'); [done | lia | done |].
    exists c', s', (S n), rest. split_and!; try done. rewrite Hd. simpl. by rewrite Nat.iter_swap.
  - exists c, s1, 0%nat, ts. split_and!; try done. destruct ts as [|[x| |] ts]; try done.
    simpl in Eb. repeat case_match; done.
Qed.

Definition sound (p : U (cmd * nat)) (ts : list tok) (G : list tok -> tree -> Prop) : Prop :=
  yields p (fun '(c, s') => exists us rest, ts = us ++ rest /\ at_ s' rest /\ G us (dec c) /\ ok c).

Lemma sound_weaken p ts (G G' : list tok -> tree -> Prop) :
  (forall us t, G us t -> G' us t) -> sound p ts G -> sound p ts G'.
Proof.
  intros HG [([c s'] & -> & us & rest & ? & ? & ? & ?)|?]; [left|by right].
  exists (c, s'). split; [done|]. exists us, rest. eauto.
Qed.

(** peek of one symbol. *)
Lemma peek_sym s ts x : at_ s ts -> has symbols x = true -> x <> 62 ->
  exists s', at_ s' ts /\ ((exists ts', ts = TSym x :: ts' /\ peek buf s [x] = (true, s'))
                           \/ (match ts with TSym y :: _ => y <> x | _ => True end) /\ peek buf s [x] = (false, s')).
Proof.
  intros Hat Hx H62. destruct (peek_spec s ts [x] Hat) as (s' & E & Hat'); [cbn [forallb]; by rewrite Hx|].
  exists s'. split; [done|]. rewrite E. destruct ts as [|[y| |] ts]; [by right | | | by right]; unfold has; cbn [existsb first_char]; rewrite orb_false_r.
  - destruct (Z.eqb_spec y x) as [->|]; [left; eauto | by right].
  - right. split; [done|]. f_equal. apply Z.eqb_neq. lia.
Qed.

Lemma gettoken_sym s x ts : at_ s (TSym x :: ts) -> exists q eq s', gettoken buf s = (x, q, eq, s') /\ at_ s' ts.
Proof. intros H. apply gettoken_spec in H as (q & eq & s' & E & ? & _). eauto 6. Qed.

Lemma parse_sound n :
  (forall s ts, at_ s ts -> (4 * length ts + 4 <= n)%nat -> sound (parseline buf n s) ts g_line)
  /\ (forall s ts, at_ s ts -> (4 * length ts + 3 <= n)%nat -> sound (parsepipe buf n s) ts g_pipe)
  /\ (forall s ts, at_ s ts -> (4 * length ts + 2 <= n)%nat -> sound (parseexec buf n s) ts g_exec)
  /\ (forall s ts, at_ s ts -> (4 * length ts + 1 <= n)%nat -> sound (parseblock buf n s) ts g_exec).
Proof.
  induction n as [|n (IHl & IHp & IHe & IHb)]; [split_and!; intros; lia|]. split_and!; intros s ts Hat Hn.
  - cbn [parseline]. eapply yields_bind; [apply (IHp s ts Hat); lia|]. intros [c s1] (us & rest & -> & Hat1 & Hg & Hok).
    pose proof (token_count _ _ Hat1). rewrite length_app in Hn.
    destruct (parseback_sound (S es) c s1 rest Hat1 ltac:(lia) Hok) as (c1 & s2 & k & rest1 & -> & -> & Hat2 & _ & Hd & Hok1).
    destruct (peek_sym s2 rest1 59 Hat2 eq_refl ltac:(lia)) as (s3 & Hat3 & [(ts' & -> & E)|[_ E]]);
      rewrite uret_bind; cbv beta iota; rewrite E.
    + destruct (gettoken_sym s3 59 ts' Hat3) as (q & eq & s4 & -> & Hat4). rewrite length_app in Hn. simpl in Hn.
      eapply yields_bind; [apply (IHl s4 ts' Hat4); lia|]. intros [r s5] (us' & rest' & -> & Hat5 & Hg' & Hok').
      apply yields_ret. exists (us ++ replicate k (TSym 38) ++ TSym 59 :: us'), rest'.
      split_and!; [by rewrite <- !app_assoc | done | simpl; rewrite Hd; by constructor | by apply Forall_app].
    + apply yields_ret. exists (us ++ replicate k (TSym 38)), rest1.
      split_and!; [by rewrite <- app_assoc | done | rewrite Hd; by constructor | done].
  - cbn [parsepipe]. eapply yields_bind; [apply (IHe s ts Hat); lia|]. intros [c s1] (us & rest & -> & Hat1 & Hg & Hok).
    rewrite length_app in Hn.
    destruct (peek_sym s1 rest 124 Hat1 eq_refl ltac:(lia)) as (s3 & Hat3 & [(ts' & -> & E)|[_ E]]); rewrite E.
    + destruct (gettoken_sym s3 124 ts' Hat3) as (q & eq & s4 & -> & Hat4). simpl in Hn.
      eapply yields_bind; [apply (IHp s4 ts' Hat4); lia|]. intros [r s5] (us' & rest' & -> & Hat5 & Hg' & Hok').
      apply yields_ret. exists (us ++ TSym 124 :: us'), rest'.
      split_and!; [by rewrite <- !app_assoc | done | by constructor | by apply Forall_app].
    + apply yields_ret. exists us, rest. split_and!; try done. by constructor.
  - cbn [parseexec]. destruct (peek_sym s ts 40 Hat eq_refl ltac:(lia)) as (s1 & Hat1 & [(ts' & -> & E)|[_ E]]); rewrite E.
    + apply IHb; [done | lia].
    + pose proof (token_count _ _ Hat1). eapply yields_bind; [apply (parseredirs_sound _ (EXEC []) s1 ts Hat1); [lia | constructor]|].
      intros [c s2] (rs & rest & -> & Hat2 & _ & Hd & Hok). pose proof (token_count _ _ Hat2).
      eapply yields_mono; [apply (parseexec_sound (S es) c 0 s2 rest [] rs Hat2); [lia | done | done | done | unfold MAXARGS; lia]|].
      intros [c' s'] (ps & rest' & -> & Hat' & _ & Hd' & Hlen & Hok'). destruct (piece_redirs_fmap rs) as (E1 & E2 & E3).
      exists (((inr <$> rs) ++ ps) ≫= piece_toks), rest'. split_and!; try done.
      * by rewrite bind_app, E3, <- app_assoc.
      * rewrite Hd'. replace (rs ++ piece_redirs ps) with (piece_redirs ((inr <$> rs) ++ ps))
          by (unfold piece_redirs in *; by rewrite omap_app, E1).
        replace ([] ++ piece_args ps) with (piece_args ((inr <$> rs) ++ ps)) in *
          by (unfold piece_args in *; by rewrite omap_app, E2).
        by constructor.
  - cbn [parseblock]. destruct (peek_sym s ts 40 Hat eq_refl ltac:(lia)) as (s1 & Hat1 & [(ts' & -> & E)|[_ E]]); rewrite E;
      [|apply yields_panic].
    destruct (gettoken_sym s1 40 ts' Hat1) as (q & eq & s2 & -> & Hat2). simpl in Hn.
    eapply yields_bind; [apply (IHl s2 ts' Hat2); lia|]. intros [c s3] (us & rest & -> & Hat3 & Hg & Hok).
    destruct (peek_sym s3 rest 41 Hat3 eq_refl ltac:(lia)) as (s4 & Hat4 & [(ts' & -> & E')|[_ E']]); rewrite E';
      [|apply yields_panic].
    destruct (gettoken_sym s4 41 ts' Hat4) as (q' & eq' & s5 & -> & Hat5). pose proof (token_count _ _ Hat5).
    cbn [negb]. eapply yields_mono; [apply (parseredirs_sound (S es) c s5 ts' Hat5); [lia | done]|].
    intros [c' s'] (rs & rest' & -> & Hat' & _ & Hd & Hok').
    exists (TSym 40 :: us ++ TSym 41 :: (rs ≫= redir_toks)), rest'. split_and!; try done.
    + simpl. by rewrite <- app_assoc.
    + rewrite Hd. by constructor.
Qed.

(** * The parser accepts every line of the grammar *)

Lemma parseredirs_complete rs : forall fuel c s rest,
  at_ s ((rs ≫= redir_toks) ++ rest) -> starts_redir rest = false -> (length rs < fuel)%nat -> ok c ->
  exists c' s', parseredirs_loop buf fuel c s = URet (c', s') /\ at_ s' rest
    /\ dec c' = foldl apply_redir (dec c) rs /\ ok c'.
Proof.
  induction rs as [|[d w] rs IH]; intros fuel c s rest Hat Hr Hf Hok; (destruct fuel as [|fuel]; [simpl in Hf; lia|]); cbn [parseredirs_loop].
  - destruct (peek_spec s _ [60; 62] Hat eq_refl) as (s1 & -> & Hat1).
    assert (match rest with TWord _ :: _ | [] => false | t :: _ => has [60; 62] (first_char t) end = false) as E
      by (by destruct rest as [|[]]). simpl in E |- *. rewrite E. eauto 6.
  - destruct (peek_spec s _ [60; 62] Hat eq_refl) as (s1 & -> & Hat1).
    set (t := match d with In => TSym 60 | Out => TSym 62 | App => TApp end).
    change (at_ s1 (t :: TWord w :: (rs ≫= redir_toks) ++ rest)) in Hat1.
    destruct (gettoken_spec s1 _ Hat1) as (q & eq & s2 & E1 & Hat2 & _).
    destruct (gettoken_spec s2 _ Hat2) as (q' & eq' & s3 & E2 & Hat3 & Hw & Hsl).
    destruct (IH fuel (REDIR c q' eq' (match d with In => O_RDONLY | _ => Z.lor O_WRONLY O_CREATE end) (match d with In => 0 | _ => 1 end))
      s3 rest Hat3 Hr) as (c' & s' & E & Hat' & Hd & Hok'); [simpl in Hf; lia | |].
    { simpl. apply Forall_app. split; [done | by apply Forall_singleton]. }
    exists c', s'. split_and!; [|done| |done].
    + rewrite E1, E2. subst t. by destruct d.
    + rewrite Hd. simpl. rewrite Hsl. by destruct d.
Qed.

Lemma split_redirs (ps : list piece) :
  exists rs ps', ps = (inr <$> rs) ++ ps' /\ match ps' with inr _ :: _ => False | _ => True end.
Proof.
  induction ps as [|[w|r] ps (rs & ps' & -> & IH)]; [by exists [], [] | by exists [], (inl w :: (inr <$> rs) ++ ps') | by exists (r :: rs), ps'].
Qed.

Lemma ends_redir rest : ends_exec rest = true -> starts_redir rest = false.
Proof.
  destruct rest as [|[x| |] rest]; try done. simpl. unfold has. simpl. rewrite !orb_true_iff, !orb_false_iff, !Z.eqb_eq, !Z.eqb_neq. lia.
Qed.

Lemma head_redir ps rest : match ps with inr _ :: _ => False | _ => True end -> ends_exec rest = true ->
  starts_redir ((ps ≫= piece_toks) ++ rest) = false.
Proof. destruct ps as [|[w|r] ps]; intros H He; [by apply ends_redir | done | done]. Qed.

Lemma redirs_length rs : length (rs ≫= redir_toks) = (2 * length rs)%nat.
Proof. induction rs as [|r rs IH]; [done|]. cbn [mbind list_bind]. rewrite length_app, IH. simpl. lia. Qed.

Lemma parseexec_complete fuel : forall ps ret argc s rest args rs,
  at_ s ((ps ≫= piece_toks) ++ rest) -> ends_exec rest = true ->
  match ps with inr _ :: _ => False | _ => True end ->
  (length (ps ≫= piece_toks) < fuel)%nat -> ok ret -> dec ret = foldl apply_redir (TExec args) rs ->
  length args = argc -> (length (args ++ piece_args ps) < MAXARGS)%nat ->
  exists c s', parseexec_loop buf fuel ret argc s = URet (c, s') /\ at_ s' rest
    /\ dec c = foldl apply_redir (TExec (args ++ piece_args ps)) (rs ++ piece_redirs ps) /\ ok c.
Proof.
  induction fuel as [|fuel IH]; intros ps ret argc s rest args rs Hat He Hps Hf Hok Hdec Hargs Hmax; [lia|]. cbn [parseexec_loop].
  destruct (peek_spec s _ [124; 41; 38; 59] Hat eq_refl) as (s1 & -> & Hat1).
  destruct ps as [|[w|]  ps]; [|clear Hps|done].
  - simpl in Hat1 |- *. destruct rest as [|[x| |] rest]; try done.
    + destruct (gettoken_spec s1 _ Hat1) as [q ->]. simpl. unfold piece_args, piece_redirs; simpl; rewrite (app_nil_r args), (app_nil_r rs).
      exists ret, es. split_and!; try done. split; [done|]. by rewrite drop_all.
    + simpl in He |- *. rewrite He. unfold piece_args, piece_redirs; simpl; rewrite (app_nil_r args), (app_nil_r rs). eauto 6.
  - cbn [mbind list_bind piece_toks app] in Hat1, Hf |- *.
    destruct (gettoken_spec s1 _ Hat1) as (q & eq & s2 & -> & Hat2 & Hw & Hsl). cbn [code Z.eqb Pos.eqb negb length] in Hf |- *.
    change (piece_args (inl w :: ps)) with (w :: piece_args ps) in *. rewrite length_app in Hmax. simpl in Hmax.
    rewrite (proj2 (Nat.leb_gt _ _)) by lia.
    destruct (split_redirs ps) as (rs1 & ps' & -> & Hps'). destruct (piece_redirs_fmap rs1) as (E1 & E2 & E3).
    rewrite bind_app, E3 in Hat2, Hf. rewrite length_app, redirs_length in Hf. rewrite <- app_assoc in Hat2.
    pose proof (token_count _ _ Hat2) as Hc. rewrite !length_app, redirs_length in Hc.
    assert (ok (add_arg ret (q, eq))) as Hok1.
    { apply Forall_forall. intros x Hx. pose proof (places_add_arg ret (q, eq)) as H. rewrite Forall_forall in H, Hok.
      apply H, elem_of_cons in Hx as [->|Hx]; [done | by apply Hok]. }
    destruct (parseredirs_complete rs1 (S es) (add_arg ret (q, eq)) s2 _ Hat2) as (ret1 & s3 & E & Hat3 & Hd & Hok2);
      [by apply head_redir | lia | done |].
    unfold parseredirs. rewrite E, uret_bind. rewrite decode_add_arg, Hdec, Hsl, add_word_redirs, <- foldl_app in Hd.
    assert (piece_args ((inr <$> rs1) ++ ps') = piece_args ps') as -> by (unfold piece_args in *; by rewrite omap_app, E2).
    match goal with |- context [piece_redirs ?l] =>
      assert (piece_redirs l = rs1 ++ piece_redirs ps') as -> by (unfold piece_redirs in *; simpl; by rewrite omap_app, E1) end.
    rewrite (cons_middle w), (app_assoc args), (app_assoc rs).
    apply (IH ps' ret1 (S argc) s3 rest (args ++ [w]) (rs ++ rs1)); try done; [lia | rewrite length_app; simpl; lia |].
    rewrite !length_app. simpl. unfold piece_args in *. rewrite omap_app, E2 in Hmax. simpl in Hmax. lia.
Qed.

Lemma replicate_split {A} (a : A) n n' l l' :
  (forall k, l <> a :: k) -> (forall k, l' <> a :: k) ->
  replicate n a ++ l = replicate n' a ++ l' -> n = n' /\ l = l'.
Proof.
  intros Hl Hl'. revert n'. induction n as [|n IH]; intros [|n'] E; simplify_eq/=; [done | by destruct (Hl _ eq_refl) | by destruct (Hl' _ eq_refl) |].
  by destruct (IH _ E) as [-> ->].
Qed.

Lemma parseback_complete fuel c s n rest :
  at_ s (replicate n (TSym 38) ++ rest) -> (match rest with TSym 38 :: _ => False | _ => True end) ->
  (n + length rest < fuel)%nat -> ok c ->
  exists c' s', parseback buf fuel c s = URet (c', s') /\ at_ s' rest /\ dec c' = Nat.iter n TBack (dec c) /\ ok c'.
Proof.
  intros Hat Hr Hf Hok.
  destruct (parseback_sound fuel c s _ Hat) as (c' & s' & n' & rest' & E & Et & Hat' & Hr' & Hd & Hok');
    [rewrite length_app, length_replicate; lia | done |].
  apply replicate_split in Et as [-> ->]; [eauto 6 | by intros k -> | by intros k ->].
Qed.

Definition ends_line (ts : list tok) : bool := match ts with [] => true | TSym c :: _ => has [41] c | _ => false end.
Definition ends_pipe (ts : list tok) : bool := match ts with [] => true | TSym c :: _ => has [41; 38; 59] c | _ => false end.

Definition complete (p : nat -> nat -> U (cmd * nat)) (k : nat) (ends : list tok -> bool) (us : list tok) (t : tree) : Prop :=
  forall s rest n, at_ s (us ++ rest) -> ends rest = true -> (4 * length (us ++ rest) + k <= n)%nat ->
  exists c s', p n s = URet (c, s') /\ at_ s' rest /\ dec c = t /\ ok c.

Lemma ends_weaken rest : (ends_line rest = true -> ends_pipe rest = true) /\ (ends_pipe rest = true -> ends_exec rest = true).
Proof.
  destruct rest as [|[x| |] rest]; try done. simpl. unfold has. simpl. rewrite !orb_false_r, !orb_true_iff. tauto.
Qed.

Lemma peek_true s ts x : at_ s (TSym x :: ts) -> has symbols x = true -> x <> 62 ->
  exists s', at_ s' (TSym x :: ts) /\ peek buf s [x] = (true, s').
Proof. intros Hat Hx H62. destruct (peek_sym s _ x Hat Hx H62) as (s' & ? & [(? & ? & ?)|[? ?]]); [eauto | done]. Qed.

Lemma peek_false s ts x : at_ s ts -> has symbols x = true -> x <> 62 -> (match ts with TSym y :: _ => y <> x | _ => True end) ->
  exists s', at_ s' ts /\ peek buf s [x] = (false, s').
Proof. intros Hat Hx H62 H. destruct (peek_sym s _ x Hat Hx H62) as (s' & ? & [(? & -> & ?)|[? ?]]); [done | eauto]. Qed.

Lemma ends_not ts x l : match ts with [] => true | TSym c :: _ => has l c | _ => false end = true -> has l x = false ->
  match ts with TSym y :: _ => y <> x | _ => True end.
Proof. destruct ts as [|[y| |] ts]; try done. intros H H' ->. congruence. Qed.

Lemma complete_pipe_one ts t : complete (parseexec buf) 2 ends_exec ts t -> complete (parsepipe buf) 3 ends_pipe ts t.
Proof.
  intros IH s rest [|n] Hat He Hn; [lia|]. cbn [parsepipe].
  destruct (IH s rest n Hat) as (c & s1 & -> & Hat1 & Hd & Hok); [by apply ends_weaken | lia |]. rewrite uret_bind.
  destruct (peek_false s1 rest 124 Hat1 eq_refl ltac:(lia)) as (s2 & Hat2 & ->); [by eapply ends_not|]. eauto 6.
Qed.

Lemma complete_pipe_more ts t ts' t' :
  complete (parseexec buf) 2 ends_exec ts t -> complete (parsepipe buf) 3 ends_pipe ts' t' ->
  complete (parsepipe buf) 3 ends_pipe (ts ++ TSym 124 :: ts') (TPipe t t').
Proof.
  intros IH IH' s rest [|n] Hat He Hn; [lia|]. cbn [parsepipe]. rewrite <- app_assoc in Hat, Hn. simpl in Hat, Hn.
  destruct (IH s (TSym 124 :: ts' ++ rest) n Hat) as (c & s1 & -> & Hat1 & Hd & Hok); [done | lia |]. rewrite uret_bind.
  destruct (peek_true s1 _ 124 Hat1 eq_refl ltac:(lia)) as (s2 & Hat2 & ->).
  destruct (gettoken_sym s2 124 _ Hat2) as (q & eq & s3 & -> & Hat3).
  destruct (IH' s3 rest n Hat3 He) as (r & s4 & -> & Hat4 & Hd' & Hok'); [rewrite length_app in Hn; simpl in Hn; lia|].
  exists (PIPE c r), s4. split_and!; [done | done | simpl; by rewrite Hd, Hd' | by apply Forall_app].
Qed.

Lemma complete_line ts t k tail s n :
  complete (parsepipe buf) 3 ends_pipe ts t -> at_ s (ts ++ replicate k (TSym 38) ++ tail) ->
  match tail with [] => true | TSym c :: _ => has [41; 59] c | _ => false end = true ->
  (4 * length (ts ++ replicate k (TSym 38) ++ tail) + 3 <= n)%nat ->
  exists c0 s0 c s', parsepipe buf n s = URet (c0, s0) /\ parseback buf (S es) c0 s0 = URet (c, s') /\ at_ s' tail
    /\ dec c = Nat.iter k TBack t /\ ok c.
Proof.
  intros IH Hat Ht Hn.
  destruct (IH s (replicate k (TSym 38) ++ tail) n Hat) as (c & s1 & -> & Hat1 & Hd & Hok); [|lia|].
  { destruct k as [|k]; [|done]. simpl. destruct tail as [|[x| |] tail]; try done. simpl.
    unfold has in *. simpl in *. rewrite orb_false_r in *. rewrite !orb_true_iff in *. tauto. }
  pose proof (token_count _ _ Hat1) as Hc. rewrite length_app, length_replicate in Hc. rewrite <- Hd.
  destruct (parseback_complete (S es) c s1 k tail Hat1) as (c' & s' & E & ?); [| lia | done | by exists c, s1, c', s'].
  destruct tail as [|[[|x|]| |] tail]; try done. repeat case_match; done.
Qed.

Lemma complete_line_end ts t k :
  complete (parsepipe buf) 3 ends_pipe ts t ->
  complete (parseline buf) 4 ends_line (ts ++ replicate k (TSym 38)) (Nat.iter k TBack t).
Proof.
  intros IH s rest [|n] Hat He Hn; [lia|]. cbn [parseline]. rewrite <- app_assoc in Hat, Hn.
  destruct (complete_line ts t k rest s n IH Hat) as (c0 & s0 & c & s1 & -> & E & Hat1 & Hd & Hok); [|lia|].
  { destruct rest as [|[x| |] rest]; try done. simpl in He. unfold has in *. simpl in *. rewrite orb_false_r in *.
    by rewrite He. }
  rewrite uret_bind, E, uret_bind.
  destruct (peek_false s1 rest 59 Hat1 eq_refl ltac:(lia)) as (s2 & Hat2 & ->); [by eapply ends_not|]. eauto 6.
Qed.

Lemma complete_line_list ts t k ts' t' :
  complete (parsepipe buf) 3 ends_pipe ts t -> complete (parseline buf) 4 ends_line ts' t' ->
  complete (parseline buf) 4 ends_line (ts ++ replicate k (TSym 38) ++ TSym 59 :: ts') (TList (Nat.iter k TBack t) t').
Proof.
  intros IH IH' s rest [|n] Hat He Hn; [lia|]. cbn [parseline]. rewrite <- !app_assoc in Hat, Hn. simpl in Hat, Hn.
  destruct (complete_line ts t k (TSym 59 :: ts' ++ rest) s n IH Hat) as (c0 & s0 & c & s1 & -> & E & Hat1 & Hd & Hok); [done|lia|].
  rewrite uret_bind, E, uret_bind.
  destruct (peek_true s1 _ 59 Hat1 eq_refl ltac:(lia)) as (s2 & Hat2 & ->).
  destruct (gettoken_sym s2 59 _ Hat2) as (q & eq & s3 & -> & Hat3).
  destruct (IH' s3 rest n Hat3 He) as (r & s4 & -> & Hat4 & Hd' & Hok'); [rewrite !length_app in Hn; simpl in Hn; lia|].
  exists (LIST c r), s4. split_and!; [done | done | simpl; by rewrite Hd, Hd' | by apply Forall_app].
Qed.

Lemma complete_block ts t rs :
  complete (parseline buf) 4 ends_line ts t ->
  complete (parseexec buf) 2 ends_exec (TSym 40 :: ts ++ TSym 41 :: (rs ≫= redir_toks)) (foldl apply_redir t rs).
Proof.
  intros IH s rest [|[|n]] Hat He Hn; [lia|simpl in Hn; lia|]. cbn [parseexec parseblock].
  simpl in Hat, Hn. rewrite <- app_assoc in Hat, Hn. simpl in Hat, Hn.
  destruct (peek_true s _ 40 Hat eq_refl ltac:(lia)) as (s1 & Hat1 & ->).
  destruct (peek_true s1 _ 40 Hat1 eq_refl ltac:(lia)) as (s2 & Hat2 & ->). cbn [negb].
  destruct (gettoken_sym s2 40 _ Hat2) as (q & eq & s3 & -> & Hat3).
  destruct (IH s3 (TSym 41 :: (rs ≫= redir_toks) ++ rest) n Hat3) as (c & s4 & -> & Hat4 & Hd & Hok); [done | lia|].
  rewrite uret_bind.
  destruct (peek_true s4 _ 41 Hat4 eq_refl ltac:(lia)) as (s5 & Hat5 & ->). cbn [negb].
  destruct (gettoken_sym s5 41 _ Hat5) as (q' & eq' & s6 & -> & Hat6).
  pose proof (token_count _ _ Hat6) as Hc. rewrite length_app, redirs_length in Hc. rewrite <- Hd.
  apply parseredirs_complete; [done | by apply ends_redir | lia | done].
Qed.

Lemma complete_simple ps :
  (length (piece_args ps) < MAXARGS)%nat ->
  complete (parseexec buf) 2 ends_exec (ps ≫= piece_toks) (foldl apply_redir (TExec (piece_args ps)) (piece_redirs ps)).
Proof.
  intros Hps s rest [|n] Hat He Hn; [lia|]. cbn [parseexec].
  destruct (split_redirs ps) as (rs & ps' & -> & Hps'). destruct (piece_redirs_fmap rs) as (E1 & E2 & E3).
  rewrite bind_app, E3, <- app_assoc in Hat.
  destruct (peek_false s _ 40 Hat eq_refl ltac:(lia)) as (s1 & Hat1 & ->).
  { destruct rs as [|[[] ?] rs]; try done. destruct ps' as [|[]]; try done. simpl. destruct rest as [|[x| |] rest]; try done. intros ->. done. }
  pose proof (token_count _ _ Hat1) as Hc. rewrite !length_app, redirs_length in Hc.
  destruct (parseredirs_complete rs (S es) (EXEC []) s1 _ Hat1) as (c & s2 & E & Hat2 & Hd & Hok);
    [by apply head_redir | lia | constructor |].
  unfold parseredirs. rewrite E, uret_bind.
  assert (piece_args ((inr <$> rs) ++ ps') = [] ++ piece_args ps') as Ea by (unfold piece_args in *; by rewrite omap_app, E2).
  assert (piece_redirs ((inr <$> rs) ++ ps') = rs ++ piece_redirs ps') as -> by (unfold piece_redirs in *; by rewrite omap_app, E1).
  rewrite Ea in *. apply (parseexec_complete (S es) ps' c 0 s2 rest [] rs Hat2); try done. lia.
Qed.

Lemma parse_complete :
  (forall ts t, g_line ts t -> complete (parseline buf) 4 ends_line ts t)
  /\ (forall ts t, g_pipe ts t -> complete (parsepipe buf) 3 ends_pipe ts t)
  /\ (forall ts t, g_exec ts t -> complete (parseexec buf) 2 ends_exec ts t).
Proof.
  apply g_mut; intros;
    eauto using complete_line_end, complete_line_list, complete_pipe_one, complete_pipe_more, complete_block, complete_simple.
Qed.

Lemma peek_end s rest : at_ s rest -> exists s', peek buf s [] = (false, s') /\ (s' = es <-> rest = []).
Proof.
  intros Hat. apply skip_spec in Hat as [[Hs Hl] Hw]. unfold peek. exists (skip buf s).
  split; [by rewrite andb_false_r|]. split.
  - intros E. rewrite E, drop_all in Hl. by subst rest.
  - intros ->. destruct (drop (skip buf s) buf) as [|c l] eqn:E; [by apply drop_nil_inv in E as [? _]|]. exfalso.
    cbn [lex] in Hl. rewrite Hw in Hl. destruct (Z.eqb_spec c 62); [by repeat (case_match; simplify_eq/=)|].
    destruct (has symbols c) eqn:Hs'; [done|].
    destruct (word_end_spec _ _ _ E) as [_ H]; [unfold wordc; by rewrite Hw, Hs'|].
    cbn [lex] in H. rewrite Hw, (proj2 (Z.eqb_neq c 62)), Hs', Hl in H by done. done.
Qed.

(** * The strings of a command *)

Definition nuls (ps : list (nat * nat)) (b : list Z) : list Z := foldl (fun b a => <[a.2 := 0]> b) b ps.

Lemma nuls_length ps b : length (nuls ps b) = length b.
Proof. unfold nuls. revert b. induction ps as [|a ps IH]; intros b; simpl; [done|]. by rewrite IH, length_insert. Qed.

Lemma nuls_other ps i : Forall (fun a => a.2 <> i) ps -> forall b, nuls ps b !! i = b !! i.
Proof. unfold nuls. induction 1 as [|a ps Ha _ IH]; intros b; simpl; [done|]. by rewrite IH, list_lookup_insert_ne. Qed.

Lemma nuls_zero ps i : forall b, b !! i = Some 0 -> nuls ps b !! i = Some 0.
Proof.
  unfold nuls. induction ps as [|a ps IH]; intros b Hb; simpl; [done|]. apply IH.
  destruct (decide (a.2 = i)) as [->|]; [|by rewrite list_lookup_insert_ne].
  apply list_lookup_insert_eq. by apply lookup_lt_Some in Hb.
Qed.

Lemma nuls_end ps a : forall b, a ∈ ps -> (a.2 < length b)%nat -> nuls ps b !! a.2 = Some 0.
Proof.
  unfold nuls. induction ps as [|x ps IH]; intros b Hin Hlt; [by apply elem_of_nil in Hin|]. simpl.
  apply elem_of_cons in Hin as [->|Hin]; [|apply IH; [done | by rewrite length_insert]].
  apply (nuls_zero ps). by apply list_lookup_insert_eq.
Qed.

Lemma nulterminate_nuls c : forall b, nulterminate c b = nuls (places c) b.
Proof.
  induction c as [argv|c IH q eq mode fd|l IHl r IHr|l IHl r IHr|c IH]; intros b; simpl; try done.
  - unfold nuls in *. by rewrite foldl_app, <- IH.
  - unfold nuls in *. by rewrite foldl_app, <- IHl, <- IHr.
  - unfold nuls in *. by rewrite foldl_app, <- IHl, <- IHr.
Qed.

Lemma until_nul_app w l : ~ 0 ∈ w -> (match l with c :: _ => c = 0 | [] => True end) -> until_nul (w ++ l) = w.
Proof.
  induction w as [|c w IH]; intros Hw Hl; simpl; [by destruct l as [|c l]; [|subst c]|].
  rewrite not_elem_of_cons in Hw. rewrite (proj2 (Z.eqb_neq c 0)) by naive_solver. f_equal. apply IH; naive_solver.
Qed.

(** In the line that nulterminate leaves, the strings are the words. *)
Lemma string_slice ps a : Forall word_at ps -> a ∈ ps -> string_at (nuls ps buf) a.1 = slice a.
Proof.
  intros Hps Hin. rewrite Forall_forall in Hps. destruct (Hps a Hin) as (Hlt & Hw & Hend). destruct a as [q eq]. simpl in *.
  assert (take (eq - q) (drop q (nuls ps buf)) = slice (q, eq)) as Et.
  { unfold slice. simpl. apply list_eq. intros i. destruct (decide (i < eq - q)%nat) as [Hi|]; [|by rewrite !lookup_take_ge by lia].
    rewrite !lookup_take_lt, !lookup_drop by lia. apply nuls_other. apply Forall_forall. intros [q' eq'] Hin' E. simpl in E. subst eq'.
    destruct (Hps _ Hin') as (Hlt' & _ & Hend'). simpl in *. destruct Hend' as [?|Hend']; [lia|].
    destruct (lookup_lt_is_Some_2 buf (q + i)) as [x Hx]; [lia|].
    assert (slice (q, eq) !! i = Some x) as Hs by (unfold slice; simpl; by rewrite lookup_take_lt, lookup_drop by lia).
    rewrite Forall_forall in Hw. apply list_elem_of_lookup_2, Hw in Hs.
    unfold char_at in Hend'. rewrite nth_lookup, Hx in Hend'. simpl in Hend'. congruence. }
  unfold string_at. rewrite <- (take_drop (eq - q) (drop q (nuls ps buf))), Et. apply until_nul_app.
  - unfold slice. simpl. intros H0. apply Hz. apply list_elem_of_lookup_1 in H0 as [i H0].
    apply lookup_take_Some in H0 as [H0 _]. rewrite lookup_drop in H0. by eapply list_elem_of_lookup_2.
  - rewrite drop_drop. replace (q + (eq - q))%nat with eq by lia.
    destruct (drop eq (nuls ps buf)) as [|x l] eqn:E; [done|].
    assert (nuls ps buf !! eq = Some x) as Hx by (rewrite <- (Nat.add_0_r eq), <- lookup_drop, E; done).
    assert (eq < es)%nat by (apply lookup_lt_Some in Hx; by rewrite nuls_length in Hx).
    rewrite (nuls_end ps (q, eq)) in Hx by done. by simplify_eq.
Qed.

Lemma decode_ext f g c : Forall (fun a => f a = g a) (places c) -> decode f c = decode g c.
Proof.
  induction c as [argv|c IH q eq mode fd|l IHl r IHr|l IHl r IHr|c IH]; simpl; rewrite ?Forall_app; intros H.
  - f_equal. induction H as [|a argv Ha _ IH]; [done|]. cbn [fmap list_fmap]. by rewrite Ha, IH.
  - destruct H as [H Hq]. rewrite Forall_singleton in Hq. by rewrite IH, Hq.
  - by rewrite IHl, IHr by apply H.
  - by rewrite IHl, IHr by apply H.
  - by rewrite IH.
Qed.

Lemma decode_strings c : ok c -> decode (fun a => string_at (nulterminate c buf) a.1) c = dec c.
Proof.
  intros Hok. rewrite nulterminate_nuls. apply decode_ext, Forall_forall. intros a Ha. by apply string_slice.
Qed.

Lemma parsecmd_sound :
  yields (parsecmd buf) (fun '(c, b) => g_line (lex [] buf) (decode (fun a => string_at b a.1) c)).
Proof.
  assert (at_ 0 (lex [] buf)) as Hat by (split; [lia | done]). pose proof (token_count _ _ Hat).
  unfold parsecmd. eapply yields_bind; [apply (proj1 (parse_sound (parse_fuel buf)) 0%nat _ Hat); unfold parse_fuel; lia|].
  intros [c s] (us & rest & E & Hat1 & Hg & Hok). destruct (peek_end s rest Hat1) as (s' & -> & Hs').
  destruct (Nat.eqb_spec s' es) as [Ee|Ee]; cbn [negb].
  - apply yields_ret. rewrite decode_strings by done. rewrite (proj1 Hs' Ee), app_nil_r in E. by rewrite E.
  - right. apply fails_puts, fails_panic.
Qed.

Lemma parsecmd_complete t : g_line (lex [] buf) t ->
  exists c b, parsecmd buf = URet (c, b) /\ decode (fun a => string_at b a.1) c = t.
Proof.
  intros Hg. assert (at_ 0 (lex [] buf ++ [])) as Hat by (rewrite app_nil_r; split; [lia | done]).
  pose proof (token_count _ _ Hat). unfold parsecmd.
  destruct (proj1 parse_complete _ _ Hg 0%nat [] (parse_fuel buf) Hat) as (c & s & -> & Hat1 & Hd & Hok);
    [done | unfold parse_fuel; lia|].
  rewrite uret_bind. destruct (peek_end s [] Hat1) as (s' & -> & Hs'). rewrite (proj2 Hs' eq_refl), Nat.eqb_refl.
  exists c, (nulterminate c buf). split; [done|]. by rewrite decode_strings.
Qed.

End facts.

Lemma ret_not_fails {A} (a : A) : ~ fails (URet a).
Proof. inversion 1. Qed.

(** C13: the parser of the shell decides the grammar of command lines: it
    returns the command of the only tree that the grammar has for the tokens
    of the line, with every string of it ended by a NUL in the line; or it
    prints a message and exits, and the grammar has no tree. *)
Theorem shell_parses line :
  ~ 0 ∈ line ->
  (exists c b, parsecmd line = URet (c, b)
     /\ g_line (lex [] line) (decode (fun a => string_at b a.1) c)
     /\ forall t, g_line (lex [] line) t -> t = decode (fun a => string_at b a.1) c)
  \/ (fails (parsecmd line) /\ forall t, ~ g_line (lex [] line) t).
Proof.
  intros Hz. destruct (parsecmd_sound line Hz) as [([c b] & E & Hg)|Hf].
  - left. exists c, b. split_and!; [done | done|]. intros t Ht.
    destruct (parsecmd_complete line Hz t Ht) as (c' & b' & E' & <-). rewrite E in E'. by simplify_eq.
  - right. split; [done|]. intros t Ht. destruct (parsecmd_complete line Hz t Ht) as (c & b & E & _).
    rewrite E in Hf. by apply ret_not_fails in Hf.
Qed.

(** ( ls >out ; cat ) | wc & *)
Definition sample_line : list Z := chars "( ls >out ; cat ) | wc &" ++ NL.

Lemma shell_parses_witness :
  g_line (lex [] sample_line)
    (TBack (TPipe (TList (TRedir (TExec [chars "ls"]) (chars "out") 513 1) (TExec [chars "cat"])) (TExec [chars "wc"]))).
Proof.
  destruct (shell_parses sample_line) as [(c & b & E & Hg & _)|[Hf _]].
  - apply (bool_decide_unpack (~ 0 ∈ sample_line)). vm_compute. exact I.
  - revert Hg. vm_compute in E. injection E as <- <-. intros Hg. exact Hg.
  - exfalso. vm_compute in Hf. inversion Hf.
Defined.

(** * The programs that a command starts *)

(** What a descriptor refers to: one of those the shell has, a file that was
    opened, an end of a pipe; pipes are named by the process that made them. *)
Inductive obj := OStd (n : nat) | OFile (path : list Z) (mode : Z) | ORead (p : list bool) | OWrite (p : list bool).
Definition fdtab : Type := list (option obj).

(** A process: its descriptors, and its place in the tree of forks: for each
    fork, whether it is the child. *)
Record ustate := Ustate { fdt : fdtab; path : list bool }.

(** The lowest descriptor that is free. *)
Fixpoint first_free (l : fdtab) : nat :=
  match l with
  | Some _ :: l => S (first_free l)
  | _ => O
  end.

Definition put_fd (o : obj) (l : fdtab) : Z * fdtab :=
  let i := first_free l in
  if (i <? length l)%nat then (Z.of_nat i, <[i := Some o]> l) else (-1, l).

(** The calls on descriptors, when files can be opened. *)
Definition fd_call (c : call) (w : ustate) : reply * ustate :=
  match c with
  | SClose fd => (Reply 0 [], Ustate (<[Z.to_nat fd := None]> (fdt w)) (path w))
  | SOpen p m => let '(r, l) := put_fd (OFile p m) (fdt w) in (Reply r [], Ustate l (path w))
  | SDup fd =>
    match fdt w !! Z.to_nat fd with
    | Some (Some o) => let '(r, l) := put_fd o (fdt w) in (Reply r [], Ustate l (path w))
    | _ => (Reply (-1) [], w)
    end
  | SPipe =>
    let '(r0, l) := put_fd (ORead (path w)) (fdt w) in
    let '(r1, l) := put_fd (OWrite (path w)) l in
    (Reply 0 [r0; r1], Ustate l (path w))
  | _ => (Reply 0 [], w)
  end.

(** The programs that the processes of a tree of forks exec, each with its
    arguments and descriptors. *)
Fixpoint execs {A} (p : U A) (w : ustate) : list (list (list Z) * fdtab) :=
  match p with
  | USys SFork k =>
    execs (k (Reply 0 [])) (Ustate (fdt w) (path w ++ [true]))
    ++ execs (k (Reply 1 [])) (Ustate (fdt w) (path w ++ [false]))
  | USys (SExec _ argv) _ => [(argv, fdt w)]
  | USys c k => let '(r, w) := fd_call c w in execs (k r) w
  | _ => []
  end.

(** Three open descriptors. *)
Definition std (i o e : obj) : fdtab := Some i :: Some o :: Some e :: replicate 13 None.

(** What a command is to start: its programs with their standard input,
    output and errors, and no other descriptor. *)
Fixpoint plumb (t : tree) (i o e : obj) (p : list bool) : list (list (list Z) * fdtab) :=
  match t with
  | TExec [] => []
  | TExec argv => [(argv, std i o e)]
  | TRedir t file mode fd => if fd =? 0 then plumb t (OFile file mode) o e p else plumb t i (OFile file mode) e p
  | TPipe l r => plumb l i (OWrite p) e (p ++ [true]) ++ plumb r (ORead p) o e (p ++ [false] ++ [true])
  | TList l r => plumb l i o e (p ++ [true]) ++ plumb r i o e (p ++ [false])
  | TBack t => plumb t i o e (p ++ [true])
  end.

(** A program that does not return. *)
Inductive never {A} : U A -> Prop :=
  | never_exit : never UExit
  | never_sys c k : (forall r, never (k r)) -> never (USys c k).

Lemma never_puts {A} l (p : U A) fd : never p -> never (puts fd l;; p).
Proof. intros Hp. induction l as [|c l IH]; [done|]. constructor. intros _. exact IH. Qed.

Lemma never_then {A B} (p : U A) (f : A -> U B) : never p -> never (p ≫= f).
Proof. induction 1; simpl; by constructor. Qed.

Lemma never_sysv {A} c (f : Z -> U A) : (forall z, never (f z)) -> never (sysv c ≫= f).
Proof. intros Hf. constructor. intros r. apply Hf. Qed.

Lemma never_sys_reply {A} c (f : reply -> U A) : (forall r, never (f r)) -> never (sys c ≫= f).
Proof. intros Hf. constructor. intros r. apply Hf. Qed.

Lemma never_sys_ {A} c (p : U A) : never p -> never (sys_ c;; p).
Proof. intros Hp. constructor. by intros _. Qed.

Lemma never_fork1 {A} (f : Z -> U A) : (forall z, never (f z)) -> never (fork1 ≫= f).
Proof.
  intros Hf. constructor. intros r. simpl. case_match; [|apply Hf].
  change (never ((panic (chars "fork") : U Z) ≫= f)). apply never_then, never_puts. constructor.
Qed.

(** A child that does not return, and what its parent goes on with. *)
Lemma never_child {A} (b : bool) (p : U unit) (f : unit -> U A) :
  never p -> never (f tt) -> never ((if b then p else mret tt) ≫= f).
Proof. intros Hp Hf. destruct b; [by apply never_then | done]. Qed.

Lemma never_runcmd b c : never (runcmd b c).
Proof.
  induction c as [argv|c IH q eq mode fd|l IHl r IHr|l IHl r IHr|c IH]; cbn [runcmd].
  - destruct argv as [|[a a'] argv]; [constructor|]. apply never_sys_, never_puts. constructor.
  - apply never_sys_, never_sysv. intros z. destruct (z <? 0); [apply never_puts; constructor | by apply never_then].
  - apply never_sys_reply. intros p. destruct (rv p <? 0); [apply never_then, never_puts; constructor|].
    apply never_fork1. intros z. apply never_child; [by repeat apply never_sys_|].
    apply never_fork1. intros z'. apply never_child; [by repeat apply never_sys_|].
    repeat apply never_sys_. constructor.
  - apply never_fork1. intros z. apply never_child; [done|]. by apply never_sys_, never_then.
  - apply never_fork1. intros z. apply never_child; [done|]. constructor.
Qed.

Lemma execs_never {A B} (p : U A) (f : A -> U B) : never p -> forall w, execs (p ≫= f) w = execs p w.
Proof.
  induction 1 as [|c k _ IH]; intros w; [done|].
  change (USys c k ≫= f) with (USys c (fun r => k r ≫= f)).
  destruct c; cbn [execs]; try done; try apply IH; try (case_match; apply IH); by rewrite !IH.
Qed.

Lemma execs_fork1 {A} (f : Z -> U A) w :
  execs (fork1 ≫= f) w
  = execs (f 0) (Ustate (fdt w) (path w ++ [true])) ++ execs (f 1) (Ustate (fdt w) (path w ++ [false])).
Proof. done. Qed.

Lemma execs_child {A} b c (f : unit -> U A) w : execs (runcmd b c ≫= f) w = execs (runcmd b c) w.
Proof. apply execs_never, never_runcmd. Qed.

Lemma execs_exit {A} w : execs (UExit : U A) w = [].
Proof. done. Qed.

(** The trees of the grammar redirect the standard input and output only. *)
Fixpoint std_redirs (t : tree) : Prop :=
  match t with
  | TExec _ => True
  | TRedir t _ _ fd => (fd = 0 \/ fd = 1) /\ std_redirs t
  | TPipe l r | TList l r => std_redirs l /\ std_redirs r
  | TBack t => std_redirs t
  end.

Lemma std_redirs_foldl rs : forall t, std_redirs t -> std_redirs (foldl apply_redir t rs).
Proof.
  induction rs as [|[[] w] rs IH]; intros t Ht; [done|..]; apply IH; simpl; auto.
Qed.

Lemma std_redirs_iter n t : std_redirs t -> std_redirs (Nat.iter n TBack t).
Proof. intros Ht. induction n; simpl; auto. Qed.

Lemma grammar_redirs :
  (forall ts t, g_line ts t -> std_redirs t) /\ (forall ts t, g_pipe ts t -> std_redirs t)
  /\ (forall ts t, g_exec ts t -> std_redirs t).
Proof. apply g_mut; intros; simpl; auto using std_redirs_foldl, std_redirs_iter. by apply std_redirs_foldl. Qed.

Lemma runcmd_plumb b c : forall i o e p,
  std_redirs (decode (fun a => string_at b a.1) c) ->
  execs (runcmd b c) (Ustate (std i o e) p) = plumb (decode (fun a => string_at b a.1) c) i o e p.
Proof.
  induction c as [argv|c IH q eq mode fd|l IHl r IHr|l IHl r IHr|c IH]; intros i o e p Hstd; cbn [decode std_redirs plumb] in *.
  - destruct argv as [|[a a'] argv]; reflexivity.
  - destruct Hstd as [[->| ->] Hstd].
    + change (execs (runcmd b c;; UExit : U unit) (Ustate (std (OFile (string_at b q) mode) o e) p) =
        plumb (decode (fun a => string_at b a.1) c) (OFile (string_at b q) mode) o e p).
      rewrite execs_child. by apply IH.
    + change (execs (runcmd b c;; UExit : U unit) (Ustate (std i (OFile (string_at b q) mode) e) p) =
        plumb (decode (fun a => string_at b a.1) c) i (OFile (string_at b q) mode) e p).
      rewrite execs_child. by apply IH.
  - destruct Hstd as [Hl Hr]. rewrite <- IHl, <- IHr by done.
    assert (exists f g : unit -> U unit, execs (runcmd b (PIPE l r)) (Ustate (std i o e) p)
      = execs (runcmd b l ≫= f) (Ustate (std i (OWrite p) e) (p ++ [true]))
        ++ execs (runcmd b r ≫= g) (Ustate (std (ORead p) o e) ((p ++ [false]) ++ [true])) ++ []) as (f & g & ->)
      by (eexists _, _; reflexivity).
    by rewrite !execs_child, app_nil_r, <- app_assoc.
  - destruct Hstd as [Hl Hr]. rewrite <- IHl, <- IHr by done.
    cbn [runcmd]. rewrite execs_fork1. f_equal; [apply execs_child|]. apply execs_child.
  - rewrite <- IH by done. cbn [runcmd]. rewrite execs_fork1. rewrite <- app_nil_r. f_equal. apply execs_child.
Qed.

(** C18: the programs that a line starts are those of its tree, with the
    arguments and the plumbing that the tree says: both ends of each pipe are
    connected, redirections replace the standard input or output, and every
    program starts with its three descriptors and no other, so that no process
    keeps an end of a pipe open that it does not use. *)
Theorem shell_plumbing line c b i o e p :
  ~ 0 ∈ line -> parsecmd line = URet (c, b) ->
  exists t, g_line (lex [] line) t /\ execs (runcmd b c) (Ustate (std i o e) p) = plumb t i o e p.
Proof.
  intros Hz E. destruct (parsecmd_sound line Hz) as [([c' b'] & E' & Hg)|Hf].
  - rewrite E in E'. injection E' as <- <-. exists (decode (fun a => string_at b a.1) c). split; [done|].
    apply runcmd_plumb. by eapply (proj1 grammar_redirs).
  - rewrite E in Hf. by apply ret_not_fails in Hf.
Qed.

(** cat <in | wc *)
Definition sample_pipe : list Z := chars "cat <in | wc" ++ NL.

Lemma shell_plumbing_witness :
  exists c b, parsecmd sample_pipe = URet (c, b)
    /\ execs (runcmd b c) (Ustate (std (OStd 0) (OStd 1) (OStd 2)) [])
       = [([chars "cat"], std (OFile (chars "in") 0) (OWrite []) (OStd 2));
          ([chars "wc"], std (ORead []) (OStd 1) (OStd 2))]
    /\ exists t, g_line (lex [] sample_pipe) t.
Proof.
  eexists _, _. split; [vm_compute; reflexivity|]. split; [vm_compute; reflexivity|].
  edestruct (shell_plumbing sample_pipe) as (t & Ht & _); [| vm_compute; reflexivity | by exists t].
  apply (bool_decide_unpack (~ 0 ∈ sample_pipe)). vm_compute. exact I.
  Unshelve. all: exact (OStd 0) || exact [].
Defined.
