(* ===== verification/Kthread.v ===== *)
(** kthread.c: the thread library of user programs, as trees of system calls. *)

From S2P Require Import Prelude Thread Ulib Uprog.

Inductive tstate := NEW | RUNNING | SUSPENDED | DEAD.
Record kthread_t := Kthread { tstack : Z; tid : Z; state : tstate }.

(** With the stacks of threads allocated by the kernel, as the library is
    configured: the result and the new value of *stack. *)
Definition create_thread_stack : U (Z * Z) := mret (0, 0).
Definition destory_thread_stack : U unit := mret tt.

Definition kthread_create (t : kthread_t) (func arg : Z) : U (Z * kthread_t) :=
  '(r, stack) ← create_thread_stack;
  let t := Kthread stack (tid t) NEW in
  if r =? -1 then mret (-1, t)
  else
    id ← sysv (SClone func stack TFLAGS arg);
    if id =? -1 then
      destory_thread_stack;;
      mret (-1, Kthread stack id DEAD)
    else mret (0, Kthread stack id RUNNING).

Definition kthread_join (t : kthread_t) : U (Z * kthread_t) :=
  match state t with
  | DEAD => mret (-1, t)
  | _ =>
    jtid ← sysv (SJoin (tid t));
    destory_thread_stack;;
    mret (jtid, Kthread (tstack t) (tid t) DEAD)
  end.

Definition kthread_cancel (t : kthread_t) : U kthread_t :=
  match state t with
  | DEAD => mret t
  | _ =>
    sys_ (SKill (tid t));;
    destory_thread_stack;;
    mret (Kthread (tstack t) (tid t) DEAD)
  end.

Definition kthread_exit : U unit := UExit.
