(* ===== verification/Field.v ===== *)
(** The fields of structures in a block: what is written is read back, and
    the other fields stay. *)

From S2P Require Import Prelude Mmu Fsys.

Ltac fields := repeat match goal with |- context [?a =? ?b] => destruct (Z.eqb_spec a b); try lia end.

Lemma length_wr8 l o v : length (wr8 l o v) = length l.
Proof. apply length_insert. Qed.
Lemma length_wr16 l o v : length (wr16 l o v) = length l.
Proof. unfold wr16. by rewrite !length_wr8. Qed.
Lemma length_wr32 l o v : length (wr32 l o v) = length l.
Proof. unfold wr32. by rewrite !length_wr16. Qed.

Lemma rd8_wr8 l o v k :
  0 <= o < Z.of_nat (length l) -> 0 <= k -> rd8 (wr8 l o v) k = if k =? o then v mod 256 else rd8 l k.
Proof.
  intros Ho Hk. unfold rd8, wr8. rewrite !list_lookup_total_alt. destruct (Z.eqb_spec k o) as [->|Hne].
  - by rewrite list_lookup_insert_eq by lia.
  - rewrite list_lookup_insert_ne; [done|lia].
Qed.

Lemma rd8_wr16 l o v k :
  0 <= o -> o + 2 <= Z.of_nat (length l) -> 0 <= k ->
  rd8 (wr16 l o v) k = if k =? o then v mod 256 else if k =? o + 1 then (v / 256) mod 256 else rd8 l k.
Proof.
  intros Ho Hl Hk. unfold wr16. rewrite !rd8_wr8 by (rewrite ?length_wr8; lia).
  by fields.
Qed.

Lemma rd8_wr32 l o v k :
  0 <= o -> o + 4 <= Z.of_nat (length l) -> 0 <= k ->
  rd8 (wr32 l o v) k = if k =? o then v mod 256 else if k =? o + 1 then (v / 256) mod 256
    else if k =? o + 2 then (v / 65536) mod 256 else if k =? o + 3 then (v / 65536 / 256) mod 256 else rd8 l k.
Proof.
  intros Ho Hl Hk. unfold wr32. rewrite !rd8_wr16 by (rewrite ?length_wr16; lia).
  by fields.
Qed.

Lemma rd16_wr16 l o v :
  0 <= o -> o + 2 <= Z.of_nat (length l) -> rd16 (wr16 l o v) o = v mod 65536.
Proof.
  intros Ho Hl. unfold rd16. rewrite !rd8_wr16 by lia. fields.
Qed.

Lemma rd32_wr32 l o v :
  0 <= o -> o + 4 <= Z.of_nat (length l) -> rd32 (wr32 l o v) o = u32 v.
Proof.
  intros Ho Hl. unfold rd32, rd16, u32. rewrite !rd8_wr32 by lia. fields.
Qed.

Lemma rd16_wr16_ne l o v k :
  0 <= o -> o + 2 <= Z.of_nat (length l) -> 0 <= k -> k + 2 <= o \/ o + 2 <= k -> rd16 (wr16 l o v) k = rd16 l k.
Proof. intros Ho Hl Hk Hd. unfold rd16. rewrite !rd8_wr16 by lia. by fields. Qed.

Lemma rd16_wr32_ne l o v k :
  0 <= o -> o + 4 <= Z.of_nat (length l) -> 0 <= k -> k + 2 <= o \/ o + 4 <= k -> rd16 (wr32 l o v) k = rd16 l k.
Proof. intros Ho Hl Hk Hd. unfold rd16. rewrite !rd8_wr32 by lia. by fields. Qed.

Lemma rd32_wr32_ne l o v k :
  0 <= o -> o + 4 <= Z.of_nat (length l) -> 0 <= k -> k + 4 <= o \/ o + 4 <= k -> rd32 (wr32 l o v) k = rd32 l k.
Proof. intros Ho Hl Hk Hd. unfold rd32. rewrite !rd16_wr32_ne by lia. done. Qed.

Lemma rd32_wr16_ne l o v k :
  0 <= o -> o + 2 <= Z.of_nat (length l) -> 0 <= k -> k + 4 <= o \/ o + 2 <= k -> rd32 (wr16 l o v) k = rd32 l k.
Proof. intros Ho Hl Hk Hd. unfold rd32. rewrite !rd16_wr16_ne by lia. done. Qed.

(** An array of words written one after the other. *)
Section array.
Context (o : Z) (f : nat -> Z).
Notation put n l := (foldl (fun l k => wr32 l (o + 4 * Z.of_nat k) (f k)) l (seq 0 n)).

Lemma put_S n l : put (S n) l = wr32 (put n l) (o + 4 * Z.of_nat n) (f n).
Proof. by rewrite seq_S, foldl_app. Qed.

Lemma length_put n l : length (put n l) = length l.
Proof. induction n as [|n IH]; [done|]. by rewrite put_S, length_wr32. Qed.

Lemma rd32_put n l k :
  0 <= o -> o + 4 * Z.of_nat n <= Z.of_nat (length l) -> (k < n)%nat ->
  rd32 (put n l) (o + 4 * Z.of_nat k) = u32 (f k).
Proof.
  intros Ho. induction n as [|n IH]; [lia|]. intros Hl Hk. rewrite put_S. destruct (decide (k = n)) as [->|Hne].
  - apply rd32_wr32; [lia|rewrite length_put; lia].
  - rewrite rd32_wr32_ne by (rewrite ?length_put; lia). apply IH; lia.
Qed.

Lemma rd16_put_ne n l k :
  0 <= o -> o + 4 * Z.of_nat n <= Z.of_nat (length l) -> 0 <= k -> k + 2 <= o \/ o + 4 * Z.of_nat n <= k ->
  rd16 (put n l) k = rd16 l k.
Proof.
  intros Ho. induction n as [|n IH]; [done|]. intros Hl Hk Hd.
  rewrite put_S, rd16_wr32_ne by (rewrite ?length_put; lia). apply IH; lia.
Qed.

Lemma rd32_put_ne n l k :
  0 <= o -> o + 4 * Z.of_nat n <= Z.of_nat (length l) -> 0 <= k -> k + 4 <= o \/ o + 4 * Z.of_nat n <= k ->
  rd32 (put n l) k = rd32 l k.
Proof. intros Ho Hl Hk Hd. unfold rd32. by rewrite !rd16_put_ne by lia. Qed.

End array.
