(* ===== verification/Bio.v ===== *)
(** sleeplock.c, ide.c and bio.c: long-term locks, the disk driver and the
    buffer cache. *)

From S2P Require Import Prelude Mmu Kernel Sched Fsys.

Section bio.
(** Every loop that waits for an event is unrolled this many times. *)
Context (turns : nat).
(** The slot of the calling process. *)
Context (me : nat).

(** * sleeplock.c *)

Definition initsleeplock (l : slock) : KF unit := slset l sl0.

Fixpoint acquiresleep_loop (l : slock) (fuel : nat) : KF unit :=
  match fuel with
  | O => out_of_fuel
  | S fuel =>
    x ← fget (fun r => slock_of r l);
    if sl_locked x then
      sleep me (Some (slock_chan l)) (slock_lk l);;
      acquiresleep_loop l fuel
    else mret tt
  end.

Definition acquiresleep (l : slock) : KF unit :=
  acquire (slock_lk l);;
  acquiresleep_loop l turns;;
  p ← p_ me pid;
  slset l (SL true p);;
  release (slock_lk l).

Definition releasesleep (l : slock) : KF unit :=
  acquire (slock_lk l);;
  slset l (SL false 0);;
  wakeup (Some (slock_chan l));;
  release (slock_lk l).

Definition holdingsleep (l : slock) : KF bool :=
  acquire (slock_lk l);;
  x ← fget (fun r => slock_of r l);
  p ← p_ me pid;
  release (slock_lk l);;
  mret (sl_locked x && (sl_pid x =? p)).

(** * ide.c *)

(** Start the request for buffer [b]: the controller gets the command and,
    for a write, the data. *)
Definition idestart (b : nat) : KF unit :=
  x ← bget_ b (fun x => x);
  if FSSIZE <=? b_blockno x then kpanic "incorrect blockno"
  else
    fset (set_fs_cmd (Some (if b_dirty x then CmdWrite (b_blockno x) (b_data x) else CmdRead (b_blockno x)))).

(** The controller finishes its command and raises its interrupt. *)
Definition disk_done (r : fsys) : fsys :=
  match fs_cmd r with
  | Some (CmdWrite b v) => set_fs_disk (<[b := v]> (fs_disk r)) r
  | _ => r
  end.

(** The data that insl then reads from it. *)
Definition disk_data (r : fsys) : list Z :=
  match fs_cmd r with Some (CmdRead b) => dblk (fs_disk r) b | _ => zero_block end.

Definition ideintr : KF unit :=
  acquire idelock;;
  q ← fget fs_idequeue;
  match q with
  | [] => release idelock
  | b :: q =>
    fset (set_fs_idequeue q);;
    x ← bget_ b (fun x => x);
    err ← fget fs_err;
    (if negb (b_dirty x) && negb err then
       d ← fget disk_data;
       bset b (set_b_data d)
     else mret tt);;
    bset b (fun x => set_b_dirty false (set_b_valid true x));;
    wakeup (Some (buf_chan b));;
    q ← fget fs_idequeue;
    (match q with [] => fset (set_fs_cmd None) | b :: _ => idestart b end);;
    release idelock
  end.

Fixpoint iderw_wait (b : nat) (fuel : nat) : KF unit :=
  match fuel with
  | O => out_of_fuel
  | S fuel =>
    x ← bget_ b (fun x => x);
    if negb (b_valid x) || b_dirty x then
      sleep me (Some (buf_chan b)) idelock;;
      iderw_wait b fuel
    else mret tt
  end.

Definition iderw (b : nat) : KF unit :=
  h ← holdingsleep (SBuf b);
  x ← bget_ b (fun x => x);
  d1 ← fget fs_havedisk1;
  if negb h then kpanic "iderw: buf not locked"
  else if b_valid x && negb (b_dirty x) then kpanic "iderw: nothing to do"
  else if negb (b_dev x =? 0) && negb d1 then kpanic "iderw: ide disk 1 not present"
  else
    acquire idelock;;
    fset (fun r => set_fs_idequeue (fs_idequeue r ++ [b]) r);;
    q ← fget fs_idequeue;
    (if decide (head q = Some b) then idestart b else mret tt);;
    iderw_wait b turns;;
    release idelock.

(** * bio.c *)

(** The list of buffers has the last one at its head. *)
Definition binit : KF unit :=
  fset (fun r => set_fs_order (rev (seq 0 NBUF)) (set_fs_bufs (set_b_lock sl0 <$> fs_bufs r) r)).

(** The first buffer of a list of them that satisfies [f]. *)
Definition find_buf (r : fsys) (f : buf -> bool) (l : list nat) : option nat :=
  head (filter (fun i => f (buf_of r i) = true) l).

Definition bget (dev blockno : Z) : KF nat :=
  acquire bcache_lock;;
  r ← fget (fun r => r);
  match find_buf r (fun b => (b_dev b =? dev) && (b_blockno b =? blockno)) (fs_order r) with
  | Some i =>
    bset i (fun b => set_b_refcnt (u32 (b_refcnt b + 1)) b);;
    release bcache_lock;;
    acquiresleep (SBuf i);;
    mret i
  | None =>
    match find_buf r (fun b => (b_refcnt b =? 0) && negb (b_dirty b)) (rev (fs_order r)) with
    | Some i =>
      bset i (fun b => Buf false false dev blockno (b_lock b) 1 (b_data b));;
      release bcache_lock;;
      acquiresleep (SBuf i);;
      mret i
    | None => kpanic "bget: no buffers"
    end
  end.

Definition bread (dev blockno : Z) : KF nat :=
  b ← bget dev blockno;
  v ← bget_ b b_valid;
  (if negb v then iderw b else mret tt);;
  mret b.

Definition bwrite (b : nat) : KF unit :=
  h ← holdingsleep (SBuf b);
  if negb h then kpanic "bwrite"
  else
    bset b (set_b_dirty true);;
    iderw b.

Definition brelse (b : nat) : KF unit :=
  h ← holdingsleep (SBuf b);
  if negb h then kpanic "brelse"
  else
    releasesleep (SBuf b);;
    acquire bcache_lock;;
    bset b (fun x => set_b_refcnt (u32 (b_refcnt x - 1)) x);;
    n ← bget_ b b_refcnt;
    (if n =? 0 then
       fset (fun r => set_fs_order (b :: filter (fun i => i <> b) (fs_order r)) r)
     else mret tt);;
    release bcache_lock.

End bio.
