(* ===== verification/Ide.v ===== *)
(** ide.c at its ports: the commands that idestart gives to the controller and
    the data that ideintr takes from it, against the commands of the disk
    driver in Bio.v. *)

From S2P Require Import Prelude Mmu Kalloc Dev Apic Boot Kernel Fsys Bio.

(** * Definitions *)

Definition IDE_CMD_READ : Z := 0x20.
Definition IDE_CMD_WRITE : Z := 0x30.
Definition IDE_CMD_RDMUL : Z := 0xc4.
Definition IDE_CMD_WRMUL : Z := 0xc5.

Section ide.
Context {hw : hardware} (fuel : nat).

(** idestart for a buffer, with every access to the controller. *)
Definition idestart_ports (b : buf) : M dev unit :=
  if FSSIZE <=? b_blockno b then panic "incorrect blockno"
  else
    let sector_per_block := BSIZE / SECTOR_SIZE in
    let sector := b_blockno b * sector_per_block in
    let read_cmd := if sector_per_block =? 1 then IDE_CMD_READ else IDE_CMD_RDMUL in
    let write_cmd := if sector_per_block =? 1 then IDE_CMD_WRITE else IDE_CMD_WRMUL in
    if 7 <? sector_per_block then panic "idestart"
    else
      idewait false fuel;;
      outb 0x3f6 0;;
      outb 0x1f2 sector_per_block;;
      outb 0x1f3 (Z.land sector 0xff);;
      outb 0x1f4 (Z.land (Z.shiftr sector 8) 0xff);;
      outb 0x1f5 (Z.land (Z.shiftr sector 16) 0xff);;
      outb 0x1f6 (Z.lor (Z.lor 0xe0 (Z.shiftl (Z.land (b_dev b) 1) 4)) (Z.land (Z.shiftr sector 24) 0x0f));;
      if b_dirty b then
        outb 0x1f7 write_cmd;;
        outsl 0x1f0 (b_data b)
      else outb 0x1f7 read_cmd.

(** The part of ideintr that reads the data of the active request. *)
Definition ideintr_ports (b : buf) : M dev (option (list Z)) :=
  if negb (b_dirty b) then
    r ← idewait true fuel;
    if 0 <=? r then
      l ← insl 0x1f0 (Z.to_nat (BSIZE / 4));
      mret (Some l)
    else mret None
  else mret None.

End ide.

(** The command that the controller has got, with the bytes of its data. *)
Definition command_of (l : log) : option command :=
  let r := request_of l in
  if r_cmd r =? IDE_CMD_READ then Some (CmdRead (r_lba r))
  else if r_cmd r =? IDE_CMD_WRITE then Some (CmdWrite (r_lba r) (words_out l ≫= le_bytes))
  else None.

Definition block_bytes (l : list Z) : Prop := length l = 512%nat /\ Forall (fun c => 0 <= c < 256) l.

(** * Facts *)

Lemma outsl_words l s :
  (4 | length l)%nat -> Forall (fun c => 0 <= c < 256) l ->
  exists ws, outsl 0x1f0 l s = OK tt (with_log ((EOutl 0x1f0 <$> ws) ++ d_log s) s) /\ rev ws ≫= le_bytes = l.
Proof.
  intros [n Hn] Hb. revert l s Hn Hb. induction n as [|n IH]; intros l s Hn Hb.
  { destruct l; [|done]. exists []. split; [by destruct s|done]. }
  destruct l as [|a [|b [|c [|d l]]]]; try (simpl in Hn; lia).
  apply Forall_cons in Hb as [Ha Hb]. apply Forall_cons in Hb as [Hb1 Hb]. apply Forall_cons in Hb as [Hc Hb].
  apply Forall_cons in Hb as [Hd Hb]. cbn [outsl]. rewrite bind_modify.
  set (w := a + 256 * b + 65536 * c + 16777216 * d).
  destruct (IH l (push (EOutl 0x1f0 w) s)) as (ws & E & Hw); [simpl in Hn; lia|done|].
  exists (ws ++ [w]). rewrite E. split.
  - rewrite fmap_app, <- app_assoc. by destruct s.
  - rewrite rev_app_distr. change ((rev [w] ++ rev ws) ≫= le_bytes) with (le_bytes w ++ (rev ws ≫= le_bytes)). rewrite Hw. unfold w. by rewrite le_bytes_join.
Qed.

Lemma last_out_outl p ws l : last_out p ((EOutl 0x1f0 <$> ws) ++ l) = last_out p l.
Proof. by induction ws. Qed.

Lemma request_outl ws l : request_of ((EOutl 0x1f0 <$> ws) ++ l) = request_of l.
Proof. unfold request_of. by rewrite !last_out_outl. Qed.

Lemma since_outl ws v l : since ((EOutl 0x1f0 <$> ws) ++ EOut 0x1f7 v :: l) = EOutl 0x1f0 <$> ws.
Proof. induction ws as [|w ws IH]; [done|]. simpl. by f_equal. Qed.

Lemma words_outl ws v l :
  words_in ((EOutl 0x1f0 <$> ws) ++ EOut 0x1f7 v :: l) = 0%nat /\
  words_out ((EOutl 0x1f0 <$> ws) ++ EOut 0x1f7 v :: l) = rev ws.
Proof.
  unfold words_in, words_out. rewrite since_outl. split.
  - by induction ws.
  - f_equal. induction ws as [|w ws IH]; [done|]. simpl. by f_equal.
Qed.

Section facts.
Context {hw : hardware} {img : drives} {wait : nat} {ctl : controller hw img wait} (fuel : nat).
Hypothesis (Hwait : (wait <= fuel)%nat).

Lemma idewait_run b s :
  exists k r, idewait b fuel s = OK r (with_log (polled 0x1f7 k (d_log s)) s) /\ (r = 0 \/ b = true /\ r = -1).
Proof.
  destruct (poll_ready 0x1f7 0xC0 0x40 wait fuel s (ctl_ready _) Hwait) as (n & r & E & _).
  exists (S n). unfold idewait. change (Z.lor IDE_BSY IDE_DRDY) with 0xC0. change IDE_DRDY with 0x40.
  rewrite (bind_OK _ _ _ _ _ E). destruct b; [|exists 0; split; [done|by left]].
  destruct (testf r _); [exists (-1)|exists 0]; (split; [done|auto]).
Qed.

(** The bytes that the address of a block is given by. *)
Lemma block_lba n d :
  0 <= n < FSSIZE ->
  let hi := u8 (Z.lor (Z.lor 0xe0 (Z.shiftl (Z.land d 1) 4)) (Z.land (Z.shiftr n 24) 0x0f)) in
  u8 (Z.land n 0xff) + 256 * u8 (Z.land (Z.shiftr n 8) 0xff) + 65536 * u8 (Z.land (Z.shiftr n 16) 0xff)
    + 16777216 * (hi mod 16) = n /\ hi / 16 mod 2 = d mod 2 /\ Z.land hi 0xE0 = 0xE0.
Proof.
  unfold FSSIZE. intros Hn. change 0xff with (2 ^ 8 - 1). rewrite !land_ones_mod by lia.
  rewrite !Z.shiftr_div_pow2 by lia. replace (n / 2 ^ 24) with 0 by lia. rewrite Z.land_0_l, Z.lor_0_r.
  change (Z.land d 1) with (Z.land d (2 ^ 1 - 1)). rewrite land_ones_mod by lia. change (2 ^ 1) with 2.
  assert (d mod 2 = 0 \/ d mod 2 = 1) as [-> | ->] by lia; unfold u8; cbv zeta; (split; [|split; reflexivity]).
  - change (Z.lor 224 (Z.shiftl 0 4) mod 256 mod 16) with 0. lia.
  - change (Z.lor 224 (Z.shiftl 1 4) mod 256 mod 16) with 0. lia.
Qed.

(** What idestart leaves in the registers of the controller. *)
Lemma idestart_ports_run x s :
  0 <= b_blockno x < FSSIZE -> block_bytes (b_data x) ->
  exists s', idestart_ports fuel x s = OK tt s' /\
    request_of (d_log s') = Request (b_dev x mod 2) (b_blockno x) 1 (if b_dirty x then IDE_CMD_WRITE else IDE_CMD_READ) /\
    Z.land (last_out 0x1f6 (d_log s')) 0xE0 = 0xE0 /\ words_in (d_log s') = 0%nat /\
    (b_dirty x = true -> words_out (d_log s') ≫= le_bytes = b_data x) /\ d_mem s' = d_mem s.
Proof.
  intros Hn [Hl Hb]. destruct (block_lba (b_blockno x) (b_dev x) Hn) as (E1 & E2 & E3).
  unfold idestart_ports. rewrite (proj2 (Z.leb_gt _ _)) by lia.
  change (BSIZE / SECTOR_SIZE) with 1. change (7 <? 1) with false. change (1 =? 1) with true. cbv zeta iota.
  rewrite Z.mul_1_r. destruct (idewait_run false s) as (k & r & Ew & _). rewrite (bind_OK _ _ _ _ _ Ew).
  unfold outb. rewrite !bind_modify. set (s1 := push _ (push _ (push _ (push _ _)))).
  destruct (b_dirty x).
  - rewrite bind_modify. destruct (outsl_words (b_data x) (push (EOut 0x1f7 (u8 IDE_CMD_WRITE)) s1)) as (ws & -> & Hw).
    { by exists 128%nat. } { done. }
    destruct (words_outl ws (u8 IDE_CMD_WRITE) (d_log s1)) as [W1 W2].
    eexists. split; [reflexivity|]. cbn [d_log with_log push]. rewrite W1, W2, request_outl, last_out_outl.
    split; [|done]. unfold request_of. cbn -[u8 Z.mul Z.add]. by rewrite E1, E2.
  - eexists. split; [reflexivity|]. split; [|done]. unfold request_of. cbn -[u8 Z.mul Z.add]. by rewrite E1, E2.
Qed.

(** C28: idestart at the ports is idestart of the driver: with the same
    buffer, the controller gets exactly the command, the sector and the data
    that the driver's command says, on the drive of the buffer's device; and
    a block number that is out of range is a panic in both. *)
Theorem idestart_refines b (ks : kst fsys) s :
  let x := buf_of (fs ks) b in
  0 <= b_blockno x -> block_bytes (b_data x) ->
  if b_blockno x <? FSSIZE then
    exists c s', idestart b ks = Done tt (put_fs (set_fs_cmd (Some c) (fs ks)) ks) /\
      idestart_ports fuel x s = OK tt s' /\ command_of (d_log s') = Some c /\
      r_drive (request_of (d_log s')) = b_dev x mod 2 /\ r_count (request_of (d_log s')) = 1
  else
    idestart b ks = Halt "incorrect blockno" ks /\ idestart_ports fuel x s = PANIC "incorrect blockno" s.
Proof.
  intros x Hn Hb. destruct (Z.ltb_spec (b_blockno x) FSSIZE) as [Hlt|Hge].
  - destruct (idestart_ports_run x s ltac:(lia) Hb) as (s' & E & Hr & _ & _ & Hw & _).
    exists (if b_dirty x then CmdWrite (b_blockno x) (b_data x) else CmdRead (b_blockno x)), s'.
    rewrite E. unfold command_of. rewrite Hr. cbn [r_cmd r_lba r_drive r_count].
    split; [|by destruct (b_dirty x); [rewrite Hw|]].
    change (idestart b ks) with ((if FSSIZE <=? b_blockno x then kpanic "incorrect blockno" else fset (set_fs_cmd
      (Some (if b_dirty x then CmdWrite (b_blockno x) (b_data x) else CmdRead (b_blockno x))))) ks).
    by rewrite (proj2 (Z.leb_gt _ _)).
  - change (idestart b ks) with ((if FSSIZE <=? b_blockno x then kpanic "incorrect blockno" else fset (set_fs_cmd
      (Some (if b_dirty x then CmdWrite (b_blockno x) (b_data x) else CmdRead (b_blockno x))))) ks).
    unfold idestart_ports. by rewrite (proj2 (Z.leb_le _ _)).
Qed.

(** A read request, from idestart to the interrupt: unless the controller
    reports an error, ideintr gets the 512 bytes of the block from the drive
    of the buffer's device. *)
Theorem ide_reads_block x s :
  0 <= b_blockno x < FSSIZE -> block_bytes (b_data x) -> b_dirty x = false ->
  exists s1 r s', idestart_ports fuel x s = OK tt s1 /\ ideintr_ports fuel x s1 = OK r s' /\
    (r = None \/ r = Some (bytes_of (img (b_dev x mod 2)) (BSIZE * b_blockno x) 512)).
Proof.
  intros Hn Hb Hd. destruct (idestart_ports_run x s Hn Hb) as (s1 & E & Hr & H1 & H2 & _). exists s1.
  rewrite Hd in Hr. destruct (idewait_run true s1) as (k & r & Ew & Hr1).
  unfold ideintr_ports. rewrite Hd. cbn [negb]. rewrite (bind_OK _ _ _ _ _ Ew).
  destruct Hr1 as [-> | [_ ->]]; [change (0 <=? 0) with true; cbv iota|by eexists _, _; split; [|split; [reflexivity|left]]].
  set (s2 := with_log _ _) in *. assert (request_of (d_log s2) = request_of (d_log s1)) as Er by apply polled_request.
  assert (wp (insl 0x1f0 (Z.to_nat (BSIZE / 4))) s2 (fun l _ => l = bytes_of (img (b_dev x mod 2)) (BSIZE * b_blockno x) 512)) as Hi.
  { eapply wp_mono; [apply (insl_reads fuel Hwait)|].
    - by rewrite Er, Hr.
    - unfold s2. cbn [d_log with_log]. by rewrite polled_last_out.
    - rewrite Er, Hr. unfold s2. cbn [d_log with_log]. by rewrite polled_words_in, H2.
    - intros l s' [_ ->]. rewrite Er, Hr. unfold s2. cbn [d_log with_log]. rewrite polled_words_in, H2.
      cbn [r_drive r_lba]. f_equal. unfold BSIZE, SECTOR_SIZE. lia. }
  apply wp_elim in Hi as (l & s3 & Ei & Hi).
  rewrite (bind_OK _ _ _ _ _ Ei). eexists _, _. split; [exact E|]. split; [reflexivity|]. right. by rewrite Hi.
Qed.

End facts.

(** * Examples *)

Definition sample_dev : dev := MkDev (fun _ => 0) [] 0 0 [0] false true false [] [] [].
Definition sample_buf (dirty : bool) : buf := Buf false dirty 1 7 sl0 1 (replicate 512 65).
Definition sample_ks (x : buf) : kst fsys :=
  Kst (Pmem (fun _ => 0) (Kmem false true 0)) [proc0] 2 None [] ∅ 0 [] [] None
    (set_fs_bufs [x] (Fsys ∅ None false true [] [] [0%nat] (Log 0 0 0 false 0 (LH 0 [])) (SB 1000 941 200 30 2 32 58) []
      (Cons true (replicate 128 0) 0 0 0 [] 0 (replicate 2000 0) 0))).

Lemma sample_block : block_bytes (replicate 512 65).
Proof. split; [done|]. apply Forall_replicate. lia. Qed.

Lemma idestart_refines_witness :
  exists c s', idestart 0 (sample_ks (sample_buf true)) =
      Done tt (put_fs (set_fs_cmd (Some c) (fs (sample_ks (sample_buf true)))) (sample_ks (sample_buf true))) /\
    idestart_ports (hw := plain_disk (fun _ _ => 0)) 1 (sample_buf true) sample_dev = OK tt s' /\
    command_of (d_log s') = Some c /\ r_drive (request_of (d_log s')) = 1 /\ r_count (request_of (d_log s')) = 1.
Proof.
  apply (idestart_refines (hw := plain_disk (fun _ _ => 0)) (wait := 1) 1 ltac:(lia) 0 (sample_ks (sample_buf true)) sample_dev);
    [done|exact sample_block].
Defined.

Lemma ide_reads_block_witness :
  exists s1 r s', idestart_ports (hw := plain_disk (fun _ o => o)) 1 (sample_buf false) sample_dev = OK tt s1 /\
    ideintr_ports (hw := plain_disk (fun _ o => o)) 1 (sample_buf false) s1 = OK r s' /\
    (r = None \/ r = Some (bytes_of (fun o => o) 3584 512)).
Proof.
  apply (ide_reads_block (hw := plain_disk (fun _ o => o)) (wait := 1) 1 ltac:(lia) (sample_buf false) sample_dev);
    [done|exact sample_block|done].
Defined.
