(* ===== verification/Log.v ===== *)
(** log.c: the write-ahead log.  readsb of fs.c is here too: initlog calls it. *)

From S2P Require Import Prelude Mmu Kernel Sched Fsys Bio.

Section log.
Context (turns : nat) (me : nat).
Notation bread := (bread turns me).
Notation bwrite := (bwrite turns me).
Notation brelse := (brelse me).

Definition rdsb (l : list Z) : superblock :=
  SB (rd32 l 0) (rd32 l 4) (rd32 l 8) (rd32 l 12) (rd32 l 16) (rd32 l 20) (rd32 l 24).

Definition readsb (dev : Z) : KF superblock :=
  bp ← bread dev 1;
  d ← bget_ bp b_data;
  brelse bp;;
  mret (rdsb d).

(** One turn of install_trans. *)
Definition install_one (tail : nat) : KF unit :=
  l ← lget (fun l => l);
  lbuf ← bread (lg_dev l) (lg_start l + Z.of_nat tail + 1);
  dbuf ← bread (lg_dev l) (lh_block (lg_lh l) !!! tail);
  d ← bget_ lbuf b_data;
  bset dbuf (set_b_data d);;
  bwrite dbuf;;
  brelse lbuf;;
  brelse dbuf.

Fixpoint for_each (f : nat -> KF unit) (l : list nat) : KF unit :=
  match l with [] => mret tt | i :: l => f i;; for_each f l end.

Definition install_trans : KF unit :=
  n ← lget (fun l => lh_n (lg_lh l));
  for_each install_one (seq 0 (Z.to_nat n)).

(** The header in a block, and a block with the header written to it. *)
Definition rd_head (h : logheader) (l : list Z) : logheader :=
  let n := s32 (rd32 l 0) in
  LH n (foldl (fun bs i => <[i := s32 (rd32 l (4 + 4 * Z.of_nat i))]> bs) (lh_block h) (seq 0 (Z.to_nat n))).
Definition wr_head (h : logheader) (l : list Z) : list Z :=
  foldl (fun l i => wr32 l (4 + 4 * Z.of_nat i) (lh_block h !!! i)) (wr32 l 0 (lh_n h))
    (seq 0 (Z.to_nat (lh_n h))).

Definition read_head : KF unit :=
  l ← lget (fun l => l);
  b ← bread (lg_dev l) (lg_start l);
  d ← bget_ b b_data;
  lset (fun l => set_lg_lh (rd_head (lg_lh l) d) l);;
  brelse b.

Definition write_head : KF unit :=
  l ← lget (fun l => l);
  b ← bread (lg_dev l) (lg_start l);
  bset b (fun x => set_b_data (wr_head (lg_lh l) (b_data x)) x);;
  bwrite b;;
  brelse b.

Definition clear_head : KF unit := lset (fun l => set_lg_lh (set_lh_n 0 (lg_lh l)) l).

Definition recover_from_log : KF unit :=
  read_head;;
  install_trans;;
  clear_head;;
  write_head.

Definition initlog (dev : Z) : KF unit :=
  sb ← readsb dev;
  lset (fun l => set_lg_dev dev (set_lg_size (sb_nlog sb) (set_lg_start (sb_logstart sb) l)));;
  recover_from_log.

Fixpoint begin_op_loop (fuel : nat) : KF unit :=
  match fuel with
  | O => out_of_fuel
  | S fuel =>
    l ← lget (fun l => l);
    if lg_committing l then sleep me (Some log_chan) log_lock;; begin_op_loop fuel
    else if LOGSIZE <? lh_n (lg_lh l) + (lg_outstanding l + 1) * MAXOPBLOCKS then
      sleep me (Some log_chan) log_lock;; begin_op_loop fuel
    else
      lset (fun l => set_lg_outstanding (lg_outstanding l + 1) l);;
      release log_lock
  end.

Definition begin_op : KF unit :=
  acquire log_lock;;
  begin_op_loop turns.

(** One turn of write_log. *)
Definition log_one (tail : nat) : KF unit :=
  l ← lget (fun l => l);
  to ← bread (lg_dev l) (lg_start l + Z.of_nat tail + 1);
  from ← bread (lg_dev l) (lh_block (lg_lh l) !!! tail);
  d ← bget_ from b_data;
  bset to (set_b_data d);;
  bwrite to;;
  brelse from;;
  brelse to.

Definition write_log : KF unit :=
  n ← lget (fun l => lh_n (lg_lh l));
  for_each log_one (seq 0 (Z.to_nat n)).

Definition commit : KF unit :=
  n ← lget (fun l => lh_n (lg_lh l));
  if 0 <? n then
    write_log;;
    write_head;;
    install_trans;;
    clear_head;;
    write_head
  else mret tt.

Definition end_op : KF unit :=
  acquire log_lock;;
  lset (fun l => set_lg_outstanding (lg_outstanding l - 1) l);;
  l ← lget (fun l => l);
  if lg_committing l then kpanic "log.committing"
  else if lg_outstanding l =? 0 then
    lset (set_lg_committing true);;
    release log_lock;;
    commit;;
    acquire log_lock;;
    lset (set_lg_committing false);;
    wakeup (Some log_chan);;
    release log_lock
  else
    wakeup (Some log_chan);;
    release log_lock.

(** The place of block [b] in the header: its own if it is there, or the
    first free one. *)
Fixpoint log_slot (bs : list Z) (b : Z) (n : nat) : nat :=
  match n, bs with
  | S n, x :: bs => if x =? b then 0 else S (log_slot bs b n)
  | _, _ => 0
  end.

Definition log_add (b : Z) (h : logheader) : logheader :=
  let i := log_slot (lh_block h) b (Z.to_nat (lh_n h)) in
  LH (if Z.of_nat i =? lh_n h then lh_n h + 1 else lh_n h) (<[i := b]> (lh_block h)).

Definition log_write (b : nat) : KF unit :=
  l ← lget (fun l => l);
  if (LOGSIZE <=? lh_n (lg_lh l)) || (lg_size l - 1 <=? lh_n (lg_lh l)) then kpanic "too big a transaction"
  else if lg_outstanding l <? 1 then kpanic "log_write outside of trans"
  else
    acquire log_lock;;
    bn ← bget_ b b_blockno;
    lset (fun l => set_lg_lh (log_add bn (lg_lh l)) l);;
    bset b (set_b_dirty true);;
    release log_lock.

End log.
