(* ===== verification/Console.v ===== *)
(** console.c: output to the serial port and the screen, formatted output,
    and the line discipline of the keyboard. *)

From S2P Require Import Prelude Mmu Kalloc Spinlock Kernel Sched Fsys.

(** * Output *)

Definition BACKSPACE : Z := 0x100.

(** A write of the screen's cell [i]. *)
Definition put_cell (i v : Z) (c : console_t) : console_t := set_cn_crt (<[Z.to_nat i := v]> (cn_crt c)) c.

(** Where the cursor goes, and the character that is drawn before. *)
Definition cga_advance (ch : Z) (c : console_t) : console_t :=
  let pos := cn_pos c in
  if ch =? 10 then set_cn_pos (pos + (80 - pos mod 80)) c
  else if ch =? BACKSPACE then (if 0 <? pos then set_cn_pos (pos - 1) c else c)
  else set_cn_pos (pos + 1) (put_cell pos (Z.lor (Z.land ch 0xff) 0x0700) c).

(** Scroll up by one line. *)
Definition cga_scroll (c : console_t) : console_t :=
  let pos := cn_pos c - 80 in
  let cells := slice (cn_crt c) 80 (23 * 80) ++ drop (23 * 80) (cn_crt c) in
  set_cn_pos pos (set_cn_crt (blit cells pos (replicate (Z.to_nat (24 * 80 - pos)) 0)) c).

Definition cgaputc (ch : Z) : KF unit :=
  cset (cga_advance ch);;
  pos ← cget cn_pos;
  if (pos <? 0) || (25 * 80 <? pos) then kpanic "pos under/overflow"
  else
    (if 24 <=? pos / 80 then cset cga_scroll else mret tt);;
    pos ← cget cn_pos;
    cset (put_cell pos (Z.lor 32 0x0700)).

Definition uartputc (ch : Z) : KF unit := cset (fun c => set_cn_uart (cn_uart c ++ [ch]) c).

Definition consputc (ch : Z) : KF unit :=
  (if ch =? BACKSPACE then uartputc 8;; uartputc 32;; uartputc 8 else uartputc ch);;
  cgaputc ch.

Fixpoint consputs (l : list Z) : KF unit :=
  match l with [] => mret tt | c :: l => consputc c;; consputs l end.

(** * Numbers *)

Definition digit (d : Z) : Z := if d <? 10 then 48 + d else 87 + d.

(** The digits of [x], last one first; 32 turns are enough for base 2. *)
Fixpoint digits_rev (x base : Z) (fuel : nat) : list Z :=
  match fuel with
  | O => []
  | S fuel => digit (x mod base) :: (if x / base =? 0 then [] else digits_rev (x / base) base fuel)
  end.

(** printint: the characters it prints. *)
Definition printint (xx base : Z) (sign : bool) : list Z :=
  let neg := sign && (s32 xx <? 0) in
  let x := if neg then u32 (- s32 xx) else u32 xx in
  rev (digits_rev x base 32 ++ (if neg then [45] else [])).

(** The arguments of cprintf: words and strings; a null string is None. *)
Inductive parg := PInt (v : Z) | PStr (s : option (list Z)).

Definition null_text : list Z := [40; 110; 117; 108; 108; 41].

(** What cprintf prints for a format and its arguments; an argument that is
    missing or of the other kind is undefined in C, and nothing is printed
    for it here. *)
Fixpoint cformat (fmt : list Z) (args : list parg) : list Z :=
  match fmt with
  | [] => []
  | c :: fmt =>
    if negb (c =? 37) then c :: cformat fmt args
    else
      match fmt with
      | [] => []
      | d :: fmt =>
        if d =? 100 then
          match args with PInt v :: args => printint v 10 true ++ cformat fmt args | _ => [] end
        else if (d =? 120) || (d =? 112) then
          match args with PInt v :: args => printint v 16 false ++ cformat fmt args | _ => [] end
        else if d =? 115 then
          match args with PStr s :: args => default null_text s ++ cformat fmt args | _ => [] end
        else if d =? 37 then 37 :: cformat fmt args
        else 37 :: d :: cformat fmt args
      end
  end.

Definition cprintf (fmt : list Z) (args : list parg) : KF unit :=
  locking ← cget cn_locking;
  (if negb locking then mret tt else acquire cons_lock);;
  consputs (cformat fmt args);;
  (if negb locking then mret tt else release cons_lock).

(** * Input *)

Definition input_at (c : console_t) (i : Z) : Z := cn_buf c !!! Z.to_nat (i mod INPUT_BUF).

(** Kill line: back over the characters typed since the last newline. *)
Fixpoint kill_line (fuel : nat) : KF unit :=
  match fuel with
  | O => out_of_fuel
  | S fuel =>
    c ← cget (fun c => c);
    if negb (cn_e c =? cn_w c) && negb (input_at c (u32 (cn_e c - 1)) =? 10) then
      cset (set_cn_e (u32 (cn_e c - 1)));;
      consputc BACKSPACE;;
      kill_line fuel
    else mret tt
  end.

(** One character from the keyboard or the serial port. *)
Definition input_char (ch : Z) : KF unit :=
  c ← cget (fun c => c);
  if ch =? 16 then mret tt
  else if ch =? 21 then kill_line (Z.to_nat INPUT_BUF + 1)
  else if (ch =? 8) || (ch =? 127) then
    if negb (cn_e c =? cn_w c) then cset (set_cn_e (u32 (cn_e c - 1)));; consputc BACKSPACE else mret tt
  else if negb (ch =? 0) && (u32 (cn_e c - cn_r c) <? INPUT_BUF) then
    let ch := if ch =? 13 then 10 else ch in
    cset (fun c => set_cn_e (u32 (cn_e c + 1)) (set_cn_buf (<[Z.to_nat (cn_e c mod INPUT_BUF) := ch]> (cn_buf c)) c));;
    consputc ch;;
    c ← cget (fun c => c);
    if (ch =? 10) || (ch =? 4) || (cn_e c =? u32 (cn_r c + INPUT_BUF)) then
      cset (set_cn_w (cn_e c));;
      wakeup (Some input_chan)
    else mret tt
  else mret tt.

(** * The list of processes *)

Section dump.
(** p->context of each slot, as swtch saved it. *)
Context (context : nat -> Z).

(** states[] of procdump. *)
Definition state_text (st : procstate) : list Z :=
  match st with
  | UNUSED => [117; 110; 117; 115; 101; 100]
  | EMBRYO => [101; 109; 98; 114; 121; 111]
  | SLEEPING => [115; 108; 101; 101; 112; 32]
  | RUNNABLE => [114; 117; 110; 98; 108; 101]
  | RUNNING => [114; 117; 110; 32; 32; 32]
  | ZOMBIE => [122; 111; 109; 98; 105; 101]
  end.

(** %d %d %s %s *)
Definition dump_line : list Z := [37; 100; 32; 37; 100; 32; 37; 115; 32; 37; 115].

(** The return addresses up to the first zero, each as %p. *)
Fixpoint dump_pcs (pc : list Z) : KF unit :=
  match pc with
  | [] => mret tt
  | c :: pc => if c =? 0 then mret tt else cprintf [32; 37; 112] [PInt c];; dump_pcs pc
  end.

Definition dump_proc (i : nat) : KF unit :=
  p ← p_ i (fun p => p);
  if decide (state p = UNUSED) then mret tt
  else
    cprintf dump_line [PInt (pid p); PInt (tid p); PStr (Some (state_text (state p))); PStr (Some (name p))];;
    st ← p_ i state;
    (if decide (st = SLEEPING) then
       m ← lift (gets ram);
       dump_pcs (getcallerpcs m (u32 (load32 m (context i + 12) + 8)))
     else mret tt);;
    cprintf [10] [].

Fixpoint dump_procs (l : list nat) : KF unit :=
  match l with [] => mret tt | i :: l => dump_proc i;; dump_procs l end.

Definition procdump : KF unit := dump_procs (seq 0 NPROC).

(** The loop of consoleintr: the calls of getc that return a character.  The
    result is doprocdump. *)
Fixpoint input_chars (doprocdump : bool) (l : list (KF Z)) : KF bool :=
  match l with
  | [] => mret doprocdump
  | getc :: l => ch ← getc; input_char ch;; input_chars (doprocdump || (ch =? 16)) l
  end.

Definition consoleintr (l : list (KF Z)) : KF unit :=
  acquire cons_lock;;
  doprocdump ← input_chars false l;
  release cons_lock;;
  if (doprocdump : bool) then procdump else mret tt.

(** * uart.c *)

(** [l]: the characters that the serial port has received. *)
Definition uartintr (l : list Z) : KF unit := consoleintr (mret <$> l).

End dump.
