(* ===== verification/Kbd.v ===== *)
(** kbd.c and kbd.h: from scan codes to characters. *)

From S2P Require Import Prelude Kernel Fsys Console.

Definition SHIFT : Z := 1.
Definition CTL : Z := 2.
Definition ALT : Z := 4.
Definition CAPSLOCK : Z := 8.
Definition NUMLOCK : Z := 16.
Definition SCROLLLOCK : Z := 32.
Definition E0ESC : Z := 64.

(** A table of 256 characters: the first of them, and the ones given by
    their index; the others are 0. *)
Record keymap := Keymap { km_first : list Z; km_at : list (Z * Z) }.
Definition key_at (m : keymap) (i : Z) : Z :=
  match find (fun p => fst p =? i) (km_at m) with
  | Some (_, c) => c
  | None => nth (Z.to_nat i) (km_first m) 0
  end.

Definition shiftcode : keymap := Keymap
    []
    [(0x1D, CTL); (0x2A, SHIFT); (0x36, SHIFT); (0x38, ALT); (0x9D, CTL); (0xB8, ALT)].

Definition togglecode : keymap := Keymap
    []
    [(0x3A, CAPSLOCK); (0x45, NUMLOCK); (0x46, SCROLLLOCK)].

Definition normalmap : keymap := Keymap
    [0; 27; 49; 50; 51; 52; 53; 54; 55; 56; 57; 48; 45; 61; 8; 9;
     113; 119; 101; 114; 116; 121; 117; 105; 111; 112; 91; 93; 10; 0; 97; 115;
     100; 102; 103; 104; 106; 107; 108; 59; 39; 96; 0; 92; 122; 120; 99; 118;
     98; 110; 109; 44; 46; 47; 0; 42; 0; 32; 0; 0; 0; 0; 0; 0;
     0; 0; 0; 0; 0; 0; 0; 55; 56; 57; 45; 52; 53; 54; 43; 49;
     50; 51; 48; 46; 0; 0; 0; 0]
    [(0x9C, 10); (0xB5, 47); (0xC8, 226); (0xD0, 227); (0xC9, 230); (0xD1, 231); (0xCB, 228);
     (0xCD, 229); (0x97, 224); (0xCF, 225); (0xD2, 232); (0xD3, 233)].

Definition shiftmap : keymap := Keymap
    [0; 27; 33; 64; 35; 36; 37; 94; 38; 42; 40; 41; 95; 43; 8; 9;
     81; 87; 69; 82; 84; 89; 85; 73; 79; 80; 123; 125; 10; 0; 65; 83;
     68; 70; 71; 72; 74; 75; 76; 58; 34; 126; 0; 124; 90; 88; 67; 86;
     66; 78; 77; 60; 62; 63; 0; 42; 0; 32; 0; 0; 0; 0; 0; 0;
     0; 0; 0; 0; 0; 0; 0; 55; 56; 57; 45; 52; 53; 54; 43; 49;
     50; 51; 48; 46; 0; 0; 0; 0]
    [(0x9C, 10); (0xB5, 47); (0xC8, 226); (0xD0, 227); (0xC9, 230); (0xD1, 231); (0xCB, 228);
     (0xCD, 229); (0x97, 224); (0xCF, 225); (0xD2, 232); (0xD3, 233)].

Definition ctlmap : keymap := Keymap
    [0; 0; 0; 0; 0; 0; 0; 0; 0; 0; 0; 0; 0; 0; 0; 0;
     17; 23; 5; 18; 20; 25; 21; 9; 15; 16; 0; 0; 13; 0; 1; 19;
     4; 6; 7; 8; 10; 11; 12; 0; 0; 0; 0; 28; 26; 24; 3; 22;
     2; 14; 13; 0; 0; 239; 0; 0]
    [(0x9C, 13); (0xB5, 239); (0xC8, 226); (0xD0, 227); (0xC9, 230); (0xD1, 231); (0xCB, 228);
     (0xCD, 229); (0x97, 224); (0xCF, 225); (0xD2, 232); (0xD3, 233)].

Definition charcode (shift : Z) : keymap :=
  match Z.land shift (Z.lor CTL SHIFT) with 0 => normalmap | 1 => shiftmap | _ => ctlmap end.

(** The shift state and the character for the scan code [data]; 0 for no
    character. *)
Definition kbd_press (shift data : Z) : Z * Z :=
  let shift := Z.lor shift (key_at shiftcode data) in
  let shift := Z.lxor shift (key_at togglecode data) in
  let c := key_at (charcode shift) data in
  (shift,
   if negb (Z.land shift CAPSLOCK =? 0) then
     if (97 <=? c) && (c <=? 122) then c - 32
     else if (65 <=? c) && (c <=? 90) then c + 32
     else c
   else c).

Definition kbd_step (shift data : Z) : Z * Z :=
  if data =? 0xE0 then (Z.lor shift E0ESC, 0)
  else if negb (Z.land data 0x80 =? 0) then
    let data := if negb (Z.land shift E0ESC =? 0) then data else Z.land data 0x7F in
    (Z.ldiff shift (Z.lor (key_at shiftcode data) E0ESC), 0)
  else if negb (Z.land shift E0ESC =? 0) then kbd_press (Z.ldiff shift E0ESC) (Z.lor data 0x80)
  else kbd_press shift data.

(** [data]: what the keyboard controller has; when it has nothing the loop
    of consoleintr ends. *)
Definition kbdgetc (data : Z) : KF Z :=
  sh ← cget cn_shift;
  cset (set_cn_shift (fst (kbd_step sh data)));;
  mret (snd (kbd_step sh data)).

Definition kbdintr (context : nat -> Z) (l : list Z) : KF unit := consoleintr context (kbdgetc <$> l).
