(* ===== verification/Fs.v ===== *)
(** fs.c: blocks, inodes, file contents, directories and path names; with
    the device reads and writes of console.c, which unlock the inode. *)

From S2P Require Import Prelude Mmu Kernel Sched Pipe Fsys Bio Log Console.

(** * The layout of the disk *)

Definition IBLOCK (i : Z) (sb : superblock) : Z := i / IPB + sb_inodestart sb.
Definition BBLOCK (b : Z) (sb : superblock) : Z := b / BPB + sb_bmapstart sb.

(** Bit [bi] of a bitmap block. *)
Definition bit_at (d : list Z) (bi : Z) : bool := Z.testbit (rd8 d (bi / 8)) (bi mod 8).
Definition set_bit (d : list Z) (bi : Z) : list Z := wr8 d (bi / 8) (Z.lor (rd8 d (bi / 8)) (2 ^ (bi mod 8))).
Definition clear_bit (d : list Z) (bi : Z) : list Z :=
  wr8 d (bi / 8) (Z.land (rd8 d (bi / 8)) (255 - 2 ^ (bi mod 8))).

(** The first free bit of the bitmap block for blocks [b], [b + 1], ... *)
Definition free_bit (d : list Z) (b size : Z) : option Z :=
  head (filter (fun bi => bit_at d bi = false /\ b + bi < size) (Z.of_nat <$> seq 0 (Z.to_nat BPB))).

(** [struct dinode] at offset [o] of a block. *)
Record dinode := Dinode { d_type : Z; d_major : Z; d_minor : Z; d_nlink : Z; d_size : Z; d_addrs : list Z }.

Definition rd_dinode (l : list Z) (o : Z) : dinode :=
  Dinode (s16 (rd16 l o)) (s16 (rd16 l (o + 2))) (s16 (rd16 l (o + 4))) (s16 (rd16 l (o + 6))) (rd32 l (o + 8))
    ((fun k => rd32 l (o + 12 + 4 * Z.of_nat k)) <$> seq 0 13).
Definition wr_dinode (l : list Z) (o : Z) (d : dinode) : list Z :=
  foldl (fun l k => wr32 l (o + 12 + 4 * Z.of_nat k) (d_addrs d !!! k))
    (wr32 (wr16 (wr16 (wr16 (wr16 l o (d_type d)) (o + 2) (d_major d)) (o + 4) (d_minor d)) (o + 6) (d_nlink d))
       (o + 8) (d_size d)) (seq 0 13).
Definition dinode_off (inum : Z) : Z := (inum mod IPB) * DINODE_SIZE.

Section fs.
Context (turns : nat) (me : nat).
Notation bread := (bread turns me).
Notation brelse := (brelse me).
Notation acquiresleep := (acquiresleep turns me).

(** bread, change the data, log_write, brelse. *)
Definition modify_block (dev b : Z) (f : list Z -> list Z) : KF unit :=
  bp ← bread dev b;
  bset bp (fun x => set_b_data (f (b_data x)) x);;
  log_write bp;;
  brelse bp.

(** * Blocks *)

Definition bzero (dev bno : Z) : KF unit := modify_block dev bno (fun _ => zero_block).

Fixpoint balloc_loop (dev size : Z) (bs : list Z) : KF Z :=
  match bs with
  | [] => kpanic "balloc: out of blocks"
  | b :: bs =>
    sb ← fget fs_sb;
    bp ← bread dev (BBLOCK b sb);
    d ← bget_ bp b_data;
    match free_bit d b size with
    | Some bi =>
      bset bp (set_b_data (set_bit d bi));;
      log_write bp;;
      brelse bp;;
      bzero dev (b + bi);;
      mret (b + bi)
    | None => brelse bp;; balloc_loop dev size bs
    end
  end.

Definition balloc (dev : Z) : KF Z :=
  size ← fget (fun r => sb_size (fs_sb r));
  balloc_loop dev size ((fun k => Z.of_nat k * BPB) <$> seq 0 (Z.to_nat ((size + BPB - 1) / BPB))).

Definition bfree (dev b : Z) : KF unit :=
  sb ← fget fs_sb;
  bp ← bread dev (BBLOCK b sb);
  d ← bget_ bp b_data;
  if negb (bit_at d (b mod BPB)) then kpanic "freeing free block"
  else
    bset bp (set_b_data (clear_bit d (b mod BPB)));;
    log_write bp;;
    brelse bp.

(** * Inodes *)

(** sb: size %d nblocks %d ninodes %d nlog %d logstart %d inodestart %d bmap start %d. *)
Definition sb_text : list Z :=
  [115; 98; 58; 32; 115; 105; 122; 101; 32; 37; 100; 32; 110; 98; 108; 111; 99; 107; 115; 32; 37;
   100; 32; 110; 105; 110; 111; 100; 101; 115; 32; 37; 100; 32; 110; 108; 111; 103; 32; 37; 100; 32;
   108; 111; 103; 115; 116; 97; 114; 116; 32; 37; 100; 32; 105; 110; 111; 100; 101; 115; 116; 97;
   114; 116; 32; 37; 100; 32; 98; 109; 97; 112; 32; 115; 116; 97; 114; 116; 32; 37; 100; 10].

Definition iinit (dev : Z) : KF unit :=
  for_each (fun i => iset i (set_i_lock sl0)) (seq 0 NINODE);;
  sb ← readsb turns me dev;
  fset (set_fs_sb sb);;
  cprintf sb_text [PInt (sb_size sb); PInt (sb_nblocks sb); PInt (sb_ninodes sb); PInt (sb_nlog sb);
    PInt (sb_logstart sb); PInt (sb_inodestart sb); PInt (sb_bmapstart sb)].

(** The entry of the cache for an inode: the one that holds it, or the
    first free one. *)
Fixpoint find_inode (f : inode -> bool) (l : list inode) : option nat :=
  match l with
  | [] => None
  | x :: l => if f x then Some O else S <$> find_inode f l
  end.

Definition iget (dev inum : Z) : KF nat :=
  acquire icache_lock;;
  l ← fget fs_icache;
  match find_inode (fun x => (0 <? i_ref x) && (i_dev x =? dev) && (i_inum x =? inum)) l with
  | Some i =>
    iset i (fun x => set_i_ref (i_ref x + 1) x);;
    release icache_lock;;
    mret i
  | None =>
    match find_inode (fun x => i_ref x =? 0) l with
    | None => kpanic "iget: no inodes"
    | Some i =>
      iset i (fun x => set_i_valid false (set_i_ref 1 (set_i_inum inum (set_i_dev dev x))));;
      release icache_lock;;
      mret i
    end
  end.

Fixpoint ialloc_loop (dev type : Z) (inums : list Z) : KF nat :=
  match inums with
  | [] => kpanic "ialloc: no inodes"
  | inum :: inums =>
    sb ← fget fs_sb;
    bp ← bread dev (IBLOCK inum sb);
    d ← bget_ bp b_data;
    if d_type (rd_dinode d (dinode_off inum)) =? 0 then
      bset bp (set_b_data (wr_dinode d (dinode_off inum) (Dinode type 0 0 0 0 (replicate 13 0))));;
      log_write bp;;
      brelse bp;;
      iget dev inum
    else
      brelse bp;;
      ialloc_loop dev type inums
  end.

Definition ialloc (dev type : Z) : KF nat :=
  n ← fget (fun r => sb_ninodes (fs_sb r));
  ialloc_loop dev type (Z.of_nat <$> seq 1 (Z.to_nat (n - 1))).

Definition to_dinode (x : inode) : dinode :=
  Dinode (i_type x) (i_major x) (i_minor x) (i_nlink x) (i_size x) (i_addrs x).

Definition iupdate (ip : nat) : KF unit :=
  x ← iget_ ip (fun x => x);
  sb ← fget fs_sb;
  modify_block (i_dev x) (IBLOCK (i_inum x) sb) (fun d => wr_dinode d (dinode_off (i_inum x)) (to_dinode x)).

Definition idup (ip : nat) : KF nat :=
  acquire icache_lock;;
  iset ip (fun x => set_i_ref (i_ref x + 1) x);;
  release icache_lock;;
  mret ip.

Definition load_inode (d : dinode) (x : inode) : inode :=
  Inode (i_dev x) (i_inum x) (i_ref x) (i_lock x) (i_valid x) (d_type d) (d_major d) (d_minor d) (d_nlink d)
    (d_size d) (d_addrs d).

Definition ilock (ip : nat) : KF unit :=
  n ← iget_ ip i_ref;
  if n <? 1 then kpanic "ilock"
  else
    acquiresleep (SInode ip);;
    x ← iget_ ip (fun x => x);
    if i_valid x then mret tt
    else
      sb ← fget fs_sb;
      bp ← bread (i_dev x) (IBLOCK (i_inum x) sb);
      d ← bget_ bp b_data;
      iset ip (load_inode (rd_dinode d (dinode_off (i_inum x))));;
      brelse bp;;
      iset ip (set_i_valid true);;
      t ← iget_ ip i_type;
      if t =? 0 then kpanic "ilock: no type" else mret tt.

Definition iunlock (ip : nat) : KF unit :=
  h ← holdingsleep me (SInode ip);
  n ← iget_ ip i_ref;
  if negb h || (n <? 1) then kpanic "iunlock"
  else releasesleep (SInode ip).

(** * Contents *)

Definition bmap (ip : nat) (bn : Z) : KF Z :=
  x ← iget_ ip (fun x => x);
  if bn <? NDIRECT then
    let addr := i_addrs x !!! Z.to_nat bn in
    if addr =? 0 then
      addr ← balloc (i_dev x);
      iset ip (fun x => set_i_addrs (<[Z.to_nat bn := addr]> (i_addrs x)) x);;
      mret addr
    else mret addr
  else
    let bn := bn - NDIRECT in
    if bn <? NINDIRECT then
      let addr := i_addrs x !!! Z.to_nat NDIRECT in
      addr ← (if addr =? 0 then
                addr ← balloc (i_dev x);
                iset ip (fun x => set_i_addrs (<[Z.to_nat NDIRECT := addr]> (i_addrs x)) x);;
                mret addr
              else mret addr);
      bp ← bread (i_dev x) addr;
      d ← bget_ bp b_data;
      let addr := rd32 d (4 * bn) in
      addr ← (if addr =? 0 then
                addr ← balloc (i_dev x);
                bset bp (fun y => set_b_data (wr32 (b_data y) (4 * bn) addr) y);;
                log_write bp;;
                mret addr
              else mret addr);
      brelse bp;;
      mret addr
    else kpanic "bmap: out of range".

Definition itrunc_direct (ip i : nat) : KF unit :=
  x ← iget_ ip (fun x => x);
  let addr := i_addrs x !!! i in
  if addr =? 0 then mret tt
  else bfree (i_dev x) addr;; iset ip (fun x => set_i_addrs (<[i := 0]> (i_addrs x)) x).

Definition itrunc_indirect (dev : Z) (d : list Z) (j : nat) : KF unit :=
  let addr := rd32 d (4 * Z.of_nat j) in
  if addr =? 0 then mret tt else bfree dev addr.

Definition itrunc (ip : nat) : KF unit :=
  for_each (itrunc_direct ip) (seq 0 (Z.to_nat NDIRECT));;
  x ← iget_ ip (fun x => x);
  let addr := i_addrs x !!! Z.to_nat NDIRECT in
  (if addr =? 0 then mret tt
   else
     bp ← bread (i_dev x) addr;
     d ← bget_ bp b_data;
     for_each (itrunc_indirect (i_dev x) d) (seq 0 (Z.to_nat NINDIRECT));;
     brelse bp;;
     bfree (i_dev x) addr;;
     iset ip (fun x => set_i_addrs (<[Z.to_nat NDIRECT := 0]> (i_addrs x)) x));;
  iset ip (set_i_size 0);;
  iupdate ip.

Definition iput (ip : nat) : KF unit :=
  acquiresleep (SInode ip);;
  x ← iget_ ip (fun x => x);
  (if i_valid x && (i_nlink x =? 0) then
     acquire icache_lock;;
     r ← iget_ ip i_ref;
     release icache_lock;;
     (if r =? 1 then
        itrunc ip;;
        iset ip (set_i_type 0);;
        iupdate ip;;
        iset ip (set_i_valid false)
      else mret tt)
   else mret tt);;
  releasesleep (SInode ip);;
  acquire icache_lock;;
  iset ip (fun x => set_i_ref (i_ref x - 1) x);;
  release icache_lock.

Definition iunlockput (ip : nat) : KF unit := iunlock ip;; iput ip.

Definition stati (ip : nat) : KF stat :=
  iget_ ip (fun x => Stat (i_dev x) (i_inum x) (i_type x) (i_nlink x) (i_size x)).

(** * console.c: the device functions *)

(** One turn of consoleread: wait for a character; false when killed. *)
Fixpoint console_wait (fuel : nat) : KF bool :=
  match fuel with
  | O => out_of_fuel
  | S fuel =>
    c ← cget (fun c => c);
    if cn_r c =? cn_w c then
      k ← p_ me killed;
      if negb (k =? 0) then mret false
      else sleep me (Some input_chan) cons_lock;; console_wait fuel
    else mret true
  end.

(** The loop of consoleread: [n] more characters of [target]; whether the
    process was not killed meanwhile, and what was read. *)
Fixpoint consoleread_loop (n target : nat) : KF (bool * list Z) :=
  match n with
  | O => mret (true, [])
  | S n' =>
    ok ← console_wait turns;
    if negb ok then mret (false, [])
    else
      c ← cget (fun c => c);
      let ch := input_at c (cn_r c) in
      cset (set_cn_r (u32 (cn_r c + 1)));;
      if ch =? 4 then
        (if (n <? target)%nat then cset (set_cn_r (cn_r c)) else mret tt);;
        mret (true, [])
      else if ch =? 10 then mret (true, [ch])
      else
        '(ok, l) ← consoleread_loop n' target;
        mret (ok, ch :: l)
  end.

Definition consoleread (ip : nat) (n : Z) : KF (Z * list Z) :=
  iunlock ip;;
  acquire cons_lock;;
  '(ok, l) ← consoleread_loop (Z.to_nat n) (Z.to_nat n);
  release cons_lock;;
  ilock ip;;
  mret (if (ok : bool) then Z.of_nat (length l) else -1, l).

Definition consolewrite (ip : nat) (l : list Z) : KF Z :=
  iunlock ip;;
  acquire cons_lock;;
  consputs ((fun c => Z.land c 0xff) <$> l);;
  release cons_lock;;
  ilock ip;;
  mret (Z.of_nat (length l)).

(** devsw has the console and nothing else. *)
Definition dev_ok (major : Z) : bool := (0 <=? major) && (major <? NDEV) && (major =? CONSOLE).

(** * Reading and writing *)

Fixpoint readi_loop (ip : nat) (off n : Z) (fuel : nat) : KF (list Z) :=
  if n <=? 0 then mret []
  else
    match fuel with
    | O => out_of_fuel
    | S fuel =>
      dev ← iget_ ip i_dev;
      a ← bmap ip (off / BSIZE);
      bp ← bread dev a;
      d ← bget_ bp b_data;
      let m := Z.min n (BSIZE - off mod BSIZE) in
      brelse bp;;
      l ← readi_loop ip (u32 (off + m)) (n - m) fuel;
      mret (slice d (off mod BSIZE) m ++ l)
    end.

Definition readi (ip : nat) (off n : Z) : KF (Z * list Z) :=
  x ← iget_ ip (fun x => x);
  if i_type x =? T_DEV then
    if negb (dev_ok (i_major x)) then mret (-1, []) else consoleread ip (s32 n)
  else if (i_size x <? off) || (u32 (off + n) <? off) then mret (-1, [])
  else
    let n := if i_size x <? u32 (off + n) then u32 (i_size x - off) else n in
    l ← readi_loop ip off n (Z.to_nat n);
    mret (s32 n, l).

(** The loop of writei; the offset it ends at. *)
Fixpoint writei_loop (ip : nat) (src : list Z) (off : Z) (fuel : nat) : KF Z :=
  match src with
  | [] => mret off
  | _ :: _ =>
    match fuel with
    | O => out_of_fuel
    | S fuel =>
      dev ← iget_ ip i_dev;
      a ← bmap ip (off / BSIZE);
      let m := Z.min (Z.of_nat (length src)) (BSIZE - off mod BSIZE) in
      modify_block dev a (fun d => blit d (off mod BSIZE) (take (Z.to_nat m) src));;
      writei_loop ip (drop (Z.to_nat m) src) (u32 (off + m)) fuel
    end
  end.

Definition writei (ip : nat) (src : list Z) (off : Z) : KF Z :=
  let n := Z.of_nat (length src) in
  x ← iget_ ip (fun x => x);
  if i_type x =? T_DEV then
    if negb (dev_ok (i_major x)) then mret (-1) else consolewrite ip src
  else if (i_size x <? off) || (u32 (off + n) <? off) then mret (-1)
  else if MAXFILE * BSIZE <? u32 (off + n) then mret (-1)
  else
    off ← writei_loop ip src off (length src);
    size ← iget_ ip i_size;
    (if (0 <? n) && (size <? off) then iset ip (set_i_size off);; iupdate ip else mret tt);;
    mret n.

(** * Directories *)

(** strncmp of two strings, each followed by a nul. *)
Fixpoint strncmp_ (n : nat) (p q : list Z) : Z :=
  match n with
  | O => 0
  | S n =>
    let a := hd 0 p in
    let b := hd 0 q in
    if negb (a =? 0) && (a =? b) then strncmp_ n (tl p) (tl q) else a - b
  end.

Definition namecmp (s t : list Z) : Z := strncmp_ (Z.to_nat DIRSIZ) s t.

(** strncpy of a string into a field of DIRSIZ bytes. *)
Definition pad_name (s : list Z) : list Z :=
  let s := take (Z.to_nat DIRSIZ) s in s ++ replicate (Z.to_nat DIRSIZ - length s) 0.

Definition de_inum (d : list Z) : Z := rd16 d 0.
Definition de_name (d : list Z) : list Z := drop 2 d.
Definition mk_dirent (inum : Z) (name : list Z) : list Z := wr16 [0; 0] 0 inum ++ pad_name name.

(** The entries at offset [off] and after, [cnt] of them; the offset and
    the inode number of the one that has the name. *)
Fixpoint dirlookup_loop (dp : nat) (name : list Z) (off : Z) (cnt : nat) : KF (option (Z * Z)) :=
  match cnt with
  | O => mret None
  | S cnt =>
    r ← readi dp off DIRENT_SIZE;
    if negb (fst r =? DIRENT_SIZE) then kpanic "dirlookup read"
    else
      let de := snd r in
      if de_inum de =? 0 then dirlookup_loop dp name (off + DIRENT_SIZE) cnt
      else if namecmp name (de_name de) =? 0 then mret (Some (off, de_inum de))
      else dirlookup_loop dp name (off + DIRENT_SIZE) cnt
  end.

(** How many entries a loop over a directory of [size] bytes looks at. *)
Definition dir_entries (size : Z) : nat := Z.to_nat ((size + DIRENT_SIZE - 1) / DIRENT_SIZE).

(** The inode, and the offset of the entry. *)
Definition dirlookup (dp : nat) (name : list Z) : KF (option (nat * Z)) :=
  x ← iget_ dp (fun x => x);
  if negb (i_type x =? T_DIR) then kpanic "dirlookup not DIR"
  else
    e ← dirlookup_loop dp name 0 (dir_entries (i_size x));
    match e with
    | None => mret None
    | Some (off, inum) => ip ← iget (i_dev x) inum; mret (Some (ip, off))
    end.

(** The offset of the first empty entry, or of the end. *)
Fixpoint dirlink_loop (dp : nat) (off : Z) (cnt : nat) : KF Z :=
  match cnt with
  | O => mret off
  | S cnt =>
    r ← readi dp off DIRENT_SIZE;
    if negb (fst r =? DIRENT_SIZE) then kpanic "dirlink read"
    else if de_inum (snd r) =? 0 then mret off
    else dirlink_loop dp (off + DIRENT_SIZE) cnt
  end.

Definition dirlink (dp : nat) (name : list Z) (inum : Z) : KF Z :=
  e ← dirlookup dp name;
  match e with
  | Some (ip, _) => iput ip;; mret (-1)
  | None =>
    size ← iget_ dp i_size;
    off ← dirlink_loop dp 0 (dir_entries size);
    n ← writei dp (mk_dirent inum name) off;
    if negb (n =? DIRENT_SIZE) then kpanic "dirlink" else mret 0
  end.

(** * Paths *)

Fixpoint skip_slashes (path : list Z) : list Z :=
  match path with c :: path' => if c =? 47 then skip_slashes path' else path | [] => [] end.

(** The characters up to the next slash, and the rest. *)
Fixpoint take_elem (path : list Z) : list Z * list Z :=
  match path with
  | [] => ([], [])
  | c :: path' =>
    if c =? 47 then ([], path) else let '(e, rest) := take_elem path' in (c :: e, rest)
  end.

(** The rest of the path and the name; [None] for a null pointer. *)
Definition skipelem (path : list Z) : option (list Z * list Z) :=
  let path := skip_slashes path in
  match path with
  | [] => None
  | _ :: _ =>
    let '(e, rest) := take_elem path in
    Some (skip_slashes rest, take (Z.to_nat DIRSIZ) e)
  end.

Fixpoint namex_loop (ip : nat) (path : list Z) (parent : bool) (name : list Z) (fuel : nat)
    : KF (option (nat * list Z)) :=
  match fuel with
  | O => out_of_fuel
  | S fuel =>
    match skipelem path with
    | None => if parent then iput ip;; mret None else mret (Some (ip, name))
    | Some (path, name) =>
      ilock ip;;
      t ← iget_ ip i_type;
      if negb (t =? T_DIR) then iunlockput ip;; mret None
      else if parent && bool_decide (path = []) then iunlock ip;; mret (Some (ip, name))
      else
        e ← dirlookup ip name;
        match e with
        | None => iunlockput ip;; mret None
        | Some (next, _) => iunlockput ip;; namex_loop next path parent name fuel
        end
    end
  end.

Definition namex (path : list Z) (parent : bool) : KF (option (nat * list Z)) :=
  ip ← (if head path is Some 47 then iget ROOTDEV ROOTINO
        else d ← p_ me cwd; match d with Some d => idup d | None => kpanic "null pointer" end);
  namex_loop ip path parent [] (S (length path)).

Definition namei (path : list Z) : KF (option nat) := r ← namex path false; mret (fst <$> r).
Definition nameiparent (path : list Z) : KF (option (nat * list Z)) := namex path true.

(** * The first process *)

(** forkret of proc.c, where a new process starts to run.  [first] is its
    static variable and the result the new value of it: the first process is
    alone until it returns. *)
Definition forkret (first : bool) : KF bool :=
  release LPtable;;
  if first then
    iinit ROOTDEV;;
    initlog turns me ROOTDEV;;
    mret false
  else mret first.

End fs.
