(* ===== verification/Args.v ===== *)
(** syscall.c: system call arguments, read from the memory of the calling
    process. *)

From S2P Require Import Prelude Mmu Kalloc Vm Kernel Thread.

(** * The kernel in user memory *)

(** A kernel access to the byte at user address [va], through the page
    directory [cur] in use: the page must be present and, for a store,
    writable; otherwise the kernel takes a page fault. *)
Definition user_byte (cur va : Z) (write : bool) : M pmem Z :=
  pte ← walkpgdir cur va false;
  if pte =? 0 then fault va
  else
    e ← ld pte;
    if testf e PTE_P && (negb write || testf e PTE_W) then mret (P2V (PTE_ADDR e) + va mod PGSIZE)
    else fault va.

Definition ldb_user (cur va : Z) : M pmem Z :=
  a ← user_byte cur va false;
  gets (fun s => load8 (ram s) a).

Definition stb_user (cur va v : Z) : M pmem unit :=
  a ← user_byte cur va true;
  modify (set_ram (fun m => store8 m a v)).

Fixpoint ld_bytes (cur va : Z) (n : nat) : M pmem (list Z) :=
  match n with
  | O => mret []
  | S n => c ← ldb_user cur va; l ← ld_bytes cur (u32 (va + 1)) n; mret (c :: l)
  end.

Fixpoint st_bytes (cur va : Z) (l : list Z) : M pmem unit :=
  match l with
  | [] => mret tt
  | c :: l => stb_user cur va c;; st_bytes cur (u32 (va + 1)) l
  end.

(** The word that four bytes make, least significant first. *)
Definition word_of (l : list Z) : Z := foldr (fun c n => c + 256 * n) 0 l.

Section args.
Context {FS : Type} `{L : Link}.
Notation K := (K FS).

(** Reads and writes of the memory of process [me]. *)
Definition uread (me : nat) (va : Z) (n : nat) : K (list Z) := d ← p_ me pgdir; lift (ld_bytes d va n).
Definition uwrite (me : nat) (va : Z) (l : list Z) : K unit := d ← p_ me pgdir; lift (st_bytes d va l).

(** * Arguments *)

(** The end of the memory a process may name: its size, or the top of its
    stack for a thread. *)
Definition limit (p : proc) : Z := if tid p =? -1 then sz p else u32 (tstack p).

(** [None] for the error result -1. *)
Definition fetchint (me : nat) (addr : Z) : K (option Z) :=
  p ← p_ me (fun p => p);
  if (limit p <=? addr) || (limit p <? u32 (addr + 4)) then mret None
  else l ← uread me addr 4; mret (Some (word_of l)).

(** The characters from [addr] up to [ep], or to the first nul. *)
Fixpoint fetch_chars (me : nat) (addr : Z) (n : nat) : K (option (list Z)) :=
  match n with
  | O => mret None
  | S n =>
    l ← uread me addr 1;
    if hd 0 l =? 0 then mret (Some [])
    else r ← fetch_chars me (addr + 1) n; mret (cons (hd 0 l) <$> r)
  end.

(** The string at [addr]; the scan ends at the size of the process, for a
    thread too. *)
Definition fetchstr (me : nat) (addr : Z) : K (option (list Z)) :=
  p ← p_ me (fun p => p);
  if limit p <=? addr then mret None
  else fetch_chars me addr (Z.to_nat (sz p - addr)).

Definition argint (me : nat) (n : Z) : K (option Z) :=
  f ← p_ me tf;
  fetchint me (u32 (esp f + 4 + 4 * n)).

Definition argptr (me : nat) (n size : Z) : K (option Z) :=
  r ← argint me n;
  match r with
  | None => mret None
  | Some i =>
    p ← p_ me (fun p => p);
    if (size <? 0) || (limit p <=? i) || (limit p <? u32 (i + size)) then mret None else mret (Some i)
  end.

Definition argstr (me : nat) (n : Z) : K (option (list Z)) :=
  r ← argint me n;
  match r with
  | None => mret None
  | Some addr => fetchstr me addr
  end.

End args.
