(* ===== verification/Exec.v ===== *)
(** The file system behind the interface that the process layer uses; exec.c,
    and loaduvm of vm.c. *)

From S2P Require Import Prelude Mmu Str Kalloc Vm Kernel Sched Pipe Thread Fsys Bio Log Console Fs Args.

(** The inode layer of fs.c and log.c. *)
#[export] Instance fs_inodes (turns : nat) : Inodes fsys := {|
  Pipe.idup := idup;
  Pipe.iput me := iput turns me;
  Pipe.begin_op me := begin_op turns me;
  Pipe.end_op me := end_op turns me;
  Pipe.ilock me := ilock turns me;
  Pipe.iunlock me := iunlock me;
  Pipe.readi me ip off n := readi turns me ip off n;
  Pipe.writei me ip src off := writei turns me ip src off;
  Pipe.stati := stati;
  Pipe.namei me := namei turns me |}.

Definition ELF_MAGIC : Z := 0x464C457F.
Definition ELF_PROG_LOAD : Z := 1.
Definition ELFHDR_SIZE : Z := 52.
Definition PROGHDR_SIZE : Z := 32.
Definition MAXARG : Z := 32.

(** [struct elfhdr] and [struct proghdr], with the fields exec reads. *)
Record elfhdr := Elf { e_magic : Z; e_entry : Z; e_phoff : Z; e_phnum : Z }.
Definition rd_elf (l : list Z) : elfhdr := Elf (rd32 l 0) (rd32 l 24) (rd32 l 28) (rd16 l 44).

Record proghdr := Prog { ph_type : Z; ph_off : Z; ph_vaddr : Z; ph_filesz : Z; ph_memsz : Z }.
Definition rd_prog (l : list Z) : proghdr :=
  Prog (rd32 l 0) (rd32 l 4) (rd32 l 8) (rd32 l 16) (rd32 l 20).

Section exec.
Context `{L : Link} `{T : Tables} (turns : nat) (me : nat).

(** * loaduvm *)

Fixpoint loaduvm_loop (pgdir addr : Z) (ip : nat) (offset sz i : Z) (fuel : nat) : KF Z :=
  if i <? sz then
    match fuel with
    | O => out_of_fuel
    | S fuel =>
      pte ← lift (walkpgdir pgdir (u32 (addr + i)) false);
      if pte =? 0 then kpanic "loaduvm: address should exist"
      else
        e ← lift (ld pte);
        let pa := PTE_ADDR e in
        let n := if u32 (sz - i) <? PGSIZE then u32 (sz - i) else PGSIZE in
        r ← readi turns me ip (u32 (offset + i)) n;
        lift (put_bytes (P2V pa) (snd r));;
        if negb (u32 (fst r) =? n) then mret (-1)
        else loaduvm_loop pgdir addr ip offset sz (u32 (i + PGSIZE)) fuel
    end
  else mret 0.

Definition loaduvm (pgdir addr : Z) (ip : nat) (offset sz : Z) : KF Z :=
  if negb (u32 addr mod PGSIZE =? 0) then kpanic "loaduvm: addr must be page aligned"
  else loaduvm_loop pgdir addr ip offset sz 0 (S (Z.to_nat (sz / PGSIZE))).

(** * exec *)

(** A thread that calls exec takes the place of its leader; the others are
    its threads, and killed. *)
Definition adopt_children (leader : option nat) (p : proc) : proc :=
  if bool_decide (parent p = leader) && (tid p =? -1) then set_parent (Some me) p else p.
Definition adopt_threads (pid_ : Z) (i : nat) (p : proc) : proc :=
  if (pid p =? pid_) && negb (bool_decide (i = me)) then set_killed 1 (set_parent (Some me) p) else p.

Definition exec_lead : KF unit :=
  s0 ← get;
  let leader := THREAD_LEADER s0 me in
  acquire LPtable;;
  c ← p_ me (fun p => p);
  (if tid c =? -1 then mret tt
   else
     match leader with
     | None => kpanic "null pointer"
     | Some l =>
       p_set l (set_tid (tid c));;
       p_set me (set_tid (-1));;
       lp ← p_ l parent;
       p_set me (set_parent lp);;
       change (fun s => put_procs (adopt_children leader <$> procs s) s);;
       change (fun s => put_procs (imap (adopt_threads (pid (slot_of s me))) (procs s)) s);;
       c ← p_ me (fun p => p);
       if tstackalloc c =? 0 then mret tt else lift (freecloneuvm (pgdir c) (tstack c))
     end);;
  release LPtable.

(** The program headers, from number [i] on; the size of the image, or
    [None] for the jump to bad. *)
Fixpoint load_segments (pgdir : Z) (ip : nat) (sz off : Z) (cnt : nat) : KF (option Z) :=
  match cnt with
  | O => mret (Some sz)
  | S cnt =>
    r ← readi turns me ip (u32 off) PROGHDR_SIZE;
    if negb (fst r =? PROGHDR_SIZE) then mret None
    else
      let ph := rd_prog (snd r) in
      if negb (ph_type ph =? ELF_PROG_LOAD) then load_segments pgdir ip sz (off + PROGHDR_SIZE) cnt
      else if ph_memsz ph <? ph_filesz ph then mret None
      else if u32 (ph_vaddr ph + ph_memsz ph) <? ph_vaddr ph then mret None
      else
        sz ← lift (allocuvm pgdir sz (u32 (ph_vaddr ph + ph_memsz ph)));
        if sz =? 0 then mret None
        else if negb (ph_vaddr ph mod PGSIZE =? 0) then mret None
        else
          r ← loaduvm pgdir (ph_vaddr ph) ip (ph_off ph) (ph_filesz ph);
          if r <? 0 then mret None
          else load_segments pgdir ip sz (off + PROGHDR_SIZE) cnt
  end.

(** The argument strings pushed on the new stack: the stack pointer and
    the addresses of the strings. *)
Fixpoint push_args (cur pgdir sp : Z) (argv : list (list Z)) (argc : Z) : KF (option (Z * list Z)) :=
  match argv with
  | [] => mret (Some (sp, []))
  | a :: argv =>
    if MAXARG <=? argc then mret None
    else
      let sp := Z.land (u32 (sp - (Z.of_nat (length a) + 1))) (2 ^ 32 - 4) in
      r ← lift (copyout cur pgdir sp (a ++ [0]));
      if r <? 0 then mret None
      else
        t ← push_args cur pgdir sp argv (argc + 1);
        mret (match t with Some (sp', l) => Some (sp', sp :: l) | None => None end)
  end.

(** The words below the strings: a fake return address, argc, argv, and the
    vector itself. *)
Definition arg_words (sp : Z) (ptrs : list Z) : list Z :=
  let argc := Z.of_nat (length ptrs) in
  [0xffffffff; argc; u32 (sp - (argc + 1) * 4)] ++ ptrs ++ [0].

(** The last element of the path. *)
Fixpoint last_elem (path last : list Z) : list Z :=
  match path with
  | [] => last
  | c :: path => last_elem path (if c =? 47 then path else last)
  end.

Definition exec_bad (pgdir : Z) (ip : option nat) : KF Z :=
  (if pgdir =? 0 then mret tt else lift (freevm pgdir));;
  match ip with
  | Some ip => iunlockput turns me ip;; end_op turns me
  | None => mret tt
  end;;
  mret (-1).

(** From the new page directory and the size of the program on. *)
Definition exec_image (path : list Z) (argv : list (list Z)) (entry pgdir sz : Z) : KF Z :=
  let sz := PGROUNDUP sz in
  sz ← lift (allocuvm pgdir sz (u32 (sz + 2 * PGSIZE)));
  if sz =? 0 then exec_bad pgdir None
  else
    lift (clearpteu pgdir (u32 (sz - 2 * PGSIZE)));;
    cur ← p_ me Kernel.pgdir;
    r ← push_args cur pgdir sz argv 0;
    match r with
    | None => exec_bad pgdir None
    | Some (sp, ptrs) =>
      let words := arg_words sp ptrs in
      let sp := u32 (sp - 4 * Z.of_nat (length words)) in
      r ← lift (copyout cur pgdir sp (words ≫= bytes4));
      if r <? 0 then exec_bad pgdir None
      else
        p_set me (set_name (take 15 (last_elem path path)));;
        old ← p_ me Kernel.pgdir;
        p_set me (fun p => set_tf (set_esp sp (set_eip entry (tf p))) (set_tstackalloc 0
                             (set_tstack sz (set_sz sz (set_pgdir pgdir p)))));;
        switchuvm me;;
        lift (freevm old);;
        mret 0
    end.

Definition exec_fail : list Z := [101; 120; 101; 99; 58; 32; 102; 97; 105; 108; 10].

Definition exec (path : list Z) (argv : list (list Z)) : KF Z :=
  exec_lead;;
  tgkill me turns;;
  begin_op turns me;;
  r ← namei turns me path;
  match r with
  | None => end_op turns me;; cprintf exec_fail [];; mret (-1)
  | Some ip =>
    ilock turns me ip;;
    r ← readi turns me ip 0 ELFHDR_SIZE;
    let elf := rd_elf (snd r) in
    if negb (fst r =? ELFHDR_SIZE) || negb (e_magic elf =? ELF_MAGIC) then exec_bad 0 (Some ip)
    else
      pgdir ← lift setupkvm;
      if pgdir =? 0 then exec_bad 0 (Some ip)
      else
        sz ← load_segments pgdir ip 0 (e_phoff elf) (Z.to_nat (e_phnum elf));
        match sz with
        | None => exec_bad pgdir (Some ip)
        | Some sz =>
          iunlockput turns me ip;;
          end_op turns me;;
          exec_image path argv (e_entry elf) pgdir sz
        end
  end.

End exec.
