(* ===== verification/Start.v ===== *)
(** main.c: the start of the kernel on the boot processor, the start of the
    other processors, and what the machine is like when they run. *)

From S2P Require Import Prelude Mmu Str Kalloc Vm Mp Dev Apic Boot Spinlock Seg Entry Kernel Sched Thread Fsys Bio Exec.

(** * The machine *)

(** The kernel with its memory, the devices with the variables of their
    drivers, the processors with their tables, cpu->started, and the
    processors that entryother.S has started with the state it left. *)
Record machine := Mach {
  m_k : kst fsys; m_dev : dev; m_seg : segs; m_started : list bool; m_aps : list (nat * early)
}.

Definition k_lens : lens machine (kst fsys) :=
  Lens m_k (fun k s => Mach k (m_dev s) (m_seg s) (m_started s) (m_aps s)).
Definition pm_lens : lens machine pmem :=
  Lens (fun s => mem (m_k s)) (fun p s => lput k_lens (put_mem p (m_k s)) s).
Definition seg_lens : lens machine segs :=
  Lens m_seg (fun x s => Mach (m_k s) (m_dev s) x (m_started s) (m_aps s)).
(** The drivers see the memory of the kernel. *)
Definition dev_lens : lens machine dev :=
  Lens (fun s => set_d_mem (fun _ => ram (mem (m_k s))) (m_dev s))
    (fun d s => lput pm_lens (set_ram (fun _ => d_mem d) (mem (m_k s)))
                  (Mach (m_k s) d (m_seg s) (m_started s) (m_aps s))).
Definition set_started (c : nat) (s : machine) : machine :=
  Mach (m_k s) (m_dev s) (m_seg s) (<[c := true]> (m_started s)) (m_aps s).
Definition add_ap (c : nat) (e : early) (s : machine) : machine :=
  Mach (m_k s) (m_dev s) (m_seg s) (m_started s) (m_aps s ++ [(c, e)]).

(** Code of the kernel that runs before there is a process: it finds every
    lock free, and nobody to switch to. *)
Fixpoint alone {A} (o : outcome fsys A) (s : machine) : res machine A :=
  match o with
  | Done a k => OK a (lput k_lens k s)
  | Halt msg k => PANIC msg (lput k_lens k s)
  | Fuel k => NOFUEL (lput k_lens k s)
  | Switch (SwAcquire lk) k f => if bool_decide (lk ∈ locked k) then NOFUEL (lput k_lens k s) else alone (f k) s
  | Switch SwSched k _ => NOFUEL (lput k_lens k s)
  end.
Definition kernel {A} (m : KF A) : M machine A := fun s => alone (m (m_k s)) s.

(** * Starting a processor *)

(** The last command that was given to the local APIC at [a]: the processor
    it is for, and the command. *)
Fixpoint icr_hi (a : Z) (l : log) : Z :=
  match l with
  | [] => 0
  | EWr x v :: l => if x =? a + 4 * ICRHI then v else icr_hi a l
  | _ :: l => icr_hi a l
  end.
Fixpoint last_ipi (a : Z) (l : log) : option (Z * Z) :=
  match l with
  | [] => None
  | EWr x v :: l => if x =? a + 4 * ICRLO then Some (icr_hi a l / 2 ^ 24, v) else last_ipi a l
  | _ :: l => last_ipi a l
  end.

(** A STARTUP command makes the processor run the code of a page. *)
Definition startup (a : Z) (l : log) (id : Z) : option Z :=
  match last_ipi a l with
  | Some (dest, v) => if (dest =? id) && (Z.land v 0x700 =? STARTUP) then Some (4096 * (v mod 256)) else None
  | None => None
  end.

(** A processor that was reset, over the memory of the kernel at its
    physical addresses. *)
Definition reset (m : memory) : early :=
  Early (MkDev (fun pa => m (KERNBASE + pa)) [] 0 0 [] false false false [] [] []) 0 0 0 (0, 0) true 0 0 0 0 0 0 0 0.

Section start.
Context `{L : Link} `{T : Tables}.
(** The hardware, as the processor with a given APIC id sees it; the bounds of
    the loops that wait for it. *)
Context (hwof : Z -> hardware) (fuel turns : nat).
(** What the build fixes: the addresses of the processors' tables, of the
    vectors, of mpenter and of entrypgdir, the code of entryother.S with the
    place of its gdtdesc, the code of the first process, and the path /. *)
Context (gdt_addr ts_addr : nat -> Z) (idt_addr : Z) (vectors : Z -> Z).
Context (mpenter_a entrypgdir_a : Z) (entry_code : list Z) (gdtdesc_a : Z) (initcode root : list Z).
(** The boot processor: its place in cpus and its APIC id. *)
Context (boot : nat) (boot_id : Z).

Definition kvmalloc : M machine unit :=
  d ← zoom pm_lens setupkvm;
  zoom seg_lens (modify (fun s => Segs (g_smp s) (g_cpus s) (g_idt s) d (g_ticks s)));;
  zoom seg_lens (switchkvm boot).

(** mpinit, with its accesses to the ports 0x22 and 0x23. *)
Definition mp_ports (imcr : Z) (l : log) (o : list (Z * Z)) : log :=
  foldl (fun l '(p, v) => EOut p (u8 v) :: (if p =? 0x23 then EIn p imcr :: l else l)) l o.
Definition mp_lens (imcr : Z) : lens dev mp_t :=
  Lens (fun d => Mp (d_mem d) (d_cpus d) (d_ioapicid d) (d_lapic d) [])
    (fun x d => with_log (mp_ports imcr (d_log d) (mp_out x))
                  (set_d_lapic (lapic x) (set_d_ioapicid (ioapicid x) (set_d_cpus (Mp.cpus x) d)))).
Definition start_mpinit : M dev unit :=
  l ← gets d_log;
  let imcr := u8 (hin (hardware := hwof boot_id) (EOut 0x22 0x70 :: l) 0x23) in
  zoom (mp_lens imcr) (mpinit imcr fuel).

(** pinit and fileinit. *)
Definition pinit : M machine unit := zoom dev_lens (modify (add_lock "ptable")).
Definition fileinit : M machine unit := zoom dev_lens (modify (add_lock "ftable")).

(** mpmain up to the call of scheduler, on the processor with index [c]. *)
Definition mpmain (c : nat) : M machine unit :=
  zoom dev_lens (modify (add_msg "cpu%d: starting %d"));;
  zoom seg_lens (idtinit idt_addr c);;
  modify (set_started c).

(** mpenter, on the processor with the APIC id [id]. *)
Definition mpenter (id : Z) : M machine unit :=
  c ← zoom dev_lens (cpuid (hw := hwof id) false);
  zoom seg_lens (switchkvm c);;
  zoom seg_lens (seginit gdt_addr c);;
  zoom dev_lens (lapicinit (hw := hwof id) fuel);;
  mpmain c.

(** What the processor [id] does when it has been told to start: the code at
    0x7000, and the function that it calls. *)
Definition run_ap (c : nat) (id : Z) : M machine unit :=
  d ← gets m_dev;
  m ← gets (fun s => ram (mem (m_k s)));
  match startup (d_lapic d) (d_log d) id with
  | None => mret tt
  | Some pa =>
    match entryother gdtdesc_a pa (reset m) with
    | OK _ e =>
      modify (add_ap c e);;
      if e_eip e =? mpenter_a then mpenter id else fault (e_eip e)
    | _ => nofuel
    end
  end.

(** while(c->started == 0) ; *)
Definition wait_started (c : nat) : M machine unit :=
  l ← gets m_started;
  if (default false (l !! c) : bool) then mret tt else nofuel.

Definition code : Z := P2V 0x7000.

(** The start of cpus[c]. *)
Definition start_cpu (c : nat) : M machine unit :=
  stack ← zoom pm_lens kalloc;
  zoom pm_lens (modify (set_ram (fun m => store32 m (code - 4) (u32 (stack + KSTACKSIZE)))));;
  zoom pm_lens (modify (set_ram (fun m => store32 m (code - 8) mpenter_a)));;
  zoom pm_lens (modify (set_ram (fun m => store32 m (code - 12) (V2P entrypgdir_a))));;
  ids ← gets (fun s => d_cpus (m_dev s));
  let id := default 0 (ids !! c) in
  zoom dev_lens (lapicstartap (hw := hwof boot_id) id (V2P code));;
  run_ap c id;;
  wait_started c.

(** The loop over cpus[c..c+n). *)
Fixpoint startothers_loop (c n : nat) : M machine unit :=
  match n with
  | O => mret tt
  | S n =>
    me ← zoom dev_lens (Apic.mycpu (hw := hwof boot_id) false);
    (if (c =? me)%nat then mret tt else start_cpu c);;
    startothers_loop (S c) n
  end.

Definition startothers : M machine unit :=
  zoom pm_lens (modify (set_ram (fun m => store_bytes m code entry_code)));;
  ids ← gets (fun s => d_cpus (m_dev s));
  startothers_loop 0 (length ids).

(** * main *)

Definition main_memory : M machine unit :=
  zoom pm_lens (kinit1 kend (P2V (4 * 1024 * 1024)));;
  kvmalloc.

Definition main_drivers : M machine unit :=
  zoom dev_lens start_mpinit;;
  zoom dev_lens (lapicinit (hw := hwof boot_id) fuel);;
  c ← zoom dev_lens (cpuid (hw := hwof boot_id) false);
  zoom seg_lens (seginit gdt_addr c);;
  zoom dev_lens picinit;;
  zoom dev_lens (ioapicinit (hw := hwof boot_id));;
  zoom dev_lens (consoleinit);;
  zoom dev_lens (uartinit (hw := hwof boot_id));;
  pinit;;
  zoom seg_lens (tvinit vectors);;
  kernel binit;;
  fileinit;;
  zoom dev_lens (ideinit (hw := hwof boot_id) fuel).

Definition main_devices : M machine unit := main_drivers;; startothers.

Definition main_user : M machine unit :=
  zoom pm_lens (kinit2 (P2V (4 * 1024 * 1024)) (P2V PHYSTOP));;
  kernel (userinit (I := fs_inodes turns) initcode root);;
  c ← zoom dev_lens (cpuid (hw := hwof boot_id) false);
  mpmain c.

Definition main : M machine unit := main_memory;; main_devices;; main_user.

End start.

(** * The tables of a processor *)

(** The flat segments of the kernel and of user code, and the register that
    points to them. *)
Record kernel_segs (x : hwcpu) (gdt_a : Z) : Prop := {
  sg_kcode : c_gdt x !! Z.to_nat SEG_KCODE = Some (SEG (Z.lor STA_X STA_R) 0 0xffffffff 0);
  sg_kdata : c_gdt x !! Z.to_nat SEG_KDATA = Some (SEG STA_W 0 0xffffffff 0);
  sg_ucode : c_gdt x !! Z.to_nat SEG_UCODE = Some (SEG (Z.lor STA_X STA_R) 0 0xffffffff DPL_USER);
  sg_udata : c_gdt x !! Z.to_nat SEG_UDATA = Some (SEG STA_W 0 0xffffffff DPL_USER);
  sg_gdtr : c_gdtr x = (47, gdt_a);
}.

(** What seginit makes of a processor. *)
Definition seginit_cpu (gdt_a : Z) (x : hwcpu) : hwcpu :=
  set_gdtr (load_pseudo (pseudo gdt_a (SEGDESC_SIZE * Z.of_nat NSEGS)))
    (set_gdt SEG_UDATA (SEG STA_W 0 0xffffffff DPL_USER) (set_gdt SEG_UCODE (SEG (Z.lor STA_X STA_R) 0 0xffffffff DPL_USER)
      (set_gdt SEG_KDATA (SEG STA_W 0 0xffffffff 0) (set_gdt SEG_KCODE (SEG (Z.lor STA_X STA_R) 0 0xffffffff 0) x)))).

Lemma seginit_run gdt_addr c s : seginit gdt_addr c s = OK tt (upd_cpu c (seginit_cpu (gdt_addr c)) s).
Proof.
  unfold seginit, lgdt. rewrite !bind_modify. unfold modify. f_equal. by rewrite !upd_cpu_upd.
Qed.

Lemma seginit_cpu_ok gdt_a x :
  0 <= gdt_a < 2 ^ 32 -> length (c_gdt x) = NSEGS -> kernel_segs (seginit_cpu gdt_a x) gdt_a.
Proof.
  intros Hg Hl. destruct x as [gdt ts g i tr cr]. simpl in Hl. unfold NSEGS in Hl.
  do 6 (destruct gdt as [|? gdt]; [done|]). destruct gdt; [|done].
  split; try done. cbn. apply load_pseudo_eq; [done|]. unfold SEGDESC_SIZE, NSEGS. lia.
Qed.

(** * The drivers in the machine *)

(** The registers of the I/O APIC and the variables of the drivers stay. *)
Record keeps (d d' : dev) : Prop := Keeps {
  ke_reg r : ioapic_reg (d_log d') r = ioapic_reg (d_log d) r;
  ke_lapic : d_lapic d' = d_lapic d;
  ke_cpus : d_cpus d' = d_cpus d;
  ke_uart : d_uart d' = d_uart d;
}.

#[local] Instance keeps_preorder : PreOrder keeps.
Proof. split; [by intros d; split|]. intros a b c [R1 L1 C1 U1] [R2 L2 C2 U2]. split; congruence. Qed.

Lemma keeps_redir d d' j : keeps d d' -> redir (d_log d') j = redir (d_log d) j.
Proof. intros K. unfold redir. by rewrite !(ke_reg _ _ K). Qed.

(** The machine with other devices. *)
Definition with_dev (d : dev) (s : machine) : machine := Mach (m_k s) d (m_seg s) (m_started s) (m_aps s).

Lemma put_dev d s : d_mem d = ram (mem (m_k s)) -> lput dev_lens d s = with_dev d s.
Proof. destruct s as [[[m km] ? ? ? ? ? ? ? ? ? ?] d0 sg st aps]. cbn. by intros ->. Qed.

(** Code of a driver that does not write to memory. *)
Lemma wp_dev {A} (m : M dev A) s (Q : A -> machine -> Prop) :
  wp m (Prelude.lget dev_lens s) (fun a d => d_mem d = ram (mem (m_k s)) /\ Q a (with_dev d s)) -> wp (zoom dev_lens m) s Q.
Proof. intros H. apply wp_zoom. eapply wp_mono; [exact H|]. intros a d [Hm HQ]. by rewrite put_dev. Qed.

Lemma frame_keeps s d : frame (Prelude.lget dev_lens s) d -> d_mem d = ram (mem (m_k s)) /\ keeps (m_dev s) d.
Proof. intros [R M L C U]. split; [done|]. by split. Qed.

(** Code that leaves the I/O APIC alone. *)
Lemma wp_dev_frame {A} (m : M dev A) s (Q : A -> machine -> Prop) :
  wp m (Prelude.lget dev_lens s) (fun a d => frame (Prelude.lget dev_lens s) d /\ (keeps (m_dev s) d -> Q a (with_dev d s))) ->
  wp (zoom dev_lens m) s Q.
Proof.
  intros H. apply wp_dev. eapply wp_mono; [exact H|]. intros a d [F HQ]. destruct (frame_keeps _ _ F). auto.
Qed.

Lemma wp_seg f s (Q : unit -> machine -> Prop) :
  Q tt (lput seg_lens (f (m_seg s)) s) -> wp (zoom seg_lens (modify f)) s Q.
Proof. intros H. by apply wp_zoom, wp_modify. Qed.

(** What a processor needs to run the code of the kernel: every processor
    reads its own id, and its commands are delivered. *)
Record platform (hwof : Z -> hardware) (ids : list Z) (a : Z) (k : nat) : Prop := {
  pf_nodup : NoDup ids;
  pf_range : Forall (fun id => 0 <= id < 256) ids;
  pf_apart : lapic_apart a;
  pf_id id : id ∈ ids -> forall l, Z.shiftr (u32 (hrd (hardware := hwof id) l (a + 4 * ID))) 24 = id;
  pf_deliver id : id ∈ ids -> forall l, delivered (hwof id) a k l;
}.

(** * The memory that the other processors start from *)

(** The words that startothers and lapicstartap write to. *)
Definition scratch (x : Z) : Prop := code - 12 <= x < code \/ P2V 0x467 <= x < P2V 0x467 + 4.

(** The page below the code, as entryother.S finds it. *)
Definition scratch_free (m m' : memory) : Prop := forall x, ~ scratch x -> load8 m' x = load8 m x.

Lemma scratch_low x : scratch x -> KERNBASE + 0x467 <= x < KERNBASE + 0x7000.
Proof. unfold scratch, code. change (P2V 0x7000) with (KERNBASE + 0x7000). change (P2V 0x467) with (KERNBASE + 0x467). lia. Qed.

Lemma store_scratch m b v : (forall x, b <= x < b + 4 -> scratch x) -> scratch_free m (store32 m b v).
Proof. intros Hb x Hx. apply load8_store32_ne. destruct (decide (b <= x < b + 4)); [by destruct Hx; apply Hb|lia]. Qed.

Lemma store16_scratch m b v : (forall x, b <= x < b + 2 -> scratch x) -> scratch_free m (store16 m b v).
Proof.
  intros Hb x Hx. unfold store16, load8, store8. destruct (Z.eqb_spec x (b + 1)) as [->|]; [destruct Hx; apply Hb; lia|].
  destruct (Z.eqb_spec x b) as [->|]; [destruct Hx; apply Hb; lia|done].
Qed.

Lemma scratch_free_trans m1 m2 m3 : scratch_free m1 m2 -> scratch_free m2 m3 -> scratch_free m1 m3.
Proof. intros H1 H2 x Hx. rewrite H2 by done. by apply H1. Qed.

(** The pages of the allocator are above. *)
Lemma free_list_scratch `{L : Link} p p' l :
  free_list p l -> scratch_free (ram p) (ram p') -> kmem p' = kmem p -> free_list p' l.
Proof.
  intros Hf Hs Hk. pose proof (free_list_valid _ _ Hf) as Hv. rewrite Forall_forall in Hv. destruct Hf as (Hc & Hn & Hl).
  unfold free_list. rewrite Hk. split; [|done]. eapply chain_ext; [|exact Hc]. intros x Hx.
  apply load32_ext. intros y Hy. apply Hs. intros Hsc%scratch_low.
  pose proof (valid_page_pos x (Hv x (proj2 (list_elem_of_In _ _) Hx))). unf. lia.
Qed.

(** A processor that runs mpenter. *)
Definition ap_cpu (gdt_a idt_a cr3 : Z) (x : hwcpu) : hwcpu :=
  set_idtr (load_pseudo (pseudo idt_a (GATE_SIZE * 256))) (seginit_cpu gdt_a (Seg.set_cr3 cr3 x)).

Section run.
Context (hwof : Z -> hardware) (ids : list Z) (a : Z) (k fuel : nat).
Context (P : platform hwof ids a k) (Hfuel : (k <= fuel)%nat).
Context (gdt_addr : nat -> Z) (idt_addr : Z).

Lemma cpuid_run id c s (Q : nat -> machine -> Prop) :
  ids !! c = Some id -> d_cpus (m_dev s) = ids -> d_lapic (m_dev s) = a ->
  (forall d, keeps (m_dev s) d -> Q c (with_dev d s)) -> wp (zoom dev_lens (cpuid (hw := hwof id) false)) s Q.
Proof.
  intros Hc Hd Hl HQ. apply wp_dev_frame.
  eapply wp_mono; [apply (mycpu_finds a (pf_apart _ _ _ _ P) id c)|].
  - apply (pf_id _ _ _ _ P). by eapply list_elem_of_lookup_2.
  - exact Hl.
  - change (NoDup (d_cpus (m_dev s))). rewrite Hd. apply P.
  - change (d_cpus (m_dev s) !! c = Some id). by rewrite Hd.
  - intros c' d [-> F]. auto.
Qed.

Lemma lapicinit_run id c s (Q : unit -> machine -> Prop) :
  ids !! c = Some id -> d_lapic (m_dev s) = a ->
  (forall d, keeps (m_dev s) d -> Q tt (with_dev d s)) -> wp (zoom dev_lens (lapicinit (hw := hwof id) fuel)) s Q.
Proof.
  intros Hc Hl HQ. apply wp_dev_frame. eapply wp_mono; [apply (lapicinit_frame a (pf_apart _ _ _ _ P) k); [|done|exact Hl]|].
  - intros l. apply (pf_deliver _ _ _ _ P). by eapply list_elem_of_lookup_2.
  - intros [] d F. auto.
Qed.

Lemma mpenter_run id c s :
  ids !! c = Some id -> d_cpus (m_dev s) = ids -> d_lapic (m_dev s) = a ->
  wp (mpenter hwof fuel gdt_addr idt_addr id) s (fun _ s' => exists d, keeps (m_dev s) d /\
    s' = Mach (m_k s) d (upd_cpu c (ap_cpu (gdt_addr c) idt_addr (V2P (g_kpgdir (m_seg s)))) (m_seg s))
           (<[c := true]> (m_started s)) (m_aps s)).
Proof.
  intros Hc Hd Hl. unfold mpenter. apply wp_bind. apply (cpuid_run id c); [done..|]. intros d1 K1.
  apply wp_bind, wp_zoom. unfold switchkvm, lcr3. apply wp_bind, wp_gets, wp_modify.
  apply wp_bind, wp_zoom. eapply wp_intro; [apply seginit_run|].
  apply wp_bind. apply (lapicinit_run id c); [done|by rewrite <- Hl; apply K1|]. intros d2 K2.
  unfold mpmain. apply wp_bind, wp_dev, wp_modify. split; [done|]. apply wp_bind, wp_zoom, wp_modify, wp_modify.
  eexists. split; [|by cbn; rewrite !upd_cpu_upd]. transitivity d1; [done|]. transitivity d2; [exact K2|done].
Qed.

(** * The start of one processor *)

Context (mpenter_a entrypgdir_a : Z) (entry_code : list Z) (gdtdesc_a g : Z).

(** The memory of the kernel has the code of entryother.S at 0x7000 with its
    descriptors in it, and entrypgdir. *)
Record entry_mem (m : memory) : Prop := {
  em_boot : boot_sector (fun pa => m (KERNBASE + pa)) gdtdesc_a g;
  em_place : 0x7000 <= gdtdesc_a /\ 0x7000 <= g /\ gdtdesc_a + 6 <= EXTMEM /\ g + 24 <= EXTMEM;
  em_table : entry_table (fun pa => m (KERNBASE + pa)) (V2P entrypgdir_a);
  em_high : EXTMEM <= V2P entrypgdir_a /\ V2P entrypgdir_a + 4096 <= 2 ^ 32;
}.

Lemma load8_phys (m : memory) pa : load8 (fun pa => m (KERNBASE + pa)) pa = load8 m (KERNBASE + pa).
Proof. done. Qed.

Lemma entry_mem_free m m' : entry_mem m -> scratch_free m m' -> entry_mem m'.
Proof.
  intros [(Hg & Hd & Hb) (P1 & P2 & P3 & P4) (T1 & T2 & T3) (H1 & H2)] Hs.
  assert (forall pa, 0x7000 <= pa -> load8 m' (KERNBASE + pa) = load8 m (KERNBASE + pa)) as He.
  { intros pa Hpa. apply Hs. intros Hx%scratch_low. lia. }
  split; [|done| |done].
  - split; [done|]. rewrite <- Hd, <- Hb. unfold bytes_at.
    split; apply list_fmap_ext; intros i x Hx; apply lookup_seq in Hx as [-> Hx]; rewrite !load8_phys; apply He; lia.
  - split; [done|]. split; [done|]. intros i Hi. rewrite <- T3 by done. apply load32_ext. intros x Hx. rewrite !load8_phys.
    apply He. unf. lia.
Qed.

(** What startothers leaves for the processor with stack [sp]. *)
Definition words_for (m : memory) (sp : Z) : memory :=
  store32 (store32 (store32 m (code - 4) sp) (code - 8) mpenter_a) (code - 12) (V2P entrypgdir_a).

Lemma words_for_free m sp : scratch_free m (words_for m sp).
Proof.
  unfold words_for. repeat (eapply scratch_free_trans; [|apply store_scratch; intros x Hx; left; lia]). by intros x Hx.
Qed.

Lemma load32_phys (m : memory) x : load32 (fun pa => m (KERNBASE + pa)) x = load32 m (KERNBASE + x).
Proof. unfold load32. rewrite !load8_phys. by rewrite !Z.add_assoc. Qed.

(** A processor when it calls mpenter: flat segments, the first page table,
    and a stack that ends at [sp]. *)
Record ap_early (e : early) (sp : Z) : Prop := {
  ae_flat : flat e;
  ae_map : entry_map e;
  ae_esp : e_esp e = sp;
  ae_eip : e_eip e = mpenter_a;
}.

Lemma entryother_starts m sp :
  entry_mem m -> 0 <= sp < 2 ^ 32 -> 0 <= mpenter_a < 2 ^ 32 ->
  load32 m (code - 4) = sp -> load32 m (code - 8) = mpenter_a -> load32 m (code - 12) = V2P entrypgdir_a ->
  exists e, entryother gdtdesc_a 0x7000 (reset m) = OK tt e /\ ap_early e sp.
Proof.
  intros [Hb _ Ht _] Hsp Hmp W1 W2 W3. change code with (KERNBASE + 0x7000) in *.
  assert (forall x, load32 (phys (reset m)) (0x7000 - x) = load32 m (KERNBASE + 0x7000 - x)) as Hl.
  { intros x. unfold reset, phys. cbn [e_dev d_mem]. rewrite load32_phys. f_equal. lia. }
  destruct (entryother_run gdtdesc_a 0x7000 g (reset m) Hb) as (e & E & F & M & Es & Ei).
  { rewrite Hl, W3. exact Ht. }
  exists e. split; [done|]. split; [done|done|by rewrite Es, Hl|by rewrite Ei, Hl].
Qed.

Lemma startup_found l id v1 v2 :
  0 <= id < 256 ->
  startup a (ERd (a + 4 * ID) v2 :: EWr (a + 4 * ICRLO) (u32 (Z.lor STARTUP (Z.shiftr (V2P code) 12)))
    :: ERd (a + 4 * ID) v1 :: EWr (a + 4 * ICRHI) (u32 (Z.shiftl id 24)) :: l) id = Some 0x7000.
Proof.
  intros Hid. unfold startup. cbn [last_ipi]. rewrite Z.eqb_refl. cbn [icr_hi]. rewrite Z.eqb_refl.
  rewrite Z.shiftl_mul_pow2, u32_id by lia. rewrite Z.div_mul by lia. by rewrite Z.eqb_refl.
Qed.

Context `{L : Link} (boot_id : Z).
Notation AP c s := (ap_cpu (gdt_addr c) idt_addr (V2P (g_kpgdir (m_seg s)))).

Lemma run_ap_run c id sp s :
  ids !! c = Some id -> d_cpus (m_dev s) = ids -> d_lapic (m_dev s) = a -> entry_mem (ram (mem (m_k s))) ->
  0 <= sp < 2 ^ 32 -> 0 <= mpenter_a < 2 ^ 32 -> startup a (d_log (m_dev s)) id = Some 0x7000 ->
  load32 (ram (mem (m_k s))) (code - 4) = sp -> load32 (ram (mem (m_k s))) (code - 8) = mpenter_a ->
  load32 (ram (mem (m_k s))) (code - 12) = V2P entrypgdir_a ->
  wp (run_ap hwof fuel gdt_addr idt_addr mpenter_a gdtdesc_a c id) s (fun _ s' => exists d e, keeps (m_dev s) d /\ ap_early e sp /\
    s' = Mach (m_k s) d (upd_cpu c (AP c s) (m_seg s)) (<[c := true]> (m_started s)) (m_aps s ++ [(c, e)])).
Proof.
  intros Hc Hd Hl Hm Hsp Hmp Hst W1 W2 W3. unfold run_ap. do 2 (apply wp_bind, wp_gets). rewrite Hl, Hst.
  destruct (entryother_starts _ sp Hm Hsp Hmp W1 W2 W3) as (e & E & He). rewrite E.
  apply wp_bind, wp_modify. rewrite (ae_eip _ _ He), Z.eqb_refl.
  eapply wp_mono; [apply (mpenter_run id c (add_ap c e s)); done|]. intros [] s' (d & K & ->). exists d, e. done.
Qed.

Lemma start_cpu_run c id s x fl :
  ids !! c = Some id -> d_cpus (m_dev s) = ids -> d_lapic (m_dev s) = a -> entry_mem (ram (mem (m_k s))) ->
  0 <= mpenter_a < 2 ^ 32 -> free_list (mem (m_k s)) (x :: fl) -> (c < length (m_started s))%nat ->
  wp (start_cpu hwof fuel gdt_addr idt_addr mpenter_a entrypgdir_a gdtdesc_a boot_id c) s (fun _ s' => exists d e p,
    keeps (m_dev s) d /\ ap_early e (x + KSTACKSIZE) /\ free_list p fl /\ scratch_free (ram (mem (m_k s))) (ram p) /\
    s' = Mach (put_mem p (m_k s)) d (upd_cpu c (AP c s) (m_seg s)) (<[c := true]> (m_started s)) (m_aps s ++ [(c, e)])).
Proof.
  intros Hc Hd Hl Hm Hmp Hf Hst. unfold start_cpu. apply wp_bind, wp_zoom.
  destruct (kalloc_run _ _ Hf) as [Ek Hf1]. eapply wp_intro; [exact Ek|]. cbn [hd tl] in *.
  set (p1 := set_freelist _ _) in *. pose proof (free_list_valid _ _ Hf) as [Hx _]%Forall_cons. apply valid_page_pos in Hx.
  do 3 (apply wp_bind, wp_zoom, wp_modify). apply wp_bind, wp_gets. cbv zeta.
  set (sp := x + KSTACKSIZE). assert (0 <= sp < 2 ^ 32) as Hsp by (unfold sp; unf; lia).
  match goal with |- wp _ ?s1 _ => change s1 with (lput pm_lens (Pmem (words_for (ram (mem (m_k s))) (u32 sp)) (kmem p1)) s) end.
  rewrite (u32_id sp Hsp). set (p2 := Pmem _ _). change (d_cpus (m_dev (lput pm_lens p2 s))) with (d_cpus (m_dev s)).
  rewrite Hd, Hc. change (default 0 (Some id)) with id. apply wp_bind, wp_zoom.
  destruct (lapicstartap_run (hw := hwof boot_id) a (pf_apart _ _ _ _ P) id (V2P code) (Prelude.lget dev_lens (lput pm_lens p2 s)) Hl)
    as (l & v1 & v2 & El & Hreg). eapply wp_intro; [exact El|]. clear El.
  set (p3 := Pmem (store16 (store16 (ram p2) (P2V 0x467) 0) (P2V 0x467 + 2) (Z.shiftr (V2P code) 4)) (kmem p1)).
  set (d3 := set_d_mem _ (with_log _ _)).
  match goal with |- wp _ ?s1 _ => change s1 with (Mach (put_mem p3 (m_k s)) d3 (m_seg s) (m_started s) (m_aps s)) end.
  assert (keeps (m_dev s) d3) as K3.
  { split; try done. intros r. unfold d3. cbn [d_log set_d_mem with_log]. by rewrite !lapicw_reg by (done || apply P). }
  assert (scratch_free (ram p2) (ram p3)) as S3.
  { eapply scratch_free_trans; apply store16_scratch; intros y Hy; right; lia. }
  assert (scratch_free (ram (mem (m_k s))) (ram p3)) as S by (eapply scratch_free_trans; [apply words_for_free|exact S3]).
  assert (forall k v, (k = 4 \/ k = 8 \/ k = 12) -> load32 (ram p2) (code - k) = v -> load32 (ram p3) (code - k) = v) as Hw.
  { intros q v Hq <-. apply load32_ext. intros y Hy. unfold p3, store16, load8, store8. cbn [ram].
    change (P2V 0x467) with (KERNBASE + 0x467) in *. change code with (KERNBASE + 0x7000) in *. by rewrite !(proj2 (Z.eqb_neq _ _)) by lia. }
  apply wp_bind. eapply wp_mono.
  { apply (run_ap_run c id sp); cbn [m_dev m_k mem put_mem]; try done.
    - by eapply entry_mem_free.
    - unfold d3. cbn [d_log set_d_mem with_log]. apply startup_found. pose proof (pf_range _ _ _ _ P) as Hr.
      rewrite Forall_lookup in Hr. by eapply Hr.
    - apply Hw; [auto|]. unfold p2, words_for. cbn [ram]. rewrite !load32_store32_ne, load32_store32_eq by lia. by apply u32_id.
    - apply Hw; [auto|]. unfold p2, words_for. cbn [ram]. rewrite load32_store32_ne, load32_store32_eq by lia. by apply u32_id.
    - apply Hw; [auto|]. unfold p2, words_for. cbn [ram]. rewrite load32_store32_eq. apply u32_id, u32_range. }
  intros [] s' (d & e & K & He & ->). unfold wait_started. apply wp_bind, wp_gets. cbn [m_started].
  rewrite list_lookup_insert_eq by done. apply wp_ret. exists d, e, p3.
  split; [by transitivity d3|]. split; [done|]. split; [|done].
  eapply (free_list_scratch p1); [exact Hf1|exact S|done].
Qed.

(** * All the processors *)

(** The number of processors before [c] that are not the boot processor. *)
Definition before (boot c : nat) : nat := if (boot <? c)%nat then (c - 1)%nat else c.

(** From [s0], the processors below [c] but the boot processor have been
    started: their tables, their stacks from the free list [fl], and
    cpu->started; the boot processor and the others are as before. *)
Record progress (boot : nat) (fl : list Z) (s0 : machine) (c : nat) (s : machine) : Prop := {
  pr_keeps : keeps (m_dev s0) (m_dev s);
  pr_mem : exists p, m_k s = put_mem p (m_k s0) /\ free_list p (drop (before boot c) fl) /\
    scratch_free (ram (mem (m_k s0))) (ram p);
  pr_seg : g_idt (m_seg s) = g_idt (m_seg s0) /\ g_kpgdir (m_seg s) = g_kpgdir (m_seg s0);
  pr_cpu i : g_cpus (m_seg s) !! i = (if bool_decide (i < c)%nat && bool_decide (i <> boot) then
    ap_cpu (gdt_addr i) idt_addr (V2P (g_kpgdir (m_seg s0))) else id) <$> g_cpus (m_seg s0) !! i;
  pr_len : length (m_started s) = length (m_started s0);
  pr_started i : (i < c)%nat -> i <> boot -> m_started s !! i = Some true;
  pr_early i : (i < c)%nat -> i <> boot ->
    exists e sp, (i, e) ∈ m_aps s /\ fl !! before boot i = Some sp /\ ap_early e (sp + KSTACKSIZE);
}.

Lemma progress_0 boot fl s0 : free_list (mem (m_k s0)) fl -> progress boot fl s0 0 s0.
Proof.
  intros Hf. split; try done; try lia.
  - exists (mem (m_k s0)). split; [by destruct s0 as [[]]|]. split; [|done]. by rewrite drop_0.
  - intros i. rewrite bool_decide_eq_false_2 by lia. cbn. by destruct (g_cpus (m_seg s0) !! i).
Qed.

Lemma progress_boot boot fl s0 s d :
  progress boot fl s0 boot s -> keeps (m_dev s) d -> progress boot fl s0 (S boot) (with_dev d s).
Proof.
  intros [K M G C Ln St Ea] Kd. split; cbn [m_k m_dev m_seg m_started m_aps with_dev]; try done.
  - by transitivity (m_dev s).
  - destruct M as (p & E & Hf & Hs). exists p. split; [done|]. split; [|done].
    replace (before boot (S boot)) with (before boot boot); [done|]. unfold before.
    rewrite (proj2 (Nat.ltb_ge _ _)), (proj2 (Nat.ltb_lt _ _)) by lia. lia.
  - intros i. rewrite C. do 2 f_equal. destruct (decide (i = boot)) as [->|Hne].
    + by rewrite (bool_decide_eq_false_2 (boot <> boot)), !andb_false_r by lia.
    + by rewrite (bool_decide_ext (i < S boot)%nat (i < boot)%nat) by lia.
  - intros i Hi Hne. apply St; [lia|done].
  - intros i Hi Hne. apply Ea; [lia|done].
Qed.

Lemma before_S boot c : c <> boot -> before boot (S c) = S (before boot c).
Proof. intros Hne. unfold before. destruct (Nat.ltb_spec boot (S c)), (Nat.ltb_spec boot c); lia. Qed.

Lemma progress_other boot fl s0 c s d e p x :
  progress boot fl s0 c s -> c <> boot -> (c < length (m_started s))%nat -> fl !! before boot c = Some x ->
  keeps (m_dev s) d -> ap_early e (x + KSTACKSIZE) -> free_list p (drop (S (before boot c)) fl) ->
  scratch_free (ram (mem (m_k s))) (ram p) ->
  progress boot fl s0 (S c) (Mach (put_mem p (m_k s)) d (upd_cpu c (AP c s) (m_seg s)) (<[c := true]> (m_started s)) (m_aps s ++ [(c, e)])).
Proof.
  intros [K M [G1 G2] C Ln St Ea] Hne Hc Hx Kd He Hf Hs. destruct M as (p0 & Ep & _ & Hs0).
  split; cbn [m_k m_dev m_seg m_started m_aps].
  - by transitivity (m_dev s).
  - exists p. split; [by rewrite Ep|]. rewrite before_S by done. split; [done|]. eapply scratch_free_trans; [exact Hs0|].
    by rewrite Ep in Hs.
  - done.
  - intros i. cbn [upd_cpu g_cpus]. rewrite G2. destruct (decide (i = c)) as [->|Hic].
    + rewrite list_lookup_alter_eq, C, (bool_decide_eq_false_2 (c < c)%nat), (bool_decide_eq_true_2 (c < S c)%nat),
        (bool_decide_eq_true_2 (c <> boot)) by (done || lia). cbn. by destruct (g_cpus (m_seg s0) !! c).
    + rewrite list_lookup_alter_ne, C by done. by rewrite (bool_decide_ext (i < S c)%nat (i < c)%nat) by lia.
  - by rewrite length_insert.
  - intros i Hi Hib. destruct (decide (i = c)) as [->|Hic]; [by apply list_lookup_insert_eq|].
    rewrite list_lookup_insert_ne by done. apply St; [lia|done].
  - intros i Hi Hib. destruct (decide (i = c)) as [->|Hic].
    + exists e, x. split; [|done]. apply elem_of_app. right. by apply list_elem_of_singleton.
    + destruct (Ea i) as (e' & sp & He' & Hr); [lia|done|]. exists e', sp. split; [|done]. apply elem_of_app. by left.
Qed.

Lemma startothers_loop_run boot fl s0 n c s :
  ids !! boot = Some boot_id -> d_cpus (m_dev s0) = ids -> d_lapic (m_dev s0) = a -> entry_mem (ram (mem (m_k s0))) ->
  0 <= mpenter_a < 2 ^ 32 -> (length ids <= length fl)%nat -> (length ids <= length (m_started s0))%nat ->
  progress boot fl s0 c s -> (c + n = length ids)%nat ->
  wp (startothers_loop hwof fuel gdt_addr idt_addr mpenter_a entrypgdir_a gdtdesc_a boot_id c n) s
    (fun _ s' => progress boot fl s0 (length ids) s').
Proof.
  intros Hb Hd Hl Hm Hmp Hfl Hst. revert c s. induction n as [|n IH]; intros c s Hp Hn.
  { replace (length ids) with c by lia. by apply wp_ret. }
  cbn [startothers_loop]. pose proof Hp as [K M [G1 G2] C Ln St Ea].
  apply wp_bind. change (Apic.mycpu (hw := hwof boot_id) false) with (cpuid (hw := hwof boot_id) false).
  apply (cpuid_run boot_id boot); [done|by rewrite (ke_cpus _ _ K)|by rewrite (ke_lapic _ _ K)|]. intros d Kd.
  apply wp_bind. destruct (Nat.eqb_spec c boot) as [->|Hne].
  { apply wp_ret. apply IH; [by apply progress_boot|lia]. }
  destruct M as (p & Ep & Hf & Hs). assert (before boot c < length fl)%nat as Hlt.
  { unfold before. destruct (Nat.ltb_spec boot c); lia. }
  destruct (lookup_lt_is_Some_2 fl _ Hlt) as [x Hx]. destruct (lookup_lt_is_Some_2 ids c ltac:(lia)) as [id Hid].
  rewrite (drop_S _ _ _ Hx) in Hf.
  eapply wp_mono.
  { apply (start_cpu_run c id (with_dev d s) x (drop (S (before boot c)) fl)); cbn [m_k m_dev m_started with_dev]; try done.
    - by rewrite (ke_cpus _ _ Kd), (ke_cpus _ _ K).
    - by rewrite (ke_lapic _ _ Kd), (ke_lapic _ _ K).
    - rewrite Ep. by eapply entry_mem_free.
    - by rewrite Ep.
    - lia. }
  intros [] s' (d' & e & p' & K' & He & Hf' & Hs' & ->). apply IH; [|lia].
  apply (progress_other boot fl s0 c s d' e p' x); try done; [lia|by transitivity d].
Qed.

End run.

(** * main up to the start of the other processors *)

(** Which interrupts arrive: those of the keyboard and of the serial port, if
    it is there, at the first processor, those of the disk at the last. *)
Definition routes (n ncpu : Z) (d : dev) : Prop := forall j, 0 <= j <= n ->
  redir (d_log d) j = if j =? IRQ_IDE then line_on IRQ_IDE (ncpu - 1)
    else if d_uart d && (j =? IRQ_COM1) then line_on IRQ_COM1 0
    else if j =? IRQ_KBD then line_on IRQ_KBD 0 else line_off j.

Lemma wp_dev_others {A} (m : M dev A) s (R : A -> dev -> Prop) (Q : A -> machine -> Prop) :
  wp m (Prelude.lget dev_lens s) (fun a d => others (Prelude.lget dev_lens s) d /\ R a d) ->
  (forall a d, d_lapic d = d_lapic (m_dev s) -> d_cpus d = d_cpus (m_dev s) -> d_uart d = d_uart (m_dev s) -> R a d ->
     Q a (with_dev d s)) ->
  wp (zoom dev_lens m) s Q.
Proof.
  intros H HQ. apply wp_dev. eapply wp_mono; [exact H|]. intros x d [(O1 & O2 & O3 & O4) HR]. split; [done|]. by apply HQ.
Qed.

Lemma wp_binit s (Q : unit -> machine -> Prop) :
  (forall r, Q tt (lput k_lens (put_fs r (m_k s)) s)) -> wp (kernel binit) s Q.
Proof. intros H. apply H. Qed.

Lemma start_mpinit_run hwof fuel boot_id s conf mp l :
  mpconfig (d_mem s) = Some (conf, mp) -> entries_at (d_mem s) (conf + MPCONF_SIZE) (conf + conf_length (d_mem s) conf) l ->
  (length l < fuel)%nat -> d_cpus s = [] ->
  wp (start_mpinit hwof fuel boot_id) s (fun _ d => d_mem d = d_mem s /\ d_cpus d = take NCPU (proc_ids l) /\
    d_lapic d = conf_lapicaddr (d_mem s) conf /\ d_uart d = d_uart s).
Proof.
  intros Hc He Hf Hd. unfold start_mpinit. apply wp_bind, wp_gets. cbv zeta. set (imcr := u8 _). apply wp_zoom.
  eapply wp_intro.
  { cbn [Prelude.lget mp_lens]. rewrite Hd. by apply (mpinit_table (d_mem s) conf mp l). }
  done.
Qed.

Section devices.
Context (hwof : Z -> hardware) (ids : list Z) (a : Z) (k fuel : nat).
Context (P : platform hwof ids a k) (Hfuel : (k <= fuel)%nat).
Context (boot : nat) (boot_id : Z) (Hboot : ids !! boot = Some boot_id).
Context (n : Z) (Hlines : ioapic_lines (hwof boot_id) n).
Context (img : drives) (Hdisk : controller (hwof boot_id) img k).
Context (gdt_addr : nat -> Z) (idt_addr : Z) (vectors : Z -> Z).

Lemma main_drivers_run s conf mp l :
  let m := ram (mem (m_k s)) in
  mpconfig m = Some (conf, mp) -> entries_at m (conf + MPCONF_SIZE) (conf + conf_length m conf) l -> (length l < fuel)%nat ->
  ids = take NCPU (proc_ids l) -> a = conf_lapicaddr m conf -> d_cpus (m_dev s) = [] -> d_uart (m_dev s) = false ->
  length (g_idt (m_seg s)) = 256%nat ->
  wp (main_drivers hwof fuel gdt_addr vectors boot_id) s (fun _ s' => exists r d idt, routes n (Z.of_nat (length ids)) d /\ d_cpus d = ids /\ d_lapic d = a /\
    (forall i, 0 <= i < 256 -> idt !! Z.to_nat i = Some (trap_gate vectors i)) /\
    s' = Mach (put_fs r (m_k s)) d
      (let g := upd_cpu boot (seginit_cpu (gdt_addr boot)) (m_seg s) in Segs (g_smp g) (g_cpus g) idt (g_kpgdir g) true)
      (m_started s) (m_aps s)).
Proof.
  intros m Hc He Hf Hids Ha Hd Hu Hidt. unfold main_drivers.
  apply wp_bind, wp_dev. eapply wp_mono; [by apply (start_mpinit_run hwof fuel boot_id _ conf mp l)|].
  intros [] d1 (M1 & C1 & L1 & U1). split; [done|]. rewrite <- Hids in C1. change (d_lapic d1 = conf_lapicaddr m conf) in L1. rewrite <- Ha in L1.
  apply wp_bind, (lapicinit_run hwof ids a k fuel P Hfuel boot_id boot); [done|done|]. intros d2 [_ L2 C2 U2].
  apply wp_bind, (cpuid_run hwof ids a k P boot_id boot); [done|cbn in *; congruence..|]. intros d3 [_ L3 C3 U3].
  apply wp_bind, wp_zoom. eapply wp_intro; [apply seginit_run|].
  apply wp_bind, wp_dev_frame. eapply wp_mono; [apply framed_picinit|]. intros [] d4 F4. split; [exact F4|]. intros [_ L4 C4 U4]. clear F4.
  apply wp_bind. eapply wp_dev_others; [by apply (ioapicinit_redir n)|]. intros [] d5 L5 C5 U5 R5.
  apply wp_bind. eapply wp_dev_others; [by apply consoleinit_redir|]. intros [] d6 L6 C6 U6 R6.
  cbn [m_dev with_dev lput seg_lens] in *.
  apply wp_bind, wp_dev. eapply wp_mono; [apply uartinit_redir; cbn in *; congruence|]. intros [] d7 (M7 & L7 & C7 & R7).
  split; [exact M7|]. apply wp_bind, wp_dev, wp_modify. split; [done|].
  apply wp_bind, wp_zoom. edestruct (tvinit_run vectors) as (idt & Et & _ & Hi); [|eapply wp_intro; [exact Et|]]; [exact Hidt|]. clear Et.
  apply wp_bind, wp_binit. intros r. apply wp_bind, wp_dev, wp_modify. split; [done|].
  eapply wp_dev_others; [by apply (ideinit_redir img k)|]. intros [] d8 L8 C8 U8 R8.
  cbn in L7, C7, L8, C8, U8. assert (d_cpus d7 = ids) as Cids by congruence.
  exists r, d8, idt. split; [|split; [congruence|split; [congruence|split; [exact Hi|reflexivity]]]].
  intros j Hj. etransitivity; [exact (R8 j)|].
  change ((if j =? IRQ_IDE then line_on IRQ_IDE (Z.of_nat (length (d_cpus d7)) - 1) else redir (d_log d7) j) =
    (if j =? IRQ_IDE then line_on IRQ_IDE (Z.of_nat (length ids) - 1)
     else if d_uart d8 && (j =? IRQ_COM1) then line_on IRQ_COM1 0
     else if j =? IRQ_KBD then line_on IRQ_KBD 0 else line_off j)).
  rewrite Cids, R7, U8. destruct (j =? IRQ_IDE); [done|]. destruct (d_uart d7 && (j =? IRQ_COM1)); [done|].
  etransitivity; [exact (R6 j)|]. destruct (j =? IRQ_KBD); [done|]. by apply R5.
Qed.

Context `{L : Link} (mpenter_a entrypgdir_a : Z) (entry_code : list Z) (gdtdesc_a g : Z).

(** A processor when main has started the others: its segments; and, for the
    others, the page table and the vectors of the kernel, cpu->started, and
    the stack they came with. *)
Record cpu_ready (s s' : machine) (fl : list Z) (c : nat) : Prop := {
  cr_segs : exists x, g_cpus (m_seg s') !! c = Some x /\ kernel_segs x (gdt_addr c) /\
    (c <> boot -> c_cr3 x = V2P (g_kpgdir (m_seg s)) /\ c_idtr x = (2047, idt_addr));
  cr_started : c <> boot -> m_started s' !! c = Some true;
  cr_early : c <> boot -> exists e sp, (c, e) ∈ m_aps s' /\ fl !! before boot c = Some sp /\
    ap_early mpenter_a e (sp + KSTACKSIZE);
}.

Lemma free_list_copy p l : Z.of_nat (length entry_code) <= EXTMEM - 0x7000 ->
  free_list p l -> free_list (set_ram (fun m => store_bytes m code entry_code) p) l.
Proof.
  intros Hlen Hf. pose proof (free_list_valid _ _ Hf) as Hv. rewrite Forall_forall in Hv. destruct Hf as (Hc & Hn & Hl).
  split; [|done]. eapply chain_ext; [|exact Hc]. intros x Hx. apply load32_ext. intros y Hy. cbn [ram set_ram].
  rewrite load8_store_bytes, bool_decide_eq_false_2; [done|].
  pose proof (valid_page_pos x (Hv x (proj2 (list_elem_of_In _ _) Hx))). change code with (KERNBASE + 0x7000). unf. lia.
Qed.

(** C9: main, from the search for processors to the start of the others: it
    finds the processors of the firmware's table, all trap gates are set, the
    interrupts of the keyboard, the serial port and the disk are routed and
    all other lines are off; every processor has the segments of the kernel,
    and every other processor runs on a stack of its own from the free list,
    entered mpenter with the first page table, and now uses the kernel's page
    table and vectors. *)
Theorem main_starts_processors s conf mp l fl :
  let m := ram (mem (m_k s)) in
  mpconfig m = Some (conf, mp) -> entries_at m (conf + MPCONF_SIZE) (conf + conf_length m conf) l -> (length l < fuel)%nat ->
  ids = take NCPU (proc_ids l) -> a = conf_lapicaddr m conf -> d_cpus (m_dev s) = [] -> d_uart (m_dev s) = false ->
  length (g_idt (m_seg s)) = 256%nat ->
  (forall c, (c < length ids)%nat -> exists x, g_cpus (m_seg s) !! c = Some x /\ length (c_gdt x) = NSEGS) ->
  (forall c, (c < length ids)%nat -> 0 <= gdt_addr c < 2 ^ 32) -> 0 <= idt_addr < 2 ^ 32 -> 0 <= mpenter_a < 2 ^ 32 ->
  (length ids <= length (m_started s))%nat -> free_list (mem (m_k s)) fl -> (length ids <= length fl)%nat ->
  Z.of_nat (length entry_code) <= EXTMEM - 0x7000 -> entry_mem entrypgdir_a gdtdesc_a g (store_bytes m code entry_code) ->
  exists s', main_devices hwof fuel gdt_addr idt_addr vectors mpenter_a entrypgdir_a entry_code gdtdesc_a boot_id s = OK tt s' /\
    d_cpus (m_dev s') = ids /\ routes n (Z.of_nat (length ids)) (m_dev s') /\
    (forall i, 0 <= i < 256 -> g_idt (m_seg s') !! Z.to_nat i = Some (trap_gate vectors i)) /\
    (forall c, (c < length ids)%nat -> cpu_ready s s' fl c) /\
    free_list (mem (m_k s')) (drop (length ids - 1) fl).
Proof.
  intros m Hc He Hf Hids Ha Hd Hu Hidt Hcpus Hga Hia Hma Hst Hfl Hlen Hcode Hem.
  destruct (wp_elim _ _ _ (main_drivers_run s conf mp l Hc He Hf Hids Ha Hd Hu Hidt)) as ([] & s1 & E1 & r & d & idt & Hr & Cd & Ld & Hi & ->).
  set (s1 := Mach _ _ _ _ _) in *. set (s2 := lput pm_lens (set_ram (fun m => store_bytes m code entry_code) (mem (m_k s1))) s1).
  assert (free_list (mem (m_k s2)) fl) as Hfl2 by (by apply free_list_copy).
  destruct (wp_elim _ _ _ (startothers_loop_run hwof ids a k fuel P Hfuel gdt_addr idt_addr mpenter_a entrypgdir_a gdtdesc_a g
    boot_id boot fl s2 (length ids) 0 s2 Hboot Cd Ld Hem Hma Hlen Hst ltac:(by eapply progress_0) eq_refl)) as ([] & s' & E2 & Pr).
  exists s'. split.
  { unfold main_devices. rewrite (bind_OK _ _ _ _ _ E1). unfold startothers. rewrite (bind_OK _ _ _ tt s2) by done.
    rewrite bind_gets. change (d_cpus (m_dev s2)) with (d_cpus d). by rewrite Cd. }
  destruct Pr as [K (p & Ep & Hp & _) [G1 _] C _ St Ea].
  split; [by rewrite (ke_cpus _ _ K)|]. split.
  { intros j Hj. rewrite (keeps_redir _ _ _ K), (ke_uart _ _ K). by apply Hr. }
  split; [by rewrite G1|]. assert (before boot (length ids) = length ids - 1)%nat as Hb.
  { apply lookup_lt_Some in Hboot. unfold before. by rewrite (proj2 (Nat.ltb_lt _ _) Hboot). }
  split; [|by rewrite Ep, <- Hb].
  intros c Hlt. split; [|by apply St|by apply Ea]. destruct (Hcpus c Hlt) as (x & Hx & Hg).
  rewrite C, (bool_decide_eq_true_2 (c < length ids)%nat) by done. change (g_cpus (m_seg s2)) with (alter (seginit_cpu (gdt_addr boot)) boot (g_cpus (m_seg s))).
  destruct (decide (c = boot)) as [->|Hne].
  - rewrite bool_decide_eq_false_2, list_lookup_alter_eq, Hx by (intros ?; done). eexists. split; [reflexivity|].
    split; [apply seginit_cpu_ok; [by apply Hga|done]|done].
  - rewrite bool_decide_eq_true_2, list_lookup_alter_ne, Hx by done. eexists. split; [reflexivity|]. split.
    + destruct (seginit_cpu_ok (gdt_addr c) (Seg.set_cr3 (V2P (g_kpgdir (m_seg s))) x) (Hga c Hlt) Hg). by split.
    + intros _. split; [done|]. cbn. apply load_pseudo_eq; [done|]. unfold GATE_SIZE. lia.
Qed.

End devices.

(** * A machine with two processors *)

Definition two_code : list Z := replicate 32 0 ++ boot_gdt ++ gdtdesc 0x7020.
Definition two_mem : memory := fun x =>
  if x <? KERNBASE + EXTMEM then sample_firmware MPBUS 132 x
  else if (KERNBASE + 0x104000 <=? x) && (x <? KERNBASE + 0x105000) then
    (if (x =? KERNBASE + 0x104000) || (x =? KERNBASE + 0x1040c8) then 0x83 else 0)
  else threaded [pg 1; pg 2] x.

Definition two_hw (id : Z) : hardware :=
  Hardware (fun _ _ => 0x40) (@hinl (plain_disk (fun _ _ => 0)))
    (fun _ x => if x =? 0xFEE00000 + 4 * ID then id * 2 ^ 24 else if x =? IOAPIC_DATA then 0x170000 else 0).

Definition two_machine : machine :=
  Mach (Kst (Pmem two_mem (Kmem false false (pg 1))) [proc0] 1 None [] ∅ 0 [] [] None
      (Fsys ∅ None false true [] [] [] (Log 0 0 0 false 0 (LH 0 [])) (SB 1000 941 200 30 2 32 58) [] (Cons true [] 0 0 0 [] 0 [] 0)))
    (MkDev (fun _ => 0) [] 0 0 [] false false false [] [] [])
    (Segs (Smp [cpu0; cpu0] []) [hwcpu0; hwcpu0] (replicate 256 gate0) (KERNBASE + 0x300000) false)
    [false; false] [].

Lemma two_platform : platform two_hw [0; 1] 0xFEE00000 1.
Proof.
  split.
  - apply (bool_decide_unpack _). by vm_compute.
  - repeat constructor; lia.
  - split; [lia|]. right. by vm_compute.
  - intros id Hid l. assert (id = 0 \/ id = 1) as [-> | ->] by set_solver; by vm_compute.
  - intros id Hid l. by left.
Qed.

Lemma two_free : free_list (L := sample_link) (mem (m_k two_machine)) [pg 1; pg 2].
Proof.
  split; [|split; [apply (bool_decide_unpack _); by vm_compute|done]]. repeat split; by vm_compute.
Qed.

Lemma two_entry : entry_mem (KERNBASE + 0x104000) 0x7038 0x7020 (store_bytes two_mem code two_code).
Proof.
  split.
  - split; [lia|]. split; by vm_compute.
  - unf. lia.
  - split; [done|]. split; [by vm_compute|]. intros i Hi.
    assert (forallb (fun i => load32 (fun pa => store_bytes two_mem code two_code (KERNBASE + pa)) (V2P (KERNBASE + 0x104000) + 4 * i)
      =? entrypgdir !!! Z.to_nat i) (seqZ 0 1024) = true) as H by by vm_compute.
    rewrite List.forallb_forall in H. apply Z.eqb_eq, H, list_elem_of_In, elem_of_seqZ. lia.
  - by vm_compute.
Qed.

Lemma main_starts_processors_witness :
  exists s', main_devices two_hw 10 (fun c => KERNBASE + 0x110000 + 48 * Z.of_nat c) (KERNBASE + 0x111000)
      (fun i => KERNBASE + 0x112000 + 16 * i) (KERNBASE + 0x113000) (KERNBASE + 0x104000) two_code 0x7038 0 two_machine = OK tt s' /\
    d_cpus (m_dev s') = [0; 1] /\ m_started s' !! 1%nat = Some true.
Proof.
  destruct (main_starts_processors (L := sample_link) two_hw [0; 1] 0xFEE00000 1 10 two_platform ltac:(lia) 0 0 eq_refl 23
    ltac:(done) (fun _ _ => 0) ltac:(split; [intros l; by left|done]) (fun c => KERNBASE + 0x110000 + 48 * Z.of_nat c)
    (KERNBASE + 0x111000) (fun i => KERNBASE + 0x112000 + 16 * i) (KERNBASE + 0x113000) (KERNBASE + 0x104000) two_code 0x7038 0x7020
    two_machine (P2V 0x1000) (P2V 0xF0000) [EProc 0; EProc 1; EIoapic 2; EOther MPBUS] [pg 1; pg 2]) as (s' & E & H1 & _ & _ & H2 & _).
  - by vm_compute.
  - vm_compute. repeat split; by left.
  - simpl. lia.
  - done.
  - by vm_compute.
  - done.
  - done.
  - done.
  - intros [|[|c]] Hc; [by exists hwcpu0..|simpl in Hc; lia].
  - intros c Hc. simpl in Hc. unf. lia.
  - unf. lia.
  - unf. lia.
  - done.
  - exact two_free.
  - done.
  - by vm_compute.
  - exact two_entry.
  - exists s'. split; [exact E|]. split; [exact H1|]. by apply (H2 1%nat ltac:(simpl; lia)).
Defined.
