(* ===== verification/Mkfs.v ===== *)
(** mkfs.c: the program of the build that makes the image of the file
    system. *)

From S2P Require Import Prelude Mmu Fsys Log Fs.

(** * Layout *)

Definition NINODES : Z := 200.
Definition nbitmap : Z := FSSIZE / (BSIZE * 8) + 1.
Definition ninodeblocks : Z := NINODES / IPB + 1.
Definition nlog : Z := LOGSIZE.
Definition nmeta : Z := 2 + nlog + ninodeblocks + nbitmap.
Definition nblocks : Z := FSSIZE - nmeta.

(** The numbers with these bytes, the low one first: the host stores integers
    in the order of the target. *)
Definition xshort (x : Z) : Z := x mod 256 + 256 * (x / 2 ^ 8 mod 256).
Definition xint (x : Z) : Z :=
  x mod 256 + 256 * (x / 2 ^ 8 mod 256) + 2 ^ 16 * (x / 2 ^ 16 mod 256) + 2 ^ 24 * (x / 2 ^ 24 mod 256).

(** The variable sb, as main sets it. *)
Definition sb : superblock :=
  SB (xint FSSIZE) (xint nblocks) (xint NINODES) (xint nlog) (xint 2) (xint (2 + nlog)) (xint (2 + nlog + ninodeblocks)).

Definition wr_sb (l : list Z) (x : superblock) : list Z :=
  wr32 (wr32 (wr32 (wr32 (wr32 (wr32 (wr32 l 0 (sb_size x)) 4 (sb_nblocks x)) 8 (sb_ninodes x)) 12 (sb_nlog x))
    16 (sb_logstart x)) 20 (sb_inodestart x)) 24 (sb_bmapstart x).

(** * The image *)

(** The sectors that were written, and the counters. *)
Record mkfs_t := Mkfs { img : disk_t; freeinode : Z; freeblock : Z }.

Definition set_img (f : disk_t -> disk_t) (s : mkfs_t) : mkfs_t := Mkfs (f (img s)) (freeinode s) (freeblock s).

Definition massert (b : bool) (msg : string) : M mkfs_t unit := if b then mret tt else panic msg.

Definition wsect (sec : Z) (buf : list Z) : M mkfs_t unit := modify (set_img (fun d => <[sec := buf]> d)).

(** A sector that was not written is behind the end of the file. *)
Definition rsect (sec : Z) : M mkfs_t (list Z) :=
  d ← gets img;
  match d !! sec with
  | Some buf => mret buf
  | None => panic "read"
  end.

Definition winode (inum : Z) (ip : dinode) : M mkfs_t unit :=
  let bn := IBLOCK inum sb in
  buf ← rsect bn;
  wsect bn (wr_dinode buf (dinode_off inum) ip).

Definition rinode (inum : Z) : M mkfs_t dinode :=
  let bn := IBLOCK inum sb in
  buf ← rsect bn;
  mret (rd_dinode buf (dinode_off inum)).

Definition mk_ialloc (type : Z) : M mkfs_t Z :=
  inum ← gets freeinode;
  modify (fun s => Mkfs (img s) (u32 (freeinode s + 1)) (freeblock s));;
  winode inum (Dinode (xshort type) 0 0 (xshort 1) (xint 0) (replicate 13 0));;
  mret inum.

(** freeblock++ *)
Definition take_block : M mkfs_t Z :=
  x ← gets freeblock;
  modify (fun s => Mkfs (img s) (freeinode s) (u32 (freeblock s + 1)));;
  mret x.

Definition mk_balloc (used : Z) : M mkfs_t unit :=
  massert (used <? BSIZE * 8) "used < BSIZE*8";;
  wsect (sb_bmapstart sb) (foldl set_bit zero_block (seqZ 0 used)).

(** * Appending to a file *)

Definition set_addr (i : Z) (x : Z) (y : dinode) : dinode :=
  Dinode (d_type y) (d_major y) (d_minor y) (d_nlink y) (d_size y) (<[Z.to_nat i := x]> (d_addrs y)).
Definition set_size (x : Z) (y : dinode) : dinode :=
  Dinode (d_type y) (d_major y) (d_minor y) (d_nlink y) x (d_addrs y).

(** The sector of block [fbn] of the file, taken from the free ones when
    there is none, and the inode. *)
Definition iappend_block (din : dinode) (fbn : Z) : M mkfs_t (Z * dinode) :=
  if fbn <? NDIRECT then
    din ← (if xint (d_addrs din !!! Z.to_nat fbn) =? 0
           then x ← take_block; mret (set_addr fbn (xint x) din) else mret din);
    mret (xint (d_addrs din !!! Z.to_nat fbn), din)
  else
    din ← (if xint (d_addrs din !!! Z.to_nat NDIRECT) =? 0
           then x ← take_block; mret (set_addr NDIRECT (xint x) din) else mret din);
    let a := xint (d_addrs din !!! Z.to_nat NDIRECT) in
    indirect ← rsect a;
    indirect ← (if rd32 indirect (4 * (fbn - NDIRECT)) =? 0 then
                  x ← take_block;
                  let indirect := wr32 indirect (4 * (fbn - NDIRECT)) (xint x) in
                  wsect a indirect;;
                  mret indirect
                else mret indirect);
    mret (xint (rd32 indirect (4 * (fbn - NDIRECT))), din).

(** The loop; [p] is what is left to append. *)
Fixpoint iappend_loop (fuel : nat) (din : dinode) (off : Z) (p : list Z) : M mkfs_t (dinode * Z) :=
  match fuel with
  | O => nofuel
  | S fuel =>
    match p with
    | [] => mret (din, off)
    | _ =>
      let fbn := off / BSIZE in
      massert (fbn <? MAXFILE) "fbn < MAXFILE";;
      '(x, din) ← iappend_block din fbn;
      let n1 := Z.min (Z.of_nat (length p)) ((fbn + 1) * BSIZE - off) in
      buf ← rsect x;
      wsect x (blit buf (off - fbn * BSIZE) (take (Z.to_nat n1) p));;
      iappend_loop fuel din (off + n1) (drop (Z.to_nat n1) p)
    end
  end.

Definition iappend (inum : Z) (p : list Z) : M mkfs_t unit :=
  din ← rinode inum;
  '(din, off) ← iappend_loop (S (length p)) din (xint (d_size din)) p;
  winode inum (set_size (xint off) din).

(** * main *)

(** A file in reads of BSIZE bytes. *)
Fixpoint append_file (fuel : nat) (inum : Z) (l : list Z) : M mkfs_t unit :=
  match fuel with
  | O => nofuel
  | S fuel =>
    match l with
    | [] => mret tt
    | _ => iappend inum (take 512 l);; append_file fuel inum (drop 512 l)
    end
  end.

(** The name without the underscore of the programs. *)
Definition strip (name : list Z) : list Z := match name with 95 :: name => name | _ => name end.

Fixpoint add_files (rootino : Z) (files : list (list Z * list Z)) : M mkfs_t unit :=
  match files with
  | [] => mret tt
  | (name, l) :: files =>
    massert (negb (existsb (Z.eqb 47) name)) "index(argv[i], '/') == 0";;
    inum ← mk_ialloc T_FILE;
    iappend rootino (mk_dirent (xshort inum) (strip name));;
    append_file (S (length l)) inum l;;
    add_files rootino files
  end.

(** The size of the root directory in whole blocks. *)
Definition fix_root (rootino : Z) : M mkfs_t unit :=
  din ← rinode rootino;
  let off := xint (d_size din) in
  let off := (off / BSIZE + 1) * BSIZE in
  winode rootino (set_size (xint off) din).

(** main, for the names and the contents of its files. *)
Definition mkfs_main (files : list (list Z * list Z)) : M mkfs_t unit :=
  modify (fun s => Mkfs (img s) (freeinode s) nmeta);;
  modify (set_img (fun d => foldl (fun d i => <[i := zero_block]> d) d (seqZ 0 FSSIZE)));;
  wsect 1 (wr_sb zero_block sb);;
  rootino ← mk_ialloc T_DIR;
  massert (rootino =? ROOTINO) "rootino == ROOTINO";;
  iappend rootino (mk_dirent (xshort rootino) [46]);;
  iappend rootino (mk_dirent (xshort rootino) [46; 46]);;
  add_files rootino files;;
  fix_root rootino;;
  used ← gets freeblock;
  mk_balloc used.

(** The state in which the program starts. *)
Definition mkfs_start : mkfs_t := Mkfs ∅ 1 0.
