(* ===== verification/Plain.v ===== *)
(** The file system touches the process table only through sleep and wakeup:
    every function of bio.c, log.c, console.c and fs.c is plain in the sense
    of Calls, which discharges the interface that the process layer asks of
    the inode layer. *)

From S2P Require Import Prelude Mmu Kalloc Vm Kernel Sched Pipe Thread Rely Calls Fsys Bio Log Console Kbd Fs Args Exec.

Create HintDb plain.
#[export] Hint Resolve pl_ret pl_get pl_p pl_lift pl_panic pl_fuel pl_acquire pl_release pl_sleep pl_wakeup : plain.

(** Code made of such pieces. *)
Ltac plain_ :=
  repeat first
    [ solve [eauto 2 with plain]
    | apply pl_bind; [|intros ?]
    | match goal with |- plain _ _ (match ?x with _ => _ end) => destruct x end
    | case_match ].

Lemma plain_fget {A} me (f : fsys -> A) : plain me A (fget f).
Proof. exact (pl_bind me _ _ get (fun s => mret (f (fs s))) (pl_get me) (fun s => pl_ret me _ _)). Qed.

Lemma plain_fset me f : plain me _ (fset f).
Proof. by apply pl_change. Qed.

#[export] Hint Resolve plain_fget plain_fset : plain.
#[export] Hint Extern 1 (plain _ _ (bget_ _ _)) => apply plain_fget : plain.
#[export] Hint Extern 1 (plain _ _ (iget_ _ _)) => apply plain_fget : plain.
#[export] Hint Extern 1 (plain _ _ (lget _)) => apply plain_fget : plain.
#[export] Hint Extern 1 (plain _ _ (cget _)) => apply plain_fget : plain.
#[export] Hint Extern 1 (plain _ _ (bset _ _)) => apply plain_fset : plain.
#[export] Hint Extern 1 (plain _ _ (iset _ _)) => apply plain_fset : plain.
#[export] Hint Extern 1 (plain _ _ (lset _)) => apply plain_fset : plain.
#[export] Hint Extern 1 (plain _ _ (cset _)) => apply plain_fset : plain.

Section plain.
Context (turns : nat) (me : nat).
Notation plain := (plain me).

(** * bio.c *)

Lemma plain_slset l x : plain _ (slset l x).
Proof. unfold slset. plain_. Qed.
#[local] Hint Resolve plain_slset : plain.

Lemma plain_acquiresleep l : plain _ (acquiresleep turns me l).
Proof.
  assert (forall n, plain _ (acquiresleep_loop me l n)) by (induction n; simpl; plain_).
  unfold acquiresleep. plain_.
Qed.

Lemma plain_releasesleep l : plain _ (releasesleep l).
Proof. unfold releasesleep. plain_. Qed.

Lemma plain_holdingsleep l : plain _ (holdingsleep me l).
Proof. unfold holdingsleep. plain_. Qed.
#[local] Hint Resolve plain_acquiresleep plain_releasesleep plain_holdingsleep : plain.

Lemma plain_idestart b : plain _ (idestart b).
Proof. unfold idestart. plain_. Qed.
#[local] Hint Resolve plain_idestart : plain.

Lemma plain_ideintr : plain _ ideintr.
Proof. unfold ideintr. plain_. Qed.

Lemma plain_iderw b : plain _ (iderw turns me b).
Proof.
  assert (forall n, plain _ (iderw_wait me b n)) by (induction n; simpl; plain_).
  unfold iderw. plain_.
Qed.
#[local] Hint Resolve plain_iderw : plain.

Lemma plain_bread dev b : plain _ (bread turns me dev b).
Proof. unfold bread, bget. plain_. Qed.

Lemma plain_bwrite b : plain _ (bwrite turns me b).
Proof. unfold bwrite. plain_. Qed.

Lemma plain_brelse b : plain _ (brelse me b).
Proof. unfold brelse. plain_. Qed.
#[local] Hint Resolve plain_bread plain_bwrite plain_brelse : plain.

(** * log.c *)

Lemma plain_for_each f l : (forall i, plain _ (f i)) -> plain _ (for_each f l).
Proof. intros Hf. induction l; simpl; plain_. Qed.
#[local] Hint Resolve plain_for_each : plain.

Lemma plain_readsb dev : plain _ (readsb turns me dev).
Proof. unfold readsb. plain_. Qed.

Lemma plain_install_trans : plain _ (install_trans turns me).
Proof. unfold install_trans. plain_. apply plain_for_each. intros. unfold install_one. plain_. Qed.

Lemma plain_write_head : plain _ (write_head turns me).
Proof. unfold write_head. plain_. Qed.
#[local] Hint Resolve plain_readsb plain_install_trans plain_write_head : plain.

Lemma plain_begin_op_ : plain _ (begin_op turns me).
Proof.
  assert (forall n, plain _ (begin_op_loop me n)) by (induction n; simpl; plain_).
  unfold begin_op. plain_.
Qed.

Lemma plain_commit : plain _ (commit turns me).
Proof.
  unfold commit, clear_head, write_log. plain_.
  apply plain_for_each. intros. unfold log_one. plain_.
Qed.
#[local] Hint Resolve plain_begin_op_ plain_commit : plain.

Lemma plain_end_op_ : plain _ (end_op turns me).
Proof. unfold end_op. plain_. Qed.

Lemma plain_log_write b : plain _ (log_write b).
Proof. unfold log_write. plain_. Qed.
#[local] Hint Resolve plain_end_op_ plain_log_write : plain.

Lemma plain_initlog dev : plain _ (initlog turns me dev).
Proof. unfold initlog, recover_from_log, read_head, clear_head. plain_. Qed.

(** * console.c *)

Lemma plain_cgaputc c : plain _ (cgaputc c).
Proof. unfold cgaputc. plain_. Qed.
#[local] Hint Resolve plain_cgaputc : plain.

Lemma plain_consputc c : plain _ (consputc c).
Proof. unfold consputc, uartputc. plain_. Qed.
#[local] Hint Resolve plain_consputc : plain.

Lemma plain_consputs l : plain _ (consputs l).
Proof. induction l; simpl; plain_. Qed.
#[local] Hint Resolve plain_consputs : plain.

Lemma plain_cprintf fmt args : plain _ (cprintf fmt args).
Proof. unfold cprintf. plain_. Qed.

Lemma plain_input_char c : plain _ (input_char c).
Proof.
  assert (forall n, plain _ (kill_line n)) by (induction n; simpl; plain_).
  unfold input_char. plain_.
Qed.
#[local] Hint Resolve plain_cprintf plain_input_char : plain.

Lemma plain_procdump context : plain _ (procdump context).
Proof.
  unfold procdump. assert (forall l, plain _ (dump_pcs l)) by (induction l; simpl; plain_).
  assert (forall i, plain _ (dump_proc context i)) by (intros i; unfold dump_proc; plain_).
  generalize (seq 0 NPROC). induction l; simpl; plain_.
Qed.
#[local] Hint Resolve plain_procdump : plain.

Lemma plain_consoleintr context l : Forall (plain _) l -> plain _ (consoleintr context l).
Proof.
  intros Hl. unfold consoleintr. plain_.
  generalize false. induction Hl as [|x l Hx Hl IH]; intros b; simpl; plain_.
Qed.

Lemma plain_uartintr context l : plain _ (uartintr context l).
Proof. apply plain_consoleintr, Forall_fmap, Forall_true. intros c. apply pl_ret. Qed.

Lemma plain_kbdintr context l : plain _ (kbdintr context l).
Proof. apply plain_consoleintr, Forall_fmap, Forall_true. intros c. unfold compose, kbdgetc. plain_. Qed.

(** * fs.c *)

Lemma plain_modify_block dev b f : plain _ (modify_block turns me dev b f).
Proof. unfold modify_block. plain_. Qed.
#[local] Hint Resolve plain_modify_block : plain.

Lemma plain_balloc dev : plain _ (balloc turns me dev).
Proof.
  assert (forall size l, plain _ (balloc_loop turns me dev size l))
    by (induction l; simpl; unfold bzero; plain_).
  unfold balloc. plain_.
Qed.

Lemma plain_bfree dev b : plain _ (bfree turns me dev b).
Proof. unfold bfree. plain_. Qed.

Lemma plain_iget dev n : plain _ (iget dev n).
Proof. unfold iget. plain_. Qed.
#[local] Hint Resolve plain_balloc plain_bfree plain_iget : plain.

Lemma plain_ialloc dev type : plain _ (ialloc turns me dev type).
Proof.
  assert (forall l, plain _ (ialloc_loop turns me dev type l)) by (induction l; simpl; plain_).
  unfold ialloc. plain_.
Qed.

Lemma plain_iupdate ip : plain _ (iupdate turns me ip).
Proof. unfold iupdate. plain_. Qed.

Lemma plain_idup_ ip : plain _ (idup ip).
Proof. unfold idup. plain_. Qed.

Lemma plain_ilock_ ip : plain _ (ilock turns me ip).
Proof. unfold ilock. plain_. Qed.

Lemma plain_iunlock_ ip : plain _ (iunlock me ip).
Proof. unfold iunlock. plain_. Qed.
#[local] Hint Resolve plain_ialloc plain_iupdate plain_idup_ plain_ilock_ plain_iunlock_ : plain.

Lemma plain_bmap ip bn : plain _ (bmap turns me ip bn).
Proof. unfold bmap. plain_. Qed.

Lemma plain_itrunc_direct ip i : plain _ (itrunc_direct turns me ip i).
Proof. unfold itrunc_direct. plain_. Qed.

Lemma plain_itrunc_indirect dev d j : plain _ (itrunc_indirect turns me dev d j).
Proof. unfold itrunc_indirect. plain_. Qed.
#[local] Hint Resolve plain_bmap plain_itrunc_direct plain_itrunc_indirect : plain.

Lemma plain_itrunc ip : plain _ (itrunc turns me ip).
Proof. unfold itrunc. plain_. Qed.
#[local] Hint Resolve plain_itrunc : plain.

Lemma plain_iput_ ip : plain _ (iput turns me ip).
Proof. unfold iput. plain_. Qed.
#[local] Hint Resolve plain_iput_ : plain.

Lemma plain_iunlockput ip : plain _ (iunlockput turns me ip).
Proof. unfold iunlockput. plain_. Qed.

Lemma plain_consoleread ip n : plain _ (consoleread turns me ip n).
Proof.
  assert (forall k, plain _ (console_wait me k)) by (induction k; simpl; plain_).
  assert (forall k t, plain _ (consoleread_loop turns me k t)) by (induction k; simpl; intros; plain_).
  unfold consoleread. plain_.
Qed.

Lemma plain_consolewrite ip l : plain _ (consolewrite turns me ip l).
Proof. unfold consolewrite. plain_. Qed.
#[local] Hint Resolve plain_iunlockput plain_consoleread plain_consolewrite : plain.

Lemma plain_readi_ ip off n : plain _ (readi turns me ip off n).
Proof.
  assert (forall k off n, plain _ (readi_loop turns me ip off n k)) by (induction k; simpl; intros; plain_).
  unfold readi. plain_.
Qed.

Lemma plain_writei_ ip l off : plain _ (writei turns me ip l off).
Proof.
  assert (forall k l off, plain _ (writei_loop turns me ip l off k)) by (induction k; simpl; intros; plain_).
  unfold writei. plain_.
Qed.

Lemma plain_stati_ ip : plain _ (stati ip).
Proof. unfold stati. plain_. Qed.
#[local] Hint Resolve plain_readi_ plain_writei_ plain_stati_ : plain.

Lemma plain_dirlookup dp name : plain _ (dirlookup turns me dp name).
Proof.
  assert (forall k off, plain _ (dirlookup_loop turns me dp name off k)) by (induction k; simpl; intros; plain_).
  unfold dirlookup. plain_.
Qed.
#[local] Hint Resolve plain_dirlookup : plain.

Lemma plain_dirlink dp name inum : plain _ (dirlink turns me dp name inum).
Proof.
  assert (forall k off, plain _ (dirlink_loop turns me dp off k)) by (induction k; simpl; intros; plain_).
  unfold dirlink. plain_.
Qed.

Lemma plain_namex path parent : plain _ (namex turns me path parent).
Proof.
  assert (forall k ip path name, plain _ (namex_loop turns me ip path parent name k))
    by (induction k; simpl; intros; plain_).
  unfold namex. plain_.
Qed.
#[local] Hint Resolve plain_dirlink plain_namex : plain.

Lemma plain_namei_ path : plain _ (namei turns me path).
Proof. unfold namei. plain_. Qed.

End plain.

#[export] Instance fs_inodes_plain turns : PlainInodes fsys (I := fs_inodes turns).
Proof.
  split; intros; simpl; [apply plain_idup_|apply plain_iput_|apply plain_begin_op_|apply plain_end_op_
    |apply plain_ilock_|apply plain_iunlock_|apply plain_readi_|apply plain_writei_|apply plain_stati_
    |apply plain_namei_].
Qed.

#[export] Hint Resolve plain_ideintr plain_kbdintr plain_uartintr plain_cprintf plain_begin_op_ plain_end_op_
  plain_ialloc plain_iupdate plain_ilock_ plain_iunlock_ plain_iput_ plain_iunlockput plain_readi_ plain_writei_
  plain_dirlookup plain_dirlink plain_namex plain_namei_ : plain.
