(* ===== verification/Sysfile.v ===== *)
(** sysfile.c: the system calls on files. *)

From S2P Require Import Prelude Mmu Kalloc Vm Kernel Sched Pipe Thread Fsys Bio Log Console Fs Args Exec.

Section sysfile.
Context `{L : Link} `{T : Tables} (turns : nat) (me : nat).
#[local] Instance sys_inodes : Inodes fsys := fs_inodes turns.

Notation begin_op := (Log.begin_op turns me).
Notation end_op := (Log.end_op turns me).
Notation ilock := (Fs.ilock turns me).
Notation iunlock := (Fs.iunlock me).
Notation iput := (Fs.iput turns me).
Notation iunlockput := (Fs.iunlockput turns me).
Notation iupdate := (Fs.iupdate turns me).
Notation namei := (Fs.namei turns me).
Notation nameiparent := (Fs.nameiparent turns me).
Notation dirlookup := (Fs.dirlookup turns me).
Notation dirlink := (Fs.dirlink turns me).

(** * Descriptors *)

(** The descriptor and the file; [None] for the error. *)
Definition argfd (n : Z) : KF (option (nat * nat)) :=
  r ← argint me n;
  match r with
  | None => mret None
  | Some v =>
    let fd := s32 v in
    if (fd <? 0) || (Z.of_nat NOFILE <=? fd) then mret None
    else
      o ← p_ me (fun p => default None (ofile p !! Z.to_nat fd));
      mret ((fun f => (Z.to_nat fd, f)) <$> o)
  end.

Fixpoint first_fd (l : list (option nat)) : option nat :=
  match l with
  | [] => None
  | None :: _ => Some O
  | Some _ :: l => S <$> first_fd l
  end.

Definition set_fd (fd : nat) (f : option nat) : KF unit :=
  p_set me (fun p => set_ofile (<[fd := f]> (ofile p)) p).

Definition fdalloc (f : nat) : KF (option nat) :=
  l ← p_ me ofile;
  match first_fd l with
  | None => mret None
  | Some fd => set_fd fd (Some f);; mret (Some fd)
  end.

Definition sys_dup : KF Z :=
  r ← argfd 0;
  match r with
  | None => mret (-1)
  | Some (_, f) =>
    fd ← fdalloc f;
    match fd with
    | None => mret (-1)
    | Some fd => filedup f;; mret (Z.of_nat fd)
    end
  end.

(** fileread writes to the buffer, filewrite reads from it: the bytes are
    copied after the one and before the other. *)
Definition sys_read : KF Z :=
  r ← argfd 0;
  match r with
  | None => mret (-1)
  | Some (_, f) =>
    n ← argint me 2;
    match n with
    | None => mret (-1)
    | Some n =>
      p ← argptr me 1 (s32 n);
      match p with
      | None => mret (-1)
      | Some p =>
        r ← fileread me f (s32 n) turns;
        uwrite me p (snd r);;
        mret (fst r)
      end
    end
  end.

Definition sys_write : KF Z :=
  r ← argfd 0;
  match r with
  | None => mret (-1)
  | Some (_, f) =>
    n ← argint me 2;
    match n with
    | None => mret (-1)
    | Some n =>
      p ← argptr me 1 (s32 n);
      match p with
      | None => mret (-1)
      | Some p =>
        l ← uread me p (Z.to_nat (s32 n));
        filewrite me f l turns
      end
    end
  end.

Definition sys_close : KF Z :=
  r ← argfd 0;
  match r with
  | None => mret (-1)
  | Some (fd, f) => set_fd fd None;; fileclose me f;; mret 0
  end.

(** The fields of [struct stat], stored one by one. *)
Definition STAT_SIZE : Z := 20.
Definition put_stat (a : Z) (s : stat) : KF unit :=
  uwrite me (u32 (a + 4)) (bytes4 (st_dev s));;
  uwrite me (u32 (a + 8)) (bytes4 (st_ino s));;
  uwrite me a (take 2 (bytes4 (st_type s)));;
  uwrite me (u32 (a + 12)) (take 2 (bytes4 (st_nlink s)));;
  uwrite me (u32 (a + 16)) (bytes4 (st_size s)).

Definition sys_fstat : KF Z :=
  r ← argfd 0;
  match r with
  | None => mret (-1)
  | Some (_, f) =>
    st ← argptr me 1 STAT_SIZE;
    match st with
    | None => mret (-1)
    | Some st =>
      r ← filestat me f;
      match r with
      | None => mret (-1)
      | Some s => put_stat st s;; mret 0
      end
    end
  end.

(** * Links *)

Definition link_bad (ip : nat) : KF Z :=
  ilock ip;;
  iset ip (fun x => set_i_nlink (s16 (i_nlink x - 1)) x);;
  iupdate ip;;
  iunlockput ip;;
  end_op;;
  mret (-1).

Definition sys_link : KF Z :=
  old ← argstr me 0;
  match old with
  | None => mret (-1)
  | Some old =>
    new ← argstr me 1;
    match new with
    | None => mret (-1)
    | Some new =>
      begin_op;;
      r ← namei old;
      match r with
      | None => end_op;; mret (-1)
      | Some ip =>
        ilock ip;;
        t ← iget_ ip i_type;
        if t =? T_DIR then iunlockput ip;; end_op;; mret (-1)
        else
          iset ip (fun x => set_i_nlink (s16 (i_nlink x + 1)) x);;
          iupdate ip;;
          iunlock ip;;
          r ← nameiparent new;
          match r with
          | None => link_bad ip
          | Some (dp, name) =>
            ilock dp;;
            dd ← iget_ dp i_dev;
            x ← iget_ ip (fun x => x);
            ok ← (if negb (dd =? i_dev x) then mret false
                  else r ← dirlink dp name (i_inum x); mret (negb (r <? 0)));
            if negb ok then iunlockput dp;; link_bad ip
            else
              iunlockput dp;;
              iput ip;;
              end_op;;
              mret 0
          end
      end
    end
  end.

Fixpoint isdirempty_loop (dp : nat) (off : Z) (cnt : nat) : KF bool :=
  match cnt with
  | O => mret true
  | S cnt =>
    r ← Fs.readi turns me dp off DIRENT_SIZE;
    if negb (fst r =? DIRENT_SIZE) then kpanic "isdirempty: readi"
    else if negb (de_inum (snd r) =? 0) then mret false
    else isdirempty_loop dp (off + DIRENT_SIZE) cnt
  end.

Definition isdirempty (dp : nat) : KF bool :=
  size ← iget_ dp i_size;
  isdirempty_loop dp (2 * DIRENT_SIZE) (dir_entries (size - 2 * DIRENT_SIZE)).

Definition dot : list Z := [46].
Definition dotdot : list Z := [46; 46].

Definition sys_unlink : KF Z :=
  path ← argstr me 0;
  match path with
  | None => mret (-1)
  | Some path =>
    begin_op;;
    r ← nameiparent path;
    match r with
    | None => end_op;; mret (-1)
    | Some (dp, name) =>
      let bad := (iunlockput dp;; end_op;; mret (-1)) in
      ilock dp;;
      if (namecmp name dot =? 0) || (namecmp name dotdot =? 0) then bad
      else
        r ← dirlookup dp name;
        match r with
        | None => bad
        | Some (ip, off) =>
          ilock ip;;
          x ← iget_ ip (fun x => x);
          if i_nlink x <? 1 then kpanic "unlink: nlink < 1"
          else
            full ← (if i_type x =? T_DIR then e ← isdirempty ip; mret (negb e) else mret false);
            if negb (negb full) then iunlockput ip;; bad
            else
              n ← Fs.writei turns me dp (replicate 16 0) off;
              if negb (n =? DIRENT_SIZE) then kpanic "unlink: writei"
              else
                (if i_type x =? T_DIR then
                   iset dp (fun x => set_i_nlink (s16 (i_nlink x - 1)) x);; iupdate dp
                 else mret tt);;
                iunlockput dp;;
                iset ip (fun x => set_i_nlink (s16 (i_nlink x - 1)) x);;
                iupdate ip;;
                iunlockput ip;;
                end_op;;
                mret 0
        end
    end
  end.

(** * Opening and creating *)

(** The entries of a new directory, and its name in its parent. *)
Definition create_links (dp ip : nat) (type : Z) (name : list Z) : KF unit :=
  (if type =? T_DIR then
     iset dp (fun x => set_i_nlink (s16 (i_nlink x + 1)) x);;
     iupdate dp;;
     n ← iget_ ip i_inum;
     r ← dirlink ip dot n;
     if r <? 0 then kpanic "create dots"
     else
       n ← iget_ dp i_inum;
       r ← dirlink ip dotdot n;
       if r <? 0 then kpanic "create dots" else mret tt
   else mret tt);;
  n ← iget_ ip i_inum;
  r ← dirlink dp name n;
  if r <? 0 then kpanic "create: dirlink" else mret tt.

Definition create (path : list Z) (type major minor : Z) : KF (option nat) :=
  r ← nameiparent path;
  match r with
  | None => mret None
  | Some (dp, name) =>
    ilock dp;;
    r ← dirlookup dp name;
    match r with
    | Some (ip, _) =>
      iunlockput dp;;
      ilock ip;;
      t ← iget_ ip i_type;
      if (type =? T_FILE) && (t =? T_FILE) then mret (Some ip)
      else iunlockput ip;; mret None
    | None =>
      dev ← iget_ dp i_dev;
      ip ← ialloc turns me dev type;
      ilock ip;;
      iset ip (fun x => set_i_nlink 1 (set_i_minor (s16 minor) (set_i_major (s16 major) x)));;
      iupdate ip;;
      create_links dp ip type name;;
      iunlockput dp;;
      mret (Some ip)
    end
  end.

Definition open_file (ip : nat) (omode : Z) (f : nat) : KF unit :=
  f_set f (fun x => File FD_INODE (fref x) (Z.land omode O_WRONLY =? 0)
    (negb (Z.land omode O_WRONLY =? 0) || negb (Z.land omode O_RDWR =? 0)) (fpipe x) ip 0).

(** From the locked inode on. *)
Definition open_inode (ip : nat) (omode : Z) : KF Z :=
  let bad := (iunlockput ip;; end_op;; mret (-1)) in
  f ← filealloc;
  match f with
  | None => bad
  | Some f =>
    fd ← fdalloc f;
    match fd with
    | None => fileclose me f;; bad
    | Some fd =>
      iunlock ip;;
      end_op;;
      open_file ip omode f;;
      mret (Z.of_nat fd)
    end
  end.

Definition sys_open : KF Z :=
  path ← argstr me 0;
  match path with
  | None => mret (-1)
  | Some path =>
    omode ← argint me 1;
    match omode with
    | None => mret (-1)
    | Some omode =>
      begin_op;;
      if negb (Z.land omode O_CREATE =? 0) then
        r ← create path T_FILE 0 0;
        match r with
        | None => end_op;; mret (-1)
        | Some ip => open_inode ip omode
        end
      else
        r ← namei path;
        match r with
        | None => end_op;; mret (-1)
        | Some ip =>
          ilock ip;;
          t ← iget_ ip i_type;
          if (t =? T_DIR) && negb (omode =? O_RDONLY) then iunlockput ip;; end_op;; mret (-1)
          else open_inode ip omode
        end
    end
  end.

(** The end of sys_mkdir and sys_mknod. *)
Definition created (r : option nat) : KF Z :=
  match r with
  | None => end_op;; mret (-1)
  | Some ip => iunlockput ip;; end_op;; mret 0
  end.

Definition sys_mkdir : KF Z :=
  begin_op;;
  path ← argstr me 0;
  r ← match path with None => mret None | Some path => create path T_DIR 0 0 end;
  created r.

Definition sys_mknod : KF Z :=
  begin_op;;
  path ← argstr me 0;
  r ← match path with
      | None => mret None
      | Some path =>
        major ← argint me 1;
        match major with
        | None => mret None
        | Some major =>
          minor ← argint me 2;
          match minor with
          | None => mret None
          | Some minor => create path T_DEV major minor
          end
        end
      end;
  created r.

Definition sys_chdir : KF Z :=
  begin_op;;
  path ← argstr me 0;
  r ← match path with None => mret None | Some path => namei path end;
  match r with
  | None => end_op;; mret (-1)
  | Some ip =>
    ilock ip;;
    t ← iget_ ip i_type;
    if negb (t =? T_DIR) then iunlockput ip;; end_op;; mret (-1)
    else
      iunlock ip;;
      d ← p_ me cwd;
      match d with None => kpanic "null pointer" | Some d => iput d end;;
      end_op;;
      p_set me (set_cwd (Some ip));;
      mret 0
  end.

(** The argument vector at user address [uargv], from entry [i] on. *)
Fixpoint fetch_argv (uargv i : Z) (cnt : nat) : KF (option (list (list Z))) :=
  match cnt with
  | O => mret None
  | S cnt =>
    r ← fetchint me (u32 (uargv + 4 * i));
    match r with
    | None => mret None
    | Some uarg =>
      if uarg =? 0 then mret (Some [])
      else
        a ← fetchstr me uarg;
        match a with
        | None => mret None
        | Some a => l ← fetch_argv uargv (i + 1) cnt; mret (cons a <$> l)
        end
    end
  end.

Definition sys_exec : KF Z :=
  path ← argstr me 0;
  match path with
  | None => mret (-1)
  | Some path =>
    uargv ← argint me 1;
    match uargv with
    | None => mret (-1)
    | Some uargv =>
      argv ← fetch_argv uargv 0 (Z.to_nat MAXARG);
      match argv with
      | None => mret (-1)
      | Some argv => exec turns me path argv
      end
    end
  end.

Definition sys_pipe : KF Z :=
  fd ← argptr me 0 8;
  match fd with
  | None => mret (-1)
  | Some fd =>
    r ← pipealloc me;
    match r with
    | None => mret (-1)
    | Some (rf, wf) =>
      let bad := (fileclose me rf;; fileclose me wf;; mret (-1)) in
      fd0 ← fdalloc rf;
      match fd0 with
      | None => bad
      | Some fd0 =>
        fd1 ← fdalloc wf;
        match fd1 with
        | None => set_fd fd0 None;; bad
        | Some fd1 =>
          uwrite me fd (bytes4 (Z.of_nat fd0));;
          uwrite me (u32 (fd + 4)) (bytes4 (Z.of_nat fd1));;
          mret 0
        end
      end
    end
  end.

End sysfile.
