(* ===== verification/Syscall.v ===== *)
(** sysproc.c, the system call table of syscall.c, and the trap handler of
    trap.c. *)

From S2P Require Import Prelude Mmu Kalloc Vm Kernel Sched Pipe Thread Fsys Bio Log Console Kbd Fs Args Exec Sysfile.

Section syscall.
Context `{L : Link} `{T : Tables} (turns : nat) (me : nat).
#[local] Instance call_inodes : Inodes fsys := fs_inodes turns.

(** * sysproc.c *)

(** A call whose only argument is an int. *)
Definition with_int (f : Z -> KF Z) : KF Z :=
  r ← argint me 0;
  match r with None => mret (-1) | Some v => f (s32 v) end.

Definition sys_fork : KF Z := fork me.

(** The size of the thread leader of [me]. *)
Definition leader_sz : KF Z :=
  s ← get;
  match THREAD_LEADER s me with
  | None => kpanic "null pointer"
  | Some l => mret (sz (slot_of s l))
  end.

Definition sys_clone : KF Z :=
  func ← argptr me 0 0;
  match func with
  | None => mret (-1)
  | Some func =>
    child_stack ← argint me 1;
    match child_stack with
    | None => mret (-1)
    | Some child_stack =>
      flags ← argint me 2;
      match flags with
      | None => mret (-1)
      | Some flags =>
        args ← argptr me 3 0;
        match args with
        | None => mret (-1)
        | Some args =>
          lsz ← leader_sz;
          if lsz <? args then mret (-1)
          else if (lsz <=? child_stack) && (lsz <? u32 (child_stack - PGSIZE)) then mret (-1)
          else clone me func child_stack (s32 flags) args
        end
      end
    end
  end.

Definition sys_join : KF Z := with_int (fun tid => join me tid turns).
Definition sys_exit : KF Z := exit me turns;; mret 0.
Definition sys_wait : KF Z := wait me turns.
Definition sys_kill : KF Z := with_int (fun pid => kill pid).
Definition sys_tkill : KF Z := with_int (fun tid => tkill me tid).
Definition sys_tgkill : KF Z := tgkill me turns.
Definition sys_getpid : KF Z := p_ me pid.
Definition sys_gettid : KF Z :=
  t ← p_ me tid;
  if t =? -1 then sys_getpid else mret t.
Definition sys_sbrk : KF Z := with_int (fun n => Thread.sys_sbrk me n).
Definition sys_sleep : KF Z := with_int (fun n => Sched.sys_sleep me n turns).
Definition sys_uptime : KF Z := Sched.sys_uptime.
Definition sys_tsuspend : KF Z := tsuspend me.
Definition sys_tresume : KF Z := with_int (fun tid => tresume me tid).

(** * syscall.c *)

Definition syscalls (num : Z) : option (KF Z) :=
  match num with
  | 1 => Some sys_fork
  | 2 => Some sys_exit
  | 3 => Some sys_wait
  | 4 => Some (sys_pipe turns me)
  | 5 => Some (sys_read turns me)
  | 6 => Some sys_kill
  | 7 => Some (sys_exec turns me)
  | 8 => Some (sys_fstat turns me)
  | 9 => Some (sys_chdir turns me)
  | 10 => Some (sys_dup me)
  | 11 => Some sys_getpid
  | 12 => Some sys_sbrk
  | 13 => Some sys_sleep
  | 14 => Some sys_uptime
  | 15 => Some (sys_open turns me)
  | 16 => Some (sys_write turns me)
  | 17 => Some (sys_mknod turns me)
  | 18 => Some (sys_unlink turns me)
  | 19 => Some (sys_link turns me)
  | 20 => Some (sys_mkdir turns me)
  | 21 => Some (sys_close turns me)
  | 22 => Some sys_clone
  | 23 => Some sys_join
  | 24 => Some sys_gettid
  | 25 => Some sys_tkill
  | 26 => Some sys_tgkill
  | 27 => Some sys_tsuspend
  | 28 => Some sys_tresume
  | _ => None
  end.

(** %d %s: unknown sys call %d. *)
Definition unknown_call : list Z :=
  [37; 100; 32; 37; 115; 58; 32; 117; 110; 107; 110; 111; 119; 110; 32; 115; 121; 115; 32; 99; 97; 108; 108;
   32; 37; 100; 10].

Definition syscall : KF unit :=
  p ← p_ me (fun p => p);
  let num := s32 (eax (tf p)) in
  match syscalls num with
  | Some f => r ← f; p_set me (fun p => set_tf (set_eax (u32 r) (tf p)) p)
  | None =>
    cprintf unknown_call [PInt (pid p); PStr (Some (name p)); PInt num];;
    p_set me (fun p => set_tf (set_eax (u32 (-1)) (tf p)) p)
  end.

(** * trap.c *)

(** What a trap finds in the registers and the devices: the processor it is
    on, the faulting address, the error code, the characters and scan codes
    that have arrived, and where swtch saved the contexts. *)
Record devices := Dev {
  dv_cpu : Z; dv_cr2 : Z; dv_err : Z; dv_uart : list Z; dv_kbd : list Z; dv_context : nat -> Z
}.

(** cpu%d: spurious interrupt at %x:%x. *)
Definition spurious : list Z :=
  [99; 112; 117; 37; 100; 58; 32; 115; 112; 117; 114; 105; 111; 117; 115; 32; 105; 110; 116; 101; 114; 114;
   117; 112; 116; 32; 97; 116; 32; 37; 120; 58; 37; 120; 10].
(** pid %d tid %d %s: trap %d err %d on cpu %d eip 0x%x addr 0x%x--kill proc. *)
Definition kill_proc : list Z :=
  [112; 105; 100; 32; 37; 100; 32; 116; 105; 100; 32; 37; 100; 32; 37; 115; 58; 32; 116; 114; 97; 112; 32; 37;
   100; 32; 101; 114; 114; 32; 37; 100; 32; 111; 110; 32; 99; 112; 117; 32; 37; 100; 32; 101; 105; 112; 32;
   48; 120; 37; 120; 32; 97; 100; 100; 114; 32; 48; 120; 37; 120; 45; 45; 107; 105; 108; 108; 32; 112; 114;
   111; 99; 10].
(** unexpected trap %d from cpu %d eip %x (cr2=0x%x). *)
Definition unexpected : list Z :=
  [117; 110; 101; 120; 112; 101; 99; 116; 101; 100; 32; 116; 114; 97; 112; 32; 37; 100; 32; 102; 114; 111;
   109; 32; 99; 112; 117; 32; 37; 100; 32; 101; 105; 112; 32; 37; 120; 32; 40; 99; 114; 50; 61; 48; 120; 37;
   120; 41; 10].

Definition exit_if_killed : KF unit :=
  k ← p_ me killed;
  if k =? 0 then mret tt else exit me turns;; mret tt.

(** The switch of trap, for a trap that is taken while [cur] runs: the
    process [me], or none. *)
Definition trap_switch (dv : devices) (cur : bool) (f : trapframe) : KF unit :=
  let t := trapno f in
  if t =? T_IRQ0 + IRQ_TIMER then if dv_cpu dv =? 0 then tick else mret tt
  else if t =? T_IRQ0 + IRQ_IDE then ideintr
  else if t =? T_IRQ0 + IRQ_IDE + 1 then mret tt
  else if t =? T_IRQ0 + IRQ_KBD then kbdintr (dv_context dv) (dv_kbd dv)
  else if t =? T_IRQ0 + IRQ_COM1 then uartintr (dv_context dv) (dv_uart dv)
  else if (t =? T_IRQ0 + 7) || (t =? T_IRQ0 + IRQ_SPURIOUS) then
    cprintf spurious [PInt (dv_cpu dv); PInt (cs f); PInt (eip f)]
  else if negb cur || (Z.land (cs f) 3 =? 0) then
    cprintf unexpected [PInt t; PInt (dv_cpu dv); PInt (eip f); PInt (dv_cr2 dv)];;
    kpanic "trap"
  else
    p ← p_ me (fun p => p);
    cprintf kill_proc [PInt (pid p); PInt (tid p); PStr (Some (name p)); PInt t; PInt (dv_err dv);
      PInt (dv_cpu dv); PInt (eip f); PInt (dv_cr2 dv)];;
    p_set me (set_killed 1).

Definition trap (dv : devices) (cur : bool) (f : trapframe) : KF unit :=
  if trapno f =? T_SYSCALL then
    exit_if_killed;;
    p_set me (set_tf f);;
    syscall;;
    exit_if_killed
  else
    trap_switch dv cur f;;
    if negb cur then mret tt
    else
      (if Z.land (cs f) 3 =? DPL_USER then exit_if_killed else mret tt);;
      st ← p_ me state;
      (if bool_decide (st = RUNNING) && (trapno f =? T_IRQ0 + IRQ_TIMER) then yield me else mret tt);;
      (if Z.land (cs f) 3 =? DPL_USER then exit_if_killed else mret tt).

End syscall.
