(* ===== verification/System.v ===== *)
(** The whole kernel: the processes enter it through trap, with any registers
    and from any user code, while the disk finishes its commands and the user
    code stores to its memory. *)

From S2P Require Import Prelude Mmu Kalloc Vm VmUser Kernel Sched Pipe Thread Rely Calls Machine Fsys Bio Log Console Kbd Fs Args Exec Plain Sysfile Syscall.

#[local] Hint Extern 4 (keeps _ _) => (apply plain_keeps; solve [eauto 2 with plain]) : keeps.

Section calls.
Context `{L : Link} `{T : Tables} (turns : nat) (me : nat).
#[local] Instance sys_inodes_plain : PlainInodes fsys (I := sys_inodes turns) := fs_inodes_plain turns.
#[local] Instance call_inodes_plain : PlainInodes fsys (I := call_inodes turns) := fs_inodes_plain turns.

(** * Arguments *)

Lemma keeps_uread va n : keeps me (uread me va n : KF _).
Proof. unfold uread. keep. Qed.
Lemma keeps_uwrite va l : keeps me (uwrite me va l : KF _).
Proof. unfold uwrite. keep. Qed.
#[local] Hint Resolve keeps_uread keeps_uwrite : keeps.

Lemma keeps_fetchint a : keeps me (fetchint me a : KF _).
Proof. unfold fetchint. keep. Qed.
#[local] Hint Resolve keeps_fetchint : keeps.

Lemma keeps_fetchstr a : keeps me (fetchstr me a : KF _).
Proof.
  assert (forall n a, keeps me (fetch_chars me a n : KF _)) by (induction n; simpl; intros; keep).
  unfold fetchstr. keep.
Qed.

Lemma keeps_argint n : keeps me (argint me n : KF _).
Proof. unfold argint. keep. Qed.
#[local] Hint Resolve keeps_fetchstr keeps_argint : keeps.

Lemma keeps_argptr n size : keeps me (argptr me n size : KF _).
Proof. unfold argptr. keep. Qed.
Lemma keeps_argstr n : keeps me (argstr me n : KF _).
Proof. unfold argstr. keep. Qed.
#[local] Hint Resolve keeps_argptr keeps_argstr : keeps.

(** * sysfile.c *)

Lemma keeps_argfd n : keeps me (argfd me n).
Proof. unfold argfd. keep. Qed.
Lemma keeps_set_fd fd f : keeps me (set_fd me fd f).
Proof. unfold set_fd. keep. Qed.
#[local] Hint Resolve keeps_argfd keeps_set_fd : keeps.

Lemma keeps_fdalloc f : keeps me (fdalloc me f).
Proof. unfold fdalloc. keep. Qed.
#[local] Hint Resolve keeps_fdalloc : keeps.
#[local] Hint Resolve keeps_filealloc keeps_filedup : keeps.
#[local] Hint Extern 1 (keeps _ (fileclose _ _)) => (apply keeps_fileclose) : keeps.
#[local] Hint Extern 1 (keeps _ (fileread _ _ _ _)) => (apply keeps_fileread) : keeps.
#[local] Hint Extern 1 (keeps _ (filewrite _ _ _ _)) => (apply keeps_filewrite) : keeps.
#[local] Hint Extern 1 (keeps _ (pipealloc _)) => (apply keeps_pipealloc) : keeps.

Lemma keeps_sys_dup : keeps me (sys_dup me).
Proof. unfold sys_dup. keep. Qed.
Lemma keeps_sys_read : keeps me (sys_read turns me).
Proof. unfold sys_read. keep. Qed.
Lemma keeps_sys_write : keeps me (sys_write turns me).
Proof. unfold sys_write. keep. Qed.
Lemma keeps_sys_close : keeps me (sys_close turns me).
Proof. unfold sys_close. keep. Qed.
Lemma keeps_sys_fstat : keeps me (sys_fstat turns me).
Proof. unfold sys_fstat, filestat, put_stat. keep. Qed.

Lemma keeps_link_bad ip : keeps me (link_bad turns me ip).
Proof. unfold link_bad. keep. Qed.
#[local] Hint Resolve keeps_link_bad : keeps.

Lemma keeps_sys_link : keeps me (sys_link turns me).
Proof. unfold sys_link, nameiparent. keep. Qed.

Lemma keeps_isdirempty dp : keeps me (isdirempty turns me dp).
Proof.
  assert (forall n off, keeps me (isdirempty_loop turns me dp off n)) by (induction n; simpl; intros; keep).
  unfold isdirempty. keep.
Qed.
#[local] Hint Resolve keeps_isdirempty : keeps.

Lemma keeps_sys_unlink : keeps me (sys_unlink turns me).
Proof. unfold sys_unlink, nameiparent. keep. Qed.

Lemma keeps_create path type major minor : keeps me (create turns me path type major minor).
Proof. unfold create, create_links, nameiparent. keep. Qed.
#[local] Hint Resolve keeps_create : keeps.

Lemma keeps_open_inode ip omode : keeps me (open_inode turns me ip omode).
Proof. unfold open_inode, open_file, f_set. keep. Qed.
#[local] Hint Resolve keeps_open_inode : keeps.

Lemma keeps_sys_open : keeps me (sys_open turns me).
Proof. unfold sys_open. keep. Qed.

Lemma keeps_created r : keeps me (created turns me r).
Proof. unfold created. keep. Qed.
#[local] Hint Resolve keeps_created : keeps.

Lemma keeps_sys_mkdir : keeps me (sys_mkdir turns me).
Proof. unfold sys_mkdir. keep. Qed.
Lemma keeps_sys_mknod : keeps me (sys_mknod turns me).
Proof. unfold sys_mknod. keep. Qed.
Lemma keeps_sys_chdir : keeps me (sys_chdir turns me).
Proof. unfold sys_chdir. keep. Qed.
Lemma keeps_sys_pipe : keeps me (sys_pipe turns me).
Proof. unfold sys_pipe. keep. Qed.

(** * sysproc.c *)

Lemma keeps_with_int f : (forall v, keeps me (f v)) -> keeps me (with_int me f).
Proof. intros Hf. unfold with_int. keep. Qed.

Notation any := (base (FS := fsys) me None (fun _ => True)).

Lemma keeps_any {A} (m : KF A) : keeps me m -> triple me any m (fun _ => any).
Proof. intros Hm. by apply Hm. Qed.

Lemma any_bind {A B} (m : KF A) (f : A -> KF B) :
  keeps me m -> (forall a, triple me any (f a) (fun _ => any)) -> triple me any (m ≫= f) (fun _ => any).
Proof. intros Hm Hf. eapply triple_bind; [by apply keeps_any|done]. Qed.

Lemma triple_sys_clone : triple me any (sys_clone turns me) (fun _ => any).
Proof.
  unfold sys_clone, leader_sz.
  repeat first [apply any_bind; [solve [keep]|intros ?] | case_match | apply keeps_any; solve [keep]
    | apply triple_clone].
Qed.

(** * exec *)

(** Assertions that also fix the thread id of the caller. *)
Definition with_tid (t : Z) (s0 s : kst fsys) : Prop := any s0 s /\ tid (slot_of s me) = t.

Lemma with_tid_any t s0 s : with_tid t s0 s -> any s0 s.
Proof. by intros [? _]. Qed.

(** Code that neither stops nor touches the process table. *)
Definition still {A} (m : KF A) : Prop := forall s,
  match m s with
  | Done _ s' => procs s' = procs s /\ nextpid s' = nextpid s /\ building s' = building s
  | Halt _ _ | Fuel _ => True
  | Switch _ _ _ => False
  end.

Lemma still_bind {A B} (m : KF A) (f : A -> KF B) : still m -> (forall a, still (f a)) -> still (m ≫= f).
Proof.
  intros Hm Hf s. specialize (Hm s). unfold mbind, K_bind. destruct (m s) as [a s'| | |]; simpl; try done.
  specialize (Hf a s'). destruct (f a s'); try done. naive_solver congruence.
Qed.

Lemma still_lift {A} (m : M pmem A) : still (lift m).
Proof. intros s. unfold lift. by destruct (m (mem s)). Qed.

Ltac still_ := repeat first [done | apply still_lift | apply still_bind; [|intros ?] | case_match | solve [eauto]].

Lemma still_fetchint a : still (fetchint me a).
Proof. unfold fetchint, uread. still_. Qed.

Lemma still_argint n : still (argint me n).
Proof. unfold argint. pose proof still_fetchint. still_. Qed.

Lemma still_fetchstr a : still (fetchstr me a).
Proof.
  assert (forall n a, still (fetch_chars me a n)) by (induction n; simpl; intros; unfold uread; still_).
  unfold fetchstr. still_.
Qed.

Lemma still_argstr n : still (argstr me n).
Proof. unfold argstr. pose proof still_argint. pose proof still_fetchstr. still_. Qed.

Lemma still_fetch_argv a i n : still (fetch_argv me a i n).
Proof.
  pose proof still_fetchint. pose proof still_fetchstr. revert i.
  induction n; simpl; intros; still_.
Qed.

Lemma any_calm s0 s s' : any s0 s -> calm s s' -> any s0 s'.
Proof. intros. by eapply base_calm. Qed.

Lemma tid_still {A} t (m : KF A) : still m -> triple me (with_tid t) m (fun _ => with_tid t).
Proof.
  intros Hm s0 s [Hs Ht]. specialize (Hm s). destruct (m s) as [a s'| | |]; try done.
  destruct Hm as (H1 & H2 & H3). split; [by eapply any_calm; [|apply calm_silent]|].
  unfold slot_of. by rewrite H1.
Qed.

Lemma tid_acquire t lk : triple me (with_tid t) (acquire lk : KF _) (fun _ => with_tid t).
Proof.
  intros s0 s [(Hg & Hi & Hr & Hb & Hx) Ht]. unfold acquire. case_match; [done|]. simpl.
  split; [done|]. split; [done|]. split; [done|]. intros s' Hre Hi' _. split.
  - apply (base_resume me None (fun _ => True) s s'); try done. by apply (re_run _ _ _ Hre).
  - change (tid (slot_of s' me) = t). by rewrite (re_tid _ _ _ Hre Hr).
Qed.

Lemma triple_exec_lead : triple me (with_tid (-1)) (exec_lead me) (fun _ => any).
Proof.
  unfold exec_lead. eapply triple_bind; [by apply tid_still|intros s1].
  eapply triple_bind; [apply tid_acquire|intros ?].
  eapply triple_bind; [apply triple_p|intros c]. intros s0 s (-> & Hs & Ht). rewrite Ht. simpl.
  by apply (keeps_any (release LPtable)); [keep|].
Qed.

Lemma keeps_loaduvm d a ip off n : keeps me (loaduvm turns me d a ip off n).
Proof.
  assert (forall k i, keeps me (loaduvm_loop turns me d a ip off n i k)) by (induction k; simpl; intros; keep).
  unfold loaduvm. keep.
Qed.
#[local] Hint Resolve keeps_loaduvm : keeps.

Lemma keeps_load_segments d ip n off cnt : keeps me (load_segments turns me d ip n off cnt).
Proof. revert n off. induction cnt; simpl; intros; keep. Qed.

Lemma keeps_push_args cur d sp argv n : keeps me (push_args cur d sp argv n).
Proof. revert sp n. induction argv; simpl; intros; keep. Qed.

Lemma keeps_exec_bad d ip : keeps me (exec_bad turns me d ip).
Proof. unfold exec_bad. keep. Qed.
#[local] Hint Resolve keeps_load_segments keeps_push_args keeps_exec_bad : keeps.

Lemma keeps_exec_image path argv entry d n : keeps me (exec_image turns me path argv entry d n).
Proof. unfold exec_image, switchuvm. keep. Qed.
#[local] Hint Resolve keeps_exec_image : keeps.
#[local] Hint Extern 1 (keeps _ (tgkill _ _)) => (apply keeps_tgkill) : keeps.

Lemma triple_exec path argv : triple me (with_tid (-1)) (exec turns me path argv) (fun _ => any).
Proof.
  unfold exec. eapply triple_bind; [apply triple_exec_lead|intros ?]. apply keeps_any. keep.
Qed.

Lemma triple_sys_exec : triple me (with_tid (-1)) (sys_exec turns me) (fun _ => any).
Proof.
  pose proof (triple_ret me (-1) (fun _ => any)) as Hret.
  assert (forall v : Z, triple me (with_tid (-1)) (mret v) (fun _ => any)) as H1.
  { intros v. eapply triple_conseq; [apply (triple_ret me v (fun _ => any))|apply with_tid_any|done]. }
  unfold sys_exec. eapply triple_bind; [apply tid_still, still_argstr|intros [path|]; [|apply H1]].
  eapply triple_bind; [apply tid_still, still_argint|intros [uargv|]; [|apply H1]].
  eapply triple_bind; [apply tid_still, still_fetch_argv|intros [argv|]; [|apply H1]].
  apply triple_exec.
Qed.

(** * The system calls *)

#[local] Hint Extern 1 (keeps _ (exit _ _)) => (apply keeps_exit) : keeps.
#[local] Hint Extern 1 (keeps _ (wait _ _)) => (apply keeps_wait) : keeps.
#[local] Hint Extern 1 (keeps _ (join _ _ _)) => (apply keeps_join) : keeps.
#[local] Hint Extern 1 (keeps _ (Thread.sys_sbrk _ _)) => (apply keeps_sys_sbrk) : keeps.
#[local] Hint Resolve keeps_sys_pipe keeps_sys_read keeps_sys_fstat keeps_sys_chdir keeps_sys_dup keeps_sys_open
  keeps_sys_write keeps_sys_mknod keeps_sys_unlink keeps_sys_link keeps_sys_mkdir keeps_sys_close keeps_tick : keeps.

(** The calls that the invariant of the process table allows: not tresume,
    and exec only by a group leader, whose thread id is -1. *)
Definition call_ok (num t : Z) : bool := negb (num =? 28) && (negb (num =? 7) || (t =? -1)).

Lemma triple_call num t f :
  syscalls turns me num = Some f -> call_ok num t = true -> triple me (with_tid t) f (fun _ => any).
Proof.
  assert (forall m : KF Z, triple me any m (fun _ => any) -> triple me (with_tid t) m (fun _ => any)) as Hw.
  { intros m Hm. eapply triple_conseq; [exact Hm|apply with_tid_any|done]. }
  assert (forall m : KF Z, keeps me m -> triple me (with_tid t) m (fun _ => any)) as Hk.
  { intros m Hm. by apply Hw, keeps_any. }
  intros Hf Hok. unfold call_ok in Hok. unfold syscalls in Hf.
  repeat (case_match; try discriminate Hf; try discriminate Hok); injection Hf as <-.
  all: lazymatch goal with
  | |- triple _ _ (sys_exec _ _) _ => rewrite (proj1 (Z.eqb_eq t (-1)) Hok); apply triple_sys_exec
  | |- triple _ _ (sys_clone _ _) _ => apply Hw, triple_sys_clone
  | |- triple _ _ (sys_fork _ _) _ => apply Hw; unfold sys_fork; apply triple_fork
  | _ => apply Hk; first [solve [auto 1 with keeps]|unfold sys_exit, sys_wait, sys_kill, sys_tkill, sys_join, sys_getpid, sys_gettid, sys_sbrk,
    sys_sleep, sys_uptime, sys_tgkill, sys_tsuspend, with_int, Sched.sys_uptime; solve [keep]]
  end.
Qed.

(** * trap *)

(** Code that does not return. *)
Fixpoint ends {A} (o : outcome fsys A) : Prop :=
  match o with
  | Done _ _ => False
  | Halt _ _ | Fuel _ => True
  | Switch _ _ k => forall s, ends (k s)
  end.

Lemma ends_bind {A B} (m : KF A) (f : A -> KF B) s : (forall a s', ends (f a s')) -> ends ((m ≫= f) s).
Proof.
  intros Hf. unfold mbind, K_bind. induction (m s) as [a s'|msg s'|s'|w s' k IH]; simpl; auto.
Qed.

Lemma exit_ends s : ends (exit (I := call_inodes turns) me turns s).
Proof.
  unfold exit. apply ends_bind. intros s1 s2. case_match; [done|].
  do 8 (apply ends_bind; intros ? ?). unfold exit_finish. by do 7 (apply ends_bind; intros ? ?).
Qed.

Lemma safe_ends {A} s0 (o : outcome fsys A) Q Q' : ends o -> safe me s0 o Q -> safe me s0 o Q'.
Proof.
  revert s0. induction o as [a s|msg s|s|w s k IH]; intros s0; simpl; [done..|].
  intros He (H1 & H2 & H3 & H4). split; [done|]. split; [done|]. split; [done|]. auto.
Qed.

Lemma triple_exit_if_killed t : triple me (with_tid t) (exit_if_killed turns me) (fun _ => with_tid t).
Proof.
  unfold exit_if_killed. eapply triple_bind; [by apply tid_still|intros k].
  case_match; [by apply tid_still|].
  apply (triple_bind _ _ _ (fun _ _ _ => False)); [|done].
  intros s0 s Hs. eapply safe_ends; [apply exit_ends|].
  apply (keeps_any (exit me turns)); [keep|by eapply with_tid_any].
Qed.

Lemma keeps_exit_if_killed : keeps me (exit_if_killed turns me).
Proof. unfold exit_if_killed. keep. Qed.
#[local] Hint Resolve keeps_exit_if_killed : keeps.

(** syscall, with the trap frame [f] just stored. *)
Lemma triple_syscall t f :
  call_ok (s32 (eax f)) t = true ->
  triple me (with_tid t) (p_set me (set_tf f);; syscall turns me) (fun _ => any).
Proof.
  intros Hok s0 s [Hs Ht].
  assert (me < length (procs s))%nat as Hme by (apply used_slot; destruct Hs as (_ & _ & -> & _); done).
  assert (with_tid t s0 (upd me (set_tf f) s)) as Hs1.
  { split; [eapply any_calm; [done|apply calm_upd; gentle]|]. by rewrite slot_upd_eq. }
  change (safe me s0 (syscall turns me (upd me (set_tf f) s)) (fun s0 _ s => any s0 s)).
  unfold syscall. unfold mbind at 1, K_bind at 1. simpl obind. rewrite slot_upd_eq by done. cbn [tf set_tf].
  destruct (syscalls turns me (s32 (eax f))) as [g|] eqn:Hg.
  - revert Hs1. apply (triple_bind me (with_tid t) g (fun _ => any)); [by eapply triple_call|].
    intros r. apply keeps_any. keep.
  - apply (keeps_any (cprintf _ _;; _)); [keep|apply Hs1].
Qed.

Lemma keeps_trap_switch dv cur f : keeps me (trap_switch me dv cur f).
Proof. unfold trap_switch. keep. Qed.
#[local] Hint Resolve keeps_trap_switch : keeps.

Lemma triple_trap dv cur f t :
  (trapno f = T_SYSCALL -> call_ok (s32 (eax f)) t = true) ->
  triple me (with_tid t) (trap turns me dv cur f) (fun _ => any).
Proof.
  intros Hok. unfold trap. destruct (Z.eqb_spec (trapno f) T_SYSCALL) as [Hn|Hn].
  - eapply triple_bind; [apply triple_exit_if_killed|intros ?].
    intros s0 s Hs.
    change (safe me s0 (((p_set me (set_tf f);; syscall turns me);; exit_if_killed turns me) s)
      (fun s0 _ s => any s0 s)).
    revert s0 s Hs. apply (triple_bind me (with_tid t) _ (fun _ => any)); [by apply triple_syscall, Hok|].
    intros ?. apply keeps_any. keep.
  - eapply triple_conseq; [apply keeps_any|apply with_tid_any|done]. keep.
Qed.

End calls.

(** * The machine *)

(** A store of user code to the byte at [va], through the page directory
    [cur]: the page must be present, writable and for the user. *)
Definition store_user `{L : Link} (cur va v : Z) : M pmem unit :=
  pte ← walkpgdir cur va false;
  if pte =? 0 then fault va
  else
    e ← ld pte;
    if testf e PTE_P && testf e PTE_W && testf e PTE_U
    then modify (set_ram (fun m => store8 m (P2V (PTE_ADDR e) + va mod PGSIZE) v))
    else fault va.

Section system.
Context `{L : Link} `{T : Tables}.

(** What changes while no kernel code runs: the disk finishes a write,
    reports an error or stops to, and user code stores to its memory. *)
Inductive world (s : kst fsys) : kst fsys -> Prop :=
| w_disk : world s (put_fs (disk_done (fs s)) s)
| w_error e : world s (put_fs (set_fs_err e (fs s)) s)
| w_store i va v m :
    state (slot_of s i) = RUNNING -> store_user (pgdir (slot_of s i)) va v (mem s) = OK tt m ->
    world s (put_mem m s).

(** A trap from user mode: a system call, an interrupt or a fault, with
    what the devices have and the registers of the user code. *)
Record event := Trap { ev_dev : devices; ev_tf : trapframe; ev_turns : nat }.

Definition handle (me : nat) (e : event) : KF Z := trap (ev_turns e) me (ev_dev e) true (ev_tf e);; mret 0.

(** The traps of programs that do not call tresume, and call exec only from
    the group leader. *)
Definition well_behaved (s : kst fsys) (i : nat) (e : event) : bool :=
  (Z.land (cs (ev_tf e)) 3 =? DPL_USER)
  && (negb (trapno (ev_tf e) =? T_SYSCALL) || call_ok (s32 (eax (ev_tf e))) (tid (slot_of s i))).

Definition runs_to : machine -> machine -> Prop := reachable handle world well_behaved.

Lemma handle_safe me e s :
  well_behaved s me e = true ->
  triple me (fun s0 s' => procs s' = procs s /\ base me None (fun _ => True) s0 s')
    (handle me e) (fun _ => base me None (fun _ => True)).
Proof.
  intros [_ Hok]%andb_true_iff. eapply triple_bind; [|intros ?; apply (keeps_any me), keeps_ret].
  eapply triple_conseq; [apply (triple_trap (ev_turns e) me (ev_dev e) true (ev_tf e) (tid (slot_of s me)))|..].
  - intros Hn. rewrite Hn, Z.eqb_refl in Hok. done.
  - intros s0 s' [Hp Hb]. split; [done|]. unfold slot_of. by rewrite Hp.
  - done.
Qed.

Lemma world_silent s s' : world s s' -> procs s' = procs s /\ nextpid s' = nextpid s.
Proof. by destruct 1. Qed.



(** With the same calls, interrupts and faults, the slot that a process
    is building in clone stays its own while the others run: it is still
    EMBRYO, with the same ids and kernel stack as when its builder stopped, and
    no other process is building it. *)
Theorem embryo_private m0 m (i x : nat) c :
  fresh_machine m0 -> runs_to m0 m -> conts m i = Some c -> building (st_snap c) = Some x ->
  same_core (slot_of (st_snap c) x) (slot_of (ks m) x)
  /\ state (slot_of (ks m) x) = EMBRYO
  /\ forall j d, conts m j = Some d -> j <> i -> building (st_snap d) <> Some x.
Proof. apply machine_embryo; [apply handle_safe|apply world_silent]. Qed.

End system.

(** * A sample run *)

#[local] Existing Instances sample_link sample_tables.

(** The first process has the arguments of a call of clone on its stack, at
    address 4: a function at 0, the stack, the flags and the argument 5. *)
Definition clone_args : list Z := [0; PGSIZE; TFLAGS; 5] ≫= bytes4.
Definition system_fs : fsys :=
  Fsys ∅ None false true [] (replicate NBUF buf0) (rev (seq 0 NBUF))
    (Log 2 30 0 false ROOTDEV (LH 0 (replicate 30 0))) (SB 1000 941 200 30 2 32 58)
    [Inode ROOTDEV ROOTINO 1 sl0 true T_DIR 0 0 1 512 (59 :: replicate 12 0)]
    (Cons false (replicate 128 0) 0 0 0 [] 0 (replicate 2000 0) 0).
Definition system_machine : machine (FS := fsys) :=
  Mach (Kst (final (st_bytes (pg 0) 4 clone_args sample_grown)) (sample_init :: replicate 63 proc0) 2 (Some 0%nat)
    (replicate NFILE file0) ∅ 0 [] [] None system_fs) (fun _ => None).

(** The registers of a program that calls clone. *)
Definition clone_trap : event :=
  Trap (Dev 0 0 0 [] [] (fun _ => 0)) (TF 22 0 0 0 27 35 35 35 T_SYSCALL []) 5.

(** The slot of the thread is made, and its builder waits for the inode of
    the working directory. *)
Definition system_cloning : machine (FS := fsys) := next 0 (enter_kernel handle 0 clone_trap system_machine).
(** The thread has been made; its parent is back in user mode. *)
Definition system_cloned : machine (FS := fsys) := next 0 (next 0 system_cloning).

Lemma system_fresh : fresh_machine system_machine.
Proof. split; [by apply sample_inv|done]. Qed.

Lemma system_cloning_runs : runs_to system_machine system_cloning.
Proof. apply next_reachable, enter_reachable, mreach_refl. reflexivity. Qed.

Lemma system_cloned_runs : runs_to system_machine system_cloned.
Proof. apply next_reachable, next_reachable, system_cloning_runs. Qed.

Lemma system_cloning_stop : exists s k,
  conts system_cloning 0 = Some (Stop (SwAcquire icache_lock) s k) /\ building s = Some 1%nat.
Proof.
  assert (option_map (fun c => (st_why c, building (st_snap c))) (conts system_cloning 0)
    = Some (SwAcquire icache_lock, Some 1%nat)) as H by (vm_compute; reflexivity).
  destruct (conts system_cloning 0) as [[w s k]|]; [|discriminate]. injection H as -> <-. by exists s, k.
Qed.



Lemma embryo_private_witness : state (slot_of (ks system_cloning) 1) = EMBRYO.
Proof.
  destruct system_cloning_stop as (s & k & Hc & Hx).
  exact (proj1 (proj2 (embryo_private system_machine system_cloning 0 1 _ system_fresh
    system_cloning_runs Hc Hx))).
Defined.
