(* ===== verification/Solo.v ===== *)
(** One process and the disk: while the process sleeps, the controller
    finishes its command and interrupts.  The run records every content
    that the disk goes through, which is what a crash may leave. *)

From S2P Require Import Prelude Mmu Kernel Sched Rely Fsys Bio Life.

(** * Definitions *)

(** A piece of code that does not give up the CPU, with free locks. *)
Fixpoint atom {A} (o : outcome fsys A) : option (A * kst fsys) :=
  match o with
  | Done a s => Some (a, s)
  | Switch (SwAcquire lk) s k => if bool_decide (lk ∈ locked s) then None else atom (k s)
  | _ => None
  end.

(** * The interrupt *)

(** What the interrupt does to the file system when [b] is the only request. *)
Definition intr_data (b : nat) (r : fsys) : fsys :=
  if b_dirty (buf_of r b) then r else set_fs_bufs (alter (set_b_data (disk_data r)) b (fs_bufs r)) r.
Definition intr_fs (b : nat) (r : fsys) : fsys :=
  let r := intr_data b (set_fs_idequeue [] r) in
  set_fs_cmd None (set_fs_bufs (alter (fun x => set_b_dirty false (set_b_valid true x)) b (fs_bufs r)) r).

Lemma bind_fget {A B} (g : fsys -> A) (f : A -> KF B) s : (fget g ≫= f) s = f (g (fs s)) s.
Proof. done. Qed.
Lemma bind_fset {B} g (f : unit -> KF B) s : (fset g ≫= f) s = f tt (put_fs (g (fs s)) s).
Proof. done. Qed.

Lemma atom_bind {A B} (o : outcome fsys A) (f : A -> KF B) a s :
  atom o = Some (a, s) -> atom (obind o f) = atom (f a s).
Proof.
  revert a s. induction o as [a' s'|m s'|s'|w s' k IH]; intros a s; simpl; intros H; simplify_eq; [done|].
  destruct w as [lk|]; [|done]. case_bool_decide; [done|]. by apply IH.
Qed.

Lemma atom_critical {A} lk (m : KF A) s :
  lk ∉ mine s -> lk ∉ locked s -> atom ((acquire lk;; m) s) = atom (m (granted lk s s)).
Proof. intros H1 H2. rewrite critical_run by done. simpl. by rewrite bool_decide_eq_false_2. Qed.

Lemma atom_wakeup c s :
  LPtable ∉ mine s -> LPtable ∉ locked s ->
  atom (wakeup c s) = Some (tt, put_procs (wake c <$> procs s) s).
Proof.
  intros H1 H2. unfold wakeup. rewrite atom_critical by done. unfold wakeup1. rewrite bind_change.
  rewrite release_run by (simpl; left). simpl. repeat f_equal. apply unlocked_eq; try done.
Qed.

Lemma intr_read b s r :
  fs s = r ->
  (if negb (b_dirty (buf_of r b)) && negb false
   then fget disk_data ≫= λ d, bset b (set_b_data d) else mret tt) s = Done tt (put_fs (intr_data b r) s).
Proof. intros <-. unfold intr_data. destruct (b_dirty _); [by destruct s|done]. Qed.

Lemma intr_queue b r : fs_idequeue (intr_data b r) = fs_idequeue r.
Proof. unfold intr_data. by destruct (b_dirty _). Qed.

(** The end of the interrupt, from the change of the flags on. *)
Lemma intr_end b s r :
  mine s = [idelock] -> locked s = [idelock] -> fs s = r -> fs_idequeue r = [] ->
  atom ((bset b (fun x => set_b_dirty false (set_b_valid true x));;
         wakeup (Some (buf_chan b));;
         q ← fget fs_idequeue;
         (match q with [] => fset (set_fs_cmd None) | b :: _ => idestart b end);;
         release idelock) s) =
  Some (tt, put_mine [] (put_locked [] (put_procs (wake (Some (buf_chan b)) <$> procs s) (put_fs
    (set_fs_cmd None (set_fs_bufs (alter (fun x => set_b_dirty false (set_b_valid true x)) b (fs_bufs r)) r)) s)))).
Proof.
  intros H1 H2 <- H3. unfold bset. rewrite bind_fset. unfold mbind at 1, K_bind at 1.
  erewrite atom_bind by (apply atom_wakeup; simpl; rewrite ?H1, ?H2; set_solver).
  rewrite bind_fget. cbn [fs put_procs put_fs fs_idequeue set_fs_bufs]. rewrite H3. rewrite bind_fset.
  rewrite release_run by (simpl; rewrite H1; left). unfold unlocked. simpl. by rewrite H1, H2.
Qed.

Lemma ideintr_run s b :
  mine s = [] -> locked s = [] -> fs_idequeue (fs s) = [b] -> fs_err (fs s) = false ->
  atom (ideintr s) = Some (tt, put_mine [] (put_locked [] (put_procs (wake (Some (buf_chan b)) <$> procs s)
    (put_fs (intr_fs b (fs s)) s)))).
Proof.
  intros H1 H2 H3 H4. unfold ideintr. rewrite atom_critical by (rewrite ?H1, ?H2; set_solver).
  rewrite bind_fget. cbn [fs granted put_building put_mine put_locked]. rewrite H3. rewrite bind_fset.
  unfold bget_. rewrite !bind_fget. cbn [fs put_fs fs_err set_fs_idequeue granted put_building put_mine put_locked]. rewrite H4.
  erewrite bind_done by (by apply intr_read).
  rewrite (intr_end _ _ (intr_data b (set_fs_idequeue [] (fs s)))); [done|simpl; by rewrite ?H1, ?H2..|done|].
  by rewrite intr_queue.
Qed.

Section solo.
Context (me : nat).

(** The disk finishes its command, and its interrupt is handled. *)
Definition disk_turn (s : kst fsys) : option (kst fsys) :=
  snd <$> atom (ideintr (put_fs (disk_done (fs s)) s)).

(** The process runs to its end: its result, if it has one, and the
    contents of the disk after each command. *)
Fixpoint solo {A} (o : outcome fsys A) : option (A * kst fsys) * list disk_t :=
  match o with
  | Done a s => (Some (a, s), [])
  | Halt _ _ | Fuel _ => (None, [])
  | Switch (SwAcquire lk) s k => if bool_decide (lk ∈ locked s) then (None, []) else solo (k s)
  | Switch SwSched s k =>
    match disk_turn s with
    | Some s' =>
      if bool_decide (state (slot_of s' me) = RUNNABLE) then
        let '(r, t) := solo (k (upd me (set_state RUNNING) s')) in (r, fs_disk (fs s') :: t)
      else (None, [])
    | None => (None, [])
    end
  end.

(** * Runs *)

Lemma solo_bind {A B} (o : outcome fsys A) (f : A -> KF B) a s t :
  solo o = (Some (a, s), t) -> solo (obind o f) = (fst (solo (f a s)), t ++ snd (solo (f a s))).
Proof.
  revert a s t. induction o as [a' s'|m s'|s'|w s' k IH]; intros a s t; simpl; intros H; simplify_eq.
  - by destruct (solo (f a s)).
  - destruct w as [lk|].
    + case_bool_decide; [done|]. by apply IH.
    + destruct (disk_turn s') as [s2|]; [|done]. case_bool_decide; [|done].
      destruct (solo (k (upd me (set_state RUNNING) s2))) as [r u] eqn:E. simplify_eq.
      by rewrite (IH _ _ _ _ E).
Qed.

Lemma solo_assoc {A B C} (o : outcome fsys A) (f : A -> KF B) (g : B -> KF C) :
  solo (obind (obind o f) g) = solo (obind o (fun a s => obind (f a s) g)).
Proof.
  induction o as [a' s'|m s'|s'|w s' k IH]; simpl; try done. destruct w as [lk|].
  - case_bool_decide; [done|]. apply IH.
  - destruct (disk_turn s') as [s2|]; [|done]. case_bool_decide; [|done]. by rewrite IH.
Qed.

Context (p : Z).

(** Process [me], whose id is [p], runs with the locks [L] and the file
    system [r]; nobody else has a lock. *)
Record at_ (L : list lock) (r : fsys) (s : kst fsys) : Prop := At {
  at_mine : mine s = L;
  at_locked : locked s = L;
  at_fs : fs s = r;
  at_slot : (me < length (procs s))%nat;
  at_state : state (slot_of s me) = RUNNING;
  at_pid : pid (slot_of s me) = p }.

(** From locks [L] and file system [r], [m] returns [a] with [L'] and [r'],
    and the disk goes through [t]. *)
Definition does {A} (m : KF A) (L : list lock) (r : fsys) (t : list disk_t) (a : A) (L' : list lock) (r' : fsys)
    : Prop :=
  forall s, at_ L r s -> exists s', solo (m s) = (Some (a, s'), t) /\ at_ L' r' s'.

Lemma does_bind {A B} (m : KF A) (f : A -> KF B) L r t a L1 r1 u b L2 r2 :
  does m L r t a L1 r1 -> does (f a) L1 r1 u b L2 r2 -> does (m ≫= f) L r (t ++ u) b L2 r2.
Proof.
  intros H1 H2 s Hs. destruct (H1 s Hs) as (s1 & E1 & Hs1). destruct (H2 s1 Hs1) as (s2 & E2 & Hs2).
  exists s2. split; [|done]. unfold mbind, K_bind. by rewrite (solo_bind _ _ _ _ _ E1), E2.
Qed.

Lemma does_eq {A} (m : KF A) L r t a L' r1 t' r2 :
  does m L r t a L' r1 -> t = t' -> r1 = r2 -> does m L r t' a L' r2.
Proof. by intros H -> ->. Qed.

(** The same with a step whose trace is empty. *)
Lemma does_step {A B} (m : KF A) (f : A -> KF B) L r a L1 r1 u b L2 r2 :
  does m L r [] a L1 r1 -> does (f a) L1 r1 u b L2 r2 -> does (m ≫= f) L r u b L2 r2.
Proof. intros H1 H2. by apply (does_bind _ _ _ _ _ _ _ _ _ _ _ _ H1 H2). Qed.

Lemma does_assoc {A B C} (m : KF A) (f : A -> KF B) (g : B -> KF C) L r t c L' r' :
  does ((m ≫= f) ≫= g) L r t c L' r' -> does (m ≫= (fun a => f a ≫= g)) L r t c L' r'.
Proof.
  intros H s Hs. destruct (H s Hs) as (s' & E & Hs'). exists s'. split; [|done]. rewrite <- E.
  unfold mbind, K_bind. symmetry. apply solo_assoc.
Qed.

Lemma does_ret {A} (a : A) L r : does (mret a) L r [] a L r.
Proof. intros s Hs. by exists s. Qed.

Lemma does_fget {A} (g : fsys -> A) L r : does (fget g) L r [] (g r) L r.
Proof. intros s Hs. exists s. unfold fget. simpl. by rewrite (at_fs _ _ _ Hs). Qed.

Lemma does_fset g L r : does (fset g) L r [] tt L (g r).
Proof.
  intros s Hs. exists (put_fs (g (fs s)) s). split; [done|].
  destruct Hs as [H1 H2 H3 H4 H5 H6]. split; try done. simpl. by rewrite H3.
Qed.

Lemma does_pid L r : does (p_ me pid) L r [] p L r.
Proof. intros s Hs. exists s. unfold p_. simpl. by rewrite (at_pid _ _ _ Hs). Qed.

Lemma does_acquire lk L r : lk ∉ L -> does (acquire lk) L r [] tt (lk :: L) r.
Proof.
  intros Hn s [H1 H2 H3 H4 H5 H6]. rewrite acquire_run by (by rewrite H1). simpl.
  rewrite bool_decide_eq_false_2 by (by rewrite H2).
  eexists. split; [done|]. split; try done; simpl; congruence.
Qed.

Lemma does_release lk L r : lk ∉ L -> does (release lk) (lk :: L) r [] tt L r.
Proof.
  intros Hn s [H1 H2 H3 H4 H5 H6]. rewrite release_run by (rewrite H1; left). simpl.
  eexists. split; [done|]. split; try done; simpl; rewrite ?H1, ?H2; by apply remove_cons.
Qed.

Lemma does_wakeup c L r : LPtable ∉ L -> does (wakeup c) L r [] tt L r.
Proof.
  intros Hn s Hs. destruct (does_acquire LPtable L r Hn s Hs) as (s1 & E1 & Hs1).
  set (s2 := put_procs (wake c <$> procs s1) s1).
  assert (Hs2 : at_ (LPtable :: L) r s2).
  { destruct Hs1 as [H1 H2 H3 H4 H5 H6].
    assert (Hme : slot_of s2 me = slot_of s1 me).
    { unfold slot_of, s2. simpl. rewrite list_lookup_fmap, (lookup_slot s1 me H4). simpl.
      unfold wake. by rewrite bool_decide_eq_false_2 by (rewrite H5; done). }
    split; try done; [simpl; by rewrite length_fmap|by rewrite Hme..]. }
  destruct (does_release LPtable L r Hn s2 Hs2) as (s3 & E3 & Hs3).
  exists s3. split; [|done]. unfold wakeup, mbind, K_bind.
  rewrite (solo_bind _ _ _ _ _ E1). simpl. fold s2. by rewrite E3.
Qed.

(** Sleeping for the disk: the controller finishes the command, and the
    interrupt wakes the process. *)
Lemma does_sleep b r :
  fs_idequeue r = [b] -> fs_err r = false ->
  does (sleep me (Some (buf_chan b)) idelock) [idelock] r [fs_disk (disk_done r)] tt [idelock]
    (intr_fs b (disk_done r)).
Proof.
  intros Hq He s [H1 H2 H3 H4 H5 H6].
  destruct (sleep_enter me (Some (buf_chan b)) idelock s) as (k1 & E1 & K1); [done..|].
  rewrite E1. simpl. rewrite bool_decide_eq_false_2 by (rewrite H2; set_solver).
  destruct (K1 s) as (s2 & k2 & E2 & -> & K2); [done|rewrite H2; set_solver|]. clear K1.
  rewrite E2. cbn [solo]. clear E2. rewrite H2, remove_cons by set_solver.
  set (s2 := put_mine [] (put_locked [] (asleep me (Some (buf_chan b)) (locals s s)))).
  assert (Hf : fs s2 = r) by done. assert (Hp : procs s2 = procs (asleep me (Some (buf_chan b)) s)) by done.
  assert (Hm2 : mine s2 = []) by done. assert (Hl2 : locked s2 = []) by done. clearbody s2.
  set (r' := intr_fs b (disk_done r)).
  assert (Ht : disk_turn s2 = Some (put_mine [] (put_locked [] (put_procs (wake (Some (buf_chan b)) <$> procs s2)
    (put_fs r' (put_fs (disk_done r) s2)))))).
  { unfold disk_turn. rewrite (ideintr_run _ b); [by rewrite Hf|done..| |]; simpl; rewrite Hf; unfold disk_done;
      by repeat case_match. }
  rewrite Ht. clear Ht. set (s3 := put_mine _ _).
  assert (Hlen : length (procs s3) = length (procs s)).
  { unfold s3. simpl. rewrite length_fmap, Hp. unfold asleep, upd. simpl. apply length_alter. }
  assert (Hme : slot_of s3 me = set_state RUNNABLE (set_state SLEEPING (set_chan (Some (buf_chan b)) (slot_of s me)))).
  { unfold s3, slot_of. simpl. rewrite list_lookup_fmap, Hp. unfold asleep, upd. simpl.
    rewrite list_lookup_alter, decide_True, (lookup_slot s me H4) by done. simpl. unfold wake.
    by rewrite !bool_decide_eq_true_2. }
  assert (Hs3 : fs s3 = r' /\ locked s3 = []) by done. clearbody s3. destruct Hs3 as [Hf3 Hl3].
  rewrite bool_decide_eq_true_2 by (by rewrite Hme).
  destruct (K2 (upd me (set_state RUNNING) s3)) as (k3 & E3 & K3); [simpl; rewrite Hl3; set_solver|].
  rewrite E3. cbn [solo]. rewrite bool_decide_eq_false_2 by (simpl; rewrite Hl3; set_solver).
  rewrite K3. cbn [solo]. eexists. split; [rewrite Hf3; unfold r', intr_fs, intr_data; by case_match|].
  assert (Hend : slot_of (upd me (set_chan None) (upd me (set_state RUNNING) s3)) me
    = set_chan None (set_state RUNNING (slot_of s me))).
  { rewrite !slot_upd_eq by (simpl; rewrite ?length_alter, Hlen; done). by rewrite Hme. }
  change (slot_of (upd me (set_chan None) (upd me (set_state RUNNING) s3)) me) with
    (slot_of (granted idelock (put_mine [] s) (put_mine [] (upd me (set_chan None)
      (locals s (upd me (set_state RUNNING) s3))))) me) in Hend.
  split; [done|simpl; by rewrite Hl3|done|simpl; by rewrite !length_alter, Hlen|by rewrite Hend..].
Qed.

End solo.
