(* ===== verification/BioFacts.v ===== *)
(** The buffer cache of bio.c over the driver of ide.c, for one process and
    the disk: the invariant of the cache, and what bread, bwrite and brelse
    do to it. *)

From S2P Require Import Prelude Mmu Kernel Sched Rely Fsys Bio Life Solo.

(** * Definitions *)

Definition with_buf (i : nat) (x : buf) (r : fsys) : fsys := set_fs_bufs (<[i := x]> (fs_bufs r)) r.

(** The buffer that holds block [b] of the root device. *)
Definition is_block (b : Z) (x : buf) : bool := (b_dev x =? ROOTDEV) && (b_blockno x =? b).
Definition cached (r : fsys) (b : Z) : option nat := find_buf r (is_block b) (fs_order r).

(** The contents of a block, and whether it waits for a commit. *)
Definition blk (r : fsys) (b : Z) : list Z :=
  match cached r b with Some i => b_data (buf_of r i) | None => dblk (fs_disk r) b end.
Definition dirty (r : fsys) (b : Z) : bool :=
  match cached r b with Some i => b_dirty (buf_of r i) | None => false end.

(** The cache between two operations of process [p], which holds the
    buffers [H]. *)
Record cache_ok (p : Z) (H : list nat) (r : fsys) : Prop := {
  c_len : length (fs_bufs r) = NBUF;
  c_order : fs_order r ≡ₚ seq 0 NBUF;
  c_uniq : forall i j, (i < NBUF)%nat -> (j < NBUF)%nat -> b_dev (buf_of r i) = ROOTDEV ->
    b_dev (buf_of r j) = ROOTDEV -> b_blockno (buf_of r i) = b_blockno (buf_of r j) -> i = j;
  c_dirty : forall i, (i < NBUF)%nat -> b_dirty (buf_of r i) = true -> b_dev (buf_of r i) = ROOTDEV;
  c_valid : forall i, (i < NBUF)%nat -> b_dev (buf_of r i) = ROOTDEV -> b_valid (buf_of r i) = true;
  c_clean : forall i, (i < NBUF)%nat -> i ∉ H -> b_dev (buf_of r i) = ROOTDEV -> b_dirty (buf_of r i) = false ->
    b_data (buf_of r i) = dblk (fs_disk r) (b_blockno (buf_of r i));
  c_free : forall i, (i < NBUF)%nat -> i ∉ H -> sl_locked (b_lock (buf_of r i)) = false /\ b_refcnt (buf_of r i) = 0;
  c_held : forall i, i ∈ H -> (i < NBUF)%nat /\ b_lock (buf_of r i) = SL true p /\ b_refcnt (buf_of r i) = 1
    /\ b_dev (buf_of r i) = ROOTDEV;
  c_queue : fs_idequeue r = [];
  c_err : fs_err r = false;
  c_disk1 : fs_havedisk1 r = true }.

(** [r'] is [r] with [x] in buffer [i] and [d] on the disk. *)
Record touches (i : nat) (x : buf) (d : disk_t) (r r' : fsys) : Prop := {
  t_bufs : fs_bufs r' = <[i := x]> (fs_bufs r);
  t_order : fs_order r' ≡ₚ fs_order r;
  t_disk : fs_disk r' = d;
  t_queue : fs_idequeue r' = fs_idequeue r;
  t_err : fs_err r' = fs_err r;
  t_disk1 : fs_havedisk1 r' = fs_havedisk1 r;
  t_log : fs_log r' = fs_log r;
  t_sb : fs_sb r' = fs_sb r;
  t_icache : fs_icache r' = fs_icache r;
  t_cons : fs_cons r' = fs_cons r }.

(** [r'] is [r] with [d] on the disk, [f] as the contents of the blocks and
    [g] as the blocks that wait for a commit. *)
Record moved (d : disk_t) (f : Z -> list Z) (g : Z -> bool) (r r' : fsys) : Prop := {
  m_disk : fs_disk r' = d;
  m_blk : forall b, blk r' b = f b;
  m_dirty : forall b, dirty r' b = g b;
  m_log : fs_log r' = fs_log r;
  m_sb : fs_sb r' = fs_sb r;
  m_icache : fs_icache r' = fs_icache r;
  m_cons : fs_cons r' = fs_cons r }.

Definition set_at {A} (f : Z -> A) (b : Z) (v : A) : Z -> A := fun b' => if decide (b' = b) then v else f b'.

Lemma touches_trans i x d r r1 x' d' r2 :
  touches i x d r r1 -> touches i x' d' r1 r2 -> touches i x' d' r r2.
Proof.
  intros [] []. split; try congruence; [by rewrite t_bufs1, t_bufs0, list_insert_insert_eq|by etransitivity].
Qed.

Lemma touches_buf i x r : touches i x (fs_disk r) r (with_buf i x r).
Proof. by split. Qed.

Lemma buf_insert i x l j r :
  fs_bufs r = <[i := x]> l -> (i < length l)%nat -> buf_of r j = if decide (i = j) then x else default buf0 (l !! j).
Proof.
  intros Hr Hi. unfold buf_of. rewrite Hr. case_decide; [subst; by rewrite list_lookup_insert_eq|].
  by rewrite list_lookup_insert_ne.
Qed.

Lemma touches_of i x d r r' j :
  touches i x d r r' -> (i < length (fs_bufs r))%nat -> buf_of r' j = if decide (i = j) then x else buf_of r j.
Proof. intros [] Hi. by apply (buf_insert i x (fs_bufs r)). Qed.

(** * Looking for a buffer *)

Lemma find_buf_Some r f l i : find_buf r f l = Some i -> i ∈ l /\ f (buf_of r i) = true.
Proof.
  unfold find_buf. intros H. apply head_Some_elem_of in H. apply list_elem_of_filter in H. naive_solver.
Qed.

Lemma find_buf_None r f l i : find_buf r f l = None -> i ∈ l -> f (buf_of r i) = false.
Proof.
  unfold find_buf. intros H Hi. apply head_None in H. destruct (f (buf_of r i)) eqn:E; [|done].
  assert (i ∈ filter (fun i => f (buf_of r i) = true) l) as Hin by (by apply list_elem_of_filter).
  rewrite H in Hin. set_solver.
Qed.

Lemma cached_Some p H r b i :
  cache_ok p H r -> cached r b = Some i <->
  (i < NBUF)%nat /\ b_dev (buf_of r i) = ROOTDEV /\ b_blockno (buf_of r i) = b.
Proof.
  intros C. assert (Hin : forall i, i ∈ fs_order r <-> (i < NBUF)%nat).
  { intros j. rewrite (c_order _ _ _ C), elem_of_seq. lia. }
  assert (Hb : forall i, is_block b (buf_of r i) = true <->
    b_dev (buf_of r i) = ROOTDEV /\ b_blockno (buf_of r i) = b).
  { intros j. unfold is_block. rewrite andb_true_iff, !Z.eqb_eq. done. }
  unfold cached. split.
  - intros [H1 H2]%find_buf_Some. rewrite Hin in H1. by rewrite Hb in H2.
  - intros (H1 & H2 & H3). destruct (find_buf r (is_block b) (fs_order r)) as [j|] eqn:E.
    + apply find_buf_Some in E as [E1 E2]. rewrite Hin in E1. rewrite Hb in E2. destruct E2 as [E2 E3].
      f_equal. apply (c_uniq _ _ _ C); congruence.
    + assert (is_block b (buf_of r i) = false) as Hf by (apply (find_buf_None _ _ _ _ E); by apply Hin).
      rewrite (proj2 (Hb i)) in Hf; done.
Qed.

Lemma cached_None p H r b :
  cache_ok p H r -> cached r b = None <->
  forall i, (i < NBUF)%nat -> b_dev (buf_of r i) = ROOTDEV -> b_blockno (buf_of r i) <> b.
Proof.
  intros C. split.
  - intros Hn i H1 H2 H3. by rewrite (proj2 (cached_Some _ _ _ b i C)) in Hn.
  - intros Hn. destruct (cached r b) as [i|] eqn:E; [|done]. apply (cached_Some _ _ _ _ _ C) in E. naive_solver.
Qed.

(** * Changing a buffer *)

Section touch.
Context (p : Z) (H H' : list nat) (i : nat) (x : buf) (d : disk_t) (r r' : fsys).
Context (C : cache_ok p H r) (Ht : touches i x d r r') (Hi : (i < NBUF)%nat) (Hdev : b_dev x = ROOTDEV).
Context (Hother : forall j, (j < NBUF)%nat -> j <> i -> b_dev (buf_of r j) = ROOTDEV ->
  b_blockno (buf_of r j) <> b_blockno x).
Context (Hd : forall b, b <> b_blockno x -> dblk d b = dblk (fs_disk r) b).

Lemma touched j : buf_of r' j = if decide (i = j) then x else buf_of r j.
Proof. apply (touches_of _ _ _ _ _ _ Ht). by rewrite (c_len _ _ _ C). Qed.

Lemma cache_touch :
  b_valid x = true ->
  (forall j, j <> i -> j ∈ H' <-> j ∈ H) ->
  (i ∈ H' -> b_lock x = SL true p /\ b_refcnt x = 1) ->
  (i ∉ H' -> sl_locked (b_lock x) = false /\ b_refcnt x = 0
     /\ (b_dirty x = false -> b_data x = dblk d (b_blockno x))) ->
  cache_ok p H' r'.
Proof.
  intros Hv HH Hheld Hfree. destruct C as [C1 C2 C3 C4 C5 C6 C7 C8 C9 C10 C11].
  split.
  - rewrite (t_bufs _ _ _ _ _ Ht). by rewrite length_insert.
  - by rewrite (t_order _ _ _ _ _ Ht).
  - intros j k Hj Hk. rewrite !touched. repeat case_decide; subst; try done.
    + intros _ ? E. by destruct (Hother k Hk).
    + intros ? _ E. by destruct (Hother j Hj).
    + by apply C3.
  - intros j Hj. rewrite touched. case_decide; [done|]. by apply C4.
  - intros j Hj. rewrite touched. case_decide; [done|]. by apply C5.
  - intros j Hj Hn. rewrite touched, (t_disk _ _ _ _ _ Ht). case_decide; [subst; intros; by apply Hfree|].
    intros H1 H2. rewrite Hd by by apply Hother. apply C6; try done. by rewrite <- HH.
  - intros j Hj Hn. rewrite touched. case_decide; [subst; destruct (Hfree Hn); naive_solver|].
    apply C7; [done|]. by rewrite <- HH.
  - intros j Hj. rewrite touched. case_decide; [subst; destruct (Hheld Hj); naive_solver|].
    apply C8. by rewrite <- HH.
  - by rewrite (t_queue _ _ _ _ _ Ht).
  - by rewrite (t_err _ _ _ _ _ Ht).
  - by rewrite (t_disk1 _ _ _ _ _ Ht).
Qed.

(** The other blocks keep their contents, the one that loses its buffer too. *)
Lemma view_touch b :
  cache_ok p H' r' ->
  (b_dev (buf_of r i) = ROOTDEV -> b_blockno (buf_of r i) <> b_blockno x ->
     i ∉ H /\ b_dirty (buf_of r i) = false) ->
  blk r' b = (if decide (b = b_blockno x) then b_data x else blk r b)
  /\ dirty r' b = (if decide (b = b_blockno x) then b_dirty x else dirty r b).
Proof.
  intros C' Hold. unfold blk, dirty. destruct (decide (b = b_blockno x)) as [->|Hb].
  { assert (cached r' (b_blockno x) = Some i) as ->; [|rewrite touched; by rewrite decide_True].
    apply (cached_Some _ _ _ _ _ C'). rewrite touched. by rewrite decide_True. }
  destruct (cached r' b) as [j|] eqn:E.
  - apply (cached_Some _ _ _ _ _ C') in E as (E1 & E2 & E3). rewrite touched in *.
    case_decide; [by subst|]. by rewrite (proj2 (cached_Some _ _ _ b j C)).
  - rewrite (t_disk _ _ _ _ _ Ht), Hd by done.
    destruct (cached r b) as [j|] eqn:E'; [|done]. apply (cached_Some _ _ _ _ _ C) in E' as (E1 & E2 & E3).
    destruct (decide (j = i)) as [->|Hne].
    + destruct Hold as [H1 H2]; [done|congruence|]. rewrite H2. split; [|done].
      rewrite (c_clean _ _ _ C i); [by rewrite E3|done..].
    + assert (Hn := proj1 (cached_None _ _ _ b C') E j E1). rewrite touched, decide_False in Hn by done.
      by destruct Hn.
Qed.

End touch.

(** * The operations *)

Lemma alter_insert {A} (f : A -> A) i (l : list A) x : l !! i = Some x -> alter f i l = <[i := f x]> l.
Proof.
  intros Hx. apply list_eq. intros j. destruct (decide (i = j)) as [<-|Hne].
  - rewrite list_lookup_alter, decide_True by done. rewrite Hx. simpl. symmetry. apply list_lookup_insert_eq.
    by apply lookup_lt_Some in Hx.
  - by rewrite list_lookup_alter_ne, list_lookup_insert_ne.
Qed.

Lemma buf_lookup r i : (i < length (fs_bufs r))%nat -> fs_bufs r !! i = Some (buf_of r i).
Proof. intros Hi. unfold buf_of. by destruct (lookup_lt_is_Some_2 _ _ Hi) as [x ->]. Qed.

Lemma lookup_with_buf i x r : (i < length (fs_bufs r))%nat -> buf_of (with_buf i x r) i = x.
Proof. intros Hi. unfold buf_of, with_buf. simpl. by rewrite list_lookup_insert_eq. Qed.

Lemma length_with_buf i x r : length (fs_bufs (with_buf i x r)) = length (fs_bufs r).
Proof. apply length_insert. Qed.

Lemma with_buf_twice i x y r : with_buf i y (with_buf i x r) = with_buf i y r.
Proof. unfold with_buf. simpl. by rewrite list_insert_insert_eq. Qed.

Section ops.
Context (me : nat) (p : Z) (t : nat).
Notation turns := (S (S t)).
Notation does := (does me p).

Lemma does_bset i f L r :
  (i < length (fs_bufs r))%nat -> does (bset i f) L r [] tt L (with_buf i (f (buf_of r i)) r).
Proof.
  intros Hi. eapply does_eq; [apply does_fset|done|]. cbv beta. unfold with_buf.
  by rewrite (alter_insert _ _ _ _ (buf_lookup r i Hi)).
Qed.

Lemma does_bget {A} i (f : buf -> A) L r : does (bget_ i f) L r [] (f (buf_of r i)) L r.
Proof. apply (does_fget _ _ (fun r => f (buf_of r i))). Qed.

Lemma does_holdingsleep i r :
  b_lock (buf_of r i) = SL true p -> does (holdingsleep me (SBuf i)) [] r [] true [] r.
Proof.
  intros Hl. unfold holdingsleep.
  eapply does_step; [apply does_acquire; set_solver|]. eapply does_step; [apply does_fget|].
  eapply does_step; [apply does_pid|]. eapply does_step; [apply does_release; set_solver|].
  simpl. rewrite Hl. simpl. rewrite Z.eqb_refl. apply does_ret.
Qed.

Lemma does_acquiresleep i r :
  (i < length (fs_bufs r))%nat -> sl_locked (b_lock (buf_of r i)) = false ->
  does (acquiresleep turns me (SBuf i)) [] r [] tt [] (with_buf i (set_b_lock (SL true p) (buf_of r i)) r).
Proof.
  intros Hi Hl. unfold acquiresleep. eapply does_step; [apply does_acquire; set_solver|].
  eapply does_step.
  { cbn [acquiresleep_loop]. eapply does_step; [apply does_fget|]. simpl. rewrite Hl. apply does_ret. }
  eapply does_step; [apply does_pid|]. eapply does_step; [by apply does_bset|]. apply does_release. set_solver.
Qed.

Lemma does_releasesleep i r :
  (i < length (fs_bufs r))%nat ->
  does (releasesleep (SBuf i)) [] r [] tt [] (with_buf i (set_b_lock (SL false 0) (buf_of r i)) r).
Proof.
  intros Hi. unfold releasesleep. eapply does_step; [apply does_acquire; set_solver|].
  eapply does_step; [by apply does_bset|]. eapply does_step; [apply does_wakeup; set_solver|].
  apply does_release. set_solver.
Qed.

(** What a transfer leaves in the buffer and on the disk. *)
Definition io_buf (d : disk_t) (x : buf) : buf :=
  set_b_dirty false (set_b_valid true (if b_dirty x then x else set_b_data (dblk d (b_blockno x)) x)).
Definition io_disk (x : buf) (d : disk_t) : disk_t := if b_dirty x then <[b_blockno x := b_data x]> d else d.

Definition request (i : nat) (r : fsys) : fsys :=
  let x := buf_of r i in
  set_fs_cmd (Some (if b_dirty x then CmdWrite (b_blockno x) (b_data x) else CmdRead (b_blockno x)))
    (set_fs_idequeue (fs_idequeue r ++ [i]) r).

Lemma request_touches i r :
  (i < length (fs_bufs r))%nat -> fs_idequeue r = [] ->
  touches i (io_buf (fs_disk r) (buf_of r i)) (io_disk (buf_of r i) (fs_disk r)) r
    (intr_fs i (disk_done (request i r))).
Proof.
  intros Hi Hq. pose proof (alter_insert (A := buf)) as HA. pose proof (buf_lookup r i Hi) as Hl.
  unfold intr_fs, intr_data, disk_done, request, io_buf, io_disk, disk_data. cbn.
  destruct (b_dirty (buf_of r i)) eqn:E; cbn; unfold buf_of in E |- *; cbn; rewrite E; cbn; split; cbn; try done.
  - by rewrite (HA _ _ _ _ Hl).
  - rewrite (HA _ _ _ _ Hl). rewrite (HA _ i _ (set_b_data (dblk (fs_disk r) (b_blockno (buf_of r i))) (buf_of r i))).
    + by rewrite list_insert_insert_eq.
    + by apply list_lookup_insert_eq.
Qed.

Lemma does_iderw_wait i r r' :
  fs_idequeue r = [i] -> fs_err r = false -> negb (b_valid (buf_of r i)) || b_dirty (buf_of r i) = true ->
  intr_fs i (disk_done r) = r' -> negb (b_valid (buf_of r' i)) || b_dirty (buf_of r' i) = false ->
  does (iderw_wait me i turns) [idelock] r [fs_disk r'] tt [idelock] r'.
Proof.
  intros Hq He Hw Hr Hw'. cbn [iderw_wait]. eapply does_step; [apply does_bget|]. cbv beta. rewrite Hw.
  eapply does_eq; [eapply does_bind; [by apply does_sleep|]|..]; [|rewrite app_nil_r|done].
  - eapply does_step; [apply does_bget|]. cbv beta. rewrite Hr, Hw'. apply does_ret.
  - f_equal. rewrite <- Hr. unfold intr_fs, intr_data. by case_match.
Qed.

Lemma does_iderw i r :
  (i < length (fs_bufs r))%nat -> b_lock (buf_of r i) = SL true p ->
  (b_valid (buf_of r i) = false \/ b_dirty (buf_of r i) = true) -> fs_havedisk1 r = true ->
  b_blockno (buf_of r i) < FSSIZE -> fs_idequeue r = [] -> fs_err r = false ->
  exists r', does (iderw turns me i) [] r [fs_disk r'] tt [] r'
    /\ touches i (io_buf (fs_disk r) (buf_of r i)) (io_disk (buf_of r i) (fs_disk r)) r r'.
Proof.
  intros Hi Hl Hv Hd Hb Hq He. pose proof (request_touches i r Hi Hq) as Ht.
  set (r' := intr_fs i (disk_done (request i r))) in Ht. assert (Hr : intr_fs i (disk_done (request i r)) = r') by done.
  clearbody r'. exists r'. split; [|done].
  assert (Hw : negb (b_valid (buf_of r i)) || b_dirty (buf_of r i) = true) by (destruct Hv as [-> | ->]; [done|apply orb_true_r]).
  unfold iderw. eapply does_step; [by apply does_holdingsleep|]. eapply does_step; [apply does_bget|].
  eapply does_step; [apply does_fget|]. cbn [negb].
  assert (b_valid (buf_of r i) && negb (b_dirty (buf_of r i)) = false) as ->.
  { destruct Hv as [-> | ->]; [done|]. apply andb_false_r. }
  rewrite Hd, andb_false_r. eapply does_step; [apply does_acquire; set_solver|].
  eapply does_step; [apply does_fset|]. eapply does_step; [apply does_fget|].
  cbn [fs_idequeue set_fs_idequeue]. rewrite decide_True by (by rewrite Hq). eapply does_step.
  { unfold idestart. eapply does_step; [apply does_bget|].
    change (buf_of (set_fs_idequeue (fs_idequeue r ++ [i]) r) i) with (buf_of r i). cbv beta.
    rewrite (proj2 (Z.leb_gt _ _)) by done. apply does_fset. }
  rewrite <- (app_nil_r [fs_disk r']). eapply does_bind; [|apply does_release; set_solver].
  apply (does_iderw_wait _ (request i r)); try done.
  - cbn. by rewrite Hq.
  - rewrite (touches_of _ _ _ _ _ _ Ht Hi). by rewrite decide_True.
Qed.

Definition unused (x : buf) : bool := (b_refcnt x =? 0) && negb (b_dirty x).

(** A buffer for block [b]: its own, or one that can be recycled. *)
Definition room (r : fsys) (b : Z) : Prop :=
  (exists i, cached r b = Some i) \/ exists i, (i < NBUF)%nat /\ unused (buf_of r i) = true.

Lemma does_bget_hit H r b i :
  cache_ok p H r -> cached r b = Some i -> i ∉ H ->
  does (bget turns me ROOTDEV b) [] r [] i [] (with_buf i (set_b_lock (SL true p) (set_b_refcnt 1 (buf_of r i))) r).
Proof.
  intros C Hc Hi. pose proof (proj1 (cached_Some _ _ _ _ _ C) Hc) as (Hlt & _).
  destruct (c_free _ _ _ C i Hlt Hi) as [Hl Hn]. rewrite <- (c_len _ _ _ C) in Hlt.
  unfold bget. eapply does_step; [apply does_acquire; set_solver|]. eapply does_step; [apply does_fget|].
  cbv beta. unfold cached, is_block in Hc. rewrite Hc.
  eapply does_step; [by apply does_bset|]. cbv beta. rewrite Hn. change (u32 (0 + 1)) with 1.
  eapply does_step; [apply does_release; set_solver|].
  eapply does_step; [apply does_acquiresleep; [by rewrite length_with_buf|by rewrite lookup_with_buf]|].
  rewrite lookup_with_buf, with_buf_twice by done. apply does_ret.
Qed.

Lemma does_bget_miss H r b i :
  cache_ok p H r -> cached r b = None -> find_buf r unused (rev (fs_order r)) = Some i -> (i < NBUF)%nat -> i ∉ H ->
  does (bget turns me ROOTDEV b) [] r [] i []
    (with_buf i (Buf false false ROOTDEV b (SL true p) 1 (b_data (buf_of r i))) r).
Proof.
  intros C Hc Hf Hlt Hi. destruct (c_free _ _ _ C i Hlt Hi) as [Hl Hn]. rewrite <- (c_len _ _ _ C) in Hlt.
  unfold bget. eapply does_step; [apply does_acquire; set_solver|]. eapply does_step; [apply does_fget|].
  cbv beta. unfold cached, is_block in Hc. rewrite Hc. unfold unused in Hf. rewrite Hf.
  eapply does_step; [by apply does_bset|]. cbv beta.
  eapply does_step; [apply does_release; set_solver|].
  eapply does_step; [apply does_acquiresleep; [by rewrite length_with_buf|by rewrite lookup_with_buf]|].
  rewrite lookup_with_buf, with_buf_twice by done. apply does_ret.
Qed.

Definition locked_buf (r : fsys) (b : Z) : buf := Buf true (dirty r b) ROOTDEV b (SL true p) 1 (blk r b).

Lemma does_bread H r b :
  cache_ok p H r -> b < FSSIZE -> (forall i, i ∈ H -> b_blockno (buf_of r i) <> b) -> room r b ->
  exists i r' T, does (bread turns me ROOTDEV b) [] r T i [] r' /\ Forall (eq (fs_disk r)) T
    /\ touches i (locked_buf r b) (fs_disk r) r r' /\ (i < NBUF)%nat /\ i ∉ H
    /\ (cached r b = Some i \/ cached r b = None /\ b_dirty (buf_of r i) = false).
Proof.
  intros C Hb HH Hroom. destruct (cached r b) as [i|] eqn:Hc.
  - pose proof (proj1 (cached_Some _ _ _ _ _ C) Hc) as (Hlt & Hdev & Hbn).
    assert (Hi : i ∉ H) by (intros Hi; by apply (HH i Hi)).
    pose proof Hlt as Hlt'. rewrite <- (c_len _ _ _ C) in Hlt'.
    eexists i, _, []. split_and!; [|done|apply touches_buf| done..|by left].
    unfold bread. eapply does_step; [by apply (does_bget_hit H)|]. eapply does_step; [apply does_bget|].
    rewrite lookup_with_buf by done. simpl. rewrite (c_valid _ _ _ C) by done.
    eapply does_step; [apply does_ret|]. eapply does_eq; [apply does_ret|done|].
    f_equal. unfold locked_buf, blk, dirty. rewrite Hc. unfold set_b_lock, set_b_refcnt. simpl.
    by rewrite (c_valid _ _ _ C), Hdev, Hbn.
  - destruct Hroom as [[i Hi]|(j & Hj & Hu)]; [congruence|].
    destruct (find_buf r unused (rev (fs_order r))) as [i|] eqn:Hf.
    2:{ apply (find_buf_None _ _ _ j) in Hf; [congruence|]. rewrite <- Permutation_rev, (c_order _ _ _ C), elem_of_seq. lia. }
    pose proof Hf as [Hin Hui]%find_buf_Some. rewrite <- Permutation_rev, (c_order _ _ _ C), elem_of_seq in Hin.
    unfold unused in Hui. apply andb_true_iff in Hui as [Hu1%Z.eqb_eq Hu2%negb_true_iff].
    assert (Hi : i ∉ H). { intros Hi. destruct (c_held _ _ _ C i Hi) as (_ & _ & H1 & _). lia. }
    assert (Hlt : (i < NBUF)%nat) by lia. pose proof Hlt as Hlt'. rewrite <- (c_len _ _ _ C) in Hlt'.
    pose proof (does_bget_miss H r b i C Hc Hf Hlt Hi) as Hget.
    set (x := Buf false false ROOTDEV b (SL true p) 1 (b_data (buf_of r i))) in Hget.
    destruct (does_iderw i (with_buf i x r)) as (r' & Hio & Ht).
    { by rewrite length_with_buf. } { by rewrite lookup_with_buf. } { left. by rewrite lookup_with_buf. }
    { by rewrite <- (c_disk1 _ _ _ C). } { by rewrite lookup_with_buf. } { by rewrite <- (c_queue _ _ _ C). }
    { by rewrite <- (c_err _ _ _ C). }
    rewrite !lookup_with_buf in Ht by done. cbn in Ht.
    pose proof (touches_trans _ _ _ _ _ _ _ _ (touches_buf i x r) Ht) as Ht'.
    exists i, r', [fs_disk r']. rewrite (t_disk _ _ _ _ _ Ht). split_and!; [|by repeat constructor|..]; try done.
    + unfold bread. eapply does_step; [exact Hget|]. eapply does_step; [apply does_bget|].
      rewrite lookup_with_buf by done. simpl. rewrite <- (app_nil_r [fs_disk r]).
      eapply does_bind; [|apply does_ret]. by rewrite <- (t_disk _ _ _ _ _ Ht).
    + unfold locked_buf, blk, dirty. by rewrite Hc.
    + by right.
Qed.

(** * What they do to the contents of the blocks *)

Lemma held_other H r i j :
  cache_ok p H r -> i ∈ H -> (j < NBUF)%nat -> j <> i -> b_dev (buf_of r j) = ROOTDEV ->
  b_blockno (buf_of r j) <> b_blockno (buf_of r i).
Proof.
  intros C Hi Hj Hne Hd Hb. apply Hne. destruct (c_held _ _ _ C i Hi) as (? & _ & _ & ?).
  by apply (c_uniq _ _ _ C).
Qed.

Lemma held_blk H r i : cache_ok p H r -> i ∈ H ->
  blk r (b_blockno (buf_of r i)) = b_data (buf_of r i) /\ dirty r (b_blockno (buf_of r i)) = b_dirty (buf_of r i).
Proof.
  intros C Hi. destruct (c_held _ _ _ C i Hi) as (? & _ & _ & ?). unfold blk, dirty.
  by rewrite (proj2 (cached_Some _ _ _ _ i C)).
Qed.

Lemma touch_moved H H' i x d r r' f g :
  cache_ok p H r -> cache_ok p H' r' -> touches i x d r r' -> (i < NBUF)%nat -> b_dev x = ROOTDEV ->
  (forall j, (j < NBUF)%nat -> j <> i -> b_dev (buf_of r j) = ROOTDEV -> b_blockno (buf_of r j) <> b_blockno x) ->
  (forall b, b <> b_blockno x -> dblk d b = dblk (fs_disk r) b) ->
  (b_dev (buf_of r i) = ROOTDEV -> b_blockno (buf_of r i) <> b_blockno x -> i ∉ H /\ b_dirty (buf_of r i) = false) ->
  (forall b, f b = if decide (b = b_blockno x) then b_data x else blk r b) ->
  (forall b, g b = if decide (b = b_blockno x) then b_dirty x else dirty r b) ->
  moved d f g r r'.
Proof.
  intros C C' Ht Hi Hdev Hother Hd Hold Hf Hg.
  pose proof (fun b => view_touch p H H' i x d r r' C Ht Hi Hdev Hother Hd b C' Hold) as Hv. destruct Ht.
  split; try done; intros b; rewrite ?Hf, ?Hg; by destruct (Hv b).
Qed.

Lemma bread_ok H r b :
  cache_ok p H r -> b < FSSIZE -> (forall i, i ∈ H -> b_blockno (buf_of r i) <> b) -> room r b ->
  exists i r' T, does (bread turns me ROOTDEV b) [] r T i [] r' /\ Forall (eq (fs_disk r)) T
    /\ cache_ok p (i :: H) r' /\ i ∉ H /\ buf_of r' i = locked_buf r b
    /\ (forall j, j <> i -> buf_of r' j = buf_of r j) /\ moved (fs_disk r) (blk r) (dirty r) r r'.
Proof.
  intros C Hb HH Hroom. destruct (does_bread H r b C Hb HH Hroom) as (i & r' & T & Hdo & HT & Ht & Hlt & Hi & Hc).
  assert (Hother : forall j, (j < NBUF)%nat -> j <> i -> b_dev (buf_of r j) = ROOTDEV -> b_blockno (buf_of r j) <> b).
  { intros j Hj Hne Hd Hbj. destruct Hc as [Hc|[Hc _]].
    - apply Hne. apply (cached_Some _ _ _ _ _ C) in Hc as (? & ? & ?). apply (c_uniq _ _ _ C); congruence.
    - by apply (proj1 (cached_None _ _ _ b C) Hc j). }
  assert (C' : cache_ok p (i :: H) r').
  { apply (cache_touch p H (i :: H) i _ _ r r' C Ht); try done; set_solver. }
  assert (Hlen : (i < length (fs_bufs r))%nat) by (by rewrite (c_len _ _ _ C)).
  exists i, r', T. split_and!; try done.
  - rewrite (touches_of _ _ _ _ _ _ Ht Hlen). by rewrite decide_True.
  - intros j Hj. rewrite (touches_of _ _ _ _ _ _ Ht Hlen). by rewrite decide_False.
  - apply (touch_moved H (i :: H) i _ _ r r' _ _ C C' Ht); try done.
    + intros Hd Hbn. destruct Hc as [Hc|[_ Hc]]; [|done].
      apply (cached_Some _ _ _ _ _ C) in Hc as (? & ? & ?). done.
    + intros b'. simpl. by case_decide; subst.
    + intros b'. simpl. by case_decide; subst.
Qed.

Lemma set_data_ok H r i v :
  cache_ok p H r -> i ∈ H -> let b := b_blockno (buf_of r i) in
  let r' := with_buf i (set_b_data v (buf_of r i)) r in
  cache_ok p H r' /\ moved (fs_disk r) (set_at (blk r) b v) (dirty r) r r'.
Proof.
  intros C Hi b r'. destruct (c_held _ _ _ C i Hi) as (Hlt & Hl & Hn & Hdev).
  pose proof (touches_buf i (set_b_data v (buf_of r i)) r) as Ht. fold r' in Ht.
  assert (Hother := fun j => held_other H r i j C Hi).
  assert (C' : cache_ok p H r').
  { apply (cache_touch p H H i _ _ r r' C Ht); try done. by apply (c_valid _ _ _ C). }
  split; [done|]. apply (touch_moved H H i _ _ r r' _ _ C C' Ht); try done.
  intros b'. case_decide; [|done]. subst. by apply (held_blk H).
Qed.

Lemma dblk_insert d b v b' : dblk (<[b := v]> d) b' = if decide (b' = b) then v else dblk d b'.
Proof.
  unfold dblk, disk_t. case_decide; [subst; by rewrite lookup_insert_eq|].
  by rewrite lookup_insert_ne.
Qed.

Lemma bwrite_ok H r i :
  cache_ok p H r -> i ∈ H -> let b := b_blockno (buf_of r i) in b < FSSIZE ->
  exists r', does (bwrite turns me i) [] r [<[b := blk r b]> (fs_disk r)] tt [] r' /\ cache_ok p H r'
    /\ buf_of r' i = set_b_dirty false (buf_of r i) /\ (forall j, j <> i -> buf_of r' j = buf_of r j)
    /\ moved (<[b := blk r b]> (fs_disk r)) (blk r) (set_at (dirty r) b false) r r'.
Proof.
  intros C Hi b Hb. destruct (c_held _ _ _ C i Hi) as (Hlt & Hl & Hn & Hdev).
  assert (Hlen : (i < length (fs_bufs r))%nat) by (by rewrite (c_len _ _ _ C)).
  assert (Hother := fun j => held_other H r i j C Hi).
  destruct (held_blk H r i C Hi) as [Hblk Hdirty]. fold b in Hblk, Hdirty.
  set (r1 := with_buf i (set_b_dirty true (buf_of r i)) r).
  assert (H1 : buf_of r1 i = set_b_dirty true (buf_of r i)) by (by apply lookup_with_buf).
  destruct (does_iderw i r1) as (r' & Hdo & Ht).
  { unfold r1. by rewrite length_with_buf. } { by rewrite H1. } { right. by rewrite H1. }
  { apply (c_disk1 _ _ _ C). } { by rewrite H1. } { apply (c_queue _ _ _ C). } { apply (c_err _ _ _ C). }
  rewrite H1 in Ht. cbn in Ht. fold b in Ht. rewrite <- Hblk in Ht.
  pose proof (touches_trans _ _ _ _ _ _ _ _ (touches_buf i (set_b_dirty true (buf_of r i)) r) Ht) as Ht'.
  assert (Hx : set_b_dirty false (set_b_valid true (set_b_dirty true (buf_of r i))) = set_b_dirty false (buf_of r i)).
  { unfold set_b_dirty, set_b_valid. simpl. by rewrite (c_valid _ _ _ C) by done. }
  change (io_buf (fs_disk r) (set_b_dirty true (buf_of r i)))
    with (set_b_dirty false (set_b_valid true (set_b_dirty true (buf_of r i)))) in Ht'.
  rewrite Hx in Ht'. clear Ht.
  assert (Hd : forall b', b' <> b -> dblk (<[b := blk r b]> (fs_disk r)) b' = dblk (fs_disk r) b').
  { intros b' Hne. by rewrite dblk_insert, decide_False. }
  assert (C' : cache_ok p H r').
  { apply (cache_touch p H H i _ _ r r' C Ht'); try done. by apply (c_valid _ _ _ C). }
  exists r'. split_and!; try done.
  - unfold bwrite. eapply does_step; [by apply does_holdingsleep|]. cbn [negb].
    eapply does_step; [by apply does_bset|]. by rewrite (t_disk _ _ _ _ _ Ht') in Hdo.
  - rewrite (touches_of _ _ _ _ _ _ Ht' Hlen). by rewrite decide_True.
  - intros j Hj. rewrite (touches_of _ _ _ _ _ _ Ht' Hlen). by rewrite decide_False.
  - apply (touch_moved H H i _ _ r r' _ _ C C' Ht'); try done.
    intros b'. simpl. case_decide; [|done]. by subst.
Qed.

Lemma to_front i (l : list nat) : NoDup l -> i ∈ l -> i :: filter (fun j => j <> i) l ≡ₚ l.
Proof.
  intros Hn Hi. apply NoDup_Permutation; [|done|].
  - apply NoDup_cons. split; [|by apply NoDup_filter]. rewrite list_elem_of_filter. naive_solver.
  - intros j. rewrite elem_of_cons, list_elem_of_filter. destruct (decide (j = i)); naive_solver.
Qed.

Lemma brelse_ok H H' r i :
  cache_ok p H r -> i ∈ H -> i ∉ H' -> (forall j, j <> i -> j ∈ H' <-> j ∈ H) ->
  (b_dirty (buf_of r i) = false -> b_data (buf_of r i) = dblk (fs_disk r) (b_blockno (buf_of r i))) ->
  exists r', does (brelse me i) [] r [] tt [] r' /\ cache_ok p H' r'
    /\ (forall j, j <> i -> buf_of r' j = buf_of r j) /\ moved (fs_disk r) (blk r) (dirty r) r r'.
Proof.
  intros C Hi Hi' HH Hclean. destruct (c_held _ _ _ C i Hi) as (Hlt & Hl & Hn & Hdev).
  assert (Hlen : (i < length (fs_bufs r))%nat) by (by rewrite (c_len _ _ _ C)).
  assert (Hother := fun j => held_other H r i j C Hi). destruct (held_blk H r i C Hi) as [Hblk Hdirty].
  set (x := set_b_refcnt 0 (set_b_lock (SL false 0) (buf_of r i))).
  set (r' := set_fs_order (i :: filter (fun j => j <> i) (fs_order r)) (with_buf i x r)).
  assert (Ht : touches i x (fs_disk r) r r').
  { split; try done. apply to_front; rewrite (c_order _ _ _ C); [apply NoDup_seq|apply elem_of_seq; lia]. }
  assert (C' : cache_ok p H' r').
  { apply (cache_touch p H H' i _ _ r r' C Ht); try done. by apply (c_valid _ _ _ C). }
  exists r'. split_and!; try done.
  - unfold brelse. eapply does_step; [by apply does_holdingsleep|]. cbn [negb].
    eapply does_step; [by apply does_releasesleep|]. eapply does_step; [apply does_acquire; set_solver|].
    eapply does_step; [apply does_bset; by rewrite length_with_buf|]. eapply does_step; [apply does_bget|].
    rewrite !lookup_with_buf, with_buf_twice by (by rewrite ?length_with_buf).
    assert (u32 (b_refcnt (set_b_lock (SL false 0) (buf_of r i)) - 1) = 0) as -> by (simpl; by rewrite Hn).
    cbn [b_refcnt set_b_refcnt]. rewrite Z.eqb_refl. eapply does_step; [apply does_fset|].
    apply does_release. set_solver.
  - intros j Hj. rewrite (touches_of _ _ _ _ _ _ Ht Hlen). by rewrite decide_False.
  - apply (touch_moved H H' i _ _ r r' _ _ C C' Ht); try done; intros b'; simpl; case_decide; by subst.
Qed.

(** There is a buffer to read into when the held buffers and the blocks that
    wait for a commit do not fill the cache. *)
Lemma room_ok H r b D :
  cache_ok p H r -> (forall b, dirty r b = true -> b ∈ D) -> (length H + length D < NBUF)%nat -> room r b.
Proof.
  intros C HD Hlen. destruct (find_buf r unused (seq 0 NBUF)) as [i|] eqn:E.
  { apply find_buf_Some in E as [E1 E2]. apply elem_of_seq in E1. right. exists i. split; [lia|done]. }
  exfalso. assert (Hsub : seq 0 NBUF ⊆ H ++ omap (cached r) D).
  { intros i Hi. apply elem_of_app. destruct (decide (i ∈ H)) as [|Hn]; [by left|right].
    assert (Hu := find_buf_None _ _ _ i E Hi). apply elem_of_seq in Hi. assert (Hlt : (i < NBUF)%nat) by lia.
    unfold unused in Hu. rewrite (proj2 (c_free _ _ _ C i Hlt Hn)) in Hu. apply negb_false_iff in Hu.
    pose proof (c_dirty _ _ _ C i Hlt Hu) as Hdev.
    assert (Hc : cached r (b_blockno (buf_of r i)) = Some i) by (by apply (cached_Some _ _ _ _ _ C)).
    apply list_elem_of_omap. exists (b_blockno (buf_of r i)). split; [|done]. apply HD. unfold dirty. by rewrite Hc. }
  assert (Hle : (length (omap (cached r) D) <= length D)%nat).
  { clear. induction D as [|b D IH]; csimpl; [done|]. destruct (cached r b); csimpl; lia. }
  apply NoDup_submseteq, submseteq_length in Hsub; [|apply NoDup_seq]. rewrite length_app, length_seq in Hsub. lia.
Qed.

Lemma clean_blk r b : cache_ok p [] r -> dirty r b = false -> blk r b = dblk (fs_disk r) b.
Proof.
  intros C. unfold blk, dirty. destruct (cached r b) as [i|] eqn:E; [|done]. intros Hd.
  apply (cached_Some _ _ _ _ _ C) in E as (E1 & E2 & E3). rewrite (c_clean _ _ _ C i); [by rewrite E3|..]; try done.
  set_solver.
Qed.

Lemma moved_trans d f g r r1 d' f' g' r2 :
  moved d f g r r1 -> moved d' f' g' r1 r2 -> moved d' f' g' r r2.
Proof. intros [] []. split; congruence. Qed.

Lemma moved_ext d d' f f' g g' r r' :
  moved d f g r r' -> d = d' -> (forall b, f b = f' b) -> (forall b, g b = g' b) -> moved d' f' g' r r'.
Proof. intros [] -> Hf Hg. split; try done; intros b; [by rewrite m_blk0, Hf|by rewrite m_dirty0, Hg]. Qed.

End ops.
