(* ===== verification/Memide.v ===== *)
(** memide.c: the disk in memory that takes the place of ide.c in the other
    build of the kernel; it does to a buffer and to the disk what ide.c does. *)

From S2P Require Import Prelude Mmu Kernel Sched Rely Fsys Bio Life Solo BioFacts.

(** * Definitions *)

(** ideinit: the image that is linked with the kernel becomes the disk; the
    result is disksize.  The image is the list of its bytes, the disk the map
    from block numbers to the BSIZE bytes at their place. *)
Definition ideinit (fs_img : list Z) : KF Z :=
  let disksize := Z.of_nat (length fs_img) / BSIZE in
  fset (set_fs_disk (list_to_map ((fun b => (b, slice fs_img (b * BSIZE) BSIZE)) <$> seqZ 0 disksize)));;
  mret disksize.

Definition ideintr : KF unit := mret tt.

Section memide.
Context (me : nat) (disksize : Z).

Definition iderw (b : nat) : KF unit :=
  h ← holdingsleep me (SBuf b);
  x ← bget_ b (fun x => x);
  if negb h then kpanic "iderw: buf not locked"
  else if b_valid x && negb (b_dirty x) then kpanic "iderw: nothing to do"
  else if negb (b_dev x =? 1) then kpanic "iderw: request not for disk 1"
  else if disksize <=? b_blockno x then kpanic "iderw: block out of range"
  else
    (if b_dirty x then
       bset b (set_b_dirty false);;
       fset (fun r => set_fs_disk (<[b_blockno x := b_data x]> (fs_disk r)) r)
     else
       d ← fget (fun r => dblk (fs_disk r) (b_blockno x));
       bset b (set_b_data d));;
    bset b (set_b_valid true).

End memide.

(** * Facts *)

Section facts.
Context (me : nat) (p : Z) (t : nat) (disksize : Z).
Notation turns := (S (S t)).
Notation does := (does me p).

Lemma does_iderw_mem i r :
  (i < length (fs_bufs r))%nat -> b_lock (buf_of r i) = SL true p ->
  (b_valid (buf_of r i) = false \/ b_dirty (buf_of r i) = true) -> b_dev (buf_of r i) = 1 ->
  b_blockno (buf_of r i) < disksize ->
  exists r', does (iderw me disksize i) [] r [] tt [] r'
    /\ touches i (io_buf (fs_disk r) (buf_of r i)) (io_disk (buf_of r i) (fs_disk r)) r r'.
Proof.
  intros Hi Hl Hv Hd Hb.
  assert (b_valid (buf_of r i) && negb (b_dirty (buf_of r i)) = false) as Hv'.
  { destruct Hv as [-> | ->]; [done|]. apply andb_false_r. }
  eexists. split.
  { unfold iderw. eapply does_step; [by apply does_holdingsleep|]. eapply does_step; [apply does_bget|].
    cbn [negb]. rewrite Hv', Hd. cbn [Z.eqb Pos.eqb negb]. rewrite (proj2 (Z.leb_gt _ _)) by done.
    eapply does_step with (r1 := if b_dirty (buf_of r i) then
      set_fs_disk (<[b_blockno (buf_of r i) := b_data (buf_of r i)]> (fs_disk r)) (with_buf i (set_b_dirty false (buf_of r i)) r)
      else with_buf i (set_b_data (dblk (fs_disk r) (b_blockno (buf_of r i))) (buf_of r i)) r).
    - destruct (b_dirty (buf_of r i)).
      + eapply does_step; [by apply does_bset|]. eapply does_eq; [apply does_fset|done|done].
      + eapply does_step; [apply does_fget|]. by apply does_bset.
    - apply does_bset. destruct (b_dirty _); cbn; by rewrite length_insert. }
  unfold io_buf, io_disk.
  destruct (b_dirty (buf_of r i)) eqn:E; split; cbn; try done; rewrite list_insert_insert_eq; f_equal;
    unfold buf_of at 1; cbn; rewrite list_lookup_insert_eq by done; cbn; [by destruct (buf_of r i)|].
  destruct (buf_of r i); cbn in *. by subst.
Qed.


End facts.

(** * Example *)

Definition sample_r (x : buf) : fsys :=
  Fsys ∅ None false true [] [x] [0%nat] (Log 0 0 0 false 0 (LH 0 [])) (SB 1000 941 200 30 2 32 58) []
    (Cons true [] 0 0 0 [] 0 [] 0).

