(* ===== verification/LogFacts.v ===== *)
(** The log of log.c: committing a transaction, crashing at any time, and
    recovering. *)

From S2P Require Import Prelude Mmu Kernel Sched Rely Fsys Field Bio Log Life Solo BioFacts.

(** * Definitions *)

(** A transaction that fits: the log has [size] blocks from [start] on, its
    header first; [bs] are the blocks of the transaction. *)
Record geometry (start size : Z) (bs : list Z) : Prop := {
  g_start : 1 < start;
  g_end : start + size <= FSSIZE;
  g_len : Z.of_nat (length bs) < size;
  g_buf : (length bs < NBUF)%nat;
  g_nodup : NoDup bs;
  g_home : forall b, b ∈ bs -> 1 < b < FSSIZE /\ ~ (start <= b < start + size) }.

(** The header in memory describes it. *)
Record header (start : Z) (bs : list Z) (l : log_t) : Prop := {
  h_dev : lg_dev l = ROOTDEV;
  h_start : lg_start l = start;
  h_n : lh_n (lg_lh l) = Z.of_nat (length bs);
  h_block : forall i, (i < length bs)%nat -> lh_block (lg_lh l) !!! i = bs !!! i }.

(** Nothing but the blocks has changed. *)
Record kept (r r' : fsys) : Prop := {
  k_log : fs_log r' = fs_log r;
  k_sb : fs_sb r' = fs_sb r;
  k_icache : fs_icache r' = fs_icache r;
  k_cons : fs_cons r' = fs_cons r }.

Lemma moved_kept d f g r r' : moved d f g r r' -> kept r r'.
Proof. by intros []. Qed.

#[export] Instance kept_trans : Transitive kept.
Proof. intros r1 r2 r3 [] []. split; congruence. Qed.
#[export] Instance kept_refl : Reflexive kept.
Proof. by intros r. Qed.

(** * The header block *)

Lemma foldl_insert (g : nat -> Z) n l :
  (n <= length l)%nat -> let l' := foldl (fun l i => <[i := g i]> l) l (seq 0 n) in
  length l' = length l /\ forall k, (k < n)%nat -> l' !!! k = g k.
Proof.
  intros Hl. induction n as [|n IH]; [split; [done|lia]|]. destruct IH as [H1 H2]; [lia|].
  rewrite seq_S, foldl_app. simpl. split; [by rewrite length_insert|]. intros k Hk. rewrite list_lookup_total_alt.
  destruct (decide (k = n)) as [->|Hne].
  - rewrite list_lookup_insert_eq; [done|]. rewrite H1. lia.
  - rewrite list_lookup_insert_ne by done. rewrite <- list_lookup_total_alt. apply H2. lia.
Qed.

Lemma length_wr_head h d : length (wr_head h d) = length d.
Proof. unfold wr_head. by rewrite length_put, length_wr32. Qed.

(** The header that is read is the one that was written. *)
Lemma rd_wr_head h0 h d n :
  lh_n h = Z.of_nat n -> (n <= 30)%nat -> length d = 512%nat -> (n <= length (lh_block h0))%nat ->
  (forall i, (i < n)%nat -> 0 <= lh_block h !!! i < 2 ^ 31) ->
  lh_n (rd_head h0 (wr_head h d)) = Z.of_nat n
  /\ forall i, (i < n)%nat -> lh_block (rd_head h0 (wr_head h d)) !!! i = lh_block h !!! i.
Proof.
  intros Hn H30 Hd Hl Hr.
  assert (E : s32 (rd32 (wr_head h d) 0) = Z.of_nat n).
  { unfold wr_head. rewrite Hn, Nat2Z.id. rewrite rd32_put_ne by (rewrite ?length_wr32; lia).
    rewrite rd32_wr32 by lia. rewrite u32_id by lia. apply s32_id. lia. }
  unfold rd_head. rewrite E, Nat2Z.id. simpl. split; [done|]. intros i Hi.
  destruct (foldl_insert (fun i => s32 (rd32 (wr_head h d) (4 + 4 * Z.of_nat i))) n (lh_block h0) Hl) as [_ ->]; [|done].
  unfold wr_head. rewrite Hn, Nat2Z.id. rewrite rd32_put by (rewrite ?length_wr32; lia).
  specialize (Hr i Hi). rewrite u32_id by lia. apply s32_id. lia.
Qed.

(** * Copying a block *)

Section log.
Context (me : nat) (p : Z) (t : nat).
Notation turns := (S (S t)).
Notation does := (does me p).
Notation cache_ok := (cache_ok p).

(** The end of a turn of write_log and of install_trans: [src] is copied to
    [dst], which is written. *)
Definition copy_out (dst src : nat) : KF unit :=
  d ← bget_ src b_data;
  bset dst (set_b_data d);;
  bwrite turns me dst;;
  brelse me src;;
  brelse me dst.

Lemma copy_out_ok H r dst src :
  cache_ok H r -> dst ∈ H -> src ∈ H -> dst <> src -> (forall k, k ∈ H -> k = dst \/ k = src) ->
  let a := b_blockno (buf_of r dst) in let b := b_blockno (buf_of r src) in a < FSSIZE ->
  (dirty r b = false -> blk r b = dblk (fs_disk r) b) ->
  exists r', does (copy_out dst src) [] r [<[a := blk r b]> (fs_disk r)] tt [] r' /\ cache_ok [] r'
    /\ moved (<[a := blk r b]> (fs_disk r)) (set_at (blk r) a (blk r b)) (set_at (dirty r) a false) r r'.
Proof.
  intros C Hd Hs Hne HH a b Ha Hclean.
  assert (Hab : b <> a).
  { intros E. destruct (c_held _ _ _ C src Hs) as (? & _ & _ & ?). by apply (held_other p H r dst src C Hd). }
  destruct (held_blk p H r src C Hs) as [Hb Hbd]. fold b in Hb, Hbd.
  set (v := b_data (buf_of r src)) in *. rewrite Hb in *.
  destruct (set_data_ok p H r dst v C Hd) as [C1 M1]. fold a in M1. set (r1 := with_buf dst _ r) in *.
  assert (B1 : buf_of r1 dst = set_b_data v (buf_of r dst)).
  { apply lookup_with_buf. rewrite (c_len _ _ _ C). by destruct (c_held _ _ _ C dst Hd). }
  assert (B1' : buf_of r1 src = buf_of r src).
  { unfold buf_of, r1, with_buf. simpl. by rewrite list_lookup_insert_ne. }
  destruct (bwrite_ok me p t H r1 dst C1 Hd) as (r2 & D2 & C2 & B2 & B2' & M2); [by rewrite B1|].
  assert (E2 : b_blockno (buf_of r1 dst) = a) by (by rewrite B1). rewrite E2 in *.
  assert (V2 : blk r1 a = v). { rewrite (m_blk _ _ _ _ _ M1). unfold set_at. by rewrite decide_True. }
  rewrite V2 in *. pose proof (B2' src (not_eq_sym Hne)) as S2. rewrite B1' in S2.
  destruct (brelse_ok me p H [dst] r2 src C2 Hs) as (r3 & D3 & C3 & B3 & M3).
  { set_solver. } { intros j Hj. specialize (HH j). set_solver. }
  { rewrite S2. intros E. rewrite (m_disk _ _ _ _ _ M2), dblk_insert, decide_False by done.
    rewrite (m_disk _ _ _ _ _ M1). apply Hclean. congruence. }
  destruct (brelse_ok me p [dst] [] r3 dst C3) as (r4 & D4 & C4 & B4 & M4).
  { set_solver. } { set_solver. } { set_solver. }
  { rewrite (B3 dst Hne), B2, (m_disk _ _ _ _ _ M3), (m_disk _ _ _ _ _ M2). simpl. rewrite B1. simpl. intros _.
    fold a. by rewrite dblk_insert, decide_True. }
  exists r4. split_and!; [|done|].
  - unfold copy_out. eapply does_step; [apply does_bget|]. eapply does_step.
    { apply does_bset. rewrite (c_len _ _ _ C). by destruct (c_held _ _ _ C dst Hd). }
    fold v. fold r1. rewrite <- (app_nil_r [_]). eapply does_bind; [|eapply does_step; [exact D3|exact D4]].
    by rewrite (m_disk _ _ _ _ _ M1) in D2.
  - eapply moved_ext; [eapply moved_trans; [exact M1|eapply moved_trans; [exact M2|
      eapply moved_trans; [exact M3|exact M4]]]|..].
    + rewrite (m_disk _ _ _ _ _ M3), (m_disk _ _ _ _ _ M2). by rewrite (m_disk _ _ _ _ _ M1).
    + intros b'. rewrite (m_blk _ _ _ _ _ M3), (m_blk _ _ _ _ _ M2). apply (m_blk _ _ _ _ _ M1).
    + intros b'. rewrite (m_dirty _ _ _ _ _ M3), (m_dirty _ _ _ _ _ M2). unfold set_at.
      case_decide; [done|]. apply (m_dirty _ _ _ _ _ M1).
Qed.

Lemma dirty_room r b : dirty r b = true -> room r b.
Proof. unfold dirty. intros H. left. destruct (cached r b) as [i|]; [by exists i|done]. Qed.

(** [a] and then [b] can be read. *)
Definition readable2 (r : fsys) (a b : Z) : Prop :=
  exists D, (forall b, dirty r b = true -> b ∈ D) /\ (length D < NBUF)%nat
    /\ (dirty r b = true \/ (length D + 1 < NBUF)%nat) /\ a <> b /\ a < FSSIZE /\ b < FSSIZE.

Lemma two_reads r a b :
  cache_ok [] r -> readable2 r a b ->
  exists i r1 T1 j r2 T2, does (bread turns me ROOTDEV a) [] r T1 i [] r1
    /\ does (bread turns me ROOTDEV b) [] r1 T2 j [] r2 /\ Forall (eq (fs_disk r)) (T1 ++ T2)
    /\ cache_ok [j; i] r2 /\ i <> j /\ b_blockno (buf_of r2 i) = a /\ b_blockno (buf_of r2 j) = b
    /\ moved (fs_disk r) (blk r) (dirty r) r r2.
Proof.
  intros C (D & HD & Hlen & Hroom & Hab & Ha & Hb).
  destruct (bread_ok me p t [] r a C Ha) as (i & r1 & T1 & D1 & F1 & C1 & _ & B1 & _ & M1).
  { set_solver. } { by apply (room_ok p [] r a D). }
  assert (Hd1 : forall b, dirty r1 b = dirty r b) by apply (m_dirty _ _ _ _ _ M1).
  destruct (bread_ok me p t [i] r1 b C1 Hb) as (j & r2 & T2 & D2 & F2 & C2 & Hj & B2 & B2' & M2).
  { intros k ->%list_elem_of_singleton. by rewrite B1. }
  { destruct Hroom as [Hr|Hr]; [apply dirty_room; by rewrite Hd1|].
    apply (room_ok p [i] r1 b D C1); [intros c; rewrite Hd1; apply HD|simpl; lia]. }
  assert (Hij : i <> j) by set_solver.
  exists i, r1, T1, j, r2, T2. split_and!; try done.
  - apply Forall_app. split; [done|]. by rewrite (m_disk _ _ _ _ _ M1) in F2.
  - rewrite B2' by done. by rewrite B1.
  - by rewrite B2.
  - eapply moved_ext; [eapply moved_trans; [exact M1|exact M2]|..]; [by destruct M1|by destruct M1..].
Qed.

Lemma log_one_ok r tail l :
  cache_ok [] r -> fs_log r = l -> lg_dev l = ROOTDEV ->
  let a := lg_start l + Z.of_nat tail + 1 in let b := lh_block (lg_lh l) !!! tail in
  readable2 r a b ->
  exists r' T, does (log_one turns me tail) [] r (T ++ [<[a := blk r b]> (fs_disk r)]) tt [] r'
    /\ Forall (eq (fs_disk r)) T /\ cache_ok [] r'
    /\ moved (<[a := blk r b]> (fs_disk r)) (set_at (blk r) a (blk r b)) (set_at (dirty r) a false) r r'.
Proof.
  intros C Hl Hdev a b Hr. destruct (two_reads r a b C Hr) as (i & r1 & T1 & j & r2 & T2 & D1 & D2 & F & C2 & Hij & Bi & Bj & M).
  destruct (copy_out_ok [j; i] r2 i j C2) as (r3 & D3 & C3 & M3); [set_solver..| | |].
  { rewrite Bi. by destruct Hr as (? & _ & _ & _ & _ & ? & _). }
  { rewrite Bj. destruct M as [Md Mb Mg _ _ _ _]. rewrite Mb, Mg, Md. by apply (clean_blk p). }
  rewrite Bi, Bj in *. exists r3, (T1 ++ T2). split_and!; [|done|done|].
  - unfold log_one. eapply does_step; [apply does_fget|]. cbv beta. rewrite Hl, Hdev. fold a b.
    rewrite <- app_assoc. eapply does_bind; [exact D1|]. eapply does_bind; [exact D2|].
    destruct M as [Md Mb Mg _ _ _ _]. rewrite Mb, Md in D3. exact D3.
  - eapply moved_ext; [eapply moved_trans; [exact M|exact M3]|..]; destruct M as [Md Mb Mg _ _ _ _]; unfold set_at;
      [by rewrite Md, Mb|intros c; by rewrite !Mb|intros c; by rewrite Mg].
Qed.

Lemma install_one_ok r tail l :
  cache_ok [] r -> fs_log r = l -> lg_dev l = ROOTDEV ->
  let a := lg_start l + Z.of_nat tail + 1 in let b := lh_block (lg_lh l) !!! tail in
  readable2 r a b ->
  exists r' T, does (install_one turns me tail) [] r (T ++ [<[b := blk r a]> (fs_disk r)]) tt [] r'
    /\ Forall (eq (fs_disk r)) T /\ cache_ok [] r'
    /\ moved (<[b := blk r a]> (fs_disk r)) (set_at (blk r) b (blk r a)) (set_at (dirty r) b false) r r'.
Proof.
  intros C Hl Hdev a b Hr. destruct (two_reads r a b C Hr) as (i & r1 & T1 & j & r2 & T2 & D1 & D2 & F & C2 & Hij & Bi & Bj & M).
  destruct (copy_out_ok [j; i] r2 j i C2) as (r3 & D3 & C3 & M3); [set_solver..| | |].
  { rewrite Bj. by destruct Hr as (? & _ & _ & _ & _ & _ & ?). }
  { rewrite Bi. destruct M as [Md Mb Mg _ _ _ _]. rewrite Mb, Mg, Md. by apply (clean_blk p). }
  rewrite Bi, Bj in *. exists r3, (T1 ++ T2). split_and!; [|done|done|].
  - unfold install_one. eapply does_step; [apply does_fget|]. cbv beta. rewrite Hl, Hdev. fold a b.
    rewrite <- app_assoc. eapply does_bind; [exact D1|]. eapply does_bind; [exact D2|].
    destruct M as [Md Mb Mg _ _ _ _]. rewrite Mb, Md in D3. exact D3.
  - eapply moved_ext; [eapply moved_trans; [exact M|exact M3]|..]; destruct M as [Md Mb Mg _ _ _ _]; unfold set_at;
      [by rewrite Md, Mb|intros c; by rewrite !Mb|intros c; by rewrite Mg].
Qed.

Lemma write_head_ok r l :
  cache_ok [] r -> fs_log r = l -> lg_dev l = ROOTDEV -> lg_start l < FSSIZE ->
  dirty r (lg_start l) = false -> room r (lg_start l) ->
  let w := wr_head (lg_lh l) (blk r (lg_start l)) in
  exists r' T, does (write_head turns me) [] r (T ++ [<[lg_start l := w]> (fs_disk r)]) tt [] r'
    /\ Forall (eq (fs_disk r)) T /\ cache_ok [] r'
    /\ moved (<[lg_start l := w]> (fs_disk r)) (set_at (blk r) (lg_start l) w) (dirty r) r r'.
Proof.
  intros C Hl Hdev Hb Hd Hroom w. set (b := lg_start l) in *.
  destruct (bread_ok me p t [] r b C Hb) as (i & r1 & T1 & D1 & F1 & C1 & _ & B1 & _ & M1); [set_solver|done|].
  assert (Hi : i ∈ [i]) by set_solver.
  destruct (set_data_ok p [i] r1 i w C1 Hi) as [C2 M2]. set (r2 := with_buf i _ r1) in *.
  assert (E1 : b_blockno (buf_of r1 i) = b) by (by rewrite B1). rewrite E1 in M2.
  assert (B2 : buf_of r2 i = set_b_data w (buf_of r1 i)).
  { apply lookup_with_buf. rewrite (c_len _ _ _ C1). by destruct (c_held _ _ _ C1 i Hi). }
  destruct (bwrite_ok me p t [i] r2 i C2 Hi) as (r3 & D3 & C3 & B3 & _ & M3); [by rewrite B2, B1|].
  assert (E2 : b_blockno (buf_of r2 i) = b) by (by rewrite B2, B1). rewrite E2 in *.
  assert (V2 : blk r2 b = w). { rewrite (m_blk _ _ _ _ _ M2). unfold set_at. by rewrite decide_True. }
  rewrite V2, (m_disk _ _ _ _ _ M2), (m_disk _ _ _ _ _ M1) in *.
  destruct (brelse_ok me p [i] [] r3 i C3 Hi) as (r4 & D4 & C4 & _ & M4); [set_solver..| |].
  { rewrite B3, (m_disk _ _ _ _ _ M3), B2, B1. intros _. simpl. by rewrite dblk_insert, decide_True. }
  exists r4, T1. split_and!; [|done..|].
  - unfold write_head. eapply does_step; [apply does_fget|]. cbv beta. rewrite Hl, Hdev. fold b.
    eapply does_bind; [exact D1|]. eapply does_step.
    { apply does_bset. rewrite (c_len _ _ _ C1). by destruct (c_held _ _ _ C1 i Hi). }
    cbv beta. assert (b_data (buf_of r1 i) = blk r b) as -> by (by rewrite B1). fold w. fold r2.
    rewrite <- (app_nil_r [_]). eapply does_bind; [exact D3|exact D4].
  - eapply moved_ext; [eapply moved_trans; [exact M1|eapply moved_trans; [exact M2|
      eapply moved_trans; [exact M3|exact M4]]]|..].
    + by rewrite (m_disk _ _ _ _ _ M3).
    + intros c. rewrite (m_blk _ _ _ _ _ M3), (m_blk _ _ _ _ _ M2). unfold set_at.
      case_decide; [done|]. apply (m_blk _ _ _ _ _ M1).
    + intros c. rewrite (m_dirty _ _ _ _ _ M3). unfold set_at.
      rewrite (m_dirty _ _ _ _ _ M2), (m_dirty _ _ _ _ _ M1). case_decide; congruence.
Qed.

Lemma moved_blk d f g a v r r' b : moved d (set_at f a v) g r r' -> b <> a -> blk r' b = f b.
Proof. intros M Hb. rewrite (m_blk _ _ _ _ _ M). unfold set_at. by rewrite decide_False. Qed.

Lemma moved_dblk d f g a v r r' b : moved (<[a := v]> d) f g r r' -> b <> a -> dblk (fs_disk r') b = dblk d b.
Proof. intros M Hb. rewrite (m_disk _ _ _ _ _ M), dblk_insert. by rewrite decide_False. Qed.

(** * write_log and install_trans *)

Context (start size : Z) (bs : list Z) (G : geometry start size bs).

Definition logged (b : Z) : Prop := start < b <= start + Z.of_nat (length bs).
Definition slot (i : nat) : Z := start + Z.of_nat i + 1.

Lemma home_out i : (i < length bs)%nat -> bs !!! i ∈ bs /\ ~ logged (bs !!! i) /\ bs !!! i <> start.
Proof.
  intros Hi. assert (Hin : bs !!! i ∈ bs) by (by apply list_elem_of_lookup_total_2).
  destruct (g_home _ _ _ G _ Hin) as [_ H]. pose proof (g_len _ _ _ G). unfold logged. split; [done|lia].
Qed.

Lemma readable_slot r i :
  (i < length bs)%nat -> (forall b, dirty r b = true -> b ∈ bs) ->
  (dirty r (bs !!! i) = true \/ forall b, dirty r b = false) -> readable2 r (slot i) (bs !!! i).
Proof.
  intros Hi Hd Hr. destruct (home_out i Hi) as (Hin & Hout & _). destruct (g_home _ _ _ G _ Hin) as [Hb _].
  pose proof (g_len _ _ _ G). pose proof (g_end _ _ _ G). pose proof (g_buf _ _ _ G).
  unfold slot, logged in *. destruct Hr as [Hr|Hr].
  - exists bs. split_and!; try done; [by left|lia..].
  - exists []. split_and!; [intros b Hb'; by rewrite Hr in Hb'|simpl; unfold NBUF; lia|right; simpl; unfold NBUF; lia|lia..].
Qed.

Lemma write_log_loop m k r :
  (k + m = length bs)%nat -> cache_ok [] r -> header start bs (fs_log r) ->
  (forall b, dirty r b = true <-> b ∈ bs) ->
  exists r' T, does (for_each (log_one turns me) (seq k m)) [] r T tt [] r' /\ cache_ok [] r' /\ kept r r'
    /\ (forall b, dirty r' b = dirty r b)
    /\ (forall b, ~ (slot k <= b < slot (k + m)) -> blk r' b = blk r b /\ dblk (fs_disk r') b = dblk (fs_disk r) b)
    /\ (forall i, (k <= i < length bs)%nat -> dblk (fs_disk r') (slot i) = blk r (bs !!! i))
    /\ Forall (fun d => forall b, ~ logged b -> dblk d b = dblk (fs_disk r) b) T.
Proof.
  revert k r. induction m as [|m IH]; intros k r Hk C Hh Hdirty.
  { exists r, []. split_and!; [apply does_ret|done|done|done|done|lia|constructor]. }
  cbn [seq for_each]. assert (Hlt : (k < length bs)%nat) by lia.
  destruct (home_out k Hlt) as (Hin & Hout & _).
  assert (Hslot : logged (slot k)) by (unfold logged, slot; lia).
  assert (Hnd : dirty r (slot k) = false).
  { apply not_true_iff_false. rewrite Hdirty. intros Hs. destruct (g_home _ _ _ G _ Hs) as [_ Hn].
    pose proof (g_len _ _ _ G). unfold slot in *. lia. }
  destruct (log_one_ok r k _ C eq_refl (h_dev _ _ _ Hh)) as (r1 & T1 & D1 & F1 & C1 & M1).
  { rewrite (h_start _ _ _ Hh), (h_block _ _ _ Hh k Hlt). apply readable_slot; [done|apply Hdirty|].
    left. by apply Hdirty. }
  rewrite (h_start _ _ _ Hh), (h_block _ _ _ Hh k Hlt) in *. fold (slot k) in *.
  assert (Hd1 : forall b, dirty r1 b = dirty r b).
  { intros b. rewrite (m_dirty _ _ _ _ _ M1). unfold set_at. case_decide; congruence. }
  destruct (IH (S k) r1) as (r2 & T2 & D2 & C2 & K2 & Hd2 & Hb2 & Hn2 & F2); [lia|done|..].
  { by rewrite (m_log _ _ _ _ _ M1). } { intros b. by rewrite Hd1. }
  assert (Hb1 : forall b, b <> slot k -> blk r1 b = blk r b) by (intros b; by apply (moved_blk _ _ _ _ _ _ _ _ M1)).
  assert (Hs1 : forall b, b <> slot k -> dblk (fs_disk r1) b = dblk (fs_disk r) b) by (intros b; by apply (moved_dblk _ _ _ _ _ _ _ _ M1)).
  exists r2, ((T1 ++ [<[slot k := blk r (bs !!! k)]> (fs_disk r)]) ++ T2). split_and!.
  - eapply does_bind; [exact D1|exact D2].
  - done.
  - etransitivity; [by eapply moved_kept|done].
  - intros b. by rewrite Hd2, Hd1.
  - intros b Hb. unfold slot in *. destruct (Hb2 b) as [-> ->]; [lia|]. rewrite Hb1, Hs1 by lia. done.
  - intros i Hi. destruct (decide (i = k)) as [->|Hne].
    + destruct (Hb2 (slot k)) as [_ ->]; [unfold slot; lia|].
      by rewrite (m_disk _ _ _ _ _ M1), dblk_insert, decide_True.
    + rewrite Hn2 by lia. apply Hb1. intros E. destruct (home_out i) as (_ & Hi' & _); [lia|]. by rewrite E in Hi'.
  - repeat apply Forall_app_2.
    + eapply Forall_impl; [exact F1|]. by intros d <-.
    + constructor; [|constructor]. intros b Hb. rewrite dblk_insert, decide_False; [done|]. by intros ->.
    + eapply Forall_impl; [exact F2|]. intros d Hd b Hb. rewrite Hd by done. apply Hs1. by intros ->.
Qed.

(** Every block of the transaction is as on [d0] or as in its log slot. *)
Definition partly (r : fsys) (d : disk_t) : Prop :=
  (forall b, b ∉ bs -> dblk d b = dblk (fs_disk r) b)
  /\ forall i, (i < length bs)%nat ->
       dblk d (bs !!! i) = dblk (fs_disk r) (bs !!! i) \/ dblk d (bs !!! i) = blk r (slot i).

Lemma home_inj i j : (i < length bs)%nat -> (j < length bs)%nat -> bs !!! i = bs !!! j -> i = j.
Proof.
  intros Hi Hj E. apply (NoDup_lookup bs i j (bs !!! i) (g_nodup _ _ _ G)).
  - by apply list_lookup_lookup_total_lt.
  - rewrite E. by apply list_lookup_lookup_total_lt.
Qed.

Lemma slot_home i j : (i < length bs)%nat -> (j < length bs)%nat -> slot i <> bs !!! j.
Proof. intros Hi Hj E. destruct (home_out j Hj) as (_ & H & _). apply H. rewrite <- E. unfold logged, slot. lia. Qed.

Lemma install_loop m k r :
  (k + m = length bs)%nat -> cache_ok [] r -> header start bs (fs_log r) ->
  (forall b, dirty r b = true -> b ∈ bs) ->
  ((forall i, (k <= i < length bs)%nat -> dirty r (bs !!! i) = true) \/ forall b, dirty r b = false) ->
  exists r' T, does (for_each (install_one turns me) (seq k m)) [] r T tt [] r' /\ cache_ok [] r' /\ kept r r'
    /\ (forall b, dirty r' b = true -> dirty r b = true /\ forall i, (k <= i < length bs)%nat -> b <> bs !!! i)
    /\ (forall b, (forall i, (k <= i < length bs)%nat -> b <> bs !!! i) ->
          blk r' b = blk r b /\ dblk (fs_disk r') b = dblk (fs_disk r) b)
    /\ (forall i, (k <= i < length bs)%nat -> dblk (fs_disk r') (bs !!! i) = blk r (slot i))
    /\ Forall (partly r) T.
Proof.
  revert k r. induction m as [|m IH]; intros k r Hk C Hh Hdirty Hmode.
  { exists r, []. split_and!; [apply does_ret|done|done| |done|lia|constructor].
    intros b Hb. split; [done|lia]. }
  cbn [seq for_each]. assert (Hlt : (k < length bs)%nat) by lia.
  destruct (home_out k Hlt) as (Hin & Hout & _).
  destruct (install_one_ok r k _ C eq_refl (h_dev _ _ _ Hh)) as (r1 & T1 & D1 & F1 & C1 & M1).
  { rewrite (h_start _ _ _ Hh), (h_block _ _ _ Hh k Hlt). apply readable_slot; [done..|].
    destruct Hmode as [Hm|Hm]; [left; apply Hm; lia|by right]. }
  rewrite (h_start _ _ _ Hh), (h_block _ _ _ Hh k Hlt) in *. fold (slot k) in *.
  assert (Hd1 : forall b, dirty r1 b = if decide (b = bs !!! k) then false else dirty r b) by apply (m_dirty _ _ _ _ _ M1).
  assert (Hb1 : forall b, b <> bs !!! k -> blk r1 b = blk r b) by (intros b; by apply (moved_blk _ _ _ _ _ _ _ _ M1)).
  assert (Hs1 : forall b, b <> bs !!! k -> dblk (fs_disk r1) b = dblk (fs_disk r) b) by (intros b; by apply (moved_dblk _ _ _ _ _ _ _ _ M1)).
  assert (Hk1 : dblk (fs_disk r1) (bs !!! k) = blk r (slot k)) by (by rewrite (m_disk _ _ _ _ _ M1), dblk_insert, decide_True).
  destruct (IH (S k) r1) as (r2 & T2 & D2 & C2 & K2 & Hd2 & Hb2 & Hn2 & F2); [lia|done|..].
  { by rewrite (m_log _ _ _ _ _ M1). }
  { intros b. rewrite Hd1. case_decide; [done|]. apply Hdirty. }
  { destruct Hmode as [Hm|Hm]; [left|right].
    - intros i Hi. rewrite Hd1, decide_False; [apply Hm; lia|]. intros E. apply home_inj in E; lia.
    - intros b. rewrite Hd1. by case_decide. }
  exists r2, ((T1 ++ [<[bs !!! k := blk r (slot k)]> (fs_disk r)]) ++ T2). split_and!.
  - eapply does_bind; [exact D1|exact D2].
  - done.
  - etransitivity; [by eapply moved_kept|done].
  - intros b Hb. destruct (Hd2 b Hb) as [Hb' Hne]. rewrite Hd1 in Hb'. case_decide; [done|].
    split; [done|]. intros i Hi. destruct (decide (i = k)) as [->|]; [done|]. apply Hne. lia.
  - intros b Hb. destruct (Hb2 b) as [-> ->]; [intros i Hi; apply Hb; lia|].
    rewrite Hb1, Hs1 by (apply Hb; lia). done.
  - intros i Hi. destruct (decide (i = k)) as [->|Hne].
    + destruct (Hb2 (bs !!! k)) as [_ ->]; [|done]. intros i Hi' E. apply home_inj in E; lia.
    + rewrite Hn2 by lia. apply Hb1. apply slot_home; lia.
  - repeat apply Forall_app_2.
    + eapply Forall_impl; [exact F1|]. intros d <-. split; [done|by left].
    + constructor; [|constructor]. rewrite <- (m_disk _ _ _ _ _ M1). split.
      * intros b Hb. apply Hs1. by intros ->.
      * intros i Hi. destruct (decide (i = k)) as [->|Hne]; [by right|left]. apply Hs1. intros E.
        by apply home_inj in E.
    + eapply Forall_impl; [exact F2|]. intros d [Hd1' Hd2']. split.
      * intros b Hb. rewrite Hd1' by done. apply Hs1. by intros ->.
      * intros i Hi. rewrite <- (Hb1 (slot i)) by (by apply slot_home).
        destruct (decide (i = k)) as [->|Hne]; [|rewrite <- Hs1; [by apply Hd2'|intros E; by apply home_inj in E]].
        rewrite <- (Hb1 (slot k)) in Hk1 by (by apply slot_home). rewrite <- Hk1. right.
        destruct (Hd2' k Hi) as [->| ->]; done.
Qed.

(** * commit *)

Definition region (b : Z) : Prop := start <= b < start + size.

Definition head_empty (d : disk_t) : Prop :=
  length (dblk d start) = 512%nat /\ s32 (rd32 (dblk d start) 0) = 0.
Definition head_full (d : disk_t) : Prop :=
  length (dblk d start) = 512%nat /\ forall h0, length (lh_block h0) = 30%nat ->
    lh_n (rd_head h0 (dblk d start)) = Z.of_nat (length bs)
    /\ forall i, (i < length bs)%nat -> lh_block (rd_head h0 (dblk d start)) !!! i = bs !!! i.

(** The disks a crash may leave: nothing installed, committed, or all
    installed; [old] and [new] are the contents before and after. *)
Inductive crash_state (old new : Z -> list Z) (d : disk_t) : Prop :=
| Before : head_empty d -> (forall b, ~ region b -> dblk d b = old b) -> crash_state old new d
| Committed : head_full d -> (forall i, (i < length bs)%nat -> dblk d (slot i) = new (bs !!! i)) ->
    (forall b, ~ region b -> b ∉ bs -> dblk d b = new b) -> crash_state old new d
| After : head_empty d -> (forall b, ~ region b -> dblk d b = new b) -> crash_state old new d.

Lemma cache_ok_log H l r : cache_ok H r -> cache_ok H (set_fs_log l r).
Proof. by intros []. Qed.

Lemma home_region b : b ∈ bs -> ~ region b.
Proof. intros Hb. by destruct (g_home _ _ _ G _ Hb). Qed.

Lemma region_logged b : logged b -> region b.
Proof. pose proof (g_len _ _ _ G). unfold logged, region. lia. Qed.

Lemma start_region : region start.
Proof. pose proof (g_len _ _ _ G). unfold region. lia. Qed.

(** Clearing the header. *)
Lemma clear_ok r :
  cache_ok [] r -> lg_dev (fs_log r) = ROOTDEV -> lg_start (fs_log r) = start -> (forall b, dirty r b = false) ->
  length (blk r start) = 512%nat ->
  exists r' T d, does (clear_head;; write_head turns me) [] r (T ++ [d]) tt [] r' /\ Forall (eq (fs_disk r)) T
    /\ cache_ok [] r' /\ fs_disk r' = d /\ head_empty d /\ (forall b, b <> start -> dblk d b = dblk (fs_disk r) b)
    /\ (forall b, dirty r' b = false) /\ fs_log r' = set_lg_lh (set_lh_n 0 (lg_lh (fs_log r))) (fs_log r)
    /\ fs_sb r' = fs_sb r /\ fs_icache r' = fs_icache r /\ fs_cons r' = fs_cons r.
Proof.
  intros C Hdev Hst Hd Hlen. pose proof start_region as Hs. pose proof (g_end _ _ _ G).
  set (l := set_lg_lh (set_lh_n 0 (lg_lh (fs_log r))) (fs_log r)). set (r1 := set_fs_log l r).
  destruct (write_head_ok r1 l) as (r2 & T & D2 & F2 & C2 & M2); try done.
  { by apply cache_ok_log. } { simpl. rewrite Hst. unfold region in Hs. lia. }
  { apply Hd. }
  { apply (room_ok p [] r1 _ []); [by apply cache_ok_log|intros b Hb; change (dirty r b = true) in Hb; by rewrite Hd in Hb|simpl; unfold NBUF; lia]. }
  cbn [lg_start l] in *. change (lg_start l) with (lg_start (fs_log r)) in *. rewrite Hst in *.
  change (fs_disk r1) with (fs_disk r) in *. change (blk r1 start) with (blk r start) in *.
  set (w := wr_head (lg_lh l) (blk r start)) in *.
  exists r2, T, (<[start := w]> (fs_disk r)). split_and!; try done; try by destruct M2.
  - eapply does_step; [apply does_fset|]. exact D2.
  - unfold head_empty. rewrite dblk_insert, decide_True by done. unfold w. split; [by rewrite length_wr_head|].
    unfold wr_head. simpl. rewrite rd32_wr32 by lia. done.
  - intros b Hb. by rewrite dblk_insert, decide_False.
  - intros b. rewrite (m_dirty _ _ _ _ _ M2). apply Hd.
Qed.

(** The state of a transaction that is to be committed. *)
Record pending (r : fsys) : Prop := {
  q_cache : cache_ok [] r;
  q_header : header start bs (fs_log r);
  q_dirty : forall b, dirty r b = true <-> b ∈ bs;
  q_head : head_empty (fs_disk r) }.

Lemma blk_home r b : pending r -> b ∉ bs -> blk r b = dblk (fs_disk r) b.
Proof.
  intros Q Hb. apply (clean_blk p r b (q_cache _ Q)). apply not_true_iff_false. by rewrite (q_dirty _ Q).
Qed.

(** The transaction is in the log. *)
Record committed (r r' : fsys) : Prop := {
  cm_cache : cache_ok [] r';
  cm_log : fs_log r' = fs_log r;
  cm_dirty : forall b, dirty r' b = dirty r b;
  cm_head : head_full (fs_disk r');
  cm_slot : forall i, (i < length bs)%nat -> dblk (fs_disk r') (slot i) = blk r (bs !!! i);
  cm_home : forall b, ~ region b -> dblk (fs_disk r') b = dblk (fs_disk r) b }.

Lemma head_full_written r d :
  header start bs (fs_log r) -> length d = 512%nat ->
  head_full (<[start := wr_head (lg_lh (fs_log r)) d]> (fs_disk r)).
Proof.
  intros Hh Hd. pose proof (g_buf _ _ _ G). unfold NBUF in *. split; rewrite dblk_insert, decide_True by done.
  { by rewrite length_wr_head. }
  intros h0 Hl. destruct (rd_wr_head h0 (lg_lh (fs_log r)) d (length bs)) as [-> H2]; [apply Hh|lia|done|lia|..].
  - intros i Hi. rewrite (h_block _ _ _ Hh i Hi). destruct (home_out i Hi) as (Hin & _).
    destruct (g_home _ _ _ G _ Hin) as [Hb _]. unfold FSSIZE in Hb. lia.
  - split; [done|]. intros i Hi. rewrite H2 by done. by apply Hh.
Qed.

Lemma log_phase r :
  pending r ->
  exists r' T, does (write_log turns me;; write_head turns me) [] r T tt [] r' /\ committed r r'
    /\ Forall (crash_state (dblk (fs_disk r)) (blk r)) T.
Proof.
  intros Q. destruct Q as [C Hh Hd [Hlen Hemp]] eqn:EQ. clear EQ.
  pose proof start_region as Hs. pose proof (g_end _ _ _ G). pose proof (g_buf _ _ _ G).
  assert (Hns : dirty r start = false).
  { apply not_true_iff_false. rewrite Hd. intros Hb. by apply (home_region _ Hb). }
  destruct (write_log_loop (length bs) 0 r eq_refl C Hh Hd) as (r1 & T1 & D1 & C1 & K1 & Hd1 & Hb1 & Hn1 & F1).
  assert (Hout : forall b, ~ logged b -> blk r1 b = blk r b /\ dblk (fs_disk r1) b = dblk (fs_disk r) b).
  { intros b Hb. apply Hb1. unfold logged, slot in *. lia. }
  assert (Hsl : ~ logged start) by (unfold logged; lia).
  destruct (write_head_ok r1 _ C1 eq_refl) as (r2 & T2 & D2 & F2 & C2 & M2).
  { rewrite (k_log _ _ K1). apply Hh. }
  { rewrite (k_log _ _ K1), (h_start _ _ _ Hh). unfold region in Hs. lia. }
  { rewrite (k_log _ _ K1), (h_start _ _ _ Hh). by rewrite Hd1. }
  { apply (room_ok p [] r1 _ bs C1); [intros b; rewrite Hd1; apply Hd|done]. }
  rewrite (k_log _ _ K1), (h_start _ _ _ Hh) in *.
  assert (Hw : length (blk r1 start) = 512%nat).
  { destruct (Hout start Hsl) as [-> _]. by rewrite (clean_blk p r start C Hns). }
  assert (CM : committed r r2).
  { assert (Ho : forall b, b <> start -> dblk (fs_disk r2) b = dblk (fs_disk r1) b).
    { intros b. by apply (moved_dblk _ _ _ _ _ _ _ _ M2). }
    split; try done.
    - rewrite (m_log _ _ _ _ _ M2). apply K1.
    - intros b. by rewrite (m_dirty _ _ _ _ _ M2).
    - rewrite (m_disk _ _ _ _ _ M2). rewrite <- (k_log _ _ K1). apply head_full_written; [|done].
      by rewrite (k_log _ _ K1).
    - intros i Hi. rewrite Ho by (unfold slot; lia). apply Hn1. lia.
    - intros b Hb. rewrite Ho by (by intros ->). apply Hout. by intros Hl%region_logged. }
  eexists r2, _. split_and!; [|done|].
  - eapply does_bind; [|exact D2]. unfold write_log. eapply does_step; [apply does_fget|].
    cbv beta. rewrite (h_n _ _ _ Hh), Nat2Z.id. exact D1.
  - assert (B1 : Forall (crash_state (dblk (fs_disk r)) (blk r)) (fs_disk r1 :: T1)).
    { apply Forall_cons_2; [|eapply Forall_impl; [exact F1|]; intros d Hd'].
      - apply Before; [unfold head_empty; by destruct (Hout start Hsl) as [_ ->]|].
        intros b Hb. apply Hout. by intros Hl%region_logged.
      - apply Before; [unfold head_empty; by rewrite Hd'|]. intros b Hb. apply Hd'. by intros Hl%region_logged. }
    inversion B1 as [|? ? B2 B3]; subst. repeat apply Forall_app_2; [done| |].
    + eapply Forall_impl; [exact F2|]. by intros d <-.
    + constructor; [|constructor]. rewrite <- (m_disk _ _ _ _ _ M2). apply Committed; [apply CM|apply CM|].
      intros b Hb Hbs. rewrite (cm_home _ _ CM b Hb). symmetry. by apply blk_home.
Qed.

Lemma install_phase r old new :
  cache_ok [] r -> header start bs (fs_log r) -> head_full (fs_disk r) ->
  (forall i, (i < length bs)%nat -> dblk (fs_disk r) (slot i) = new (bs !!! i)) ->
  (forall b, ~ region b -> b ∉ bs -> dblk (fs_disk r) b = new b) ->
  (forall b, dirty r b = true -> b ∈ bs) ->
  ((forall i, (0 <= i < length bs)%nat -> dirty r (bs !!! i) = true) \/ forall b, dirty r b = false) ->
  exists r' T, does (install_trans turns me;; clear_head;; write_head turns me) [] r T tt [] r' /\ cache_ok [] r'
    /\ (forall b, dirty r' b = false) /\ (forall b, ~ region b -> dblk (fs_disk r') b = new b)
    /\ fs_log r' = set_lg_lh (set_lh_n 0 (lg_lh (fs_log r))) (fs_log r) /\ head_empty (fs_disk r')
    /\ Forall (crash_state old new) T /\ fs_sb r' = fs_sb r.
Proof.
  intros C Hh Hf Hslot Hhome Hd Hmode. pose proof start_region as Hs.
  assert (Hcl : forall b, region b -> blk r b = dblk (fs_disk r) b).
  { intros b Hb. apply (clean_blk p r b C). apply not_true_iff_false. intros Hb'%Hd. by apply (home_region _ Hb'). }
  assert (Hsr : forall i, (i < length bs)%nat -> region (slot i)).
  { intros i Hi. apply region_logged. unfold logged, slot. lia. }
  destruct (install_loop (length bs) 0 r eq_refl C Hh Hd Hmode) as (r1 & T1 & D1 & C1 & K1 & Hd1 & Hb1 & Hn1 & F1).
  assert (Hclean : forall b, dirty r1 b = false).
  { intros b. apply not_true_iff_false. intros Hb. destruct (Hd1 b Hb) as [Hb' Hne]. apply Hd in Hb'.
    apply list_elem_of_lookup in Hb' as [i Hi]. apply (Hne i); [apply lookup_lt_Some in Hi; lia|].
    symmetry. by apply list_lookup_total_correct. }
  assert (Hout : forall b, b ∉ bs -> blk r1 b = blk r b /\ dblk (fs_disk r1) b = dblk (fs_disk r) b).
  { intros b Hb. apply Hb1. intros i Hi ->. apply Hb. apply list_elem_of_lookup_total_2. lia. }
  assert (Hstart : start ∉ bs) by (intros Hb; by apply (home_region _ Hb)).
  destruct (clear_ok r1 C1) as (r2 & T2 & d2 & D2 & F2 & C2 & E2 & He2 & Ho2 & Hd2 & Hl2 & Hs2 & _).
  { rewrite (k_log _ _ K1). apply Hh. } { rewrite (k_log _ _ K1). apply Hh. } { done. }
  { destruct (Hout start Hstart) as [-> _]. rewrite Hcl by done. apply Hf. }
  assert (Hpart : forall d, partly r d -> crash_state old new d).
  { intros d [H1 H2]. apply Committed.
    - unfold head_full. rewrite H1 by done. apply Hf.
    - intros i Hi. rewrite H1; [by apply Hslot|]. intros Hb. apply (home_region _ Hb). by apply Hsr.
    - intros b Hb Hbs. rewrite H1 by done. by apply Hhome. }
  assert (Hnew : forall b, ~ region b -> dblk d2 b = new b).
  { intros b Hb. rewrite Ho2 by (by intros ->). destruct (decide (b ∈ bs)) as [Hin|Hin].
    - apply list_elem_of_lookup in Hin as [i Hi]. assert (Hlt := lookup_lt_Some _ _ _ Hi).
      apply list_lookup_total_correct in Hi as <-. rewrite Hn1 by lia. rewrite Hcl by (by apply Hsr). by apply Hslot.
    - destruct (Hout b Hin) as [_ ->]. by apply Hhome. }
  eexists r2, _. split_and!; [|done|done|by rewrite E2|by rewrite Hl2, (k_log _ _ K1)|by rewrite E2| |by rewrite Hs2, (k_sb _ _ K1)].
  - eapply does_bind; [|exact D2]. unfold install_trans. eapply does_step; [apply does_fget|].
    cbv beta. rewrite (h_n _ _ _ Hh), Nat2Z.id. exact D1.
  - repeat apply Forall_app_2.
    + eapply Forall_impl; [exact F1|exact Hpart].
    + eapply Forall_impl; [exact F2|]. intros d <-. apply Hpart. split.
      * intros b Hb. by apply Hout.
      * intros i Hi. right. apply Hn1. lia.
    + constructor; [|constructor]. by apply After.
Qed.

Lemma commit_ok r :
  pending r ->
  exists r' T, does (commit turns me) [] r T tt [] r' /\ cache_ok [] r' /\ (forall b, dirty r' b = false)
    /\ (forall b, ~ region b -> dblk (fs_disk r') b = blk r b) /\ lh_n (lg_lh (fs_log r')) = 0
    /\ fs_log r' = set_lg_lh (lg_lh (fs_log r')) (fs_log r) /\ head_empty (fs_disk r')
    /\ Forall (crash_state (dblk (fs_disk r)) (blk r)) T.
Proof.
  intros Q. pose proof (q_header _ Q) as Hh. destruct (decide (length bs = 0)%nat) as [Hz|Hz].
  { apply nil_length_inv in Hz. exists r, []. split_and!; try apply Q.
    - unfold commit. eapply does_step; [apply does_fget|]. cbv beta. rewrite (h_n _ _ _ Hh), Hz. apply does_ret.
    - intros b. apply not_true_iff_false. rewrite (q_dirty _ Q), Hz. set_solver.
    - intros b _. symmetry. apply blk_home; [done|]. rewrite Hz. set_solver.
    - by rewrite (h_n _ _ _ Hh), Hz.
    - by destruct (fs_log r).
    - constructor. }
  destruct (log_phase r Q) as (r1 & T1 & D1 & CM & F1).
  destruct (install_phase r1 (dblk (fs_disk r)) (blk r)) as (r2 & T2 & D2 & C2 & Hd2 & Hn2 & Hl2 & He2 & F2 & _).
  { apply CM. } { by rewrite (cm_log _ _ CM). } { apply CM. } { apply CM. }
  { intros b Hb Hbs. rewrite (cm_home _ _ CM b Hb). symmetry. by apply blk_home. }
  { intros b. rewrite (cm_dirty _ _ CM). apply Q. }
  { left. intros i Hi. rewrite (cm_dirty _ _ CM). apply Q. apply home_out. lia. }
  exists r2, (T1 ++ T2). split_and!; try done.
  - unfold commit. eapply does_step; [apply does_fget|]. cbv beta. rewrite (h_n _ _ _ Hh).
    rewrite (proj2 (Z.ltb_lt _ _)) by lia.
    apply does_assoc. eapply does_bind; [exact D1|exact D2].
  - by rewrite Hl2.
  - by rewrite Hl2, (cm_log _ _ CM).
  - by apply Forall_app_2.
Qed.

End log.

(** * Recovery *)

(** The file system when the machine starts. *)
Definition log0 : log_t := Log 0 0 0 false 0 (LH 0 (replicate 30 0)).
Definition boot (d : disk_t) (sb : superblock) (ic : list inode) (cn : console_t) : fsys :=
  Fsys d None false true [] (replicate NBUF buf0) (rev (seq 0 NBUF)) log0 sb ic cn.

Section recovery.
Context (me : nat) (p : Z) (t : nat).
Notation turns := (S (S t)).
Notation does := (does me p).
Notation cache_ok := (cache_ok p).

Lemma boot_ok d sb ic cn :
  let r := boot d sb ic cn in
  cache_ok [] r /\ (forall b, dirty r b = false) /\ forall b, blk r b = dblk d b.
Proof.
  intros r. assert (Hb : forall i, buf_of r i = buf0).
  { intros i. unfold buf_of. change (fs_bufs r) with (replicate NBUF buf0).
    destruct (decide (i < NBUF)%nat); [by rewrite lookup_replicate_2|].
    by rewrite lookup_ge_None_2 by (rewrite length_replicate; lia). }
  assert (Hroot : b_dev buf0 <> ROOTDEV) by done.
  assert (C : cache_ok [] r).
  { split; try done; try (intros i; rewrite Hb; naive_solver); [symmetry; apply Permutation_rev|].
    by intros i Hi%elem_of_nil. }
  assert (Hc : forall b, cached r b = None).
  { intros b. apply (cached_None _ _ _ b C). intros i _. by rewrite Hb. }
  unfold dirty, blk. split_and!; [done|intros b; by rewrite Hc..].
Qed.

Lemma clean_room r b : cache_ok [] r -> (forall b, dirty r b = false) -> room r b.
Proof. intros C Hd. apply (room_ok p [] r b [] C); [intros c; by rewrite Hd|simpl; unfold NBUF; lia]. Qed.

(** A machine that has just started: nothing is dirty, and the log is empty. *)
Definition started (d : disk_t) (r : fsys) : Prop :=
  cache_ok [] r /\ (forall b, dirty r b = false) /\ fs_disk r = d /\ (forall b, blk r b = dblk d b) /\ fs_log r = log0.

Lemma boot_started d sb ic cn : started d (boot d sb ic cn).
Proof. destruct (boot_ok d sb ic cn) as (C & Hd & Hb). by split_and!. Qed.

(** Reading a block, with a change of the log before it is released. *)
Lemma read_ok r b (f : list Z -> log_t -> log_t) {A} (g : list Z -> A) :
  cache_ok [] r -> b < FSSIZE -> (forall b, dirty r b = false) ->
  exists i r1 r2 r' T, does (bread turns me ROOTDEV b) [] r T i [] r1 /\ b_data (buf_of r1 i) = blk r b
    /\ r2 = set_fs_log (f (blk r b) (fs_log r)) r1 /\ does (brelse me i) [] r2 [] tt [] r'
    /\ Forall (eq (fs_disk r)) T /\ cache_ok [] r' /\ fs_disk r' = fs_disk r /\ (forall b, dirty r' b = false)
    /\ (forall b, blk r' b = blk r b) /\ fs_log r1 = fs_log r /\ fs_log r' = f (blk r b) (fs_log r)
    /\ fs_sb r' = fs_sb r /\ fs_cons r' = fs_cons r.
Proof.
  intros C Hb Hd.
  destruct (bread_ok me p t [] r b C Hb) as (i & r1 & T1 & D1 & F1 & C1 & _ & B1 & _ & M1); [set_solver|by apply clean_room|].
  assert (Hi : i ∈ [i]) by set_solver. set (r2 := set_fs_log (f (blk r b) (fs_log r)) r1).
  destruct (brelse_ok me p [i] [] r2 i (cache_ok_log p [i] _ r1 C1) Hi) as (r3 & D3 & C3 & _ & M3); [set_solver..| |].
  { change (buf_of r2 i) with (buf_of r1 i). change (fs_disk r2) with (fs_disk r1). rewrite B1. intros _. simpl.
    rewrite (m_disk _ _ _ _ _ M1). by apply (clean_blk p). }
  exists i, r1, r2, r3, T1. split_and!; try done.
  - by rewrite B1.
  - rewrite (m_disk _ _ _ _ _ M3). apply M1.
  - intros c. rewrite (m_dirty _ _ _ _ _ M3). change (dirty r2 c) with (dirty r1 c). by rewrite (m_dirty _ _ _ _ _ M1).
  - intros c. rewrite (m_blk _ _ _ _ _ M3). apply (m_blk _ _ _ _ _ M1).
  - apply M1.
  - apply (m_log _ _ _ _ _ M3).
  - rewrite (m_sb _ _ _ _ _ M3). apply M1.
  - rewrite (m_cons _ _ _ _ _ M3). apply M1.
Qed.

(** initlog up to the reading of the header. *)
Definition mounted (start : Z) (d : disk_t) (sb : superblock) (r : fsys) : Prop :=
  cache_ok [] r /\ (forall b, dirty r b = false) /\ fs_disk r = d /\ lg_dev (fs_log r) = ROOTDEV
  /\ lg_start (fs_log r) = start /\ lg_lh (fs_log r) = rd_head (lg_lh log0) (dblk d start)
  /\ fs_sb r = sb.

Lemma mount_ok start d r0 {A} (rest : KF A) T' a :
  started d r0 -> 0 < start < FSSIZE -> sb_logstart (rdsb (dblk d 1)) = start ->
  (forall r, mounted start d (fs_sb r0) r -> exists T1 r1, does rest [] r T1 a [] r1 /\ T' T1 r1) ->
  exists T T1 r1, does (sb ← readsb turns me ROOTDEV;
    lset (fun l => set_lg_dev ROOTDEV (set_lg_size (sb_nlog sb) (set_lg_start (sb_logstart sb) l)));;
    read_head turns me;; rest) [] r0 (T ++ T1) a [] r1 /\ Forall (eq d) T /\ T' T1 r1.
Proof.
  intros (C0 & Hd0 & Ek0 & Hb0 & El0) Hst Hsb Hrest.
  destruct (read_ok r0 1 (fun _ l => l) (fun _ => tt) C0) as (i & r1 & r2 & r3 & T1 & D1 & B1 & E2 & D3 & F1 & C3 & Hk3 & Hd3 & Hb3 & El1 & El3 & Es3 & _);
    [done..|].
  assert (r2 = r1) as ->. { rewrite E2, <- El1. by destruct r1. } clear E2. rewrite Ek0 in F1, Hk3. rewrite El0 in El3.
  set (l1 := set_lg_dev ROOTDEV (set_lg_size (sb_nlog (rdsb (dblk d 1))) (set_lg_start start (fs_log r3)))).
  set (r4 := set_fs_log l1 r3).
  destruct (read_ok r4 start (fun d l => set_lg_lh (rd_head (lg_lh l) d) l) (fun _ => tt) (cache_ok_log p [] l1 r3 C3))
    as (j & r5 & r6 & r7 & T2 & D5 & B5 & E6 & D7 & F5 & C7 & Hk7 & Hd7 & Hb7 & El5 & El7 & Es7 & _); [lia|done|].
  assert (V : blk r4 start = dblk d start) by (change (blk r4 start) with (blk r3 start); by rewrite Hb3, Hb0).
  change (fs_disk r4) with (fs_disk r3) in F5, Hk7. rewrite Hk3 in F5, Hk7.
  destruct (Hrest r7) as (T3 & r8 & D8 & HT); [|exists (T1 ++ T2), T3, r8; split_and!; [|by apply Forall_app_2|done]].
  { split_and!; try done; [by rewrite El7..| |by rewrite Es7, <- Es3].
    rewrite El7, V. simpl. by rewrite El3. }
  rewrite <- app_assoc. eapply does_bind.
  { unfold readsb. eapply does_eq; [eapply does_bind; [exact D1|]|apply app_nil_r|reflexivity].
    eapply does_step; [apply does_bget|]. eapply does_step; [exact D3|]. apply does_ret. }
  rewrite B1, Hb0. eapply does_step; [apply does_fset|]. cbv beta. rewrite Hsb. fold l1 r4.
  eapply does_bind; [|exact D8]. unfold read_head. eapply does_step; [apply does_fget|]. cbv beta.
  eapply does_eq; [eapply does_bind; [exact D5|]|apply app_nil_r|reflexivity].
  eapply does_step; [apply does_bget|]. eapply does_step; [apply does_fset|]. cbv beta. rewrite B5, El5, <- E6. exact D7.
Qed.

Lemma geometry_nil start size bs : geometry start size bs -> geometry start size [].
Proof. intros []. split; try done; [simpl; lia|unfold NBUF; simpl; lia|constructor|set_solver]. Qed.

(** A disk whose log is empty. *)
Lemma recover_empty start size bs d r0 :
  started d r0 -> geometry start size bs -> sb_logstart (rdsb (dblk d 1)) = start -> head_empty start d ->
  exists r' T, does (initlog turns me ROOTDEV) [] r0 T tt [] r' /\ cache_ok [] r'
    /\ (forall d', d' ∈ fs_disk r' :: T -> head_empty start d' /\ forall b, ~ region start size b -> dblk d' b = dblk d b)
    /\ fs_sb r' = fs_sb r0.
Proof.
  intros St G Hsb [Hlen Hn]. pose proof (geometry_nil _ _ _ G) as G0.
  assert (Hst : 0 < start < FSSIZE) by (destruct G0; simpl in *; lia).
  assert (Hfull : head_full start [] d).
  { split; [done|]. intros h0 _. split; [exact Hn|simpl; lia]. }
  destruct (mount_ok start d r0 (install_trans turns me;; clear_head;; write_head turns me)
    (fun T r => cache_ok [] r /\ head_empty start (fs_disk r)
       /\ (forall b, ~ region start size b -> dblk (fs_disk r) b = dblk d b)
       /\ Forall (crash_state start size [] (dblk d) (dblk d)) T /\ fs_sb r = fs_sb r0) tt St Hst Hsb) as (T & T1 & r1 & D & F & C & He & Hb & F1 & Es).
  { intros r (C & Hd & Hk & Hdev & Hs & Hlh & Hsb').
    destruct (install_phase me p t start size [] G0 r (dblk d) (dblk d)) as (r1 & T1 & D1 & C1 & _ & Hn1 & _ & He1 & F1 & Es1); try done.
    { split; try done; [by rewrite Hlh|simpl; lia]. } { by rewrite Hk. } { simpl. lia. } { intros b _ _. by rewrite Hk. }
    { intros b. by rewrite Hd. } { by right. }
    exists T1, r1. split_and!; try done. by rewrite Es1. }
  exists r1, (T ++ T1). split_and!; [exact D|done| |done]. intros d' [->|[Hin|Hin]%elem_of_app]%elem_of_cons; [done|..].
  - rewrite Forall_forall in F. rewrite <- (F d' Hin). done.
  - rewrite Forall_forall in F1. destruct (F1 d' Hin) as [H1 H2|[H1 H2] _ H3|H1 H2]; [done| |done].
    split; [|intros b Hb'; apply H3; set_solver]. split; [done|].
    destruct (H2 (LH 0 (replicate 30 0)) eq_refl) as [H4 _]. exact H4.
Qed.

(** A disk with a committed transaction. *)
Lemma recover_committed start size bs d r0 old new :
  started d r0 -> geometry start size bs -> sb_logstart (rdsb (dblk d 1)) = start -> head_full start bs d ->
  (forall i, (i < length bs)%nat -> dblk d (slot start i) = new (bs !!! i)) ->
  (forall b, ~ region start size b -> b ∉ bs -> dblk d b = new b) ->
  exists r' T, does (initlog turns me ROOTDEV) [] r0 T tt [] r' /\ cache_ok [] r'
    /\ head_empty start (fs_disk r') /\ (forall b, ~ region start size b -> dblk (fs_disk r') b = new b)
    /\ Forall (crash_state start size bs old new) T /\ fs_sb r' = fs_sb r0.
Proof.
  intros St G Hsb Hfull Hslot Hhome. assert (Hst : 0 < start < FSSIZE) by (destruct G; lia).
  destruct (mount_ok start d r0 (install_trans turns me;; clear_head;; write_head turns me)
    (fun T r => cache_ok [] r /\ head_empty start (fs_disk r)
       /\ (forall b, ~ region start size b -> dblk (fs_disk r) b = new b)
       /\ Forall (crash_state start size bs old new) T /\ fs_sb r = fs_sb r0) tt St Hst Hsb) as (T & T1 & r1 & D & F & C & He & Hb & F1 & Es).
  { intros r (C & Hd & Hk & Hdev & Hs & Hlh & Hsb'). destruct Hfull as [Hlen Hf]. destruct (Hf (lg_lh log0)) as [Hf1 Hf2]; [done|].
    destruct (install_phase me p t start size bs G r old new) as (r1 & T1 & D1 & C1 & _ & Hn1 & _ & He1 & F1 & Es1); try done.
    { split; try done; by rewrite Hlh. } { by rewrite Hk. } { intros i Hi. rewrite Hk. by apply Hslot. }
    { intros b. rewrite Hk. apply Hhome. } { intros b. by rewrite Hd. } { by right. }
    exists T1, r1. split_and!; try done. by rewrite Es1. }
  exists r1, (T ++ T1). split_and!; try done. apply Forall_app_2; [|done].
  eapply Forall_impl; [exact F|]. intros d' <-. by apply Committed.
Qed.

(** Recovery brings back the contents before or after the transaction, and
    a crash while it runs leaves a disk that can be recovered again. *)
Lemma recover_ok start size bs d r0 old new :
  started d r0 -> geometry start size bs -> old 1 = new 1 -> sb_logstart (rdsb (old 1)) = start ->
  crash_state start size bs old new d ->
  exists r' T, does (initlog turns me ROOTDEV) [] r0 T tt [] r' /\ cache_ok [] r'
    /\ ((forall b, ~ region start size b -> dblk (fs_disk r') b = old b)
        \/ (forall b, ~ region start size b -> dblk (fs_disk r') b = new b))
    /\ Forall (crash_state start size bs old new) T /\ fs_sb r' = fs_sb r0.
Proof.
  intros St G Hon Hsb Hc. assert (H1 : 1 ∉ bs) by (intros H; destruct (g_home _ _ _ G _ H); lia). assert (Hr1 : ~ region start size 1) by (destruct G; unfold region; lia).
  assert (Hd1 : dblk d 1 = old 1).
  { destruct Hc as [_ H|_ _ H|_ H]; [by apply H|rewrite H by done; done|rewrite H by done; done]. }
  rewrite <- Hd1 in Hsb. destruct Hc as [He H|Hf H2 H3|He H].
  - destruct (recover_empty start size bs d r0 St G Hsb He) as (r' & T & D & C & Hr & Es).
    exists r', T. split_and!; try done.
    + left. intros b Hb. rewrite <- H by done. apply (Hr (fs_disk r')); [left|done].
    + apply Forall_forall. intros d' Hin. destruct (Hr d') as [H5 H6]; [by right|].
      apply Before; [done|]. intros b Hb. rewrite H6 by done. by apply H.
  - destruct (recover_committed start size bs d r0 old new St G Hsb Hf H2 H3) as (r' & T & D & C & He' & Hn & F & Es).
    exists r', T. split_and!; try done. by right.
  - destruct (recover_empty start size bs d r0 St G Hsb He) as (r' & T & D & C & Hr & Es).
    exists r', T. split_and!; try done.
    + right. intros b Hb. rewrite <- H by done. apply (Hr (fs_disk r')); [left|done].
    + apply Forall_forall. intros d' Hin. destruct (Hr d') as [H5 H6]; [by right|].
      apply After; [done|]. intros b Hb. rewrite H6 by done. by apply H.
Qed.

End recovery.
