(* ===== verification/Crash.v ===== *)
(** Crash safety of the log: end_op makes the transaction atomic, and
    recovery can itself be interrupted. *)

From S2P Require Import Prelude Mmu Kalloc Kernel Sched Rely Fsys Field Bio Log Life Solo BioFacts LogFacts.

(** * end_op *)

Section end_op.
Context (me : nat) (p : Z) (t : nat) (start size : Z) (bs : list Z) (G : geometry start size bs).
Notation turns := (S (S t)).
Notation does := (does me p).

Lemma pending_log r l :
  pending p start bs r -> lg_dev l = lg_dev (fs_log r) -> lg_start l = lg_start (fs_log r) -> lg_lh l = lg_lh (fs_log r) ->
  pending p start bs (set_fs_log l r).
Proof.
  intros [C [H1 H2 H3 H4] Hd Hh] E1 E2 E3. split; [by apply cache_ok_log|split; simpl|done|done].
  - by rewrite E1.
  - by rewrite E2.
  - by rewrite E3.
  - intros i Hi. rewrite E3. by apply H4.
Qed.

Lemma end_op_ok r :
  pending p start bs r -> lg_outstanding (fs_log r) = 1 -> lg_committing (fs_log r) = false ->
  exists r' T, does (end_op turns me) [] r T tt [] r' /\ cache_ok p [] r' /\ (forall b, dirty r' b = false)
    /\ (forall b, ~ region start size b -> dblk (fs_disk r') b = blk r b)
    /\ lh_n (lg_lh (fs_log r')) = 0 /\ lg_outstanding (fs_log r') = 0 /\ lg_committing (fs_log r') = false
    /\ Forall (crash_state start size bs (dblk (fs_disk r)) (blk r)) T.
Proof.
  intros Q Ho Hc. set (l1 := set_lg_committing true (set_lg_outstanding (lg_outstanding (fs_log r) - 1) (fs_log r))).
  destruct (commit_ok me p t start size bs G (set_fs_log l1 r)) as (r1 & T & D & C & Hd & Hb & Hn & Hl & He & F).
  { by apply pending_log. }
  set (r2 := set_fs_log (set_lg_committing false (fs_log r1)) r1).
  exists r2, T. split_and!; try done; [|by apply cache_ok_log|simpl; rewrite Hl; simpl; lia].
  unfold end_op. eapply does_step; [apply does_acquire; set_solver|]. eapply does_step; [apply does_fset|].
  eapply does_step; [apply does_fget|]. cbn. rewrite Hc, Ho. cbn.
  eapply does_step; [apply does_fset|]. eapply does_step; [apply does_release; set_solver|].
  rewrite <- (app_nil_r T). eapply does_bind; [unfold l1 in D; rewrite Ho in D; exact D|].
  eapply does_step; [apply does_acquire; set_solver|]. eapply does_step; [apply does_fset|].
  eapply does_step; [apply does_wakeup; set_solver|]. apply does_release. set_solver.
Qed.

End end_op.

(** * Crashes *)

(** The disks after a crash at one of the disks [T], and after crashes
    during the recoveries from it. *)
Inductive crashed (me : nat) (p : Z) (t : nat) sb ic cn (T : list disk_t) : disk_t -> Prop :=
| crash_first d : d ∈ T -> crashed me p t sb ic cn T d
| crash_again d s d' : crashed me p t sb ic cn T d -> at_ me p [] (boot d sb ic cn) s ->
    d' ∈ snd (solo me (initlog (S (S t)) me ROOTDEV s)) -> crashed me p t sb ic cn T d'.

Lemma crash_recovers start size bs me p t sb ic cn old new T :
  geometry start size bs -> old 1 = new 1 -> sb_logstart (rdsb (old 1)) = start ->
  Forall (crash_state start size bs old new) T ->
  forall d s0, crashed me p t sb ic cn T d -> at_ me p [] (boot d sb ic cn) s0 ->
  exists s1 T1, solo me (initlog (S (S t)) me ROOTDEV s0) = (Some (tt, s1), T1)
    /\ ((forall b, ~ region start size b -> dblk (fs_disk (fs s1)) b = old b)
        \/ (forall b, ~ region start size b -> dblk (fs_disk (fs s1)) b = new b)).
Proof.
  intros G Hon Hsb F. assert (Hrec := fun d => recover_ok me p t start size bs d _ _ _ (boot_started p d sb ic cn) G Hon Hsb).
  assert (Hcr : forall d, crashed me p t sb ic cn T d -> crash_state start size bs old new d).
  { intros d. induction 1 as [d Hd|d s0 d' _ IH Hat0 Hd']; [rewrite Forall_forall in F; by apply F|].
    destruct (Hrec d IH) as (r1 & T1 & D1 & _ & _ & F1 & _). destruct (D1 s0 Hat0) as (s1 & E1 & _).
    rewrite E1 in Hd'. rewrite Forall_forall in F1. by apply F1. }
  intros d s0 Hd Hat0. destruct (Hrec d (Hcr d Hd)) as (r1 & T1 & D1 & _ & Hor & _).
  destruct (D1 s0 Hat0) as (s1 & E1 & Hs1). exists s1, T1. by rewrite (at_fs _ _ _ _ _ Hs1).
Qed.

(** C20: end_op commits the blocks of a transaction, and makes them atomic:
    whatever point of end_op the machine stops at, and however often it
    stops again while it recovers, the next run of initlog that comes to
    its end leaves on the disk, outside the log, either the contents from
    before the transaction or those from after it. *)
Theorem end_op_atomic start size bs me p t me' p' t' sb ic cn s :
  geometry start size bs -> sb_logstart (rdsb (dblk (fs_disk (fs s)) 1)) = start ->
  at_ me p [] (fs s) s -> pending p start bs (fs s) ->
  lg_outstanding (fs_log (fs s)) = 1 -> lg_committing (fs_log (fs s)) = false ->
  exists s' T, solo me (end_op (S (S t)) me s) = (Some (tt, s'), T)
    /\ (forall b, ~ region start size b -> dblk (fs_disk (fs s')) b = blk (fs s) b)
    /\ forall d s0, crashed me' p' t' sb ic cn (fs_disk (fs s) :: T) d -> at_ me' p' [] (boot d sb ic cn) s0 ->
         exists s1 T1, solo me' (initlog (S (S t')) me' ROOTDEV s0) = (Some (tt, s1), T1)
           /\ ((forall b, ~ region start size b -> dblk (fs_disk (fs s1)) b = dblk (fs_disk (fs s)) b)
               \/ (forall b, ~ region start size b -> dblk (fs_disk (fs s1)) b = blk (fs s) b)).
Proof.
  intros G Hsb Hat Q Ho Hc.
  destruct (end_op_ok me p t start size bs G (fs s) Q Ho Hc) as (r' & T & D & _ & _ & Hb & _ & _ & _ & F).
  destruct (D s Hat) as (s' & E & Hs'). exists s', T. rewrite (at_fs _ _ _ _ _ Hs'). split_and!; [done..|].
  apply (crash_recovers start size bs me' p' t' sb ic cn (dblk (fs_disk (fs s))) (blk (fs s))); try done.
  - symmetry. apply (blk_home p start bs); [done|]. intros H. destruct (g_home _ _ _ G _ H). lia.
  - apply Forall_cons. split; [|done]. by apply Before; [apply Q|].
Qed.

(** * A transaction of one block *)

Definition sample_disk : disk_t := {[ 1 := wr32 zero_block 16 2 ]}.
Definition sample_log : log_t := Log 2 30 1 false ROOTDEV (LH 1 (500 :: replicate 29 0)).
Definition sample_cons : console_t := Cons true (replicate 128 0) 0 0 0 [] 0 (replicate 2000 0) 0.
Definition sample_sb : superblock := SB 1000 941 200 30 2 32 58.
Definition sample_boot : fsys := boot sample_disk sample_sb [] sample_cons.
Definition sample_fs : fsys :=
  with_buf 0 (Buf true true ROOTDEV 500 sl0 0 (replicate 512 7)) (set_fs_log sample_log sample_boot).
Definition sample_kst (r : fsys) : kst fsys :=
  Kst (Pmem (fun _ => 0) (Kmem false true 0)) [set_state RUNNING (set_pid 1 proc0)] 2 None [] ∅ 0 [] [] None r.

Lemma sample_at r : at_ 0 1 [] r (sample_kst r).
Proof. by split; [..|simpl; lia| |]. Qed.

Lemma sample_geometry : geometry 2 30 [500].
Proof.
  split; try (unfold FSSIZE, NBUF; simpl; lia); [repeat constructor; set_solver|].
  intros b ->%list_elem_of_singleton. unfold FSSIZE. lia.
Qed.

Lemma sample_pending : pending 1 2 [500] sample_fs.
Proof.
  destruct (boot_ok 1 sample_disk sample_sb [] sample_cons) as (C0 & Hd0 & _). fold sample_boot in *.
  set (x := Buf true true ROOTDEV 500 sl0 0 (replicate 512 7)). set (r := set_fs_log sample_log sample_boot).
  assert (C1 : cache_ok 1 [] r) by (by apply cache_ok_log).
  assert (Hb : forall j, b_dev (buf_of r j) <> ROOTDEV).
  { intros j. change (buf_of r j) with (buf_of sample_boot j). unfold buf_of.
    change (fs_bufs sample_boot) with (replicate NBUF buf0).
    destruct (decide (j < NBUF)%nat); [by rewrite lookup_replicate_2|].
    by rewrite lookup_ge_None_2 by (rewrite length_replicate; lia). }
  assert (C2 : cache_ok 1 [] sample_fs).
  { apply (cache_touch 1 [] [] 0 x (fs_disk r) r _ C1 (touches_buf 0 x r)); try done;
      [unfold NBUF; lia|intros j _ _ Hj; by destruct (Hb j)|by intros ?%elem_of_nil]. }
  split; [done| | |done].
  - split; try done. intros [|i] Hi; [done|simpl in Hi; lia].
  - intros b. destruct (view_touch 1 [] [] 0 x (fs_disk r) r sample_fs C1 (touches_buf 0 x r)) with (b := b) as [_ ->];
      try done; [unfold NBUF; lia|intros j _ _ Hj; by destruct (Hb j)|].
    change (b_blockno x) with 500. change (dirty r b) with (dirty sample_boot b). rewrite Hd0.
    case_decide; [subst; split; [intros _; set_solver|done]|]. split; [done|]. set_solver.
Qed.

Lemma end_op_atomic_witness :
  exists s' T, solo 0 (end_op 2 0 (sample_kst sample_fs)) = (Some (tt, s'), T)
    /\ dblk (fs_disk (fs s')) 500 = replicate 512 7.
Proof.
  destruct (end_op_atomic 2 30 [500] 0 1 0 0 1 0 sample_sb [] sample_cons (sample_kst sample_fs)
    sample_geometry) as (s' & T & E & Hb & _).
  - vm_compute. reflexivity.
  - apply sample_at.
  - apply sample_pending.
  - reflexivity.
  - reflexivity.
  - exists s', T. split; [exact E|]. rewrite Hb; [reflexivity|]. unfold region. lia.
Defined.
