(* ===== verification/Txn.v ===== *)
(** Inside a transaction: reading a block, and changing one through the log. *)

From S2P Require Import Prelude Mmu Kernel Sched Rely Fsys Field Bio Log Console Fs Life Solo BioFacts LogFacts.

Definition add (b : Z) (bs : list Z) : list Z := if decide (b ∈ bs) then bs else bs ++ [b].

(** The log has place for [k] more blocks, and the cache for [h] buffers
    that are held meanwhile. *)
Definition fits (size : Z) (h : nat) (bs : list Z) (k : nat) : Prop :=
  Z.of_nat (length bs + k) < size /\ (h + length bs + k < NBUF)%nat.

Lemma fits_add size h bs b k : fits size h bs (S k) -> fits size h (add b bs) k.
Proof. unfold fits, add. case_decide; [lia|]. rewrite length_app. simpl. lia. Qed.

Lemma fits_le size h bs k k' : (k' <= k)%nat -> fits size h bs k -> fits size h bs k'.
Proof. unfold fits. lia. Qed.

Lemma elem_of_add b c bs : c ∈ add b bs <-> c = b \/ c ∈ bs.
Proof. unfold add. case_decide; set_solver. Qed.

(** The rest of the file system. *)
Definition meta (r : fsys) := (fs_sb r, fs_icache r, fs_cons r).

Lemma m_meta d f g r r' : moved d f g r r' -> meta r' = meta r.
Proof. intros M. unfold meta. by rewrite (m_sb _ _ _ _ _ M), (m_icache _ _ _ _ _ M), (m_cons _ _ _ _ _ M). Qed.

(** * The header *)

Lemma log_slot_in l b n :
  (n <= length l)%nat -> let i := log_slot l b n in
  (i <= n)%nat /\ ((i < n)%nat -> l !!! i = b) /\ forall j, (j < i)%nat -> l !!! j <> b.
Proof.
  revert n. induction l as [|x l IH]; intros [|n] Hn; simpl in *; try (split_and!; lia).
  destruct (Z.eqb_spec x b) as [->|Hne]; [split_and!; [lia|done|lia]|].
  destruct (IH n) as (H1 & H2 & H3); [lia|]. split_and!; [lia|intros; apply H2; lia|].
  intros [|j] Hj; [done|]. apply H3. lia.
Qed.

Lemma log_add_ok start bs l b :
  header start bs l -> length (lh_block (lg_lh l)) = 30%nat -> (length bs < 30)%nat ->
  header start (add b bs) (set_lg_lh (log_add b (lg_lh l)) l)
  /\ length (lh_block (log_add b (lg_lh l))) = 30%nat.
Proof.
  intros [H1 H2 H3 H4] Hl Hb. split; [|simpl; by rewrite length_insert].
  destruct (log_slot_in (lh_block (lg_lh l)) b (length bs)) as (I1 & I2 & I3); [lia|].
  assert (Hin : b ∈ bs <-> (log_slot (lh_block (lg_lh l)) b (length bs) < length bs)%nat).
  { split.
    - intros [i Hi]%list_elem_of_lookup. pose proof (lookup_lt_Some _ _ _ Hi) as Hlt.
      apply list_lookup_total_correct in Hi. rewrite <- H4 in Hi by done.
      destruct (decide (log_slot (lh_block (lg_lh l)) b (length bs) <= i)%nat); [lia|].
      by destruct (I3 i); [lia|].
    - intros Hlt. specialize (I2 Hlt). rewrite H4 in I2 by done. rewrite <- I2. by apply list_elem_of_lookup_total_2. }
  unfold log_add. rewrite H3, Nat2Z.id. set (i := log_slot _ _ _) in *. unfold add.
  destruct (decide (b ∈ bs)) as [Hbs|Hbs].
  - assert (i < length bs)%nat by (by apply Hin). split; simpl; try done.
    + rewrite (proj2 (Z.eqb_neq _ _)); [done|lia].
    + intros j Hj. rewrite list_insert_id'; [by apply H4|]. intros _. rewrite <- (I2 ltac:(done)).
      apply list_lookup_lookup_total_lt. lia.
  - assert (Hi : i = length bs) by (rewrite Hin in Hbs; lia). split; simpl; try done.
    + rewrite Hi, Z.eqb_refl, length_app. simpl. lia.
    + intros j Hj. rewrite length_app in Hj. simpl in Hj. rewrite !list_lookup_total_alt, Hi.
      destruct (decide (j = length bs)) as [->|Hne].
      * rewrite list_lookup_insert_eq by lia. by rewrite list_lookup_middle.
      * rewrite list_lookup_insert_ne, lookup_app_l by lia. rewrite <- !list_lookup_total_alt. apply H4. lia.
Qed.

Lemma geometry_add start size bs b :
  geometry start size bs -> fits size 0 bs 1 -> 1 < b < FSSIZE -> ~ region start size b ->
  geometry start size (add b bs).
Proof.
  intros [G1 G2 G3 G4 G5 G6] [F1 F2] Hb Hr. unfold add. case_decide as Hin; [done|].
  split; try done; rewrite ?length_app; simpl; [lia|lia|..].
  - apply NoDup_app. split_and!; [done|set_solver|repeat constructor; set_solver].
  - intros c [Hc| ->%list_elem_of_singleton]%elem_of_app; [by apply G6|done].
Qed.

(** * Logging a block *)

Section txn.
Context (me : nat) (p : Z) (t : nat) (start size : Z).
Notation turns := (S (S t)).
Notation does := (does me p).
Notation cache_ok := (cache_ok p).

(** What the log knows of a transaction. *)
Record in_txn (bs : list Z) (r : fsys) : Prop := {
  n_header : header start bs (fs_log r);
  n_blocks : length (lh_block (lg_lh (fs_log r))) = 30%nat;
  n_size : lg_size (fs_log r) = size;
  n_out : lg_outstanding (fs_log r) = 1 /\ lg_committing (fs_log r) = false }.

Lemma in_txn_eq bs r r' : fs_log r' = fs_log r -> in_txn bs r -> in_txn bs r'.
Proof. intros E []. split; by rewrite E. Qed.

Lemma set_dirty_ok H r i :
  cache_ok H r -> i ∈ H -> let b := b_blockno (buf_of r i) in
  let r' := with_buf i (set_b_dirty true (buf_of r i)) r in
  cache_ok H r' /\ moved (fs_disk r) (blk r) (set_at (dirty r) b true) r r'.
Proof.
  intros C Hi b r'. destruct (c_held _ _ _ C i Hi) as (Hlt & Hl & Hn & Hdev).
  pose proof (touches_buf i (set_b_dirty true (buf_of r i)) r) as Ht. fold r' in Ht.
  assert (Hother := fun j => held_other p H r i j C Hi).
  assert (C' : cache_ok H r').
  { apply (cache_touch p H H i _ _ r r' C Ht); try done. by apply (c_valid _ _ _ C). }
  split; [done|]. apply (touch_moved p H H i _ _ r r' _ _ C C' Ht); try done.
  intros b'. simpl. case_decide; [|done]. subst. by apply (held_blk p H).
Qed.

Lemma log_write_ok H r i bs :
  cache_ok H r -> i ∈ H -> in_txn bs r -> fits size 0 bs 1 ->
  let b := b_blockno (buf_of r i) in
  exists r', does (log_write i) [] r [] tt [] r' /\ cache_ok H r' /\ in_txn (add b bs) r'
    /\ buf_of r' i = set_b_dirty true (buf_of r i) /\ (forall j, j <> i -> buf_of r' j = buf_of r j)
    /\ fs_disk r' = fs_disk r /\ (forall c, blk r' c = blk r c) /\ (forall c, dirty r' c = set_at (dirty r) b true c)
    /\ meta r' = meta r.
Proof.
  intros C Hi [N1 N2 N3 N4] [F1 F2] b. destruct (c_held _ _ _ C i Hi) as (Hlt & _).
  set (l := fs_log r) in *. set (l' := set_lg_lh (log_add b (lg_lh l)) l). set (r1 := set_fs_log l' r).
  destruct (log_add_ok start bs l b N1 N2) as [Hh Hlen]; [unfold NBUF in F2; lia|].
  destruct (set_dirty_ok H r1 i (cache_ok_log p H l' r C) Hi) as [C2 M2].
  change (buf_of r1 i) with (buf_of r i) in *. fold b in M2. set (r2 := with_buf i _ r1) in *.
  assert (Hln : (i < length (fs_bufs r1))%nat) by (change (fs_bufs r1) with (fs_bufs r); by rewrite (c_len _ _ _ C)).
  exists r2. split_and!; try done; try apply M2.
  - unfold log_write. eapply does_step; [apply does_fget|]. cbv beta. fold l.
    rewrite (h_n _ _ _ N1), N3. unfold LOGSIZE, MAXOPBLOCKS, NBUF in *.
    rewrite (proj2 (Z.leb_gt _ _)) by lia. rewrite (proj2 (Z.leb_gt _ _)) by lia. simpl.
    rewrite (proj2 (Z.ltb_ge _ _)) by lia.
    eapply does_step; [apply does_acquire; set_solver|]. eapply does_step; [apply does_bget|].
    eapply does_step; [apply does_fset|]. cbv beta. fold b l l' r1. eapply does_step; [by apply does_bset|].
    apply does_release. set_solver.
  - by apply lookup_with_buf.
  - intros j Hj. unfold buf_of, r2, with_buf. simpl. by rewrite list_lookup_insert_ne.
Qed.

(** * Changing a block *)

(** The blocks [bs] have been changed by the transaction that runs; the
    process holds the buffers [H]. *)
Record txn (H : list nat) (bs : list Z) (r : fsys) : Prop := {
  x_geom : geometry start size bs;
  x_cache : cache_ok H r;
  x_in : in_txn bs r;
  x_dirty : forall b, dirty r b = true <-> b ∈ bs;
  x_head : head_empty start (fs_disk r) }.

Lemma txn_pending bs r : txn [] bs r -> pending p start bs r.
Proof. intros [_ C [] Hd He]. by split. Qed.

(** [r'] is [r] with [f] as the contents of the blocks; the disk was left
    alone. *)
Record stays (H : list nat) (f : Z -> list Z) (r r' : fsys) (T : list disk_t) : Prop := {
  s_blk : forall c, blk r' c = f c;
  s_disk : fs_disk r' = fs_disk r;
  s_meta : meta r' = meta r;
  s_held : forall j, j ∈ H -> buf_of r' j = buf_of r j;
  s_trace : Forall (eq (fs_disk r)) T }.

Lemma stays_trans H f g r r1 r2 T1 T2 :
  stays H f r r1 T1 -> stays H g r1 r2 T2 -> stays H g r r2 (T1 ++ T2).
Proof.
  intros [A1 A2 A3 A4 A5] [B1 B2 B3 B4 B5]. split; [done|congruence|congruence| |].
  - intros j Hj. by rewrite B4, A4.
  - apply Forall_app_2; [done|]. by rewrite A2 in B5.
Qed.

Lemma stays_ext H f g r r' T : stays H f r r' T -> (forall c, f c = g c) -> stays H g r r' T.
Proof. intros [] E. split; try done. intros c. by rewrite <- E. Qed.

Lemma stays_refl H r : stays H (blk r) r r [].
Proof. by split. Qed.

(** Block [b] is in no buffer that the process holds. *)
Definition not_held (H : list nat) (r : fsys) (b : Z) : Prop := forall j, j ∈ H -> b_blockno (buf_of r j) <> b.

Lemma clean_free H r b : cache_ok H r -> not_held H r b -> dirty r b = false -> blk r b = dblk (fs_disk r) b.
Proof.
  intros C Hn. unfold blk, dirty. destruct (cached r b) as [i|] eqn:E; [|done]. intros Hd.
  apply (cached_Some _ _ _ _ _ C) in E as (E1 & E2 & E3). rewrite (c_clean _ _ _ C i); [by rewrite E3|..]; try done.
  intros Hi. by apply (Hn i).
Qed.

Lemma bread_txn H bs r b :
  txn H bs r -> fits size (length H) bs 0 -> b < FSSIZE -> not_held H r b ->
  exists i r1 T, does (bread turns me ROOTDEV b) [] r T i [] r1 /\ txn (i :: H) bs r1 /\ i ∉ H
    /\ buf_of r1 i = locked_buf p r b /\ stays H (blk r) r r1 T.
Proof.
  intros [G C N Hd Hh] [_ F] Hb Hn.
  destruct (bread_ok me p t H r b C Hb Hn) as (i & r1 & T1 & D1 & F1 & C1 & Hi & B1 & O1 & M1).
  { apply (room_ok p H r b bs C); [apply Hd|]. lia. }
  exists i, r1, T1. split_and!; try done.
  - split; try done; [eapply in_txn_eq; [apply M1|done]|intros c; by rewrite (m_dirty _ _ _ _ _ M1)|].
    by rewrite (m_disk _ _ _ _ _ M1).
  - split; try apply M1; try done; [by apply (m_meta _ _ _ _ _ M1)|]. intros j Hj. apply O1. by intros ->.
Qed.

Lemma brelse_txn H bs r i :
  txn (i :: H) bs r -> i ∉ H ->
  (b_dirty (buf_of r i) = false -> b_data (buf_of r i) = dblk (fs_disk r) (b_blockno (buf_of r i))) ->
  exists r', does (brelse me i) [] r [] tt [] r' /\ txn H bs r' /\ stays H (blk r) r r' [].
Proof.
  intros [G C N Hd Hh] Hi Hc.
  destruct (brelse_ok me p (i :: H) H r i C) as (r' & D & C' & O & M); [set_solver|done|set_solver|done|].
  exists r'. split_and!; [done|..].
  - split; try done; [eapply in_txn_eq; [apply M|done]|intros c; by rewrite (m_dirty _ _ _ _ _ M)|].
    by rewrite (m_disk _ _ _ _ _ M).
  - split; try apply M; [by apply (m_meta _ _ _ _ _ M)| |done]. intros j Hj. apply O. by intros ->.
Qed.

(** Reading a block: the buffer that bread returns, and the state after it
    is released. *)
Lemma read_block_ok H bs r b :
  txn H bs r -> fits size (length H) bs 0 -> b < FSSIZE -> not_held H r b ->
  exists i r1 r' T, does (bread turns me ROOTDEV b) [] r T i [] r1 /\ b_data (buf_of r1 i) = blk r b
    /\ does (brelse me i) [] r1 [] tt [] r' /\ txn H bs r' /\ stays H (blk r) r r' T.
Proof.
  intros X F Hb Hn. destruct (bread_txn H bs r b X F Hb Hn) as (i & r1 & T & D1 & X1 & Hi & B1 & S1).
  destruct (brelse_txn H bs r1 i X1 Hi) as (r2 & D2 & X2 & S2).
  { rewrite B1. simpl. intros Hd. rewrite (s_disk _ _ _ _ _ S1). by apply (clean_free H); [apply X|..]. }
  exists i, r1, r2, T. split_and!; try done; [by rewrite B1|]. rewrite <- (app_nil_r T).
  eapply stays_trans; [exact S1|]. eapply stays_ext; [exact S2|]. apply S1.
Qed.

(** Changing the data of a buffer that is held, and logging it. *)
Lemma log_data_ok H bs r i v :
  txn (i :: H) bs r -> i ∉ H -> fits size 0 bs 1 -> let b := b_blockno (buf_of r i) in
  1 < b < FSSIZE -> ~ region start size b ->
  exists r', does (log_write i) [] (with_buf i (set_b_data v (buf_of r i)) r) [] tt [] r' /\ txn (i :: H) (add b bs) r'
    /\ stays H (set_at (blk r) b v) r r' [] /\ buf_of r' i = set_b_dirty true (set_b_data v (buf_of r i)).
Proof.
  intros [G C N Hd Hh] Hn F b Hb Hr. assert (Hi : i ∈ i :: H) by set_solver.
  assert (Hln : (i < length (fs_bufs r))%nat) by (rewrite (c_len _ _ _ C); by destruct (c_held _ _ _ C i Hi)).
  destruct (set_data_ok p (i :: H) r i v C Hi) as [C2 M2]. fold b in M2. set (r2 := with_buf i _ r) in *.
  assert (B2 : buf_of r2 i = set_b_data v (buf_of r i)) by (by apply lookup_with_buf).
  assert (E2 : b_blockno (buf_of r2 i) = b) by (by rewrite B2).
  destruct (log_write_ok (i :: H) r2 i bs C2 Hi) as (r3 & D3 & C3 & N3 & B3 & O3 & K3 & V3 & Y3 & S3); [|done|].
  { eapply in_txn_eq; [|done]. apply M2. }
  rewrite E2 in *. exists r3. split_and!; [done|..|by rewrite B3, B2].
  - split; [by apply geometry_add|done|done| |].
    + intros c. rewrite Y3, elem_of_add. unfold set_at. rewrite (m_dirty _ _ _ _ _ M2), <- Hd. case_decide; naive_solver.
    + by rewrite K3, (m_disk _ _ _ _ _ M2).
  - split; [intros c; by rewrite V3, (m_blk _ _ _ _ _ M2)|by rewrite K3, (m_disk _ _ _ _ _ M2)| | |done].
    + by rewrite S3, (m_meta _ _ _ _ _ M2).
    + intros j Hj. assert (j <> i) by (by intros ->). rewrite O3 by done. unfold buf_of, r2, with_buf. simpl.
      by rewrite list_lookup_insert_ne.
Qed.

(** Changing the block in a buffer that bread has returned. *)
Lemma write_block_ok H bs r b v :
  txn H bs r -> fits size (length H) bs 1 -> 1 < b < FSSIZE -> ~ region start size b -> not_held H r b ->
  exists i r1 r' T, does (bread turns me ROOTDEV b) [] r T i [] r1 /\ b_data (buf_of r1 i) = blk r b
    /\ (i < length (fs_bufs r1))%nat
    /\ does (log_write i;; brelse me i) [] (with_buf i (set_b_data v (buf_of r1 i)) r1) [] tt [] r'
    /\ txn H (add b bs) r' /\ stays H (set_at (blk r) b v) r r' T.
Proof.
  intros X F Hb Hr Hn. assert (F0 : fits size 0 bs 1) by (unfold fits in *; lia).
  destruct (bread_txn H bs r b X) as (i & r1 & T & D1 & X1 & Hi & B1 & S1); [by eapply fits_le; [|done]; lia|lia|done|].
  assert (E1 : b_blockno (buf_of r1 i) = b) by (by rewrite B1).
  destruct (log_data_ok H bs r1 i v X1 Hi F0) as (r2 & D2 & X2 & S2 & B2); [by rewrite E1..|]. rewrite E1 in *.
  destruct (brelse_txn H _ r2 i X2 Hi) as (r3 & D3 & X3 & S3); [by rewrite B2|].
  exists i, r1, r3, T. split_and!; try done.
  - by rewrite B1.
  - rewrite (c_len _ _ _ (x_cache _ _ _ X1)). destruct (c_held _ _ _ (x_cache _ _ _ X1) i); [set_solver|done].
  - eapply does_step; [exact D2|exact D3].
  - rewrite <- (app_nil_r T). eapply stays_trans; [exact S1|]. change [] with ([] ++ [] : list disk_t).
    eapply stays_trans; [exact S2|]. eapply stays_ext; [exact S3|]. intros c. rewrite (s_blk _ _ _ _ _ S2).
    unfold set_at. case_decide; [done|]. apply S1.
Qed.

Lemma modify_block_ok H bs r b f :
  txn H bs r -> fits size (length H) bs 1 -> 1 < b < FSSIZE -> ~ region start size b -> not_held H r b ->
  exists r' T, does (modify_block turns me ROOTDEV b f) [] r T tt [] r' /\ txn H (add b bs) r'
    /\ stays H (set_at (blk r) b (f (blk r b))) r r' T.
Proof.
  intros X F Hb Hr Hn.
  destruct (write_block_ok H bs r b (f (blk r b)) X F Hb Hr Hn) as (i & r1 & r' & T & D1 & B1 & Hln & D2 & X2 & S2).
  exists r', T. split; [|done]. unfold modify_block.
  eapply does_eq; [eapply does_bind; [exact D1|]|apply app_nil_r|reflexivity].
  eapply does_step; [by apply does_bset|]. cbv beta. rewrite B1. exact D2.
Qed.

End txn.
