(* ===== verification/FsFacts.v ===== *)
(** fs.c inside a transaction: the bitmap, and the allocation of a block. *)

From S2P Require Import Prelude Mmu Kalloc Kernel Sched Rely Pipe Fsys Field Bio Log Console Fs Life Solo BioFacts LogFacts Txn Crash.

(** * The bitmap *)

Lemma bit_of_byte v k : 0 <= k < 8 -> Z.testbit (v mod 256) k = Z.testbit v k.
Proof. intros Hk. change 256 with (2 ^ 8). apply Z.mod_pow2_bits_low. lia. Qed.

Lemma bit_set d b c :
  length d = 512%nat -> 0 <= b < BPB -> 0 <= c -> bit_at (set_bit d b) c = (c =? b) || bit_at d c.
Proof.
  intros Hd Hb Hc. unfold BPB, BSIZE in Hb. unfold bit_at, set_bit. rewrite rd8_wr8 by lia.
  destruct (Z.eqb_spec (c / 8) (b / 8)) as [E|E].
  - rewrite bit_of_byte, Z.lor_spec, Z.pow2_bits_eqb by lia. rewrite E, orb_comm. f_equal.
    destruct (Z.eqb_spec (b mod 8) (c mod 8)), (Z.eqb_spec c b); try done; subst; try lia.
  - destruct (Z.eqb_spec c b); [by subst|done].
Qed.

Lemma bit_clear d b c :
  length d = 512%nat -> 0 <= b < BPB -> 0 <= c -> bit_at (clear_bit d b) c = negb (c =? b) && bit_at d c.
Proof.
  intros Hd Hb Hc. unfold BPB, BSIZE in Hb. unfold bit_at, clear_bit. rewrite rd8_wr8 by lia.
  destruct (Z.eqb_spec (c / 8) (b / 8)) as [E|E].
  - rewrite bit_of_byte, Z.land_spec by lia.
    assert (Hm : forall k j, 0 <= k < 8 -> 0 <= j < 8 -> Z.testbit (255 - 2 ^ k) j = negb (j =? k)).
    { intros k j Hk Hj. assert (k = 0 \/ k = 1 \/ k = 2 \/ k = 3 \/ k = 4 \/ k = 5 \/ k = 6 \/ k = 7) as Hk' by lia.
      assert (j = 0 \/ j = 1 \/ j = 2 \/ j = 3 \/ j = 4 \/ j = 5 \/ j = 6 \/ j = 7) as Hj' by lia.
      by repeat destruct Hk' as [-> | Hk']; subst; repeat destruct Hj' as [-> | Hj']; subst. }
    rewrite Hm, E, andb_comm by lia. f_equal. f_equal.
    destruct (Z.eqb_spec (c mod 8) (b mod 8)), (Z.eqb_spec c b); try done; subst; try lia.
  - destruct (Z.eqb_spec c b); [by subst|done].
Qed.

Lemma length_set_bit d b : length (set_bit d b) = length d.
Proof. apply length_wr8. Qed.

(** The first number of a range that satisfies [P]. *)
Lemma head_filter_seq (P : Z -> Prop) `{forall x, Decision (P x)} k n :
  match head (filter P (Z.of_nat <$> seq k n)) with
  | Some x => Z.of_nat k <= x < Z.of_nat (k + n) /\ P x /\ forall y, Z.of_nat k <= y < x -> ~ P y
  | None => forall y, Z.of_nat k <= y < Z.of_nat (k + n) -> ~ P y
  end.
Proof.
  revert k. induction n as [|n IH]; intros k; [simpl; lia|]. csimpl. rewrite filter_cons. case_decide as Hk.
  { simpl. split_and!; [lia|lia|done|lia]. }
  specialize (IH (S k)). destruct (head _) as [x|].
  - destruct IH as (H1 & H2 & H3). split_and!; [lia|lia|done|]. intros y Hy.
    destruct (decide (y = Z.of_nat k)) as [->|]; [done|]. apply H3. lia.
  - intros y Hy. destruct (decide (y = Z.of_nat k)) as [->|]; [done|]. apply IH. lia.
Qed.

Lemma free_bit_spec d b size :
  match free_bit d b size with
  | Some bi => 0 <= bi < BPB /\ bit_at d bi = false /\ b + bi < size
      /\ forall c, 0 <= c < bi -> bit_at d c = true \/ size <= b + c
  | None => forall c, 0 <= c < BPB -> bit_at d c = true \/ size <= b + c
  end.
Proof.
  unfold free_bit. pose proof (head_filter_seq (fun bi => bit_at d bi = false /\ b + bi < size) 0 (Z.to_nat BPB)) as H.
  destruct (head _) as [bi|].
  - destruct H as (H1 & [H2 H3] & H4). split_and!; [unfold BPB, BSIZE in *; lia..|done|done|].
    intros c Hc. destruct (bit_at d c) eqn:E; [by left|right].
    destruct (Z.le_gt_cases size (b + c)); [done|]. destruct (H4 c); [lia|done].
  - intros c Hc. destruct (bit_at d c) eqn:E; [by left|right].
    destruct (Z.le_gt_cases size (b + c)); [done|]. unfold BPB, BSIZE in *. destruct (H c); [lia|done].
Qed.

(** * Allocating and freeing blocks *)

(** The layout of the disk: the blocks below [data] hold the log, the
    inodes and the bitmap, which is one block, and are marked in it. *)
Record layout (start lsize data : Z) (r : fsys) : Prop := {
  l_size : 0 < sb_size (fs_sb r) <= FSSIZE;
  l_bmap : 1 < sb_bmapstart (fs_sb r) < data;
  l_log : 0 <= start /\ start + lsize <= data;
  l_out : ~ region start lsize (sb_bmapstart (fs_sb r));
  l_data : data <= FSSIZE;
  l_len : forall b, length (blk r b) = 512%nat;
  l_marked : forall b, 0 <= b < data -> bit_at (blk r (sb_bmapstart (fs_sb r))) b = true }.

Notation BM r := (sb_bmapstart (fs_sb r)).

Lemma BBLOCK_first b sb : 0 <= b < FSSIZE -> BBLOCK b sb = sb_bmapstart sb.
Proof. unfold BBLOCK, BPB, BSIZE, FSSIZE. intros Hb. rewrite Z.div_small; lia. Qed.

(** What balloc leaves in the blocks when it returns [b]. *)
Definition after_balloc (r : fsys) (b c : Z) : list Z :=
  if decide (c = b) then zero_block else if decide (c = BM r) then set_bit (blk r (BM r)) b else blk r c.

Section alloc.
Context (me : nat) (p : Z) (t : nat) (start lsize data : Z).
Notation turns := (S (S t)).
Notation does := (does me p).
Notation txn := (txn p start lsize).

Lemma meta_sb r r' : meta r' = meta r -> fs_sb r' = fs_sb r /\ fs_icache r' = fs_icache r /\ fs_cons r' = fs_cons r.
Proof. unfold meta. intros H. by simplify_eq. Qed.

(** The blocks in the buffers [H] are in use, and are not the bitmap. *)
Definition held_used (H : list nat) (r : fsys) : Prop :=
  forall j, j ∈ H -> b_blockno (buf_of r j) <> BM r /\ bit_at (blk r (BM r)) (b_blockno (buf_of r j)) = true.

Lemma balloc_ok H bs r b :
  layout start lsize data r -> txn H bs r -> fits lsize (length H) bs 2 -> held_used H r ->
  free_bit (blk r (BM r)) 0 (sb_size (fs_sb r)) = Some b ->
  exists r' T, does (balloc turns me ROOTDEV) [] r T b [] r' /\ txn H (add b (add (BM r) bs)) r'
    /\ stays H (after_balloc r b) r r' T /\ data <= b < sb_size (fs_sb r) /\ ~ region start lsize b
    /\ bit_at (blk r (BM r)) b = false.
Proof.
  intros Y X F Hu Hf. pose proof (free_bit_spec (blk r (BM r)) 0 (sb_size (fs_sb r))) as Hs. rewrite Hf in Hs.
  destruct Hs as (Hb & Hfree & Hlt & _). destruct Y as [Y1 Y2 Y3 Y4 Y5 Y6 Y7].
  assert (Hdata : data <= b). { destruct (Z.lt_ge_cases b data); [|done]. rewrite Y7 in Hfree by lia. done. }
  assert (Hreg : ~ region start lsize b) by (unfold region; lia). unfold BPB, BSIZE in Hb.
  destruct (write_block_ok me p t start lsize H bs r (BM r) (set_bit (blk r (BM r)) b) X) as
    (i & r1 & r2 & T1 & D1 & B1 & Hln & D2 & X2 & S2); [by eapply fits_le; [|done]; lia|lia|done|intros j Hj; by apply Hu|].
  destruct (modify_block_ok me p t start lsize H (add (BM r) bs) r2 b (fun _ => zero_block) X2) as
    (r3 & T3 & D3 & X3 & S3); [by apply fits_add|lia|done| |].
  { intros j Hj. rewrite (s_held _ _ _ _ _ S2 j Hj). intros E. destruct (Hu j Hj) as [_ E']. congruence. }
  exists r3, (T1 ++ T3). split_and!; try done; try lia.
  - unfold balloc. eapply does_step; [apply does_fget|]. cbv beta.
    assert (Z.to_nat ((sb_size (fs_sb r) + BPB - 1) / BPB) = 1%nat) as ->.
    { unfold BPB, BSIZE, FSSIZE in *. replace (sb_size (fs_sb r) + 512 * 8 - 1) with (sb_size (fs_sb r) - 1 + 1 * 4096) by lia.
      change (512 * 8) with 4096. rewrite Z.div_add, Z.div_small by lia. done. }
    change ((fun k => Z.of_nat k * BPB) <$> seq 0 1) with [0]. cbn [balloc_loop].
    eapply does_step; [apply does_fget|]. rewrite BBLOCK_first by (unfold FSSIZE; lia).
    eapply does_bind; [exact D1|]. eapply does_step; [apply does_bget|]. rewrite B1, Hf.
    eapply does_step; [by apply does_bset|]. apply does_assoc. eapply does_step; [exact D2|].
    eapply does_eq; [eapply does_bind; [exact D3|apply does_ret]|apply app_nil_r|reflexivity].
  - eapply stays_ext; [eapply stays_trans; [exact S2|exact S3]|]. intros c. unfold set_at, after_balloc.
    case_decide; [done|]. apply S2.
Qed.

End alloc.
