(* ===== verification/FileFacts.v ===== *)
(** The contents of files: the blocks of a file, and bmap of fs.c with the
    blocks that it allocates. *)

From S2P Require Import Prelude Mmu Kalloc Kernel Sched Rely Pipe Fsys Field Bio Log Console Fs Life Solo BioFacts LogFacts Txn FsFacts.

(** * Definitions *)

Definition ind (x : inode) : Z := i_addrs x !!! 12%nat.

(** The address of block [bn] of a file; 0 for a hole. *)
Definition baddr (r : fsys) (x : inode) (bn : Z) : Z :=
  if bn <? NDIRECT then i_addrs x !!! Z.to_nat bn
  else if ind x =? 0 then 0 else rd32 (blk r (ind x)) (4 * (bn - NDIRECT)).

(** The byte at offset [k] of a file; a hole reads as zeros. *)
Definition fbyte (r : fsys) (x : inode) (k : Z) : Z :=
  let a := baddr r x (k / BSIZE) in if a =? 0 then 0 else rd8 (blk r a) (k mod BSIZE).

(** A data block that is marked in the bitmap. *)
Definition used (data : Z) (r : fsys) (a : Z) : Prop :=
  data <= a < sb_size (fs_sb r) /\ bit_at (blk r (BM r)) a = true.

Record file_ok (data : Z) (r : fsys) (x : inode) : Prop := {
  f_dev : i_dev x = ROOTDEV;
  f_len : length (i_addrs x) = 13%nat;
  f_used : forall bn, 0 <= bn < MAXFILE -> baddr r x bn <> 0 -> used data r (baddr r x bn);
  f_ind : ind x <> 0 -> used data r (ind x);
  f_inj : forall bn bn', 0 <= bn < MAXFILE -> 0 <= bn' < MAXFILE -> baddr r x bn <> 0 ->
    baddr r x bn = baddr r x bn' -> bn = bn';
  f_ne : forall bn, 0 <= bn < MAXFILE -> baddr r x bn <> 0 -> baddr r x bn <> ind x }.

(** A block of data that does not belong to the file. *)
Definition foreign (data : Z) (r : fsys) (x : inode) (c : Z) : Prop :=
  used data r c /\ c <> ind x /\ forall bn, 0 <= bn < MAXFILE -> baddr r x bn <> c.

(** There are [k] free blocks. *)
Definition free (r : fsys) (k : nat) : Prop :=
  exists l, NoDup l /\ (k <= length l)%nat /\ forall b, b ∈ l -> 0 <= b < sb_size (fs_sb r) /\ bit_at (blk r (BM r)) b = false.

Lemma free_some data start lsize r k :
  layout start lsize data r -> free r (S k) -> exists b, free_bit (blk r (BM r)) 0 (sb_size (fs_sb r)) = Some b.
Proof.
  intros Y (l & _ & Hl & Hb). pose proof (free_bit_spec (blk r (BM r)) 0 (sb_size (fs_sb r))) as Hs.
  destruct (free_bit _ _ _) as [b|]; [by exists b|]. destruct l as [|b l]; [simpl in Hl; lia|].
  destruct (Hb b) as [H1 H2]; [by left|]. pose proof (l_size _ _ _ _ Y). unfold FSSIZE in *.
  destruct (Hs b) as [H3|H3]; [unfold BPB, BSIZE; lia|congruence|lia].
Qed.

(** * When no block changes *)

Section same.
Context (r r' : fsys) (Hblk : forall c, blk r' c = blk r c) (Hsb : fs_sb r' = fs_sb r).

Lemma same_layout start lsize data : layout start lsize data r -> layout start lsize data r'.
Proof. intros [Y1 Y2 Y3 Y4 Y5 Y6 Y7]. split; try done; rewrite ?Hsb, ?Hblk; try done. intros b. by rewrite Hblk. Qed.

Lemma same_baddr x bn : baddr r' x bn = baddr r x bn.
Proof. unfold baddr. by rewrite Hblk. Qed.

Lemma same_fbyte x k : fbyte r' x k = fbyte r x k.
Proof. unfold fbyte. rewrite same_baddr. by rewrite Hblk. Qed.

Lemma same_used data a : used data r a -> used data r' a.
Proof. unfold used. by rewrite Hsb, Hblk. Qed.

Lemma same_file data x : file_ok data r x -> file_ok data r' x.
Proof.
  intros [F1 F2 F3 F4 F5 F6]. split; try done.
  - intros bn ?. rewrite same_baddr. intros. by apply same_used, F3.
  - intros. by apply same_used, F4.
  - intros bn bn'. rewrite !same_baddr. apply F5.
  - intros bn. rewrite same_baddr. apply F6.
Qed.

Lemma same_free k : free r k -> free r' k.
Proof. unfold free. by rewrite Hsb, Hblk. Qed.

End same.

Lemma free_le r k k' : (k' <= k)%nat -> free r k -> free r k'.
Proof. intros Hk (l & ? & ? & ?). exists l. split_and!; [done|lia|done]. Qed.

(** * When a data block changes *)

Section set.
Context (r r' : fsys) (a : Z) (v : list Z).
Context (Hblk : forall c, blk r' c = set_at (blk r) a v c) (Hsb : fs_sb r' = fs_sb r) (Ha : BM r <> a).

Lemma set_other c : c <> a -> blk r' c = blk r c.
Proof. intros Hc. rewrite Hblk. unfold set_at. by rewrite decide_False. Qed.

Lemma set_this : blk r' a = v.
Proof. rewrite Hblk. unfold set_at. by rewrite decide_True. Qed.

Lemma set_layout start lsize data :
  length v = 512%nat -> layout start lsize data r -> layout start lsize data r'.
Proof.
  intros Hv [Y1 Y2 Y3 Y4 Y5 Y6 Y7]. split; rewrite ?Hsb; try done; [|by rewrite set_other].
  intros b. rewrite Hblk. unfold set_at. by case_decide.
Qed.

Lemma set_used data c : used data r c -> used data r' c.
Proof. unfold used. by rewrite Hsb, set_other. Qed.

Lemma set_free k : free r k -> free r' k.
Proof. unfold free. by rewrite Hsb, set_other. Qed.

End set.

(** * After an allocation *)

Section alloc.
Context (start lsize data : Z) (r r' : fsys) (b : Z).
Context (Y : layout start lsize data r) (Hb : data <= b < sb_size (fs_sb r)).
Context (Hfree : bit_at (blk r (BM r)) b = false).
Context (Hblk : forall c, blk r' c = after_balloc r b c) (Hsb : fs_sb r' = fs_sb r).

Lemma alloc_bmap : blk r' (BM r') = set_bit (blk r (BM r)) b.
Proof.
  rewrite Hsb, Hblk. unfold after_balloc. pose proof (l_bmap _ _ _ _ Y).
  rewrite decide_False by lia. by rewrite decide_True.
Qed.

Lemma alloc_bit c : 0 <= c -> bit_at (blk r' (BM r')) c = (c =? b) || bit_at (blk r (BM r)) c.
Proof.
  intros Hc. rewrite alloc_bmap. pose proof (l_size _ _ _ _ Y). pose proof (l_bmap _ _ _ _ Y).
  apply bit_set; [apply Y|unfold BPB, BSIZE, FSSIZE in *; lia|done].
Qed.

Lemma alloc_layout : layout start lsize data r'.
Proof.
  pose proof Y as [Y1 Y2 Y3 Y4 Y5 Y6 Y7]. split; try done; try by rewrite Hsb.
  - intros c. rewrite Hblk. unfold after_balloc. repeat case_decide; [done|by rewrite length_set_bit|done].
  - intros c Hc. rewrite alloc_bit by lia. rewrite Y7 by done. apply orb_true_r.
Qed.

Lemma alloc_other c : c <> b -> c <> BM r -> blk r' c = blk r c.
Proof. intros H1 H2. rewrite Hblk. unfold after_balloc. by rewrite !decide_False. Qed.

Lemma alloc_used a : used data r a -> a <> b /\ a <> BM r /\ used data r' a /\ blk r' a = blk r a.
Proof.
  intros [H1 H2]. pose proof (l_bmap _ _ _ _ Y). assert (a <> b) by congruence. assert (a <> BM r) by lia.
  split_and!; try done; [|by apply alloc_other]. split; [by rewrite Hsb|]. rewrite alloc_bit by lia.
  rewrite H2. apply orb_true_r.
Qed.

Lemma alloc_baddr x bn : file_ok data r x -> baddr r' x bn = baddr r x bn.
Proof.
  intros Fo. unfold baddr. destruct (bn <? NDIRECT); [done|]. destruct (Z.eqb_spec (ind x) 0) as [|Hne]; [done|].
  by destruct (alloc_used (ind x) (f_ind _ _ _ Fo Hne)) as (_ & _ & _ & ->).
Qed.

Lemma alloc_file x : file_ok data r x -> file_ok data r' x.
Proof.
  intros Fo. pose proof Fo as [F1 F2 F3 F4 F5 F6]. split; try done.
  - intros bn. rewrite alloc_baddr by done. intros. by apply alloc_used, F3.
  - intros. by apply alloc_used, F4.
  - intros bn bn'. rewrite !alloc_baddr by done. apply F5.
  - intros bn. rewrite !alloc_baddr by done. apply F6.
Qed.

Lemma alloc_fbyte x k : file_ok data r x -> 0 <= k < MAXFILE * BSIZE -> fbyte r' x k = fbyte r x k.
Proof.
  intros Fo Hk. unfold fbyte. rewrite alloc_baddr by done. destruct (Z.eqb_spec (baddr r x (k / BSIZE)) 0); [done|].
  destruct (alloc_used (baddr r x (k / BSIZE))) as (_ & _ & _ & ->); [|done]. apply (f_used _ _ _ Fo); [|done].
  unfold BSIZE in *. lia.
Qed.

Lemma alloc_free k : free r (S k) -> free r' k.
Proof.
  intros (l & Hn & Hl & Hlb). exists (filter (fun c => c <> b) l). split_and!; [by apply NoDup_filter| |].
  - assert (l ⊆+ b :: filter (fun c => c <> b) l) as Hs%submseteq_length; [|simpl in Hs; lia].
    apply NoDup_submseteq; [done|]. intros c Hc. rewrite elem_of_cons, list_elem_of_filter.
    destruct (decide (c = b)); naive_solver.
  - intros c [H1 H2]%list_elem_of_filter. destruct (Hlb c H2) as [H3 H4]. rewrite Hsb. split; [done|].
    rewrite <- Hsb. rewrite alloc_bit by lia. rewrite (proj2 (Z.eqb_neq _ _)) by done. done.
Qed.

End alloc.

(** * Giving a file a block *)

Lemma rd8_zero k : 0 <= k < 512 -> rd8 zero_block k = 0.
Proof. intros Hk. unfold rd8, zero_block. apply lookup_total_replicate_2. lia. Qed.

Lemma rd32_zero k : 0 <= k <= 508 -> rd32 zero_block k = 0.
Proof. intros Hk. unfold rd32, rd16. by rewrite !rd8_zero by lia. Qed.

Section give.
Context (data : Z) (r r' : fsys) (x x' : inode) (Hdata : 0 < data).
Context (Fo : file_ok data r x) (Hdev : i_dev x' = i_dev x) (Hlen : length (i_addrs x') = 13%nat).
Context (Hsb : fs_sb r' = fs_sb r) (Hbm : blk r' (BM r) = blk r (BM r)).
Context (Hi : ind x' <> 0 -> used data r (ind x')).
Context (Hne : forall bn, 0 <= bn < MAXFILE -> baddr r x bn <> 0 -> baddr r x bn <> ind x').

Lemma give_used a : used data r a -> used data r' a.
Proof. intros [H1 H2]. split; by rewrite Hsb, ?Hbm. Qed.

(** No block of the file changes. *)
Lemma give_none :
  (forall bn, 0 <= bn < MAXFILE -> baddr r' x' bn = baddr r x bn) -> file_ok data r' x'.
Proof.
  intros Hb. pose proof Fo as [F1 F2 F3 F4 F5 F6]. split; try done; [congruence|..].
  - intros bn Hbn. rewrite Hb by done. intros. by apply give_used, F3.
  - intros. by apply give_used, Hi.
  - intros bn bn' H1 H2. rewrite !Hb by done. by apply F5.
  - intros bn H1. rewrite !Hb by done. by apply Hne.
Qed.

(** Block [bn] of the file is now [b]. *)
Context (bn b : Z) (Hhole : baddr r x bn = 0) (Hb : used data r b).
Context (Hfresh : forall bn', 0 <= bn' < MAXFILE -> baddr r x bn' <> b) (Hbi : b <> ind x').
Context (Hba : forall bn', 0 <= bn' < MAXFILE -> baddr r' x' bn' = if decide (bn' = bn) then b else baddr r x bn').

Lemma give_file : file_ok data r' x'.
Proof.
  pose proof Fo as [F1 F2 F3 F4 F5 F6]. split; try done; [congruence|..].
  - intros bn' Hbn. rewrite Hba by done. case_decide; intros; [by apply give_used|]. by apply give_used, F3.
  - intros. by apply give_used, Hi.
  - intros bn1 bn2 H1 H2. rewrite !Hba by done. repeat case_decide; subst; try done.
    + intros _ E. by destruct (Hfresh bn2).
    + intros _ E. by destruct (Hfresh bn1).
    + by apply F5.
  - intros bn' H1. rewrite Hba by done. case_decide; [by subst|]. by apply Hne.
Qed.

Lemma give_fbyte k :
  0 <= k < MAXFILE * BSIZE -> blk r' b = zero_block ->
  (forall bn', 0 <= bn' < MAXFILE -> baddr r x bn' <> 0 -> blk r' (baddr r x bn') = blk r (baddr r x bn')) ->
  fbyte r' x' k = fbyte r x k.
Proof.
  clear Hlen. intros Hk Hz Hs. assert (Hr : 0 <= k / BSIZE < MAXFILE) by (unfold BSIZE in *; lia).
  unfold fbyte. rewrite Hba by done. case_decide as E.
  - rewrite E, Hhole. simpl. destruct (b =? 0); [done|]. rewrite Hz. apply rd8_zero. unfold BSIZE. lia.
  - destruct (Z.eqb_spec (baddr r x (k / BSIZE)) 0); [done|]. by rewrite Hs.
Qed.

End give.

(** * bmap *)

Definition with_inode (ip : nat) (x : inode) (r : fsys) : fsys := set_fs_icache (<[ip := x]> (fs_icache r)) r.

Lemma txn_inode p start lsize H bs ip x r : txn p start lsize H bs r -> txn p start lsize H bs (with_inode ip x r).
Proof. intros [G C N Hd He]. split; [exact G|by destruct C|by destruct N|exact Hd|exact He]. Qed.

Lemma inode_with ip x r j :
  (ip < length (fs_icache r))%nat -> inode_of (with_inode ip x r) j = if decide (j = ip) then x else inode_of r j.
Proof.
  intros Hi. unfold inode_of, with_inode. simpl. case_decide; [subst; by rewrite list_lookup_insert_eq|].
  by rewrite list_lookup_insert_ne.
Qed.

Section file.
Context (me : nat) (p : Z) (t : nat) (start lsize data : Z) (ip : nat).
Notation turns := (S (S t)).
Notation does := (does me p).
Notation txn := (txn p start lsize).

Lemma does_iset f L r :
  (ip < length (fs_icache r))%nat -> does (iset ip f) L r [] tt L (with_inode ip (f (inode_of r ip)) r).
Proof.
  intros Hi. eapply does_eq; [apply does_fset|done|]. cbv beta. unfold with_inode, inode_of.
  destruct (lookup_lt_is_Some_2 _ _ Hi) as [x Hx]. by rewrite (alter_insert _ _ _ _ Hx), Hx.
Qed.

Lemma does_iget {A} (f : inode -> A) L r : does (iget_ ip f) L r [] (f (inode_of r ip)) L r.
Proof. apply (does_fget _ _ (fun r => f (inode_of r ip))). Qed.

(** The file of inode [ip] in a transaction, with [k] blocks free. *)
Record good (bs : list Z) (k : nat) (r : fsys) : Prop := {
  o_data : 0 < data;
  o_layout : layout start lsize data r;
  o_txn : txn [] bs r;
  o_file : file_ok data r (inode_of r ip);
  o_free : free r k;
  o_ip : (ip < length (fs_icache r))%nat }.

(** Only the blocks of the file have changed, and not its contents. *)
Record grew (r r' : fsys) (T : list disk_t) : Prop := {
  w_disk : fs_disk r' = fs_disk r;
  w_sb : fs_sb r' = fs_sb r;
  w_cons : fs_cons r' = fs_cons r;
  w_len : length (fs_icache r') = length (fs_icache r);
  w_other : forall j, j <> ip -> inode_of r' j = inode_of r j;
  w_inode : exists l, inode_of r' ip = set_i_addrs l (inode_of r ip);
  w_addr : forall bn, 0 <= bn < MAXFILE -> baddr r (inode_of r ip) bn <> 0 ->
    baddr r' (inode_of r' ip) bn = baddr r (inode_of r ip) bn;
  w_byte : forall k, 0 <= k < MAXFILE * BSIZE -> fbyte r' (inode_of r' ip) k = fbyte r (inode_of r ip) k;
  w_blk : forall c, foreign data r (inode_of r ip) c -> foreign data r' (inode_of r' ip) c /\ blk r' c = blk r c;
  w_meta : forall c, 0 <= c < data -> c <> BM r -> blk r' c = blk r c;
  w_trace : Forall (eq (fs_disk r)) T }.

Lemma grew_refl r : grew r r [].
Proof. split; try done. exists (i_addrs (inode_of r ip)). by destruct (inode_of r ip). Qed.

Lemma grew_trans r1 r2 r3 T1 T2 :
  grew r1 r2 T1 -> grew r2 r3 T2 -> grew r1 r3 (T1 ++ T2).
Proof.
  intros A B. split.
  - by rewrite (w_disk _ _ _ B), (w_disk _ _ _ A).
  - by rewrite (w_sb _ _ _ B), (w_sb _ _ _ A).
  - by rewrite (w_cons _ _ _ B), (w_cons _ _ _ A).
  - by rewrite (w_len _ _ _ B), (w_len _ _ _ A).
  - intros j Hj. by rewrite (w_other _ _ _ B), (w_other _ _ _ A).
  - destruct (w_inode _ _ _ A) as [l1 E1], (w_inode _ _ _ B) as [l2 E2]. exists l2. by rewrite E2, E1.
  - intros bn Hbn Hne. rewrite (w_addr _ _ _ B); [by apply (w_addr _ _ _ A)|done|]. by rewrite (w_addr _ _ _ A).
  - intros k Hk. rewrite (w_byte _ _ _ B) by done. by apply (w_byte _ _ _ A).
  - intros c Hc. destruct (w_blk _ _ _ A c Hc) as [Hc2 E2], (w_blk _ _ _ B c Hc2) as [Hc3 E3]. by rewrite E3, E2.
  - intros c Hc Hne. rewrite (w_meta _ _ _ B), (w_meta _ _ _ A); try done. by rewrite (w_sb _ _ _ A).
  - apply Forall_app_2; [apply A|]. pose proof (w_trace _ _ _ B) as H. by rewrite (w_disk _ _ _ A) in H.
Qed.

(** ** Allocating a block for the file *)

(** [b] is a new block, full of zeros, and nothing that is in use has
    changed. *)
Record fresh (r r' : fsys) (x : inode) (b : Z) : Prop := {
  a_layout : layout start lsize data r';
  a_file : file_ok data r' x;
  a_used : used data r' b;
  a_zero : blk r' b = zero_block;
  a_pos : b <> 0;
  a_new : forall bn, 0 <= bn < MAXFILE -> baddr r' x bn <> b;
  a_ind : b <> ind x;
  a_addr : forall bn, baddr r' x bn = baddr r x bn;
  a_byte : forall k, 0 <= k < MAXFILE * BSIZE -> fbyte r' x k = fbyte r x k;
  a_keep : forall c, used data r c -> used data r' c /\ blk r' c = blk r c /\ c <> b }.

Lemma file_balloc H bs k r x :
  0 < data -> layout start lsize data r -> txn H bs r -> file_ok data r x -> free r (S k) ->
  fits lsize (length H) bs 2 -> held_used H r ->
  exists b r' T bs', does (balloc turns me ROOTDEV) [] r T b [] r' /\ txn H bs' r'
    /\ (forall h m, fits lsize h bs (2 + m) -> fits lsize h bs' m)
    /\ free r' k /\ fresh r r' x b /\ stays H (after_balloc r b) r r' T.
Proof.
  intros Hd Y X Fo Hf Fi Hu. destruct (free_some _ _ _ _ _ Y Hf) as [b Hb].
  destruct (balloc_ok me p t start lsize data H bs r b Y X) as (r' & T & D & X' & S & Hr & _ & Hbit); [done..|].
  destruct (meta_sb _ _ (s_meta _ _ _ _ _ S)) as (Hsb & _ & _). pose proof (s_blk _ _ _ _ _ S) as V.
  assert (Y' := alloc_layout start lsize data r r' b Y Hr V Hsb).
  assert (Hnew : forall a, used data r a -> a <> b) by (intros a [_ Ha] ->; congruence).
  exists b, r', T, (add b (add (BM r) bs)). split_and!; try done.
  - intros h m Hm. by apply fits_add, fits_add.
  - by apply (alloc_free start lsize data r r' b Y Hr V Hsb).
  - split; try done.
    + by apply (alloc_file start lsize data r r' b Y Hr Hbit V Hsb).
    + split; [by rewrite Hsb|]. rewrite (alloc_bit start lsize data r r' b Y Hr V Hsb) by lia. by rewrite Z.eqb_refl.
    + rewrite V. unfold after_balloc. by rewrite decide_True.
    + lia.
    + intros bn Hbn. rewrite (alloc_baddr start lsize data r r' b Y Hr Hbit V Hsb) by done. intros E.
      destruct (Hnew b); [|done]. rewrite <- E. apply (f_used _ _ _ Fo); lia.
    + intros E. destruct (Hnew b); [|done]. rewrite E. apply (f_ind _ _ _ Fo). lia.
    + intros bn. by apply (alloc_baddr start lsize data r r' b Y Hr Hbit V Hsb).
    + intros j Hj. by apply (alloc_fbyte start lsize data r r' b Y Hr Hbit V Hsb).
    + intros c Hc. destruct (alloc_used start lsize data r r' b Y Hr Hbit V Hsb c Hc) as (? & _ & ? & ?). done.
Qed.

Lemma fresh_grew r r1 T b l :
  let x := inode_of r ip in let x' := set_i_addrs l x in let r2 := with_inode ip x' r1 in
  (ip < length (fs_icache r))%nat -> fresh r r1 x b -> stays [] (after_balloc r b) r r1 T ->
  (forall bn, 0 <= bn < MAXFILE -> baddr r1 x bn <> 0 -> baddr r1 x' bn = baddr r1 x bn) ->
  (forall k, 0 <= k < MAXFILE * BSIZE -> fbyte r1 x' k = fbyte r1 x k) ->
  ind x' = ind x \/ ind x' = b ->
  (forall bn, 0 <= bn < MAXFILE -> baddr r1 x' bn = baddr r1 x bn \/ baddr r1 x' bn = b) -> grew r r2 T.
Proof.
  intros x x' r2 Hip A S Hb Hk Hi Hor. destruct (meta_sb _ _ (s_meta _ _ _ _ _ S)) as (Hsb & Hic & Hcn).
  assert (Hi2 : forall j, inode_of r2 j = if decide (j = ip) then x' else inode_of r j).
  { intros j. unfold r2. rewrite inode_with by (by rewrite Hic). unfold inode_of. by rewrite Hic. }
  assert (Hx : inode_of r2 ip = x') by (rewrite Hi2; by rewrite decide_True).
  split; rewrite ?Hx; try done; try apply S.
  - simpl. by rewrite length_insert, Hic.
  - intros j Hj. rewrite Hi2. by rewrite decide_False.
  - by exists l.
  - intros bn Hbn Hne. change (baddr r2 x' bn) with (baddr r1 x' bn). rewrite Hb; [|done|]; by rewrite (a_addr _ _ _ _ A).
  - intros k Hkr. change (fbyte r2 x' k) with (fbyte r1 x' k). rewrite Hk by done. by apply (a_byte _ _ _ _ A).
  - intros c (Hc & Hci & Hcb). destruct (a_keep _ _ _ _ A c Hc) as (Hc1 & E1 & Hcn1). split; [|exact E1].
    split_and!; [exact Hc1|by destruct Hi as [-> | ->]|]. intros bn Hbn. change (baddr r2 x' bn) with (baddr r1 x' bn).
    destruct (Hor bn Hbn) as [-> | ->]; [|done]. rewrite (a_addr _ _ _ _ A). by apply Hcb.
  - intros c Hc Hne. change (blk r2 c) with (blk r1 c). rewrite (s_blk _ _ _ _ _ S). unfold after_balloc.
    destruct (a_used _ _ _ _ A). by rewrite !decide_False by (done || lia).
Qed.

Lemma fits_held h bs m : fits lsize (S h) bs m -> fits lsize h bs m.
Proof. unfold fits. lia. Qed.

(** A hole among the direct blocks is filled. *)
Lemma direct_ok bs k m r bn :
  good bs (S k) r -> fits lsize 1 bs (2 + m) -> 0 <= bn < NDIRECT -> baddr r (inode_of r ip) bn = 0 ->
  exists b r1 T bs', does (balloc turns me ROOTDEV) [] r T b [] r1 /\ b <> 0
    /\ (ip < length (fs_icache r1))%nat /\ inode_of r1 ip = inode_of r ip
    /\ let r2 := with_inode ip (set_i_addrs (<[Z.to_nat bn := b]> (i_addrs (inode_of r ip))) (inode_of r ip)) r1 in
       good bs' k r2 /\ fits lsize 1 bs' m /\ grew r r2 T /\ baddr r2 (inode_of r2 ip) bn = b.
Proof.
  intros [O1 O2 O3 O4 O5 O6] Fi Hbn Hz. set (x := inode_of r ip) in *.
  destruct (file_balloc [] bs k r x O1 O2 O3 O4 O5) as (b & r1 & T & bs' & D & X1 & F1 & Fr1 & A & S);
    [apply fits_held; by eapply fits_le; [|exact Fi]; lia|by intros j Hj%elem_of_nil|].
  destruct (meta_sb _ _ (s_meta _ _ _ _ _ S)) as (Hsb & Hic & _).
  assert (Hip : (ip < length (fs_icache r1))%nat) by (by rewrite Hic).
  assert (Hx1 : inode_of r1 ip = x) by (unfold inode_of; by rewrite Hic).
  pose proof (f_len _ _ _ O4) as Hlen. unfold NDIRECT in Hbn.
  set (x' := set_i_addrs (<[Z.to_nat bn := b]> (i_addrs x)) x).
  assert (Hind : ind x' = ind x).
  { unfold ind, x'. simpl. rewrite !list_lookup_total_alt. rewrite list_lookup_insert_ne; [done|lia]. }
  assert (Hba : forall bn', 0 <= bn' < MAXFILE -> baddr r1 x' bn' = if decide (bn' = bn) then b else baddr r1 x bn').
  { intros bn' Hbn'. unfold baddr. rewrite Hind. unfold NDIRECT. case_decide as E.
    - subst bn'. rewrite (proj2 (Z.ltb_lt _ _)) by lia. unfold x'. simpl. rewrite list_lookup_total_alt.
      by rewrite list_lookup_insert_eq by lia.
    - destruct (Z.ltb_spec bn' 12); [|done]. unfold x'. simpl. rewrite !list_lookup_total_alt.
      rewrite list_lookup_insert_ne; [done|lia]. }
  assert (Hhole : baddr r1 x bn = 0) by (by rewrite (a_addr _ _ _ _ A)).
  exists b, r1, T, bs'. split_and!; try done; [apply A|]. fold x'. set (r2 := with_inode ip x' r1).
  assert (Hx2 : inode_of r2 ip = x') by (unfold r2; rewrite inode_with by done; by rewrite decide_True).
  split_and!; try done; [|by apply F1|..].
  - split; try done; [destruct (a_layout _ _ _ _ A); by split|by apply txn_inode| |simpl; by rewrite length_insert].
    rewrite Hx2. cut (file_ok data r1 x'); [intros []; by split|].
    eapply (give_file data r1 r1 x x' (a_file _ _ _ _ A) eq_refl); try done; try apply A.
    + unfold x'. simpl. by rewrite length_insert.
    + rewrite Hind. apply (f_ind _ _ _ (a_file _ _ _ _ A)).
    + rewrite Hind. apply (f_ne _ _ _ (a_file _ _ _ _ A)).
    + rewrite Hind. apply A.
  - apply (fresh_grew r r1 T b); try done.
    + intros bn' Hr Hne. fold x x'. rewrite Hba by done. case_decide; [|done]. subst. by destruct Hne.
    + intros j Hj. fold x x'. apply (give_fbyte r1 r1 x x' bn b Hhole Hba j Hj); [apply A|done].
    + by left.
    + intros bn' Hr. fold x x'. rewrite Hba by done. case_decide; [by right|by left].
  - rewrite Hx2. change (baddr r1 x' bn = b). rewrite Hba by (unfold MAXFILE, NDIRECT, NINDIRECT, BSIZE; lia). by rewrite decide_True.
Qed.

Lemma good_le bs k k' r : (k' <= k)%nat -> good bs k r -> good bs k' r.
Proof. intros Hk [O1 O2 O3 O4 O5 O6]. split; try done. by apply (free_le r k). Qed.

Lemma same_all r r1 T H f : stays H f r r1 T -> (forall c, blk r1 c = f c) /\ fs_sb r1 = fs_sb r /\ fs_icache r1 = fs_icache r.
Proof. intros S. by destruct (meta_sb _ _ (s_meta _ _ _ _ _ S)) as (? & ? & _); pose proof (s_blk _ _ _ _ _ S). Qed.

Lemma good_same bs bs' k r r' T :
  good bs k r -> txn [] bs' r' -> stays [] (blk r) r r' T ->
  good bs' k r' /\ grew r r' T /\ inode_of r' ip = inode_of r ip.
Proof.
  intros [O1 O2 O3 O4 O5 O6] X [V Hd M _ HT]. destruct (meta_sb _ _ M) as (Hsb & Hic & Hcn).
  assert (Hj : forall j, inode_of r' j = inode_of r j) by (intros j; unfold inode_of; by rewrite Hic).
  split_and!; [..|done].
  - split; try done; [by apply (same_layout r)| |by apply (same_free r)|by rewrite Hic].
    rewrite Hj. by apply (same_file r).
  - split; try done; rewrite ?Hj; try done.
    + by rewrite Hic.
    + exists (i_addrs (inode_of r ip)). by destruct (inode_of r ip).
    + intros. by rewrite (same_baddr r r' V).
    + intros. by rewrite (same_fbyte r r' V).
    + intros c (Hc & ? & Hcb). split; [|done]. split_and!; [by apply (same_used r)|done|].
      intros bn Hbn. rewrite (same_baddr r r' V). by apply Hcb.
Qed.

(** The entry of the indirect block for block [bn]. *)
Lemma ind_entry d bn b bn' :
  length d = 512%nat -> NDIRECT <= bn < MAXFILE -> NDIRECT <= bn' < MAXFILE -> 0 <= b < FSSIZE ->
  rd32 (wr32 d (4 * (bn - NDIRECT)) b) (4 * (bn' - NDIRECT))
  = if decide (bn' = bn) then b else rd32 d (4 * (bn' - NDIRECT)).
Proof.
  unfold MAXFILE, NDIRECT, NINDIRECT, BSIZE, FSSIZE. intros Hl H1 H2 Hb. change (512 / 4) with 128 in *. case_decide.
  - subst. rewrite rd32_wr32 by lia. apply u32_id. lia.
  - apply rd32_wr32_ne; lia.
Qed.

(** A hole among the indirect blocks is filled: the allocation of [b], and
    then the write of its address to the indirect block. *)
Lemma indirect_grew bs bs' k r r1 r2 T bn b v :
  let x := inode_of r ip in
  good bs (S k) r -> NDIRECT <= bn < MAXFILE -> ind x <> 0 -> baddr r x bn = 0 ->
  fresh r r1 x b -> free r1 k -> stays [] (after_balloc r b) r r1 T ->
  v = wr32 (blk r1 (ind x)) (4 * (bn - NDIRECT)) b ->
  txn [] bs' r2 -> stays [] (set_at (blk r1) (ind x) v) r1 r2 [] ->
  good bs' k r2 /\ grew r r2 T /\ baddr r2 (inode_of r2 ip) bn = b /\ b <> 0.
Proof.
  intros x [O1 O2 O3 O4 O5 O6] Hbn Hi Hz A Hfree S1 Hv X2 S2. pose proof (a_layout _ _ _ _ A) as Y1.
  destruct (meta_sb _ _ (s_meta _ _ _ _ _ S1)) as (Hsb1 & Hic1 & Hcn1).
  destruct (meta_sb _ _ (s_meta _ _ _ _ _ S2)) as (Hsb2 & Hic2 & Hcn2). pose proof (s_blk _ _ _ _ _ S2) as V2.
  assert (Hj : forall j, inode_of r2 j = inode_of r j) by (intros j; unfold inode_of; by rewrite Hic2, Hic1).
  destruct (a_keep _ _ _ _ A (ind x) (f_ind _ _ _ O4 Hi)) as (U1 & _ & _).
  pose proof (l_bmap _ _ _ _ Y1). pose proof (l_size _ _ _ _ Y1).
  assert (Hbr : 0 <= b < FSSIZE) by (destruct (a_used _ _ _ _ A) as [? _]; lia).
  assert (Hnb : BM r1 <> ind x) by (destruct U1; lia). assert (Hib := a_ind _ _ _ _ A).
  pose proof (set_other r1 r2 (ind x) v V2) as Hother.
  assert (Hba : forall bn', 0 <= bn' < MAXFILE -> baddr r2 x bn' = if decide (bn' = bn) then b else baddr r1 x bn').
  { intros bn' Hbn'. unfold baddr. destruct (Z.ltb_spec bn' NDIRECT); [rewrite decide_False by lia; done|].
    rewrite (proj2 (Z.eqb_neq _ _) Hi), V2. unfold set_at. rewrite decide_True, Hv by done.
    apply ind_entry; [apply Y1|lia..]. }
  assert (Hhole : baddr r1 x bn = 0) by (by rewrite (a_addr _ _ _ _ A)). pose proof (a_file _ _ _ _ A) as Fo.
  assert (Hkeep : forall bn', 0 <= bn' < MAXFILE -> baddr r1 x bn' <> 0 -> blk r2 (baddr r1 x bn') = blk r1 (baddr r1 x bn')).
  { intros. by apply Hother, (f_ne _ _ _ Fo). }
  split_and!; rewrite ?Hj; fold x.
  - split; rewrite ?Hj; try done; [|apply (give_file data r1 r2 x x) with (bn := bn) (b := b); try done|by apply (set_free r1 r2 (ind x) v)|by rewrite Hic2, Hic1].
    + apply (set_layout r1 r2 (ind x) v V2); try done. by rewrite Hv, length_wr32, (l_len _ _ _ _ Y1).
    + apply Fo.
    + apply Hother. congruence.
    + apply (f_ne _ _ _ Fo).
    + apply A.
    + apply A.
  - split; rewrite ?Hj; fold x; try done; rewrite ?Hic2, ?Hsb2, ?Hcn2; try done.
    + rewrite (s_disk _ _ _ _ _ S2). apply S1.
    + by rewrite Hic1.
    + exists (i_addrs x). by destruct x.
    + intros bn' Hr Hne. rewrite Hba by done. case_decide; [by subst|by rewrite (a_addr _ _ _ _ A)].
    + intros j Hjr. etrans; [|by apply (a_byte _ _ _ _ A)].
      apply (give_fbyte r1 r2 x x bn b Hhole Hba j Hjr); [|done]. rewrite Hother by done. apply A.
    + intros c (Hc & Hci & Hcb). destruct (a_keep _ _ _ _ A c Hc) as (Hc1 & E1 & Hcn).
      split; [|by rewrite Hother]. split_and!; [by apply (set_used r1 r2 (ind x) v)|done|].
      intros bn' Hbn'. rewrite Hba by done. case_decide; [done|]. rewrite (a_addr _ _ _ _ A). by apply Hcb.
    + intros c Hc Hcn. rewrite Hother by (destruct U1; lia). rewrite (s_blk _ _ _ _ _ S1). unfold after_balloc.
      destruct (a_used _ _ _ _ A). by rewrite !decide_False by (done || lia).
    + apply S1.
  - rewrite Hba by (unfold MAXFILE, NDIRECT in *; lia). by rewrite decide_True.
  - apply A.
Qed.

(** An allocation while the indirect block is in a buffer. *)
Lemma fresh_same r r1 r2 x b H T1 T2 :
  stays [] (blk r) r r1 T1 -> fresh r1 r2 x b -> stays H (after_balloc r1 b) r1 r2 T2 ->
  fresh r r2 x b /\ stays [] (after_balloc r b) r r2 (T1 ++ T2).
Proof.
  intros S1 [A1 A2 A3 A4 A5 A6 A7 A8 A9 A10] S2. pose proof (s_blk _ _ _ _ _ S1) as V.
  destruct (meta_sb _ _ (s_meta _ _ _ _ _ S1)) as (Hsb & _ & _). split.
  - split; try done.
    + intros. by rewrite A8, (same_baddr r r1 V).
    + intros. by rewrite A9, (same_fbyte r r1 V).
    + intros c Hc. destruct (A10 c) as (? & ? & ?); [by apply (same_used r)|]. by rewrite <- V.
  - eapply stays_ext; [eapply stays_trans; [exact S1|]|].
    + destruct S2 as [B1 B2 B3 _ B5]. split; try done. by intros j Hj%elem_of_nil.
    + intros c. unfold after_balloc. by rewrite !V, Hsb.
Qed.

(** The part of bmap that follows the indirect block. *)
Definition through (addr bn : Z) : KF Z :=
  bp ← bread turns me ROOTDEV addr;
  d ← bget_ bp b_data;
  let addr := rd32 d (4 * (bn - NDIRECT)) in
  addr ← (if addr =? 0 then
            addr ← balloc turns me ROOTDEV;
            bset bp (fun y => set_b_data (wr32 (b_data y) (4 * (bn - NDIRECT)) addr) y);;
            log_write bp;;
            mret addr
          else mret addr);
  brelse me bp;;
  mret addr.

(** What bmap establishes. *)
Definition maps (m : KF Z) (bn : Z) (k h : nat) (r : fsys) : Prop :=
  exists a r' T bs', does m [] r T a [] r' /\ good bs' k r' /\ fits lsize 1 bs' h /\ grew r r' T
    /\ baddr r' (inode_of r' ip) bn = a /\ a <> 0
    /\ (baddr r (inode_of r ip) bn <> 0 -> inode_of r' ip = inode_of r ip).

Lemma baddr_ind r x bn :
  NDIRECT <= bn -> ind x <> 0 -> baddr r x bn = rd32 (blk r (ind x)) (4 * (bn - NDIRECT)).
Proof. intros Hbn Hi. unfold baddr. rewrite (proj2 (Z.ltb_ge _ _)) by lia. by rewrite (proj2 (Z.eqb_neq _ _) Hi). Qed.

Lemma held_index H bs r i : txn (i :: H) bs r -> (i < length (fs_bufs r))%nat.
Proof. intros [_ C _ _ _]. rewrite (c_len _ _ _ C). destruct (c_held _ _ _ C i) as [? _]; [by left|done]. Qed.

Lemma indirect_hole bs k m r bn :
  let x := inode_of r ip in
  good bs (S k) r -> fits lsize 1 bs (3 + m) -> NDIRECT <= bn < MAXFILE -> ind x <> 0 -> baddr r x bn = 0 ->
  maps (through (ind x) bn) bn k m r.
Proof.
  intros x Gd Fi Hbn Hi Hz. pose proof Gd as [O1 O2 O3 O4 O5 O6]. fold x in O4.
  pose proof (f_ind _ _ _ O4 Hi) as [Hir Hibit]. pose proof (l_size _ _ _ _ O2). pose proof (l_bmap _ _ _ _ O2).
  destruct (bread_txn me p t start lsize [] bs r (ind x) O3) as (i & r1 & T1 & D1 & X1 & Hin & B1 & S1).
  { apply fits_held. by eapply fits_le; [|exact Fi]; lia. } { lia. } { by intros j Hj%elem_of_nil. }
  destruct (same_all _ _ _ _ _ S1) as (V1 & Hsb1 & _).
  destruct (file_balloc [i] bs k r1 x) as (b & r2 & T2 & bs2 & D2 & X2 & F2 & Fr2 & A2 & S2); try done.
  { by apply (same_layout r). } { by apply (same_file r). } { by apply (same_free r). }
  { by eapply fits_le; [|exact Fi]; simpl; lia. }
  { intros j ->%list_elem_of_singleton. rewrite B1, Hsb1, V1. split; [simpl; lia|done]. }
  destruct (fresh_same r r1 r2 x b [i] T1 T2 S1 A2 S2) as [A S12].
  assert (B2 : buf_of r2 i = locked_buf p r (ind x)) by (rewrite (s_held _ _ _ _ _ S2); [done|by left]).
  specialize (F2 1%nat (1 + m)%nat Fi).
  set (v := wr32 (blk r (ind x)) (4 * (bn - NDIRECT)) b). pose proof (l_log _ _ _ _ O2).
  destruct (log_data_ok me p start lsize [] bs2 r2 i v X2 Hin) as (r3 & D3 & X3 & S3 & B3);
    [apply fits_held; by eapply fits_le; [|exact F2]; lia|rewrite B2; simpl; unfold region; lia..|].
  rewrite B2 in *. cbn [b_blockno locked_buf] in *.
  destruct (brelse_txn me p start lsize [] _ r3 i X3 Hin) as (r4 & D4 & X4 & S4); [by rewrite B3|].
  destruct (indirect_grew bs (add (ind x) bs2) k r r2 r4 (T1 ++ T2) bn b v) as (G1 & G2 & G3 & G4); try done.
  { fold x. unfold v. by destruct (a_keep _ _ _ _ A (ind x)) as (_ & -> & _). }
  { apply (stays_trans _ (set_at (blk r2) (ind x) v) _ _ r3 _ [] []); [done|]. eapply stays_ext; [done|apply S3]. }
  exists b, r4, (T1 ++ T2), (add (ind x) bs2). split_and!; try done; [|by apply fits_add].
  eapply does_bind; [exact D1|]. eapply does_step; [apply does_bget|]. cbv beta zeta.
  rewrite B1. cbn [b_data locked_buf]. rewrite <- baddr_ind, Hz by (done || lia). simpl.
  eapply does_eq; [eapply does_bind|apply app_nil_r|reflexivity].
  - eapply does_eq; [eapply does_bind; [exact D2|]|apply app_nil_r|reflexivity].
    eapply does_step; [by eapply does_bset, held_index|].
    eapply does_step; [|apply does_ret]. cbv beta. rewrite B2. exact D3.
  - eapply does_step; [exact D4|apply does_ret].
Qed.

Lemma indirect_ok bs k m r bn :
  let x := inode_of r ip in
  good bs (S k) r -> fits lsize 1 bs (3 + m) -> NDIRECT <= bn < MAXFILE -> ind x <> 0 ->
  maps (through (ind x) bn) bn k m r.
Proof.
  intros x Gd Fi Hbn Hi. destruct (decide (baddr r x bn = 0)) as [Hz|Hz]; [by eapply indirect_hole|].
  pose proof Gd as [O1 O2 O3 O4 O5 O6]. fold x in O4.
  pose proof (f_ind _ _ _ O4 Hi) as [Hir _]. pose proof (l_size _ _ _ _ O2).
  destruct (read_block_ok me p t start lsize [] bs r (ind x) O3) as (i & r1 & r2 & T & D1 & B1 & D2 & X2 & S2).
  { apply fits_held. by eapply fits_le; [|exact Fi]; lia. } { lia. } { by intros j Hj%elem_of_nil. }
  destruct (good_same bs bs (S k) r r2 T Gd X2 S2) as (Gd2 & Gw & Hx).
  exists (baddr r x bn), r2, T, bs. split_and!; try done.
  - eapply does_eq; [eapply does_bind; [exact D1|]|apply app_nil_r|reflexivity].
    eapply does_step; [apply does_bget|]. cbv beta zeta.
    rewrite B1, <- baddr_ind, (proj2 (Z.eqb_neq _ _) Hz) by (done || lia).
    eapply does_step; [apply does_ret|]. eapply does_step; [exact D2|]. apply does_ret.
  - by eapply good_le; [|exact Gd2]; lia.
  - by eapply fits_le; [|exact Fi]; lia.
  - by apply (w_addr _ _ _ Gw); [unfold NDIRECT in *; lia|].
Qed.

(** The indirect block itself. *)
Lemma ind_alloc bs k m r :
  let x := inode_of r ip in
  good bs (S k) r -> fits lsize 1 bs (2 + m) -> ind x = 0 ->
  exists b r1 T bs', does (balloc turns me ROOTDEV) [] r T b [] r1
    /\ (ip < length (fs_icache r1))%nat /\ inode_of r1 ip = x
    /\ let r2 := with_inode ip (set_i_addrs (<[12%nat := b]> (i_addrs x)) x) r1 in
       good bs' k r2 /\ fits lsize 1 bs' m /\ grew r r2 T /\ ind (inode_of r2 ip) = b /\ b <> 0
       /\ forall c, used data r c -> c <> b.
Proof.
  intros x [O1 O2 O3 O4 O5 O6] Fi Hi. fold x in O4.
  destruct (file_balloc [] bs k r x O1 O2 O3 O4 O5) as (b & r1 & T & bs' & D & X1 & F1 & Fr1 & A & S1);
    [apply fits_held; by eapply fits_le; [|exact Fi]; lia|by intros j Hj%elem_of_nil|].
  destruct (same_all _ _ _ _ _ S1) as (_ & Hsb & Hic). pose proof (f_len _ _ _ O4) as Hlen.
  assert (Hip : (ip < length (fs_icache r1))%nat) by (by rewrite Hic).
  assert (Hx1 : inode_of r1 ip = x) by (unfold inode_of; by rewrite Hic).
  set (x' := set_i_addrs (<[12%nat := b]> (i_addrs x)) x). pose proof (a_file _ _ _ _ A) as Fo.
  assert (Hind : ind x' = b).
  { unfold ind, x'. simpl. rewrite list_lookup_total_alt. by rewrite list_lookup_insert_eq by lia. }
  assert (Hb0 := a_pos _ _ _ _ A).
  assert (Hba : forall bn, 0 <= bn < MAXFILE -> baddr r1 x' bn = baddr r1 x bn).
  { intros bn Hbn. unfold baddr. rewrite Hind, Hi, (a_zero _ _ _ _ A), (proj2 (Z.eqb_neq _ _) Hb0). simpl.
    destruct (Z.ltb_spec bn NDIRECT).
    - unfold x'. simpl. rewrite !list_lookup_total_alt, list_lookup_insert_ne; [done|unfold NDIRECT in *; lia].
    - apply rd32_zero. unfold MAXFILE, NINDIRECT, NDIRECT, BSIZE in *. lia. }
  exists b, r1, T, bs'. split_and!; try done. fold x'. set (r2 := with_inode ip x' r1).
  assert (Hx2 : inode_of r2 ip = x') by (unfold r2; rewrite inode_with by done; by rewrite decide_True).
  split_and!; try done; [|by apply F1| |by rewrite Hx2|].
  - split; try done; [destruct (a_layout _ _ _ _ A); by split|by apply txn_inode| |simpl; by rewrite length_insert].
    rewrite Hx2. cut (file_ok data r1 x'); [intros []; by split|].
    apply (give_none data r1 r1 x x' Fo); try done.
    + unfold x'. simpl. by rewrite length_insert.
    + rewrite Hind. intros. apply A.
    + rewrite Hind. intros bn Hbn _. by apply (a_new _ _ _ _ A).
  - apply (fresh_grew r r1 T b); try done; fold x x'.
    + intros. by apply Hba.
    + intros j Hj. unfold fbyte. rewrite Hba; [done|]. unfold BSIZE in *. lia.
    + by right.
    + intros. left. by apply Hba.
  - intros c Hc. by destruct (a_keep _ _ _ _ A c Hc) as (_ & _ & ?).
Qed.

Lemma bmap_direct bs k m r bn :
  good bs (S k) r -> fits lsize 1 bs (2 + m) -> 0 <= bn < NDIRECT -> maps (bmap turns me ip bn) bn k m r.
Proof.
  intros Gd Fi Hbn. pose proof (f_dev _ _ _ (o_file _ _ _ Gd)) as Hdev.
  assert (Hd : baddr r (inode_of r ip) bn = i_addrs (inode_of r ip) !!! Z.to_nat bn).
  { unfold baddr. by rewrite (proj2 (Z.ltb_lt _ _)) by lia. }
  unfold maps, bmap. destruct (decide (baddr r (inode_of r ip) bn = 0)) as [Hz|Hz].
  - destruct (direct_ok bs k m r bn Gd Fi Hbn Hz) as (b & r1 & T & bs' & D & Hb & Hip & Hx & G1 & G2 & G3 & G4).
    eexists b, _, T, bs'. split_and!; try done.
    eapply does_step; [apply does_iget|]. cbv beta. rewrite (proj2 (Z.ltb_lt _ _)) by lia. cbv zeta.
    rewrite <- Hd, Hz, Hdev. simpl. eapply does_eq; [eapply does_bind; [exact D|]|apply app_nil_r|reflexivity].
    eapply does_step; [by apply does_iset|]. cbv beta. rewrite Hx. apply does_ret.
  - exists (baddr r (inode_of r ip) bn), r, [], bs. split_and!; try done.
    + eapply does_step; [apply does_iget|]. cbv beta. rewrite (proj2 (Z.ltb_lt _ _)) by lia. cbv zeta.
      rewrite <- Hd, (proj2 (Z.eqb_neq _ _) Hz). apply does_ret.
    + by eapply good_le; [|exact Gd]; lia.
    + by eapply fits_le; [|exact Fi]; lia.
    + apply grew_refl.
Qed.

(** bmap returns the block of the file that holds block [bn] of its
    contents; what it allocates on the way leaves the contents as they
    are. *)
Lemma bmap_ok bs k m r bn :
  good bs (S (S k)) r -> fits lsize 1 bs (5 + m) -> 0 <= bn < MAXFILE -> maps (bmap turns me ip bn) bn k m r.
Proof.
  intros Gd Fi Hbn. destruct (Z.lt_ge_cases bn NDIRECT) as [Hlt|Hge].
  { apply (bmap_direct bs); [|by eapply fits_le; [|exact Fi]; lia|lia]. by eapply good_le; [|exact Gd]; lia. }
  pose proof (f_dev _ _ _ (o_file _ _ _ Gd)) as Hdev. unfold maps, bmap.
  destruct (decide (ind (inode_of r ip) = 0)) as [Hz|Hz].
  - destruct (ind_alloc bs (S k) (3 + m) r Gd Fi Hz) as (b & r1 & T & bs1 & D & Hip & Hx & G1 & F1 & W1 & Hi & Hb & Hu).
    set (r2 := with_inode _ _ _) in *.
    destruct (indirect_ok bs1 k m r2 bn G1 F1) as (a & r3 & T3 & bs3 & D3 & G3 & F3 & W3 & Ha & Hne & _);
      [lia|by rewrite Hi|].
    exists a, r3, (T ++ T3), bs3. split_and!; try done.
    + eapply does_step; [apply does_iget|]. cbv beta. rewrite (proj2 (Z.ltb_ge _ _)) by lia. cbv zeta.
      rewrite (proj2 (Z.ltb_lt _ _)) by (unfold MAXFILE in *; lia). change (Z.to_nat NDIRECT) with 12%nat.
      change (i_addrs (inode_of r ip) !!! 12%nat) with (ind (inode_of r ip)). rewrite Hz, Hdev. simpl.
      eapply does_bind; [|rewrite Hi in D3; exact D3].
      eapply does_eq; [eapply does_bind; [exact D|]|apply app_nil_r|reflexivity].
      eapply does_step; [by apply does_iset|]. cbv beta. rewrite Hx. apply does_ret.
    + by apply (grew_trans r r2 r3).
    + intros []. unfold baddr. rewrite (proj2 (Z.ltb_ge _ _)) by lia. by rewrite Hz.
  - destruct (indirect_ok bs k m r bn) as (a & r3 & T3 & bs3 & D3 & R); try done; [..|lia|].
    { by eapply good_le; [|exact Gd]; lia. } { by eapply fits_le; [|exact Fi]; lia. }
    exists a, r3, T3, bs3. split; [|exact R].
    eapply does_step; [apply does_iget|]. cbv beta. rewrite (proj2 (Z.ltb_ge _ _)) by lia. cbv zeta.
    rewrite (proj2 (Z.ltb_lt _ _)) by (unfold MAXFILE in *; lia). change (Z.to_nat NDIRECT) with 12%nat.
    change (i_addrs (inode_of r ip) !!! 12%nat) with (ind (inode_of r ip)). rewrite (proj2 (Z.eqb_neq _ _) Hz), Hdev.
    eapply does_step; [apply does_ret|exact D3].
Qed.

End file.
