(* ===== verification/IoFacts.v ===== *)
(** Reading and writing files: readi and writei of fs.c read and write the
    bytes of the file, whatever blocks they are in. *)

From S2P Require Import Prelude Mmu Kalloc Kernel Sched Rely Pipe Fsys Field Bio Log Console Fs Life Solo BioFacts LogFacts Txn FsFacts FileFacts.

(** * Bytes *)

Lemma length_blit l o v :
  0 <= o -> o + Z.of_nat (length v) <= Z.of_nat (length l) -> length (blit l o v) = length l.
Proof. intros Ho Hl. unfold blit. rewrite !length_app, length_take, length_drop. lia. Qed.

Lemma rd8_blit l o v k :
  0 <= o -> o + Z.of_nat (length v) <= Z.of_nat (length l) -> 0 <= k ->
  rd8 (blit l o v) k = if decide (o <= k < o + Z.of_nat (length v)) then rd8 v (k - o) else rd8 l k.
Proof.
  intros Ho Hl Hk. unfold rd8, blit. rewrite !list_lookup_total_alt. case_decide; f_equal.
  - rewrite lookup_app_r by (rewrite length_take; lia). rewrite length_take, lookup_app_l by lia. f_equal. lia.
  - destruct (Z.lt_ge_cases k o).
    + rewrite lookup_app_l by (rewrite length_take; lia). by rewrite lookup_take_lt by lia.
    + rewrite lookup_app_r by (rewrite length_take; lia). rewrite length_take, lookup_app_r by lia.
      rewrite lookup_drop. f_equal. lia.
Qed.

Lemma slice_bytes l o n (f : Z -> Z) off :
  0 <= o -> 0 <= n -> o + n <= Z.of_nat (length l) -> (forall i, 0 <= i < n -> f (off + i) = rd8 l (o + i)) ->
  slice l o n = f <$> seqZ off n.
Proof.
  intros Ho Hn Hl Hf. unfold slice. apply list_eq. intros i. rewrite list_lookup_fmap.
  destruct (decide (Z.of_nat i < n)).
  - rewrite lookup_take_lt, lookup_drop, lookup_seqZ_lt by lia. simpl. rewrite Hf by lia. unfold rd8.
    rewrite list_lookup_total_alt. replace (Z.to_nat (o + Z.of_nat i)) with (Z.to_nat o + i)%nat by lia.
    destruct (lookup_lt_is_Some_2 l (Z.to_nat o + i)) as [y ->]; [lia|done].
  - rewrite lookup_take_ge, lookup_seqZ_ge by lia. done.
Qed.

(** * Inodes on the disk *)

Record dinode_ok (d : dinode) : Prop := {
  d_type_ok : -32768 <= d_type d < 32768;
  d_major_ok : -32768 <= d_major d < 32768;
  d_minor_ok : -32768 <= d_minor d < 32768;
  d_nlink_ok : -32768 <= d_nlink d < 32768;
  d_size_ok : 0 <= d_size d < 2 ^ 32;
  d_addrs_ok : length (d_addrs d) = 13%nat /\ Forall (fun a => 0 <= a < 2 ^ 32) (d_addrs d) }.

Lemma length_wr_dinode l o d : length (wr_dinode l o d) = length l.
Proof. unfold wr_dinode. by rewrite length_put, !length_wr32, !length_wr16. Qed.

Lemma s16_id v : -32768 <= v < 32768 -> s16 (v mod 65536) = v.
Proof. intros Hv. unfold s16. change (2 ^ 15) with 32768. change (2 ^ 16) with 65536. lia. Qed.

Lemma rd_wr_dinode l o d :
  0 <= o -> o + 64 <= Z.of_nat (length l) -> dinode_ok d -> rd_dinode (wr_dinode l o d) o = d.
Proof.
  intros Ho Hl [H1 H2 H3 H4 H5 [H6 H7]]. destruct d as [ty ma mi nl sz ad]; simpl in *.
  unfold rd_dinode, wr_dinode. cbn [d_type d_major d_minor d_nlink d_size d_addrs].
  assert (Hlen : forall a b c e f, length (wr32 (wr16 (wr16 (wr16 (wr16 l o a) (o + 2) b) (o + 4) c) (o + 6) e) (o + 8) f) = length l)
    by (intros; by rewrite length_wr32, !length_wr16).
  rewrite !rd16_put_ne, rd32_put_ne by (rewrite ?Hlen; lia).
  rewrite rd32_wr32, !rd16_wr32_ne by (rewrite ?length_wr16; lia).
  rewrite u32_id by lia. f_equal.
  1-4: repeat (rewrite rd16_wr16_ne by (rewrite ?length_wr16; lia)); rewrite rd16_wr16 by (rewrite ?length_wr16; lia);
    by apply s16_id.
  apply list_eq. intros i. rewrite list_lookup_fmap. destruct (decide (i < 13)%nat) as [Hi|Hi].
  - rewrite lookup_seq_lt, fmap_Some_2 with (x := i) by (done || lia).
    rewrite rd32_put by (rewrite ?Hlen; lia). rewrite list_lookup_total_alt.
    destruct (lookup_lt_is_Some_2 ad i) as [a Ha]; [lia|]. rewrite Ha. simpl. f_equal. apply u32_id.
    by eapply (Forall_lookup_1 _ _ _ _ H7) in Ha.
  - rewrite lookup_seq_ge, lookup_ge_None_2 by lia. done.
Qed.

Lemma rd_wr_dinode_ne l o d o' :
  0 <= o -> o + 64 <= Z.of_nat (length l) -> 0 <= o' -> o' + 64 <= o \/ o + 64 <= o' ->
  rd_dinode (wr_dinode l o d) o' = rd_dinode l o'.
Proof.
  intros Ho Hl Ho' Hd. unfold rd_dinode, wr_dinode.
  assert (Hlen : forall a b c e f, length (wr32 (wr16 (wr16 (wr16 (wr16 l o a) (o + 2) b) (o + 4) c) (o + 6) e) (o + 8) f) = length l)
    by (intros; by rewrite length_wr32, !length_wr16).
  rewrite !rd16_put_ne, rd32_put_ne by (rewrite ?Hlen; lia).
  rewrite rd32_wr32_ne, !rd16_wr32_ne by (rewrite ?length_wr16; lia).
  repeat (rewrite rd16_wr16_ne by (rewrite ?length_wr16; lia)).
  repeat (rewrite rd32_wr16_ne by (rewrite ?length_wr16; lia)). f_equal.
  apply list_fmap_ext. intros j i [-> Hi]%lookup_seq. rewrite rd32_put_ne by (rewrite ?Hlen; lia).
  rewrite rd32_wr32_ne by (rewrite ?length_wr16; lia). by repeat (rewrite rd32_wr16_ne by (rewrite ?length_wr16; lia)).
Qed.

Section io.
Context (me : nat) (p : Z) (t : nat) (start lsize data : Z) (ip : nat).
Notation turns := (S (S t)).
Notation does := (does me p).
Notation txn := (txn p start lsize).
Notation good := (good p start lsize data ip).
Notation grew := (grew data ip).

(** * readi *)

(** The blocks of the file for the bytes [off .. off + n - 1]. *)
Definition mapped (r : fsys) (off n : Z) : Prop :=
  forall k, off <= k < off + n -> baddr r (inode_of r ip) (k / BSIZE) <> 0.

Lemma bmap_mapped bs k r bn :
  let x := inode_of r ip in
  good bs k r -> fits lsize 0 bs 0 -> 0 <= bn < MAXFILE -> baddr r x bn <> 0 ->
  exists r' T, does (bmap turns me ip bn) [] r T (baddr r x bn) [] r' /\ txn [] bs r' /\ stays [] (blk r) r r' T.
Proof.
  intros x [O1 O2 O3 O4 O5 O6] Fi Hbn Hz. fold x in O4. pose proof (f_dev _ _ _ O4) as Hdev. unfold bmap.
  destruct (Z.lt_ge_cases bn NDIRECT) as [Hlt|Hge].
  { exists r, []. split_and!; [|done|apply stays_refl]. eapply does_step; [apply does_iget|]. cbv beta zeta.
    fold x. rewrite (proj2 (Z.ltb_lt _ _)) by lia. revert Hz. unfold baddr. rewrite (proj2 (Z.ltb_lt _ _)) by lia.
    intros Hz. rewrite (proj2 (Z.eqb_neq _ _) Hz). apply does_ret. }
  assert (Hi : ind x <> 0).
  { intros E. apply Hz. unfold baddr. rewrite (proj2 (Z.ltb_ge _ _)) by lia. by rewrite E. }
  pose proof (f_ind _ _ _ O4 Hi) as [Hir _]. pose proof (l_size _ _ _ _ O2).
  destruct (read_block_ok me p t start lsize [] bs r (ind x) O3) as (i & r1 & r2 & T & D1 & B1 & D2 & X2 & S2);
    [done|lia|by intros j Hj%elem_of_nil|].
  exists r2, T. split_and!; try done. eapply does_step; [apply does_iget|]. cbv beta zeta. fold x.
  rewrite (proj2 (Z.ltb_ge _ _)) by lia. rewrite (proj2 (Z.ltb_lt _ _)) by (unfold MAXFILE in *; lia).
  change (i_addrs x !!! Z.to_nat NDIRECT) with (ind x). rewrite (proj2 (Z.eqb_neq _ _) Hi), Hdev.
  eapply does_step; [apply does_ret|].
  eapply does_eq; [eapply does_bind; [exact D1|]|apply app_nil_r|reflexivity].
  eapply does_step; [apply does_bget|]. cbv beta zeta. rewrite B1, <- baddr_ind by (done || lia).
  rewrite (proj2 (Z.eqb_neq _ _) Hz). eapply does_step; [apply does_ret|]. eapply does_step; [exact D2|]. apply does_ret.
Qed.

Lemma stays_then r r1 r2 T1 T2 :
  stays [] (blk r) r r1 T1 -> stays [] (blk r1) r1 r2 T2 -> stays [] (blk r) r r2 (T1 ++ T2).
Proof. intros S1 S2. eapply stays_trans; [exact S1|]. eapply stays_ext; [exact S2|apply S1]. Qed.

(** One block of the file. *)
Lemma read_step bs k r off :
  let x := inode_of r ip in let a := baddr r x (off / BSIZE) in
  good bs k r -> fits lsize 0 bs 0 -> 0 <= off < MAXFILE * BSIZE -> a <> 0 ->
  exists r1 i r2 r3 T1 T2, does (bmap turns me ip (off / BSIZE)) [] r T1 a [] r1
    /\ does (bread turns me ROOTDEV a) [] r1 T2 i [] r2 /\ b_data (buf_of r2 i) = blk r a
    /\ does (brelse me i) [] r2 [] tt [] r3 /\ txn [] bs r3 /\ stays [] (blk r) r r3 (T1 ++ T2).
Proof.
  intros x a Gd Fi Hoff Ha. assert (Hr : 0 <= off / BSIZE < MAXFILE) by (unfold BSIZE in *; lia).
  destruct (bmap_mapped bs k r (off / BSIZE) Gd Fi Hr Ha) as (r1 & T1 & D1 & X1 & S1).
  destruct (f_used _ _ _ (o_file _ _ _ _ _ _ _ _ Gd) _ Hr Ha) as [Har _].
  pose proof (l_size _ _ _ _ (o_layout _ _ _ _ _ _ _ _ Gd)).
  destruct (read_block_ok me p t start lsize [] bs r1 a X1) as (i & r2 & r3 & T2 & D2 & B2 & D3 & X3 & S3);
    [done|unfold a, x; lia|by intros j Hj%elem_of_nil|].
  exists r1, i, r2, r3, T1, T2. split_and!; try done.
  - rewrite B2. apply S1.
  - by eapply stays_then.
Qed.

(** The bytes of the file in its block at [off], and the others. *)
Lemma read_bytes r x off n m :
  let a := baddr r x (off / BSIZE) in
  length (blk r a) = 512%nat -> a <> 0 -> 0 <= off -> 0 <= m <= n -> m <= BSIZE - off mod BSIZE ->
  fbyte r x <$> seqZ off n = slice (blk r a) (off mod BSIZE) m ++ (fbyte r x <$> seqZ (off + m) (n - m)).
Proof.
  intros a Hl Ha Hoff Hm Hmb. unfold BSIZE in *. replace n with (m + (n - m)) at 1 by lia.
  rewrite seqZ_app, fmap_app by lia. f_equal. symmetry. apply slice_bytes; try lia.
  intros i Hi. unfold fbyte, BSIZE. replace ((off + i) / 512) with (off / 512) by lia. fold a.
  rewrite (proj2 (Z.eqb_neq _ _) Ha). f_equal. lia.
Qed.

Lemma readi_loop_ok fuel bs k r off n :
  let x := inode_of r ip in
  good bs k r -> fits lsize 0 bs 0 -> 0 <= off -> 0 <= n <= Z.of_nat fuel -> off + n <= MAXFILE * BSIZE ->
  mapped r off n ->
  exists r' T, does (readi_loop turns me ip off n fuel) [] r T (fbyte r x <$> seqZ off n) [] r'
    /\ txn [] bs r' /\ stays [] (blk r) r r' T.
Proof.
  revert r off n. induction fuel as [|fuel IH]; intros r off n x Gd Fi Hoff Hn Hmax Hm.
  all: destruct (Z.leb_spec n 0) as [Hz|Hz]; [|try lia].
  1,2: exists r, []; rewrite seqZ_nil by lia; split_and!; [|apply Gd|apply stays_refl];
    cbn [readi_loop]; rewrite (proj2 (Z.leb_le _ _)) by lia; apply does_ret.
  assert (Ha : baddr r x (off / BSIZE) <> 0) by (apply Hm; lia).
  destruct (read_step bs k r off Gd Fi) as (r1 & i & r2 & r3 & T1 & T2 & D1 & D2 & B2 & D3 & X3 & S3); [lia|done|].
  destruct (good_same p start lsize data ip bs bs k r r3 _ Gd X3 S3) as (G3 & W3 & Hx3). fold x in Hx3.
  set (m := Z.min n (BSIZE - off mod BSIZE)). assert (Hm' : 0 < m <= n) by (unfold m, BSIZE; lia).
  unfold MAXFILE, NDIRECT, NINDIRECT, BSIZE in Hmax. change (12 + 512 / 4) with 140 in Hmax.
  pose proof (s_blk _ _ _ _ _ S3) as V3.
  destruct (IH r3 (off + m) (n - m) G3 Fi) as (r4 & T4 & D4 & X4 & S4); [lia|lia|unfold MAXFILE, NDIRECT, NINDIRECT, BSIZE; lia|..].
  { intros j Hj. rewrite Hx3, (same_baddr r r3 V3). apply Hm. lia. }
  exists r4, ((T1 ++ T2) ++ T4). split_and!; [|done|by eapply stays_then].
  cbn [readi_loop]. rewrite (proj2 (Z.leb_gt _ _)) by lia.
  eapply does_step; [apply does_iget|]. cbv beta.
  rewrite (f_dev _ _ _ (o_file _ _ _ _ _ _ _ _ Gd)). rewrite <- app_assoc. eapply does_bind; [exact D1|].
  eapply does_bind; [exact D2|]. eapply does_step; [apply does_bget|]. cbv beta zeta. rewrite B2.
  eapply does_step; [exact D3|]. fold m. rewrite u32_id by lia.
  rewrite (read_bytes r x off n m); [|apply Gd|done|done|lia|unfold m; lia].
  rewrite Hx3 in D4. rewrite <- (list_fmap_ext _ _ _ (fun _ k _ => same_fbyte r r3 V3 x k)).
  eapply does_eq; [eapply does_bind; [exact D4|apply does_ret]|apply app_nil_r|reflexivity].
Qed.

(** * writei *)

(** The block of the inode. *)
Definition iblock (r : fsys) : Z := IBLOCK (i_inum (inode_of r ip)) (fs_sb r).

(** The file of [ip] has the bytes of [src] at [off], and is otherwise as
    it was, like the blocks that do not belong to it. *)
Record wrote (off : Z) (src : list Z) (r r' : fsys) (T : list disk_t) : Prop := {
  v_disk : fs_disk r' = fs_disk r;
  v_sb : fs_sb r' = fs_sb r;
  v_cons : fs_cons r' = fs_cons r;
  v_len : length (fs_icache r') = length (fs_icache r);
  v_other : forall j, j <> ip -> inode_of r' j = inode_of r j;
  v_inode : exists l z, inode_of r' ip = set_i_size z (set_i_addrs l (inode_of r ip));
  v_addr : forall bn, 0 <= bn < MAXFILE -> baddr r (inode_of r ip) bn <> 0 -> baddr r' (inode_of r' ip) bn <> 0;
  v_map : mapped r' off (Z.of_nat (length src));
  v_byte : forall k, 0 <= k < MAXFILE * BSIZE -> fbyte r' (inode_of r' ip) k
    = if decide (off <= k < off + Z.of_nat (length src)) then rd8 src (k - off) else fbyte r (inode_of r ip) k;
  v_blk : forall c, foreign data r (inode_of r ip) c -> foreign data r' (inode_of r' ip) c /\ blk r' c = blk r c;
  v_meta : forall c, 0 <= c < data -> c <> BM r -> c <> iblock r -> blk r' c = blk r c;
  v_trace : Forall (eq (fs_disk r)) T }.

Lemma grew_wrote off r r' T : grew r r' T -> wrote off [] r r' T.
Proof.
  intros W. split; try apply W.
  - destruct (w_inode _ _ _ _ _ W) as [l E]. exists l, (i_size (inode_of r ip)). rewrite E. by destruct (inode_of r ip).
  - intros bn Hbn Hne. by rewrite (w_addr _ _ _ _ _ W).
  - intros k Hk. simpl in Hk. lia.
  - intros k Hk. rewrite decide_False by (simpl; lia). by apply (w_byte _ _ _ _ _ W).
  - intros c Hc Hne _. by apply (w_meta _ _ _ _ _ W).
Qed.

Lemma wrote_nil off off' r r' T : wrote off [] r r' T -> wrote off' [] r r' T.
Proof.
  intros W. split; try apply W.
  - intros k Hk. simpl in Hk. lia.
  - intros k Hk. rewrite (v_byte _ _ _ _ _ W) by done. by rewrite !decide_False by (simpl; lia).
Qed.

Lemma wrote_trans off s1 s2 r r1 r2 T1 T2 :
  0 <= off -> off + Z.of_nat (length (s1 ++ s2)) <= MAXFILE * BSIZE ->
  wrote off s1 r r1 T1 -> wrote (off + Z.of_nat (length s1)) s2 r1 r2 T2 -> wrote off (s1 ++ s2) r r2 (T1 ++ T2).
Proof.
  intros Hoff Hmax A B. rewrite length_app in Hmax. split.
  - by rewrite (v_disk _ _ _ _ _ B), (v_disk _ _ _ _ _ A).
  - by rewrite (v_sb _ _ _ _ _ B), (v_sb _ _ _ _ _ A).
  - by rewrite (v_cons _ _ _ _ _ B), (v_cons _ _ _ _ _ A).
  - by rewrite (v_len _ _ _ _ _ B), (v_len _ _ _ _ _ A).
  - intros j Hj. by rewrite (v_other _ _ _ _ _ B), (v_other _ _ _ _ _ A).
  - destruct (v_inode _ _ _ _ _ A) as (l1 & z1 & E1), (v_inode _ _ _ _ _ B) as (l2 & z2 & E2). exists l2, z2.
    by rewrite E2, E1.
  - intros bn Hbn Hne. by apply (v_addr _ _ _ _ _ B), (v_addr _ _ _ _ _ A).
  - intros k Hk. rewrite length_app in Hk. destruct (Z.lt_ge_cases k (off + Z.of_nat (length s1))).
    + apply (v_addr _ _ _ _ _ B); [unfold BSIZE in *; lia|]. apply (v_map _ _ _ _ _ A). lia.
    + apply (v_map _ _ _ _ _ B). lia.
  - intros k Hk. rewrite (v_byte _ _ _ _ _ B), (v_byte _ _ _ _ _ A) by done. rewrite length_app. unfold rd8.
    rewrite !list_lookup_total_alt. repeat case_decide; try lia; try done.
    + rewrite lookup_app_r by lia. f_equal. f_equal. lia.
    + by rewrite lookup_app_l by lia.
  - intros c Hc. destruct (v_blk _ _ _ _ _ A c Hc) as [Hc2 E2], (v_blk _ _ _ _ _ B c Hc2) as [Hc3 E3].
    by rewrite E3, E2.
  - intros c Hc Hne Hib. destruct (v_inode _ _ _ _ _ A) as (l1 & z1 & E1). pose proof (v_sb _ _ _ _ _ A) as Hsb.
    rewrite (v_meta _ _ _ _ _ B), (v_meta _ _ _ _ _ A); try done; [by rewrite Hsb|]. unfold iblock. by rewrite E1, Hsb.
  - apply Forall_app_2; [apply A|]. pose proof (v_trace _ _ _ _ _ B) as H. by rewrite (v_disk _ _ _ _ _ A) in H.
Qed.

Lemma wrote_then off src r r1 r2 T1 T2 :
  0 <= off -> off + Z.of_nat (length src) <= MAXFILE * BSIZE ->
  wrote off src r r1 T1 -> wrote 0 [] r1 r2 T2 -> wrote off src r r2 (T1 ++ T2).
Proof.
  intros Hoff Hmax A B. rewrite <- (app_nil_r src). apply (wrote_trans off src [] r r1); rewrite ?app_nil_r; try done.
  by eapply wrote_nil.
Qed.

(** The bytes of one block. *)
Lemma blit_wrote bs bs' k r r' T off src :
  let x := inode_of r ip in let a := baddr r x (off / BSIZE) in
  good bs k r -> 0 <= off < MAXFILE * BSIZE -> off mod BSIZE + Z.of_nat (length src) <= BSIZE -> a <> 0 ->
  txn [] bs' r' -> stays [] (set_at (blk r) a (blit (blk r a) (off mod BSIZE) src)) r r' T ->
  good bs' k r' /\ wrote off src r r' T.
Proof.
  intros x a [O1 O2 O3 O4 O5 O6] Hoff Hfit Ha X' S. fold x in O4. set (v := blit _ _ _) in S.
  destruct (meta_sb _ _ (s_meta _ _ _ _ _ S)) as (Hsb & Hic & Hcn). pose proof (s_blk _ _ _ _ _ S) as V.
  assert (Hj : forall j, inode_of r' j = inode_of r j) by (intros j; unfold inode_of; by rewrite Hic).
  assert (Hr : 0 <= off / BSIZE < MAXFILE) by (unfold BSIZE in *; lia).
  pose proof (f_used _ _ _ O4 _ Hr Ha) as [Har Habit]. fold a in Har, Habit. pose proof (l_bmap _ _ _ _ O2) as Hbm.
  assert (Hai : a <> ind x) by (by apply (f_ne _ _ _ O4)). assert (Hne : BM r <> a) by lia.
  pose proof (l_len _ _ _ _ O2 a) as Hl. unfold BSIZE in Hfit.
  assert (Hlv : length v = 512%nat) by (unfold v; rewrite length_blit; unfold BSIZE; lia).
  pose proof (set_other r r' a v V) as Hother. pose proof (set_this r r' a v V) as Hthis.
  assert (Hba : forall bn, baddr r' x bn = baddr r x bn) by (intros bn; unfold baddr; by rewrite Hother).
  assert (Fo : file_ok data r' x).
  { apply (give_none data r r' x x O4); try done; [apply O4|by apply Hother|apply O4|apply (f_ne _ _ _ O4)]. }
  split.
  { split; rewrite ?Hj; try done; [by apply (set_layout r r' a v)|by apply (set_free r r' a v)|by rewrite Hic]. }
  split; rewrite ?Hj; fold x; try done; try apply S.
  - by rewrite Hic.
  - exists (i_addrs x), (i_size x). by destruct x.
  - intros bn Hbn. by rewrite Hba.
  - intros j Hjr. rewrite Hj, Hba. unfold BSIZE. replace (j / 512) with (off / 512) by lia. done.
  - intros j Hjr. unfold fbyte. rewrite Hba. assert (Hjb : 0 <= j / BSIZE < MAXFILE) by (unfold BSIZE in *; lia).
    destruct (Z.eqb_spec (j / BSIZE) (off / BSIZE)) as [E|E].
    + rewrite E. fold a. rewrite (proj2 (Z.eqb_neq _ _) Ha), Hthis. unfold v.
      rewrite rd8_blit by (unfold BSIZE; lia). unfold BSIZE in *. repeat case_decide; try lia; try done. f_equal. lia.
    + rewrite decide_False by (unfold BSIZE in *; lia). destruct (Z.eqb_spec (baddr r x (j / BSIZE)) 0); [done|].
      rewrite Hother; [done|]. intros E'. apply E. by apply (f_inj _ _ _ O4).
  - intros c (Hc & Hci & Hcb). split; [|by apply Hother; intros ->; apply (Hcb _ Hr)].
    split_and!; [by apply (set_used r r' a v)|done|]. intros bn. rewrite Hba. apply Hcb.
  - intros c Hc _ _. apply Hother. lia.
Qed.

(** ** The loop *)

(** How many of the blocks that hold a byte of the file does
    [off .. off + n - 1] meet, at most. *)
Definition blocks (off n : Z) : nat := if n <=? 0 then 0%nat else S (Z.to_nat ((off + n - 1) / BSIZE - off / BSIZE)).

Lemma blocks_step off n m :
  0 <= off -> 0 < n -> m = Z.min n (BSIZE - off mod BSIZE) -> blocks off n = S (blocks (off + m) (n - m)).
Proof.
  intros Hoff Hn ->. unfold blocks, BSIZE. rewrite (proj2 (Z.leb_gt _ _)) by lia. f_equal.
  destruct (Z.leb_spec (n - n `min` (512 - off mod 512)) 0); lia.
Qed.

Lemma write_step bs k h r off src :
  good bs (S (S k)) r -> fits lsize 1 bs (6 + h) -> 0 <= off < MAXFILE * BSIZE ->
  off mod BSIZE + Z.of_nat (length src) <= BSIZE ->
  exists a r1 r2 T1 T2 bs', does (bmap turns me ip (off / BSIZE)) [] r T1 a [] r1
    /\ does (modify_block turns me ROOTDEV a (fun d => blit d (off mod BSIZE) src)) [] r1 T2 tt [] r2
    /\ good bs' k r2 /\ fits lsize 1 bs' h /\ wrote off src r r2 (T1 ++ T2)
    /\ (baddr r (inode_of r ip) (off / BSIZE) <> 0 -> inode_of r2 ip = inode_of r ip)
    /\ (forall c, 0 <= c < data -> c <> BM r -> blk r2 c = blk r c)
    /\ i_size (inode_of r2 ip) = i_size (inode_of r ip).
Proof.
  intros Gd Fi Hoff Hfit. assert (Hr : 0 <= off / BSIZE < MAXFILE) by (unfold BSIZE in *; lia).
  destruct (bmap_ok me p t start lsize data ip bs k (1 + h) r (off / BSIZE) Gd Fi Hr) as
    (a & r1 & T1 & bs1 & D1 & G1 & F1 & W1 & Ha & Hne & Hsame).
  pose proof G1 as [O1 O2 O3 O4 O5 O6]. pose proof (l_log _ _ _ _ O2). pose proof (l_size _ _ _ _ O2).
  destruct (f_used _ _ _ O4 (off / BSIZE) Hr) as [Har _]; [by rewrite Ha|]. rewrite Ha in Har.
  pose proof (l_bmap _ _ _ _ O2).
  destruct (modify_block_ok me p t start lsize [] bs1 r1 a (fun d => blit d (off mod BSIZE) src) O3) as
    (r2 & T2 & D2 & X2 & S2); [|lia|unfold region; lia|by intros j Hj%elem_of_nil|].
  { apply (fits_held lsize 0). by eapply fits_le; [|exact F1]; lia. }
  rewrite <- Ha in S2. destruct (blit_wrote bs1 (add a bs1) k r1 r2 T2 off src G1 Hoff Hfit) as [G2 W2]; [by rewrite Ha|done|done|].
  exists a, r1, r2, T1, T2, (add a bs1). split_and!; try done; [by apply fits_add|..].
  - apply (wrote_trans off [] src r r1); [lia|simpl; unfold MAXFILE, BSIZE in *; lia|by apply grew_wrote|].
    simpl. by rewrite Z.add_0_r.
  - intros Hm. rewrite <- Hsame by done. destruct (same_all _ _ _ _ _ S2) as (_ & _ & Hic). unfold inode_of. by rewrite Hic.
  - intros c Hc Hcn. rewrite (s_blk _ _ _ _ _ S2). unfold set_at. rewrite decide_False by lia.
    by apply (w_meta _ _ _ _ _ W1).
  - destruct (same_all _ _ _ _ _ S2) as (_ & _ & Hic), (w_inode _ _ _ _ _ W1) as [l E].
    unfold inode_of at 1. rewrite Hic. fold (inode_of r1 ip). by rewrite E.
Qed.

Lemma writei_loop_ok fuel bs k h r off src :
  let n := Z.of_nat (length src) in
  good bs (2 * blocks off n + k) r -> fits lsize 1 bs (6 * blocks off n + h) -> 0 <= off -> (length src <= fuel)%nat ->
  off + n <= MAXFILE * BSIZE ->
  exists r' T bs', does (writei_loop turns me ip src off fuel) [] r T (off + n) [] r'
    /\ good bs' k r' /\ fits lsize 1 bs' h /\ wrote off src r r' T
    /\ (mapped r off n -> inode_of r' ip = inode_of r ip)
    /\ (forall c, 0 <= c < data -> c <> BM r -> blk r' c = blk r c)
    /\ i_size (inode_of r' ip) = i_size (inode_of r ip).
Proof.
  revert bs r off src. induction fuel as [|fuel IH]; intros bs r off src n Gd Fi Hoff Hf Hmax.
  all: destruct src as [|c src']; [|simpl in Hf; try lia].
  1,2: exists r, [], bs; split_and!; try done; [|apply grew_wrote, grew_refl]; simpl;
    rewrite Z.add_0_r; apply does_ret.
  set (src := c :: src') in *. assert (Hn : 0 < n) by (unfold n, src; simpl; lia).
  set (m := Z.min n (BSIZE - off mod BSIZE)). assert (Hm : 0 < m <= n) by (unfold m, BSIZE; lia).
  rewrite (blocks_step off n m Hoff Hn eq_refl) in Gd, Fi. set (bl := blocks (off + m) (n - m)) in *.
  assert (Hl1 : Z.of_nat (length (take (Z.to_nat m) src)) = m) by (rewrite length_take; fold n; lia).
  assert (Hl2 : Z.of_nat (length (drop (Z.to_nat m) src)) = n - m) by (rewrite length_drop; fold n; lia).
  destruct (write_step bs (2 * bl + k) (6 * bl + h) r off (take (Z.to_nat m) src)) as
    (a & r1 & r2 & T1 & T2 & bs' & D1 & D2 & G2 & F2 & W2 & Hsame & Hmeta & Hz2).
  { by eapply good_le; [|exact Gd]; lia. } { by eapply fits_le; [|exact Fi]; lia. } { lia. } { rewrite Hl1. unfold m. lia. }
  assert (Hlen : (length (drop (Z.to_nat m) src) <= fuel)%nat) by (rewrite length_drop; unfold src in *; simpl; lia).
  destruct (IH bs' r2 (off + m) (drop (Z.to_nat m) src)) as (r3 & T3 & bs3 & D3 & G3 & F3 & W3 & Hs3 & Hm3 & Hz3);
    rewrite ?Hl2; try done; [lia|lia|]. rewrite Hl2 in *.
  exists r3, (T1 ++ T2 ++ T3), bs3. split_and!; try done.
  - change (writei_loop turns me ip src off (S fuel)) with
      (dev ← iget_ ip i_dev;
       a ← bmap turns me ip (off / BSIZE);
       let m := Z.min (Z.of_nat (length src)) (BSIZE - off mod BSIZE) in
       modify_block turns me dev a (fun d => blit d (off mod BSIZE) (take (Z.to_nat m) src));;
       writei_loop turns me ip (drop (Z.to_nat m) src) (u32 (off + m)) fuel). cbv zeta. fold n m.
    eapply does_step; [apply does_iget|]. cbv beta. rewrite (f_dev _ _ _ (o_file _ _ _ _ _ _ _ _ Gd)).
    eapply does_bind; [exact D1|]. eapply does_bind; [exact D2|].
    rewrite u32_id by (unfold MAXFILE, NDIRECT, NINDIRECT, BSIZE in *; lia).
    replace (off + n) with (off + m + (n - m)) by lia. exact D3.
  - rewrite app_assoc. rewrite <- (take_drop (Z.to_nat m) src).
    apply (wrote_trans off _ _ r r2); rewrite ?Hl1; try done. by rewrite take_drop.
  - intros Hmap. assert (E2 : inode_of r2 ip = inode_of r ip) by (apply Hsame, Hmap; lia).
    rewrite Hs3; [done|]. intros j Hj. apply (v_addr _ _ _ _ _ W2); [unfold BSIZE in *; lia|]. apply Hmap. lia.
  - intros b Hb Hbn. rewrite Hm3, Hmeta; try done. by rewrite (v_sb _ _ _ _ _ W2).
  - by rewrite Hz3.
Qed.

(** ** The inode *)

Record home (r : fsys) : Prop := {
  h_inum : 0 <= i_inum (inode_of r ip);
  h_block : 1 < iblock r < data;
  h_bmap : iblock r <> BM r;
  h_log : ~ region start lsize (iblock r) }.

(** The copy of the inode on the disk, or in the transaction, agrees with
    the one in the cache. *)
Definition synced (r : fsys) : Prop :=
  rd_dinode (blk r (iblock r)) (dinode_off (i_inum (inode_of r ip))) = to_dinode (inode_of r ip).

Lemma dinode_off_range i : 0 <= i -> 0 <= dinode_off i /\ dinode_off i + 64 <= 512.
Proof. intros Hi. unfold dinode_off, IPB, DINODE_SIZE, BSIZE. change (512 / 64) with 8. lia. Qed.

(** A change to a block that is not data leaves the file alone. *)
Lemma set_meta bs bs' k r r' T c v :
  good bs k r -> 0 <= c < data -> c = iblock r -> c <> BM r -> length v = 512%nat -> txn [] bs' r' ->
  stays [] (set_at (blk r) c v) r r' T -> good bs' k r' /\ wrote 0 [] r r' T /\ inode_of r' ip = inode_of r ip.
Proof.
  intros [O1 O2 O3 O4 O5 O6] Hc Hib Hbm Hl X' S. set (x := inode_of r ip) in *.
  destruct (meta_sb _ _ (s_meta _ _ _ _ _ S)) as (Hsb & Hic & Hcn). pose proof (s_blk _ _ _ _ _ S) as V.
  assert (Hj : forall j, inode_of r' j = inode_of r j) by (intros j; unfold inode_of; by rewrite Hic).
  pose proof (set_other r r' c v V) as Hother.
  assert (Hba : forall bn, baddr r' x bn = baddr r x bn).
  { intros bn. unfold baddr. destruct (Z.ltb_spec bn NDIRECT); [done|]. destruct (Z.eqb_spec (ind x) 0) as [|Hi]; [done|].
    rewrite Hother; [done|]. destruct (f_ind _ _ _ O4 Hi). lia. }
  assert (Fo : file_ok data r' x).
  { apply (give_none data r r' x x O4); try done; [apply O4|by apply Hother; congruence|apply O4|apply (f_ne _ _ _ O4)]. }
  split_and!; [|split|]; rewrite ?Hj; fold x; try done; try apply S.
  - split; rewrite ?Hj; try done; [by eapply (set_layout r r' c v); eauto|by eapply (set_free r r' c v); eauto|by rewrite Hic].
  - by rewrite Hic.
  - exists (i_addrs x), (i_size x). by destruct x.
  - intros bn Hbn. by rewrite Hba.
  - intros j Hjr. simpl in Hjr. lia.
  - intros j Hjr. rewrite decide_False by (simpl; lia). unfold fbyte. rewrite Hba.
    destruct (Z.eqb_spec (baddr r x (j / BSIZE)) 0) as [|Hne]; [done|]. rewrite Hother; [done|].
    destruct (f_used _ _ _ O4 (j / BSIZE)); [unfold BSIZE in *; lia|done|lia].
  - intros b (Hb & Hbi & Hbb). split; [|apply Hother; destruct Hb; lia].
    split_and!; [by eapply (set_used r r' c v); eauto|done|]. intros bn. rewrite Hba. apply Hbb.
  - intros b Hb Hbb Hbi. apply Hother. congruence.
Qed.

(** The addresses of a file fit in the inode. *)
Lemma addrs_ok r x :
  0 < data -> layout start lsize data r -> file_ok data r x ->
  length (i_addrs x) = 13%nat /\ Forall (fun a => 0 <= a < 2 ^ 32) (i_addrs x).
Proof.
  intros Hd Y Fo. pose proof (f_len _ _ _ Fo) as Hl. split; [done|]. apply Forall_lookup_2. intros i a Hi.
  pose proof (lookup_lt_Some _ _ _ Hi) as Hlt. pose proof (l_size _ _ _ _ Y) as Hs. unfold FSSIZE in Hs.
  destruct (decide (a = 0)) as [->|Hne]; [lia|]. apply list_lookup_total_correct in Hi.
  assert (used data r a) as [? _]; [|lia]. destruct (decide (i = 12%nat)) as [->|].
  - rewrite <- Hi. apply (f_ind _ _ _ Fo). unfold ind. by rewrite Hi.
  - assert (E : baddr r x (Z.of_nat i) = a).
    { unfold baddr. rewrite (proj2 (Z.ltb_lt _ _)) by (unfold NDIRECT; lia). by rewrite Nat2Z.id. }
    rewrite <- E. apply (f_used _ _ _ Fo); [unfold MAXFILE, NDIRECT, NINDIRECT, BSIZE; lia|by rewrite E].
Qed.

Lemma iupdate_ok bs k h r :
  let x := inode_of r ip in
  good bs k r -> fits lsize 1 bs (1 + h) -> home r -> dinode_ok (to_dinode x) ->
  exists r' T bs', does (iupdate turns me ip) [] r T tt [] r' /\ good bs' k r' /\ fits lsize 1 bs' h
    /\ wrote 0 [] r r' T /\ inode_of r' ip = x /\ synced r'.
Proof.
  intros x Gd Fi [Hi Hb Hbm Hlog] Hd. pose proof Gd as [O1 O2 O3 O4 O5 O6]. pose proof (l_data _ _ _ _ O2).
  destruct (dinode_off_range (i_inum x) Hi) as [Ho1 Ho2]. pose proof (l_len _ _ _ _ O2 (iblock r)) as Hl.
  set (f := fun d => wr_dinode d (dinode_off (i_inum x)) (to_dinode x)).
  destruct (modify_block_ok me p t start lsize [] bs r (iblock r) f O3) as (r' & T & D & X' & S');
    [|lia|done|by intros j Hj%elem_of_nil|].
  { apply (fits_held lsize 0). by eapply fits_le; [|exact Fi]; lia. }
  destruct (set_meta bs (add (iblock r) bs) k r r' T (iblock r) (f (blk r (iblock r)))) as (G' & W' & Hx'); try (done || lia).
  { unfold f. by rewrite length_wr_dinode. }
  exists r', T, (add (iblock r) bs). split_and!; try done; [|by apply fits_add|].
  - unfold iupdate. eapply does_step; [apply does_iget|]. eapply does_step; [apply (does_fget _ _ fs_sb)|]. cbv beta.
    rewrite (f_dev _ _ _ O4). exact D.
  - destruct (same_all _ _ _ _ _ S') as (V & Hsb & _). unfold synced, iblock. rewrite Hx', Hsb. fold x.
    change (IBLOCK (i_inum x) (fs_sb r)) with (iblock r). rewrite (set_this _ _ _ _ V). unfold f. by rewrite rd_wr_dinode by (done || lia).
Qed.

Lemma set_size_ok bs k r z :
  let x := inode_of r ip in let r' := with_inode ip (set_i_size z x) r in
  good bs k r -> good bs k r' /\ wrote 0 [] r r' [] /\ inode_of r' ip = set_i_size z x.
Proof.
  intros x r' [O1 O2 O3 O4 O5 O6].
  assert (Hj : forall j, inode_of r' j = if decide (j = ip) then set_i_size z x else inode_of r j)
    by (intros j; by apply inode_with).
  assert (Hx : inode_of r' ip = set_i_size z x) by (rewrite Hj; by rewrite decide_True).
  split_and!; [| |done].
  - split; rewrite ?Hx; try done; [destruct O2; by split|by apply txn_inode|destruct O4; by split|].
    unfold r', with_inode. simpl. by rewrite length_insert.
  - split; rewrite ?Hx; try done.
    + unfold r', with_inode. simpl. by rewrite length_insert.
    + intros j Hne. rewrite Hj. by rewrite decide_False.
    + exists (i_addrs x), z. unfold x. by destruct (inode_of r ip).
    + intros j Hjr. simpl in Hjr. lia.
    + intros j Hjr. rewrite decide_False by (simpl; lia). done.
Qed.

(** ** The calls *)

(** A file that is not a device, whose blocks are all there. *)
Record regular (r : fsys) : Prop := {
  reg_type : i_type (inode_of r ip) <> T_DEV;
  reg_size : 0 <= i_size (inode_of r ip) <= MAXFILE * BSIZE;
  reg_map : mapped r 0 (i_size (inode_of r ip));
  reg_home : home r;
  reg_fields : dinode_ok (to_dinode (inode_of r ip)) }.

(** What a write changes in the inode. *)
Lemma wrote_regular off src bs k r r' T :
  regular r -> good bs k r' -> wrote off src r r' T -> 0 <= off <= i_size (inode_of r ip) ->
  0 <= i_size (inode_of r' ip) <= off + Z.of_nat (length src) \/ i_size (inode_of r' ip) = i_size (inode_of r ip) ->
  i_size (inode_of r' ip) <= MAXFILE * BSIZE -> regular r'.
Proof.
  intros [R1 R2 R3 [Q1 Q2 Q3 Q4] R5] Gd W Hoff Hsz Hmax. destruct (v_inode _ _ _ _ _ W) as (l & z & E).
  pose proof (addrs_ok r' _ (o_data _ _ _ _ _ _ _ _ Gd) (o_layout _ _ _ _ _ _ _ _ Gd) (o_file _ _ _ _ _ _ _ _ Gd)) as Ha.
  pose proof (v_sb _ _ _ _ _ W) as Hsb.
  assert (Hib : iblock r' = iblock r) by (unfold iblock; rewrite E, Hsb; done).
  split.
  - by rewrite E.
  - lia.
  - intros j Hj. destruct (Z.lt_ge_cases j (i_size (inode_of r ip))).
    + apply (v_addr _ _ _ _ _ W); [unfold BSIZE in *; lia|]. apply R3. lia.
    + apply (v_map _ _ _ _ _ W). lia.
  - split; rewrite ?Hib, ?Hsb; try done. by rewrite E.
  - destruct R5 as [S1 S2 S3 S4 S5 S6]. split; try done; try (rewrite E; done).
    cbn [d_size to_dinode]. unfold MAXFILE, NDIRECT, NINDIRECT, BSIZE in *. lia.
Qed.

Lemma readi_regular bs k r off n :
  let x := inode_of r ip in let c := Z.min n (i_size x - off) in
  good bs k r -> fits lsize 0 bs 0 -> regular r -> 0 <= off <= i_size x -> 0 <= n -> off + n < 2 ^ 32 ->
  exists r' T, does (readi turns me ip off n) [] r T (c, fbyte r x <$> seqZ off c) [] r'
    /\ txn [] bs r' /\ stays [] (blk r) r r' T.
Proof.
  intros x c Gd Fi [R1 R2 R3 R4 R5] Hoff Hn Hov. fold x in R1, R2, R3.
  assert (Hs : i_size x <= 71680) by (unfold MAXFILE, NDIRECT, NINDIRECT, BSIZE in R2; lia).
  destruct (readi_loop_ok (Z.to_nat c) bs k r off c Gd Fi) as (r' & T & D & X & S); try (unfold c; lia).
  { intros j Hj. apply R3. unfold c in Hj. lia. }
  exists r', T. split_and!; try done. unfold readi. eapply does_step; [apply does_iget|]. cbv beta zeta. fold x.
  rewrite (proj2 (Z.eqb_neq _ _) R1). rewrite (u32_id (off + n)) by lia.
  rewrite (proj2 (Z.ltb_ge _ _)), (proj2 (Z.ltb_ge (off + n) off)) by lia. simpl.
  assert (E : (if i_size x <? off + n then u32 (i_size x - off) else n) = c).
  { unfold c. destruct (Z.ltb_spec (i_size x) (off + n)); [rewrite u32_id; lia|lia]. }
  rewrite E. eapply does_eq; [eapply does_bind; [exact D|]|apply app_nil_r|reflexivity].
  rewrite s32_id by (unfold c; lia). apply does_ret.
Qed.

Lemma writei_regular bs k h r off src :
  let n := Z.of_nat (length src) in let x := inode_of r ip in
  good bs (2 * blocks off n + k) r -> fits lsize 1 bs (6 * blocks off n + (1 + h)) -> regular r ->
  0 <= off <= i_size x -> off + n <= MAXFILE * BSIZE ->
  exists r' T bs', does (writei turns me ip src off) [] r T n [] r'
    /\ good bs' k r' /\ fits lsize 1 bs' h /\ wrote off src r r' T /\ regular r'
    /\ i_size (inode_of r' ip) = Z.max (i_size x) (off + n) /\ (synced r -> synced r').
Proof.
  intros n x Gd Fi R Hoff Hmax.
  destruct (writei_loop_ok (length src) bs k (1 + h) r off src Gd Fi) as
    (r1 & T1 & bs1 & D1 & G1 & F1 & W1 & Hs1 & Hm1 & Hz1); [lia|lia|done|]. fold n x in D1, Hs1, Hz1.
  pose proof R as [R1 R2 R3 [Q1 Q2 Q3 Q4] R5]. fold x in R1, R2, R3.
  assert (Hn : 0 <= n) by (unfold n; lia).
  assert (Hu : u32 (off + n) = off + n) by (apply u32_id; unfold MAXFILE, NDIRECT, NINDIRECT, BSIZE in Hmax; lia).
  assert (Hrun : forall T r', does (if (0 <? n) && (i_size x <? off + n) then iset ip (set_i_size (off + n));; iupdate turns me ip
      else mret tt) [] r1 T tt [] r' -> does (writei turns me ip src off) [] r (T1 ++ T) n [] r').
  { intros T r' D. unfold writei. eapply does_step; [apply does_iget|]. cbv beta zeta. fold n x.
    rewrite (proj2 (Z.eqb_neq _ _) R1), Hu, !(proj2 (Z.ltb_ge _ _)) by lia. simpl.
    eapply does_bind; [exact D1|]. eapply does_step; [apply does_iget|]. cbv beta. rewrite Hz1.
    eapply does_eq; [eapply does_bind; [exact D|apply does_ret]|apply app_nil_r|reflexivity]. }
  destruct (Z.lt_ge_cases (i_size x) (off + n)) as [Hg|Hg].
  - destruct (set_size_ok bs1 k r1 (off + n) G1) as (G2 & W2 & E2). set (r2 := with_inode _ _ _) in *.
    assert (W12 : wrote off src r r2 (T1 ++ [])) by (apply (wrote_then off src r r1); try done; lia).
    assert (Rg2 : regular r2).
    { eapply (wrote_regular off src bs1 k r r2); try done; rewrite E2; simpl; [left; fold n; lia|lia]. }
    destruct (iupdate_ok bs1 k h r2 G2 F1) as (r3 & T3 & bs3 & D3 & G3 & F3 & W3 & E3 & Sy); [apply Rg2..|].
    assert (W13 : wrote off src r r3 ((T1 ++ []) ++ T3)) by (apply (wrote_then off src r r2); try done; lia).
    rewrite app_nil_r in W13. exists r3, (T1 ++ T3), bs3. split_and!; try done.
    + apply Hrun. rewrite (proj2 (Z.ltb_lt 0 n)), (proj2 (Z.ltb_lt (i_size x) _)) by lia.
      eapply does_step; [apply does_iset, G1|exact D3].
    + eapply (wrote_regular off src bs3 k r r3); try done; rewrite E3, E2; simpl; [left; fold n; lia|lia].
    + rewrite E3, E2. simpl. lia.
  - exists r1, T1, bs1. split_and!; try done.
    + rewrite <- (app_nil_r T1). apply Hrun. rewrite (proj2 (Z.ltb_ge (i_size x) _)), andb_false_r by lia. apply does_ret.
    + by eapply fits_le; [|exact F1]; lia.
    + eapply (wrote_regular off src bs1 k r r1); try done; [by right|]. lia.
    + lia.
    + assert (E : inode_of r1 ip = x) by (apply Hs1; intros j Hj; apply R3; lia).
      unfold synced. unfold iblock. rewrite E, (v_sb _ _ _ _ _ W1).
      change (IBLOCK (i_inum x) (fs_sb r)) with (iblock r). by rewrite Hm1 by (done || lia).
Qed.

End io.
