(* ===== verification/Storage.v ===== *)
(** Files on the disk: a transaction that writes to a file is atomic and
    durable, and what was written is what is read. *)

From S2P Require Import Prelude Mmu Kalloc Kernel Sched Rely Pipe Fsys Field Bio Log Console Fs Life Solo BioFacts LogFacts Crash Txn FsFacts FileFacts IoFacts.

(** * Files on the disk *)

Definition disk_inode (d : disk_t) (sb : superblock) (inum : Z) : dinode :=
  rd_dinode (dblk d (IBLOCK inum sb)) (dinode_off inum).

Definition disk_addr (d : disk_t) (y : dinode) (bn : Z) : Z :=
  if bn <? NDIRECT then d_addrs y !!! Z.to_nat bn
  else if d_addrs y !!! 12%nat =? 0 then 0 else rd32 (dblk d (d_addrs y !!! 12%nat)) (4 * (bn - NDIRECT)).

Definition disk_byte (d : disk_t) (y : dinode) (k : Z) : Z :=
  let a := disk_addr d y (k / BSIZE) in if a =? 0 then 0 else rd8 (dblk d a) (k mod BSIZE).

(** On the disk [d], file [inum] has [z] bytes, and byte [k] is [f k]. *)
Definition file_on (d : disk_t) (sb : superblock) (inum z : Z) (f : Z -> Z) : Prop :=
  d_size (disk_inode d sb inum) = z /\ forall k, 0 <= k < z -> disk_byte d (disk_inode d sb inum) k = f k.

(** The bytes [f] with [src] at [off]. *)
Definition with_bytes (f : Z -> Z) (off : Z) (src : list Z) (k : Z) : Z :=
  if decide (off <= k < off + Z.of_nat (length src)) then rd8 src (k - off) else f k.

(** No transaction: the log is empty and the cache agrees with the disk. *)
Record idle (p start lsize : Z) (r : fsys) : Prop := {
  e_geom : geometry start lsize [];
  e_cache : cache_ok p [] r;
  e_header : header start [] (fs_log r);
  e_blocks : length (lh_block (lg_lh (fs_log r))) = 30%nat;
  e_size : lg_size (fs_log r) = lsize;
  e_out : lg_outstanding (fs_log r) = 0;
  e_comm : lg_committing (fs_log r) = false;
  e_dirty : forall b, dirty r b = false;
  e_head : head_empty start (fs_disk r);
  e_start : sb_logstart (rdsb (dblk (fs_disk r) 1)) = start }.

Section storage.
Context (me : nat) (p : Z) (t : nat) (start lsize data : Z) (ip : nat).
Notation turns := (S (S t)).
Notation does := (does me p).

(** A block that is not in the log is on the disk what it is in the cache. *)
Lemma file_on_disk bs k r d :
  let x := inode_of r ip in
  good p start lsize data ip bs k r -> regular start lsize data ip r -> synced ip r ->
  (forall b, ~ region start lsize b -> dblk d b = blk r b) ->
  file_on d (fs_sb r) (i_inum x) (i_size x) (fbyte r x).
Proof.
  intros x [O1 O2 O3 O4 O5 O6] [R1 R2 R3 [Q1 Q2 Q3 Q4] R5] Sy V. fold x in O4, R1, R2, R3, R5.
  assert (Hin : disk_inode d (fs_sb r) (i_inum x) = to_dinode x).
  { unfold disk_inode. change (IBLOCK (i_inum x) (fs_sb r)) with (iblock ip r). rewrite V by done. exact Sy. }
  unfold file_on. rewrite Hin. split; [done|]. intros j Hj. pose proof (l_log _ _ _ _ O2).
  assert (Hr : 0 <= j / BSIZE < MAXFILE) by (unfold BSIZE in *; lia).
  assert (Ha : disk_addr d (to_dinode x) (j / BSIZE) = baddr r x (j / BSIZE)).
  { unfold disk_addr, baddr. destruct (Z.ltb_spec (j / BSIZE) NDIRECT); [done|].
    change (d_addrs (to_dinode x) !!! 12%nat) with (ind x). destruct (Z.eqb_spec (ind x) 0) as [|Hne]; [done|].
    destruct (f_ind _ _ _ O4 Hne). rewrite V; [done|]. unfold region. lia. }
  unfold disk_byte, fbyte. rewrite Ha. destruct (Z.eqb_spec (baddr r x (j / BSIZE)) 0) as [|Hne]; [done|].
  destruct (f_used _ _ _ O4 _ Hr Hne). rewrite V; [done|]. unfold region. lia.
Qed.

(** ** A transaction *)

Definition opened (r : fsys) : fsys := set_fs_log (set_lg_outstanding (lg_outstanding (fs_log r) + 1) (fs_log r)) r.

Lemma begin_op_ok r : idle p start lsize r ->
  does (begin_op turns me) [] r [] tt [] (opened r) /\ txn p start lsize [] [] (opened r).
Proof.
  intros [E1 E2 E3 E4 E5 E6 E7 E8 E9 E10]. pose proof (h_n _ _ _ E3) as Hn. split.
  - unfold begin_op. eapply does_step; [apply does_acquire; set_solver|]. cbn [begin_op_loop].
    eapply does_step; [apply does_fget|]. cbv beta. rewrite E7, E6, Hn. simpl.
    eapply does_step; [apply does_fset|]. apply does_release. set_solver.
  - split; try done.
    + by apply cache_ok_log.
    + split; try done; [by destruct E3|]. simpl. split; [lia|done].
    + intros b. change (dirty (opened r) b) with (dirty r b). rewrite E8. set_solver.
Qed.

(** A file that rests: its inode is in memory and agrees with the disk, and
    there are [k] free blocks. *)
Record stored (k : nat) (r : fsys) : Prop := {
  t_idle : idle p start lsize r;
  t_layout : layout start lsize data r;
  t_file : file_ok data r (inode_of r ip);
  t_free : free r k;
  t_ip : (ip < length (fs_icache r))%nat;
  t_regular : regular start lsize data ip r;
  t_synced : synced ip r }.

Lemma stored_opened k r :
  stored k r -> good p start lsize data ip [] k (opened r) /\ regular start lsize data ip (opened r) /\ synced ip (opened r).
Proof.
  intros [Z1 Z2 Z3 Z4 Z5 Z6 Z7]. destruct (begin_op_ok r Z1) as [_ X]. pose proof (l_bmap _ _ _ _ Z2). split_and!.
  - split; try done; [lia|by destruct Z2; split|by destruct Z3; split].
  - destruct Z6 as [? ? ? [] ?]. by split.
  - exact Z7.
Qed.

Lemma blocks_chunk off n : 0 <= off -> n <= 1536 -> (blocks off n <= 4)%nat.
Proof. intros Hoff Hn. unfold blocks, BSIZE. destruct (Z.leb_spec n 0); lia. Qed.

(** The transaction: at its end, before it commits. *)
Lemma write_txn r off src :
  let n := Z.of_nat (length src) in let x := inode_of r ip in
  stored 8 r -> 26 <= lsize -> 0 <= off <= i_size x -> n <= 1536 -> off + n <= MAXFILE * BSIZE ->
  exists r' T bs, does (begin_op turns me;; writei turns me ip src off) [] r T n [] r'
    /\ good p start lsize data ip bs 0 r' /\ wrote data ip off src (opened r) r' T /\ regular start lsize data ip r'
    /\ i_size (inode_of r' ip) = Z.max (i_size x) (off + n) /\ synced ip r' /\ fits lsize 1 bs 0.
Proof.
  intros n x St Hl Hoff Hn Hmax. destruct (stored_opened 8 r St) as (Gd & Rg & Sy).
  destruct (begin_op_ok r (t_idle _ _ St)) as [D0 _]. pose proof (blocks_chunk off n (proj1 Hoff) Hn) as Hb.
  destruct (writei_regular me p t start lsize data ip [] 0 0 (opened r) off src) as
    (r' & T & bs & D & G' & F' & W & R' & Hz & Sy'); try done.
  { by eapply good_le; [|exact Gd]; fold n; lia. } { unfold fits, NBUF. fold n. simpl. lia. }
  exists r', T, bs. split_and!; try done; [|by apply Sy']. by eapply does_step.
Qed.

(** A transaction that writes to a file: what filewrite does for a chunk. *)
Definition write_op (src : list Z) (off : Z) : KF Z :=
  n ← (begin_op turns me;; writei turns me ip src off);
  end_op turns me;;
  mret n.

Lemma file_on_ext d sb inum z z' f g :
  z = z' -> (forall k, 0 <= k < z -> f k = g k) -> file_on d sb inum z f -> file_on d sb inum z' g.
Proof. intros <- Hfg [H1 H2]. split; [done|]. intros k Hk. rewrite H2 by done. by apply Hfg. Qed.

Lemma write_op_ok r off src :
  let n := Z.of_nat (length src) in let x := inode_of r ip in
  stored 8 r -> 26 <= lsize -> 0 <= off <= i_size x -> n <= 1536 -> off + n <= MAXFILE * BSIZE ->
  exists r1 r' T bs, does (write_op src off) [] r T n [] r' /\ geometry start lsize bs
    /\ (forall d, (forall b, ~ region start lsize b -> dblk d b = dblk (fs_disk r) b) ->
          file_on d (fs_sb r) (i_inum x) (i_size x) (fbyte r x))
    /\ (forall d, (forall b, ~ region start lsize b -> dblk d b = blk r1 b) ->
          file_on d (fs_sb r) (i_inum x) (Z.max (i_size x) (off + n)) (with_bytes (fbyte r x) off src))
    /\ (forall b, ~ region start lsize b -> dblk (fs_disk r') b = blk r1 b)
    /\ dblk (fs_disk r) 1 = blk r1 1
    /\ Forall (crash_state start lsize bs (dblk (fs_disk r)) (blk r1)) (fs_disk r :: T).
Proof.
  intros n x St Hl Hoff Hn Hmax. destruct (stored_opened 8 r St) as (Gd & Rg & Sy).
  destruct (write_txn r off src St Hl Hoff Hn Hmax) as (r1 & T1 & bs & D1 & G1 & W & R1 & Hz & Sy1 & _).
  pose proof (o_txn _ _ _ _ _ _ _ _ G1) as X1. pose proof (x_geom _ _ _ _ _ _ X1) as Ge.
  pose proof (txn_pending _ _ _ _ _ X1) as Q. destruct (n_out _ _ _ _ (x_in _ _ _ _ _ _ X1)) as [No Nc].
  destruct (end_op_ok me p t start lsize bs Ge r1 Q No Nc) as (r' & T2 & D2 & _ & _ & Hb & _ & _ & _ & F2).
  pose proof (v_disk _ _ _ _ _ _ _ W) as Hd. change (fs_disk (opened r)) with (fs_disk r) in Hd.
  destruct (v_inode _ _ _ _ _ _ _ W) as (l & z & Ei). change (inode_of (opened r) ip) with x in Ei.
  assert (Hinum : i_inum (inode_of r1 ip) = i_inum x) by (by rewrite Ei).
  assert (Hclean : forall b, blk r b = dblk (fs_disk r) b).
  { intros b. apply (clean_blk p r b); [apply St|]. apply St. }
  exists r1, r', (T1 ++ T2), bs. split_and!; try done.
  - unfold write_op. eapply does_bind; [exact D1|].
    eapply does_eq; [eapply does_bind; [exact D2|apply does_ret]|apply app_nil_r|reflexivity].
  - intros d Hdd. apply (file_on_disk [] 8 (opened r) d Gd Rg Sy). intros b Hbr.
    rewrite Hdd by done. symmetry. apply Hclean.
  - intros d Hdd. pose proof (file_on_disk bs 0 r1 d G1 R1 Sy1 Hdd) as Fo.
    rewrite Hinum, (v_sb _ _ _ _ _ _ _ W) in Fo. eapply file_on_ext; [exact Hz| |exact Fo].
    intros j Hj. apply (v_byte _ _ _ _ _ _ _ W). pose proof (reg_size _ _ _ _ _ R1). lia.
  - rewrite <- Hd. symmetry. apply (blk_home p start bs); [done|]. intros H. destruct (LogFacts.g_home _ _ _ Ge _ H). lia.
  - rewrite Hd in F2. apply (Forall_app_2 _ (fs_disk r :: T1) T2); [|done].
    assert (Hbf : crash_state start lsize bs (dblk (fs_disk r)) (blk r1) (fs_disk r)) by (by apply Before; [apply St|]).
    apply Forall_cons. split; [done|]. eapply Forall_impl; [apply W|]. by intros d <-.
Qed.

End storage.

(** * The theorems *)

(** C1: A transaction that writes to a file is atomic and durable. The
    write of up to 1536 bytes (what filewrite gives to one transaction)
    between begin_op and end_op returns its length and leaves the file on
    the disk with the new bytes, at its new size. Should the machine stop
    at any moment in between, and again any number of times while it
    recovers, then the next recovery leaves a disk on which the file is
    either as it was or as it was to be. *)
Theorem write_atomic start lsize data ip me p t me' p' t' sb ic cn s src off :
  let r := fs s in let x := inode_of r ip in let n := Z.of_nat (length src) in
  let old d := file_on d (fs_sb r) (i_inum x) (i_size x) (fbyte r x) in
  let new d := file_on d (fs_sb r) (i_inum x) (Z.max (i_size x) (off + n)) (with_bytes (fbyte r x) off src) in
  at_ me p [] r s -> stored p start lsize data ip 8 r -> 26 <= lsize ->
  0 <= off <= i_size x -> n <= 1536 -> off + n <= MAXFILE * BSIZE ->
  exists s' T, solo me (write_op me t ip src off s) = (Some (n, s'), T) /\ new (fs_disk (fs s'))
    /\ forall d s0, crashed me' p' t' sb ic cn (fs_disk r :: T) d -> at_ me' p' [] (boot d sb ic cn) s0 ->
         exists s1 T1, solo me' (initlog (S (S t')) me' ROOTDEV s0) = (Some (tt, s1), T1)
           /\ (old (fs_disk (fs s1)) \/ new (fs_disk (fs s1))).
Proof.
  intros r x n old new Hat St Hl Hoff Hn Hmax.
  destruct (write_op_ok me p t start lsize data ip r off src St Hl Hoff Hn Hmax) as
    (r1 & r' & T & bs & D & Ge & Ho & Hnw & Hd & H1 & F).
  destruct (D s Hat) as (s' & E & Hs'). exists s', T. rewrite (at_fs _ _ _ _ _ Hs'). split_and!; [done|by apply Hnw|].
  intros d s0 Hc Hs0.
  destruct (crash_recovers start lsize bs me' p' t' sb ic cn _ _ _ Ge H1 (e_start _ _ _ _ (t_idle _ _ _ _ _ _ _ St)) F
    d s0 Hc Hs0) as (s1 & T1 & E1 & [Hor|Hor]); exists s1, T1; (split; [done|]).
  - left. by apply Ho.
  - right. by apply Hnw.
Qed.

(** C11: What is written to a file is what is read from it. In the
    transaction that wrote [src] at [off], a read of [m] bytes at any offset
    [o] of the file returns the number of bytes up to the new end of the
    file, and for each of them the byte of [src] where it lies in the range
    that was written, and else the byte that was there before. *)
Theorem write_read start lsize data ip me p t s src off o m :
  let r := fs s in let x := inode_of r ip in let n := Z.of_nat (length src) in
  let c := Z.min m (Z.max (i_size x) (off + n) - o) in
  at_ me p [] r s -> stored p start lsize data ip 8 r -> 26 <= lsize ->
  0 <= off <= i_size x -> n <= 1536 -> off + n <= MAXFILE * BSIZE ->
  0 <= o <= Z.max (i_size x) (off + n) -> 0 <= m -> o + m < 2 ^ 32 ->
  exists s' T, solo me ((_ ← (begin_op (S (S t)) me;; writei (S (S t)) me ip src off);
                         readi (S (S t)) me ip o m) s)
    = (Some ((c, with_bytes (fbyte r x) off src <$> seqZ o c), s'), T).
Proof.
  intros r x n c Hat St Hl Hoff Hn Hmax Ho Hm Hov.
  destruct (write_txn me p t start lsize data ip r off src St Hl Hoff Hn Hmax) as
    (r1 & T1 & bs & D1 & G1 & W & R1 & Hz & _ & F1).
  destruct (readi_regular me p t start lsize data ip bs 0 r1 o m G1) as (r2 & T2 & D2 & _ & _); try done.
  { by apply (fits_held lsize 0). } { by rewrite Hz. }
  rewrite Hz in D2. fold n x c in D2.
  destruct (does_bind me p _ (fun _ => readi (S (S t)) me ip o m) _ _ _ _ _ _ _ _ _ _ D1 D2 s Hat) as (s' & E & _). exists s', (T1 ++ T2).
  rewrite E. cut (fbyte r1 (inode_of r1 ip) <$> seqZ o c = with_bytes (fbyte r x) off src <$> seqZ o c); [by intros ->|].
  apply list_fmap_ext. intros i k [-> Hi]%lookup_seqZ. apply (v_byte _ _ _ _ _ _ _ W).
  pose proof (reg_size _ _ _ _ _ R1) as Hs. rewrite Hz in Hs. fold n x in Hs. unfold c in Hi. lia.
Qed.

(** A write to one file leaves the others alone. Another file, whose
    blocks are not those of the file that is written, has the same inode and
    the same bytes after the write as before it. *)
Theorem write_isolated start lsize data ip me p t s src off j :
  let r := fs s in let x := inode_of r ip in let y := inode_of r j in let n := Z.of_nat (length src) in
  at_ me p [] r s -> stored p start lsize data ip 8 r -> 26 <= lsize ->
  0 <= off <= i_size x -> n <= 1536 -> off + n <= MAXFILE * BSIZE ->
  j <> ip -> (ind y <> 0 -> foreign data r x (ind y)) ->
  (forall bn, 0 <= bn < MAXFILE -> baddr r y bn <> 0 -> foreign data r x (baddr r y bn)) ->
  exists s' T, solo me ((begin_op (S (S t)) me;; writei (S (S t)) me ip src off) s) = (Some (n, s'), T)
    /\ inode_of (fs s') j = y /\ forall k, 0 <= k < MAXFILE * BSIZE -> fbyte (fs s') y k = fbyte r y k.
Proof.
  intros r x y n Hat St Hl Hoff Hn Hmax Hj Hi Hb.
  destruct (write_txn me p t start lsize data ip r off src St Hl Hoff Hn Hmax) as (r1 & T1 & bs & D1 & _ & W & _).
  destruct (D1 s Hat) as (s' & E & Hs'). exists s', T1. rewrite (at_fs _ _ _ _ _ Hs').
  assert (Hk : forall c, foreign data r x c -> blk r1 c = blk r c).
  { intros c Hc. destruct (v_blk _ _ _ _ _ _ _ W c) as [_ ->]; [|done]. destruct Hc as ([] & ? & ?). by split_and!. }
  split_and!; [done|by apply (v_other _ _ _ _ _ _ _ W)|]. intros k Hkr.
  assert (Ha : forall bn, baddr r1 y bn = baddr r y bn).
  { intros bn. unfold baddr. destruct (bn <? NDIRECT); [done|]. destruct (Z.eqb_spec (ind y) 0); [done|].
    by rewrite Hk by auto. }
  unfold fbyte. rewrite Ha. destruct (Z.eqb_spec (baddr r y (k / BSIZE)) 0); [done|]. rewrite Hk; [done|].
  apply Hb; [unfold BSIZE in *; lia|done].
Qed.

(** * Two files *)

Definition empty_inode : dinode := Dinode T_FILE 0 0 1 0 (replicate 13 0).
(** Names: . and .. *)
Definition small_dir : list Z := blit (blit zero_block 0 (mk_dirent 1 [46])) 16 (mk_dirent 1 [46; 46]).
Definition small_disk : disk_t :=
  <[1 := wr32 zero_block 16 2]> (<[32 := wr_dinode zero_block 128 empty_inode]> (<[500 := small_dir]>
    {[ 58 := foldl set_bit zero_block (500 :: (Z.of_nat <$> seq 0 59)) ]})).
(** The first is an empty file, the second a directory with a block. *)
Definition small_inodes : list inode :=
  [Inode ROOTDEV 2 1 sl0 true T_FILE 0 0 1 0 (replicate 13 0);
   Inode ROOTDEV 3 1 sl0 true T_DIR 0 0 1 32 (500 :: replicate 12 0)].
Definition small_fs : fsys :=
  set_fs_log (Log 2 30 0 false ROOTDEV (LH 0 (replicate 30 0))) (boot small_disk sample_sb small_inodes sample_cons).

Lemma small_blk b : blk small_fs b = dblk small_disk b.
Proof. by destruct (boot_ok 1 small_disk sample_sb small_inodes sample_cons) as (_ & _ & ?). Qed.

Lemma small_idle : idle 1 2 30 small_fs.
Proof.
  destruct (boot_ok 1 small_disk sample_sb small_inodes sample_cons) as (C & Hd & _).
  split; try done; [|by apply cache_ok_log|split; try done; simpl; lia].
  split; try (unfold FSSIZE, NBUF; simpl; lia); [constructor|set_solver].
Qed.

Lemma small_layout : layout 2 30 59 small_fs.
Proof.
  split; try (unfold FSSIZE; simpl; lia).
  - unfold region. simpl. lia.
  - intros b. rewrite small_blk. unfold dblk, small_disk, disk_t.
    destruct (decide (b = 1)) as [->|]; [by rewrite lookup_insert_eq|]. rewrite lookup_insert_ne by done.
    destruct (decide (b = 32)) as [->|]; [by rewrite lookup_insert_eq|]. rewrite lookup_insert_ne by done.
    destruct (decide (b = 500)) as [->|]; [by rewrite lookup_insert_eq|]. rewrite lookup_insert_ne by done.
    destruct (decide (b = 58)) as [->|]; [by rewrite lookup_singleton_eq|]. by rewrite lookup_singleton_ne.
  - intros b Hb. rewrite small_blk. change (sb_bmapstart (fs_sb small_fs)) with 58.
    assert (Hall : forallb (bit_at (dblk small_disk 58)) (Z.of_nat <$> seq 0 59) = true) by (vm_compute; reflexivity).
    rewrite forallb_forall in Hall. apply Hall. apply list_elem_of_In, list_elem_of_fmap.
    exists (Z.to_nat b). split; [lia|]. apply elem_of_seq. lia.
Qed.

Lemma small_hole bn : 0 <= bn < MAXFILE -> baddr small_fs (inode_of small_fs 0) bn = 0.
Proof.
  intros Hbn. unfold baddr. destruct (Z.ltb_spec bn NDIRECT) as [Hlt|]; [|done]. unfold NDIRECT in Hlt.
  apply (lookup_total_replicate_2 13). lia.
Qed.

Lemma small_addr bn :
  0 <= bn < MAXFILE -> baddr small_fs (inode_of small_fs 1) bn = if decide (bn = 0) then 500 else 0.
Proof.
  intros Hbn. unfold baddr. destruct (Z.ltb_spec bn NDIRECT) as [Hlt|Hge].
  - unfold NDIRECT in Hlt. case_decide as E; [by subst|]. simpl. replace (Z.to_nat bn) with (S (Z.to_nat (bn - 1))) by lia.
    apply (lookup_total_replicate_2 12). lia.
  - by rewrite decide_False by (unfold NDIRECT in *; lia).
Qed.

Lemma small_used : used 59 small_fs 500.
Proof. split; [simpl; lia|]. rewrite small_blk. vm_compute. reflexivity. Qed.

Lemma small_stored : stored 1 2 30 59 0 8 small_fs.
Proof.
  split; [apply small_idle|apply small_layout|..].
  - split; try done; [intros bn ? []|intros bn ? ? ? []]; by apply small_hole.
  - exists (Z.of_nat <$> seq 100 8). split_and!; [|done|].
    + apply NoDup_fmap; [intros ???; lia|apply NoDup_seq].
    + intros b (i & -> & Hi%elem_of_seq)%list_elem_of_fmap. split; [simpl; lia|]. rewrite small_blk.
      change (BM small_fs) with 58.
      assert (Hall : forallb (fun b => negb (bit_at (dblk small_disk 58) b)) (Z.of_nat <$> seq 100 8) = true) by (vm_compute; reflexivity).
      rewrite forallb_forall in Hall. apply negb_true_iff. apply (Hall (Z.of_nat i)).
      apply list_elem_of_In, list_elem_of_fmap. exists i. split; [done|]. apply elem_of_seq. lia.
  - simpl. lia.
  - split; try done.
    + intros k Hk. simpl in Hk. lia.
    + split; try done; unfold region; vm_compute; intuition congruence.
    + split; try done. split; [done|]. apply Forall_replicate. lia.
  - unfold synced. rewrite small_blk. vm_compute. reflexivity.
Qed.

Lemma write_atomic_witness :
  exists s' T, solo 0 (write_op 0 0 0 [104; 105] 0 (sample_kst small_fs)) = (Some (2, s'), T)
    /\ file_on (fs_disk (fs s')) sample_sb 2 2 (with_bytes (fbyte small_fs (inode_of small_fs 0)) 0 [104; 105]).
Proof.
  destruct (write_atomic 2 30 59 0 0 1 0 0 1 0 sample_sb small_inodes sample_cons (sample_kst small_fs) [104; 105] 0)
    as (s' & T & E & Hn & _).
  - apply sample_at.
  - apply small_stored.
  - lia.
  - simpl. lia.
  - simpl. lia.
  - unfold MAXFILE, NDIRECT, NINDIRECT, BSIZE. simpl. lia.
  - exists s', T. split; [exact E|exact Hn].
Defined.

Lemma write_read_witness :
  exists s' T, solo 0 ((_ ← (begin_op 2 0;; writei 2 0 0 [104; 105] 0); readi 2 0 0 1 1000) (sample_kst small_fs))
    = (Some ((1, [105]), s'), T).
Proof.
  destruct (write_read 2 30 59 0 0 1 0 (sample_kst small_fs) [104; 105] 0 1 1000) as (s' & T & E).
  - apply sample_at.
  - apply small_stored.
  - lia.
  - simpl. lia.
  - simpl. lia.
  - unfold MAXFILE, NDIRECT, NINDIRECT, BSIZE. simpl. lia.
  - simpl. lia.
  - lia.
  - lia.
  - exists s', T. exact E.
Defined.

Lemma write_isolated_witness :
  exists s' T, solo 0 ((begin_op 2 0;; writei 2 0 0 [104; 105] 0) (sample_kst small_fs)) = (Some (2, s'), T)
    /\ inode_of (fs s') 1 = inode_of small_fs 1.
Proof.
  destruct (write_isolated 2 30 59 0 0 1 0 (sample_kst small_fs) [104; 105] 0 1) as (s' & T & E & Hi & _).
  - apply sample_at.
  - apply small_stored.
  - lia.
  - simpl. lia.
  - simpl. lia.
  - unfold MAXFILE, NDIRECT, NINDIRECT, BSIZE. simpl. lia.
  - done.
  - intros []. reflexivity.
  - intros bn Hbn Hne. change (fs (sample_kst small_fs)) with small_fs in *.
    rewrite small_addr in * by done. case_decide; [|done]. split_and!; [apply small_used|done|].
    intros bn' Hbn'. by rewrite small_hole.
  - exists s', T. split; [exact E|exact Hi].
Defined.
