(* ===== verification/ArgsFacts.v ===== *)
(** What the kernel reads and writes in the memory of a process: copies to
    and from user memory, and the ranges that system calls accept. *)

From S2P Require Import Prelude Mmu Kalloc Vm VmFacts VmUser Kernel Thread Args.

(** * Bytes of user memory *)

Definition ubyte (m : memory) (pgdir va : Z) : Z := load8 m (frame m pgdir va + va mod 4096).

(** The page of [va] is there for the kernel to read. *)
Definition ureadable (m : memory) (pgdir va : Z) : Prop := uva va /\ mapped m pgdir va = true.

(** ... and it belongs to the user, who may write to it. *)
Definition uwritable (m : memory) (pgdir va : Z) : Prop :=
  ureadable m pgdir va /\ testf (pte_of m pgdir va) PTE_U = true /\ testf (pte_of m pgdir va) PTE_W = true.

Lemma load8_stored m a v x : load8 (store8 m a v) x = if x =? a then v mod 256 else load8 m x.
Proof. unfold load8, store8. destruct (x =? a); [apply Z.mod_mod; lia|done]. Qed.

Section user.
Context `{L : Link}.

Lemma mapped_slot_nz m pgdir va : mapped m pgdir va = true -> pte_slot m pgdir va <> 0.
Proof. intros Hm E. unfold mapped in Hm. by rewrite pte_unmapped_none in Hm. Qed.

Lemma user_byte_run pgdir va w s :
  mapped (ram s) pgdir va = true -> (w = true -> testf (pte_of (ram s) pgdir va) PTE_W = true) ->
  user_byte pgdir va w s = OK (frame (ram s) pgdir va + va mod 4096) s.
Proof.
  intros Hm Hw. pose proof (mapped_slot_nz _ _ _ Hm) as Hs. unfold user_byte. mrun. rewrite walk_noalloc.
  rewrite (proj2 (Z.eqb_neq _ _) Hs). unfold ld. mrun.
  assert (E : load32 (ram s) (pte_slot (ram s) pgdir va) = pte_of (ram s) pgdir va).
  { unfold pte_of. by rewrite (proj2 (Z.eqb_neq _ _) Hs). }
  rewrite E. unfold mapped in Hm. rewrite Hm. unfold frame. destruct w; [by rewrite Hw|done].
Qed.

Lemma user_byte_fault pgdir va w s :
  mapped (ram s) pgdir va = false -> user_byte pgdir va w s = FAULT va s.
Proof.
  intros Hm. unfold user_byte. mrun. rewrite walk_noalloc.
  destruct (Z.eqb_spec (pte_slot (ram s) pgdir va) 0) as [|Hs]; [done|]. unfold ld. mrun.
  assert (E : load32 (ram s) (pte_slot (ram s) pgdir va) = pte_of (ram s) pgdir va).
  { unfold pte_of. by rewrite (proj2 (Z.eqb_neq _ _) Hs). }
  rewrite E. unfold mapped in Hm. by rewrite Hm.
Qed.

Lemma ld_bytes_run pgdir va n s :
  0 <= va -> (forall i, va <= i < va + Z.of_nat n -> ureadable (ram s) pgdir i) ->
  ld_bytes pgdir va n s = OK (ubyte (ram s) pgdir <$> seqZ va (Z.of_nat n)) s.
Proof.
  revert va. induction n as [|n IH]; intros va Hva Hr; [done|]. destruct (Hr va) as [Hu Hm]; [lia|].
  cbn [ld_bytes]. unfold ldb_user. mrun. rewrite user_byte_run by done. mrun.
  rewrite seqZ_cons by lia. replace (Z.pred (Z.of_nat (S n))) with (Z.of_nat n) by lia.
  destruct n as [|n]; [done|]. destruct (Hr (va + 1)) as [Hu' _]; [lia|]. unfold uva, KERNBASE in *.
  rewrite u32_id, IH by (intros; try apply Hr; lia). done.
Qed.

(** One byte is written, and the others stay. *)
Lemma stb_run pgdir va v s l :
  uspace s pgdir l -> uwritable (ram s) pgdir va ->
  exists s', stb_user pgdir va v s = OK tt s' /\ uspace s' pgdir l
    /\ (forall va', pte_of (ram s') pgdir va' = pte_of (ram s) pgdir va')
    /\ (forall va', ureadable (ram s) pgdir va' ->
          ubyte (ram s') pgdir va' = if va' =? va then v mod 256 else ubyte (ram s) pgdir va').
Proof.
  intros Hus ([Hu Hm] & HU & HW). destruct (us_frame _ _ _ Hus va Hu Hm) as (Hv & Ho & Hl).
  set (x := frame (ram s) pgdir va) in *. set (a := x + va mod 4096).
  assert (Hso : same_outside x (ram s) (store8 (ram s) a v)).
  { intros y Hy. rewrite load8_stored. destruct (Z.eqb_spec y a); [unfold a, PGSIZE in *; lia|done]. }
  destruct (uspace_poke s pgdir l x _ Hus Hv Ho Hl Hso) as [Hus' Hpf].
  exists (set_ram (fun m => store8 m a v) s). split_and!.
  - unfold stb_user. mrun. by rewrite user_byte_run.
  - exact Hus'.
  - intros va'. apply (pte_frame _ _ _ _ Hpf).
  - intros va' [Hu' Hm']. unfold ubyte, frame. simpl. rewrite (pte_frame _ _ _ _ Hpf).
    change (P2V (PTE_ADDR (pte_of (ram s) pgdir va'))) with (frame (ram s) pgdir va'). rewrite load8_stored.
    destruct (us_frame _ _ _ Hus va' Hu' Hm') as (Hv' & _ & _).
    assert (Hpg : x mod 4096 = 0 /\ frame (ram s) pgdir va' mod 4096 = 0).
    { unfold valid_page, PGSIZE in *. tauto. }
    destruct (Z.eqb_spec va' va) as [->|Hne]; [by rewrite Z.eqb_refl|].
    destruct (Z.eqb_spec (frame (ram s) pgdir va' + va' mod 4096) a) as [E|]; [|done]. exfalso. unfold a in E.
    assert (E1 : frame (ram s) pgdir va' = x) by lia.
    destruct (decide (va' / 4096 = va / 4096)); [lia|]. by apply (us_share _ _ _ Hus va Hu Hm HU va').
Qed.

Lemma st_bytes_run pgdir va src s l :
  uspace s pgdir l -> 0 <= va ->
  (forall i, va <= i < va + Z.of_nat (length src) -> uwritable (ram s) pgdir i) ->
  exists s', st_bytes pgdir va src s = OK tt s' /\ uspace s' pgdir l
    /\ (forall va', pte_of (ram s') pgdir va' = pte_of (ram s) pgdir va')
    /\ (forall va', ureadable (ram s) pgdir va' -> ubyte (ram s') pgdir va'
          = if decide (va <= va' < va + Z.of_nat (length src)) then src !!! Z.to_nat (va' - va) mod 256
            else ubyte (ram s) pgdir va').
Proof.
  revert va s. induction src as [|c src IH]; intros va s Hus Hva Hw.
  { exists s. split_and!; try done. intros va' _. rewrite decide_False; [done|simpl; lia]. }
  destruct (stb_run pgdir va c s l Hus) as (s1 & E1 & Hus1 & Hp1 & Hb1); [apply Hw; simpl; lia|].
  assert (Hr1 : forall i, ureadable (ram s) pgdir i <-> ureadable (ram s1) pgdir i).
  { intros i. unfold ureadable, mapped. by rewrite Hp1. }
  assert (Hw1 : forall i, uwritable (ram s) pgdir i -> uwritable (ram s1) pgdir i).
  { intros i. unfold uwritable. by rewrite Hr1, Hp1. }
  destruct (IH (u32 (va + 1)) s1 Hus1) as (s2 & E2 & Hus2 & Hp2 & Hb2); [apply u32_range| |].
  { intros i Hi. apply Hw1, Hw. destruct (Hw va) as [[Hu _] _]; [simpl; lia|]. unfold uva, KERNBASE in Hu.
    rewrite u32_id in Hi by lia. simpl. lia. }
  exists s2. split_and!; [|done|intros; by rewrite Hp2|].
  - cbn [st_bytes]. mrun. by rewrite E1.
  - intros va' Hr. rewrite Hb2 by (by apply Hr1). rewrite Hb1 by done.
    destruct (Hw va) as [[Hu _] _]; [simpl; lia|]. unfold uva, KERNBASE in Hu. rewrite u32_id by lia.
    destruct (Z.eqb_spec va' va) as [->|Hne].
    + rewrite decide_False, decide_True by (simpl; lia). by rewrite Z.sub_diag.
    + repeat case_decide; simpl in *; try lia; try done.
      replace (Z.to_nat (va' - va)) with (S (Z.to_nat (va' - (va + 1)))) by lia. done.
Qed.

End user.

(** * Arguments *)

Lemma word_of_range l : length l = 4%nat -> Forall (fun c => 0 <= c < 256) l -> 0 <= word_of l < 2 ^ 32.
Proof.
  intros Hl Hf. do 5 (destruct l as [|? l]; try discriminate Hl). unfold word_of. simpl.
  repeat (apply Forall_cons in Hf as [? Hf]). lia.
Qed.

(** The characters before the first nul. *)
Fixpoint cstring (l : list Z) : option (list Z) :=
  match l with
  | [] => None
  | c :: l => if c =? 0 then Some [] else cons c <$> cstring l
  end.

Lemma cstring_Some l str : cstring l = Some str -> exists rest, l = str ++ 0 :: rest.
Proof.
  revert str. induction l as [|c l IH]; intros str; [done|]. simpl.
  destruct (Z.eqb_spec c 0) as [->|]; [intros [= <-]; by exists l|].
  intros (str' & Hs & ->)%fmap_Some. destruct (IH str' Hs) as [rest ->]. by exists rest.
Qed.

Lemma cstring_range f i n str :
  0 <= n -> cstring (f <$> seqZ i n) = Some str ->
  Z.of_nat (length str) < n /\ f <$> seqZ i (Z.of_nat (length str)) = str /\ f (i + Z.of_nat (length str)) = 0.
Proof.
  intros Hn [rest E]%cstring_Some. set (k := length str). assert (Hl : length (f <$> seqZ i n) = (k + S (length rest))%nat).
  { rewrite E, length_app. done. }
  rewrite length_fmap, length_seqZ in Hl. assert (Hk : Z.of_nat k < n) by lia.
  replace n with (Z.of_nat k + (1 + (n - Z.of_nat k - 1))) in E by lia. rewrite seqZ_app, fmap_app in E by lia.
  apply app_inj_1 in E as [E1 E2]; [|rewrite length_fmap, length_seqZ; lia]. split_and!; [done|done|].
  rewrite seqZ_app, fmap_app in E2 by lia. simpl in E2. by injection E2 as <- _.
Qed.

Section args.
Context {FS : Type} `{L : Link} (me : nat) (s : kst FS).
Notation p := (slot_of s me).
Notation m := (ram (mem s)).

Lemma argint_read n :
  let addr := u32 (esp (tf p) + 4 + 4 * n) in
  addr + 4 <= limit p -> (forall i, addr <= i < addr + 4 -> ureadable m (pgdir p) i) ->
  argint me n s = Done (Some (word_of (ubyte m (pgdir p) <$> seqZ addr 4))) s.
Proof.
  intros addr Hl Hr. pose proof (u32_range (esp (tf p) + 4 + 4 * n)) as Hu. fold addr in Hu.
  destruct (Hr (addr + 3)) as [Hv _]; [lia|]. unfold uva, KERNBASE in Hv.
  unfold argint, fetchint, uread, mbind, K_bind, p_, lift. simpl. fold addr.
  rewrite (proj2 (Z.leb_gt _ _)), (u32_id (addr + 4)), (proj2 (Z.ltb_ge _ _)) by lia. simpl.
  change (addr + 4) with (addr + Z.of_nat 4) in Hr. pose proof (ld_bytes_run (pgdir p) addr 4 (mem s)) as E.
  cbn [ld_bytes] in E. rewrite E by (done || lia). simpl. by destruct s.
Qed.

(** A process, with all of the memory below its size. *)
Context (Hlead : tid p = -1) (Hsz : 0 <= sz p <= KERNBASE).
Context (Hmem : forall va, 0 <= va < sz p -> mapped m (pgdir p) va = true).

Lemma put_mem_id : put_mem (mem s) s = s.
Proof. by destruct s. Qed.

Lemma uread_run va n :
  0 <= va -> va + Z.of_nat n <= sz p -> uread me va n s = Done (ubyte m (pgdir p) <$> seqZ va (Z.of_nat n)) s.
Proof.
  intros Hva Hn. unfold uread. simpl. unfold lift, mbind, K_bind, p_. simpl.
  rewrite ld_bytes_run; [by rewrite put_mem_id|done|]. intros i Hi. split; [unfold uva; lia|]. apply Hmem. lia.
Qed.

Lemma fetchint_run addr :
  0 <= addr < 2 ^ 32 ->
  exists r, fetchint me addr s = Done r s /\ forall i, r = Some i -> 0 <= i < 2 ^ 32.
Proof.
  intros Ha. unfold fetchint, mbind, K_bind, p_. simpl. unfold limit. rewrite Hlead. simpl.
  destruct (Z.leb_spec (sz p) addr); [by exists None|]. unfold KERNBASE in Hsz. rewrite u32_id by lia. simpl.
  destruct (Z.ltb_spec (sz p) (addr + 4)); [by exists None|].
  rewrite uread_run by lia. eexists. split; [reflexivity|]. intros i Hi. apply Some_inj in Hi as <-.
  apply word_of_range; [done|]. repeat constructor; apply load8_range.
Qed.

Lemma fetch_chars_run addr n :
  0 <= addr -> addr + Z.of_nat n <= sz p ->
  fetch_chars me addr n s = Done (cstring (ubyte m (pgdir p) <$> seqZ addr (Z.of_nat n))) s.
Proof.
  revert addr. induction n as [|n IH]; intros addr Ha Hn; [done|]. rewrite seqZ_cons by lia.
  replace (Z.pred (Z.of_nat (S n))) with (Z.of_nat n) by lia. cbn [fetch_chars fmap list_fmap cstring].
  unfold mbind, K_bind. rewrite uread_run by lia. change (seqZ addr (Z.of_nat 1)) with [0 + addr]. rewrite Z.add_0_l. simpl.
  destruct (_ =? 0); [done|]. rewrite IH by lia. done.
Qed.

End args.

(** * Theorems *)

(** C14: The arguments of the system calls of a process are safe to use. For
    a process whose memory below its size is there, and whatever it left in
    its registers, its stack and its memory: argptr returns without a fault
    in the kernel, and a block that it accepts lies between 0 and the size
    of the process, with no overflow of its end, and can be read; argstr
    returns without a fault, and a string that it accepts lies there too,
    and ends with a nul before the end of that memory. *)
Theorem arguments_safe {FS : Type} (me : nat) (s : kst FS) (n size : Z) :
  let p := slot_of s me in let m := ram (mem s) in
  tid p = -1 -> 0 <= sz p <= KERNBASE -> (forall va, 0 <= va < sz p -> mapped m (pgdir p) va = true) ->
  size < 2 ^ 31 ->
  (exists r, argptr me n size s = Done r s
     /\ forall i, r = Some i -> 0 <= i < sz p /\ 0 <= size /\ i + size <= sz p
          /\ uread me i (Z.to_nat size) s = Done (ubyte m (pgdir p) <$> seqZ i size) s)
  /\ (exists r, argstr me n s = Done r s
        /\ forall str, r = Some str -> exists i, 0 <= i /\ i + Z.of_nat (length str) < sz p
             /\ (ubyte m (pgdir p) <$> seqZ i (Z.of_nat (length str))) = str
             /\ ubyte m (pgdir p) (i + Z.of_nat (length str)) = 0).
Proof.
  intros p m Hlead Hsz Hmem Hsize. set (addr := u32 (esp (tf p) + 4 + 4 * n)).
  destruct (fetchint_run me s Hlead Hsz Hmem addr) as (r & E & Hr); [apply u32_range|].
  assert (Ei : argint me n s = Done r s) by exact E. split.
  - unfold argptr, mbind, K_bind. rewrite Ei. simpl. destruct r as [i|]; [|by exists None]. specialize (Hr i eq_refl).
    unfold p_. simpl. fold p. unfold limit. rewrite Hlead. simpl. unfold KERNBASE in Hsz.
    destruct (Z.ltb_spec size 0); [by exists None|]. destruct (Z.leb_spec (sz p) i); [by exists None|].
    rewrite u32_id by lia. simpl. destruct (Z.ltb_spec (sz p) (i + size)); [by exists None|].
    exists (Some i). split; [done|]. intros ? [= <-]. split_and!; try lia.
    pose proof (uread_run me s Hlead Hsz Hmem i (Z.to_nat size)) as Hu. fold p m in Hu. rewrite Z2Nat.id in Hu by lia. apply Hu; lia.
  - unfold argstr, mbind, K_bind. rewrite Ei. simpl. destruct r as [i|]; [|by exists None]. specialize (Hr i eq_refl).
    unfold fetchstr, mbind, K_bind, p_. simpl. fold p. unfold limit. rewrite Hlead. simpl.
    destruct (Z.leb_spec (sz p) i); [by exists None|].
    pose proof (fetch_chars_run me s Hlead Hsz Hmem i (Z.to_nat (sz p - i))) as Hf. fold p m in Hf. rewrite Z2Nat.id in Hf by lia.
    eexists. split; [apply Hf; lia|]. intros str Hs. exists i. split; [lia|].
    apply cstring_range in Hs as (H1 & H2 & H3); [|lia]. split_and!; [lia|done|done].
Qed.

(** The kernel's copies to and from user memory. Bytes stored to a
    range of user memory whose pages the user may write to, which may cross
    pages, are the bytes loaded from it afterwards; no other byte of user
    memory changes, and neither do the page table and the free pages. *)
Theorem user_copy `{L : Link} pgdir va src s l :
  uspace s pgdir l -> 0 <= va -> Forall (fun c => 0 <= c < 256) src ->
  (forall i, va <= i < va + Z.of_nat (length src) -> uwritable (ram s) pgdir i) ->
  exists s', st_bytes pgdir va src s = OK tt s' /\ ld_bytes pgdir va (length src) s' = OK src s'
    /\ uspace s' pgdir l /\ (forall i, pte_of (ram s') pgdir i = pte_of (ram s) pgdir i)
    /\ forall i, ureadable (ram s) pgdir i -> ~ va <= i < va + Z.of_nat (length src) ->
         ubyte (ram s') pgdir i = ubyte (ram s) pgdir i.
Proof.
  intros Hus Hva Hsrc Hw. destruct (st_bytes_run pgdir va src s l Hus Hva Hw) as (s' & E & Hus' & Hp & Hb).
  assert (Hr : forall i, va <= i < va + Z.of_nat (length src) -> ureadable (ram s) pgdir i) by (intros i Hi; by apply Hw).
  exists s'. split_and!; try done.
  - rewrite ld_bytes_run; [|done|].
    + f_equal. apply list_eq. intros i. rewrite list_lookup_fmap. destruct (decide (i < length src)%nat) as [Hi|Hi].
      * rewrite lookup_seqZ_lt by lia. simpl. rewrite Hb by (apply Hr; lia). rewrite decide_True by lia.
        destruct (lookup_lt_is_Some_2 src i Hi) as [c Hc]. rewrite Hc. f_equal. rewrite list_lookup_total_alt.
        replace (Z.to_nat (va + Z.of_nat i - va)) with i by lia. rewrite Hc. simpl.
        apply Z.mod_small. by apply (Forall_lookup_1 _ _ _ _ Hsrc Hc).
      * rewrite lookup_seqZ_ge, lookup_ge_None_2 by lia. done.
    + intros i Hi. unfold ureadable, mapped. rewrite Hp. by apply Hr.
  - intros i Hri Hni. rewrite Hb by done. by rewrite decide_False.
Qed.

(** C37: The arguments of a thread are not safe. argptr bounds a block of a
    thread by the top of its stack, below the end of user memory, although
    the memory between the size of the process and the stacks of its threads
    is not there. A thread that names such a block has it accepted, and the
    kernel's access to the block is a page fault in the kernel, which
    panics. *)
Theorem thread_argument_faults {FS : Type} (me : nat) (s : kst FS) (n size i : Z) :
  let p := slot_of s me in let m := ram (mem s) in
  tid p <> -1 -> argint me n s = Done (Some i) s -> 0 < size < 2 ^ 31 ->
  0 <= i -> i + size <= u32 (tstack p) -> mapped m (pgdir p) i = false ->
  argptr me n size s = Done (Some i) s /\ uread me i (Z.to_nat size) s = Halt "trap" s.
Proof.
  intros p m Ht Ei Hsize Hi Hlim Hm. pose proof (u32_range (tstack p)). split.
  - unfold argptr, mbind, K_bind. rewrite Ei. simpl. unfold p_. simpl. fold p. unfold limit.
    rewrite (proj2 (Z.eqb_neq _ _) Ht), (proj2 (Z.ltb_ge _ _)), (proj2 (Z.leb_gt _ _)) by lia.
    rewrite (u32_id (i + size)), (proj2 (Z.ltb_ge _ _)) by lia. done.
  - destruct (Z.to_nat size) as [|k] eqn:Ek; [lia|]. unfold uread, mbind, K_bind, p_, lift. simpl. fold p.
    unfold ldb_user, mbind, M_bind. rewrite user_byte_fault by done. by destruct s.
Qed.

(** * A process with a page of memory *)

Definition sample_page : pmem := final (st_bytes (pg 0) 4 [0; 16; 0; 0] sample_grown).
Definition sample_proc (id : Z) : proc :=
  set_tid id (set_tstack KERNBASE (set_sz PGSIZE (set_pgdir (pg 0) proc0))).
Definition sample_state (id : Z) : kst unit :=
  Kst sample_page [sample_proc id] 2 None [] ∅ 0 [] [] None tt.

Lemma sample_grown_ok :
  exists l, uspace (L := sample_link) sample_grown (pg 0) l
    /\ forall va, 0 <= va < PGSIZE -> uwritable (ram sample_grown) (pg 0) va.
Proof.
  destruct (allocuvm_run (L := sample_link) (sample_pmem sample_free) (pg 0) 0 PGSIZE sample_free) as (r & s' & l & E & H);
    [apply sample_uspace|ulia|ulia|intros; apply sample_empty|].
  assert (Hr : returns (allocuvm (L := sample_link) (pg 0) 0 PGSIZE (sample_pmem sample_free)) PGSIZE = true)
    by (vm_compute; reflexivity).
  rewrite E in Hr. apply Z.eqb_eq in Hr as ->.
  assert (sample_grown = s') as -> by (unfold sample_grown; by rewrite E).
  destruct H as [[_ H]|[H0 _]]; [|discriminate H0]. destruct H as [Hus Hin _ _ _ _ _]. clear E.
  exists l. split; [exact Hus|]. intros va Hva. destruct (Hin va Hva) as (Hp & _ & _). assert (Hu : uva va) by (unfold uva, KERNBASE, PGSIZE in *; lia).
  assert (Hm : mapped (ram s') (pg 0) va = true) by (unfold mapped; rewrite Hp; apply mkpte_P).
  destruct (us_frame (L := sample_link) _ _ _ Hus va Hu Hm) as (Hv & _ & _).
  destruct (V2P_page_pte (L := sample_link) _ Hv) as [Hal _].
  split; [exact (conj Hu Hm)|]. rewrite Hp. split; (rewrite mkpte_testf; [reflexivity|exact Hal|unfold PTE_U, PTE_W; lia]).
Qed.

Lemma user_copy_witness :
  exists s', st_bytes (pg 0) 4 [0; 16; 0; 0] sample_grown = OK tt s' /\ ld_bytes (pg 0) 4 4 s' = OK [0; 16; 0; 0] s'.
Proof.
  destruct sample_grown_ok as (l & Hus & Hw).
  destruct (user_copy (L := sample_link) (pg 0) 4 [0; 16; 0; 0] sample_grown l) as (s' & E & E' & _).
  - exact Hus.
  - lia.
  - repeat constructor; lia.
  - intros i Hi. apply Hw. unfold PGSIZE. simpl in Hi. lia.
  - exists s'. exact (conj E E').
Defined.

Lemma sample_page_ok va : 0 <= va < PGSIZE -> mapped (ram sample_page) (pg 0) va = true.
Proof.
  intros Hva. destruct sample_grown_ok as (l & Hus & Hw).
  destruct (st_bytes_run (L := sample_link) (pg 0) 4 [0; 16; 0; 0] sample_grown l Hus) as (s' & E & _ & Hp & _).
  - lia.
  - intros i Hi. apply Hw. unfold PGSIZE. simpl in Hi. lia.
  - assert (Es : sample_page = s') by (unfold sample_page; by rewrite E). rewrite Es. unfold mapped. rewrite Hp.
    destruct (Hw va Hva) as [[_ Hm] _]. exact Hm.
Qed.

Lemma arguments_safe_witness :
  exists r, argptr 0 0 16 (sample_state (-1)) = Done r (sample_state (-1)).
Proof.
  destruct (arguments_safe 0 (sample_state (-1)) 0 16) as [(r & E & _) _].
  - reflexivity.
  - simpl. unfold KERNBASE, PGSIZE. lia.
  - intros va Hva. exact (sample_page_ok va Hva).
  - lia.
  - exists r. exact E.
Defined.

Lemma sample_argument : argint 0 0 (sample_state 3) = Done (Some 4096) (sample_state 3).
Proof.
  assert (E : word_of (ubyte (ram sample_page) (pg 0) <$> seqZ 4 4) = 4096) by (vm_compute; reflexivity).
  rewrite (argint_read 0 (sample_state 3) 0); [by rewrite <- E|vm_compute; discriminate|].
  intros i Hi. change (4 <= i < 8) in Hi. split; [unfold uva, KERNBASE; lia|]. apply sample_page_ok. unfold PGSIZE. lia.
Qed.

Lemma thread_argument_faults_witness :
  argptr 0 0 16 (sample_state 3) = Done (Some 4096) (sample_state 3)
  /\ uread 0 4096 16 (sample_state 3) = Halt "trap" (sample_state 3).
Proof.
  apply (thread_argument_faults 0 (sample_state 3) 0 16 4096).
  - discriminate.
  - apply sample_argument.
  - lia.
  - lia.
  - vm_compute. discriminate.
  - vm_compute. reflexivity.
Defined.
