(* ===== verification/PathFacts.v ===== *)
(** Path names: what skipelem of fs.c makes of a path. *)

From S2P Require Import Prelude Mmu Kalloc Kernel Sched Pipe Fsys Field Bio Log Console Fs.

(** * Paths *)

(** The names that namex looks up one after the other. *)
Fixpoint elements (path : list Z) (fuel : nat) : list (list Z) :=
  match fuel with
  | O => []
  | S fuel => match skipelem path with None => [] | Some (rest, name) => name :: elements rest fuel end
  end.

(** The parts of a list between the elements [c]. *)
Fixpoint split_at (c : Z) (l : list Z) : list (list Z) :=
  match l with
  | [] => [[]]
  | x :: l => if x =? c then [] :: split_at c l
              else match split_at c l with [] => [[x]] | p :: ps => (x :: p) :: ps end
  end.

(** The names of a path: its parts between slashes that are not empty, each
    cut to the length of a name. *)
Definition path_names (path : list Z) : list (list Z) :=
  take (Z.to_nat DIRSIZ) <$> filter (fun p => p <> []) (split_at 47 path).

Lemma split_at_cons c l : exists p ps, split_at c l = p :: ps.
Proof. destruct l as [|x l]; simpl; [by eexists _, _|]. destruct (x =? c); [by eexists _, _|]. destruct (split_at c l); by eexists _, _. Qed.

Lemma names_skip path : path_names (skip_slashes path) = path_names path.
Proof. induction path as [|c path IH]; [done|]. simpl. destruct (Z.eqb_spec c 47) as [->|]; [|done]. by rewrite IH. Qed.

Lemma take_elem_split path :
  split_at 47 path = fst (take_elem path) ::
    match snd (take_elem path) with [] => [] | _ :: rest => split_at 47 rest end
  /\ (forall c rest, snd (take_elem path) = c :: rest -> c = 47).
Proof.
  induction path as [|c path [IH1 IH2]]; [done|]. simpl. destruct (Z.eqb_spec c 47) as [->|Hne].
  - split; [done|]. by intros ? ? [= <-].
  - destruct (take_elem path) as [e rest]. simpl in *. split; [by rewrite IH1|done].
Qed.

Lemma take_elem_length path :
  length path = (length (fst (take_elem path)) + length (snd (take_elem path)))%nat.
Proof.
  induction path as [|c path IH]; [done|]. simpl. destruct (c =? 47); [done|].
  destruct (take_elem path) as [e rest]. simpl in *. lia.
Qed.

Lemma length_skip path : (length (skip_slashes path) <= length path)%nat.
Proof. induction path as [|c path IH]; [done|]. simpl. destruct (c =? 47); simpl; lia. Qed.

Lemma skip_first path c rest : skip_slashes path = c :: rest -> c <> 47.
Proof. induction path as [|x path IH]; [done|]. simpl. destruct (Z.eqb_spec x 47); [done|]. by intros [= <-]. Qed.

(** One element. *)
Lemma skipelem_names path :
  match skipelem path with
  | None => path_names path = []
  | Some (rest, name) => path_names path = name :: path_names rest /\ (length rest < length path)%nat
  end.
Proof.
  unfold skipelem. rewrite <- (names_skip path). pose proof (length_skip path) as Hl.
  destruct (skip_slashes path) as [|c p] eqn:E; [done|]. pose proof (skip_first _ _ _ E) as Hc.
  destruct (take_elem_split (c :: p)) as [Hs Hr]. pose proof (take_elem_length (c :: p)) as Hlen.
  assert (Hf : fst (take_elem (c :: p)) <> []).
  { simpl. rewrite (proj2 (Z.eqb_neq _ _) Hc). by destruct (take_elem p). }
  destruct (take_elem (c :: p)) as [e rest]. simpl fst in *. simpl snd in *. split.
  - unfold path_names. rewrite Hs, filter_cons_True by done. simpl. f_equal.
    fold (path_names (skip_slashes rest)). rewrite names_skip. destruct rest as [|x rest]; [done|].
    rewrite (Hr x rest eq_refl). done.
  - pose proof (length_skip rest). destruct e; [done|]. simpl in *. lia.
Qed.

(** A path is what is between its slashes. The names that skipelem
    yields one after the other, until it returns 0, are the parts of the
    path between slashes that are not empty, each cut to 14 characters; the
    loop of namex ends after at most as many turns as the path has
    characters. *)
Theorem path_elements path fuel : (length path < fuel)%nat -> elements path fuel = path_names path.
Proof.
  revert path. induction fuel as [|fuel IH]; intros path Hl; [lia|]. simpl. pose proof (skipelem_names path) as H.
  destruct (skipelem path) as [[rest name]|]; [|done]. destruct H as [-> Hlt]. f_equal. apply IH. lia.
Qed.

(** "//a/./bc" *)
Lemma path_elements_witness : elements [47; 47; 97; 47; 46; 47; 98; 99] 9 = [[97]; [46]; [98; 99]].
Proof. rewrite (path_elements [47; 47; 97; 47; 46; 47; 98; 99] 9); [reflexivity|simpl; lia]. Defined.
