(* ===== verification/ConsoleFacts.v ===== *)
(** The console: the screen stays inside its 24 lines, and the line
    discipline of consoleintr edits a line until it is complete. *)

From S2P Require Import Prelude Mmu Kalloc Kernel Sched Rely Fsys Bio Log Console Life Solo BioFacts LogFacts Crash IoFacts.

(** * The screen *)

Record screen_ok (c : console_t) : Prop := {
  sc_pos : 0 <= cn_pos c < 24 * 80;
  sc_crt : length (cn_crt c) = 2000%nat }.

(** [c'] has the same input as [c]. *)
Record same_input (c c' : console_t) : Prop := {
  si_buf : cn_buf c' = cn_buf c;
  si_r : cn_r c' = cn_r c;
  si_w : cn_w c' = cn_w c;
  si_e : cn_e c' = cn_e c }.

Lemma same_input_trans c1 c2 c3 : same_input c1 c2 -> same_input c2 c3 -> same_input c1 c3.
Proof. intros [] []. split; congruence. Qed.

Definition with_cons (c : console_t) (r : fsys) : fsys := set_fs_cons c r.

Lemma advance_ok ch c :
  screen_ok c -> let c' := cga_advance ch c in
  0 <= cn_pos c' <= 24 * 80 /\ length (cn_crt c') = 2000%nat /\ same_input c c'.
Proof.
  intros [Hp Hc]. unfold cga_advance. destruct (ch =? 10); [simpl; split_and!; [lia..|done|done]|].
  destruct (ch =? BACKSPACE); [|simpl; rewrite length_insert; split_and!; [lia..|done|done]].
  destruct (Z.ltb_spec 0 (cn_pos c)); simpl; split_and!; try lia; done.
Qed.

Lemma scroll_ok c :
  cn_pos c = 24 * 80 -> length (cn_crt c) = 2000%nat -> screen_ok (cga_scroll c) /\ same_input c (cga_scroll c).
Proof.
  intros Hp Hc. split; [|done]. unfold cga_scroll. rewrite Hp. split; simpl; [lia|].
  rewrite length_blit; rewrite ?length_app; unfold slice; rewrite ?length_take, ?length_drop; cbn [length]; lia.
Qed.

(** * The input *)

(** The input buffer: [ready] are the characters that a reader may take, and
    [line] those of the line that is being typed. *)
Record view (c : console_t) (ready line : list Z) : Prop := {
  vw_screen : screen_ok c;
  vw_buf : length (cn_buf c) = 128%nat;
  vw_len : (length (ready ++ line) <= 128)%nat;
  vw_r : 0 <= cn_r c < 2 ^ 32;
  vw_w : cn_w c = u32 (cn_r c + Z.of_nat (length ready));
  vw_e : cn_e c = u32 (cn_r c + Z.of_nat (length (ready ++ line)));
  vw_char : forall i, (i < length (ready ++ line))%nat ->
    cn_buf c !!! Z.to_nat ((cn_r c + Z.of_nat i) mod 128) = (ready ++ line) !!! i;
  vw_line : 10 ∉ line }.

(** What a character does to the input: ^P lists the processes, ^U erases
    the line, ^H and DEL erase a character of it; any other but nul is added
    to the line while there is room, a carriage return as a newline; a
    newline, ^D or a full buffer completes the line. *)
Definition edit (st : list Z * list Z) (ch : Z) : list Z * list Z :=
  let '(ready, line) := st in
  if ch =? 16 then st
  else if ch =? 21 then (ready, [])
  else if (ch =? 8) || (ch =? 127) then (ready, take (length line - 1) line)
  else if (ch =? 0) || (128 <=? length (ready ++ line))%nat then st
  else
    let ch := if ch =? 13 then 10 else ch in
    let line := line ++ [ch] in
    if (ch =? 10) || (ch =? 4) || (length (ready ++ line) =? 128)%nat then (ready ++ line, []) else (ready, line).

Lemma view_same c c' ready line : view c ready line -> same_input c c' -> screen_ok c' -> view c' ready line.
Proof. intros [V1 V2 V3 V4 V5 V6 V7 V8] [E1 E2 E3 E4] Hs. split; rewrite ?E1, ?E2, ?E3, ?E4; done. Qed.

Lemma u32_diff a b n : 0 <= a < 2 ^ 32 -> b = u32 (a + n) -> 0 <= n < 2 ^ 32 -> u32 (b - a) = n.
Proof. unfold u32. intros. subst. lia. Qed.

Lemma view_full c ready line : view c ready line -> u32 (cn_e c - cn_r c) = Z.of_nat (length (ready ++ line)).
Proof. intros V. eapply u32_diff; [apply V|apply V|]. pose proof (vw_len _ _ _ V). lia. Qed.

(** The line is empty when e = w. *)
Lemma view_empty c ready line : view c ready line -> cn_e c = cn_w c <-> line = [].
Proof.
  intros [V1 V2 V3 V4 V5 V6 V7 V8]. rewrite V5, V6. rewrite length_app in *. split; [|intros ->; simpl; do 2 f_equal; lia].
  intros E. destruct line; [done|]. exfalso. unfold u32 in E. simpl in *. lia.
Qed.

(** Erasing the last character of the line. *)
Lemma view_erase c ready line ch :
  view c ready (line ++ [ch]) -> view (set_cn_e (u32 (cn_e c - 1)) c) ready line.
Proof.
  intros [V1 V2 V3 V4 V5 V6 V7 V8]. rewrite !app_assoc in *. rewrite length_app in *. simpl in *.
  split; simpl; try done; [by destruct V1|lia| | |].
  - rewrite V6. unfold u32. lia.
  - intros i Hi. rewrite V7 by lia. rewrite !list_lookup_total_alt. by rewrite lookup_app_l by lia.
  - set_solver.
Qed.

(** The last character of the line. *)
Lemma view_last c ready line ch :
  view c ready (line ++ [ch]) -> input_at c (u32 (cn_e c - 1)) = ch /\ ch <> 10.
Proof.
  intros [V1 V2 V3 V4 V5 V6 V7 V8]. rewrite !app_assoc in *. rewrite length_app in *. simpl in *. split; [|set_solver].
  unfold input_at, INPUT_BUF. rewrite V6.
  replace (u32 (u32 (cn_r c + Z.of_nat (length (ready ++ line) + 1)) - 1) mod 128)
    with ((cn_r c + Z.of_nat (length (ready ++ line))) mod 128) by (unfold u32; lia).
  rewrite V7 by lia. rewrite list_lookup_total_alt. rewrite lookup_app_r, Nat.sub_diag by lia. done.
Qed.

(** Adding a character. *)
Definition typed (ch : Z) (c : console_t) : console_t :=
  set_cn_e (u32 (cn_e c + 1)) (set_cn_buf (<[Z.to_nat (cn_e c mod INPUT_BUF) := ch]> (cn_buf c)) c).

Lemma typed_char c ready line ch :
  view c ready line -> (length (ready ++ line) < 128)%nat ->
  cn_e (typed ch c) = u32 (cn_r c + Z.of_nat (length (ready ++ line ++ [ch])))
  /\ forall i, (i < length (ready ++ line ++ [ch]))%nat ->
       cn_buf (typed ch c) !!! Z.to_nat ((cn_r c + Z.of_nat i) mod 128) = (ready ++ line ++ [ch]) !!! i.
Proof.
  intros [V1 V2 V3 V4 V5 V6 V7 V8] Hl. rewrite !app_assoc. rewrite length_app. simpl length.
  split; [unfold typed; simpl; rewrite V6; unfold u32; lia|]. intros i Hi. unfold typed, INPUT_BUF. simpl.
  rewrite V6. replace (u32 (cn_r c + Z.of_nat (length (ready ++ line))) mod 128)
    with ((cn_r c + Z.of_nat (length (ready ++ line))) mod 128) by (unfold u32; lia).
  rewrite !list_lookup_total_alt. destruct (decide (i = length (ready ++ line))) as [->|Hne].
  - rewrite list_lookup_insert_eq by lia. rewrite lookup_app_r, Nat.sub_diag by lia. done.
  - rewrite list_lookup_insert_ne by lia. rewrite lookup_app_l by lia. specialize (V7 i).
    rewrite !list_lookup_total_alt in V7. apply V7. lia.
Qed.

Section console.
Context (me : nat) (p : Z).
Notation does := (does me p).

Lemma does_cset f L r : does (cset f) L r [] tt L (with_cons (f (fs_cons r)) r).
Proof. apply (does_fset _ _ (fun r => set_fs_cons (f (fs_cons r)) r)). Qed.

Lemma does_cget {A} (f : console_t -> A) L r : does (cget f) L r [] (f (fs_cons r)) L r.
Proof. apply (does_fget _ _ (fun r => f (fs_cons r))). Qed.

Lemma cgaputc_ok ch L r :
  screen_ok (fs_cons r) -> exists c', does (cgaputc ch) L r [] tt L (with_cons c' r)
    /\ screen_ok c' /\ same_input (fs_cons r) c'.
Proof.
  intros Hs. destruct (advance_ok ch _ Hs) as (Hp & Hl & Hi). set (c1 := cga_advance ch (fs_cons r)) in *.
  assert (Hput : forall c2, screen_ok c2 -> same_input c1 c2 ->
    screen_ok (put_cell (cn_pos c2) (Z.lor 32 0x0700) c2) /\ same_input (fs_cons r) (put_cell (cn_pos c2) (Z.lor 32 0x0700) c2)).
  { intros c2 [H1 H2] H3. split; [split; simpl; [done|by rewrite length_insert]|].
    eapply same_input_trans; [exact Hi|]. eapply same_input_trans; [exact H3|done]. }
  assert (Hrun : forall c2, (if 24 <=? cn_pos c1 / 80 then c2 = cga_scroll c1 else c2 = c1) ->
    does (cgaputc ch) L r [] tt L (with_cons (put_cell (cn_pos c2) (Z.lor 32 0x0700) c2) r)).
  { intros c2 Hc2. unfold cgaputc. eapply does_step; [apply does_cset|]. fold c1.
    eapply does_step; [apply does_cget|]. cbn [fs_cons with_cons set_fs_cons].
    rewrite (proj2 (Z.ltb_ge _ _)), (proj2 (Z.ltb_ge _ _)) by lia. simpl.
    destruct (24 <=? cn_pos c1 / 80); subst c2.
    - eapply does_step; [apply does_cset|]. eapply does_step; [apply does_cget|].
      eapply does_eq; [apply does_cset|reflexivity|reflexivity].
    - eapply does_step; [apply does_ret|]. eapply does_step; [apply does_cget|].
      eapply does_eq; [apply does_cset|reflexivity|reflexivity]. }
  destruct (Z.leb_spec 24 (cn_pos c1 / 80)) as [Hge|Hlt].
  - destruct (scroll_ok c1) as [Hs2 Hi2]; [lia|done|]. eexists. split; [by apply (Hrun (cga_scroll c1))|by apply Hput].
  - eexists. split; [by apply (Hrun c1)|]. apply Hput; [|done]. split; [lia|done].
Qed.

Lemma uart_ok ch L r : does (uartputc ch) L r [] tt L (with_cons (set_cn_uart (cn_uart (fs_cons r) ++ [ch]) (fs_cons r)) r).
Proof. apply (does_cset (fun c => set_cn_uart (cn_uart c ++ [ch]) c)). Qed.

Lemma consputc_ok ch L r :
  screen_ok (fs_cons r) -> exists c', does (consputc ch) L r [] tt L (with_cons c' r)
    /\ screen_ok c' /\ same_input (fs_cons r) c'.
Proof.
  intros Hs. unfold consputc.
  assert (Hu : exists u, does (if ch =? BACKSPACE then uartputc 8;; uartputc 32;; uartputc 8 else uartputc ch) L r [] tt L
    (with_cons (set_cn_uart u (fs_cons r)) r)).
  { destruct (ch =? BACKSPACE); [|eexists; apply uart_ok].
    eexists. eapply does_step; [apply uart_ok|]. eapply does_step; [apply uart_ok|].
    eapply does_eq; [apply uart_ok|done|]. simpl. reflexivity. }
  destruct Hu as [u Hu]. set (r1 := with_cons (set_cn_uart u (fs_cons r)) r) in *.
  destruct (cgaputc_ok ch L r1) as (c' & D & Hs' & Hi); [by destruct Hs|].
  exists c'. split_and!; [|done|]. { by eapply does_step. } destruct Hi. by split.
Qed.

(** [m] ends with the input [st], and changes nothing but the console. *)
Definition gives (m : KF unit) (L : list lock) (r : fsys) (st : list Z * list Z) : Prop :=
  exists c', does m L r [] tt L (with_cons c' r) /\ view c' (fst st) (snd st).

Lemma with_cons_id r : with_cons (fs_cons r) r = r.
Proof. by destruct r. Qed.

Lemma gives_ret L r ready line : view (fs_cons r) ready line -> gives (mret tt) L r (ready, line).
Proof. intros V. exists (fs_cons r). rewrite with_cons_id. split; [apply does_ret|done]. Qed.

(** A character is erased from the line and from the screen. *)
Lemma erase_ok L r ready line ch :
  view (fs_cons r) ready (line ++ [ch]) ->
  exists c1 c2, does (cset (set_cn_e (u32 (cn_e (fs_cons r) - 1)))) L r [] tt L (with_cons c1 r)
    /\ does (consputc BACKSPACE) L (with_cons c1 r) [] tt L (with_cons c2 r) /\ view c2 ready line.
Proof.
  intros V. pose proof (view_erase _ _ _ _ V) as V1. set (c1 := set_cn_e _ _) in V1.
  destruct (consputc_ok BACKSPACE L (with_cons c1 r)) as (c2 & D2 & S2 & I2); [apply V1|].
  exists c1, c2. split_and!; [apply does_cset|exact D2|]. by eapply view_same.
Qed.

Lemma kill_line_ok fuel L r ready line :
  view (fs_cons r) ready line -> (length line < fuel)%nat -> gives (kill_line fuel) L r (ready, []).
Proof.
  revert r line. induction fuel as [|fuel IH]; intros r line V Hf; [lia|]. cbn [kill_line].
  pose proof (view_empty _ _ _ V) as Hem. destruct line as [|ch line _] using rev_ind.
  - exists (fs_cons r). rewrite with_cons_id. split; [|done]. eapply does_step; [apply does_cget|]. cbv beta.
    rewrite (proj2 (Z.eqb_eq _ _)) by tauto. apply does_ret.
  - destruct (view_last _ _ _ _ V) as [Hl Hn]. rewrite length_app in Hf. simpl in Hf.
    destruct (erase_ok L r ready line ch V) as (c1 & c2 & D1 & D2 & V2).
    destruct (IH (with_cons c2 r) line V2) as (c' & D & V'); [lia|].
    exists c'. split; [|done]. eapply does_step; [apply does_cget|]. cbv beta.
    rewrite (proj2 (Z.eqb_neq (cn_e _) _)) by (rewrite Hem; by intros [_ ?]%app_nil).
    rewrite Hl, (proj2 (Z.eqb_neq _ _) Hn).
    eapply does_step; [exact D1|]. eapply does_step; [exact D2|]. exact D.
Qed.

(** A character is added to the line. *)
Lemma typed_ok L r ready line ch :
  LPtable ∉ L -> view (fs_cons r) ready line -> (length (ready ++ line) < 128)%nat -> ch <> 13 ->
  let line' := line ++ [ch] in
  gives (cset (typed ch);;
         consputc ch;;
         c ← cget (fun c => c);
         if (ch =? 10) || (ch =? 4) || (cn_e c =? u32 (cn_r c + INPUT_BUF)) then
           cset (set_cn_w (cn_e c));; wakeup (Some input_chan)
         else mret tt) L r
    (if (ch =? 10) || (ch =? 4) || (length (ready ++ line') =? 128)%nat then (ready ++ line', []) else (ready, line')).
Proof.
  intros HL V Hlt Hch line'. destruct (typed_char _ _ _ ch V Hlt) as [He Hc]. fold line' in He, Hc.
  pose proof V as [V1 V2 V3 V4 V5 V6 V7 V8]. set (c1 := typed ch (fs_cons r)) in *.
  destruct (consputc_ok ch L (with_cons c1 r)) as (c2 & D2 & S2 & [I1 I2 I3 I4]); [by destruct V1|].
  cbn [fs_cons with_cons set_fs_cons] in I1, I2, I3, I4. change (cn_r c1) with (cn_r (fs_cons r)) in I2. change (cn_w c1) with (cn_w (fs_cons r)) in I3.
  assert (Hfull : (cn_e c2 =? u32 (cn_r c2 + INPUT_BUF)) = (length (ready ++ line') =? 128)%nat).
  { assert (Hl : (length (ready ++ line') <= 128)%nat) by (unfold line'; rewrite !length_app in *; simpl; lia).
    rewrite I4, He, I2. unfold INPUT_BUF. destruct (Nat.eqb_spec (length (ready ++ line')) 128) as [->|Hne]; [apply Z.eqb_refl|].
    apply Z.eqb_neq. unfold u32. lia. }
  assert (Hl' : (length (ready ++ line') <= 128)%nat) by (unfold line'; rewrite !length_app in *; simpl; lia).
  assert (Hbuf : length (cn_buf c2) = 128%nat) by (rewrite I1; unfold c1; simpl; by rewrite length_insert).
  set (b := (ch =? 10) || (ch =? 4) || (length (ready ++ line') =? 128)%nat) in *.
  exists (if b then set_cn_w (cn_e c2) c2 else c2). split.
  - eapply does_step; [apply does_cset|]. eapply does_step; [exact D2|]. eapply does_step; [apply does_cget|].
    cbn [fs_cons with_cons set_fs_cons]. rewrite Hfull. fold b. destruct b; [|apply does_ret].
    eapply does_step; [apply does_cset|]. by apply does_wakeup.
  - destruct b eqn:E; simpl; (split; simpl; rewrite ?app_nil_r; try done).
    + by destruct S2.
    + by rewrite I2.
    + by rewrite I4, He, I2.
    + by rewrite I4, He, I2.
    + by rewrite I1, I2.
    + set_solver.
    + by rewrite I2.
    + by rewrite I3, V5, I2.
    + by rewrite I4, He, I2.
    + by rewrite I1, I2.
    + unfold line'. intros [?|E']%elem_of_app; [done|]. apply list_elem_of_singleton in E' as <-. done.
Qed.

Lemma input_char_ok L r ready line ch :
  LPtable ∉ L -> view (fs_cons r) ready line -> gives (input_char ch) L r (edit (ready, line) ch).
Proof.
  intros HL V. unfold input_char.
  assert (Hget : forall m st, gives (m (fs_cons r)) L r st -> gives (c ← cget (fun c => c); m c) L r st).
  { intros m st (c' & D & V'). exists c'. split; [|done]. eapply does_step; [apply does_cget|exact D]. }
  apply Hget. unfold edit. destruct (ch =? 16); [by apply gives_ret|]. destruct (ch =? 21).
  { apply (kill_line_ok _ L r ready line V). pose proof (vw_len _ _ _ V). rewrite length_app in *. unfold INPUT_BUF. lia. }
  pose proof (view_empty _ _ _ V) as Hem. destruct ((ch =? 8) || (ch =? 127)).
  { destruct line as [|x line _] using rev_ind.
    - rewrite (proj2 (Z.eqb_eq _ _)) by tauto. by apply gives_ret.
    - rewrite (proj2 (Z.eqb_neq (cn_e _) _)) by (rewrite Hem; by intros [_ ?]%app_nil). simpl.
      rewrite length_app, Nat.add_sub, take_app_length.
      destruct (erase_ok L r ready line x V) as (c1 & c2 & D1 & D2 & V2).
      exists c2. split; [|done]. eapply does_step; [exact D1|exact D2]. }
  rewrite (view_full _ _ _ V). unfold INPUT_BUF at 1. destruct (Z.eqb_spec ch 0); [by apply gives_ret|]. cbn [negb andb orb].
  destruct (Nat.leb_spec 128 (length (ready ++ line))) as [Hge|Hlt].
  { rewrite (proj2 (Z.ltb_ge _ _)) by lia. by apply gives_ret. }
  rewrite (proj2 (Z.ltb_lt _ _)) by lia. apply (typed_ok L r ready line); [done|done|done|].
  by destruct (Z.eqb_spec ch 13).
Qed.

Lemma input_chars_ok L r ready line dump l :
  LPtable ∉ L -> view (fs_cons r) ready line ->
  exists c', does (input_chars dump (mret <$> l)) L r [] (dump || existsb (Z.eqb 16) l) L (with_cons c' r)
    /\ view c' (foldl edit (ready, line) l).1 (foldl edit (ready, line) l).2.
Proof.
  intros HL. revert r ready line dump. induction l as [|ch l IH]; intros r ready line dump V.
  { exists (fs_cons r). rewrite with_cons_id, orb_false_r. split; [apply does_ret|done]. }
  destruct (input_char_ok L r ready line ch HL V) as (c1 & D1 & V1).
  destruct (IH (with_cons c1 r) _ _ (dump || (ch =? 16)) V1) as (c2 & D2 & V2). exists c2. cbn [fmap list_fmap input_chars foldl existsb]. rewrite <- surjective_pairing in *.
  split; [|done]. eapply does_step; [apply does_ret|]. eapply does_step; [exact D1|].
  rewrite (Z.eqb_sym 16 ch), orb_assoc. exact D2.
Qed.

(** * Output that leaves the input alone *)

(** [m] ends, and only prints. *)
Definition prints (m : KF unit) : Prop := forall r s,
  at_ me p [] r s -> screen_ok (fs_cons r) ->
  exists s' c', solo me (m s) = (Some (tt, s'), []) /\ at_ me p [] (with_cons c' r) s' /\
    screen_ok c' /\ same_input (fs_cons r) c'.

Lemma prints_bind m (k : unit -> KF unit) : prints m -> prints (k tt) -> prints (m ≫= k).
Proof.
  intros Hm Hk r s Hs Hok. destruct (Hm r s Hs Hok) as (s1 & c1 & E1 & H1 & O1 & I1).
  destruct (Hk _ s1 H1 O1) as (s2 & c2 & E2 & H2 & O2 & I2). exists s2, c2. unfold mbind, K_bind.
  rewrite (solo_bind _ _ _ _ _ _ E1), E2. split_and!; [done|done|done|]. by eapply same_input_trans.
Qed.

Lemma prints_ret : prints (mret tt).
Proof. intros r s Hs Hok. exists s, (fs_cons r). by rewrite with_cons_id. Qed.

(** A value that is read from the state may be any value. *)
Lemma prints_read {A} (g : kst fsys -> A) (k : A -> KF unit) :
  (forall a, prints (k a)) -> prints ((fun s => Done (g s) s) ≫= k).
Proof. intros Hk r s. apply Hk. Qed.

Lemma consputs_ok l L r :
  screen_ok (fs_cons r) -> exists c', does (consputs l) L r [] tt L (with_cons c' r)
    /\ screen_ok c' /\ same_input (fs_cons r) c'.
Proof.
  revert r. induction l as [|ch l IH]; intros r Hs; simpl.
  { exists (fs_cons r). rewrite with_cons_id. split; [apply does_ret|done]. }
  destruct (consputc_ok ch L r Hs) as (c1 & D1 & S1 & I1). destruct (IH (with_cons c1 r) S1) as (c2 & D2 & S2 & I2).
  exists c2. split_and!; [by eapply does_step|done|by eapply same_input_trans].
Qed.

Lemma cprintf_ok fmt args r :
  screen_ok (fs_cons r) -> exists c', does (cprintf fmt args) [] r [] tt [] (with_cons c' r)
    /\ screen_ok c' /\ same_input (fs_cons r) c'.
Proof.
  intros Hok. destruct (consputs_ok (cformat fmt args) (if negb (cn_locking (fs_cons r)) then [] else [cons_lock]) r Hok)
    as (c' & D & S' & I').
  exists c'. split; [|done]. unfold cprintf. eapply does_step; [apply does_cget|]. destruct (negb (cn_locking (fs_cons r))).
  - eapply does_step; [apply does_ret|]. eapply does_step; [exact D|apply does_ret].
  - eapply does_step; [apply does_acquire; set_solver|]. eapply does_step; [exact D|apply does_release; set_solver].
Qed.

Lemma prints_cprintf fmt args : prints (cprintf fmt args).
Proof.
  intros r s Hs Hok. destruct (cprintf_ok fmt args r Hok) as (c' & Hd & H). destruct (Hd s Hs) as (s' & E & Hs'). by exists s', c'.
Qed.

Lemma prints_procdump context : prints (procdump context).
Proof.
  assert (forall l, prints (dump_pcs l)) as Hpcs.
  { induction l as [|c l IH]; simpl; [apply prints_ret|]. destruct (c =? 0); [apply prints_ret|].
    by apply prints_bind; [apply prints_cprintf|]. }
  unfold procdump. generalize (seq 0 NPROC). induction l as [|i l IH]; simpl; [apply prints_ret|].
  apply prints_bind; [|done]. unfold dump_proc. apply (prints_read (fun s => slot_of s i)). intros q.
  case_decide; [apply prints_ret|]. apply prints_bind; [apply prints_cprintf|].
  apply (prints_read (fun s => state (slot_of s i))). intros st. apply prints_bind; [|apply prints_cprintf].
  case_decide; [|apply prints_ret]. intros r s Hs. destruct s. by apply (Hpcs _ r).
Qed.

End console.

(** C23: The line discipline of the console. However many characters come
    in, consoleintr ends without a panic and without going off the screen,
    and has made of the input what the edits make of it, one after the
    other: readers get the lines that are complete, in the order in which
    they were typed and at most 128 characters at a time, with what was
    erased left out. *)
Theorem line_discipline me p context s ready line l :
  at_ me p [] (fs s) s -> view (fs_cons (fs s)) ready line ->
  exists s' c', solo me (uartintr context l s) = (Some (tt, s'), []) /\ fs s' = with_cons c' (fs s)
    /\ view c' (fst (foldl edit (ready, line) l)) (snd (foldl edit (ready, line) l)).
Proof.
  intros Hs V. destruct (input_chars_ok me p [cons_lock] (fs s) ready line false l) as (c1 & D & V1); [set_solver|done|].
  set (dump := false || existsb (Z.eqb 16) l) in D.
  destruct (does_acquire me p cons_lock [] (fs s) ltac:(set_solver) s Hs) as (sa & Ea & Ha). destruct (D sa Ha) as (sb & Eb & Hb).
  destruct (does_release me p cons_lock [] _ ltac:(set_solver) sb Hb) as (s1 & E1 & H1).
  assert (prints me p (if dump then procdump context else mret tt)) as Hp
    by (destruct dump; [apply prints_procdump|apply prints_ret]).
  destruct (Hp _ s1 H1 (vw_screen _ _ _ V1)) as (s2 & c2 & E2 & H2 & O2 & I2). exists s2, c2.
  split_and!; [|by rewrite (at_fs _ _ _ _ _ H2)|by eapply view_same].
  unfold uartintr, consoleintr, mbind, K_bind. rewrite (solo_bind _ _ _ _ _ _ Ea). rewrite (solo_bind _ _ _ _ _ _ Eb).
  rewrite (solo_bind _ _ _ _ _ _ E1). by rewrite E2.
Qed.

(** Typing a, b, backspace, c and return. *)
Lemma line_discipline_witness :
  exists s' c', solo 0 (uartintr (fun _ => 0) [97; 98; 8; 99; 13] (sample_kst sample_boot)) = (Some (tt, s'), [])
    /\ fs s' = with_cons c' sample_boot /\ view c' [97; 99; 10] [].
Proof.
  apply (line_discipline 0 1 (fun _ => 0) (sample_kst sample_boot) [] [] [97; 98; 8; 99; 13]).
  - apply sample_at.
  - split; try done; simpl; try lia; set_solver.
Defined.
