(* ===== verification/Forkret.v ===== *)
(** forkret: the first process of a machine that was switched off or crashed
    brings the disk back to a consistent state before it runs. *)

From S2P Require Import Prelude Mmu Kalloc Kernel Sched Rely Fsys Field Bio Log Console Fs Life Solo BioFacts LogFacts Crash IoFacts ConsoleFacts.

Section forkret.
Context (me : nat) (p : Z) (t : nat).
Notation turns := (S (S t)).
Notation does := (does me p).

(** The start of the file system changes the inode cache, the superblock and
    the console, and leaves the disk and the buffers alone. *)
Lemma started_icache d l r : started p d r -> started p d (set_fs_icache l r).
Proof. intros (C & H). split; [by destruct C|exact H]. Qed.

Lemma started_sb d sb r : started p d r -> started p d (set_fs_sb sb r).
Proof. intros (C & H). split; [by destruct C|exact H]. Qed.

Lemma started_cons d c r : started p d r -> started p d (with_cons c r).
Proof. intros (C & H). split; [by destruct C|exact H]. Qed.

Lemma unlock_inodes l d r :
  started p d r -> exists r', does (for_each (fun i => iset i (set_i_lock sl0)) l) [] r [] tt [] r' /\ started p d r' /\ fs_cons r' = fs_cons r.
Proof.
  revert r. induction l as [|i l IH]; intros r St; simpl; [exists r; split; [apply does_ret|done]|].
  destruct (IH (set_fs_icache (alter (set_i_lock sl0) i (fs_icache r)) r)) as (r' & D & H); [by apply started_icache|].
  exists r'. split; [|exact H]. eapply does_step; [apply does_fset|exact D].
Qed.

(** readsb, from a machine that has just started. *)
Lemma readsb_ok d r :
  started p d r -> exists r' T, does (readsb turns me ROOTDEV) [] r T (rdsb (dblk d 1)) [] r' /\ started p d r' /\
    Forall (eq d) T /\ fs_cons r' = fs_cons r.
Proof.
  intros (C & Hd & Hk & Hb & Hl).
  destruct (read_ok me p t r 1 (fun _ l => l) (fun _ => tt) C) as (i & r1 & r2 & r3 & T1 & D1 & B1 & E2 & D3 & F1 & C3 & Hk3 & Hd3 & Hb3 & El1 & El3 & _ & Ec3);
    [done..|].
  assert (r2 = r1) as ->. { rewrite E2, <- El1. by destruct r1. } rewrite Hk in F1. exists r3, T1. split; [|split; [|done]].
  - unfold readsb. eapply does_eq; [eapply does_bind; [exact D1|]|apply app_nil_r|reflexivity].
    eapply does_step; [apply does_bget|]. eapply does_step; [exact D3|]. rewrite B1, Hb. apply does_ret.
  - split_and!; [done|done|by rewrite Hk3|intros b; by rewrite Hb3|by rewrite El3].
Qed.

Lemma iinit_ok d r :
  started p d r -> screen_ok (fs_cons r) ->
  exists r' T, does (iinit turns me ROOTDEV) [] r T tt [] r' /\ started p d r' /\ Forall (eq d) T /\ fs_sb r' = rdsb (dblk d 1).
Proof.
  intros St Hs. destruct (unlock_inodes (seq 0 NINODE) d r St) as (r1 & D1 & St1 & E1).
  destruct (readsb_ok d r1 St1) as (r2 & T & D2 & St2 & F & E2). set (sb := rdsb (dblk d 1)) in *. set (r3 := set_fs_sb sb r2).
  assert (screen_ok (fs_cons r3)) as Hs3 by (change (screen_ok (fs_cons r2)); by rewrite E2, E1).
  destruct (cprintf_ok me p sb_text [PInt (sb_size sb); PInt (sb_nblocks sb); PInt (sb_ninodes sb); PInt (sb_nlog sb);
    PInt (sb_logstart sb); PInt (sb_inodestart sb); PInt (sb_bmapstart sb)] r3 Hs3) as (c' & D4 & _).
  exists (with_cons c' r3), T. split; [|split; [by apply started_cons, started_sb|by split]].
  unfold iinit. eapply does_step; [exact D1|]. rewrite <- (app_nil_r T). eapply does_bind; [exact D2|].
  eapply does_step; [apply does_fset|]. exact D4.
Qed.
End forkret.

(** C5: When a machine starts from a disk on which a transaction was cut short,
    or on which a recovery was, forkret in the first process reads the
    superblock and recovers the log: it returns with no lock held, the disk
    outside the log is as before the transaction or as after it, and whatever
    command is the last before the next crash leaves a disk from which the next
    start recovers.  Later processes only release the lock of the table. *)
Theorem forkret_recovers start size bs old new me p t d sb ic cn s first :
  geometry start size bs -> old 1 = new 1 -> sb_logstart (rdsb (old 1)) = start -> crash_state start size bs old new d ->
  screen_ok cn -> at_ me p [LPtable] (boot d sb ic cn) s ->
  exists s' T, solo me (forkret (S (S t)) me first s) = (Some (false, s'), T) /\ at_ me p [] (fs s') s' /\
    if first : bool then
      fs_sb (fs s') = rdsb (old 1) /\ Forall (crash_state start size bs old new) T /\
      ((forall b, ~ region start size b -> dblk (fs_disk (fs s')) b = old b) \/
       (forall b, ~ region start size b -> dblk (fs_disk (fs s')) b = new b))
    else fs s' = fs s.
Proof.
  intros G Hon Hsb Hc Hcn Hs. assert (HL : LPtable ∉ []) by set_solver.
  destruct first.
  - assert (Hd1 : dblk d 1 = old 1).
    { assert (H1 : 1 ∉ bs) by (intros H; destruct (g_home _ _ _ G _ H); lia).
      assert (Hr1 : ~ region start size 1) by (destruct G; unfold region; lia).
      destruct Hc as [_ H|_ _ H|_ H]; rewrite H by done; done. }
    destruct (iinit_ok me p t d _ (boot_started p d sb ic cn) Hcn) as (r1 & T1 & D1 & St1 & F1 & E1).
    destruct (recover_ok me p t start size bs d r1 old new St1 G Hon Hsb Hc) as (r2 & T2 & D2 & _ & Hor & F2 & E2).
    assert (does me p (forkret (S (S t)) me true) [LPtable] (boot d sb ic cn) (T1 ++ T2) false [] r2) as D.
    { unfold forkret. eapply does_step; [by apply does_release|]. eapply does_bind; [exact D1|].
      rewrite <- (app_nil_r T2). eapply does_bind; [exact D2|]. apply does_ret. }
    destruct (D s Hs) as (s' & E & Hs'). exists s', (T1 ++ T2). rewrite (at_fs _ _ _ _ _ Hs'), E2, E1, Hd1.
    split_and!; try done. apply Forall_app_2; [|done]. eapply Forall_impl; [exact F1|]. by intros d' <-.
  - assert (does me p (forkret (S (S t)) me false) [LPtable] (boot d sb ic cn) [] false [] (boot d sb ic cn)) as D.
    { unfold forkret. eapply does_step; [by apply does_release|]. apply does_ret. }
    destruct (D s Hs) as (s' & E & Hs'). exists s', []. rewrite (at_fs _ _ _ _ _ Hs'), (at_fs _ _ _ _ _ Hs). by split_and!.
Qed.

(** A disk whose log holds a committed transaction of block 500 that was not
    installed, and the process that starts from it. *)
Definition cut_disk : disk_t :=
  <[2 := wr_head (LH 1 (500 :: replicate 29 0)) zero_block]> (<[3 := replicate 512 7]> sample_disk).
Definition cut_new (b : Z) : list Z := if decide (b = 500) then replicate 512 7 else dblk cut_disk b.
Definition first_kst : kst fsys :=
  Kst (Pmem (fun _ => 0) (Kmem false true 0)) [set_state RUNNING (set_pid 1 proc0)] 2 None [] ∅ 0 [LPtable] [LPtable] None
    (boot cut_disk sample_sb [] sample_cons).

Lemma cut_committed : crash_state 2 30 [500] (dblk sample_disk) cut_new cut_disk.
Proof.
  apply Committed.
  - unfold head_full, cut_disk. rewrite dblk_insert, decide_True by done. split; [by vm_compute|]. intros h0 Hh.
    unfold rd_head. replace (s32 _) with 1 by (by vm_compute). cbn -[s32 rd32 wr_head]. split; [done|]. intros [|i] Hi; [|cbn in Hi; lia].
    destruct h0 as [n [|x l]]; [done|]. by vm_compute.
  - intros [|i] Hi; [by vm_compute|cbn in Hi; lia].
  - intros b Hb H. unfold cut_new. rewrite decide_False by set_solver. done.
Qed.

Lemma forkret_recovers_witness :
  exists s' T, solo 0 (forkret 2 0 true first_kst) = (Some (false, s'), T) /\ at_ 0 1 [] (fs s') s' /\
    fs_sb (fs s') = rdsb (dblk sample_disk 1) /\ Forall (crash_state 2 30 [500] (dblk sample_disk) cut_new) T /\
    ((forall b, ~ region 2 30 b -> dblk (fs_disk (fs s')) b = dblk sample_disk b) \/
     (forall b, ~ region 2 30 b -> dblk (fs_disk (fs s')) b = cut_new b)).
Proof.
  apply (forkret_recovers 2 30 [500] (dblk sample_disk) cut_new 0 1 0 cut_disk sample_sb [] sample_cons first_kst true).
  - apply sample_geometry.
  - by vm_compute.
  - by vm_compute.
  - apply cut_committed.
  - split; try done; simpl; lia.
  - by split; [..|simpl; lia| |].
Defined.
