(* ===== verification/DirFacts.v ===== *)
(** Directories: dirlookup finds the first entry with a name, and dirlink
    adds a name without changing what the others stand for. *)

From S2P Require Import Prelude Mmu Kalloc Kernel Sched Rely Pipe Fsys Field Bio Log Console Fs Life Solo BioFacts LogFacts Crash Txn FsFacts FileFacts IoFacts Storage.

(** * Names *)

(** The first [n] characters of a string, with nuls after its end. *)
Fixpoint padded (n : nat) (s : list Z) : list Z :=
  match n with O => [] | S n => hd 0 s :: padded n (tl s) end.

Lemma padded_nil n : padded n [] = replicate n 0.
Proof. induction n as [|n IH]; [done|]. simpl. by rewrite IH. Qed.

Lemma padded_take n s : take n s ++ replicate (n - length (take n s)) 0 = padded n s.
Proof.
  revert s. induction n as [|n IH]; intros s; [by destruct s|]. destruct s as [|c s]; simpl; [by rewrite padded_nil|].
  by rewrite IH.
Qed.

Lemma pad_name_padded s : pad_name s = padded (Z.to_nat DIRSIZ) s.
Proof. apply padded_take. Qed.

(** strncmp of two strings in fields that are filled with nuls. *)
Lemma strncmp_padded n a b i j :
  0 ∉ a -> 0 ∉ b -> strncmp_ n (a ++ replicate i 0) (b ++ replicate j 0) = 0 <-> padded n a = padded n b.
Proof.
  assert (Hz : forall i, hd 0 (replicate i 0) = 0) by (by intros []).
  assert (Ht : forall i, tl (replicate i 0) = replicate (i - 1) 0) by (intros [|k]; simpl; [done|f_equal; lia]).
  revert a b. induction n as [|n IH]; intros a b Ha Hb; [done|]. cbn [strncmp_ padded].
  destruct a as [|x a], b as [|y b]; simpl; rewrite ?Hz, ?Ht.
  - done.
  - assert (y <> 0) by (intros ->; apply Hb; left). split; [intros E; simpl in E; lia|intros [= E _]; congruence].
  - assert (x <> 0) by (intros ->; apply Ha; left). rewrite (proj2 (Z.eqb_neq x 0)) by done. simpl.
    split; [destruct (Z.eqb_spec x 0); [done|lia]|intros [= E _]; congruence].
  - assert (Hx : x <> 0) by (intros ->; apply Ha; left). rewrite (proj2 (Z.eqb_neq x 0)) by done. simpl.
    destruct (Z.eqb_spec x y) as [->|Hne].
    + rewrite IH; [|intros ?; apply Ha; by right|intros ?; apply Hb; by right]. split; [by intros ->|by intros [= ?]].
    + split; [lia|]. by intros [= ? _].
Qed.

Lemma pad_name_app s : 0 ∉ s -> exists a i, pad_name s = a ++ replicate i 0 /\ 0 ∉ a /\ padded (Z.to_nat DIRSIZ) a = pad_name s.
Proof.
  intros Hs. exists (take (Z.to_nat DIRSIZ) s), (Z.to_nat DIRSIZ - length (take (Z.to_nat DIRSIZ) s))%nat. split_and!; [done| |].
  - intros [k [Hk _]%lookup_take_Some]%list_elem_of_lookup. apply Hs. by eapply list_elem_of_lookup_2.
  - rewrite <- padded_take, take_take, Nat.min_id. done.
Qed.

(** A name is that of a field exactly when the two agree up to 14
    characters. *)
Lemma namecmp_pad s s' : 0 ∉ s -> 0 ∉ s' -> namecmp s (pad_name s') = 0 <-> pad_name s = pad_name s'.
Proof.
  intros Hs Hs'. destruct (pad_name_app s' Hs') as (a & i & -> & Ha & E). unfold namecmp.
  rewrite <- (app_nil_r s) at 1. change [] with (replicate 0 (A := Z) 0) at 1.
  rewrite strncmp_padded by done. rewrite pad_name_padded, E. done.
Qed.

(** * Entries *)

(** Entry [k] of the directory [x]. *)
Definition entry (r : fsys) (x : inode) (k : Z) : list Z := fbyte r x <$> seqZ (DIRENT_SIZE * k) DIRENT_SIZE.

Definition has_name (name : list Z) (e : list Z) : bool := negb (de_inum e =? 0) && (namecmp name (de_name e) =? 0).

(** The first of the [n] entries from [k] on that has the name: its offset
    and its inode number. *)
Fixpoint find_name (e : Z -> list Z) (name : list Z) (k : Z) (n : nat) : option (Z * Z) :=
  match n with
  | O => None
  | S n => if has_name name (e k) then Some (DIRENT_SIZE * k, de_inum (e k)) else find_name e name (k + 1) n
  end.

(** The first of the [n] entries from [k] on that is free, or the end. *)
Fixpoint free_entry (e : Z -> list Z) (k : Z) (n : nat) : Z :=
  match n with O => k | S n => if de_inum (e k) =? 0 then k else free_entry e (k + 1) n end.

Lemma find_ext e e' name k n :
  (forall j, k <= j < k + Z.of_nat n -> has_name name (e' j) = has_name name (e j) /\ (has_name name (e j) = true -> e' j = e j)) ->
  find_name e' name k n = find_name e name k n.
Proof.
  revert k. induction n as [|n IH]; intros k H; [done|]. simpl. destruct (H k) as [H1 H2]; [lia|]. rewrite H1.
  destruct (has_name name (e k)); [by rewrite H2|]. apply IH. intros j Hj. apply H. lia.
Qed.

Lemma find_app e name k n m :
  find_name e name k (n + m) = match find_name e name k n with Some y => Some y | None => find_name e name (k + Z.of_nat n) m end.
Proof.
  revert k. induction n as [|n IH]; intros k; simpl; [by rewrite Z.add_0_r|]. destruct (has_name name (e k)); [done|].
  rewrite IH. by replace (k + 1 + Z.of_nat n) with (k + Z.of_nat (S n)) by lia.
Qed.

Lemma find_None e name k n j :
  find_name e name k n = None -> k <= j < k + Z.of_nat n -> has_name name (e j) = false.
Proof.
  revert k. induction n as [|n IH]; intros k H Hj; [lia|]. simpl in H. destruct (has_name name (e k)) eqn:E; [done|].
  destruct (decide (j = k)) as [->|]; [done|]. apply (IH (k + 1)); [done|lia].
Qed.

(** Only entry [j] has the name. *)
Lemma find_only e name k n j :
  k <= j < k + Z.of_nat n -> has_name name (e j) = true ->
  (forall i, k <= i < k + Z.of_nat n -> i <> j -> has_name name (e i) = false) ->
  find_name e name k n = Some (DIRENT_SIZE * j, de_inum (e j)).
Proof.
  revert k. induction n as [|n IH]; intros k Hj H1 H2; [lia|]. simpl. destruct (decide (k = j)) as [->|]; [by rewrite H1|].
  rewrite H2 by lia. apply IH; [lia|done|]. intros i Hi. apply H2. lia.
Qed.

Lemma free_ext e' e k n : (forall j, e' j = e j) -> free_entry e' k n = free_entry e k n.
Proof. intros He. revert k. induction n as [|n IH]; intros k; [done|]. simpl. by rewrite He, IH. Qed.

Lemma free_entry_spec e k n :
  let j := free_entry e k n in k <= j <= k + Z.of_nat n /\ (j < k + Z.of_nat n -> de_inum (e j) = 0).
Proof.
  revert k. induction n as [|n IH]; intros k; simpl; [lia|]. destruct (Z.eqb_spec (de_inum (e k)) 0); [split; [lia|done]|].
  destruct (IH (k + 1)) as [H1 H2]. split; [lia|]. intros. apply H2. lia.
Qed.

Section dir.
Context (me : nat) (p : Z) (t : nat) (start lsize data : Z) (dp : nat).
Notation turns := (S (S t)).
Notation does := (does me p).
Notation good := (good p start lsize data dp).
Notation regular := (regular start lsize data dp).

(** A directory in a transaction. *)
Record dir_ok (bs : list Z) (k : nat) (r : fsys) : Prop := {
  y_good : good bs k r;
  y_regular : regular r;
  y_type : i_type (inode_of r dp) = T_DIR;
  y_size : i_size (inode_of r dp) mod DIRENT_SIZE = 0 }.

Lemma dir_entries_eq z : 0 <= z -> z mod DIRENT_SIZE = 0 -> DIRENT_SIZE * Z.of_nat (dir_entries z) = z.
Proof. unfold dir_entries, DIRENT_SIZE. intros. lia. Qed.

Lemma dir_same bs k r r' T :
  dir_ok bs k r -> txn p start lsize [] bs r' -> stays [] (blk r) r r' T ->
  dir_ok bs k r' /\ inode_of r' dp = inode_of r dp /\ forall j, entry r' (inode_of r dp) j = entry r (inode_of r dp) j.
Proof.
  intros [Y1 Y2 Y3 Y4] X S. destruct (good_same p start lsize data dp bs bs k r r' T Y1 X S) as (G & W & E).
  split_and!; [|done|].
  - split; rewrite ?E; try done.
    apply (wrote_regular p start lsize data dp 0 [] bs k r r' T Y2 G); [by apply grew_wrote| |right; by rewrite E|];
      rewrite ?E; pose proof (reg_size _ _ _ _ _ Y2); lia.
  - intros j. apply list_fmap_ext. intros i q Hq. apply (same_fbyte r r'). apply S.
Qed.

(** One entry is read. *)
Lemma read_entry bs k r j :
  let x := inode_of r dp in
  dir_ok bs k r -> fits lsize 0 bs 0 -> 0 <= j -> DIRENT_SIZE * (j + 1) <= i_size x ->
  exists r' T, does (readi turns me dp (DIRENT_SIZE * j) DIRENT_SIZE) [] r T (DIRENT_SIZE, entry r x j) [] r'
    /\ dir_ok bs k r' /\ inode_of r' dp = x /\ (forall i, entry r' x i = entry r x i)
    /\ stays [] (blk r) r r' T /\ txn p start lsize [] bs r'.
Proof.
  intros x Y Fi Hj Hsz. pose proof (reg_size _ _ _ _ _ (y_regular _ _ _ Y)) as Hs. fold x in Hs.
  unfold DIRENT_SIZE, MAXFILE, NDIRECT, NINDIRECT, BSIZE in *.
  destruct (readi_regular me p t start lsize data dp bs k r (16 * j) 16 (y_good _ _ _ Y) Fi (y_regular _ _ _ Y)) as
    (r' & T & D & X & S); try (fold x; lia).
  fold x in D. replace (Z.min 16 (i_size x - 16 * j)) with 16 in D by lia.
  destruct (dir_same bs k r r' T Y X S) as (Y' & E & He). by exists r', T.
Qed.

Lemma dirlookup_loop_ok n bs k r j name :
  let x := inode_of r dp in
  dir_ok bs k r -> fits lsize 0 bs 0 -> 0 <= j -> DIRENT_SIZE * (j + Z.of_nat n) <= i_size x ->
  exists r' T, does (dirlookup_loop turns me dp name (DIRENT_SIZE * j) n) [] r T (find_name (entry r x) name j n) [] r'
    /\ stays [] (blk r) r r' T /\ txn p start lsize [] bs r'.
Proof.
  revert r j. induction n as [|n IH]; intros r j x Y Fi Hj Hsz.
  { exists r, []. split_and!; [apply does_ret|apply stays_refl|]. apply (y_good _ _ _ Y). }
  destruct (read_entry bs k r j Y Fi Hj) as (r1 & T1 & D1 & Y1 & E1 & He1 & S1 & X1); [fold x; unfold DIRENT_SIZE in *; lia|].
  fold x in D1, E1, He1. cbn [dirlookup_loop find_name]. set (nxt := dirlookup_loop turns me dp name (DIRENT_SIZE * j + DIRENT_SIZE) n).
  assert (Hn : exists r' T, does nxt [] r1 T (find_name (entry r x) name (j + 1) n) [] r' /\ stays [] (blk r) r r' (T1 ++ T)
    /\ txn p start lsize [] bs r').
  { destruct (IH r1 (j + 1) Y1 Fi) as (r2 & T2 & D2 & S2 & X2); [lia|rewrite E1; unfold DIRENT_SIZE in *; lia|].
    rewrite E1 in D2. exists r2, T2. split_and!; [|by eapply stays_then|done]. unfold nxt.
    replace (DIRENT_SIZE * j + DIRENT_SIZE) with (DIRENT_SIZE * (j + 1)) by lia.
    rewrite (find_ext (entry r1 x) (entry r x)); [exact D2|]. intros i _. by rewrite He1. }
  destruct Hn as (r2 & T2 & D2 & S2 & X2).
  assert (Hrun : forall T (a : option (Z * Z)) r',
    does (if de_inum (entry r x j) =? 0 then nxt
          else if namecmp name (de_name (entry r x j)) =? 0 then mret (Some (DIRENT_SIZE * j, de_inum (entry r x j))) else nxt)
      [] r1 T a [] r' ->
    does (r0 ← readi turns me dp (DIRENT_SIZE * j) DIRENT_SIZE;
          if negb (fst r0 =? DIRENT_SIZE) then kpanic "dirlookup read"
          else
            let de := snd r0 in
            if de_inum de =? 0 then nxt
            else if namecmp name (de_name de) =? 0 then mret (Some (DIRENT_SIZE * j, de_inum de)) else nxt)
      [] r (T1 ++ T) a [] r').
  { intros T a r' D. eapply does_bind; [exact D1|]. exact D. }
  unfold has_name. destruct (de_inum (entry r x j) =? 0) eqn:Ei.
  { exists r2, (T1 ++ T2). split_and!; [apply Hrun; exact D2|done|done]. }
  destruct (namecmp name (de_name (entry r x j)) =? 0) eqn:En.
  - exists r1, (T1 ++ []). split_and!; [apply Hrun; apply does_ret|by rewrite app_nil_r|done].
  - exists r2, (T1 ++ T2). split_and!; [apply Hrun; exact D2|done|done].
Qed.

Lemma dirlink_loop_ok n bs k r j :
  let x := inode_of r dp in
  dir_ok bs k r -> fits lsize 0 bs 0 -> 0 <= j -> DIRENT_SIZE * (j + Z.of_nat n) <= i_size x ->
  exists r' T, does (dirlink_loop turns me dp (DIRENT_SIZE * j) n) [] r T (DIRENT_SIZE * free_entry (entry r x) j n) [] r'
    /\ stays [] (blk r) r r' T /\ txn p start lsize [] bs r'.
Proof.
  revert r j. induction n as [|n IH]; intros r j x Y Fi Hj Hsz.
  { exists r, []. split_and!; [apply does_ret|apply stays_refl|]. apply (y_good _ _ _ Y). }
  destruct (read_entry bs k r j Y Fi Hj) as (r1 & T1 & D1 & Y1 & E1 & He1 & S1 & X1); [fold x; unfold DIRENT_SIZE in *; lia|].
  fold x in D1, E1, He1. cbn [dirlink_loop free_entry]. destruct (de_inum (entry r x j) =? 0) eqn:Ei.
  - exists r1, (T1 ++ []). split_and!; [|by rewrite app_nil_r|done]. eapply does_bind; [exact D1|]. simpl. rewrite Ei. apply does_ret.
  - destruct (IH r1 (j + 1) Y1 Fi) as (r2 & T2 & D2 & S2 & X2); [lia|rewrite E1; unfold DIRENT_SIZE in *; lia|].
    rewrite E1 in D2. exists r2, (T1 ++ T2). split_and!; [|by eapply stays_then|done].
    eapply does_bind; [exact D1|]. cbn [fst snd]. rewrite Z.eqb_refl. cbn [negb]. rewrite Ei.
    replace (DIRENT_SIZE * j + DIRENT_SIZE) with (DIRENT_SIZE * (j + 1)) by lia.
    rewrite <- (free_ext (entry r1 x)) by done. exact D2.
Qed.

(** The first part of dirlink: the name is not there, and a place is. *)
Lemma dirlink_place bs k r name :
  let x := inode_of r dp in let n := dir_entries (i_size x) in
  dir_ok bs k r -> fits lsize 0 bs 0 -> find_name (entry r x) name 0 n = None ->
  exists r1 r2 T1 T2, does (dirlookup turns me dp name) [] r T1 None [] r1
    /\ does (dirlink_loop turns me dp 0 n) [] r1 T2 (DIRENT_SIZE * free_entry (entry r x) 0 n) [] r2
    /\ dir_ok bs k r2 /\ stays [] (blk r) r r2 (T1 ++ T2) /\ inode_of r1 dp = x /\ inode_of r2 dp = x.
Proof.
  intros x n Y Fi Hno. pose proof (reg_size _ _ _ _ _ (y_regular _ _ _ Y)) as Hs.
  pose proof (dir_entries_eq (i_size x) ltac:(apply Hs) (y_size _ _ _ Y)) as Hn. fold n in Hn.
  destruct (dirlookup_loop_ok n bs k r 0 name Y Fi) as (r1 & T1 & D1 & S1 & X1); [lia|fold x; lia|].
  destruct (dir_same bs k r r1 T1 Y X1 S1) as (Y1 & E1 & He1). fold x in E1, He1, D1.
  destruct (dirlink_loop_ok n bs k r1 0 Y1 Fi) as (r2 & T2 & D2 & S2 & X2); [lia|rewrite E1; lia|].
  destruct (dir_same bs k r1 r2 T2 Y1 X2 S2) as (Y2 & E2 & He2). rewrite E1 in *.
  exists r1, r2, T1, T2. split_and!; try done; [| |by eapply stays_then].
  - unfold dirlookup. eapply does_step; [apply does_iget|]. cbv beta. rewrite (y_type _ _ _ Y).
    change (negb (T_DIR =? T_DIR)) with false. cbv iota. fold x n. rewrite Hno in D1.
    eapply does_eq; [eapply does_bind; [exact D1|apply does_ret]|apply app_nil_r|reflexivity].
  - rewrite <- (free_ext (entry r1 x)) by done. exact D2.
Qed.

Lemma length_padded n s : length (padded n s) = n.
Proof. revert s. induction n as [|n IH]; intros s; [done|]. simpl. by rewrite IH. Qed.

Lemma length_dirent inum name : length (mk_dirent inum name) = 16%nat.
Proof. unfold mk_dirent. rewrite length_app, length_wr16, pad_name_padded, length_padded. done. Qed.

Lemma dirlink_ok bs r name inum :
  let x := inode_of r dp in let n := dir_entries (i_size x) in let j := free_entry (entry r x) 0 n in
  dir_ok bs 2 r -> fits lsize 1 bs 7 -> find_name (entry r x) name 0 n = None -> i_size x + DIRENT_SIZE <= MAXFILE * BSIZE ->
  exists r' T bs', does (dirlink turns me dp name inum) [] r T 0 [] r' /\ dir_ok bs' 0 r'
    /\ wrote data dp (DIRENT_SIZE * j) (mk_dirent inum name) r r' T
    /\ i_size (inode_of r' dp) = Z.max (i_size x) (DIRENT_SIZE * (j + 1)).
Proof.
  intros x n j Y Fi Hno Hmax. pose proof (reg_size _ _ _ _ _ (y_regular _ _ _ Y)) as Hs. fold x in Hs.
  pose proof (dir_entries_eq (i_size x) (proj1 Hs) (y_size _ _ _ Y)) as Hn. fold n in Hn.
  destruct (dirlink_place bs 2 r name Y) as (r1 & r2 & T1 & T2 & D1 & D2 & Y2 & S2 & E1 & E2); [|done|].
  { apply (fits_held lsize 0). by eapply fits_le; [|exact Fi]; lia. }
  fold x n j in D2. fold x in E1, E2. destruct (free_entry_spec (entry r x) 0 n) as [Hj _]. fold j in Hj.
  pose proof (length_dirent inum name) as Hl. unfold DIRENT_SIZE in *.
  assert (Hb : blocks (16 * j) (Z.of_nat (length (mk_dirent inum name))) = 1%nat) by (rewrite Hl; unfold blocks, BSIZE; simpl; lia).
  destruct (writei_regular me p t start lsize data dp bs 0 0 r2 (16 * j) (mk_dirent inum name)) as
    (r3 & T3 & bs3 & D3 & G3 & F3 & W3 & R3 & Z3 & _); rewrite ?Hb, ?E2; try done; try apply Y2; try (rewrite ?Hl; lia).
  rewrite Hl, E2 in *. destruct (good_same p start lsize data dp bs bs 2 r r2 _ (y_good _ _ _ Y)
    (o_txn _ _ _ _ _ _ _ _ (y_good _ _ _ Y2)) S2) as (_ & Gw & _).
  assert (W : wrote data dp (16 * j) (mk_dirent inum name) r r3 ((T1 ++ T2) ++ T3)).
  { apply (wrote_trans data dp (16 * j) [] (mk_dirent inum name) r r2); [lia|rewrite app_nil_l, Hl; lia|by apply grew_wrote|].
    cbn [length Z.of_nat]. by rewrite Z.add_0_r. }
  destruct (v_inode _ _ _ _ _ _ _ W) as (l & z & E3).
  exists r3, ((T1 ++ T2) ++ T3), bs3. split_and!; [|split; try done|done|rewrite Z3; f_equal; lia].
  - rewrite <- app_assoc. unfold dirlink. eapply does_bind; [exact D1|]. eapply does_step; [apply does_iget|]. rewrite E1. fold n.
    eapply does_bind; [exact D2|]. eapply does_eq; [eapply does_bind; [exact D3|apply does_ret]|apply app_nil_r|reflexivity].
  - rewrite E3. exact (y_type _ _ _ Y).
  - rewrite Z3. pose proof (y_size _ _ _ Y) as Hy. fold x in Hy. unfold DIRENT_SIZE in *. lia.
Qed.

End dir.

(** * The entries after dirlink *)

Lemma dirent_fields inum name :
  0 <= inum < 65536 -> de_inum (mk_dirent inum name) = inum /\ de_name (mk_dirent inum name) = pad_name name.
Proof.
  intros Hi. split; [|done]. unfold de_inum, rd16, rd8, mk_dirent, wr16, wr8. simpl. lia.
Qed.

(** The entry that was written, and the others. *)
Lemma entry_wrote data dp r r' T j inum name k :
  let x := inode_of r dp in let x' := inode_of r' dp in
  wrote data dp (DIRENT_SIZE * j) (mk_dirent inum name) r r' T -> 0 <= k -> DIRENT_SIZE * (k + 1) <= MAXFILE * BSIZE ->
  entry r' x' k = if decide (k = j) then mk_dirent inum name else entry r x k.
Proof.
  intros x x' W Hk Hmax. pose proof (length_dirent inum name) as Hl. unfold entry, DIRENT_SIZE in *.
  assert (Hb : forall i, 0 <= i < 16 -> fbyte r' x' (16 * k + i)
    = if decide (k = j) then mk_dirent inum name !!! Z.to_nat i else fbyte r x (16 * k + i)).
  { intros i Hi. unfold x'. rewrite (v_byte _ _ _ _ _ _ _ W) by lia. rewrite Hl. repeat case_decide; try lia; [|done].
    unfold rd8. do 2 f_equal. lia. }
  case_decide as E; [|apply list_fmap_ext; intros i q [-> Hq]%lookup_seqZ; apply Hb; lia].
  apply list_eq. intros i. rewrite list_lookup_fmap. destruct (decide (i < 16)%nat).
  - rewrite lookup_seqZ_lt by lia. simpl. rewrite Hb by lia. rewrite Nat2Z.id.
    rewrite list_lookup_total_alt. destruct (lookup_lt_is_Some_2 (mk_dirent inum name) i) as [y ->]; [lia|done].
  - rewrite lookup_seqZ_ge, lookup_ge_None_2 by lia. done.
Qed.

Section added.
Context (e e' : Z -> list Z) (n n' : nat) (j inum : Z) (name : list Z).
Context (Hj : 0 <= j <= Z.of_nat n) (Hfree : j < Z.of_nat n -> de_inum (e j) = 0).
Context (Hn : Z.of_nat n' = Z.max (Z.of_nat n) (j + 1)).
Context (He : forall k, 0 <= k < Z.of_nat n' -> e' k = if decide (k = j) then mk_dirent inum name else e k).
Context (Hname : 0 ∉ name) (Hinum : 1 <= inum < 65536).

Lemma added_this name' : 0 ∉ name' -> has_name name' (e' j) = true <-> pad_name name' = pad_name name.
Proof.
  intros Hs. rewrite He by lia. rewrite decide_True by done. destruct (dirent_fields inum name) as [H1 H2]; [lia|].
  unfold has_name. rewrite H1, H2, (proj2 (Z.eqb_neq _ _)) by lia. simpl. rewrite Z.eqb_eq. by apply namecmp_pad.
Qed.

Lemma added_found : find_name e name 0 n = None -> find_name e' name 0 n' = Some (DIRENT_SIZE * j, inum).
Proof.
  intros Hno. assert (Hi : de_inum (e' j) = inum).
  { rewrite He by lia. rewrite decide_True by done. apply dirent_fields. lia. }
  rewrite <- Hi. apply find_only; [lia|by apply added_this|]. intros i Hi' Hne. rewrite He by lia. rewrite decide_False by done.
  apply (find_None _ _ _ _ _ Hno). lia.
Qed.

Lemma added_others name' :
  0 ∉ name' -> pad_name name' <> pad_name name -> find_name e' name' 0 n' = find_name e name' 0 n.
Proof.
  intros Hs Hne. assert (Hf : has_name name' (e' j) = false).
  { apply not_true_iff_false. by rewrite added_this. }
  assert (Hold : j < Z.of_nat n -> has_name name' (e j) = false) by (intros H; unfold has_name; by rewrite Hfree).
  assert (Hpre : find_name e' name' 0 n = find_name e name' 0 n).
  { apply find_ext. intros i Hi. destruct (decide (i = j)) as [->|].
    - rewrite Hf, Hold by lia. done.
    - rewrite He by lia. by rewrite decide_False. }
  destruct (decide (j < Z.of_nat n)).
  - by replace n' with n by lia.
  - replace n' with (n + 1)%nat by lia. rewrite find_app, Hpre. destruct (find_name e name' 0 n); [done|].
    replace (0 + Z.of_nat n) with j by lia. cbn [find_name]. by rewrite Hf.
Qed.

End added.

(** C7: A directory is a map from names to inode numbers, and dirlink adds
    to it. When a directory does not have the name, dirlink returns 0, the
    name then stands for the new inode number, and every other name (one
    that differs in its first 14 characters) stands for what it did before,
    or for nothing as before. *)
Theorem dirlink_adds me p t start lsize data dp bs s name inum :
  let r := fs s in let x := inode_of r dp in let n := dir_entries (i_size x) in
  at_ me p [] r s -> dir_ok p start lsize data dp bs 2 r -> fits lsize 1 bs 7 ->
  0 ∉ name -> 1 <= inum < 65536 -> find_name (entry r x) name 0 n = None -> i_size x + DIRENT_SIZE <= MAXFILE * BSIZE ->
  exists s' T, solo me (dirlink (S (S t)) me dp name inum s) = (Some (0, s'), T)
    /\ let r' := fs s' in let x' := inode_of r' dp in let n' := dir_entries (i_size x') in
       (exists off, find_name (entry r' x') name 0 n' = Some (off, inum))
       /\ forall name', 0 ∉ name' -> pad_name name' <> pad_name name ->
            find_name (entry r' x') name' 0 n' = find_name (entry r x) name' 0 n.
Proof.
  intros r x n Hat Y Fi Hname Hinum Hno Hmax.
  destruct (dirlink_ok me p t start lsize data dp bs r name inum Y Fi Hno Hmax) as (r' & T & bs' & D & Y' & W & Hz).
  destruct (D s Hat) as (s' & E & Hs'). exists s', T. split; [done|]. rewrite (at_fs _ _ _ _ _ Hs').
  set (j := free_entry (entry r x) 0 n) in *. destruct (free_entry_spec (entry r x) 0 n) as [Hj Hfree]. fold j in Hj, Hfree.
  pose proof (reg_size _ _ _ _ _ (y_regular _ _ _ _ _ _ _ _ Y)) as Hsz. fold r x in Hsz.
  pose proof (dir_entries_eq (i_size x) (proj1 Hsz) (y_size _ _ _ _ _ _ _ _ Y)) as Hn. fold n in Hn.
  fold x n j in Hz, W. set (x' := inode_of r' dp) in *. set (n' := dir_entries (i_size x')).
  assert (Hn' : DIRENT_SIZE * Z.of_nat n' = Z.max (i_size x) (DIRENT_SIZE * (j + 1))).
  { rewrite <- Hz. apply dir_entries_eq; [rewrite Hz; unfold DIRENT_SIZE; lia|apply (y_size _ _ _ _ _ _ _ _ Y')]. }
  assert (He : forall k, 0 <= k < Z.of_nat n' -> entry r' x' k = if decide (k = j) then mk_dirent inum name else entry r x k).
  { intros k Hk. apply (entry_wrote data dp r r' T j inum name k W); [lia|]. unfold DIRENT_SIZE in *. lia. }
  cbv zeta. unfold DIRENT_SIZE in Hn, Hn'. split.
  - eexists. apply (added_found (entry r x) (entry r' x') n n' j inum name); try done; lia.
  - intros name' H1 H2. apply (added_others (entry r x) (entry r' x') n n' j inum name); try done; lia.
Qed.

(** dirlookup looks at the entries of a directory in their order, as
    many as its size says, and finds the first one that is in use and has
    the name; the search changes nothing. *)
Theorem dirlookup_first me p t start lsize data dp bs s name :
  let r := fs s in let x := inode_of r dp in let n := dir_entries (i_size x) in
  at_ me p [] r s -> dir_ok p start lsize data dp bs 0 r -> fits lsize 0 bs 0 ->
  exists s' T, solo me (dirlookup_loop (S (S t)) me dp name 0 n s) = (Some (find_name (entry r x) name 0 n, s'), T)
    /\ fs_disk (fs s') = fs_disk r /\ inode_of (fs s') dp = x /\ forall k, entry (fs s') x k = entry r x k.
Proof.
  intros r x n Hat Y Fi. pose proof (reg_size _ _ _ _ _ (y_regular _ _ _ _ _ _ _ _ Y)) as Hsz. fold r x in Hsz.
  pose proof (dir_entries_eq (i_size x) (proj1 Hsz) (y_size _ _ _ _ _ _ _ _ Y)) as Hn. fold n in Hn.
  destruct (dirlookup_loop_ok me p t start lsize data dp n bs 0 r 0 name Y Fi) as (r' & T & D & S & X); [lia|fold x; lia|].
  destruct (dir_same p start lsize data dp bs 0 r r' T Y X S) as (_ & E & He).
  destruct (D s Hat) as (s' & Es & Hs'). exists s', T. rewrite (at_fs _ _ _ _ _ Hs'). split_and!; try done. apply S.
Qed.

(** * A directory with two entries *)

Definition small_open : fsys := opened small_fs.

Lemma small_dir_ok : dir_ok 1 2 30 59 1 [] 2 small_open.
Proof.
  destruct (begin_op_ok 0 1 0 2 30 small_fs small_idle) as [_ X].
  destruct (stored_opened 0 1 0 2 30 59 0 8 small_fs small_stored) as ([O1 O2 O3 O4 O5 O6] & _).
  assert (Ha : forall bn, 0 <= bn < MAXFILE -> baddr small_open (inode_of small_open 1) bn = if decide (bn = 0) then 500 else 0)
    by exact small_addr.
  assert (Hu : used 59 small_open 500) by exact small_used.
  split; [|split| |]; try done.
  - split; try done; [|by eapply free_le; [|exact O5]; lia|simpl; lia].
    split; try done.
    + intros bn Hbn. rewrite Ha by done. by case_decide.
    + intros bn bn' H1 H2. rewrite !Ha by done. repeat case_decide; congruence.
  - intros k Hk. simpl in Hk. replace (k / BSIZE) with 0 by (unfold BSIZE; lia).
    rewrite Ha by (unfold MAXFILE, NDIRECT, NINDIRECT, BSIZE; lia). done.
  - split; try done; unfold region; vm_compute; intuition congruence.
  - split; try done. split; [done|]. apply Forall_cons. split; [lia|]. apply Forall_replicate. lia.
Qed.

Lemma small_fits k h : (k + h < 29)%nat -> fits 30 h [] k.
Proof. unfold fits, NBUF. simpl. lia. Qed.

Lemma dirlookup_first_witness :
  exists s' T, solo 0 (dirlookup_loop 2 0 1 [46; 46] 0 2 (sample_kst small_open)) = (Some (Some (16, 1), s'), T).
Proof.
  destruct (dirlookup_first 0 1 0 2 30 59 1 [] (sample_kst small_open) [46; 46]) as (s' & T & E & _).
  - apply sample_at.
  - destruct small_dir_ok as [Y1 Y2 Y3 Y4]. split; try done. by eapply good_le; [|exact Y1]; lia.
  - apply small_fits. lia.
  - exists s', T. etrans; [exact E|]. vm_compute find_name. reflexivity.
Defined.

(** The name a. *)
Lemma dirlink_adds_witness :
  exists s' T, solo 0 (dirlink 2 0 1 [97] 7 (sample_kst small_open)) = (Some (0, s'), T).
Proof.
  destruct (dirlink_adds 0 1 0 2 30 59 1 [] (sample_kst small_open) [97] 7) as (s' & T & E & _).
  - apply sample_at.
  - apply small_dir_ok.
  - apply small_fits. lia.
  - set_solver.
  - lia.
  - vm_compute. reflexivity.
  - unfold MAXFILE, NDIRECT, NINDIRECT, BSIZE, DIRENT_SIZE. simpl. lia.
  - exists s', T. exact E.
Defined.
