(* ===== verification/MkfsFacts.v ===== *)
(** The image that mkfs.c makes is a file system of the kernel: its superblock,
    its bitmap, and for each file the inode, the entry in the root directory
    and the bytes. *)

From S2P Require Import Prelude Mmu Kernel Fsys Field Bio Log Fs BioFacts FsFacts FileFacts IoFacts Storage DirFacts Mkfs.

Lemma sb_eq : sb = SB 1000 941 200 30 2 32 58.
Proof. reflexivity. Qed.

Lemma nmeta_eq : nmeta = 59.
Proof. reflexivity. Qed.

Lemma xint_id x : 0 <= x < 2 ^ 32 -> xint x = x.
Proof. intros. unfold xint. change (2 ^ 8) with 256. change (2 ^ 16) with 65536. change (2 ^ 24) with 16777216. lia. Qed.

Lemma xshort_id x : 0 <= x < 2 ^ 16 -> xshort x = x.
Proof. intros. unfold xshort. change (2 ^ 8) with 256. lia. Qed.

(** * The files of an image that is being made *)

(** A file: its inode, its bytes, the number of its blocks, and whether it has
    an indirect block. *)
Record fent := Fent { fy : dinode; fc : list Z; fn : Z; fi : bool }.

(** The blocks that a file takes. *)
Definition cost (e : fent) : Z := fn e + (if fi e then 1 else 0).
Definition total (es : list fent) : Z := foldr Z.add 0 (cost <$> es).

(** The byte [k] of a text that zeros follow. *)
Definition cbyte (l : list Z) (k : Z) : Z := default 0 (l !! Z.to_nat k).

(** The file number [i] of the image: its blocks are its own, and hold its
    bytes and zeros. *)
Record frep (d : disk_t) (own : gmap Z (nat * Z)) (i : nat) (e : fent) : Prop := {
  fr_ok : dinode_ok (fy e);
  fr_n : 0 <= fn e <= MAXFILE /\ Z.of_nat (length (fc e)) <= BSIZE * fn e;
  fr_ind : if fi e then own !! (d_addrs (fy e) !!! 12%nat) = Some (i, -1) else d_addrs (fy e) !!! 12%nat = 0;
  fr_addr : forall bn, 0 <= bn < MAXFILE ->
    if bn <? fn e then own !! disk_addr d (fy e) bn = Some (i, bn) else disk_addr d (fy e) bn = 0;
  fr_byte : forall k, 0 <= k < MAXFILE * BSIZE -> disk_byte d (fy e) k = cbyte (fc e) k }.

(** The image: [fb] is the first free block. *)
Record mk (d : disk_t) (fb : Z) (es : list fent) (own : gmap Z (nat * Z)) : Prop := {
  k_dom : forall b, 0 <= b < FSSIZE -> exists l, d !! b = Some l /\ length l = 512%nat;
  k_fb : fb = nmeta + total es /\ fb <= FSSIZE;
  k_own : forall b o, own !! b = Some o -> nmeta <= b < fb;
  k_file : forall i e, es !! i = Some e -> frep d own i e;
  k_free : forall b, fb <= b < FSSIZE -> dblk d b = zero_block }.

Lemma files_insert es j e e' : es !! j = Some e -> total (<[j := e']> es) = total es - cost e + cost e'.
Proof.
  unfold total. revert j. induction es as [|x es IH]; intros [|j] E; simplify_eq/=; [lia|]. rewrite (IH j E). lia.
Qed.

Lemma files_nonneg es : (forall i e, es !! i = Some e -> 0 <= fn e) -> 0 <= total es.
Proof.
  unfold total. induction es as [|e es IH]; intros H; cbn [fmap list_fmap foldr]; [lia|].
  assert (0 <= cost e) by (pose proof (H 0%nat e eq_refl); unfold cost; destruct (fi e); lia).
  specialize (IH (fun i => H (S i))). lia.
Qed.

(** Addresses do not change when the block that does is not the indirect
    one. *)
Lemma addr_insert d b v y bn : d_addrs y !!! 12%nat <> b -> disk_addr (<[b := v]> d) y bn = disk_addr d y bn.
Proof. intros Hb. unfold disk_addr. by rewrite dblk_insert, decide_False. Qed.

Lemma byte_insert d b v y k :
  d_addrs y !!! 12%nat <> b -> disk_addr d y (k / BSIZE) <> b -> disk_byte (<[b := v]> d) y k = disk_byte d y k.
Proof. intros Hi Hb. unfold disk_byte. by rewrite addr_insert, dblk_insert, (decide_False (P := _ = b)). Qed.

Section image.
Context (d : disk_t) (fb : Z) (es : list fent) (own : gmap Z (nat * Z)) (K : mk d fb es own).

Lemma own_block b o : own !! b = Some o -> 59 <= b < fb.
Proof. intros H. by apply (k_own _ _ _ _ K) in H. Qed.

Lemma block_read b : 0 <= b < FSSIZE -> d !! b = Some (dblk d b) /\ length (dblk d b) = 512%nat.
Proof. intros Hb. destruct (k_dom _ _ _ _ K b Hb) as (l & E & Hl). unfold dblk. by rewrite E. Qed.

(** A block that no file owns for data or addresses can change. *)
Lemma frep_other b v i e : es !! i = Some e -> (forall o, own !! b = Some o -> o.1 <> i) -> b <> 0 ->
  frep (<[b := v]> d) own i e.
Proof.
  intros He Hb Hb0. destruct (k_file _ _ _ _ K i e He) as [F1 F2 F3 F4 F5].
  assert (d_addrs (fy e) !!! 12%nat <> b) as Hind.
  { intros E. destruct (fi e); [|congruence]. rewrite E in F3. by apply Hb in F3. }
  split; try done.
  - intros bn Hbn. rewrite addr_insert by done. by apply F4.
  - intros k Hk. rewrite byte_insert; [by apply F5 | done|]. intros E. specialize (F4 (k / BSIZE)). unfold MAXFILE, NDIRECT, NINDIRECT, BSIZE in *.
    assert (0 <= k / 512 < 12 + 512 / 4) as Hbn by lia. apply F4 in Hbn. destruct (_ <? _); [|congruence].
    rewrite E in Hbn. by apply Hb in Hbn.
Qed.

Lemma fb_ge : 59 <= fb.
Proof.
  rewrite (proj1 (k_fb _ _ _ _ K)), nmeta_eq. enough (0 <= total es) by lia. apply files_nonneg.
  intros i e He. destruct (k_file _ _ _ _ K i e He). lia.
Qed.

Lemma dom_insert b v : length v = 512%nat ->
  forall c, 0 <= c < FSSIZE -> exists l, (<[b := v]> d : disk_t) !! c = Some l /\ length l = 512%nat.
Proof.
  intros Hv c Hc. destruct (decide (c = b)) as [->|].
  - exists v. split; [apply lookup_insert_eq | done].
  - destruct (k_dom _ _ _ _ K c Hc) as (l & E & Hl). exists l. split; [|done]. etransitivity; [by apply lookup_insert_ne | done].
Qed.

(** Blocks of inodes and of the rest of the metadata. *)
Lemma mk_meta b v : 0 < b < 59 -> length v = 512%nat -> mk (<[b := v]> d) fb es own.
Proof.
  intros Hb Hv. pose proof fb_ge. split.
  - by apply dom_insert.
  - apply K.
  - apply K.
  - intros i e He. apply frep_other; [done| |lia]. intros o Ho. apply own_block in Ho. lia.
  - intros c Hc. rewrite dblk_insert, decide_False by lia. by apply (k_free _ _ _ _ K).
Qed.

(** Another file with the same blocks as file [j] has. *)
Lemma mk_update d' own' fb' j e e' :
  es !! j = Some e ->
  (forall c, 0 <= c < FSSIZE -> exists l, d' !! c = Some l /\ length l = 512%nat) ->
  fb' = fb - cost e + cost e' -> fb' <= FSSIZE ->
  (forall b o, own' !! b = Some o -> nmeta <= b < fb') ->
  frep d' own' j e' -> (forall i x, es !! i = Some x -> i <> j -> frep d' own' i x) ->
  (forall b, fb' <= b < FSSIZE -> dblk d' b = zero_block) ->
  mk d' fb' (<[j := e']> es) own'.
Proof.
  intros He Hd Hfb Hle Hown Hj Hi Hz. destruct (k_fb _ _ _ _ K) as [Hf _]. split; try done.
  - rewrite (files_insert _ _ _ _ He). split; [lia | done].
  - intros i x. destruct (decide (i = j)) as [->|Hne].
    + intros Hx. rewrite list_lookup_insert_eq in Hx by by eapply lookup_lt_Some. by simplify_eq.
    + rewrite list_lookup_insert_ne by done. intros Hx. by apply Hi.
Qed.

(** A new block for file [j] concerns the others no more than its old ones. *)
Lemma frep_own i x o : es !! i = Some x -> frep d (<[fb := o]> own) i x.
Proof.
  intros Hx. destruct (k_file _ _ _ _ K i x Hx) as [F1 F2 F3 F4 F5].
  assert (forall b o', own !! b = Some o' -> <[fb := o]> own !! b = Some o') as Hext.
  { intros b o' Hb. rewrite lookup_insert_ne; [done|]. apply own_block in Hb. lia. }
  split; try done.
  - destruct (fi x); [by apply Hext | done].
  - intros bn Hbn. specialize (F4 bn Hbn). destruct (_ <? _); [by apply Hext | done].
Qed.

Lemma own_insert j bn b o : fb < FSSIZE -> <[fb := (j, bn) : nat * Z]> own !! b = Some o -> nmeta <= b < fb + 1.
Proof.
  intros Hf. rewrite nmeta_eq. destruct (decide (b = fb)) as [->|]; [pose proof fb_ge; lia|].
  rewrite lookup_insert_ne by done. intros Hb%own_block. lia.
Qed.

Lemma free_zero : fb < FSSIZE -> dblk d fb = zero_block.
Proof. intros. apply (k_free _ _ _ _ K). lia. Qed.


(** * One block more *)

Context (j : nat) (e : fent) (He : es !! j = Some e).

Lemma set_addr_ok i x : 0 <= i < 13 -> 0 <= x < 2 ^ 32 -> dinode_ok (fy e) -> dinode_ok (set_addr i x (fy e)).
Proof.
  intros Hi Hx [H1 H2 H3 H4 H5 [H6 H7]]. split; try done. simpl. split; [by rewrite length_insert|]. by apply Forall_insert.
Qed.

Lemma addr_set_direct i x bn : 0 <= i < NDIRECT -> length (d_addrs (fy e)) = 13%nat -> 0 <= bn ->
  disk_addr d (set_addr i x (fy e)) bn = if bn =? i then x else disk_addr d (fy e) bn.
Proof.
  unfold NDIRECT. intros Hi Hl Hbn. unfold disk_addr, NDIRECT. simpl. destruct (Z.eqb_spec bn i) as [->|Hne].
  - rewrite (proj2 (Z.ltb_lt i 12)) by lia. apply list_lookup_total_insert_eq. lia.
  - rewrite (list_lookup_total_insert_ne _ _ 12) by lia. destruct (bn <? 12); [|done]. apply list_lookup_total_insert_ne. lia.
Qed.

Lemma MAXFILE_eq : MAXFILE = 140.
Proof. reflexivity. Qed.

Lemma step_direct : fn e < NDIRECT -> fb < FSSIZE ->
  mk d (fb + 1) (<[j := Fent (set_addr (fn e) fb (fy e)) (fc e) (fn e + 1) (fi e)]> es) (<[fb := (j, fn e)]> own).
Proof.
  intros Hn Hf. unfold NDIRECT in Hn. destruct (k_file _ _ _ _ K j e He) as [F1 F2 F3 F4 F5]. pose proof fb_ge.
  unfold FSSIZE in *. rewrite MAXFILE_eq in *. unfold BSIZE in *.
  apply (mk_update d _ (fb + 1) j e); [done | apply K | unfold cost; simpl; destruct (fi e); lia | unfold FSSIZE; lia | by intros; eapply own_insert | | | ].
  - assert (length (d_addrs (fy e)) = 13%nat) as Hl by apply F1.
    split; cbn [fy fc fn fi].
    + apply set_addr_ok; [lia | lia | done].
    + rewrite MAXFILE_eq. unfold BSIZE. lia.
    + simpl. rewrite list_lookup_total_insert_ne by lia. apply (fr_ind _ _ _ _ (frep_own j e _ He)).
    + intros bn Hbn. rewrite addr_set_direct by (unfold NDIRECT; lia || done).
      destruct (Z.eqb_spec bn (fn e)) as [->|Hne].
      * rewrite (proj2 (Z.ltb_lt _ _)) by lia. by rewrite lookup_insert_eq.
      * pose proof (fr_addr _ _ _ _ (frep_own j e (j, fn e) He) bn Hbn) as H'.
        destruct (Z.ltb_spec bn (fn e)), (Z.ltb_spec bn (fn e + 1)); done || lia.
    + intros k Hk. unfold disk_byte. rewrite addr_set_direct by (unfold NDIRECT, BSIZE; lia || done).
      destruct (Z.eqb_spec (k / BSIZE) (fn e)) as [E|Hne]; [|apply F5; rewrite MAXFILE_eq in Hk; unfold BSIZE in *; lia].
      rewrite (proj2 (Z.eqb_neq fb 0)) by lia. rewrite free_zero by (unfold FSSIZE; lia). rewrite rd8_zero by (unfold BSIZE; lia).
      unfold cbyte. rewrite lookup_ge_None_2; [done|]. unfold BSIZE in *. lia.
  - intros i x Hx _. by apply frep_own.
  - intros b Hb. apply (k_free _ _ _ _ K). unfold FSSIZE in *. lia.
Qed.

(** The indirect block. *)
Lemma step_ind : fi e = false -> fb < FSSIZE ->
  mk d (fb + 1) (<[j := Fent (set_addr NDIRECT fb (fy e)) (fc e) (fn e) true]> es) (<[fb := (j, -1)]> own).
Proof.
  intros Hi Hf. destruct (k_file _ _ _ _ K j e He) as [F1 F2 F3 F4 F5]. rewrite Hi in F3. pose proof fb_ge.
  assert (length (d_addrs (fy e)) = 13%nat) as Hl by apply F1.
  assert (forall bn, 0 <= bn < MAXFILE -> disk_addr d (set_addr NDIRECT fb (fy e)) bn = disk_addr d (fy e) bn) as Ha.
  { intros bn Hbn. unfold disk_addr, NDIRECT. simpl. rewrite list_lookup_total_insert_eq, F3 by lia.
    destruct (Z.ltb_spec bn 12) as [Hlt|Hge]; [apply list_lookup_total_insert_ne; lia|].
    rewrite (proj2 (Z.eqb_neq fb 0)), free_zero by lia. simpl. rewrite MAXFILE_eq in Hbn. by apply rd32_zero; lia. }
  apply (mk_update d _ (fb + 1) j e); [done | apply K | unfold cost; rewrite Hi; simpl; lia | lia | by intros; eapply own_insert | | | ].
  - pose proof (frep_own j e (j, -1) He) as [G1 G2 G3 G4 G5]. split; cbn [fy fc fn fi]; try done.
    + apply set_addr_ok; unfold NDIRECT, FSSIZE in *; lia || done.
    + unfold NDIRECT. simpl. rewrite list_lookup_total_insert_eq by lia. apply lookup_insert_eq.
    + intros bn Hbn. rewrite Ha by done. by apply G4.
    + intros k Hk. unfold disk_byte. rewrite Ha; [by apply F5|]. rewrite MAXFILE_eq in *. unfold BSIZE in *. lia.
  - intros i x Hx _. by apply frep_own.
  - intros b Hb. apply (k_free _ _ _ _ K). lia.
Qed.

Notation iblk := (d_addrs (fy e) !!! 12%nat).

(** An entry of the indirect block. *)
Lemma step_entry : fi e = true -> NDIRECT <= fn e < MAXFILE -> fb < FSSIZE ->
  mk (<[iblk := wr32 (dblk d iblk) (4 * (fn e - NDIRECT)) fb]> d) (fb + 1)
    (<[j := Fent (fy e) (fc e) (fn e + 1) true]> es) (<[fb := (j, fn e)]> own).
Proof.
  intros Hi Hn Hf. destruct (k_file _ _ _ _ K j e He) as [F1 F2 F3 F4 F5]. rewrite Hi in F3. pose proof fb_ge.
  pose proof (own_block _ _ F3) as Hib. destruct (block_read iblk) as [_ Hbl]; [lia|].
  set (d' := <[iblk := _]> d).
  assert (forall bn, 0 <= bn < MAXFILE -> disk_addr d' (fy e) bn = if bn =? fn e then fb else disk_addr d (fy e) bn) as Ha.
  { intros bn Hbn. unfold disk_addr. destruct (Z.ltb_spec bn NDIRECT) as [Hlt|Hge]; [by rewrite (proj2 (Z.eqb_neq _ _)) by lia|].
    rewrite (proj2 (Z.eqb_neq iblk 0)) by lia. subst d'. rewrite dblk_insert, decide_True by done.
    rewrite ind_entry by lia. by destruct (Z.eqb_spec bn (fn e)), (decide (bn = fn e)). }
  assert (forall b, b <> iblk -> dblk d' b = dblk d b) as Hd by (intros; subst d'; by rewrite dblk_insert, decide_False).
  apply (mk_update d' _ (fb + 1) j e); [done | apply dom_insert; by rewrite length_wr32 | unfold cost; rewrite Hi; simpl; lia | lia | by intros; eapply own_insert | | | ].
  - pose proof (frep_own j e (j, fn e) He) as [G1 G2 G3 G4 G5]. split; cbn [fy fc fn fi]; try done.
    + unfold BSIZE in *. lia.
    + by rewrite Hi in G3.
    + intros bn Hbn. rewrite Ha by done. destruct (Z.eqb_spec bn (fn e)) as [->|Hne].
      * rewrite (proj2 (Z.ltb_lt _ _)) by lia. apply lookup_insert_eq.
      * specialize (G4 bn Hbn). destruct (Z.ltb_spec bn (fn e)), (Z.ltb_spec bn (fn e + 1)); done || lia.
    + intros k Hk. assert (0 <= k / BSIZE < MAXFILE) as Hbn by (rewrite MAXFILE_eq in *; unfold BSIZE in *; lia).
      unfold disk_byte. rewrite Ha by done. destruct (Z.eqb_spec (k / BSIZE) (fn e)) as [E|Hne].
      * rewrite (proj2 (Z.eqb_neq fb 0)) by lia. rewrite Hd, free_zero by lia. rewrite rd8_zero by (unfold BSIZE; lia).
        unfold cbyte. rewrite lookup_ge_None_2; [done|]. unfold BSIZE in *. lia.
      * rewrite <- F5 by done. unfold disk_byte. specialize (F4 _ Hbn).
        destruct (Z.eqb_spec (disk_addr d (fy e) (k / BSIZE)) 0) as [|Hne0]; [done|]. rewrite Hd; [done|].
        intros E. destruct (_ <? _); [|done]. rewrite E, F3 in F4. injection F4. lia.
  - intros i x Hx Hij. pose proof (frep_own i x (j, fn e) Hx) as [G1 G2 G3 G4 G5].
    assert (d_addrs (fy x) !!! 12%nat <> iblk) as Hix.
    { intros E. destruct (k_file _ _ _ _ K i x Hx) as [_ _ X3 _ _]. destruct (fi x); [|lia]. rewrite E, F3 in X3. by injection X3 as ->. }
    destruct (frep_other iblk (wr32 (dblk d iblk) (4 * (fn e - NDIRECT)) fb) i x Hx) as [H1 H2 H3 H4 H5]; [|lia|].
    { intros o. rewrite F3. intros [= <-]. simpl. by intros ->. }
    split; try done. intros bn Hbn. subst d'. rewrite addr_insert by done. by apply G4.
  - intros b Hb. rewrite Hd by lia. apply (k_free _ _ _ _ K). lia.
Qed.

(** Bytes at the end of the file, in its last block. *)
Lemma step_write p :
  let off := Z.of_nat (length (fc e)) in
  let bn := off / BSIZE in
  let x := disk_addr d (fy e) bn in
  bn < fn e -> off + Z.of_nat (length p) <= BSIZE * (bn + 1) ->
  mk (<[x := blit (dblk d x) (off - bn * BSIZE) p]> d) fb (<[j := Fent (fy e) (fc e ++ p) (fn e) (fi e)]> es) own.
Proof.
  intros off bn x Hn Hp. destruct (k_file _ _ _ _ K j e He) as [F1 F2 F3 F4 F5]. pose proof fb_ge. rewrite MAXFILE_eq in *.
  assert (0 <= bn < 140) as Hbn by (unfold bn, BSIZE in *; lia).
  assert (own !! x = Some (j, bn)) as Hx by (specialize (F4 bn Hbn); by rewrite (proj2 (Z.ltb_lt _ _)) in F4 by done).
  pose proof (own_block _ _ Hx) as Hxr. destruct (k_fb _ _ _ _ K) as [_ Hfb]. destruct (block_read x) as [_ Hbl]; [lia|].
  assert (iblk <> x) as Hind by (intros E; destruct (fi e); [rewrite E, Hx in F3; injection F3; lia | lia]).
  set (d' := <[x := _]> d).
  assert (forall b, b <> x -> dblk d' b = dblk d b) as Hd by (intros; subst d'; by rewrite dblk_insert, decide_False).
  assert (forall k, disk_addr d' (fy e) k = disk_addr d (fy e) k) as Ha by (intros; by apply addr_insert).
  assert (length (blit (dblk d x) (off - bn * BSIZE) p) = 512%nat) as Hlen
    by (rewrite length_blit; unfold off, bn, BSIZE in *; lia).
  apply (mk_update d' _ fb j e); [done | by apply dom_insert | unfold cost; simpl; lia | lia | apply K | | | ].
  - split; cbn [fy fc fn fi]; try done.
    + rewrite MAXFILE_eq, length_app. unfold off, bn, BSIZE in *. lia.
    + intros k Hk. rewrite Ha. by apply F4.
    + intros k Hk. rewrite MAXFILE_eq in Hk. unfold disk_byte. rewrite Ha. specialize (F5 k Hk). unfold disk_byte in F5.
      destruct (decide (k / BSIZE = bn)) as [E|Hne].
      * rewrite E in *. fold x in F5 |- *. rewrite (proj2 (Z.eqb_neq x 0)) in F5 |- * by lia.
        subst d'. rewrite dblk_insert, decide_True by done. rewrite rd8_blit by (unfold off, bn, BSIZE in *; lia).
        unfold cbyte in *. rewrite lookup_app. case_decide as Hc.
        -- rewrite (lookup_ge_None_2 (fc e)) by (unfold off, bn, BSIZE in *; lia). unfold rd8. rewrite list_lookup_total_alt.
           replace (Z.to_nat (k mod BSIZE - (off - bn * BSIZE))) with (Z.to_nat k - length (fc e))%nat by (unfold off, bn, BSIZE in *; lia).
           destruct (lookup_lt_is_Some_2 p (Z.to_nat k - length (fc e))) as [v ->]; [unfold off, bn, BSIZE in *; lia | done].
        -- rewrite F5. destruct (fc e !! Z.to_nat k) as [v|] eqn:Ek; [done|]. apply lookup_ge_None in Ek.
           rewrite lookup_ge_None_2; [done|]. unfold off, bn, BSIZE in *. lia.
      * assert (cbyte (fc e ++ p) k = cbyte (fc e) k) as ->.
        { unfold cbyte. rewrite lookup_app. destruct (fc e !! Z.to_nat k) as [v|] eqn:Ek; [done|]. apply lookup_ge_None in Ek.
          rewrite lookup_ge_None_2; [done|]. unfold off, bn, BSIZE in *. lia. }
        rewrite <- F5. specialize (F4 (k / BSIZE)). destruct (Z.eqb_spec (disk_addr d (fy e) (k / BSIZE)) 0); [done|].
        rewrite Hd; [done|]. intros E. destruct (_ <? _); [|unfold BSIZE in *; lia].
        rewrite E, Hx in F4. injection F4; unfold BSIZE in *; lia.
  - intros i y Hy Hij. apply frep_other; [done| |lia]. rewrite Hx. intros o [= <-]. simpl. by intros ->.
  - intros b Hb. rewrite Hd by lia. by apply (k_free _ _ _ _ K).
Qed.

Lemma addr_range bn : 0 <= bn < MAXFILE -> 0 <= disk_addr d (fy e) bn < 2 ^ 32.
Proof.
  intros Hbn. destruct (k_file _ _ _ _ K j e He) as [_ _ _ F4 _]. specialize (F4 bn Hbn). destruct (k_fb _ _ _ _ K) as [_ Hfb].
  unfold FSSIZE in Hfb. destruct (_ <? _); [apply own_block in F4; lia | lia].
Qed.

Lemma ind_range : 0 <= iblk < 2 ^ 32 /\ (iblk = 0 <-> fi e = false).
Proof.
  destruct (k_file _ _ _ _ K j e He) as [_ _ F3 _ _]. destruct (k_fb _ _ _ _ K) as [_ Hfb]. unfold FSSIZE in Hfb.
  destruct (fi e); [apply own_block in F3; split; [lia|]; split; [lia | done] | split; [lia|]; split; done].
Qed.

End image.

(** * The operations *)

(** Inodes that differ in their addresses only. *)
Definition with_addrs (y y' : dinode) : Prop :=
  y' = Dinode (d_type y) (d_major y) (d_minor y) (d_nlink y) (d_size y) (d_addrs y').

(** The file with [n] blocks. *)
Definition grown (e : fent) (y : dinode) (n : Z) : fent := Fent y (fc e) n (12 <? n).

Definition low_same (d d' : disk_t) : Prop := forall b, b < 59 -> d' !! b = d !! b.

Lemma take_block_eq d i fb : 0 <= fb < FSSIZE -> take_block (Mkfs d i fb) = OK fb (Mkfs d i (fb + 1)).
Proof. intros H. unfold take_block, gets, modify, mbind, M_bind, mret, M_ret. simpl. rewrite u32_id; [done|]. unfold FSSIZE in H. lia. Qed.

Lemma rsect_eq d fb es own i b : mk d fb es own -> 0 <= b < FSSIZE -> rsect b (Mkfs d i fb) = OK (dblk d b) (Mkfs d i fb).
Proof. intros K Hb. unfold rsect, gets, mbind, M_bind. simpl. by rewrite (proj1 (block_read _ _ _ _ K b Hb)). Qed.

Lemma block_direct d fb es own i j e fbn :
  mk d fb es own -> es !! j = Some e -> fi e = (12 <? fn e) -> fbn = fn e \/ fbn + 1 = fn e -> 0 <= fbn < NDIRECT ->
  fb - cost e + cost (grown e (fy e) (fbn + 1)) <= FSSIZE ->
  exists y' own' fb', iappend_block (fy e) fbn (Mkfs d i fb) = OK (disk_addr d y' fbn, y') (Mkfs d i fb')
    /\ mk d fb' (<[j := grown e y' (fbn + 1)]> es) own' /\ with_addrs (fy e) y'.
Proof.
  intros K He Hfi Hn Hb Hc. pose proof (fb_ge _ _ _ _ K). unfold iappend_block. rewrite (proj2 (Z.ltb_lt _ _)) by lia.
  assert (disk_addr d (fy e) fbn = d_addrs (fy e) !!! Z.to_nat fbn) as Ea
    by (unfold disk_addr; by rewrite (proj2 (Z.ltb_lt _ _)) by lia).
  assert (0 <= fbn < MAXFILE) as Hbm by (rewrite MAXFILE_eq; unfold NDIRECT in *; lia).
  destruct (k_file _ _ _ _ K j e He) as [F1 F2 F3 F4 F5]. specialize (F4 _ Hbm).
  pose proof (addr_range _ _ _ _ K j e He _ Hbm) as Hr. unfold NDIRECT in *.
  unfold cost, grown in Hc. cbn [fn fi] in Hc. rewrite Hfi in Hc. rewrite <- Ea, xint_id by done.
  destruct Hn as [->|Hn].
  - rewrite Z.ltb_irrefl in F4. rewrite F4, Z.eqb_refl. rewrite (proj2 (Z.ltb_ge 12 (fn e))), (proj2 (Z.ltb_ge 12 (fn e + 1))) in * by lia.
    assert (fb < FSSIZE) as Hfb by lia.
    unfold mbind at 1 2, M_bind. rewrite take_block_eq by lia. unfold mret, M_ret.
    eexists (set_addr (fn e) fb (fy e)), _, (fb + 1). split; [|split; [|done]].
    + rewrite (xint_id fb) by (unfold FSSIZE in *; lia). f_equal. f_equal.
      rewrite (addr_set_direct d e) by (unfold NDIRECT; (lia || apply F1)). rewrite Z.eqb_refl. simpl.
      rewrite list_lookup_total_insert_eq by (destruct F1 as [_ _ _ _ _ [-> _]]; lia). apply xint_id. unfold FSSIZE in *. lia.
    + unfold grown. rewrite (proj2 (Z.ltb_ge 12 (fn e + 1))) by lia. rewrite <- Hfi. eapply step_direct; unfold NDIRECT; done || lia.
  - rewrite (proj2 (Z.ltb_lt _ _)) in F4 by lia. apply (own_block _ _ _ _ K) in F4. rewrite (proj2 (Z.eqb_neq _ 0)) by lia.
    unfold mbind, M_bind, mret, M_ret. rewrite <- Ea, xint_id by done.
    exists (fy e), own, fb. split; [done|]. split; [|by destruct (fy e)].
    unfold grown. rewrite Hn, <- Hfi. replace (Fent (fy e) (fc e) (fn e) (fi e)) with e by by destruct e. by rewrite list_insert_id.
Qed.

Lemma entry_ok d fb es own i j e fbn :
  mk d fb es own -> es !! j = Some e -> fi e = true -> fbn = fn e \/ fbn + 1 = fn e -> NDIRECT <= fbn < MAXFILE ->
  fb - fn e + (fbn + 1) <= FSSIZE ->
  let a := xint (d_addrs (fy e) !!! Z.to_nat NDIRECT) in
  exists d' own' fb',
    (indirect ← rsect a;
     indirect ← (if rd32 indirect (4 * (fbn - NDIRECT)) =? 0 then
                   x ← take_block;
                   let indirect := wr32 indirect (4 * (fbn - NDIRECT)) (xint x) in
                   wsect a indirect;;
                   mret indirect
                 else mret indirect);
     mret (xint (rd32 indirect (4 * (fbn - NDIRECT))), fy e)) (Mkfs d i fb)
    = OK (disk_addr d' (fy e) fbn, fy e) (Mkfs d' i fb')
    /\ mk d' fb' (<[j := Fent (fy e) (fc e) (fbn + 1) true]> es) own' /\ low_same d d'.
Proof.
  intros K He Hfi Hn Hb Hc. pose proof (fb_ge _ _ _ _ K). pose proof (ind_range _ _ _ _ K j e He) as [Hir Hi0].
  pose proof (k_fb _ _ _ _ K) as [_ Hfb].
  destruct (k_file _ _ _ _ K j e He) as [F1 F2 F3 F4 F5]. rewrite Hfi in F3, Hi0. apply (own_block _ _ _ _ K) in F3.
  change (Z.to_nat NDIRECT) with 12%nat. rewrite xint_id by done. cbv zeta. set (a := d_addrs (fy e) !!! 12%nat) in *.
  assert (0 <= a < FSSIZE) as Ha by lia. destruct (block_read _ _ _ _ K a Ha) as [_ Hlen].
  assert (forall d, disk_addr d (fy e) fbn = rd32 (dblk d a) (4 * (fbn - NDIRECT))) as Ea.
  { intros d0. unfold disk_addr. fold a. by rewrite (proj2 (Z.ltb_ge _ _)), (proj2 (Z.eqb_neq a 0)) by lia. }
  assert (0 <= fbn < MAXFILE) as Hbm by (unfold NDIRECT in *; lia). specialize (F4 _ Hbm).
  unfold mbind at 1, M_bind at 1. rewrite (rsect_eq _ _ _ _ _ _ K) by done. rewrite <- Ea. destruct Hn as [->|Hn].
  - rewrite Z.ltb_irrefl in F4. rewrite F4, Z.eqb_refl. assert (fb < FSSIZE) by lia.
    unfold mbind, M_bind. rewrite take_block_eq by lia. rewrite xint_id by (unfold FSSIZE in *; lia).
    unfold wsect, modify, set_img, mret, M_ret. cbn [img freeinode freeblock].
    eexists (<[a := wr32 (dblk d a) (4 * (fn e - NDIRECT)) fb]> d), _, (fb + 1). split; [|split].
    + f_equal. f_equal. rewrite Ea, dblk_insert, decide_True by done. rewrite ind_entry by lia.
      rewrite decide_True by done. apply xint_id. unfold FSSIZE in *. lia.
    + by eapply step_entry.
    + intros b Hlt. etransitivity; [apply lookup_insert_ne; lia | done].
  - rewrite (proj2 (Z.ltb_lt _ _)) in F4 by lia. apply (own_block _ _ _ _ K) in F4. rewrite (proj2 (Z.eqb_neq _ 0)) by lia.
    exists d, own, fb. unfold mbind, M_bind, mret, M_ret. split; [|split; [|done]].
    + f_equal. f_equal. rewrite <- Ea. apply xint_id. unfold FSSIZE in *. lia.
    + rewrite Hn, <- Hfi. replace (Fent (fy e) (fc e) (fn e) (fi e)) with e by by destruct e. by rewrite list_insert_id.
Qed.

Lemma iappend_block_ok d fb es own i j e fbn :
  mk d fb es own -> es !! j = Some e -> fi e = (12 <? fn e) -> fbn = fn e \/ fbn + 1 = fn e -> 0 <= fbn < MAXFILE ->
  fb - cost e + cost (grown e (fy e) (fbn + 1)) <= FSSIZE ->
  exists d' y' own' fb', iappend_block (fy e) fbn (Mkfs d i fb) = OK (disk_addr d' y' fbn, y') (Mkfs d' i fb')
    /\ mk d' fb' (<[j := grown e y' (fbn + 1)]> es) own' /\ with_addrs (fy e) y' /\ low_same d d'.
Proof.
  intros K He Hfi Hn Hb Hc. destruct (Z.lt_ge_cases fbn NDIRECT) as [Hlt|Hge].
  { destruct (block_direct d fb es own i j e fbn) as (y' & own' & fb' & E & K' & Hy); try done; [lia|]. by exists d, y', own', fb'. }
  pose proof (fb_ge _ _ _ _ K). pose proof (ind_range _ _ _ _ K j e He) as [Hir Hi0]. pose proof (k_fb _ _ _ _ K) as [_ Hfb].
  unfold iappend_block. rewrite (proj2 (Z.ltb_ge _ _)) by done. change (Z.to_nat NDIRECT) with 12%nat in *.
  unfold cost, grown in Hc. cbn [fn fi] in Hc. unfold NDIRECT in Hge. rewrite Hfi, (proj2 (Z.ltb_lt 12 (fbn + 1))) in Hc by lia.
  rewrite xint_id by done. destruct (fi e) eqn:Ei.
  - rewrite (proj2 (Z.eqb_neq _ 0)) by (intros Z0; by apply Hi0 in Z0). rewrite <- Hfi in Hc; cbv iota in Hc.
    destruct (entry_ok d fb es own i j e fbn) as (d' & own' & fb' & E & K' & Hlow); try done; unfold NDIRECT in *; try lia.
    exists d', (fy e), own', fb'. split; [exact E|]. unfold grown. rewrite (proj2 (Z.ltb_lt 12 _)) by lia.
    split; [done|]. split; [by destruct (fy e) | done].
  - rewrite (proj2 Hi0 eq_refl), Z.eqb_refl. rewrite <- Hfi in Hc; cbv iota in Hc. symmetry in Hfi. apply Z.ltb_ge in Hfi.
    assert (fbn = 12 /\ fn e = 12) as [-> Hn12] by lia.
    rewrite (bind_OK _ _ _ (set_addr NDIRECT fb (fy e)) (Mkfs d i (fb + 1)))
      by (rewrite (bind_OK _ _ _ _ _ (take_block_eq d i fb ltac:(lia))), xint_id by (unfold FSSIZE in *; lia); done).
    set (e1 := Fent (set_addr NDIRECT fb (fy e)) (fc e) (fn e) true).
    assert (mk d (fb + 1) (<[j := e1]> es) (<[fb := (j, -1)]> own)) as K1 by (eapply step_ind; try done; lia).
    assert (<[j := e1]> es !! j = Some e1) as He1 by (apply list_lookup_insert_eq; by eapply lookup_lt_Some).
    destruct (entry_ok d (fb + 1) _ _ i j e1 12 K1 He1) as (d' & own' & fb' & E & K' & Hlow);
      [done | by left | done | subst e1; simpl; lia|].
    exists d', (set_addr NDIRECT fb (fy e)), own', fb'. split; [exact E|]. rewrite list_insert_insert_eq in K'. done.
Qed.

Definition nblk (n : Z) : Z := (n + 511) / 512.
Definition cost_of (n : Z) : Z := n + (if 12 <? n then 1 else 0).

(** The file with [y] and the bytes [c], and no block more than it needs. *)
Definition tight (y : dinode) (c : list Z) : fent :=
  let n := nblk (Z.of_nat (length c)) in Fent y c n (12 <? n).

Lemma cost_tight y c : cost (tight y c) = cost_of (nblk (Z.of_nat (length c))).
Proof. done. Qed.

Lemma cost_mono n n' : n <= n' -> cost_of n <= cost_of n'.
Proof. intros. unfold cost_of. destruct (Z.ltb_spec 12 n), (Z.ltb_spec 12 n'); lia. Qed.

Lemma with_addrs_trans x y z : with_addrs x y -> with_addrs y z -> with_addrs x z.
Proof. unfold with_addrs. intros -> ->. done. Qed.

Lemma low_same_insert d b v : 59 <= b -> low_same d (<[b := v]> d).
Proof. intros Hb c Hc. etransitivity; [apply lookup_insert_ne; lia | done]. Qed.

(** One turn of the loop: the rest of a block. *)
Lemma iappend_step d fb es own i j y c q :
  mk d fb es own -> es !! j = Some (tight y c) -> q <> [] ->
  let off := Z.of_nat (length c) in
  let fbn := off / BSIZE in
  off + Z.of_nat (length q) <= (fbn + 1) * BSIZE -> fbn < MAXFILE ->
  fb - cost (tight y c) + cost (tight y (c ++ q)) <= FSSIZE ->
  exists d' y' own' fb' x, iappend_block y fbn (Mkfs d i fb) = OK (x, y') (Mkfs d' i fb')
    /\ rsect x (Mkfs d' i fb') = OK (dblk d' x) (Mkfs d' i fb')
    /\ mk (<[x := blit (dblk d' x) (off - fbn * BSIZE) q]> d') fb' (<[j := tight y' (c ++ q)]> es) own'
    /\ with_addrs y y' /\ low_same d (<[x := blit (dblk d' x) (off - fbn * BSIZE) q]> d').
Proof.
  intros K He Hq off fbn Hfit Hmax Hc.
  assert (1 <= length q)%nat as Hq1 by (destruct q; [done | simpl; lia]).
  assert (nblk (Z.of_nat (length (c ++ q))) = fbn + 1) as Hnew
    by (rewrite length_app; unfold nblk, fbn, off, BSIZE in *; lia).
  destruct (iappend_block_ok d fb es own i j (tight y c) fbn K He) as (d' & y' & own' & fb' & E & K' & Hy & Hlow);
    [done | unfold tight, nblk, fbn, off, BSIZE in *; simpl; lia | unfold fbn, off, BSIZE in *; lia | |].
  { rewrite cost_tight, cost_tight, Hnew in Hc. by rewrite cost_tight. }
  set (e1 := grown (tight y c) y' (fbn + 1)) in *.
  assert (<[j := e1]> es !! j = Some e1) as He1 by (apply list_lookup_insert_eq; by eapply lookup_lt_Some).
  pose proof (step_write d' fb' _ _ K' j e1 He1 q) as K''. cbv zeta in K''. cbn [fc fy fn fi e1 grown tight] in K''. fold off fbn in K''.
  specialize (K'' ltac:(lia) ltac:(lia)).
  destruct (k_file _ _ _ _ K' j e1 He1) as [_ _ _ F4 _]. specialize (F4 fbn ltac:(unfold fbn, off, BSIZE in *; lia)).
  cbn [fy fn e1 grown tight] in F4. rewrite (proj2 (Z.ltb_lt _ _)) in F4 by lia. apply (own_block _ _ _ _ K') in F4.
  pose proof (k_fb _ _ _ _ K') as [_ Hfb].
  exists d', y', own', fb', (disk_addr d' y' fbn). split; [done|]. split; [eapply rsect_eq; [done | lia]|]. split_and!; try done.
  - rewrite list_insert_insert_eq in K''. unfold tight. by rewrite Hnew.
  - intros b Hb. rewrite (low_same_insert d') by lia. by apply Hlow.
Qed.

Lemma iappend_loop_ok fuel : forall p d fb es own i j y c,
  mk d fb es own -> es !! j = Some (tight y c) -> (length p < fuel)%nat ->
  Z.of_nat (length (c ++ p)) <= MAXFILE * BSIZE -> fb - cost (tight y c) + cost (tight y (c ++ p)) <= FSSIZE ->
  exists d' y' own' fb',
    iappend_loop fuel y (Z.of_nat (length c)) p (Mkfs d i fb) = OK (y', Z.of_nat (length (c ++ p))) (Mkfs d' i fb')
    /\ mk d' fb' (<[j := tight y' (c ++ p)]> es) own' /\ with_addrs y y' /\ low_same d d'.
Proof.
  induction fuel as [|fuel IH]; intros p d fb es own i j y c K He Hf Hmax Hc; [lia|]. cbn [iappend_loop].
  destruct p as [|v p'].
  { exists d, y, own, fb. rewrite app_nil_r. split; [done|]. rewrite list_insert_id by done. split; [done|]. split; [by destruct y | done]. }
  set (p := v :: p') in *. assert (1 <= length p)%nat as Hp1 by (subst p; simpl; lia). clearbody p. clear v p'.
  set (off := Z.of_nat (length c)). set (fbn := off / BSIZE). rewrite length_app in Hmax. rewrite MAXFILE_eq in *. 
  set (n1 := Z.min _ _). set (q := take (Z.to_nat n1) p). set (p2 := drop (Z.to_nat n1) p).
  assert (p = q ++ p2) as Ep by (unfold q, p2; by rewrite take_drop).
  assert (Z.of_nat (length q) = n1 /\ 1 <= n1) as [Hq Hn1]
    by (unfold q, n1; rewrite length_take; unfold fbn, off, BSIZE in *; lia).
  assert (length p2 < fuel)%nat as Hp2 by (unfold p2; rewrite length_drop; lia).
  rewrite (proj2 (Z.ltb_lt fbn 140)) by (unfold fbn, off, BSIZE in *; lia).
  assert (cost (tight y (c ++ q)) <= cost (tight y (c ++ p))) as Hmono.
  { rewrite !cost_tight. apply cost_mono. rewrite Ep, !length_app. unfold nblk. lia. }
  destruct (iappend_step d fb es own i j y c q K He) as (d1 & y1 & own1 & fb1 & x & E1 & E2 & K1 & Hy1 & Hlow1);
    [destruct q; [simpl in Hq; lia | done] | fold off fbn; unfold n1 in Hq; lia | fold off fbn; rewrite MAXFILE_eq; unfold fbn, off, BSIZE in *; lia | lia |].
  fold off fbn in E1, K1, Hlow1. unfold massert, mret at 1, M_ret at 1. unfold mbind at 1, M_bind at 1.
  rewrite (bind_OK _ _ _ _ _ E1), (bind_OK _ _ _ _ _ E2).
  assert (<[j := tight y1 (c ++ q)]> es !! j = Some (tight y1 (c ++ q))) as He1 by (apply list_lookup_insert_eq; by eapply lookup_lt_Some).
  pose proof (k_fb _ _ _ _ K) as [Hfb0 _]. pose proof (k_fb _ _ _ _ K1) as [Hfb1 _]. rewrite (files_insert _ _ _ _ He) in Hfb1.
  destruct (IH p2 _ fb1 _ own1 i j y1 (c ++ q) K1 He1 Hp2) as (d' & y' & own' & fb' & E & K' & Hy & Hlow).
  { rewrite <- app_assoc, <- Ep, length_app. lia. }
  { rewrite <- app_assoc, <- Ep. rewrite !cost_tight in *. lia. }
  exists d', y', own', fb'. rewrite <- app_assoc, <- Ep in E, K'. rewrite list_insert_insert_eq in K'. split_and!; try done.
  - rewrite length_app, Nat2Z.inj_add, Hq in E. exact E.
  - by eapply with_addrs_trans.
  - intros b Hb. rewrite Hlow by done. by apply Hlow1.
Qed.

(** * Inodes *)

Lemma iblock_eq n : 0 <= n < 208 -> 32 <= IBLOCK n sb < 58 /\ IBLOCK n sb = n / 8 + 32 /\ dinode_off n = 64 * (n mod 8).
Proof. intros Hn. rewrite sb_eq. unfold IBLOCK, dinode_off. change IPB with 8. change DINODE_SIZE with 64. simpl. lia. Qed.

Lemma rinode_eq d fb es own i n : mk d fb es own -> 0 <= n < 208 -> rinode n (Mkfs d i fb) = OK (disk_inode d sb n) (Mkfs d i fb).
Proof.
  intros K Hn. destruct (iblock_eq n Hn) as [Hb _]. unfold rinode. erewrite bind_OK; [|eapply rsect_eq; [done | unfold FSSIZE; lia]]. done.
Qed.

Lemma winode_ok d fb es own i n y :
  mk d fb es own -> 0 <= n < 208 -> dinode_ok y ->
  exists d', winode n y (Mkfs d i fb) = OK tt (Mkfs d' i fb) /\ mk d' fb es own /\ disk_inode d' sb n = y
    /\ (forall n', 0 <= n' < 208 -> n' <> n -> disk_inode d' sb n' = disk_inode d sb n')
    /\ (forall b, b < 32 -> dblk d' b = dblk d b).
Proof.
  intros K Hn Hy. destruct (iblock_eq n Hn) as (Hb & Eb & Eo). unfold winode. set (b := IBLOCK n sb) in *.
  destruct (block_read _ _ _ _ K b) as [_ Hl]; [unfold FSSIZE; lia|].
  exists (<[b := wr_dinode (dblk d b) (dinode_off n) y]> d). split_and!.
  - erewrite bind_OK; [|eapply rsect_eq; [done | unfold FSSIZE; lia]]. done.
  - apply mk_meta; [done | lia | by rewrite length_wr_dinode].
  - unfold disk_inode. fold b. rewrite dblk_insert, decide_True by done. apply rd_wr_dinode; [lia | lia | done].
  - intros n' Hn' Hne. destruct (iblock_eq n' Hn') as (Hb' & Eb' & Eo'). unfold disk_inode. rewrite dblk_insert.
    case_decide as E; [|done]. rewrite E. apply rd_wr_dinode_ne; lia.
  - intros c Hc. rewrite dblk_insert, decide_False by lia. done.
Qed.

Lemma low_inode d d' n : low_same d d' -> 0 <= n < 208 -> disk_inode d' sb n = disk_inode d sb n.
Proof. intros H Hn. destruct (iblock_eq n Hn) as [Hb _]. unfold disk_inode, dblk. by rewrite H by lia. Qed.

(** * The image with its files *)

(** The inode of a file with a type and bytes. *)
Record inode_for (y : dinode) (ty n : Z) : Prop := {
  if_ty : d_type y = ty;
  if_dev : d_major y = 0 /\ d_minor y = 0;
  if_nlink : d_nlink y = 1;
  if_size : d_size y = n }.

Definition blocks_of (fl : list (Z * list Z)) : Z :=
  foldr Z.add 0 ((fun f => cost_of (nblk (Z.of_nat (length f.2)))) <$> fl).

(** The image has the files [fl], inode k + 1 for the k-th. *)
Definition image (s : mkfs_t) (fl : list (Z * list Z)) : Prop :=
  exists es own, mk (img s) (freeblock s) es own /\ length es = length fl
    /\ (forall k ty c, fl !! k = Some (ty, c) -> exists y, es !! k = Some (tight y c)
          /\ disk_inode (img s) sb (Z.of_nat k + 1) = y /\ inode_for y ty (Z.of_nat (length c)))
    /\ freeinode s = 1 + Z.of_nat (length fl)
    /\ (forall b, b < 32 -> dblk (img s) b = if decide (b = 1) then wr_sb zero_block sb else zero_block).

Lemma image_blocks s fl : image s fl -> freeblock s = 59 + blocks_of fl /\ freeblock s <= FSSIZE.
Proof.
  intros (es & own & K & Hl & Hf & _). destruct (k_fb _ _ _ _ K) as [-> Hfb]. split; [|done]. rewrite nmeta_eq. f_equal. clear K Hfb.
  unfold total, blocks_of. f_equal. apply list_eq. intros k. rewrite !list_lookup_fmap.
  destruct (fl !! k) as [[ty c]|] eqn:E.
  - destruct (Hf k ty c E) as (y & -> & _). done.
  - apply lookup_ge_None in E. rewrite lookup_ge_None_2; [done | lia].
Qed.

Lemma blocks_insert fl j ty c c' : fl !! j = Some (ty, c) ->
  blocks_of (<[j := (ty, c')]> fl) = blocks_of fl - cost_of (nblk (Z.of_nat (length c))) + cost_of (nblk (Z.of_nat (length c'))).
Proof.
  unfold blocks_of. revert j. induction fl as [|x fl IH]; intros [|j] E; simplify_eq/=; [lia|]. rewrite (IH j E). lia.
Qed.

Lemma with_addrs_for y y' ty n : with_addrs y y' -> inode_for y ty n -> inode_for y' ty n.
Proof. unfold with_addrs. intros -> [H1 [H2 H3] H4 H5]. by split. Qed.

(** An inode with the same addresses. *)
Lemma mk_inode d fb es own j e y :
  mk d fb es own -> es !! j = Some e -> d_addrs y = d_addrs (fy e) -> dinode_ok y ->
  mk d fb (<[j := Fent y (fc e) (fn e) (fi e)]> es) own.
Proof.
  intros K He Ha Hy. destruct (k_file _ _ _ _ K j e He) as [F1 F2 F3 F4 F5].
  assert (forall bn, disk_addr d y bn = disk_addr d (fy e) bn) as Hd by (intros; unfold disk_addr; by rewrite Ha).
  apply (mk_update d fb es own K d own fb j e); [done | apply K | unfold cost; simpl; lia | apply K | apply K | | | apply K].
  - split; cbn [fy fc fn fi]; try done; [by rewrite Ha | intros; rewrite Hd; by apply F4|].
    intros k Hk. unfold disk_byte. rewrite Hd. by apply F5.
  - intros. by apply (k_file _ _ _ _ K).
Qed.

Lemma size_ok y n : dinode_ok y -> 0 <= n < 2 ^ 32 -> dinode_ok (set_size n y).
Proof. intros [H1 H2 H3 H4 H5 H6] Hn. by split. Qed.

Lemma iappend_ok s fl j ty c p :
  image s fl -> fl !! j = Some (ty, c) -> (length fl < 207)%nat ->
  Z.of_nat (length (c ++ p)) <= MAXFILE * BSIZE -> 59 + blocks_of (<[j := (ty, c ++ p)]> fl) <= FSSIZE ->
  wp (iappend (Z.of_nat j + 1) p) s (fun _ s' => image s' (<[j := (ty, c ++ p)]> fl)).
Proof.
  intros Im Hj Hlen Hmax Hc. pose proof (image_blocks s fl Im) as [Hfb _]. destruct Im as (es & own & K & Hl & Hf & Hi & H1).
  destruct (Hf j ty c Hj) as (y & He & Hd & Hy). destruct s as [d i fb]. cbn [img freeinode freeblock] in *.
  assert (j < length fl)%nat as Hjl by by eapply lookup_lt_Some. rewrite (blocks_insert _ _ _ _ _ Hj) in Hc.
  assert (0 <= Z.of_nat (length c) < 2 ^ 32 /\ 0 <= Z.of_nat (length (c ++ p)) < 2 ^ 32) as [Hcl Hcl']
    by (rewrite length_app, MAXFILE_eq in *; unfold BSIZE in *; lia).
  destruct (iappend_loop_ok (S (length p)) p d fb es own i j y c K He) as (d1 & y1 & own1 & fb1 & E & K1 & Hy1 & Hlow);
    [lia | done | rewrite !cost_tight; lia |].
  unfold wp, iappend. rewrite (bind_OK _ _ _ _ _ (rinode_eq _ _ _ _ i (Z.of_nat j + 1) K ltac:(lia))), Hd.
  rewrite (if_size _ _ _ Hy), xint_id by lia. rewrite (bind_OK _ _ _ _ _ E). rewrite xint_id by lia.
  assert (<[j := tight y1 (c ++ p)]> es !! j = Some (tight y1 (c ++ p))) as He1 by (apply list_lookup_insert_eq; by eapply lookup_lt_Some).
  pose proof (size_ok _ _ (fr_ok _ _ _ _ (k_file _ _ _ _ K1 j _ He1)) Hcl') as Hok. cbn [fy tight] in Hok.
  set (y2 := set_size (Z.of_nat (length (c ++ p))) y1) in *.
  pose proof (mk_inode _ _ _ _ j _ y2 K1 He1 eq_refl Hok) as K2. rewrite list_insert_insert_eq in K2.
  destruct (winode_ok d1 fb1 _ _ i (Z.of_nat j + 1) y2 K2) as (d2 & -> & K3 & Hd2 & Hother & Hlow2); [lia | done |].
  exists (<[j := tight y2 (c ++ p)]> es), own1. cbn [img freeinode freeblock]. split_and!.
  - exact K3.
  - by rewrite !length_insert.
  - intros k ty' c' Hk. destruct (decide (k = j)) as [->|Hne].
    + rewrite list_lookup_insert_eq in Hk by done. injection Hk as <- <-. exists y2. split; [apply list_lookup_insert_eq; lia|]. split; [done|].
      apply (with_addrs_for _ _ _ _ Hy1) in Hy as [Y1 Y2 Y3 Y4]. by split.
    + rewrite list_lookup_insert_ne in Hk by done. destruct (Hf k ty' c' Hk) as (y' & He' & Hd' & Hy'). exists y'.
      rewrite list_lookup_insert_ne by done. split_and!; try done.
      assert (k < length fl)%nat by by eapply lookup_lt_Some. rewrite Hother by lia. by rewrite (low_inode d d1) by (done || lia).
  - by rewrite length_insert.
  - intros b Hb. rewrite Hlow2 by lia. rewrite <- H1 by done. unfold dblk. by rewrite Hlow by lia.
Qed.

Lemma ialloc_ok s fl ty :
  image s fl -> (length fl < 206)%nat -> 0 <= ty < 32768 ->
  wp (mk_ialloc ty) s (fun n s' => n = Z.of_nat (length fl) + 1 /\ image s' (fl ++ [(ty, [])])).
Proof.
  intros Im Hlen Hty. destruct Im as (es & own & K & Hl & Hf & Hi & H1). destruct s as [d i fb]. cbn [img freeinode freeblock] in *. subst i.
  unfold wp, mk_ialloc, gets, modify, mbind, M_bind. cbn [img freeinode freeblock]. rewrite u32_id by lia.
  rewrite xshort_id by lia. change (xshort 1) with 1. change (xint 0) with 0. set (y := Dinode ty 0 0 1 0 (replicate 13 0)).
  assert (dinode_ok y) as Hy by (split; simpl; try lia; split; [done|]; repeat constructor; lia).
  destruct (winode_ok d fb es own (1 + Z.of_nat (length fl) + 1) (1 + Z.of_nat (length fl)) y K) as (d' & -> & K' & Hd & Hother & Hlow);
    [lia | done |]. simpl. split; [lia|].
  exists (es ++ [tight y []]), own. cbn [img freeinode freeblock]. split_and!.
  - destruct K' as [K1 K2 K3 K4 K5]. split; try done.
    + unfold total. rewrite fmap_app, foldr_app. simpl. destruct K2 as [-> ?]. split; [|done].
      unfold total. f_equal.
    + intros k e. rewrite lookup_app_Some. intros [He|[Hk He]]; [by apply K4|].
      apply list_lookup_singleton_Some in He as [Hk0 <-]. split; cbn [fy fc fn fi tight].
      * done.
      * unfold nblk, MAXFILE, NINDIRECT, NDIRECT, BSIZE. simpl. lia.
      * done.
      * intros bn Hbn. change (nblk (Z.of_nat (length []))) with 0. rewrite (proj2 (Z.ltb_ge _ _)) by lia.
        unfold disk_addr, NDIRECT. destruct (Z.ltb_spec bn 12); [|done]. apply lookup_total_replicate_2. lia.
      * intros k' Hk'. unfold disk_byte, cbyte. rewrite lookup_nil.
        assert (disk_addr d' y (k' / BSIZE) = 0) as ->; [|done].
        unfold disk_addr, NDIRECT, BSIZE in *. destruct (Z.ltb_spec (k' / 512) 12); [|done]. apply lookup_total_replicate_2. lia.
  - rewrite !length_app. simpl. lia.
  - intros k ty' c' Hk. apply lookup_app_Some in Hk as [Hk|[Hk E]].
    + destruct (Hf k ty' c' Hk) as (y' & He' & Hd' & Hy'). exists y'. assert (k < length fl)%nat by by eapply lookup_lt_Some.
      rewrite lookup_app_l by lia. split_and!; try done. by rewrite Hother by lia.
    + apply list_lookup_singleton_Some in E as [E [= <- <-]]. assert (k = length fl) as -> by lia. exists y.
      rewrite lookup_app_r, Hl, Nat.sub_diag by lia. split_and!; try done. by rewrite Z.add_comm.
  - rewrite length_app. simpl. lia.
  - intros b Hb. rewrite Hlow by done. by apply H1.
Qed.

(** * main *)

Lemma blocks_of_cons f fl : blocks_of (f :: fl) = cost_of (nblk (Z.of_nat (length f.2))) + blocks_of fl.
Proof. done. Qed.

Lemma blocks_of_app fl fl' : blocks_of (fl ++ fl') = blocks_of fl + blocks_of fl'.
Proof. induction fl as [|f fl IH]; [done|]. rewrite <- app_comm_cons, !blocks_of_cons, IH. lia. Qed.

Lemma cost_of_nonneg (c : list Z) : 0 <= cost_of (nblk (Z.of_nat (length c))).
Proof. unfold cost_of, nblk. case_match; lia. Qed.

Lemma blocks_of_nonneg fl : 0 <= blocks_of fl.
Proof. induction fl as [|f fl IH]; [done|]. rewrite blocks_of_cons. pose proof (cost_of_nonneg f.2). lia. Qed.

Lemma cost_of_app (c p : list Z) : cost_of (nblk (Z.of_nat (length c))) <= cost_of (nblk (Z.of_nat (length (c ++ p)))).
Proof. apply cost_mono. rewrite length_app. unfold nblk. lia. Qed.

Lemma append_file_ok fuel : forall s fl j ty c l,
  image s fl -> fl !! j = Some (ty, c) -> (length fl < 207)%nat -> (length l < fuel)%nat ->
  Z.of_nat (length (c ++ l)) <= MAXFILE * BSIZE -> 59 + blocks_of (<[j := (ty, c ++ l)]> fl) <= FSSIZE ->
  wp (append_file fuel (Z.of_nat j + 1) l) s (fun _ s' => image s' (<[j := (ty, c ++ l)]> fl)).
Proof.
  induction fuel as [|fuel IH]; intros s fl j ty c l Im Hj Hlen Hf Hmax Hc; [lia|]. cbn [append_file].
  destruct l as [|v l']; [apply wp_ret; by rewrite app_nil_r, list_insert_id|].
  set (l := v :: l') in *. assert (1 <= length l)%nat as Hl1 by (subst l; simpl; lia). clearbody l. clear v l'.
  assert (c ++ l = (c ++ take 512 l) ++ drop 512 l) as El by by rewrite <- app_assoc, take_drop.
  rewrite El in *. rewrite (blocks_insert _ _ _ _ _ Hj) in Hc. pose proof (cost_of_app (c ++ take 512 l) (drop 512 l)).
  apply wp_bind. eapply wp_mono; [eapply (iappend_ok s fl j ty c (take 512 l)); try done|].
  - rewrite !length_app in *. lia.
  - rewrite (blocks_insert _ _ _ _ _ Hj). lia.
  - intros [] s1 Im1. assert (j < length fl)%nat by by eapply lookup_lt_Some.
    eapply wp_mono; [eapply (IH s1 _ j ty (c ++ take 512 l) (drop 512 l) Im1)|].
    + by apply list_lookup_insert_eq.
    + by rewrite length_insert.
    + rewrite length_drop. lia.
    + done.
    + rewrite list_insert_insert_eq. by rewrite (blocks_insert _ _ _ _ _ Hj).
    + intros [] s2. by rewrite list_insert_insert_eq.
Qed.

(** The entries of the root directory for the files, the first with inode
    [n]. *)
Fixpoint dirents (n : Z) (files : list (list Z * list Z)) : list Z :=
  match files with
  | [] => []
  | (name, _) :: files => mk_dirent n (strip name) ++ dirents (n + 1) files
  end.

Definition file_list (files : list (list Z * list Z)) : list (Z * list Z) := (fun f => (T_FILE, f.2)) <$> files.

(** Names are without slashes, and no file is too long. *)
Definition file_fits (f : list Z * list Z) : Prop := ~ 47 ∈ f.1 /\ Z.of_nat (length f.2) <= MAXFILE * BSIZE.

Lemma length_dirents n files : Z.of_nat (length (dirents n files)) = 16 * Z.of_nat (length files).
Proof.
  revert n. induction files as [|[name l] files IH]; intros n; [done|]. cbn [dirents length]. rewrite length_app, Nat2Z.inj_add, IH.
  rewrite length_dirent. lia.
Qed.

Lemma add_files_ok files : forall s r fl,
  image s ((T_DIR, r) :: fl) -> (length fl + length files < 200)%nat -> Forall file_fits files ->
  let r' := r ++ dirents (Z.of_nat (length fl) + 2) files in
  Z.of_nat (length r') <= MAXFILE * BSIZE ->
  59 + blocks_of ((T_DIR, r') :: fl ++ file_list files) <= FSSIZE ->
  wp (add_files 1 files) s (fun _ s' => image s' ((T_DIR, r') :: fl ++ file_list files)).
Proof.
  induction files as [|[name l] files IH]; intros s r fl Im Hn Hfit r' Hr Hc; subst r'.
  { simpl. apply wp_ret. by rewrite !app_nil_r. }
  apply Forall_cons in Hfit as [[Hname Hl] Hfit]. cbn [fst snd] in *. cbn [length dirents file_list fmap list_fmap snd] in *. cbn [add_files].
  assert (existsb (Z.eqb 47) name = false) as ->.
  { apply not_true_is_false. intros H. apply existsb_exists in H as (x & Hx & E). apply Z.eqb_eq in E. subst x.
    apply Hname. by apply list_elem_of_In. }
  cbn [negb massert]. set (n := Z.of_nat (length fl) + 2) in *. set (de := mk_dirent n (strip name)) in *.
  fold (file_list files) in Hc |- *. rewrite app_assoc in Hr, Hc.
  assert (Z.of_nat (length (fl ++ [(T_FILE, l)])) + 2 = n + 1) as En by (rewrite length_app; simpl; lia).
  rewrite !blocks_of_cons, blocks_of_app, blocks_of_cons in Hc. cbn [snd] in Hc.
  pose proof (cost_of_app (r ++ de) (dirents (n + 1) files)). pose proof (blocks_of_nonneg (file_list files)). pose proof (cost_of_nonneg l).
  apply wp_bind, wp_ret, wp_bind. eapply wp_mono; [apply (ialloc_ok s _ T_FILE Im); [simpl; lia | unfold T_FILE; lia]|].
  intros inum s1 [Hin Im1]. cbn [length] in Hin. assert (inum = n) as -> by lia. rewrite xshort_id by lia. fold de.
  apply wp_bind. eapply wp_mono; [apply (iappend_ok s1 _ 0 T_DIR r de Im1); [done | rewrite length_app; simpl; lia | rewrite length_app in Hr; lia |]|].
  { simpl. rewrite !blocks_of_cons, blocks_of_app, blocks_of_cons. change (blocks_of []) with 0. change (cost_of (nblk (Z.of_nat (length (T_FILE, @nil Z).2)))) with 0. cbn [snd]. lia. }
  intros [] s2 Im2. simpl in Im2. apply wp_bind.
  replace n with (Z.of_nat (S (length fl)) + 1) at 1 by lia.
  eapply wp_mono; [apply (append_file_ok _ s2 _ (S (length fl)) T_FILE [] l Im2); [simpl; by rewrite lookup_app_r, Nat.sub_diag by lia | simpl; rewrite length_app; simpl; lia | lia | done |]|].
  { simpl. rewrite insert_app_r_alt, Nat.sub_diag by lia. simpl. rewrite blocks_of_cons, blocks_of_app, blocks_of_cons. change (blocks_of []) with 0. cbn [snd]. lia. }
  intros [] s3 Im3. simpl in Im3. rewrite insert_app_r_alt, Nat.sub_diag in Im3 by lia. simpl in Im3.
  eapply wp_mono; [apply (IH s3 (r ++ de) (fl ++ [(T_FILE, l)]) Im3); rewrite ?En|].
  - rewrite length_app. simpl. lia.
  - done.
  - done.
  - rewrite !blocks_of_cons, !blocks_of_app, blocks_of_cons. change (blocks_of []) with 0. cbn [snd]. lia.
  - intros [] s4. rewrite En, app_assoc, <- (app_assoc fl). done.
Qed.

(** * The image *)

Lemma zeroed (l : list Z) (d : disk_t) b :
  foldl (fun d i => <[i := zero_block]> d) d l !! b = if decide (b ∈ l) then Some zero_block else d !! b.
Proof.
  revert d. induction l as [|x l IH]; intros d; cbn [foldl].
  - rewrite decide_False; [done | apply not_elem_of_nil].
  - rewrite IH. destruct (decide (b ∈ l)) as [H|H]; [rewrite decide_True; [done | by right]|].
    destruct (decide (b = x)) as [->|Hne].
    + rewrite decide_True by by left. apply lookup_insert_eq.
    + rewrite decide_False by (rewrite elem_of_cons; naive_solver). by apply lookup_insert_ne.
Qed.

Lemma bitmap n : (n <= 4096)%nat ->
  let bm := foldl set_bit zero_block (seqZ 0 (Z.of_nat n)) in
  length bm = 512%nat /\ forall b, 0 <= b < 4096 -> bit_at bm b = (b <? Z.of_nat n).
Proof.
  induction n as [|n IH]; intros Hn; cbv zeta.
  - split; [done|]. intros b Hb. simpl. rewrite (proj2 (Z.ltb_ge _ _)) by lia. unfold bit_at. rewrite rd8_zero by lia. apply Z.bits_0.
  - destruct IH as [IH1 IH2]; [lia|]. rewrite Nat2Z.inj_succ, <- Z.add_1_r, seqZ_app, foldl_app by lia.
    assert (forall z, seqZ z 1 = [z]) as -> by (intros; unfold seqZ; simpl; f_equal; lia). cbn [foldl]. rewrite Z.add_0_l.
    split; [by rewrite length_set_bit|]. intros b Hb. rewrite bit_set, IH2 by (unfold BPB, BSIZE; lia || done).
    destruct (Z.eqb_spec b (Z.of_nat n)), (Z.ltb_spec b (Z.of_nat n)), (Z.ltb_spec b (Z.of_nat n + 1)); done || lia.
Qed.

(** The image before the first file. *)
Lemma image_start d :
  d = <[1 := wr_sb zero_block sb]> (foldl (fun d i => <[i := zero_block]> d) ∅ (seqZ 0 FSSIZE)) ->
  image (Mkfs d 1 nmeta) [].
Proof.
  intros ->. set (d := foldl _ _ _).
  assert (forall b, dblk d b = zero_block) as Hz.
  { intros b. unfold dblk, d. rewrite zeroed. by case_decide. }
  assert (forall b, 0 <= b < FSSIZE -> d !! b = Some zero_block) as Hd.
  { intros b Hb. unfold d. rewrite zeroed, decide_True; [done|]. apply elem_of_seqZ. lia. }
  clearbody d. exists [], ∅. cbn [img freeinode freeblock]. split_and!; try done.
  - split; try done.
    + intros b Hb. destruct (decide (b = 1)) as [->|Hne].
      * exists (wr_sb zero_block sb). split; [apply lookup_insert_eq | reflexivity].
      * exists zero_block. split; [|done]. etransitivity; [by apply lookup_insert_ne|]. by apply Hd.
    + intros b Hb. rewrite nmeta_eq in Hb. rewrite dblk_insert, decide_False by lia. apply Hz.
  - intros b Hb. rewrite dblk_insert. case_decide; [done | apply Hz].
Qed.

(** What mkfs is given: few enough files, each short enough, and all of them
    with the root directory in the blocks of the disk. *)
Definition root_dir (files : list (list Z * list Z)) : list Z :=
  mk_dirent 1 [46] ++ mk_dirent 1 [46; 46] ++ dirents 2 files.
Definition all_files (files : list (list Z * list Z)) : list (Z * list Z) := (T_DIR, root_dir files) :: file_list files.
Definition image_fits (files : list (list Z * list Z)) : Prop :=
  (length files < 200)%nat /\ Forall file_fits files /\ 59 + blocks_of (all_files files) <= FSSIZE.

(** What the kernel finds on the disk: [u] is the first free block. *)
Record made (d : disk_t) (u : Z) (files : list (list Z * list Z)) : Prop := {
  m_sb : rdsb (dblk d 1) = SB FSSIZE 941 NINODES 30 2 32 58;
  m_log : forall b, 2 <= b < 32 -> dblk d b = zero_block;
  m_bitmap : forall b, 0 <= b < FSSIZE -> bit_at (dblk d 58) b = (b <? u);
  m_root : d_type (disk_inode d sb ROOTINO) = T_DIR
    /\ file_on d sb ROOTINO ((Z.of_nat (length (root_dir files)) / BSIZE + 1) * BSIZE) (cbyte (root_dir files));
  m_files : forall k name l, files !! k = Some (name, l) ->
    let inum := Z.of_nat k + 2 in
    d_type (disk_inode d sb inum) = T_FILE /\ d_nlink (disk_inode d sb inum) = 1
    /\ file_on d sb inum (Z.of_nat (length l)) (cbyte l);
  m_blocks : forall i i' bn bn', 1 <= i <= Z.of_nat (length files) + 1 -> 1 <= i' <= Z.of_nat (length files) + 1 ->
    0 <= bn < MAXFILE -> 0 <= bn' < MAXFILE ->
    let a := disk_addr d (disk_inode d sb i) bn in
    a <> 0 -> nmeta <= a < u /\ (a = disk_addr d (disk_inode d sb i') bn' -> i = i' /\ bn = bn') }.

Lemma length_root files : Z.of_nat (length (root_dir files)) = 32 + 16 * Z.of_nat (length files).
Proof. unfold root_dir. rewrite !length_app, !length_dirent, !Nat2Z.inj_add, length_dirents. lia. Qed.

Lemma file_list_lookup files k f r : files !! k = Some f -> (r :: file_list files) !! S k = Some (T_FILE, f.2).
Proof. intros Hk. change (file_list files !! k = Some (T_FILE, f.2)). unfold file_list. by rewrite list_lookup_fmap, Hk. Qed.

(** The image, from its files. *)
Lemma made_intro d u es own files :
  mk d u es own -> (length files < 200)%nat -> length es = S (length files) ->
  (forall k e, es !! k = Some e -> disk_inode d sb (Z.of_nat k + 1) = fy e) ->
  (forall k f, files !! k = Some f -> exists y, es !! S k = Some (tight y f.2) /\ inode_for y T_FILE (Z.of_nat (length f.2))) ->
  (exists e, es !! 0%nat = Some e /\ fc e = root_dir files
     /\ inode_for (fy e) T_DIR ((Z.of_nat (length (root_dir files)) / BSIZE + 1) * BSIZE)) ->
  (forall b, b < 32 -> dblk d b = if decide (b = 1) then wr_sb zero_block sb else zero_block) ->
  (forall b, 0 <= b < FSSIZE -> bit_at (dblk d 58) b = (b <? u)) ->
  made d u files.
Proof.
  intros K Hn Hes Hin Hf (e0 & He0 & Hc0 & Hy0) Hlow Hbm.
  assert (forall i, 1 <= i <= Z.of_nat (length files) + 1 -> exists e, es !! Z.to_nat (i - 1) = Some e /\ disk_inode d sb i = fy e) as Hi.
  { intros i Hi. destruct (lookup_lt_is_Some_2 es (Z.to_nat (i - 1))) as [e He]; [lia|]. exists e. split; [done|].
    rewrite <- (Hin _ _ He). f_equal. lia. }
  split.
  - rewrite Hlow, decide_True by lia. reflexivity.
  - intros b Hb. rewrite Hlow, decide_False by lia. done.
  - done.
  - pose proof (Hin _ _ He0) as E. change (Z.of_nat 0 + 1) with ROOTINO in E. rewrite E. split; [apply Hy0|].
    split; rewrite E; [apply Hy0|]. intros k Hk. rewrite <- Hc0. apply (fr_byte _ _ _ _ (k_file _ _ _ _ K _ _ He0)).
    rewrite length_root in Hk. rewrite MAXFILE_eq. unfold BSIZE in *. lia.
  - intros k name l Hk inum. destruct (Hf k (name, l) Hk) as (y & He & Hy). cbn [snd] in *. pose proof (Hin _ _ He) as E.
    replace (Z.of_nat (S k) + 1) with inum in E by lia. rewrite E. cbn [fy tight]. split; [apply Hy|]. split; [apply Hy|].
    split; rewrite E; cbn [fy tight]; [apply Hy|]. intros z Hz. destruct (k_file _ _ _ _ K _ _ He) as [_ [F2 F2'] _ _ F5]. cbn [fy fc fn tight] in *.
    apply F5. rewrite MAXFILE_eq in *. unfold BSIZE in *. lia.
  - intros i i' bn bn' Hri Hri' Hbn Hbn' a Ha. destruct (Hi i Hri) as (e & He & E), (Hi i' Hri') as (e' & He' & E').
    subst a. rewrite E, E' in *. pose proof (fr_addr _ _ _ _ (k_file _ _ _ _ K _ _ He) bn Hbn) as H1. destruct (_ <? _); [|done].
    split; [by apply (k_own _ _ _ _ K) in H1|]. intros Eq. rewrite Eq in *.
    pose proof (fr_addr _ _ _ _ (k_file _ _ _ _ K _ _ He') bn' Hbn') as H2. destruct (_ <? _); [|done].
    rewrite H1 in H2. injection H2. lia.
Qed.

Lemma finish_ok s files :
  image s (all_files files) -> (length files < 200)%nat ->
  wp (fix_root 1;; used ← gets freeblock; mk_balloc used) s (fun _ s' => made (img s') (freeblock s') files).
Proof.
  intros (es & own & K & Hl & Hf & Hi & Hlow) Hn. unfold all_files in *. cbn [length] in Hl, Hi.
  unfold file_list in Hl. rewrite length_fmap in Hl.
  destruct (Hf 0%nat _ _ eq_refl) as (y & He & Hd & Hy). destruct s as [d i fb]. cbn [img freeinode freeblock] in *.
  change (Z.of_nat 0 + 1) with 1 in Hd. pose proof (length_root files) as Hr.
  set (z := (Z.of_nat (length (root_dir files)) / BSIZE + 1) * BSIZE).
  assert (0 <= z < 2 ^ 32) as Hz by (unfold z, BSIZE; lia).
  pose proof (size_ok _ z (fr_ok _ _ _ _ (k_file _ _ _ _ K _ _ He)) Hz) as Hok. cbn [fy tight] in Hok.
  pose proof (mk_inode _ _ _ _ _ _ (set_size z y) K He eq_refl Hok) as K1. cbn [fc fn fi tight] in K1.
  destruct (winode_ok d fb _ _ i 1 (set_size z y) K1) as (d1 & E1 & K2 & Hd1 & Hother & Hlow1); [lia | done|].
  pose proof (k_fb _ _ _ _ K2) as [_ Hfb]. pose proof (fb_ge _ _ _ _ K2). unfold FSSIZE in Hfb.
  assert (fix_root 1 (Mkfs d i fb) = OK tt (Mkfs d1 i fb)) as Efix.
  { unfold fix_root. rewrite (bind_OK _ _ _ _ _ (rinode_eq _ _ _ _ i 1 K ltac:(lia))), Hd. rewrite (if_size _ _ _ Hy).
    rewrite (xint_id (Z.of_nat (length (root_dir files)))) by lia. fold z. by rewrite xint_id by done. }
  unfold wp. rewrite (bind_OK _ _ _ _ _ Efix). unfold mk_balloc, massert, gets, mbind, M_bind. cbn [freeblock].
  rewrite (proj2 (Z.ltb_lt _ _)) by (unfold BSIZE; lia). unfold mret, M_ret, wsect, modify, set_img. cbn [img freeinode freeblock].
  destruct (bitmap (Z.to_nat fb)) as [Hbl Hbm]; [lia|]. rewrite Z2Nat.id in Hbl, Hbm by lia.
  change (sb_bmapstart sb) with 58. set (bm := foldl set_bit zero_block (seqZ 0 fb)) in *. clearbody bm.
  set (d2 := <[58 := bm]> d1).
  assert (forall n, 0 <= n < 208 -> disk_inode d2 sb n = disk_inode d1 sb n) as Hin.
  { intros n Hn'. destruct (iblock_eq n Hn') as [Hb _]. unfold disk_inode, d2. by rewrite dblk_insert, decide_False by lia. }
  apply (made_intro d2 fb _ own files (mk_meta _ _ _ _ K2 58 bm ltac:(lia) Hbl)); try done.
  - by rewrite length_insert, Hl.
  - intros k e Hk. assert (k < length es)%nat by (apply lookup_lt_Some in Hk; by rewrite length_insert in Hk). rewrite Hin by lia.
    destruct k as [|k]; [rewrite list_lookup_insert_eq in Hk by lia; injection Hk as <-; done|].
    rewrite list_lookup_insert_ne in Hk by done. rewrite Hother by lia.
    destruct (lookup_lt_is_Some_2 files k) as [f Hfk]; [lia|].
    destruct (Hf (S k) T_FILE f.2) as (y' & He' & Hd' & _); [by apply (file_list_lookup files k f)|].
    rewrite He' in Hk. injection Hk as <-. done.
  - intros k f Hk. destruct (Hf (S k) T_FILE f.2) as (y' & He' & Hd' & Hy'); [by apply (file_list_lookup files k f)|].
    exists y'. by rewrite list_lookup_insert_ne.
  - eexists. split; [apply list_lookup_insert_eq; lia|]. split; [done|]. destruct Hy as [H1 H2 H3 H4]. by split.
  - intros b Hb. unfold d2. rewrite dblk_insert, decide_False by lia. rewrite Hlow1 by done. by apply Hlow.
  - intros b Hb. unfold d2, FSSIZE in *. rewrite dblk_insert, decide_True by done. apply Hbm. lia.
Qed.

(** C15: on a disk that mkfs has made, the kernel finds the superblock that it
    expects, an empty log, a bitmap that marks exactly the blocks in use, a
    root directory with the entries of the files, and for each file an inode
    with its length and its bytes; no block belongs to two files.  This is for
    files that fit on the disk, without slashes in their names. *)
Theorem mkfs_image files :
  image_fits files ->
  exists s, mkfs_main files mkfs_start = OK tt s /\ made (img s) (freeblock s) files.
Proof.
  intros (Hn & Hfit & Hc). enough (wp (mkfs_main files) mkfs_start (fun _ s => made (img s) (freeblock s) files)) as H.
  { unfold wp in H. destruct (mkfs_main files mkfs_start) as [[] s| | |]; by try exists s. }
  pose proof (length_root files) as Hr. unfold all_files in Hc. rewrite blocks_of_cons in Hc. cbn [snd] in Hc.
  pose proof (blocks_of_nonneg (file_list files)).
  pose proof (cost_of_app (mk_dirent 1 [46]) (mk_dirent 1 [46; 46] ++ dirents 2 files)).
  pose proof (cost_of_app (mk_dirent 1 [46] ++ mk_dirent 1 [46; 46]) (dirents 2 files)) as H2. rewrite <- app_assoc in H2.
  unfold mkfs_main. apply wp_bind, wp_modify, wp_bind, wp_modify, wp_bind. unfold wsect. apply wp_modify. cbn [mkfs_start img freeinode freeblock set_img].
  apply wp_bind. eapply wp_mono; [apply (ialloc_ok _ [] T_DIR); [by apply image_start | simpl; lia | unfold T_DIR; lia]|].
  intros r s1 [-> Im1]. change (Z.of_nat (length (@nil (Z * list Z))) + 1) with 1. change (xshort 1) with 1. change (1 =? ROOTINO) with true.
  apply wp_bind, wp_ret, wp_bind. unfold root_dir in *.
  eapply wp_mono; [apply (iappend_ok s1 _ 0 T_DIR [] (mk_dirent 1 [46]) Im1); [done | simpl; lia | rewrite app_nil_l, length_dirent, MAXFILE_eq; unfold BSIZE; lia |]|].
  { cbn [app insert list_insert]. rewrite blocks_of_cons. change (blocks_of []) with 0. cbn [snd]. lia. }
  intros [] s2 Im2. cbn [app insert list_insert] in Im2. apply wp_bind.
  eapply wp_mono; [apply (iappend_ok s2 _ 0 T_DIR (mk_dirent 1 [46]) (mk_dirent 1 [46; 46]) Im2);
    [done | simpl; lia | rewrite length_app, !length_dirent, MAXFILE_eq; unfold BSIZE; lia |]|].
  { cbn [insert list_insert]. rewrite blocks_of_cons. change (blocks_of []) with 0. cbn [snd]. lia. }
  intros [] s3 Im3. cbn [insert list_insert] in Im3. apply wp_bind.
  eapply wp_mono; [apply (add_files_ok files s3 _ [] Im3); [simpl; lia | done | |]|].
  - change (Z.of_nat (length (@nil (Z * list Z))) + 2) with 2. rewrite <- app_assoc, Hr, MAXFILE_eq. unfold BSIZE. lia.
  - change (Z.of_nat (length (@nil (Z * list Z))) + 2) with 2. rewrite <- app_assoc. rewrite blocks_of_cons. cbn [snd app]. lia.
  - intros [] s4 Im4. change (Z.of_nat (length (@nil (Z * list Z))) + 2) with 2 in Im4. rewrite <- app_assoc in Im4.
    by apply finish_ok.
Qed.

(** _cat and README. *)
Definition sample_files : list (list Z * list Z) :=
  [([95; 99; 97; 116], [127; 69; 76; 70]); ([82; 69; 65; 68; 77; 69], replicate 700 120)].

Lemma mkfs_image_witness :
  exists s, mkfs_main sample_files mkfs_start = OK tt s
    /\ file_on (img s) sb 2 4 (cbyte [127; 69; 76; 70]) /\ file_on (img s) sb 3 700 (cbyte (replicate 700 120)).
Proof.
  destruct (mkfs_image sample_files) as (s & E & Hm).
  - split; [vm_compute; lia|]. split; [|apply Z.leb_le; vm_compute; reflexivity].
    repeat constructor; cbn [fst snd]; try (apply Z.leb_le; vm_compute; reflexivity);
      intros H; apply (bool_decide_pack _) in H; vm_compute in H; exact H.
  - exists s. split; [exact E|]. split.
    + apply (m_files _ _ _ Hm 0%nat _ _ eq_refl).
    + apply (m_files _ _ _ Hm 1%nat _ _ eq_refl).
Defined.
