(* ===== verification/KbdFacts.v ===== *)
(** The keyboard: the shift state and the characters that kbdgetc makes of
    scan codes. *)

From S2P Require Import Prelude Mmu Kalloc Kernel Fsys Console Kbd.

(** A predicate that holds of all pairs of small numbers. *)
Definition all_pairs (n m : nat) (f : Z -> Z -> bool) : bool :=
  forallb (fun a => forallb (fun b => f (Z.of_nat a) (Z.of_nat b)) (seq 0 m)) (seq 0 n).

Lemma all_pairs_spec n m f a b :
  all_pairs n m f = true -> 0 <= a < Z.of_nat n -> 0 <= b < Z.of_nat m -> f a b = true.
Proof.
  unfold all_pairs. rewrite forallb_forall. intros H Ha Hb. specialize (H (Z.to_nat a)).
  rewrite in_seq, forallb_forall in H. specialize (H ltac:(lia) (Z.to_nat b)). rewrite in_seq in H.
  rewrite !Z2Nat.id in H by lia. apply H. lia.
Qed.

(** The characters of a sequence of scan codes, and the shift state after
    it. *)
Fixpoint kbd_chars (shift : Z) (l : list Z) : Z * list Z :=
  match l with
  | [] => (shift, [])
  | data :: l => let '(s, cs) := kbd_chars (fst (kbd_step shift data)) l in (s, snd (kbd_step shift data) :: cs)
  end.

Definition step_typed (shift data : Z) : bool :=
  let '(s, c) := kbd_step shift data in
  (0 <=? s) && (s <? 128) && (0 <=? c) && (c <? 256) && ((data <? 128) || (c =? 0)).

Lemma all_typed : all_pairs 128 256 step_typed = true.
Proof. vm_compute. reflexivity. Qed.

Lemma kbd_step_typed shift data :
  0 <= shift < 128 -> 0 <= data < 256 ->
  0 <= fst (kbd_step shift data) < 128 /\ 0 <= snd (kbd_step shift data) < 256
  /\ (128 <= data -> snd (kbd_step shift data) = 0).
Proof.
  intros Hs Hd. pose proof (all_pairs_spec 128 256 step_typed shift data all_typed Hs Hd) as H.
  unfold step_typed in H. destruct (kbd_step shift data) as [s c]. simpl.
  rewrite !andb_true_iff, orb_true_iff, Z.leb_le, Z.ltb_lt, Z.leb_le, !Z.ltb_lt, Z.eqb_eq in H. lia.
Qed.


